(* ===== verification/_CoqProject ===== *)
-Q . S2P
Prelude.v
Types.v
Errors.v
CStr.v
RsrcName.v
Msg.v
MsgXml.v
MsgRound.v
Recv.v
Vfs.v
Fuse.v
Mount.v
World.v
Trace.v
Config.v
ConfigFile.v
LockMode.v
ConnLock.v
Resource.v
Simple.v
Numeric.v
SetRsrc.v
Sequence.v
Timestamp.v
Hier.v
Rsrc.v
Route.v
Conns.v
Locker.v
Calls.v
Serve.v
Exclusive.v
Daemon.v
Dispatch.v
Admission.v
Wire.v
Connect.v
Client.v
Exchange.v
Answers.v
Handover.v
Handle.v
Settings.v
Session.v
Api.v
Tls.v
Listen.v
Startup.v
Command.v
Main.v
Debug.v
Records.v
Parsers.v
