(* ===== verification/Prelude.v ===== *)
(** * FLoM, the Free Lock Manager: a verification library

    FLoM is a lock manager for processes and scripts.  An application, or the
    command [flom], asks a daemon for a lock on a named resource; the daemon
    starts one thread, the locker, for each resource and hands it the
    connections of the clients that want it; the locker answers the requests,
    keeps the queue of those that wait and grants them when a lock is released.
    This library translates the C sources under [src/src/] into Rocq
    definitions that run, and proves what makes them correct.

    ** The parts of the program, and where they are

    - [Types], [CStr], [Errors]: the constants of [flom_errors.h.in], [flom_types.h],
      [flom_rsrc.h], [flom_msg.h]; integers at their width, C strings, and the
      texts of the reason codes ([flom_errors.c]).
    - [RsrcName]: the names of resources ([flom_rsrc.c]): the table of regular
      expressions, a matcher for them, the parts of a name.
    - [Msg], [MsgXml], [MsgRound]: the messages ([flom_msg.c]): the data and its
      life, the text that is sent, the callbacks of the parser that reads it,
      and the round trip.
    - [Recv]: one message out of a stream of bytes ([flom_tcp_recv_msg],
      [flom_tls_recv_msg]).
    - [Vfs], [Fuse], [Mount]: the tree in memory ([flom_vfs.c]), the callbacks that
      show it as a file system ([flom_fuse.c]), and the thread that mounts it
      ([flom_daemon_mngmnt.c]).
    - [Trace]: the records that the program writes about itself and the stream
      they go to ([flom_trace.c]).
    - [World], [Conns]: connections, sending, closing, and the array of
      connections that a thread polls ([flom_conn.c], [flom_conns.c], and the
      parts of [flom_tcp.c] and [flom_tls.c] that send and close).
    - [LockMode], [ConnLock], [Resource]: the table of the lock modes, what the six
      types of resources share, and their interface: a class of methods
      ([Resource]), of what an implementation promises about its data
      ([ResourceInv]) and of its termination.
    - [Simple], [Numeric], [SetRsrc], [Sequence], [Timestamp], [Hier]: one file
      for each [flom_resource_*.c]; [Rsrc] is the dispatch between them
      ([flom_rsrc.c]); [Route] is which resource a name belongs to.
    - [Locker], [Calls], [Serve]: the thread of a resource ([flom_locker.c]), the
      contract that says which methods of the resource it calls and when, and its
      composition with the resource's methods.
    - [Exclusive]: what holds of a resource whatever the clients send.
    - [Daemon], [Dispatch], [Admission]: the accept loop ([flom_daemon.c],
      [flom_daemon_mngmnt.c]), its interleaving with the threads of the lockers,
      and what becomes of the first request of a client.
    - [Wire]: from the bytes of a stream or of a datagram ([flom_conn_recv],
      [flom_tcp_recv], [flom_msg_deserialize]) to the inputs of these loops.
    - [Config], [ConfigFile], [Settings]: the configuration objects
      ([flom_config.c], [flom_config.h]), their files, what is read back from
      them and what the final check accepts.
    - [Connect], [Client]: the client ([flom_client.c]): a local socket, a TCP
      address or a discovery by multicast, then the requests.
    - [Exchange], [Answers], [Handover]: a client and the locker of a resource
      together: a request and its answer, against an interface ([Answering]) that
      four types of resources discharge; and a lock that passes from the client
      that releases it to one that waits ([Releasing]).
    - [Handle], [Session], [Api]: the programming interface ([flom_handle.c]):
      one handle, concrete sessions, and any sequence of calls.
    - [Tls]: secure connections ([flom_tls.c]): the object and its memory, the
      negotiation, the certificate of the peer and the check of its identifier.
    - [Listen], [Startup]: how a daemon starts ([flom_daemon] and the listeners of
      [flom_daemon.c], [flom_tcp_listen], [flom_conn_init]): the processes and the
      pipe between them, the sockets, and the lock file of a local daemon.
    - [Command], [Main]: the command line ([main.c], [flom_exec.c]): its options
      over the configuration, then the command under its lock.
    - [Debug]: the features that test the multicast and the certificates of an
      installation ([flom_debug_features.c]), on top of the calls above.
    - [Records]: the trace of a message and of a hierarchical resource, the printing
      of the configuration and of the signals ([flom_msg_trace],
      [flom_resource_hier_trace], [flom_config_print],
      [flom_config_print_signal_list]).
    - [Parsers]: when the parser objects of connections are made, used and released
      ([flom_conn_set_parser], [flom_conn_free_parser] and their callers).

    ** How the code is translated

    Definitions have the names of the functions they translate.  A function
    that returns a reason code and changes what it is given is a computation of
    the monad [M] below: from a state, a result or an error, and the state
    reached in both cases, since a [THROW] leaves the body with the changes made
    so far.  A pointer that the code dereferences without looking at it, an index
    out of an array, a freed string, an uninitialised variable are the error
    [Ub]; theorems show where it cannot happen, or where it does.  Shared
    objects (connections, configurations, strings, nodes of the tree) are in
    tables of the state, and a pointer is a key of the table, so that aliases
    are seen and a stale pointer is [Ub].

    What the system, GLib and OpenSSL answer is data of the state, a list of
    inputs consumed call by call ([w_sends], [w_mallocs], [k_sockets],
    [k_recvs], [x_waits], ...), or the argument of a step ([poll]): the theorems
    hold for all of them, failures included.  Functions of libraries that compute
    something are members of the classes [Glib] (base64), [Calendar]
    ([localtime_r], [strftime]), [System] ([realpath], the interfaces of the
    network, the key files), [OpenSSL] (the handshake, with the law [Verifies]),
    [Libfuse] (the encoding of a directory entry), [Markup] (the XML parser) and
    [FileSystem] (where a local daemon has its socket, with the laws of [Posix]);
    what a theorem needs of them is a named hypothesis, and a witness
    instantiates it.  Integers are [Z], and wrap or overflow where the code lets
    them: [int32], [uint32], [Z.quot].

    Threads are a step relation: a round of the accept loop or of the loop of one
    locker is one step, and [system_step] interleaves them.  The mutexes of the
    code guard whole functions, which are atomic here.

    ** What is proved

    - Mutual exclusion: in every reachable state of the whole daemon the holders
      of a simple resource, in lockers that still serve, are compatible
      ([system_mutual_exclusion], for any messages); after requests that are in
      range (modes of the six, quantities that are not negative, names under the
      root of a tree) the holders of a resource are
      compatible with each other ([Simple], [Hier]), within the total
      ([Numeric]); until the counter wraps the values issued are distinct and never
      issued again ([Sequence]); while the clock does not go back each timestamp is
      in a later interval than the one before ([Timestamp]).
    - No lost wake-up: when the sends work the release of a lock grants what the
      queue and the other locks allow, in its
      order ([simple_no_lost_wakeup] and the [_clean_grants] theorems), and what
      a request is answered is a function of the state ([_lock_answer]).
    - The two ends agree: a client believes it holds a lock exactly when the
      locker counts it among the holders ([client_and_locker_agree]); when a holder
      releases a resource, the waiting clients that it can be granted to become
      holders, are told in their order, and return from their wait with the lock
      ([lock_handed_over]).
    - The recursive check of the tree of a hierarchical resource is the
      comparison with all the locks above, at and below ([hier_can_lock_correct]).
    - The union of the six types keeps its type and its invariant, and each
      method ends ([Rsrc]); the thread of a locker makes the calls of the methods
      that its contract says, with the connection and the message it says, and no
      other ([locker_refines_resource]).
    - No two lockers serve the same resource, however the threads interleave
      ([one_locker_per_resource]); a request is handed over, queued or refused
      ([Admission]); a new locker takes the clients that waited for it.
    - Messages: what is serialized is what is deserialized, the buffer is never
      exceeded, a stream of bytes is cut exactly at the end of a message, and any
      number of messages shorter than the buffer of the receiver arrive whole and in
      order ([messages_arrive_in_order]).
    - Handles: when no file of the configuration names the files of TLS, whatever is
      called in whatever order, every string has one owner
      and no two handles share a connection or a configuration
      ([handles_never_share]); calls out of sequence are refused without effect;
      the calls follow the automaton of the states; a setter is read back; the
      stream of the trace is used only while it is open
      ([local_calls_memory_safe]), and the records fit in their buffer ([Trace]).
      Whatever is sent can be traced ([sent_message_traced]), a tree is traced in
      order ([hier_tree_outlined]), and the configuration is printed as it is
      ([config_printed]).
    - Parser objects: none is used after its end, nor writes in a message that is no
      more ([client_parsers_released], [table_parsers_owned]).
    - Daemons: whoever starts one learns how it has listened
      ([daemon_start_answers]), its table is the one the accept loop relies on
      ([daemon_listens]), and no two that run have the same local socket, unless one
      is named after the lock file of another
      ([one_daemon_per_socket], [lock_file_taken_for_socket]).
    - Secure connections: who passes the check has a trusted certificate with its
      name ([peer_authenticated]), and the memory is released, but for a field that a
      certificate repeats ([tls_memory_released], [repeated_field_leaks]).
    - The debugging features: a TLS client or server that reports no error has
      talked to the machine it was told ([tls_client_authenticates],
      [tls_server_authenticates]); a multicast one leaves no descriptor open
      ([multicast_client_ends], [multicast_server_ends]).
    - The command line: what its options make of the configuration
      ([command_line_applied]); the command runs under its lock and the unlock
      says whether its exit status is zero ([command_runs_under_lock]); its signals and its
      status ([exec_correct], [killed_command_commits]).
    - The file system: the identifiers of the tree stay distinct
      ([tree_identifiers_distinct]), the callbacks show the tree as it is
      ([fuse_shows_tree]), and a file is read whole ([fuse_read_back]).
    - The theorems named after a failure ([refused_command_runs],
      [hier_other_root_granted],
      [name_with_nul_accepted],
      [simple_dead_waiter_stops_scan], ...) are closed computations that show
      what the code does where it does not do what it means to.

    ** Fuel and bounds

    Structural recursion is used where the loop follows a list.  Other loops have
    fuel, and run out of it with the error [NoFuel]: the scan of a queue of
    waiting clients and that of the incubator have the length of the queue, which
    each round shortens; the walk of the hierarchical tree has the number of
    levels of the name; the reading of a message has one unit for each byte of
    the buffer, since a read returns at least one; the wait for a lock has one
    for each answer to come.  [resource_methods_terminate], [locker_loop_ends],
    [accept_round_ends] and [recv_msg_safe] show that it never runs out.

    ** What is not modelled

    The other records that the functions write with [FLOM_TRACE], and what else they
    print ([syslog], [g_print]): they read the state and change nothing but the
    trace, which [Trace] models with the calls that open it; [Records] has those
    that go through the data of the program.  The XML parser, base64 and
    key files of GLib, OpenSSL, libfuse and the system calls are parameters or
    inputs; the parsing of the options of the command line is GLib's.  The
    loops take what the parser finds as an input, and [Wire] has the object of the
    parser that a connection keeps, whose memory is in [Parsers].
    The interfaces for other languages under [src/src/] (C++, Java, Perl, PHP,
    Python) translate calls. *)
From Stdlib Require Import ZArith String List Lia.
From stdpp Require Import base list gmap strings.

Declare Scope flom_scope.
Delimit Scope flom_scope with flom.

(** ** Errors and the state-and-exception monad

    A C function of this program returns a reason code and mutates what it is
    given; [THROW] leaves the body with the state as it is at that point.  [M E
    S A] is that shape: from a state, either a result or an error, together
    with the state reached in both cases.  [Rc rc] is a reason code different
    from [FLOM_RC_OK]; [Ub] is behaviour the C standard leaves undefined (an
    access outside a table, a dangling connection pointer); [NoFuel] marks a
    loop whose fuel is exhausted, and the theorems show it never happens. *)
Inductive err : Type :=
| Rc (rc : Z)
| Ub
| NoFuel.

#[global] Instance err_eq_dec : EqDecision err.
Proof. solve_decision. Defined.

Definition M (E S A : Type) : Type := S -> (E + A) * S.

#[global] Instance M_ret (E S : Type) : MRet (M E S) := fun A a s => (inr a, s).

#[global] Instance M_bind (E S : Type) : MBind (M E S) := fun A B k m s =>
  match m s with
  | (inr a, s') => k a s'
  | (inl e, s') => (inl e, s')
  end.

Definition throw {E S A : Type} (e : E) : M E S A := fun s => (inl e, s).
Definition gets {E S A : Type} (f : S -> A) : M E S A := fun s => (inr (f s), s).
Definition modify {E S : Type} (f : S -> S) : M E S unit := fun s => (inr tt, f s).
Definition when {E S : Type} (b : bool) (m : M E S unit) : M E S unit :=
  if b then m else mret tt.
Definition of_option {E S A : Type} (e : E) (o : option A) : M E S A :=
  match o with Some a => mret a | None => throw e end.

(** [zoom get set m] runs [m] on the part of the state that [get] and [set]
    describe: a callee that is handed a pointer to that part. *)
Definition zoom {E S T A : Type} (get : S -> T) (set : T -> S -> S)
    (m : M E T A) : M E S A :=
  fun s => let '(r, t) := m (get s) in (r, set t s).

(** The callers that only trace a failed call go on whatever its reason code;
    undefined behaviour does not go away. *)
Definition ignore_rc {S A : Type} (m : M err S A) : M err S unit := fun s =>
  match m s with
  | (inl (Rc _), s') => (inr tt, s')
  | (inl e, s') => (inl e, s')
  | (inr _, s') => (inr tt, s')
  end.

(** The clean-up of a [CATCH]: on error [f] is applied to the state. *)
Definition on_error {E S A : Type} (m : M E S A) (f : S -> S) : M E S A := fun s =>
  match m s with
  | (inl e, s') => (inl e, f s')
  | r => r
  end.

(** A call whose reason code the caller looks at; what is not a reason code is
    not caught. *)
Definition attempt {S A : Type} (m : M err S A) : M err S (Z + A) := fun s =>
  match m s with
  | (inl (Rc rc), s') => (inr (inl rc), s')
  | (inl e, s') => (inl e, s')
  | (inr a, s') => (inr (inr a), s')
  end.

(** The clean-up that follows a [CATCH], on success and on error *)
Definition finally {S A} (m : M err S A) (clean : M err S unit) : M err S A := fun s =>
  match m s with
  | (inl (Rc rc), s) => (_ ← clean; throw (Rc rc)) s
  | (inl e, s) => (inl e, s)
  | (inr a, s) => (_ ← clean; mret a) s
  end.

(** ** Weakest preconditions *)
Definition wp {E S A : Type} (m : M E S A) (Q : E + A -> S -> Prop) (s : S) : Prop :=
  Q (m s).1 (m s).2.

Section wp_rules.
Context {E S : Type}.

Lemma wp_ret {A} (a : A) (Q : E + A -> S -> Prop) s :
  Q (inr a) s -> wp (mret a) Q s.
Proof. exact id. Qed.

Lemma wp_throw {A} (e : E) (Q : E + A -> S -> Prop) s :
  Q (inl e) s -> wp (throw e) Q s.
Proof. exact id. Qed.

Lemma wp_gets {A} (f : S -> A) (Q : E + A -> S -> Prop) s :
  Q (inr (f s)) s -> wp (gets f) Q s.
Proof. exact id. Qed.

Lemma wp_modify (f : S -> S) (Q : E + unit -> S -> Prop) s :
  Q (inr tt) (f s) -> wp (modify f) Q s.
Proof. exact id. Qed.

Lemma wp_bind {A B} (m : M E S A) (k : A -> M E S B) (Q : E + B -> S -> Prop) s :
  wp m (fun r s' => match r with
                    | inr a => wp (k a) Q s'
                    | inl e => Q (inl e) s'
                    end) s ->
  wp (m ≫= k) Q s.
Proof.
  unfold wp, mbind, M_bind. destruct (m s) as [[e|a] s']; exact id.
Qed.

Lemma wp_mono {A} (m : M E S A) (P Q : E + A -> S -> Prop) s :
  (forall r s', P r s' -> Q r s') -> wp m P s -> wp m Q s.
Proof. unfold wp; auto. Qed.

Lemma wp_same {A} (m m' : M E S A) (Q : E + A -> S -> Prop) s :
  m' s = m s -> wp m Q s -> wp m' Q s.
Proof. unfold wp. by intros ->. Qed.

Lemma wp_when (b : bool) (m : M E S unit) (Q : E + unit -> S -> Prop) s :
  (b = true -> wp m Q s) -> (b = false -> Q (inr tt) s) -> wp (when b m) Q s.
Proof. destruct b; unfold wp; simpl; auto. Qed.

Lemma wp_of_option {A} (e : E) (o : option A) (Q : E + A -> S -> Prop) s :
  (forall a, o = Some a -> Q (inr a) s) -> (o = None -> Q (inl e) s) ->
  wp (of_option e o) Q s.
Proof. destruct o; unfold wp; simpl; auto. Qed.

Lemma wp_on_error {A} (m : M E S A) (f : S -> S) (Q : E + A -> S -> Prop) s :
  wp m (fun r s' => match r with
                    | inl e => Q (inl e) (f s')
                    | inr a => Q (inr a) s'
                    end) s ->
  wp (on_error m f) Q s.
Proof. unfold wp, on_error. destruct (m s) as [[e|a] s']; exact id. Qed.

Lemma wp_zoom {T A} (get : S -> T) (set : T -> S -> S) (m : M E T A)
    (Q : E + A -> S -> Prop) s :
  wp m (fun r t => Q r (set t s)) (get s) -> wp (zoom get set m) Q s.
Proof. unfold wp, zoom. destruct (m (get s)); exact id. Qed.
End wp_rules.

Lemma wp_ignore_rc {S A : Type} (m : M err S A) (Q : err + unit -> S -> Prop) s :
  wp m (fun r s' => match r with
                    | inr _ | inl (Rc _) => Q (inr tt) s'
                    | inl e => Q (inl e) s'
                    end) s ->
  wp (ignore_rc m) Q s.
Proof.
  unfold wp, ignore_rc. destruct (m s) as [[[rc| |]|a] s']; exact id.
Qed.

Lemma wp_attempt {S A : Type} (m : M err S A) (Q : err + (Z + A) -> S -> Prop) s :
  wp m (fun r s' => match r with
                    | inr a => Q (inr (inr a)) s'
                    | inl (Rc rc) => Q (inr (inl rc)) s'
                    | inl e => Q (inl e) s'
                    end) s ->
  wp (attempt m) Q s.
Proof. unfold wp, attempt. destruct (m s) as [[[rc| |]|a] s']; exact id. Qed.

Lemma wp_finally {S A : Type} (m : M err S A) clean (Q : err + A -> S -> Prop) s :
  wp m (fun r s' => match r with
                    | inr a => wp (_ ← clean; mret a) Q s'
                    | inl (Rc rc) => wp (_ ← clean; throw (Rc rc)) Q s'
                    | inl e => Q (inl e) s'
                    end) s ->
  wp (finally m clean) Q s.
Proof. unfold wp, finally. destruct (m s) as [[[rc| |]|a] s']; exact id. Qed.

(** One symbolic step through a program. *)
Ltac wp_step :=
  lazymatch goal with
  | |- wp (mbind _ _) _ _ => apply wp_bind
  | |- wp (mret _) _ _ => apply wp_ret
  | |- wp (throw _) _ _ => apply wp_throw
  | |- wp (gets _) _ _ => apply wp_gets
  | |- wp (modify _) _ _ => apply wp_modify
  | |- wp (when _ _) _ _ => apply wp_when; intros
  | |- wp (of_option _ _) _ _ => apply wp_of_option; intros
  | |- wp (zoom _ _ _) _ _ => apply wp_zoom
  | |- wp (on_error _ _) _ _ => apply wp_on_error
  | |- wp (ignore_rc _) _ _ => apply wp_ignore_rc
  | |- wp (attempt _) _ _ => apply wp_attempt
  | |- wp (finally _ _) _ _ => apply wp_finally
  | |- wp (if ?b then _ else _) _ _ => destruct b eqn:?
  | |- wp (match ?x with _ => _ end) _ _ => destruct x eqn:?
  end; cbn beta iota.
Ltac wp_steps := repeat wp_step.

(** ** Lists *)
Lemma ForallOrdPairs_Permutation {A} (R : A -> A -> Prop) l l' :
  (forall x y, R x y -> R y x) -> l ≡ₚ l' -> ForallOrdPairs R l -> ForallOrdPairs R l'.
Proof.
  intros Hs. induction 1 as [|x l l' Hp IH|x y l|l1 l2 l3 _ IH1 _ IH2]; intros Hl.
  - constructor.
  - inversion Hl as [|? ? Hx Hl']; subst. constructor; [by rewrite <- Hp | auto].
  - inversion Hl as [|? ? Hy Hl']; subst. inversion Hl' as [|? ? Hx Hl'']; subst.
    apply Forall_cons in Hy as [Hyx Hy].
    constructor; [constructor; auto | by constructor].
  - auto.
Qed.

(** Changing one element *)
Lemma alter_split {A} (l : list A) k c :
  l !! k = Some c ->
  exists l1 l2, l = l1 ++ c :: l2 /\ forall f, alter f k l = l1 ++ f c :: l2.
Proof.
  revert k. induction l as [|x l IH]; intros [|k]; cbn; [done..| |].
  - intros [= ->]. by exists [], l.
  - intros Hk. destruct (IH _ Hk) as (l1 & l2 & -> & Ha).
    exists (x :: l1), l2. split; [done|]. intros f. cbn. f_equal. apply Ha.
Qed.

(** ** Programs that never run out of fuel *)
Definition terminates {S A : Type} (m : M err S A) : Prop := forall s, (m s).1 <> inl NoFuel.

Lemma terminates_ret {S A} (a : A) : terminates (S := S) (mret a).
Proof. done. Qed.
Lemma terminates_throw {S A} e : e <> NoFuel -> terminates (S := S) (A := A) (throw e).
Proof. intros He s [=]. done. Qed.
Lemma terminates_gets {S A} (f : S -> A) : terminates (gets f).
Proof. done. Qed.
Lemma terminates_modify {S} (f : S -> S) : terminates (modify f).
Proof. done. Qed.
Lemma terminates_bind {S A B} (m : M err S A) (k : A -> M err S B) :
  terminates m -> (forall a, terminates (k a)) -> terminates (m ≫= k).
Proof.
  intros Hm Hk s. specialize (Hm s). unfold mbind, M_bind.
  destruct (m s) as [[e|a] s']; [|apply Hk]. intros [= ->]. by apply Hm.
Qed.
Lemma terminates_of_option {S A} e (o : option A) :
  e <> NoFuel -> terminates (S := S) (of_option e o).
Proof. destruct o; [done|]. apply terminates_throw. Qed.
Lemma terminates_when {S} b (m : M err S unit) : terminates m -> terminates (when b m).
Proof. by destruct b. Qed.
Lemma terminates_zoom {S T A} (get : S -> T) (set : T -> S -> S) (m : M err T A) :
  terminates m -> terminates (zoom get set m).
Proof. intros Hm s. specialize (Hm (get s)). unfold zoom. by destruct (m (get s)). Qed.

Lemma terminates_on_error {S A} (m : M err S A) f : terminates m -> terminates (on_error m f).
Proof. intros Hm s. specialize (Hm s). unfold on_error. by destruct (m s) as [[e|a] s']. Qed.

Lemma terminates_attempt {S A} (m : M err S A) : terminates m -> terminates (attempt m).
Proof. intros Hm s. specialize (Hm s). unfold attempt. by destruct (m s) as [[[]|a] s']. Qed.
Lemma terminates_ignore_rc {S A} (m : M err S A) : terminates m -> terminates (ignore_rc m).
Proof. intros Hm s. specialize (Hm s). unfold ignore_rc. by destruct (m s) as [[[]|a] s']. Qed.

Create HintDb terminates.
#[export] Hint Resolve terminates_ret terminates_gets terminates_modify : terminates.

(** Follow the structure of a program down to calls the database knows. *)
Ltac solve_terminates :=
  lazymatch goal with
  | |- terminates (mbind _ _) => apply terminates_bind; [|intros ?]; solve_terminates
  | |- terminates (throw _) => apply terminates_throw; discriminate
  | |- terminates (of_option _ _) => apply terminates_of_option; discriminate
  | |- terminates (when _ _) => apply terminates_when; solve_terminates
  | |- terminates (attempt _) => apply terminates_attempt; solve_terminates
  | |- terminates (ignore_rc _) => apply terminates_ignore_rc; solve_terminates
  | |- terminates (on_error _ _) => apply terminates_on_error; solve_terminates
  | |- terminates (if ?b then _ else _) => destruct b; solve_terminates
  | |- terminates (match ?x with _ => _ end) => destruct x; solve_terminates
  | |- terminates (let _ := _ in _) => intros ?; solve_terminates
  | |- _ => auto with terminates
  end.

(** ** What a program leaves alone *)
Definition untouched {E S A B : Type} (f : S -> B) (m : M E S A) : Prop :=
  forall s, f (m s).2 = f s.

Section untouched.
Context {E S B : Type} (f : S -> B).

Lemma untouched_ret {A} (a : A) : untouched f (mret a : M E S A).
Proof. done. Qed.
Lemma untouched_throw {A} (e : E) : untouched f (throw (A := A) e).
Proof. done. Qed.
Lemma untouched_gets {A} (g : S -> A) : untouched f (gets g : M E S A).
Proof. done. Qed.
Lemma untouched_modify g : (forall s, f (g s) = f s) -> untouched f (modify g : M E S unit).
Proof. intros Hg s. apply Hg. Qed.
Lemma untouched_bind {A C} (m : M E S A) (k : A -> M E S C) :
  untouched f m -> (forall a, untouched f (k a)) -> untouched f (m ≫= k).
Proof.
  intros Hm Hk s. specialize (Hm s). unfold mbind, M_bind.
  destruct (m s) as [[e|a] s']; [exact Hm|]. cbn in *. by rewrite <- Hm, Hk.
Qed.
Lemma untouched_of_option {A} (e : E) (o : option A) : untouched f (of_option e o : M E S A).
Proof. by destruct o. Qed.
Lemma untouched_when b (m : M E S unit) : untouched f m -> untouched f (when b m).
Proof. by destruct b. Qed.
Lemma untouched_zoom {T A} (get : S -> T) (set : T -> S -> S) (g : T -> B) (m : M E T A) :
  (forall t s, f (set t s) = g t) -> (forall s, g (get s) = f s) ->
  untouched g m -> untouched f (zoom get set m).
Proof.
  intros Hs Hg Hm s. specialize (Hm (get s)). unfold zoom. destruct (m (get s)) as [r t].
  cbn in *. by rewrite Hs, Hm, Hg.
Qed.
Lemma untouched_zoom_other {T A} (get : S -> T) (set : T -> S -> S) (m : M E T A) :
  (forall t s, f (set t s) = f s) -> untouched f (zoom get set m).
Proof. intros Hs s. unfold zoom. destruct (m (get s)). apply Hs. Qed.
End untouched.

Lemma untouched_attempt {S A B} (f : S -> B) (m : M err S A) :
  untouched f m -> untouched f (attempt m).
Proof. intros Hm s. specialize (Hm s). unfold attempt. by destruct (m s) as [[[]|a] s']. Qed.
Lemma untouched_ignore_rc {S A B} (f : S -> B) (m : M err S A) :
  untouched f m -> untouched f (ignore_rc m).
Proof. intros Hm s. specialize (Hm s). unfold ignore_rc. by destruct (m s) as [[[]|a] s']. Qed.

(** What holds of the part left alone still holds. *)
Lemma wp_untouched {S A B} (f : S -> B) (m : M err S A) (Q : err + A -> S -> Prop) s :
  untouched f m -> (forall r s', f s' = f s -> Q r s') -> wp m Q s.
Proof. intros Hm HQ. unfold wp. apply HQ, Hm. Qed.

Create HintDb untouched.
#[export] Hint Resolve untouched_ret untouched_throw untouched_gets untouched_of_option : untouched.

Ltac solve_untouched :=
  repeat first
    [ progress intros
    | solve [auto with untouched]
    | apply untouched_bind
    | apply untouched_when
    | apply untouched_attempt
    | apply untouched_ignore_rc
    | apply untouched_modify; solve [intros; reflexivity]
    | match goal with
      | |- untouched _ (if ?b then _ else _) => destruct b
      | |- untouched _ (match ?x with _ => _ end) => destruct x
      | |- untouched _ (let '_ := ?x in _) => destruct x
      end ].
