(* ===== verification/Types.v ===== *)
(** * Types: reason codes, lock modes, resource types and time values

    The constants of [src/src/flom_errors.h.in], [flom_types.h], [flom_rsrc.h],
    [flom_msg.h] and [flom_defines.h] under their own names, and [struct timeval]. *)
From Stdlib Require Import ZArith.
From stdpp Require Import base list numbers.
From S2P Require Import Prelude.
Local Open Scope Z_scope.

(** ** Reason codes ([flom_errors.h.in]) *)
Definition FLOM_RC_INACTIVE_FEATURE : Z := 13.
Definition FLOM_RC_RESOURCE_IS_NOT_TRANSACTIONAL : Z := 12.
Definition FLOM_RC_API_IMMUTABLE_HANDLE : Z := 11.
Definition FLOM_RC_ELEMENT_NAME_NOT_AVAILABLE : Z := 10.
Definition FLOM_RC_NETWORK_TIMEOUT : Z := 9.
Definition FLOM_RC_CONNECTION_CLOSED : Z := 8.
Definition FLOM_RC_CONNECTION_REFUSED : Z := 7.
Definition FLOM_RC_LOCK_IMPOSSIBLE : Z := 6.
Definition FLOM_RC_LOCK_CANT_WAIT : Z := 5.
Definition FLOM_RC_LOCK_BUSY : Z := 4.
Definition FLOM_RC_LOCK_CANT_LOCK : Z := 3.
Definition FLOM_RC_LOCK_WAIT_RESOURCE : Z := 2.
Definition FLOM_RC_LOCK_ENQUEUED : Z := 1.
Definition FLOM_RC_OK : Z := 0.
Definition FLOM_RC_INTERNAL_ERROR : Z := (-1).
Definition FLOM_RC_DAEMON_NOT_STARTED : Z := (-2).
Definition FLOM_RC_NETWORK_EVENT_ERROR : Z := (-3).
Definition FLOM_RC_NULL_OBJECT : Z := (-4).
Definition FLOM_RC_INVALID_OPTION : Z := (-5).
Definition FLOM_RC_OBJ_CORRUPTED : Z := (-6).
Definition FLOM_RC_OUT_OF_RANGE : Z := (-7).
Definition FLOM_RC_INVALID_PREFIX_SIZE : Z := (-8).
Definition FLOM_RC_BUFFER_OVERFLOW : Z := (-9).
Definition FLOM_RC_INVALID_MSG_LENGTH : Z := (-10).
Definition FLOM_RC_INVALID_PROPERTY_VALUE : Z := (-11).
Definition FLOM_RC_CONTAINER_FULL : Z := (-12).
Definition FLOM_RC_PROTOCOL_ERROR : Z := (-13).
Definition FLOM_RC_INVALID_RESOURCE_NAME : Z := (-14).
Definition FLOM_RC_PROTOCOL_LEVEL_MISMATCH : Z := (-15).
Definition FLOM_RC_MSG_DESERIALIZE_ERROR : Z := (-16).
Definition FLOM_RC_API_INVALID_SEQUENCE : Z := (-17).
Definition FLOM_RC_INVALID_AI_FAMILY_ERROR : Z := (-18).
Definition FLOM_RC_INVALID_IP_ADDRESS : Z := (-19).
Definition FLOM_RC_INVALID_IPV6_NETWORK_INTERFACE : Z := (-20).
Definition FLOM_RC_NEW_OBJ : Z := (-21).
Definition FLOM_RC_NO_CERTIFICATE : Z := (-22).
Definition FLOM_RC_UNIQUE_ID_DOES_NOT_MATCH : Z := (-23).
Definition FLOM_RC_NO_TLS_CONNECTION : Z := (-24).
Definition FLOM_RC_INVALID_TIMESTAMP_FORMAT : Z := (-25).
Definition FLOM_RC_RESOURCE_INIT_ERROR : Z := (-26).
Definition FLOM_RC_CONNECTION_CLOSED_BY_SERVER : Z := (-27).
Definition FLOM_RC_OBJ_NOT_FOUND_ERROR : Z := (-28).
Definition FLOM_RC_ACCEPT_ERROR : Z := (-100).
Definition FLOM_RC_BIND_ERROR : Z := (-101).
Definition FLOM_RC_CHDIR_ERROR : Z := (-102).
Definition FLOM_RC_CLOSE_ERROR : Z := (-103).
Definition FLOM_RC_CLOSEDIR_ERROR : Z := (-104).
Definition FLOM_RC_CONNECT_ERROR : Z := (-105).
Definition FLOM_RC_EXECVP_ERROR : Z := (-106).
Definition FLOM_RC_FCNTL_ERROR : Z := (-107).
Definition FLOM_RC_FLOCK_ERROR : Z := (-108).
Definition FLOM_RC_FORK_ERROR : Z := (-109).
Definition FLOM_RC_GETADDRINFO_ERROR : Z := (-110).
Definition FLOM_RC_GETIFADDRS_ERROR : Z := (-111).
Definition FLOM_RC_GETNAMEINFO_ERROR : Z := (-112).
Definition FLOM_RC_GETSOCKNAME_ERROR : Z := (-113).
Definition FLOM_RC_GETSOCKOPT_ERROR : Z := (-114).
Definition FLOM_RC_GETTIMEOFDAY_ERROR : Z := (-115).
Definition FLOM_RC_INET_NTOP_ERROR : Z := (-116).
Definition FLOM_RC_LISTEN_ERROR : Z := (-117).
Definition FLOM_RC_LOCALTIME_R_ERROR : Z := (-118).
Definition FLOM_RC_MALLOC_ERROR : Z := (-119).
Definition FLOM_RC_OPEN_ERROR : Z := (-120).
Definition FLOM_RC_OPENDIR_ERROR : Z := (-121).
Definition FLOM_RC_PIPE_ERROR : Z := (-122).
Definition FLOM_RC_POLL_ERROR : Z := (-123).
Definition FLOM_RC_READ_ERROR : Z := (-124).
Definition FLOM_RC_REALPATH_ERROR : Z := (-125).
Definition FLOM_RC_RECV_ERROR : Z := (-126).
Definition FLOM_RC_RECVFROM_ERROR : Z := (-127).
Definition FLOM_RC_REGCOMP_ERROR : Z := (-128).
Definition FLOM_RC_REGEXEC_ERROR : Z := (-129).
Definition FLOM_RC_SEND_ERROR : Z := (-130).
Definition FLOM_RC_SENDTO_ERROR : Z := (-131).
Definition FLOM_RC_SETSID_ERROR : Z := (-132).
Definition FLOM_RC_SETSOCKOPT_ERROR : Z := (-133).
Definition FLOM_RC_SIGACTION_ERROR : Z := (-134).
Definition FLOM_RC_SIGADDSET_ERROR : Z := (-135).
Definition FLOM_RC_SIGEMPTYSET_ERROR : Z := (-136).
Definition FLOM_RC_SIGNAL_ERROR : Z := (-137).
Definition FLOM_RC_SIGPROCMASK_ERROR : Z := (-138).
Definition FLOM_RC_SOCKET_ERROR : Z := (-139).
Definition FLOM_RC_SNPRINTF_ERROR : Z := (-140).
Definition FLOM_RC_UNLINK_ERROR : Z := (-141).
Definition FLOM_RC_WAIT_ERROR : Z := (-142).
Definition FLOM_RC_WRITE_ERROR : Z := (-143).
Definition FLOM_RC_G_ARRAY_NEW_ERROR : Z := (-200).
Definition FLOM_RC_G_BASE64_DECODE_ERROR : Z := (-201).
Definition FLOM_RC_G_BASE64_ENCODE_ERROR : Z := (-202).
Definition FLOM_RC_G_KEY_FILE_LOAD_FROM_FILE_ERROR : Z := (-203).
Definition FLOM_RC_G_KEY_FILE_NEW_ERROR : Z := (-204).
Definition FLOM_RC_G_MARKUP_PARSE_CONTEXT_NEW_ERROR : Z := (-205).
Definition FLOM_RC_G_MARKUP_PARSE_CONTEXT_PARSE_ERROR : Z := (-206).
Definition FLOM_RC_G_NODE_APPEND_DATA_ERROR : Z := (-207).
Definition FLOM_RC_G_NODE_NEW_ERROR : Z := (-208).
Definition FLOM_RC_G_NODE_PREPEND_DATA_ERROR : Z := (-209).
Definition FLOM_RC_G_PTR_ARRAY_REMOVE_INDEX_FAST_ERROR : Z := (-210).
Definition FLOM_RC_G_QUEUE_NEW_ERROR : Z := (-211).
Definition FLOM_RC_G_STRDUP_ERROR : Z := (-212).
Definition FLOM_RC_G_STRNDUP_ERROR : Z := (-213).
Definition FLOM_RC_G_STRSPLIT_ERROR : Z := (-214).
Definition FLOM_RC_G_THREAD_NEW_ERROR : Z := (-215).
Definition FLOM_RC_G_TRY_MALLOC_ERROR : Z := (-216).
Definition FLOM_RC_G_TRY_REALLOC_ERROR : Z := (-217).
Definition FLOM_RC_GET_FIELD_ID_ERROR : Z := (-300).
Definition FLOM_RC_GET_OBJECT_CLASS_ERROR : Z := (-301).
Definition FLOM_RC_NEW_DIRECT_BYTE_BUFFER_ERROR : Z := (-302).
Definition FLOM_RC_SSL_CTX_CHECK_PRIVATE_KEY_ERROR : Z := (-400).
Definition FLOM_RC_SSL_CTX_LOAD_VERIFY_LOCATIONS_ERROR : Z := (-401).
Definition FLOM_RC_SSL_CTX_NEW_ERROR : Z := (-402).
Definition FLOM_RC_SSL_CTX_USE_CERTIFICATE_FILE_ERROR : Z := (-403).
Definition FLOM_RC_SSL_CTX_USE_PRIVATEKEY_FILE_ERROR : Z := (-404).
Definition FLOM_RC_SSL_ACCEPT_ERROR : Z := (-405).
Definition FLOM_RC_SSL_CONNECT_ERROR : Z := (-406).
Definition FLOM_RC_SSL_GET_VERIFY_RESULT_ERROR : Z := (-407).
Definition FLOM_RC_SSL_NEW_ERROR : Z := (-408).
Definition FLOM_RC_SSL_READ_ERROR : Z := (-409).
Definition FLOM_RC_SSL_SET_EX_DATA_ERROR : Z := (-410).
Definition FLOM_RC_SSL_SET_FD_ERROR : Z := (-411).
Definition FLOM_RC_SSL_WRITE_ERROR : Z := (-412).
Definition FLOM_RC_TLS_NO_VALID_METHOD : Z := (-413).

(** ** Lock modes ([flom_lock_mode_t], [flom_types.h]) *)
Definition FLOM_LOCK_MODE_NL : Z := 0.
Definition FLOM_LOCK_MODE_CR : Z := 1.
Definition FLOM_LOCK_MODE_CW : Z := 2.
Definition FLOM_LOCK_MODE_PR : Z := 3.
Definition FLOM_LOCK_MODE_PW : Z := 4.
Definition FLOM_LOCK_MODE_EX : Z := 5.
Definition FLOM_LOCK_MODE_N : Z := 6.
Definition FLOM_LOCK_MODE_INVALID : Z := 7.

(** ** Resource types ([flom_rsrc_type_t], [flom_rsrc.h]) *)
Inductive flom_rsrc_type : Type :=
| FLOM_RSRC_TYPE_NULL
| FLOM_RSRC_TYPE_SIMPLE
| FLOM_RSRC_TYPE_NUMERIC
| FLOM_RSRC_TYPE_SET
| FLOM_RSRC_TYPE_HIER
| FLOM_RSRC_TYPE_SEQUENCE
| FLOM_RSRC_TYPE_TIMESTAMP.

#[global] Instance flom_rsrc_type_eq_dec : EqDecision flom_rsrc_type.
Proof. solve_decision. Defined.

(** ** Protocol constants ([flom_msg.h], [flom_defines.h]) *)
Definition FLOM_MSG_LEVEL : Z := 3.
Definition FLOM_MSG_VERB_NULL : Z := 0.
Definition FLOM_MSG_VERB_LOCK : Z := 1.
Definition FLOM_MSG_VERB_UNLOCK : Z := 2.
Definition FLOM_MSG_VERB_PING : Z := 3.
Definition FLOM_MSG_VERB_DISCOVER : Z := 4.
Definition FLOM_MSG_VERB_MNGMNT : Z := 5.
Definition FLOM_MSG_STEP_INCR : Z := 8.
Definition FLOM_MSG_BUFFER_SIZE : Z := 512.
Definition FLOM_NETWORK_BUFFER_SIZE : Z := 1024.
Definition FLOM_VFS_STD_BUFFER_SIZE : Z := 1024.

(** ** The families of addresses, in the system *)
Definition AF_INET : Z := 2.
Definition AF_INET6 : Z := 10.

(** ** [struct timeval] *)
Record timeval : Type := Timeval { tv_sec : Z; tv_usec : Z }.

#[global] Instance timeval_eq_dec : EqDecision timeval.
Proof. solve_decision. Defined.
