(* ===== verification/Errors.v ===== *)
(** * Errors: the texts of the reason codes

    [src/src/flom_errors.c]: [flom_strerror], a switch over the codes of
    [flom_errors.h.in], one table for each of its groups. *)
From Stdlib Require Import ZArith String List Lia.
From stdpp Require Import base list numbers strings.
From S2P Require Import Prelude Types.
Local Open Scope string_scope.
Local Open Scope Z_scope.

Definition warning_texts : list (Z * string) := [
  (FLOM_RC_INACTIVE_FEATURE, "WARNING: a feature is inactive and a piece of code was skipped");
  (FLOM_RC_RESOURCE_IS_NOT_TRANSACTIONAL, "WARNING: a transactional operations has been requested for a non transactional resource");
  (FLOM_RC_API_IMMUTABLE_HANDLE, "WARNING: the handle can not be changed at this time");
  (FLOM_RC_ELEMENT_NAME_NOT_AVAILABLE, "WARNING: the name of the locked element is not available");
  (FLOM_RC_NETWORK_TIMEOUT, "WARNING: network operation timeout");
  (FLOM_RC_CONNECTION_CLOSED, "WARNING: peer has closed socket connection");
  (FLOM_RC_CONNECTION_REFUSED, "WARNING: peer is not ready to accept a connection");
  (FLOM_RC_LOCK_IMPOSSIBLE, "INFO: the lock can not be obtained because the resource will never satisfy the lock request");
  (FLOM_RC_LOCK_CANT_WAIT, "INFO: the lock can not be obtained because the requester can not wait resource availability");
  (FLOM_RC_LOCK_BUSY, "INFO: the lock can not be obtained because the resource is already locked");
  (FLOM_RC_LOCK_CANT_LOCK, "INFO: the lock can not be obtained, generic issue");
  (FLOM_RC_LOCK_WAIT_RESOURCE, "INFO: the asked resource is not available, the task must wait resource creation by a something else");
  (FLOM_RC_LOCK_ENQUEUED, "INFO: the lock can not be obtained now, but the request was enqueued")
].

Definition ok_text : list (Z * string) := [
  (FLOM_RC_OK, "OK: no error")
].

Definition error_texts : list (Z * string) := [
  (FLOM_RC_INTERNAL_ERROR, "ERROR: internal error / unexpected condition / code bug");
  (FLOM_RC_DAEMON_NOT_STARTED, "ERROR: flom command was not able to start a new daemon and/or connect to it");
  (FLOM_RC_NETWORK_EVENT_ERROR, "ERROR: an unespected network event raised");
  (FLOM_RC_NULL_OBJECT, "ERROR: the object is null");
  (FLOM_RC_INVALID_OPTION, "ERROR: a specified option is not valid");
  (FLOM_RC_OBJ_CORRUPTED, "ERROR: object is corrupted");
  (FLOM_RC_OUT_OF_RANGE, "ERROR: an argument is out of range");
  (FLOM_RC_INVALID_PREFIX_SIZE, "ERROR: the number of chars of the prefix of the message is wrong");
  (FLOM_RC_BUFFER_OVERFLOW, "ERROR: the process has been stopped to avoid a buffer overflow");
  (FLOM_RC_INVALID_MSG_LENGTH, "ERROR: the length of the message differs from prefix");
  (FLOM_RC_INVALID_PROPERTY_VALUE, "ERROR: a value of a property is invalid");
  (FLOM_RC_CONTAINER_FULL, "ERROR: the container is full and cannot store more elements");
  (FLOM_RC_PROTOCOL_ERROR, "ERROR: client/server protocol error, an unexpected packet of data was received");
  (FLOM_RC_INVALID_RESOURCE_NAME, "ERROR: invalid name for a resource");
  (FLOM_RC_PROTOCOL_LEVEL_MISMATCH, "ERROR: client and server are not aligned to the same communication level");
  (FLOM_RC_MSG_DESERIALIZE_ERROR, "ERROR: XML message deserialization");
  (FLOM_RC_API_INVALID_SEQUENCE, "ERROR: API function called using an invalid sequence");
  (FLOM_RC_INVALID_AI_FAMILY_ERROR, "ERROR: address family is not a valid IP address family (AF_INET, AF_INET6)");
  (FLOM_RC_INVALID_IP_ADDRESS, "ERROR: the specified IP address is not valid for the current function");
  (FLOM_RC_INVALID_IPV6_NETWORK_INTERFACE, "ERROR: the specified network interface is not valid for IPv6 networking");
  (FLOM_RC_NEW_OBJ, "ERROR: creation of a new object in the heap failed");
  (FLOM_RC_NO_CERTIFICATE, "ERROR: the peer did not supply a valid certificate for a TLS/SSL connection");
  (FLOM_RC_UNIQUE_ID_DOES_NOT_MATCH, "ERROR: the unique ID sent by the peer does not match the CN field inside the X.509 provided certificate");
  (FLOM_RC_NO_TLS_CONNECTION, "ERROR: the connection is not a TLS connection, but a TLS operation was requested");
  (FLOM_RC_INVALID_TIMESTAMP_FORMAT, "ERROR: format not valid for a timestamp resource");
  (FLOM_RC_RESOURCE_INIT_ERROR, "ERROR: the resource can not be initialized");
  (FLOM_RC_CONNECTION_CLOSED_BY_SERVER, "ERROR: the server has unilaterally closed the connection");
  (FLOM_RC_OBJ_NOT_FOUND_ERROR, "ERROR: object not found")
].

Definition system_texts : list (Z * string) := [
  (FLOM_RC_ACCEPT_ERROR, "ERROR: 'accept' function returned an error condition");
  (FLOM_RC_BIND_ERROR, "ERROR: 'bind' function returned an error condition");
  (FLOM_RC_CHDIR_ERROR, "ERROR: 'chdir' function returned an error condition");
  (FLOM_RC_CLOSE_ERROR, "ERROR: 'close' function returned an error condition");
  (FLOM_RC_CLOSEDIR_ERROR, "ERROR: 'closedir' function returned an error condition");
  (FLOM_RC_CONNECT_ERROR, "ERROR: 'connect' function returned an error condition");
  (FLOM_RC_EXECVP_ERROR, "ERROR: 'execvp' function returned an error condition");
  (FLOM_RC_FCNTL_ERROR, "ERROR: 'fcntl' function returned an error condition");
  (FLOM_RC_FLOCK_ERROR, "ERROR: 'flock' function returned an error condition");
  (FLOM_RC_FORK_ERROR, "ERROR: 'fork' function returned an error condition");
  (FLOM_RC_GETADDRINFO_ERROR, "ERROR: 'getaddrinfo' function returned an error condition");
  (FLOM_RC_GETIFADDRS_ERROR, "ERROR: 'getifaddrs' function returned an error condition");
  (FLOM_RC_GETNAMEINFO_ERROR, "ERROR: 'getnameinfo' function returned an error condition");
  (FLOM_RC_GETSOCKNAME_ERROR, "ERROR: 'getsockname' function returned an error condition");
  (FLOM_RC_GETSOCKOPT_ERROR, "ERROR: 'getsockopt' function returned an error condition");
  (FLOM_RC_GETTIMEOFDAY_ERROR, "ERROR: 'gettimeofday' function returned an error condition");
  (FLOM_RC_INET_NTOP_ERROR, "ERROR: 'inet_ntop' function returned an error condition");
  (FLOM_RC_LISTEN_ERROR, "ERROR: 'listen' function returned an error condition");
  (FLOM_RC_LOCALTIME_R_ERROR, "ERROR: 'localtime_r' function returned an error condition");
  (FLOM_RC_MALLOC_ERROR, "ERROR: 'malloc'/'g_malloc' function returned an error condition");
  (FLOM_RC_OPEN_ERROR, "ERROR: 'open' function returned an error condition");
  (FLOM_RC_OPENDIR_ERROR, "ERROR: 'opendir' function returned an error condition");
  (FLOM_RC_PIPE_ERROR, "ERROR: 'pipe' function returned an error condition");
  (FLOM_RC_POLL_ERROR, "ERROR: 'poll' function returned an error condition");
  (FLOM_RC_READ_ERROR, "ERROR: 'read' function returned an error condition");
  (FLOM_RC_REALPATH_ERROR, "ERROR: 'realpath' function returned an error condition");
  (FLOM_RC_RECV_ERROR, "ERROR: 'recv' function returned an error condition");
  (FLOM_RC_RECVFROM_ERROR, "ERROR: 'recvfrom' function returned an error condition");
  (FLOM_RC_REGCOMP_ERROR, "ERROR: 'regcomp' function returned an error condition");
  (FLOM_RC_REGEXEC_ERROR, "ERROR: 'regexec' function returned an error condition");
  (FLOM_RC_SEND_ERROR, "ERROR: 'send' function returned an error condition");
  (FLOM_RC_SENDTO_ERROR, "ERROR: 'sendto' function returned an error condition");
  (FLOM_RC_SETSID_ERROR, "ERROR: 'setsid' function returned an error condition");
  (FLOM_RC_SETSOCKOPT_ERROR, "ERROR: 'setsockopt' function returned an error condition");
  (FLOM_RC_SIGACTION_ERROR, "ERROR: 'sigaction' function returned an error condition");
  (FLOM_RC_SIGADDSET_ERROR, "ERROR: 'sigaddset' function returned an error condition");
  (FLOM_RC_SIGEMPTYSET_ERROR, "ERROR: 'sigemptyset' function returned an error condition");
  (FLOM_RC_SIGNAL_ERROR, "ERROR: 'signal' function returned an error condition");
  (FLOM_RC_SIGPROCMASK_ERROR, "ERROR: 'sigprocmask' function returned an error condition");
  (FLOM_RC_SOCKET_ERROR, "ERROR: 'socket' function returned an error condition");
  (FLOM_RC_SNPRINTF_ERROR, "ERROR: 'snprintf' function was not able to write the complete content due to insufficient buffer space");
  (FLOM_RC_UNLINK_ERROR, "ERROR: 'unlink' function returned an error condition");
  (FLOM_RC_WAIT_ERROR, "ERROR: 'wait' function returned an error condition");
  (FLOM_RC_WRITE_ERROR, "ERROR: 'write' function returned an error condition")
].

Definition glib_texts : list (Z * string) := [
  (FLOM_RC_G_ARRAY_NEW_ERROR, "ERROR: 'g_array_new' function returned an error condition");
  (FLOM_RC_G_BASE64_DECODE_ERROR, "ERROR: 'g_base64_decode' function returned an error condition");
  (FLOM_RC_G_BASE64_ENCODE_ERROR, "ERROR: 'g_base64_encode' function returned an error condition");
  (FLOM_RC_G_KEY_FILE_LOAD_FROM_FILE_ERROR, "ERROR: 'g_key_file_load_from_file' function returned an error condition");
  (FLOM_RC_G_KEY_FILE_NEW_ERROR, "ERROR: 'g_key_file_new' function returned an error condition");
  (FLOM_RC_G_NODE_APPEND_DATA_ERROR, "ERROR: 'g_node_append_data' function returned an error condition");
  (FLOM_RC_G_NODE_NEW_ERROR, "ERROR: 'g_node_new' function returned an error condition");
  (FLOM_RC_G_NODE_PREPEND_DATA_ERROR, "ERROR: 'g_node_prepend_data' function returned an error condition");
  (FLOM_RC_G_MARKUP_PARSE_CONTEXT_NEW_ERROR, "ERROR: 'g_markup_parse_context_new' function returned an error condition");
  (FLOM_RC_G_MARKUP_PARSE_CONTEXT_PARSE_ERROR, "ERROR: 'g_markup_parse_context_parse' function returned an error condition");
  (FLOM_RC_G_PTR_ARRAY_REMOVE_INDEX_FAST_ERROR, "ERROR: 'g_ptr_array_remove_index_fast' function returned an error condition");
  (FLOM_RC_G_QUEUE_NEW_ERROR, "ERROR: 'g_queue_new' function returned an error condition");
  (FLOM_RC_G_STRDUP_ERROR, "ERROR: 'g_strdup' function returned an error condition");
  (FLOM_RC_G_STRNDUP_ERROR, "ERROR: 'g_strndup' function returned an error condition");
  (FLOM_RC_G_STRSPLIT_ERROR, "ERROR: 'g_strsplit' function returned an error condition");
  (FLOM_RC_G_THREAD_NEW_ERROR, "ERROR: 'g_thread_new' function returned an error condition");
  (FLOM_RC_G_TRY_MALLOC_ERROR, "ERROR: 'g_try_malloc'/'g_try_malloc0' function returned an error condition");
  (FLOM_RC_G_TRY_REALLOC_ERROR, "ERROR: 'g_try_realloc' function returned an error condition")
].

Definition jni_texts : list (Z * string) := [
  (FLOM_RC_GET_FIELD_ID_ERROR, "ERROR: 'JNI GetFieldID' function returned NULL pointer");
  (FLOM_RC_GET_OBJECT_CLASS_ERROR, "ERROR: 'JNI GetObjectClass' function returned NULL pointer");
  (FLOM_RC_NEW_DIRECT_BYTE_BUFFER_ERROR, "ERROR: 'JNI NewDirectByteBuffer' function returned NULL pointer")
].

Definition openssl_texts : list (Z * string) := [
  (FLOM_RC_SSL_CTX_CHECK_PRIVATE_KEY_ERROR, "ERROR: 'OpenSSL SSL_CTX_check_private_key' function returned an error");
  (FLOM_RC_SSL_CTX_LOAD_VERIFY_LOCATIONS_ERROR, "ERROR: 'OpenSSL SSL_CTX_load_verify_locations' function returned an error");
  (FLOM_RC_SSL_CTX_NEW_ERROR, "ERROR: 'OpenSSL SSL_CTX_new' function returned an error");
  (FLOM_RC_SSL_CTX_USE_CERTIFICATE_FILE_ERROR, "ERROR: 'OpenSSL SSL_CTX_use_certificate_file' function returned an error");
  (FLOM_RC_SSL_CTX_USE_PRIVATEKEY_FILE_ERROR, "ERROR: 'OpenSSL SSL_CTX_use_PrivateKey_file' function returned an error");
  (FLOM_RC_SSL_CONNECT_ERROR, "ERROR: 'OpenSSL SSL_connect' function returned an error");
  (FLOM_RC_SSL_GET_VERIFY_RESULT_ERROR, "ERROR: 'OpenSSL SSL_get_verify_result' function returned an error");
  (FLOM_RC_SSL_NEW_ERROR, "ERROR: 'OpenSSL SSL_new' function returned an error");
  (FLOM_RC_SSL_READ_ERROR, "ERROR: 'OpenSSL SSL_read' function returned an error");
  (FLOM_RC_SSL_SET_EX_DATA_ERROR, "ERROR: 'OpenSSL SSL_set_ex_data' function returned an error");
  (FLOM_RC_SSL_SET_FD_ERROR, "ERROR: 'OpenSSL SSL_set_fd' function returned an error");
  (FLOM_RC_SSL_WRITE_ERROR, "ERROR: 'OpenSSL SSL_write' function returned an error");
  (FLOM_RC_TLS_NO_VALID_METHOD, "ERROR: no valid TLS/SSL method was found")
].

(** The cases in the order of the switch *)
Definition texts : list (Z * string) :=
  (warning_texts ++ ok_text ++ error_texts ++ system_texts ++ glib_texts ++ jni_texts ++ openssl_texts)%list.
Definition unknown_error : string := "ERROR: unknown error".
Definition flom_strerror (ret_cod : Z) : string :=
  match List.find (fun x => ret_cod =? x.1) texts with
  | Some x => x.2
  | None => unknown_error
  end.

(** ** The texts tell the codes apart *)
Definition text_in (l : list (Z * string)) (rc : Z) : string :=
  match List.find (fun x => rc =? x.1) l with Some x => x.2 | None => unknown_error end.
Lemma text_in_known l rc : rc ∈ map fst l -> (rc, text_in l rc) ∈ l.
Proof.
  intros Hrc. unfold text_in. destruct (List.find _ l) as [[x s]|] eqn:E.
  - apply find_some in E as [Hin ->%Z.eqb_eq]. by apply list_elem_of_In.
  - apply list_elem_of_In, in_map_iff in Hrc as ([x s] & <- & Hin).
    apply (find_none _ _ E) in Hin. cbn in Hin. by rewrite Z.eqb_refl in Hin.
Qed.
Lemma text_in_unknown l rc : rc ∉ map fst l -> text_in l rc = unknown_error.
Proof.
  intros Hrc. unfold text_in. destruct (List.find _ l) as [[x s]|] eqn:E; [|done].
  apply find_some in E as [Hin ->%Z.eqb_eq]. destruct Hrc. apply list_elem_of_In, in_map_iff. by exists (x, s).
Qed.
Definition strerror_known (rc : Z) : rc ∈ map fst texts -> (rc, flom_strerror rc) ∈ texts := text_in_known texts rc.
Definition strerror_unknown (rc : Z) : rc ∉ map fst texts -> flom_strerror rc = unknown_error :=
  text_in_unknown texts rc.

Lemma texts_distinct : NoDup (map snd texts).
Proof. apply (bool_decide_unpack _). vm_compute. exact I. Qed.
Lemma NoDup_snd_inj {A B} (l : list (A * B)) a a' b : NoDup (map snd l) -> (a, b) ∈ l -> (a', b) ∈ l -> a = a'.
Proof.
  induction l as [|[x y] l IH]; [by intros _ ?%not_elem_of_nil|]. cbn. rewrite NoDup_cons, !elem_of_cons.
  assert (Hin : forall c, (c, y) ∈ l -> y ∈ map snd l).
  { intros c Hc. apply list_elem_of_In, in_map_iff. exists (c, y). split; [done|]. by apply list_elem_of_In. }
  intros [Hy Hl] [Ha|Ha] [Ha'|Ha']; [congruence | | |by apply IH].
  - injection Ha as -> ->. by destruct Hy; apply (Hin a').
  - injection Ha' as -> ->. by destruct Hy; apply (Hin a).
Qed.
Definition has_prefix (p s : string) : bool := String.prefix p s.

(** functional. Two codes with a case of the switch have the same text only
    when they are the same, a code without one has the text of an unknown
    error, and the text starts with [ERROR] exactly for the negative codes. *)
Theorem strerror_correct rc :
  (rc ∈ map fst texts ->
     (forall rc', rc' ∈ map fst texts -> flom_strerror rc = flom_strerror rc' -> rc = rc') /\
     has_prefix "ERROR: " (flom_strerror rc) = (rc <? 0)) /\
  (rc ∉ map fst texts -> flom_strerror rc = unknown_error).
Proof.
  split; [|apply strerror_unknown]. intros Hrc. pose proof (strerror_known rc Hrc) as Ht. split.
  - intros rc' Hrc'%strerror_known Heq. rewrite <- Heq in Hrc'. by apply (NoDup_snd_inj texts rc rc' (flom_strerror rc) texts_distinct).
  - assert (Hall : forallb (fun x => Bool.eqb (has_prefix "ERROR: " x.2) (x.1 <? 0)) texts = true) by (vm_compute; reflexivity).
    rewrite forallb_forall in Hall. apply eqb_prop, (Hall (rc, flom_strerror rc)). by apply list_elem_of_In.
Qed.

(** A code of the header has no case. *)
Lemma strerror_of_ssl_accept : flom_strerror FLOM_RC_SSL_ACCEPT_ERROR = unknown_error.
Proof. reflexivity. Qed.

Lemma strerror_correct_witness : flom_strerror FLOM_RC_OK = "OK: no error" /\
  forall rc', rc' ∈ map fst texts -> flom_strerror FLOM_RC_OK = flom_strerror rc' -> FLOM_RC_OK = rc'.
Proof.
  split; [reflexivity|]. refine (proj1 (proj1 (strerror_correct FLOM_RC_OK) _)).
  refine (bool_decide_unpack _ _). vm_compute. exact I.
Defined.
