(* ===== verification/CStr.v ===== *)
(** * CStr: machine integers and C strings

    The conversions of the C language and of its library that the program
    relies on: the implicit truncations to [int], [guint] and [in_port_t],
    [strtol] in base ten, ["%d"] and ["%u"] printing, [g_strsplit] on a
    one-character delimiter, [strcasestr], and [snprintf] into a buffer of a
    given size.  The round trip between printing and [strtol] is proved here. *)
From Stdlib Require Import ZArith String Ascii List Lia.
From stdpp Require Import base list numbers strings.
From S2P Require Import Prelude Types.
Local Open Scope Z_scope.

(** ** Machine integers *)
Definition int32 (z : Z) : Z := (z + 2147483648) mod 4294967296 - 2147483648.
Definition uint32 (z : Z) : Z := z mod 4294967296.
Definition uint16 (z : Z) : Z := z mod 65536.
Definition LONG_MAX : Z := 9223372036854775807.
Definition LONG_MIN : Z := -9223372036854775808.
Definition in_int32 (z : Z) : Prop := -2147483648 <= z <= 2147483647.

Lemma int32_id z : in_int32 z -> int32 z = z.
Proof. unfold in_int32, int32. intros H. rewrite Z.mod_small; lia. Qed.

Lemma int32_range z : in_int32 (int32 z).
Proof.
  unfold in_int32, int32.
  pose proof (Z.mod_pos_bound (z + 2147483648) 4294967296). lia.
Qed.

Lemma uint32_id z : 0 <= z < 4294967296 -> uint32 z = z.
Proof. intros H. unfold uint32. apply Z.mod_small. lia. Qed.

Lemma uint32_range z : 0 <= uint32 z < 4294967296.
Proof. unfold uint32. apply Z.mod_pos_bound. lia. Qed.

(** ** Decimal printing *)
Definition digit_char (d : Z) : ascii := ascii_of_nat (48 + Z.to_nat d).
Definition char_digit (c : ascii) : option Z :=
  let n := nat_of_ascii c in
  if (48 <=? n)%nat && (n <=? 57)%nat then Some (Z.of_nat n - 48) else None.

Fixpoint dec_digits (fuel : nat) (n : Z) (acc : string) : string :=
  match fuel with
  | O => acc
  | S fuel => let acc := String (digit_char (n mod 10)) acc in
              if n <? 10 then acc else dec_digits fuel (n / 10) acc
  end.

(** ["%d"], ["%u"], ["%lu"], ["%hu"]: every integer printed has fewer than
    twenty-one digits. *)
Definition print_dec (z : Z) : string :=
  if z <? 0 then String "-" (dec_digits 21 (- z) "") else dec_digits 21 z "".

(** ** [strtol(s, NULL, 10)] *)
Definition is_space (c : ascii) : bool :=
  let n := nat_of_ascii c in ((9 <=? n)%nat && (n <=? 13)%nat) || (n =? 32)%nat.

Fixpoint skip_spaces (s : string) : string :=
  match s with
  | String c s' => if is_space c then skip_spaces s' else s
  | EmptyString => s
  end.

Fixpoint digits_value (s : string) (acc : Z) : Z :=
  match s with
  | String c s' => match char_digit c with
                   | Some d => digits_value s' (10 * acc + d)
                   | None => acc
                   end
  | EmptyString => acc
  end.

Definition strtol (s : string) : Z :=
  match skip_spaces s with
  | String "-" s' => Z.max LONG_MIN (- digits_value s' 0)
  | String "+" s' => Z.min LONG_MAX (digits_value s' 0)
  | s' => Z.min LONG_MAX (digits_value s' 0)
  end.

(** ** Splitting, searching, truncating *)
Fixpoint strsplit (sep : ascii) (s : string) : list string :=
  match s with
  | EmptyString => [EmptyString]
  | String c s' =>
      if Ascii.eqb c sep then EmptyString :: strsplit sep s'
      else match strsplit sep s' with
           | [] => [String c EmptyString]
           | w :: ws => String c w :: ws
           end
  end.

(** [g_strsplit] returns an empty vector for an empty string. *)
Definition g_strsplit (sep : ascii) (s : string) : list string :=
  match s with EmptyString => [] | _ => strsplit sep s end.

Definition to_lower (c : ascii) : ascii :=
  let n := nat_of_ascii c in
  if (65 <=? n)%nat && (n <=? 90)%nat then ascii_of_nat (n + 32) else c.

Fixpoint prefix_nocase (p s : string) : bool :=
  match p, s with
  | EmptyString, _ => true
  | String a p', String b s' => Ascii.eqb (to_lower a) (to_lower b) && prefix_nocase p' s'
  | String _ _, EmptyString => false
  end.

Fixpoint strcasestr (haystack needle : string) : bool :=
  prefix_nocase needle haystack ||
  match haystack with
  | EmptyString => false
  | String _ s' => strcasestr s' needle
  end.

(** [strstr(haystack, needle) != NULL] *)
Fixpoint strstr (haystack needle : string) : bool :=
  String.prefix needle haystack ||
  match haystack with
  | EmptyString => false
  | String _ t => strstr t needle
  end.

(** What [snprintf(buf, size, ...)] leaves in [buf]: at most [size - 1]
    characters. *)
Definition snprintf_take (size : Z) (s : string) : string :=
  String.substring 0 (Z.to_nat (size - 1)) s.

Definition strlen (s : string) : Z := Z.of_nat (String.length s).

(** *** Their lengths *)
Lemma append_assoc (a b c : string) : (a +:+ b) +:+ c = a +:+ b +:+ c.
Proof. induction a as [|x a IH]; [done|]. exact (f_equal (String x) IH). Qed.
Lemma append_nil_r (a : string) : a +:+ EmptyString = a.
Proof. induction a as [|x a IH]; [done|]. exact (f_equal (String x) IH). Qed.
Lemma append_length (a b : string) : String.length (a +:+ b) = (String.length a + String.length b)%nat.
Proof. induction a as [|c a IH]; [done|]. exact (f_equal S IH). Qed.
Lemma substring_all s m : (String.length s <= m)%nat -> String.substring 0 m s = s.
Proof. revert m. induction s as [|c s IH]; intros [|m] Hm; cbn in *; try done; [lia|]. rewrite IH; [done | lia]. Qed.
Lemma length_substring n m s : String.length (String.substring n m s) = Nat.min m (String.length s - n).
Proof.
  revert n m. induction s as [|c s IH]; intros [|n] [|m]; cbn; try done. by rewrite (IH 0%nat m), Nat.sub_0_r.
Qed.

(** ** Printing then scanning gives the number back *)
Lemma char_digit_digit_char d : 0 <= d < 10 -> char_digit (digit_char d) = Some d.
Proof.
  intros H. assert (d = 0 \/ d = 1 \/ d = 2 \/ d = 3 \/ d = 4 \/ d = 5 \/ d = 6 \/
                    d = 7 \/ d = 8 \/ d = 9) as Hd by lia.
  repeat destruct Hd as [->|Hd]; try reflexivity. subst; reflexivity.
Qed.

Lemma digits_value_dec_digits fuel : forall n acc,
  0 <= n < 10 ^ Z.of_nat fuel ->
  digits_value (dec_digits fuel n acc) 0 = digits_value acc n.
Proof.
  induction fuel as [|fuel IH]; intros n acc Hn.
  - change (10 ^ Z.of_nat 0) with 1 in Hn. now replace n with 0 by lia.
  - rewrite Nat2Z.inj_succ, Z.pow_succ_r in Hn by lia.
    pose proof (Z.mod_pos_bound n 10 ltac:(lia)) as Hm.
    pose proof (Z.div_mod n 10 ltac:(lia)) as Hdm.
    cbn [dec_digits]. destruct (n <? 10) eqn:E.
    + apply Z.ltb_lt in E. cbn [digits_value]. rewrite char_digit_digit_char by lia.
      f_equal. rewrite Z.mod_small by lia. lia.
    + rewrite IH by (split; [apply Z.div_pos; lia | apply Z.div_lt_upper_bound; lia]).
      cbn [digits_value]. rewrite char_digit_digit_char by lia. f_equal. lia.
Qed.

Lemma dec_digits_head fuel : forall n acc, 0 <= n ->
  exists d s, 0 <= d < 10 /\ dec_digits (S fuel) n acc = String (digit_char d) s.
Proof.
  induction fuel as [|fuel IH]; intros n acc Hn;
    pose proof (Z.mod_pos_bound n 10 ltac:(lia)) as Hm.
  - cbn. destruct (n <? 10); eauto.
  - destruct (n <? 10) eqn:E.
    + exists (n mod 10), acc. cbn. rewrite E. auto.
    + destruct (IH (n / 10) (String (digit_char (n mod 10)) acc)) as (d & s & Hd & Hs).
      { apply Z.div_pos; lia. }
      exists d, s. split; [done|]. rewrite <- Hs. cbn. now rewrite E.
Qed.

Lemma digit_char_plain d : 0 <= d < 10 ->
  is_space (digit_char d) = false /\ digit_char d <> "-"%char /\ digit_char d <> "+"%char.
Proof.
  intros H. assert (d = 0 \/ d = 1 \/ d = 2 \/ d = 3 \/ d = 4 \/ d = 5 \/ d = 6 \/
                    d = 7 \/ d = 8 \/ d = 9) as Hd by lia.
  repeat destruct Hd as [->|Hd]; try (repeat split; discriminate).
  subst; repeat split; discriminate.
Qed.

Lemma strtol_digit_head c s :
  is_space c = false -> c <> "-"%char -> c <> "+"%char ->
  strtol (String c s) = Z.min LONG_MAX (digits_value (String c s) 0).
Proof.
  intros Hs Hm Hp. unfold strtol. cbn [skip_spaces]. rewrite Hs.
  destruct c as [[] [] [] [] [] [] [] []]; try reflexivity; congruence.
Qed.

Lemma dec_digits_small z : 0 <= z <= LONG_MAX + 1 -> 0 <= z < 10 ^ Z.of_nat 21.
Proof. unfold LONG_MAX. change (10 ^ Z.of_nat 21) with 1000000000000000000000. lia. Qed.

Lemma strtol_print_dec z : LONG_MIN <= z <= LONG_MAX -> strtol (print_dec z) = z.
Proof.
  intros Hz. unfold print_dec. destruct (z <? 0) eqn:E.
  - apply Z.ltb_lt in E.
    change (strtol (String "-" (dec_digits 21 (- z) ""))) with
      (Z.max LONG_MIN (- digits_value (dec_digits 21 (- z) "") 0)).
    rewrite digits_value_dec_digits
      by (apply dec_digits_small; unfold LONG_MAX, LONG_MIN in *; lia).
    cbn [digits_value]. lia.
  - apply Z.ltb_ge in E. destruct (dec_digits_head 20 z "" E) as (d & s & Hd & Hs).
    pose proof (digits_value_dec_digits 21 z "" ltac:(apply dec_digits_small; lia)) as Hv.
    rewrite Hs in *. destruct (digit_char_plain d Hd) as (H1 & H2 & H3).
    rewrite strtol_digit_head by done. rewrite Hv. cbn [digits_value]. lia.
Qed.

Lemma int32_strtol_print z : in_int32 z -> int32 (strtol (print_dec z)) = z.
Proof.
  unfold in_int32. intros H.
  rewrite strtol_print_dec by (unfold LONG_MIN, LONG_MAX; lia). now apply int32_id.
Qed.

(** ** Lengths *)
Lemma dec_digits_length fuel : forall k n acc,
  0 <= n < 10 ^ Z.of_nat (S k) ->
  (String.length (dec_digits fuel n acc) <= S k + String.length acc)%nat.
Proof.
  induction fuel as [|fuel IH]; intros k n acc Hn; [cbn; lia|].
  cbn [dec_digits]. destruct (n <? 10) eqn:E; [cbn; lia|]. apply Z.ltb_ge in E.
  destruct k as [|k]; [change (10 ^ Z.of_nat 1) with 10 in Hn; lia|].
  rewrite Nat2Z.inj_succ, Z.pow_succ_r in Hn by lia.
  specialize (IH k (n / 10) (String (digit_char (n mod 10)) acc)).
  cbn [String.length] in IH. assert (0 <= n / 10 < 10 ^ Z.of_nat (S k)); [|lia].
  split; [apply Z.div_pos; lia | apply Z.div_lt_upper_bound; lia].
Qed.

Lemma print_dec_length z :
  -4294967296 <= z <= 4294967295 -> strlen (print_dec z) <= 11.
Proof.
  unfold print_dec, strlen. intros H. destruct (z <? 0) eqn:E.
  - cbn [String.length]. pose proof (dec_digits_length 21 9 (- z) "") as Hl.
    change (10 ^ Z.of_nat 10) with 10000000000 in Hl. cbn [String.length] in Hl. lia.
  - pose proof (dec_digits_length 21 9 z "") as Hl.
    change (10 ^ Z.of_nat 10) with 10000000000 in Hl. cbn [String.length] in Hl. lia.
Qed.

Lemma length_string_app s t :
  String.length (s +:+ t) = (String.length s + String.length t)%nat.
Proof. induction s as [|c s IH]; [done|]. exact (f_equal Datatypes.S IH). Qed.

Lemma strlen_app s t : strlen (s +:+ t) = strlen s + strlen t.
Proof. unfold strlen. rewrite length_string_app. lia. Qed.

Lemma strlen_nonneg s : 0 <= strlen s.
Proof. unfold strlen. lia. Qed.

Lemma strlen_empty : strlen "" = 0.
Proof. reflexivity. Qed.

Lemma string_app_assoc (s t u : string) : (s +:+ t) +:+ u = s +:+ (t +:+ u).
Proof. induction s as [|c s IH]; [done|]. exact (f_equal (String c) IH). Qed.

Lemma string_app_nil_r (s : string) : s +:+ "" = s.
Proof. induction s as [|c s IH]; [done|]. exact (f_equal (String c) IH). Qed.

Create Rewrite HintDb strlen.
#[export] Hint Rewrite strlen_app strlen_empty : strlen.

(** ** The string that a run of bytes makes: what comes before a NUL *)
Fixpoint until_nul (s : string) : string :=
  match s with
  | EmptyString => EmptyString
  | String c s => if Ascii.eqb c zero then EmptyString else String c (until_nul s)
  end.
