(* ===== verification/RsrcName.v ===== *)
(** * RsrcName: resource names and their types

    The name-parsing half of [src/src/flom_rsrc.c]: the table of regular
    expressions of [global_res_name_preg_init], the POSIX matcher [regexec]
    for the constructs that table uses (extended syntax, [REG_NEWLINE]), and
    the functions that classify a name and extract its parts. *)
From Stdlib Require Import ZArith String Ascii List Lia.
From stdpp Require Import base list numbers strings.
From S2P Require Import Prelude Types CStr.
Local Open Scope Z_scope.

(** ** POSIX extended regular expressions *)
Inductive regex : Type :=
| Set_ (f : ascii -> bool)
| Seq (a b : regex)
| Alt (a b : regex)
| Star (a : regex)
| Bol
| Eol
| Grp (i : nat) (a : regex).

Definition Plus (a : regex) : regex := Seq a (Star a).
Definition Lit (c : ascii) : regex := Set_ (Ascii.eqb c).
Fixpoint Str (s : string) : regex :=
  match s with
  | EmptyString => Star (Set_ (fun _ => false))
  | String c EmptyString => Lit c
  | String c s' => Seq (Lit c) (Str s')
  end.

(** A position in the subject: the character before it, what follows it, its
    offset, and the groups closed so far ([regmatch_t] as start and end). *)
Record mstate : Type := Mstate {
  ms_prev : option ascii;
  ms_rest : string;
  ms_pos : nat;
  ms_caps : list (nat * (nat * nat))
}.

Definition newline : ascii := ascii_of_nat 10.

Definition at_bol (s : mstate) : bool :=
  match ms_prev s with None => true | Some c => Ascii.eqb c newline end.
Definition at_eol (s : mstate) : bool :=
  match ms_rest s with EmptyString => true | String c _ => Ascii.eqb c newline end.
Definition advance (c : ascii) (t : string) (s : mstate) : mstate :=
  Mstate (Some c) t (S (ms_pos s)) (ms_caps s).
Definition capture (i : nat) (from : nat) (s : mstate) : mstate :=
  Mstate (ms_prev s) (ms_rest s) (ms_pos s) ((i, (from, ms_pos s)) :: ms_caps s).

Fixpoint rmatch {A : Type} (r : regex) (k : mstate -> option A) (s : mstate)
    {struct r} : option A :=
  match r with
  | Set_ f => match ms_rest s with
              | String c t => if f c then k (advance c t s) else None
              | EmptyString => None
              end
  | Seq a b => rmatch a (rmatch b k) s
  | Alt a b => match rmatch a k s with Some x => Some x | None => rmatch b k s end
  | Star a =>
      (fix loop (n : nat) (s : mstate) {struct n} : option A :=
         match n with
         | O => k s
         | S n => match rmatch a (fun s' => if (ms_pos s' =? ms_pos s)%nat then None
                                            else loop n s') s with
                  | Some x => Some x
                  | None => k s
                  end
         end) (String.length (ms_rest s)) s
  | Bol => if at_bol s then k s else None
  | Eol => if at_eol s then k s else None
  | Grp i a => rmatch a (fun s' => k (capture i (ms_pos s) s')) s
  end.

(** [regexec] without [REG_NOTBOL]: the leftmost place where the expression
    matches. *)
Fixpoint search (r : regex) (prev : option ascii) (rest : string) (pos : nat)
    : option mstate :=
  match rmatch r Some (Mstate prev rest pos []) with
  | Some s => Some s
  | None => match rest with
            | EmptyString => None
            | String c t => search r (Some c) t (S pos)
            end
  end.
Definition regexec (r : regex) (s : string) : option mstate := search r None s 0.

(** ** Character classes, in the POSIX locale *)
Definition between (lo hi : nat) (c : ascii) : bool :=
  let n := nat_of_ascii c in (lo <=? n)%nat && (n <=? hi)%nat.
Definition is_alpha (c : ascii) : bool := between 65 90 c || between 97 122 c.
Definition is_digit (c : ascii) : bool := between 48 57 c.
Definition is_alnum (c : ascii) : bool := is_alpha c || is_digit c.
Definition one_of (l : list ascii) (c : ascii) : bool := existsb (Ascii.eqb c) l.

(** ** The separators ([flom_config.c], [configure.ac]) *)
Definition DEFAULT_RESOURCE_NAME : string := "_RESOURCE".
Definition FLOM_RESOURCE_SET_SEPARATOR : ascii := ".".
Definition FLOM_HIER_RESOURCE_SEPARATOR : ascii := "/".

(** ** The table of expressions

    [ident] is [[[:alpha:]][[:alpha:][:digit:]]*].  Inside a bracket
    expression a backslash is an ordinary character, so [[^\/]] excludes the
    backslash as well as the slash, and [[%#\.\:...]] contains it; with
    [REG_NEWLINE] a non-matching list never matches a newline. *)
Definition ident : regex := Seq (Set_ is_alpha) (Star (Set_ is_alnum)).
Definition backslash : ascii := ascii_of_nat 92.
Definition hier_char (c : ascii) : bool :=
  negb (one_of [backslash; FLOM_HIER_RESOURCE_SEPARATOR; newline] c).
Definition tstamp_head (c : ascii) : bool := one_of ["%"; "#"]%char c || is_alpha c.
Definition tstamp_tail (c : ascii) : bool :=
  one_of ["%"; "#"; backslash; "."; ":"]%char c || is_alnum c.
Definition bracketed_number : regex :=
  Seq (Lit "[") (Seq (Grp 2 (Plus (Set_ is_digit))) (Lit "]")).

Definition res_name_preg (t : flom_rsrc_type) : regex :=
  match t with
  | FLOM_RSRC_TYPE_NULL => Seq Bol (Seq (Lit "_") Eol)
  | FLOM_RSRC_TYPE_SIMPLE =>
      Alt (Seq Bol (Seq (Str DEFAULT_RESOURCE_NAME) Eol))
          (Seq Bol (Seq (Grp 1 ident) Eol))
  | FLOM_RSRC_TYPE_NUMERIC =>
      Seq Bol (Seq (Grp 1 ident) (Seq bracketed_number Eol))
  | FLOM_RSRC_TYPE_SET =>
      Seq Bol (Seq (Grp 1 ident)
        (Seq (Plus (Grp 2 (Seq (Lit FLOM_RESOURCE_SET_SEPARATOR) ident))) Eol))
  | FLOM_RSRC_TYPE_HIER =>
      let level := Seq (Lit FLOM_HIER_RESOURCE_SEPARATOR) (Plus (Set_ hier_char)) in
      Seq Bol (Seq level (Seq (Star (Grp 1 level)) Eol))
  | FLOM_RSRC_TYPE_SEQUENCE =>
      Seq Bol (Seq (Lit "_") (Seq (Set_ (one_of ["s"; "S"]%char)) (Seq (Lit "_")
        (Seq (Grp 1 ident) (Seq bracketed_number Eol)))))
  | FLOM_RSRC_TYPE_TIMESTAMP =>
      Seq Bol (Seq (Lit "_") (Seq (Lit "t") (Seq (Lit "_")
        (Seq (Grp 1 (Seq (Set_ tstamp_head) (Star (Set_ tstamp_tail))))
             (Seq bracketed_number Eol)))))
  end.

(** ** [flom_rsrc_get_type]: the first type, from [SIMPLE] on, that matches *)
Definition rsrc_types : list flom_rsrc_type :=
  [FLOM_RSRC_TYPE_SIMPLE; FLOM_RSRC_TYPE_NUMERIC; FLOM_RSRC_TYPE_SET;
   FLOM_RSRC_TYPE_HIER; FLOM_RSRC_TYPE_SEQUENCE; FLOM_RSRC_TYPE_TIMESTAMP].

Definition name_matches (t : flom_rsrc_type) (name : string) : bool :=
  bool_decide (is_Some (regexec (res_name_preg t) name)).

Definition flom_rsrc_get_type (name : string) : flom_rsrc_type :=
  default FLOM_RSRC_TYPE_NULL (List.find (fun t => name_matches t name) rsrc_types).

Definition flom_rsrc_get_type_human_readable (t : flom_rsrc_type) : string :=
  match t with
  | FLOM_RSRC_TYPE_NULL => "null"
  | FLOM_RSRC_TYPE_SIMPLE => "simple"
  | FLOM_RSRC_TYPE_NUMERIC => "numeric"
  | FLOM_RSRC_TYPE_SET => "set"
  | FLOM_RSRC_TYPE_HIER => "hierarchical"
  | FLOM_RSRC_TYPE_SEQUENCE => "sequence"
  | FLOM_RSRC_TYPE_TIMESTAMP => "timestamp"
  end.

Definition flom_rsrc_get_transactional (name : string) : bool :=
  bool_decide (flom_rsrc_get_type name = FLOM_RSRC_TYPE_SEQUENCE) &&
  bool_decide (String.get 1 name = Some "S"%char).

(** ** Submatches: at most 999 characters of a group are copied *)
Definition submatch (i : nat) (name : string) (s : mstate) : option string :=
  match List.find (fun c => (fst c =? i)%nat) (ms_caps s) with
  | Some (_, (so, eo)) => Some (String.substring so (Nat.min (eo - so) 999) name)
  | None => None
  end.

(** [INVALID_RESOURCE_NAME] has no case in either switch: it becomes
    [FLOM_RC_INTERNAL_ERROR]. *)
Definition flom_rsrc_get_group (i : nat) (name : string) (t : flom_rsrc_type)
    : Z + string :=
  match regexec (res_name_preg t) name with
  | None => inl FLOM_RC_REGEXEC_ERROR
  | Some s => match submatch i name s with
              | None => inl FLOM_RC_INTERNAL_ERROR
              | Some g => inr g
              end
  end.

Definition flom_rsrc_get_number (name : string) (t : flom_rsrc_type) : Z + Z :=
  match flom_rsrc_get_group 2 name t with
  | inl rc => inl rc
  | inr g => inr (int32 (strtol g))
  end.

Definition flom_rsrc_get_infix (name : string) (t : flom_rsrc_type) : Z + string :=
  flom_rsrc_get_group 1 name t.

(** [flom_rsrc_get_elements] appends one element per piece of the name. *)
Definition flom_rsrc_get_elements (name : string) : list string :=
  g_strsplit FLOM_RESOURCE_SET_SEPARATOR name.
