(* ===== verification/Msg.v ===== *)
(** * Msg: the protocol messages

    The message structure of [src/src/flom_msg.h] and the operations of
    [flom_msg.c] that do not touch XML: [flom_msg_init], [flom_msg_free],
    [flom_msg_check_protocol], [flom_msg_build_answer], [flom_msg_get_peerid],
    and the textual forms of the lock modes.

    A message pointer is never NULL here: every caller passes the address of a
    structure.  [g_strdup] aborts when memory is exhausted, as GLib documents,
    so the [G_STRDUP_ERROR] branches cannot be taken. *)
From Stdlib Require Import ZArith String Ascii List Lia.
From stdpp Require Import base list numbers strings.
From S2P Require Import Prelude Types CStr.
Local Open Scope Z_scope.

(** ** Data *)
Inductive flom_msg_state : Type :=
| FLOM_MSG_STATE_INITIALIZED
| FLOM_MSG_STATE_PARSING
| FLOM_MSG_STATE_READY
| FLOM_MSG_STATE_INVALID.

#[global] Instance flom_msg_state_eq_dec : EqDecision flom_msg_state.
Proof. solve_decision. Defined.

Record flom_msg_header : Type := Header { h_level : Z; h_verb : Z; h_step : Z }.

(** [struct flom_msg_body_answer_s] *)
Record body_answer : Type := Answer { a_rc : Z; a_element : option string }.

(** [struct flom_msg_body_lock_8_s], its two inner structures flattened *)
Record body_lock_8 : Type := Lock_8 {
  l8_peerid : option string;
  l8_name : option string;
  l8_mode : Z;
  l8_wait : Z;
  l8_quantity : Z;
  l8_create : Z;
  l8_lifespan : Z
}.

Inductive flom_msg_mngmnt_action : Type :=
| FLOM_MSG_MNGMNT_ACTION_NULL
| FLOM_MSG_MNGMNT_ACTION_SHUTDOWN
| FLOM_MSG_MNGMNT_ACTION_INVALID.

(** The [body] union of [struct flom_msg_s].  [body_zero] is the all-zero
    storage [flom_msg_init] leaves, which reads as zero through any member;
    the bodies of ping and of the first discover message carry a dummy field
    nobody accesses. *)
Inductive msg_body : Type :=
| body_zero
| body_lock_8_ (b : body_lock_8)
| body_lock_16 (peerid : option string) (a : body_answer)
| body_lock_24 (a : body_answer)
| body_lock_32 (a : body_answer)
| body_unlock_8 (name : option string) (rollback : Z)
| body_discover_16 (address : option string) (port : Z)
| body_mngmnt_8 (peerid : option string) (action : flom_msg_mngmnt_action) (immediate : Z).

Record flom_msg : Type := Msg {
  m_state : flom_msg_state;
  m_header : flom_msg_header;
  m_body : msg_body
}.

Definition zero_answer : body_answer := Answer 0 None.
Definition zero_lock_8 : body_lock_8 := Lock_8 None None 0 0 0 0 0.

(** [flom_msg_init]: memset to zero *)
Definition flom_msg_init : flom_msg :=
  Msg FLOM_MSG_STATE_INITIALIZED (Header 0 FLOM_MSG_VERB_NULL 0) body_zero.

(** ** Access to the union

    Reading a member the storage was not written through is not defined,
    except from zeroed storage; [lock_24] and [lock_32] are the same type. *)
Definition get_lock_8 (b : msg_body) : option body_lock_8 :=
  match b with
  | body_zero => Some zero_lock_8
  | body_lock_8_ b => Some b
  | _ => None
  end.
Definition get_lock_16 (b : msg_body) : option (option string * body_answer) :=
  match b with
  | body_zero => Some (None, zero_answer)
  | body_lock_16 p a => Some (p, a)
  | _ => None
  end.
Definition get_lock_24 (b : msg_body) : option body_answer :=
  match b with
  | body_zero => Some zero_answer
  | body_lock_24 a | body_lock_32 a => Some a
  | _ => None
  end.
Definition get_unlock_8 (b : msg_body) : option (option string * Z) :=
  match b with
  | body_zero => Some (None, 0)
  | body_unlock_8 n r => Some (n, r)
  | _ => None
  end.
Definition get_discover_16 (b : msg_body) : option (option string * Z) :=
  match b with
  | body_zero => Some (None, 0)
  | body_discover_16 a p => Some (a, p)
  | _ => None
  end.
Definition get_mngmnt_8 (b : msg_body)
    : option (option string * flom_msg_mngmnt_action * Z) :=
  match b with
  | body_zero => Some (None, FLOM_MSG_MNGMNT_ACTION_NULL, 0)
  | body_mngmnt_8 p a i => Some (p, a, i)
  | _ => None
  end.

Definition set_state (st : flom_msg_state) (m : flom_msg) : flom_msg :=
  Msg st (m_header m) (m_body m).
Definition set_body (b : msg_body) (m : flom_msg) : flom_msg :=
  Msg (m_state m) (m_header m) b.
Definition set_header (h : flom_msg_header) (m : flom_msg) : flom_msg :=
  Msg (m_state m) h (m_body m).
Definition msg_verb (m : flom_msg) : Z := h_verb (m_header m).
Definition msg_step (m : flom_msg) : Z := h_step (m_header m).

(** ** [flom_msg_free]

    The strings of the body are released and their pointers cleared; the body
    that the verb and the step select is the one accessed. *)
Definition free_body (verb step : Z) (b : msg_body) : err + msg_body :=
  let released {A} (o : option A) (f : A -> msg_body) :=
    match o with Some a => inr (f a) | None => inl Ub end in
  if verb =? FLOM_MSG_VERB_NULL then inr b
  else if verb =? FLOM_MSG_VERB_LOCK then
    if step =? FLOM_MSG_STEP_INCR then
      released (get_lock_8 b) (fun l => body_lock_8_
        (Lock_8 None None (l8_mode l) (l8_wait l)
                 (l8_quantity l) (l8_create l) (l8_lifespan l)))
    else if step =? 2 * FLOM_MSG_STEP_INCR then
      released (get_lock_16 b) (fun '(_, a) => body_lock_16 None (Answer (a_rc a) None))
    else if step =? 3 * FLOM_MSG_STEP_INCR then
      released (get_lock_24 b) (fun a => body_lock_24 (Answer (a_rc a) None))
    else if step =? 4 * FLOM_MSG_STEP_INCR then
      released (get_lock_24 b) (fun a => body_lock_32 (Answer (a_rc a) None))
    else inl (Rc FLOM_RC_INVALID_PROPERTY_VALUE)
  else if verb =? FLOM_MSG_VERB_UNLOCK then
    if step =? FLOM_MSG_STEP_INCR then
      released (get_unlock_8 b) (fun '(_, r) => body_unlock_8 None r)
    else if step =? 2 * FLOM_MSG_STEP_INCR then inr b
    else inl (Rc FLOM_RC_INVALID_PROPERTY_VALUE)
  else if verb =? FLOM_MSG_VERB_PING then
    if (step =? FLOM_MSG_STEP_INCR) || (step =? 2 * FLOM_MSG_STEP_INCR) then inr b
    else inl (Rc FLOM_RC_INVALID_PROPERTY_VALUE)
  else if verb =? FLOM_MSG_VERB_DISCOVER then
    if step =? FLOM_MSG_STEP_INCR then inr b
    else if step =? 2 * FLOM_MSG_STEP_INCR then
      released (get_discover_16 b) (fun '(_, p) => body_discover_16 None p)
    else inl (Rc FLOM_RC_INVALID_PROPERTY_VALUE)
  else if verb =? FLOM_MSG_VERB_MNGMNT then
    if step =? FLOM_MSG_STEP_INCR then
      released (get_mngmnt_8 b) (fun '(_, a, i) => body_mngmnt_8 None a i)
    else inl (Rc FLOM_RC_INVALID_PROPERTY_VALUE)
  else inl (Rc FLOM_RC_INVALID_PROPERTY_VALUE).

Definition flom_msg_free : M err flom_msg unit := fun m =>
  let m := set_state FLOM_MSG_STATE_INVALID m in
  match free_body (msg_verb m) (msg_step m) (m_body m) with
  | inr b => (inr tt, set_body b m)
  | inl e => (inl e, m)
  end.

(** ** [flom_msg_check_protocol] *)
Definition flom_msg_check_protocol (m : flom_msg) (client : bool) : bool :=
  let v := msg_verb m in
  let s := msg_step m in
  if v =? FLOM_MSG_VERB_LOCK then
    if s =? FLOM_MSG_STEP_INCR then client
    else if (s =? 2 * FLOM_MSG_STEP_INCR) || (s =? 3 * FLOM_MSG_STEP_INCR) ||
            (s =? 4 * FLOM_MSG_STEP_INCR) then negb client
    else false
  else if v =? FLOM_MSG_VERB_UNLOCK then
    if s =? FLOM_MSG_STEP_INCR then client else false
  else if v =? FLOM_MSG_VERB_PING then
    if s =? FLOM_MSG_STEP_INCR then negb client
    else if s =? 2 * FLOM_MSG_STEP_INCR then client
    else false
  else if v =? FLOM_MSG_VERB_DISCOVER then
    if s =? FLOM_MSG_STEP_INCR then client
    else if s =? 2 * FLOM_MSG_STEP_INCR then negb client
    else false
  else if v =? FLOM_MSG_VERB_MNGMNT then
    if s =? FLOM_MSG_STEP_INCR then client else false
  else false.

(** ** [flom_msg_build_answer]

    [unique_id] is what [flom_tls_get_unique_id] returns: the machine id kept
    by D-Bus.  On [INVALID_STEP] and on [NULL_OBJECT2] the header is already
    overwritten and the state stays [PARSING]. *)
Definition flom_msg_build_answer (unique_id : option string)
    (verb step rc : Z) (element : option string) : M err flom_msg unit :=
  _ ← modify (fun m => Msg FLOM_MSG_STATE_PARSING
                           (Header FLOM_MSG_LEVEL verb step) (m_body m));
  _ ← (if step =? 2 * FLOM_MSG_STEP_INCR then
         b ← gets m_body;
         p ← of_option Ub (get_lock_16 b);
         match unique_id with
         | None => _ ← modify (set_body (body_lock_16 None p.2));
                   throw (Rc FLOM_RC_NULL_OBJECT)
         | Some uid => modify (set_body (body_lock_16 (Some uid) (Answer rc element)))
         end
       else if step =? 3 * FLOM_MSG_STEP_INCR then
         modify (set_body (body_lock_24 (Answer rc element)))
       else if step =? 4 * FLOM_MSG_STEP_INCR then
         modify (set_body (body_lock_32 (Answer rc element)))
       else throw (Rc FLOM_RC_INVALID_OPTION));
  modify (set_state FLOM_MSG_STATE_READY).

(** ** [flom_msg_get_peerid] *)
Definition flom_msg_get_peerid (m : flom_msg) : option (option string) :=
  if msg_verb m =? FLOM_MSG_VERB_LOCK then
    if msg_step m =? FLOM_MSG_STEP_INCR then l8_peerid <$> get_lock_8 (m_body m)
    else if msg_step m =? 2 * FLOM_MSG_STEP_INCR then fst <$> get_lock_16 (m_body m)
    else Some None
  else if msg_verb m =? FLOM_MSG_VERB_MNGMNT then
    if msg_step m =? FLOM_MSG_STEP_INCR then (fun x => x.1.1) <$> get_mngmnt_8 (m_body m)
    else Some None
  else Some None.

(** ** Textual forms of the lock modes *)
Definition FLOM_LOCK_MODE_NL_SHORT_STRING : string := "NL".
Definition FLOM_LOCK_MODE_NL_LONG_STRING : string := "NullLock".
Definition FLOM_LOCK_MODE_CR_SHORT_STRING : string := "CR".
Definition FLOM_LOCK_MODE_CR_LONG_STRING : string := "ConcurrentRead".
Definition FLOM_LOCK_MODE_CW_SHORT_STRING : string := "CW".
Definition FLOM_LOCK_MODE_CW_LONG_STRING : string := "ConcurrentWrite".
Definition FLOM_LOCK_MODE_PR_SHORT_STRING : string := "PR".
Definition FLOM_LOCK_MODE_PR_LONG_STRING : string := "ProtectedRead".
Definition FLOM_LOCK_MODE_PW_SHORT_STRING : string := "PW".
Definition FLOM_LOCK_MODE_PW_LONG_STRING : string := "ProtectedWrite".
Definition FLOM_LOCK_MODE_EX_SHORT_STRING : string := "EX".
Definition FLOM_LOCK_MODE_EX_LONG_STRING : string := "Exclusive".

Definition flom_lock_mode_retrieve (text : string) : Z :=
  let found s := strcasestr text s in
  if found FLOM_LOCK_MODE_NL_LONG_STRING || found FLOM_LOCK_MODE_NL_SHORT_STRING
  then FLOM_LOCK_MODE_NL
  else if found FLOM_LOCK_MODE_CR_LONG_STRING || found FLOM_LOCK_MODE_CR_SHORT_STRING
  then FLOM_LOCK_MODE_CR
  else if found FLOM_LOCK_MODE_CW_LONG_STRING || found FLOM_LOCK_MODE_CW_SHORT_STRING
  then FLOM_LOCK_MODE_CW
  else if found FLOM_LOCK_MODE_PW_LONG_STRING || found FLOM_LOCK_MODE_PW_SHORT_STRING
  then FLOM_LOCK_MODE_PW
  else if found FLOM_LOCK_MODE_PR_LONG_STRING || found FLOM_LOCK_MODE_PR_SHORT_STRING
  then FLOM_LOCK_MODE_PR
  else if found FLOM_LOCK_MODE_EX_LONG_STRING || found FLOM_LOCK_MODE_EX_SHORT_STRING
  then FLOM_LOCK_MODE_EX
  else FLOM_LOCK_MODE_INVALID.

Definition flom_lock_mode_short_string (lock_mode : Z) : option string :=
  if lock_mode =? FLOM_LOCK_MODE_NL then Some FLOM_LOCK_MODE_NL_SHORT_STRING
  else if lock_mode =? FLOM_LOCK_MODE_CR then Some FLOM_LOCK_MODE_CR_SHORT_STRING
  else if lock_mode =? FLOM_LOCK_MODE_CW then Some FLOM_LOCK_MODE_CW_SHORT_STRING
  else if lock_mode =? FLOM_LOCK_MODE_PR then Some FLOM_LOCK_MODE_PR_SHORT_STRING
  else if lock_mode =? FLOM_LOCK_MODE_PW then Some FLOM_LOCK_MODE_PW_SHORT_STRING
  else if lock_mode =? FLOM_LOCK_MODE_EX then Some FLOM_LOCK_MODE_EX_SHORT_STRING
  else None.

Definition flom_lock_mode_long_string (lock_mode : Z) : option string :=
  if lock_mode =? FLOM_LOCK_MODE_NL then Some FLOM_LOCK_MODE_NL_LONG_STRING
  else if lock_mode =? FLOM_LOCK_MODE_CR then Some FLOM_LOCK_MODE_CR_LONG_STRING
  else if lock_mode =? FLOM_LOCK_MODE_CW then Some FLOM_LOCK_MODE_CW_LONG_STRING
  else if lock_mode =? FLOM_LOCK_MODE_PR then Some FLOM_LOCK_MODE_PR_LONG_STRING
  else if lock_mode =? FLOM_LOCK_MODE_PW then Some FLOM_LOCK_MODE_PW_LONG_STRING
  else if lock_mode =? FLOM_LOCK_MODE_EX then Some FLOM_LOCK_MODE_EX_LONG_STRING
  else None.
