(* ===== verification/MsgXml.v ===== *)
(** * MsgXml: serialization and deserialization of the messages

    [flom_msg_serialize] and the functions it calls, and the GMarkup callbacks
    [flom_msg_deserialize_start_element], [_text] and [_end_element], of
    [src/src/flom_msg.c].  Base64 and the markup parser belong to GLib: the
    class [Glib] holds the functions, and the laws a theorem needs are its
    named hypotheses. *)
From Stdlib Require Import ZArith String Ascii List Lia.
From stdpp Require Import base list numbers strings.
From S2P Require Import Prelude Types CStr RsrcName Msg.
Local Open Scope string_scope.
Local Open Scope Z_scope.

(** ** Labels *)
Definition FLOM_MSG_HEADER : string := "<?xml".
Definition FLOM_MSG_PROP_ADDRESS : string := "address".
Definition FLOM_MSG_PROP_CREATE : string := "create".
Definition FLOM_MSG_PROP_ELEMENT : string := "element".
Definition FLOM_MSG_PROP_LEVEL : string := "level".
Definition FLOM_MSG_PROP_IMMEDIATE : string := "immediate".
Definition FLOM_MSG_PROP_LIFESPAN : string := "lifespan".
Definition FLOM_MSG_PROP_MODE : string := "mode".
Definition FLOM_MSG_PROP_NAME : string := "name".
Definition FLOM_MSG_PROP_PEERID : string := "peerid".
Definition FLOM_MSG_PROP_PORT : string := "port".
Definition FLOM_MSG_PROP_QUANTITY : string := "quantity".
Definition FLOM_MSG_PROP_RC : string := "rc".
Definition FLOM_MSG_PROP_ROLLBACK : string := "rollback".
Definition FLOM_MSG_PROP_STEP : string := "step".
Definition FLOM_MSG_PROP_VERB : string := "verb".
Definition FLOM_MSG_PROP_WAIT : string := "wait".
Definition FLOM_MSG_TAG_ANSWER : string := "answer".
Definition FLOM_MSG_TAG_MSG : string := "msg".
Definition FLOM_MSG_TAG_NETWORK : string := "network".
Definition FLOM_MSG_TAG_RESOURCE : string := "resource".
Definition FLOM_MSG_TAG_SESSION : string := "session".
Definition FLOM_MSG_TAG_SHUTDOWN : string := "shutdown".

(** ** GLib's base64 functions; [None] is a NULL result *)
Class Glib : Type := {
  g_base64_encode : string -> option string;
  g_base64_decode : string -> option string
}.

(** ** Pieces of markup *)
Definition dquote : string := String (ascii_of_nat 34) EmptyString.
Definition attribute (a : string * string) : string :=
  " " +:+ a.1 +:+ "=" +:+ dquote +:+ a.2 +:+ dquote.
Definition attributes (l : list (string * string)) : string :=
  String.concat "" (map attribute l).
Definition open_tag (tag : string) (l : list (string * string)) : string :=
  "<" +:+ tag +:+ attributes l +:+ ">".
Definition empty_tag (tag : string) (l : list (string * string)) : string :=
  "<" +:+ tag +:+ attributes l +:+ "/>".
Definition close_tag (tag : string) : string := "</" +:+ tag +:+ ">".

Section serialize.
Context `{Glib}.

(** The caller's buffer: its size, and what has been written into it. *)
Variable buffer_len : Z.

Definition emit (s : string) : M err string unit :=
  buf ← gets id;
  if strlen s >=? buffer_len - strlen buf then throw (Rc FLOM_RC_CONTAINER_FULL)
  else modify (fun buf => buf +:+ s).

Definition str_or_empty (o : option string) : string := default "" o.

Definition encoded_name (o : option string) : M err string string :=
  n ← of_option Ub o;
  of_option (Rc FLOM_RC_G_BASE64_ENCODE_ERROR) (g_base64_encode n).

Definition flom_msg_serialize_lock_8 (msg : flom_msg) : M err string unit :=
  b ← of_option Ub (get_lock_8 (m_body msg));
  n ← of_option Ub (l8_name b);
  name64 ← encoded_name (l8_name b);
  _ ← emit (empty_tag FLOM_MSG_TAG_SESSION
              [(FLOM_MSG_PROP_PEERID, str_or_empty (l8_peerid b))]);
  let int label v := (label, print_dec (int32 v)) in
  match flom_rsrc_get_type n with
  | FLOM_RSRC_TYPE_SIMPLE | FLOM_RSRC_TYPE_HIER =>
      emit (empty_tag FLOM_MSG_TAG_RESOURCE
              [(FLOM_MSG_PROP_NAME, name64);
               int FLOM_MSG_PROP_MODE (l8_mode b);
               int FLOM_MSG_PROP_WAIT (l8_wait b);
               int FLOM_MSG_PROP_CREATE (l8_create b);
               int FLOM_MSG_PROP_LIFESPAN (l8_lifespan b)])
  | FLOM_RSRC_TYPE_NUMERIC =>
      emit (empty_tag FLOM_MSG_TAG_RESOURCE
              [(FLOM_MSG_PROP_NAME, name64);
               int FLOM_MSG_PROP_WAIT (l8_wait b);
               int FLOM_MSG_PROP_QUANTITY (l8_quantity b);
               int FLOM_MSG_PROP_CREATE (l8_create b);
               int FLOM_MSG_PROP_LIFESPAN (l8_lifespan b)])
  | FLOM_RSRC_TYPE_SET | FLOM_RSRC_TYPE_SEQUENCE | FLOM_RSRC_TYPE_TIMESTAMP =>
      emit (empty_tag FLOM_MSG_TAG_RESOURCE
              [(FLOM_MSG_PROP_NAME, name64);
               int FLOM_MSG_PROP_WAIT (l8_wait b);
               int FLOM_MSG_PROP_CREATE (l8_create b);
               int FLOM_MSG_PROP_LIFESPAN (l8_lifespan b)])
  | FLOM_RSRC_TYPE_NULL => throw (Rc FLOM_RC_INVALID_RESOURCE_NAME)
  end.

Definition answer_attributes (a : body_answer) : list (string * string) :=
  (FLOM_MSG_PROP_RC, print_dec (int32 (a_rc a))) ::
  match a_element a with
  | None => []
  | Some e => [(FLOM_MSG_PROP_ELEMENT, e)]
  end.

Definition flom_msg_serialize_lock_16 (msg : flom_msg) : M err string unit :=
  '(p, a) ← of_option Ub (get_lock_16 (m_body msg));
  _ ← emit (empty_tag FLOM_MSG_TAG_SESSION [(FLOM_MSG_PROP_PEERID, str_or_empty p)]);
  emit (empty_tag FLOM_MSG_TAG_ANSWER (answer_attributes a)).

Definition flom_msg_serialize_lock_24 (msg : flom_msg) : M err string unit :=
  a ← of_option Ub (get_lock_24 (m_body msg));
  emit (empty_tag FLOM_MSG_TAG_ANSWER (answer_attributes a)).

(** [lock_32] has the type and the text of [lock_24]. *)
Definition flom_msg_serialize_lock_32 (msg : flom_msg) : M err string unit :=
  a ← of_option Ub (get_lock_24 (m_body msg));
  emit (empty_tag FLOM_MSG_TAG_ANSWER (answer_attributes a)).

Definition flom_msg_serialize_unlock_8 (msg : flom_msg) : M err string unit :=
  '(n, r) ← of_option Ub (get_unlock_8 (m_body msg));
  name64 ← encoded_name n;
  emit ("<" +:+ FLOM_MSG_TAG_RESOURCE +:+
        attributes [(FLOM_MSG_PROP_NAME, name64);
                    (FLOM_MSG_PROP_ROLLBACK, print_dec (int32 r))] +:+ " />").

Definition flom_msg_serialize_ping_8 (msg : flom_msg) : M err string unit := mret tt.
Definition flom_msg_serialize_ping_16 (msg : flom_msg) : M err string unit := mret tt.
Definition flom_msg_serialize_discover_8 (msg : flom_msg) : M err string unit := mret tt.

Definition flom_msg_serialize_discover_16 (msg : flom_msg) : M err string unit :=
  '(a, p) ← of_option Ub (get_discover_16 (m_body msg));
  emit (empty_tag FLOM_MSG_TAG_NETWORK
          [(FLOM_MSG_PROP_ADDRESS, str_or_empty a);
           (FLOM_MSG_PROP_PORT, print_dec (uint16 p))]).

(** When the action is not a shutdown, [used_chars] still holds the length of
    the session tag: it is added to the offset a second time, over bytes of
    the buffer nobody wrote. *)
Definition flom_msg_serialize_mngmnt_8 (msg : flom_msg) : M err string unit :=
  '(p, action, immediate) ← of_option Ub (get_mngmnt_8 (m_body msg));
  let session :=
    empty_tag FLOM_MSG_TAG_SESSION [(FLOM_MSG_PROP_PEERID, str_or_empty p)] in
  _ ← emit session;
  match action with
  | FLOM_MSG_MNGMNT_ACTION_SHUTDOWN =>
      emit (empty_tag FLOM_MSG_TAG_SHUTDOWN
              [(FLOM_MSG_PROP_IMMEDIATE, print_dec (int32 immediate))])
  | _ => buf ← gets id;
         if strlen session >=? buffer_len - strlen buf
         then throw (Rc FLOM_RC_CONTAINER_FULL) else throw Ub
  end.

Definition serialize_body (msg : flom_msg) : M err string unit :=
  let v := msg_verb msg in
  let s := msg_step msg in
  if v =? FLOM_MSG_VERB_LOCK then
    if s =? FLOM_MSG_STEP_INCR then flom_msg_serialize_lock_8 msg
    else if s =? 2 * FLOM_MSG_STEP_INCR then flom_msg_serialize_lock_16 msg
    else if s =? 3 * FLOM_MSG_STEP_INCR then flom_msg_serialize_lock_24 msg
    else if s =? 4 * FLOM_MSG_STEP_INCR then flom_msg_serialize_lock_32 msg
    else throw (Rc FLOM_RC_INTERNAL_ERROR)
  else if v =? FLOM_MSG_VERB_UNLOCK then
    if s =? FLOM_MSG_STEP_INCR then flom_msg_serialize_unlock_8 msg
    else throw (Rc FLOM_RC_INTERNAL_ERROR)
  else if v =? FLOM_MSG_VERB_PING then
    if s =? FLOM_MSG_STEP_INCR then flom_msg_serialize_ping_8 msg
    else if s =? 2 * FLOM_MSG_STEP_INCR then flom_msg_serialize_ping_16 msg
    else throw (Rc FLOM_RC_INTERNAL_ERROR)
  else if v =? FLOM_MSG_VERB_DISCOVER then
    if s =? FLOM_MSG_STEP_INCR then flom_msg_serialize_discover_8 msg
    else if s =? 2 * FLOM_MSG_STEP_INCR then flom_msg_serialize_discover_16 msg
    else throw (Rc FLOM_RC_INTERNAL_ERROR)
  else if v =? FLOM_MSG_VERB_MNGMNT then
    if s =? FLOM_MSG_STEP_INCR then flom_msg_serialize_mngmnt_8 msg
    else throw (Rc FLOM_RC_INTERNAL_ERROR)
  else throw (Rc FLOM_RC_INTERNAL_ERROR).

Definition xml_header : string :=
  FLOM_MSG_HEADER +:+ attributes [("version", "1.0"); ("encoding", "UTF-8")] +:+ " ?>".

Definition msg_open_tag (h : flom_msg_header) : string :=
  open_tag FLOM_MSG_TAG_MSG
    [(FLOM_MSG_PROP_LEVEL, print_dec (int32 (h_level h)));
     (FLOM_MSG_PROP_VERB, print_dec (int32 (h_verb h)));
     (FLOM_MSG_PROP_STEP, print_dec (int32 (h_step h)))].

(** [flom_msg_serialize]: the buffer starts empty; its content is the result *)
Definition serialize_prog (msg : flom_msg) : M err string unit :=
  _ ← emit xml_header;
  _ ← emit (msg_open_tag (m_header msg));
  _ ← serialize_body msg;
  emit (close_tag FLOM_MSG_TAG_MSG).

Definition flom_msg_serialize (msg : flom_msg) : err + string :=
  match serialize_prog msg "" with
  | (inr tt, buf) => inr buf
  | (inl e, _) => inl e
  end.
End serialize.

(** ** Deserialization callbacks

    The exceptions of [flom_msg_deserialize_start_element], all but
    [ALREADY_INVALID] mark the message as invalid.  [UNION_ACCESS] is the
    undefined access to a body written through another member. *)
Inductive deserialize_exc : Type :=
| ALREADY_INVALID
| PROTOCOL_LEVEL_MISMATCH
| DESERIALIZE_RESOURCE_NAME_ERROR
| INVALID_PROPERTY
| TAG_TYPE_ERROR
| UNION_ACCESS.

Inductive tag_type : Type :=
| dummy_tag | msg_tag | resource_tag | answer_tag | network_tag | session_tag
| shutdown_tag.

Definition tag_type_of (element_name : string) : tag_type :=
  if String.eqb element_name FLOM_MSG_TAG_MSG then msg_tag
  else if String.eqb element_name FLOM_MSG_TAG_RESOURCE then resource_tag
  else if String.eqb element_name FLOM_MSG_TAG_ANSWER then answer_tag
  else if String.eqb element_name FLOM_MSG_TAG_NETWORK then network_tag
  else if String.eqb element_name FLOM_MSG_TAG_SESSION then session_tag
  else if String.eqb element_name FLOM_MSG_TAG_SHUTDOWN then shutdown_tag
  else dummy_tag.

(** Bytes up to the first NUL *)
Fixpoint c_string (s : string) : string :=
  match s with
  | EmptyString => EmptyString
  | String c s' => if Ascii.eqb c "000" then EmptyString else String c (c_string s')
  end.

Section deserialize.
Context `{Glib}.

Definition Deser : Type := M deserialize_exc flom_msg unit.

Definition flom_msg_deserialize_resource_name (base64 : string) : Z + string :=
  match g_base64_decode base64 with
  | None => inl FLOM_RC_G_BASE64_DECODE_ERROR
  | Some s => inr (c_string s)
  end.

Definition put_header (f : flom_msg_header -> flom_msg_header) : Deser :=
  modify (fun m => set_header (f (m_header m)) m).
Definition put_body {A} (get : msg_body -> option A) (f : A -> msg_body) : Deser :=
  b ← gets m_body;
  a ← of_option UNION_ACCESS (get b);
  modify (set_body (f a)).
Definition put_lock_8 (f : body_lock_8 -> body_lock_8) : Deser :=
  put_body get_lock_8 (fun b => body_lock_8_ (f b)).

Definition deserialize_msg_prop (name value : string) : Deser :=
  if String.eqb name FLOM_MSG_PROP_LEVEL then
    let l := int32 (strtol value) in
    _ ← put_header (fun h => Header l (h_verb h) (h_step h));
    when (negb (FLOM_MSG_LEVEL =? l)) (throw PROTOCOL_LEVEL_MISMATCH)
  else if String.eqb name FLOM_MSG_PROP_VERB then
    put_header (fun h => Header (h_level h) (int32 (strtol value)) (h_step h))
  else if String.eqb name FLOM_MSG_PROP_STEP then
    put_header (fun h => Header (h_level h) (h_verb h) (int32 (strtol value)))
  else mret tt.

(** [only_for v p]: a property of the other verb makes the message invalid *)
Definition only_for (expected verb : Z) (p : Deser) : Deser :=
  if expected =? verb then p else throw INVALID_PROPERTY.

Definition deserialize_resource_prop (name value : string) : Deser :=
  h ← gets m_header;
  let v := h_verb h in
  if ((FLOM_MSG_VERB_LOCK =? v) && (FLOM_MSG_STEP_INCR =? h_step h)) ||
     ((FLOM_MSG_VERB_UNLOCK =? v) && (FLOM_MSG_STEP_INCR =? h_step h)) then
    let n := strtol value in
    let lock p := only_for FLOM_MSG_VERB_LOCK v (put_lock_8 p) in
    if String.eqb name FLOM_MSG_PROP_NAME then
      match flom_msg_deserialize_resource_name value with
      | inl _ => throw DESERIALIZE_RESOURCE_NAME_ERROR
      | inr tmp =>
          if FLOM_MSG_VERB_LOCK =? v then
            put_lock_8 (fun b => Lock_8 (l8_peerid b) (Some tmp) (l8_mode b) (l8_wait b)
                                   (l8_quantity b) (l8_create b) (l8_lifespan b))
          else put_body get_unlock_8 (fun '(_, r) => body_unlock_8 (Some tmp) r)
      end
    else if String.eqb name FLOM_MSG_PROP_MODE then
      lock (fun b => Lock_8 (l8_peerid b) (l8_name b) (uint32 n) (l8_wait b)
                       (l8_quantity b) (l8_create b) (l8_lifespan b))
    else if String.eqb name FLOM_MSG_PROP_ROLLBACK then
      only_for FLOM_MSG_VERB_UNLOCK v
        (put_body get_unlock_8 (fun '(nm, _) => body_unlock_8 nm (int32 n)))
    else if String.eqb name FLOM_MSG_PROP_WAIT then
      lock (fun b => Lock_8 (l8_peerid b) (l8_name b) (l8_mode b) (int32 n)
                       (l8_quantity b) (l8_create b) (l8_lifespan b))
    else if String.eqb name FLOM_MSG_PROP_QUANTITY then
      lock (fun b => Lock_8 (l8_peerid b) (l8_name b) (l8_mode b) (l8_wait b)
                       (int32 n) (l8_create b) (l8_lifespan b))
    else if String.eqb name FLOM_MSG_PROP_CREATE then
      lock (fun b => Lock_8 (l8_peerid b) (l8_name b) (l8_mode b) (l8_wait b)
                       (l8_quantity b) (int32 n) (l8_lifespan b))
    else if String.eqb name FLOM_MSG_PROP_LIFESPAN then
      lock (fun b => Lock_8 (l8_peerid b) (l8_name b) (l8_mode b) (l8_wait b)
                       (l8_quantity b) (l8_create b) (int32 n))
    else mret tt
  else mret tt.

Definition deserialize_answer_prop (name value : string) : Deser :=
  h ← gets m_header;
  let s := h_step h in
  if (FLOM_MSG_VERB_LOCK =? h_verb h) &&
     ((2 * FLOM_MSG_STEP_INCR =? s) || (3 * FLOM_MSG_STEP_INCR =? s) ||
      (4 * FLOM_MSG_STEP_INCR =? s)) then
    if String.eqb name FLOM_MSG_PROP_RC then
      let v := int32 (strtol value) in
      if 2 * FLOM_MSG_STEP_INCR =? s then
        put_body get_lock_16 (fun '(p, a) => body_lock_16 p (Answer v (a_element a)))
      else if 3 * FLOM_MSG_STEP_INCR =? s then
        put_body get_lock_24 (fun a => body_lock_24 (Answer v (a_element a)))
      else
        put_body get_lock_24 (fun a => body_lock_32 (Answer v (a_element a)))
    else if String.eqb name FLOM_MSG_PROP_ELEMENT then
      if 2 * FLOM_MSG_STEP_INCR =? s then
        put_body get_lock_16 (fun '(p, a) => body_lock_16 p (Answer (a_rc a) (Some value)))
      else
        put_body get_lock_24 (fun a => body_lock_24 (Answer (a_rc a) (Some value)))
    else mret tt
  else mret tt.

Definition deserialize_network_prop (name value : string) : Deser :=
  h ← gets m_header;
  if (FLOM_MSG_VERB_DISCOVER =? h_verb h) && (2 * FLOM_MSG_STEP_INCR =? h_step h) then
    if String.eqb name FLOM_MSG_PROP_PORT then
      put_body get_discover_16 (fun '(a, _) => body_discover_16 a (uint16 (strtol value)))
    else if String.eqb name FLOM_MSG_PROP_ADDRESS then
      put_body get_discover_16 (fun '(_, p) => body_discover_16 (Some value) p)
    else throw INVALID_PROPERTY
  else mret tt.

Definition deserialize_session_prop (name value : string) : Deser :=
  h ← gets m_header;
  let v := h_verb h in
  let s := h_step h in
  if ((FLOM_MSG_VERB_LOCK =? v) &&
      ((FLOM_MSG_STEP_INCR =? s) || (2 * FLOM_MSG_STEP_INCR =? s))) ||
     ((FLOM_MSG_VERB_MNGMNT =? v) && (FLOM_MSG_STEP_INCR =? s)) then
    if String.eqb name FLOM_MSG_PROP_PEERID then
      if FLOM_MSG_VERB_LOCK =? v then
        if FLOM_MSG_STEP_INCR =? s then
          put_lock_8 (fun b => Lock_8 (Some value) (l8_name b) (l8_mode b) (l8_wait b)
                                 (l8_quantity b) (l8_create b) (l8_lifespan b))
        else put_body get_lock_16 (fun '(_, a) => body_lock_16 (Some value) a)
      else put_body get_mngmnt_8 (fun '(_, a, i) => body_mngmnt_8 (Some value) a i)
    else mret tt
  else mret tt.

Definition deserialize_shutdown_prop (name value : string) : Deser :=
  h ← gets m_header;
  if (FLOM_MSG_VERB_MNGMNT =? h_verb h) && (FLOM_MSG_STEP_INCR =? h_step h) then
    if String.eqb name FLOM_MSG_PROP_IMMEDIATE then
      put_body get_mngmnt_8 (fun '(p, _, _) =>
        body_mngmnt_8 p FLOM_MSG_MNGMNT_ACTION_SHUTDOWN (int32 (strtol value)))
    else throw INVALID_PROPERTY
  else mret tt.

(** The body of the loop over the attributes *)
Definition deserialize_prop (t : tag_type) (name value : string) : Deser :=
  match t with
  | msg_tag => deserialize_msg_prop name value
  | resource_tag => deserialize_resource_prop name value
  | answer_tag => deserialize_answer_prop name value
  | network_tag => deserialize_network_prop name value
  | session_tag => deserialize_session_prop name value
  | shutdown_tag => deserialize_shutdown_prop name value
  | dummy_tag => throw TAG_TYPE_ERROR
  end.

Fixpoint deserialize_props (t : tag_type) (l : list (string * string)) : Deser :=
  match l with
  | [] => mret tt
  | (n, v) :: l => _ ← deserialize_prop t n v; deserialize_props t l
  end.

Definition start_element_body (element_name : string) (l : list (string * string)) : Deser :=
  st ← gets m_state;
  _ ← match st with
      | FLOM_MSG_STATE_INVALID => throw ALREADY_INVALID
      | FLOM_MSG_STATE_INITIALIZED => modify (set_state FLOM_MSG_STATE_PARSING)
      | _ => mret tt
      end;
  deserialize_props (tag_type_of element_name) l.

(** The callback returns nothing: its effect is the new message.  [None]
    stands for undefined behaviour. *)
Definition flom_msg_deserialize_start_element (element_name : string)
    (l : list (string * string)) (m : flom_msg) : option flom_msg :=
  match start_element_body element_name l m with
  | (inr tt, m') => Some m'
  | (inl UNION_ACCESS, _) => None
  | (inl ALREADY_INVALID, m') => Some m'
  | (inl _, m') => Some (set_state FLOM_MSG_STATE_INVALID m')
  end.

Definition flom_msg_deserialize_text (text : string) (m : flom_msg) : flom_msg := m.

Definition flom_msg_deserialize_end_element (element_name : string) (m : flom_msg)
    : flom_msg :=
  match m_state m with
  | FLOM_MSG_STATE_INVALID | FLOM_MSG_STATE_READY => m
  | FLOM_MSG_STATE_INITIALIZED => set_state FLOM_MSG_STATE_INVALID m
  | FLOM_MSG_STATE_PARSING =>
      if String.eqb element_name FLOM_MSG_TAG_MSG
      then set_state FLOM_MSG_STATE_READY m else m
  end.

(** What the markup parser calls, in document order *)
Inductive markup_event : Type :=
| StartElement (name : string) (l : list (string * string))
| Text (text : string)
| EndElement (name : string).

Definition markup_callback (e : markup_event) (m : flom_msg) : option flom_msg :=
  match e with
  | StartElement n l => flom_msg_deserialize_start_element n l m
  | Text t => Some (flom_msg_deserialize_text t m)
  | EndElement n => Some (flom_msg_deserialize_end_element n m)
  end.

Fixpoint markup_callbacks (l : list markup_event) (m : flom_msg) : option flom_msg :=
  match l with
  | [] => Some m
  | e :: l => m' ← markup_callback e m; markup_callbacks l m'
  end.
End deserialize.

(** ** Serialization and the size of the buffer *)
Section buffer.
Context `{Glib}.
Variable buffer_len : Z.

Lemma emit_fits s buf :
  strlen (buf +:+ s) < buffer_len -> emit buffer_len s buf = (inr tt, buf +:+ s).
Proof.
  rewrite strlen_app. intros Hl. unfold emit, mbind, M_bind, gets. cbn.
  destruct (strlen s >=? buffer_len - strlen buf) eqn:E; [|done].
  apply Z.geb_le in E. lia.
Qed.

Lemma emit_full s buf :
  buffer_len <= strlen (buf +:+ s) ->
  emit buffer_len s buf = (inl (Rc FLOM_RC_CONTAINER_FULL), buf).
Proof.
  rewrite strlen_app. intros Hl. unfold emit, mbind, M_bind, gets. cbn.
  destruct (strlen s >=? buffer_len - strlen buf) eqn:E; [done|].
  assert (~ buffer_len - strlen buf <= strlen s) by (rewrite <- Z.geb_le; congruence). lia.
Qed.

(** What a message to a connection that was waiting looks like *)
Definition granted_text (element : option string) : string :=
  xml_header +:+
  (msg_open_tag (Header FLOM_MSG_LEVEL FLOM_MSG_VERB_LOCK (3 * FLOM_MSG_STEP_INCR)) +:+
   (empty_tag FLOM_MSG_TAG_ANSWER (answer_attributes (Answer FLOM_RC_OK element)) +:+
    close_tag FLOM_MSG_TAG_MSG)).

(** Naming an element costs its length *)
Lemma granted_text_length e :
  strlen (granted_text (Some e)) = strlen (granted_text (Some ""%string)) + strlen e.
Proof.
  unfold granted_text, empty_tag, attributes, answer_attributes, attribute.
  cbn [map String.concat fst snd a_element a_rc]. autorewrite with strlen. lia.
Qed.

Lemma granted_text_short e :
  strlen e < 800 -> strlen (granted_text (Some e)) < FLOM_NETWORK_BUFFER_SIZE.
Proof.
  rewrite granted_text_length.
  assert (strlen (granted_text (Some ""%string)) <= 150) by (apply Z.leb_le; vm_compute; done).
  unfold FLOM_NETWORK_BUFFER_SIZE. lia.
Qed.

Lemma serialize_lock_24 a st' :
  strlen (xml_header +:+
    (msg_open_tag (Header FLOM_MSG_LEVEL FLOM_MSG_VERB_LOCK (3 * FLOM_MSG_STEP_INCR)) +:+
     (empty_tag FLOM_MSG_TAG_ANSWER (answer_attributes a) +:+
      close_tag FLOM_MSG_TAG_MSG))) < buffer_len ->
  flom_msg_serialize buffer_len
    (Msg st' (Header FLOM_MSG_LEVEL FLOM_MSG_VERB_LOCK (3 * FLOM_MSG_STEP_INCR))
       (body_lock_24 a)) =
  inr (xml_header +:+
    (msg_open_tag (Header FLOM_MSG_LEVEL FLOM_MSG_VERB_LOCK (3 * FLOM_MSG_STEP_INCR)) +:+
     (empty_tag FLOM_MSG_TAG_ANSWER (answer_attributes a) +:+
      close_tag FLOM_MSG_TAG_MSG))).
Proof.
  set (t1 := xml_header). set (t2 := msg_open_tag _). set (t3 := empty_tag _ _).
  set (t4 := close_tag _). rewrite !strlen_app. intros Hl.
  pose proof (strlen_nonneg t1). pose proof (strlen_nonneg t2).
  pose proof (strlen_nonneg t3). pose proof (strlen_nonneg t4).
  unfold flom_msg_serialize, serialize_prog. cbn [m_header].
  unfold mbind, M_bind. fold t1. rewrite emit_fits by (autorewrite with strlen; lia).
  fold t2. rewrite emit_fits by (autorewrite with strlen; lia).
  change (serialize_body buffer_len (Msg st' _ (body_lock_24 a)))
    with (emit buffer_len t3).
  rewrite emit_fits by (autorewrite with strlen; lia).
  fold t4. rewrite emit_fits by (autorewrite with strlen; lia).
  reflexivity.
Qed.
End buffer.

(** ** Serialization terminates *)
Section terminates.
Context `{Glib}.

Lemma emit_terminates n s : terminates (emit n s).
Proof. unfold emit. solve_terminates. Qed.
Hint Resolve emit_terminates : terminates.

Lemma encoded_name_terminates o : terminates (encoded_name o).
Proof. unfold encoded_name. solve_terminates. Qed.
Hint Resolve encoded_name_terminates : terminates.

Lemma serialize_body_terminates n m : terminates (serialize_body n m).
Proof.
  unfold serialize_body, flom_msg_serialize_lock_8, flom_msg_serialize_lock_16,
    flom_msg_serialize_lock_24, flom_msg_serialize_lock_32, flom_msg_serialize_unlock_8,
    flom_msg_serialize_ping_8, flom_msg_serialize_ping_16, flom_msg_serialize_discover_8,
    flom_msg_serialize_discover_16, flom_msg_serialize_mngmnt_8.
  cbv zeta. solve_terminates.
Qed.
Hint Resolve serialize_body_terminates : terminates.

Lemma serialize_prog_terminates n m : terminates (serialize_prog n m).
Proof. unfold serialize_prog. solve_terminates. Qed.

Lemma serialize_not_NoFuel n m : flom_msg_serialize n m <> inl NoFuel.
Proof.
  pose proof (serialize_prog_terminates n m EmptyString) as Ht. unfold flom_msg_serialize.
  destruct (serialize_prog n m EmptyString) as [[e|[]] buf]; [|done].
  intros [= ->]. by apply Ht.
Qed.
End terminates.
