(* ===== verification/MsgRound.v ===== *)
(** * MsgRound: what is sent is what is received

    The round trip of a message through [flom_msg_serialize], the markup parser
    of GLib and the callbacks of [src/src/flom_msg.c].  The parser and base64
    are GLib's: what is used of them is stated as the hypotheses of a section. *)
From Stdlib Require Import ZArith String Ascii List Lia.
From stdpp Require Import base list numbers strings.
From S2P Require Import Prelude Types CStr RsrcName Msg MsgXml.
Local Open Scope string_scope.
Local Open Scope Z_scope.

(** ** Documents: a [msg] element with empty children; the program prints a
    blank before the end of some tags *)
Record child : Type := Child {
  ch_tag : string;
  ch_attributes : list (string * string);
  ch_blank : bool
}.
Record document : Type := Document {
  doc_attributes : list (string * string);
  doc_children : list child
}.

Definition print_child (c : child) : string :=
  if ch_blank c then "<" +:+ ch_tag c +:+ attributes (ch_attributes c) +:+ " />"
  else empty_tag (ch_tag c) (ch_attributes c).

Fixpoint print_children (l : list child) : string :=
  match l with
  | [] => ""
  | c :: l => print_child c +:+ print_children l
  end.

Definition print_document (d : document) : string :=
  xml_header +:+ (open_tag FLOM_MSG_TAG_MSG (doc_attributes d) +:+
    (print_children (doc_children d) +:+ close_tag FLOM_MSG_TAG_MSG)).

(** The events of a document: the XML declaration has none. *)
Definition child_events (c : child) : list markup_event :=
  [StartElement (ch_tag c) (ch_attributes c); EndElement (ch_tag c)].
Definition document_events (d : document) : list markup_event :=
  StartElement FLOM_MSG_TAG_MSG (doc_attributes d) ::
  concat (map child_events (doc_children d)) ++ [EndElement FLOM_MSG_TAG_MSG].

(** Values that need no escaping: printable ASCII without the markup's own
    characters *)
Definition plain_char (c : ascii) : bool :=
  let n := nat_of_ascii c in
  (32 <=? n)%nat && (n <=? 126)%nat &&
  negb ((n =? 34)%nat || (n =? 38)%nat || (n =? 39)%nat || (n =? 60)%nat || (n =? 62)%nat).
(** Names made of letters *)
Definition letter (c : ascii) : bool :=
  let n := nat_of_ascii c in
  ((65 <=? n)%nat && (n <=? 90)%nat) || ((97 <=? n)%nat && (n <=? 122)%nat).
Fixpoint all_chars (p : ascii -> bool) (s : string) : bool :=
  match s with
  | EmptyString => true
  | String c s => p c && all_chars p s
  end.
Definition word (s : string) : bool := negb (String.eqb s "") && all_chars letter s.
Definition plain (s : string) : bool := all_chars plain_char s.

Definition attributes_ok (l : list (string * string)) : bool :=
  forallb (fun p => word p.1 && plain p.2) l.
Definition document_ok (d : document) : bool :=
  attributes_ok (doc_attributes d) &&
  forallb (fun c => word (ch_tag c) && attributes_ok (ch_attributes c)) (doc_children d).

(** ** The document of a message *)
Section document.
Context `{Glib}.

Definition number (label : string) (v : Z) : string * string := (label, print_dec (int32 v)).

Definition lock_8_attributes (name64 : string) (b : body_lock_8) (t : flom_rsrc_type)
    : option (list (string * string)) :=
  let name := (FLOM_MSG_PROP_NAME, name64) in
  let wait := number FLOM_MSG_PROP_WAIT (l8_wait b) in
  let tail := [number FLOM_MSG_PROP_CREATE (l8_create b);
               number FLOM_MSG_PROP_LIFESPAN (l8_lifespan b)] in
  match t with
  | FLOM_RSRC_TYPE_SIMPLE | FLOM_RSRC_TYPE_HIER =>
      Some (name :: number FLOM_MSG_PROP_MODE (l8_mode b) :: wait :: tail)
  | FLOM_RSRC_TYPE_NUMERIC =>
      Some (name :: wait :: number FLOM_MSG_PROP_QUANTITY (l8_quantity b) :: tail)
  | FLOM_RSRC_TYPE_SET | FLOM_RSRC_TYPE_SEQUENCE | FLOM_RSRC_TYPE_TIMESTAMP =>
      Some (name :: wait :: tail)
  | FLOM_RSRC_TYPE_NULL => None
  end.

Definition session (p : option string) : child :=
  Child FLOM_MSG_TAG_SESSION [(FLOM_MSG_PROP_PEERID, str_or_empty p)] false.
Definition answer (a : body_answer) : child :=
  Child FLOM_MSG_TAG_ANSWER (answer_attributes a) false.

(** The messages of the protocol, by verb, step and body *)
Inductive sendable : Z -> Z -> msg_body -> list child -> Prop :=
| send_lock_8 b n name64 l :
    l8_name b = Some n -> g_base64_encode n = Some name64 ->
    lock_8_attributes name64 b (flom_rsrc_get_type n) = Some l ->
    sendable FLOM_MSG_VERB_LOCK FLOM_MSG_STEP_INCR (body_lock_8_ b)
      [session (l8_peerid b); Child FLOM_MSG_TAG_RESOURCE l false]
| send_lock_16 p a :
    sendable FLOM_MSG_VERB_LOCK (2 * FLOM_MSG_STEP_INCR) (body_lock_16 p a)
      [session p; answer a]
| send_lock_24 a :
    sendable FLOM_MSG_VERB_LOCK (3 * FLOM_MSG_STEP_INCR) (body_lock_24 a) [answer a]
| send_lock_32 a :
    sendable FLOM_MSG_VERB_LOCK (4 * FLOM_MSG_STEP_INCR) (body_lock_32 a) [answer a]
| send_unlock_8 n name64 r :
    g_base64_encode n = Some name64 ->
    sendable FLOM_MSG_VERB_UNLOCK FLOM_MSG_STEP_INCR (body_unlock_8 (Some n) r)
      [Child FLOM_MSG_TAG_RESOURCE
         [(FLOM_MSG_PROP_NAME, name64); number FLOM_MSG_PROP_ROLLBACK r] true]
| send_ping_8 : sendable FLOM_MSG_VERB_PING FLOM_MSG_STEP_INCR body_zero []
| send_ping_16 : sendable FLOM_MSG_VERB_PING (2 * FLOM_MSG_STEP_INCR) body_zero []
| send_discover_8 : sendable FLOM_MSG_VERB_DISCOVER FLOM_MSG_STEP_INCR body_zero []
| send_discover_16 a p :
    sendable FLOM_MSG_VERB_DISCOVER (2 * FLOM_MSG_STEP_INCR) (body_discover_16 a p)
      [Child FLOM_MSG_TAG_NETWORK [(FLOM_MSG_PROP_ADDRESS, str_or_empty a);
         (FLOM_MSG_PROP_PORT, print_dec (uint16 p))] false]
| send_mngmnt_8 p i :
    sendable FLOM_MSG_VERB_MNGMNT FLOM_MSG_STEP_INCR
      (body_mngmnt_8 p FLOM_MSG_MNGMNT_ACTION_SHUTDOWN i)
      [session p; Child FLOM_MSG_TAG_SHUTDOWN [number FLOM_MSG_PROP_IMMEDIATE i] false].

Definition message_document (h : flom_msg_header) (l : list child) : document :=
  Document [number FLOM_MSG_PROP_LEVEL (h_level h); number FLOM_MSG_PROP_VERB (h_verb h);
            number FLOM_MSG_PROP_STEP (h_step h)] l.

(** ** Serialization prints the document, or finds the buffer too small *)
Variable buffer_len : Z.

Fixpoint emits (l : list string) : M err string unit :=
  match l with
  | [] => mret tt
  | s :: l => _ ← emit buffer_len s; emits l
  end.

Fixpoint joined (l : list string) : string :=
  match l with
  | [] => ""
  | s :: l => s +:+ joined l
  end.

Lemma joined_app l1 l2 : joined (l1 ++ l2) = joined l1 +:+ joined l2.
Proof.
  induction l1 as [|s l1 IH]; [done|]. cbn [joined app]. by rewrite IH, string_app_assoc.
Qed.

Lemma joined_children l : joined (map print_child l) = print_children l.
Proof. induction l as [|c l IH]; [done|]. cbn [joined map print_children]. by rewrite IH. Qed.

Lemma emits_fits l : forall buf,
  strlen (buf +:+ joined l) < buffer_len -> emits l buf = (inr tt, buf +:+ joined l).
Proof.
  induction l as [|s l IH]; intros buf Hl; cbn [emits joined] in *.
  - by rewrite string_app_nil_r.
  - rewrite <- string_app_assoc in *. unfold mbind, M_bind.
    assert (strlen (buf +:+ s) < buffer_len).
    { rewrite strlen_app in Hl. pose proof (strlen_nonneg (joined l)). lia. }
    rewrite emit_fits by done. by apply IH.
Qed.

Lemma emits_full l : forall buf,
  strlen buf < buffer_len \/ l <> [] -> buffer_len <= strlen (buf +:+ joined l) ->
  (emits l buf).1 = inl (Rc FLOM_RC_CONTAINER_FULL).
Proof.
  induction l as [|s l IH]; intros buf Hb Hl; cbn [emits joined] in *.
  - rewrite string_app_nil_r in Hl. destruct Hb; [lia | done].
  - rewrite <- string_app_assoc in Hl. unfold mbind, M_bind.
    destruct (Z.lt_ge_cases (strlen (buf +:+ s)) buffer_len) as [Hs|Hs].
    + rewrite emit_fits by done. apply IH; auto.
    + by rewrite emit_full by lia.
Qed.

Lemma emits_app l1 l2 buf : (_ ← emits l1; emits l2) buf = emits (l1 ++ l2) buf.
Proof.
  revert buf. induction l1 as [|s l1 IH]; intros buf; [done|]. cbn [emits app].
  unfold mbind, M_bind in *. destruct (emit buffer_len s buf) as [[e|[]] buf']; [done|].
  apply IH.
Qed.

Lemma emit_one x buf : emit buffer_len x buf = emits [x] buf.
Proof.
  cbn [emits]. unfold mbind, M_bind. by destruct (emit buffer_len x buf) as [[e|[]] buf'].
Qed.

Lemma emit_two x y buf : (_ ← emit buffer_len x; emit buffer_len y) buf = emits [x; y] buf.
Proof.
  cbn [emits]. unfold mbind, M_bind. destruct (emit buffer_len x buf) as [[e|[]] buf']; [done|].
  apply emit_one.
Qed.

Lemma encoded_name_ok n name64 buf :
  g_base64_encode n = Some name64 -> encoded_name (Some n) buf = (inr name64, buf).
Proof. intros He. unfold encoded_name, mbind, M_bind. cbn. by rewrite He. Qed.

Lemma serialize_lock_8_emits st h b n name64 l buf :
  l8_name b = Some n -> g_base64_encode n = Some name64 ->
  lock_8_attributes name64 b (flom_rsrc_get_type n) = Some l ->
  flom_msg_serialize_lock_8 buffer_len (Msg st h (body_lock_8_ b)) buf =
    emits (map print_child [session (l8_peerid b); Child FLOM_MSG_TAG_RESOURCE l false]) buf.
Proof.
  intros Hn He Ha. etrans; [|apply emit_two]. unfold flom_msg_serialize_lock_8.
  unfold mbind, M_bind. cbn -[encoded_name emit attributes empty_tag flom_rsrc_get_type]. rewrite Hn.
  cbn -[encoded_name emit attributes empty_tag flom_rsrc_get_type]. rewrite (encoded_name_ok _ _ _ He).
  destruct (flom_rsrc_get_type n); cbn in Ha; [done|..]; injection Ha as <-; done.
Qed.

Lemma serialize_body_emits st h b l buf :
  sendable (h_verb h) (h_step h) b l ->
  serialize_body buffer_len (Msg st h b) buf = emits (map print_child l) buf.
Proof.
  destruct h as [lv v s]. cbn [h_verb h_step]. intros Hs.
  destruct Hs as [b n name64 l Hn He Ha|p a|a|a|n name64 r He| | | |a p|p i].
  - by eapply serialize_lock_8_emits.
  - etrans; [|apply emit_two]. reflexivity.
  - etrans; [|apply emit_one]. reflexivity.
  - etrans; [|apply emit_one]. reflexivity.
  - etrans; [|apply emit_one]. change (flom_msg_serialize_unlock_8 buffer_len
      (Msg st (Header lv FLOM_MSG_VERB_UNLOCK FLOM_MSG_STEP_INCR) (body_unlock_8 (Some n) r)) buf =
      emit buffer_len (print_child (Child FLOM_MSG_TAG_RESOURCE
        [(FLOM_MSG_PROP_NAME, name64); number FLOM_MSG_PROP_ROLLBACK r] true)) buf).
    unfold flom_msg_serialize_unlock_8, mbind, M_bind.
    cbn -[encoded_name emit attributes print_child]. by rewrite (encoded_name_ok _ _ _ He).
  - reflexivity.
  - reflexivity.
  - reflexivity.
  - etrans; [|apply emit_one]. reflexivity.
  - etrans; [|apply emit_two]. reflexivity.
Qed.

Lemma serialize_emits m l :
  sendable (msg_verb m) (msg_step m) (m_body m) l ->
  serialize_prog buffer_len m "" =
    emits (xml_header :: open_tag FLOM_MSG_TAG_MSG (doc_attributes (message_document (m_header m) l))
           :: map print_child l ++ [close_tag FLOM_MSG_TAG_MSG]) "".
Proof.
  destruct m as [st h b]. intros Hs. unfold serialize_prog. cbn [emits m_header].
  unfold mbind at 1 4, M_bind at 1 4. destruct (emit _ xml_header "") as [[e|[]] buf]; [done|].
  unfold mbind at 1 3, M_bind at 1 3.
  change (msg_open_tag h) with (open_tag FLOM_MSG_TAG_MSG (doc_attributes (message_document h l))).
  destruct (emit _ (open_tag _ _) buf) as [[e|[]] buf']; [done|].
  rewrite <- emits_app. unfold mbind, M_bind. rewrite (serialize_body_emits _ _ _ _ _ Hs).
  destruct (emits (map print_child l) buf') as [[e|[]] buf'']; [done|]. apply emit_one.
Qed.

Lemma document_text h l :
  joined (xml_header :: open_tag FLOM_MSG_TAG_MSG (doc_attributes (message_document h l))
           :: map print_child l ++ [close_tag FLOM_MSG_TAG_MSG]) =
  print_document (message_document h l).
Proof.
  cbn [joined]. rewrite joined_app, joined_children. cbn [joined].
  by rewrite string_app_nil_r.
Qed.
End document.

(** ** What the receiver makes of the document

    The members that are not sent are zero, a string that was NULL is empty,
    and an answer of step 32 that names an element is stored through the
    member of step 24. *)
Definition received_lock_8 (b : body_lock_8) : body_lock_8 :=
  let t := default FLOM_RSRC_TYPE_NULL (flom_rsrc_get_type <$> l8_name b) in
  Lock_8 (Some (str_or_empty (l8_peerid b))) (l8_name b)
    (match t with FLOM_RSRC_TYPE_SIMPLE | FLOM_RSRC_TYPE_HIER => l8_mode b | _ => 0 end)
    (l8_wait b)
    (match t with FLOM_RSRC_TYPE_NUMERIC => l8_quantity b | _ => 0 end)
    (l8_create b) (l8_lifespan b).

Definition received (b : msg_body) : msg_body :=
  match b with
  | body_zero => body_zero
  | body_lock_8_ b => body_lock_8_ (received_lock_8 b)
  | body_lock_16 p a => body_lock_16 (Some (str_or_empty p)) a
  | body_lock_24 a => body_lock_24 a
  | body_lock_32 a =>
      match a_element a with Some _ => body_lock_24 a | None => body_lock_32 a end
  | body_unlock_8 n r => body_unlock_8 n r
  | body_discover_16 a p => body_discover_16 (Some (str_or_empty a)) p
  | body_mngmnt_8 p act i => body_mngmnt_8 (Some (str_or_empty p)) act i
  end.

(** The members have the range of their C types, and the strings need no
    escaping. *)
Definition plain_option (o : option string) : bool := plain (str_or_empty o).
Definition sized (b : msg_body) : Prop :=
  match b with
  | body_zero => True
  | body_lock_8_ b =>
      0 <= l8_mode b <= 2147483647 /\ in_int32 (l8_wait b) /\ in_int32 (l8_quantity b) /\
      in_int32 (l8_create b) /\ in_int32 (l8_lifespan b) /\ plain_option (l8_peerid b) = true /\
      c_string (str_or_empty (l8_name b)) = str_or_empty (l8_name b)
  | body_lock_16 p a => plain_option p = true /\ in_int32 (a_rc a) /\ plain_option (a_element a) = true
  | body_lock_24 a | body_lock_32 a => in_int32 (a_rc a) /\ plain_option (a_element a) = true
  | body_unlock_8 n r => in_int32 r /\ c_string (str_or_empty n) = str_or_empty n
  | body_discover_16 a p => plain_option a = true /\ 0 <= p < 65536
  | body_mngmnt_8 p _ i => plain_option p = true /\ in_int32 i
  end.

Lemma int32_number v : in_int32 v -> int32 (strtol (print_dec (int32 v))) = v.
Proof. intros Hv. by rewrite (int32_id v), int32_strtol_print. Qed.

Lemma uint32_number v : 0 <= v <= 2147483647 -> uint32 (strtol (print_dec (int32 v))) = v.
Proof.
  intros Hv. rewrite int32_id by (unfold in_int32; lia).
  rewrite strtol_print_dec by (unfold LONG_MIN, LONG_MAX; lia). apply uint32_id. lia.
Qed.

Lemma uint16_number v : 0 <= v < 65536 -> uint16 (strtol (print_dec (uint16 v))) = v.
Proof.
  intros Hv. unfold uint16. rewrite (Z.mod_small v) by lia.
  rewrite strtol_print_dec by (unfold LONG_MIN, LONG_MAX; lia). by rewrite Z.mod_small.
Qed.

Section receive.
Context `{Glib}.

Definition parsing (v s : Z) (b : msg_body) : flom_msg :=
  Msg FLOM_MSG_STATE_PARSING (Header FLOM_MSG_LEVEL v s) b.

Lemma callbacks_start_msg v s l :
  in_int32 v -> in_int32 s ->
  markup_callbacks
    (StartElement FLOM_MSG_TAG_MSG
       [number FLOM_MSG_PROP_LEVEL FLOM_MSG_LEVEL; number FLOM_MSG_PROP_VERB v;
        number FLOM_MSG_PROP_STEP s] :: l) flom_msg_init =
  markup_callbacks l (parsing v s body_zero).
Proof.
  intros Hv Hs. cbn [markup_callbacks markup_callback].
  replace (flom_msg_deserialize_start_element _ _ _) with (Some (parsing v s body_zero)); [done|].
  unfold number. symmetry.
  unfold flom_msg_deserialize_start_element, start_element_body, mbind, M_bind.
  cbn -[print_dec strtol int32]. rewrite !int32_number by done. reflexivity.
Qed.

(** A child changes the body: [sets v s c b b']. *)
Definition sets (v s : Z) (c : child) (b b' : msg_body) : Prop :=
  flom_msg_deserialize_start_element (ch_tag c) (ch_attributes c) (parsing v s b) =
    Some (parsing v s b') /\ ch_tag c <> FLOM_MSG_TAG_MSG.

Lemma callbacks_child v s c b b' l :
  sets v s c b b' ->
  markup_callbacks (child_events c ++ l) (parsing v s b) = markup_callbacks l (parsing v s b').
Proof.
  intros [Hc Ht]. cbn [child_events app markup_callbacks markup_callback]. rewrite Hc. cbn.
  by rewrite (proj2 (String.eqb_neq _ _) Ht).
Qed.

Lemma callbacks_end v s b :
  markup_callbacks [EndElement FLOM_MSG_TAG_MSG] (parsing v s b) =
    Some (Msg FLOM_MSG_STATE_READY (Header FLOM_MSG_LEVEL v s) b).
Proof. done. Qed.

(** The callback, computed; what is left to rewrite are the numbers *)
Ltac compute_numbers :=
  cbv -[print_dec strtol int32 uint32 uint16 flom_msg_deserialize_resource_name in_int32 Z.le Z.lt];
  rewrite ?uint32_number, ?uint16_number, ?int32_number by done; try reflexivity.
Ltac compute_props := split; [|done]; compute_numbers.

Lemma sets_session_8 p :
  sets FLOM_MSG_VERB_LOCK FLOM_MSG_STEP_INCR (session p) body_zero
    (body_lock_8_ (Lock_8 (Some (str_or_empty p)) None 0 0 0 0 0)).
Proof. compute_props. Qed.

Lemma sets_session_16 p :
  sets FLOM_MSG_VERB_LOCK (2 * FLOM_MSG_STEP_INCR) (session p) body_zero
    (body_lock_16 (Some (str_or_empty p)) zero_answer).
Proof. compute_props. Qed.

Lemma sets_session_mngmnt p :
  sets FLOM_MSG_VERB_MNGMNT FLOM_MSG_STEP_INCR (session p) body_zero
    (body_mngmnt_8 (Some (str_or_empty p)) FLOM_MSG_MNGMNT_ACTION_NULL 0).
Proof. compute_props. Qed.

Lemma sets_shutdown p i : in_int32 i ->
  sets FLOM_MSG_VERB_MNGMNT FLOM_MSG_STEP_INCR
    (Child FLOM_MSG_TAG_SHUTDOWN [number FLOM_MSG_PROP_IMMEDIATE i] false)
    (body_mngmnt_8 p FLOM_MSG_MNGMNT_ACTION_NULL 0)
    (body_mngmnt_8 p FLOM_MSG_MNGMNT_ACTION_SHUTDOWN i).
Proof. intros Hi. compute_props. Qed.

Lemma sets_network a p : 0 <= p < 65536 ->
  sets FLOM_MSG_VERB_DISCOVER (2 * FLOM_MSG_STEP_INCR)
    (Child FLOM_MSG_TAG_NETWORK [(FLOM_MSG_PROP_ADDRESS, a);
         (FLOM_MSG_PROP_PORT, print_dec (uint16 p))] false)
    body_zero (body_discover_16 (Some a) p).
Proof. intros Hp. compute_props. Qed.

Lemma sets_answer_16 p a : in_int32 (a_rc a) ->
  sets FLOM_MSG_VERB_LOCK (2 * FLOM_MSG_STEP_INCR) (answer a) (body_lock_16 p zero_answer)
    (body_lock_16 p a).
Proof. destruct a as [rc [e|]]; cbn; intros Hr; compute_props. Qed.

Lemma sets_answer_24 a : in_int32 (a_rc a) ->
  sets FLOM_MSG_VERB_LOCK (3 * FLOM_MSG_STEP_INCR) (answer a) body_zero (body_lock_24 a).
Proof. destruct a as [rc [e|]]; cbn; intros Hr; compute_props. Qed.

Lemma sets_answer_32 a : in_int32 (a_rc a) ->
  sets FLOM_MSG_VERB_LOCK (4 * FLOM_MSG_STEP_INCR) (answer a) body_zero
    (received (body_lock_32 a)).
Proof. destruct a as [rc [e|]]; cbn; intros Hr; compute_props. Qed.

Lemma sets_unlock n name64 r blank : in_int32 r ->
  flom_msg_deserialize_resource_name name64 = inr n ->
  sets FLOM_MSG_VERB_UNLOCK FLOM_MSG_STEP_INCR
    (Child FLOM_MSG_TAG_RESOURCE
       [(FLOM_MSG_PROP_NAME, name64); number FLOM_MSG_PROP_ROLLBACK r] blank)
    body_zero (body_unlock_8 (Some n) r).
Proof. intros Hr Hn. compute_props. rewrite Hn. compute_numbers. Qed.

Lemma sets_lock_8 b n name64 l :
  sized (body_lock_8_ b) -> l8_name b = Some n ->
  flom_msg_deserialize_resource_name name64 = inr n ->
  lock_8_attributes name64 b (flom_rsrc_get_type n) = Some l ->
  sets FLOM_MSG_VERB_LOCK FLOM_MSG_STEP_INCR (Child FLOM_MSG_TAG_RESOURCE l false)
    (body_lock_8_ (Lock_8 (Some (str_or_empty (l8_peerid b))) None 0 0 0 0 0))
    (body_lock_8_ (received_lock_8 b)).
Proof.
  intros (Hm & Hw & Hq & Hc & Hl & _) Hn He Ha. unfold received_lock_8. rewrite Hn.
  cbn [fmap option_fmap option_map default].
  destruct (flom_rsrc_get_type n); cbn in Ha; [done|..]; injection Ha as <-; compute_props;
    rewrite He; compute_numbers.
Qed.

(** The name of a resource goes through base64 and back. *)
Lemma resource_name_back n name64 :
  (forall s e, g_base64_encode s = Some e -> g_base64_decode e = Some s) ->
  g_base64_encode n = Some name64 -> c_string n = n ->
  flom_msg_deserialize_resource_name name64 = inr n.
Proof.
  intros Hb He Hn. unfold flom_msg_deserialize_resource_name. by rewrite (Hb _ _ He), Hn.
Qed.

Lemma receive_children v s b l :
  (forall s e, g_base64_encode s = Some e -> g_base64_decode e = Some s) ->
  sendable v s b l -> sized b ->
  markup_callbacks (concat (map child_events l) ++ [EndElement FLOM_MSG_TAG_MSG])
    (parsing v s body_zero) =
  Some (Msg FLOM_MSG_STATE_READY (Header FLOM_MSG_LEVEL v s) (received b)).
Proof.
  intros Hb Hs Hz. destruct Hs as [b n name64 l Hn He Ha|p a|a|a|n name64 r He| | | |a p|p i];
    cbn [map concat]; rewrite <- ?app_assoc.
  - destruct Hz as (Hm & Hz). rewrite Hn in Hz. cbn in Hz.
    rewrite (callbacks_child _ _ _ _ _ _ (sets_session_8 _)).
    erewrite callbacks_child; [apply callbacks_end|].
    eapply sets_lock_8; [|done| |done]; [|by eapply resource_name_back; [..|tauto]].
    split; [done|]. by rewrite Hn.
  - destruct Hz as (_ & Hr & _). rewrite (callbacks_child _ _ _ _ _ _ (sets_session_16 _)).
    by rewrite (callbacks_child _ _ _ _ _ _ (sets_answer_16 _ _ Hr)), callbacks_end.
  - destruct Hz as (Hr & _). by rewrite (callbacks_child _ _ _ _ _ _ (sets_answer_24 _ Hr)), callbacks_end.
  - destruct Hz as (Hr & _). by rewrite (callbacks_child _ _ _ _ _ _ (sets_answer_32 _ Hr)), callbacks_end.
  - destruct Hz as (Hr & Hn). erewrite callbacks_child; [apply callbacks_end|].
    apply sets_unlock; [done|]. by eapply resource_name_back.
  - done.
  - done.
  - done.
  - destruct Hz as (_ & Hp). by rewrite (callbacks_child _ _ _ _ _ _ (sets_network _ _ Hp)), callbacks_end.
  - destruct Hz as (_ & Hi). rewrite (callbacks_child _ _ _ _ _ _ (sets_session_mngmnt _)).
    by rewrite (callbacks_child _ _ _ _ _ _ (sets_shutdown _ _ Hi)), callbacks_end.
Qed.
End receive.

(** ** The documents of messages need no escaping *)
Lemma all_chars_app p s t : all_chars p (s +:+ t) = all_chars p s && all_chars p t.
Proof.
  induction s as [|c s IH]; [done|]. cbn [all_chars]. change (String c s +:+ t) with (String c (s +:+ t)).
  cbn [all_chars]. by rewrite IH, andb_assoc.
Qed.

Lemma plain_digits fuel : forall n acc, plain acc = true -> plain (dec_digits fuel n acc) = true.
Proof.
  induction fuel as [|fuel IH]; intros n acc Ha; [done|]. cbn [dec_digits].
  assert (Hc : plain (String (digit_char (n mod 10)) acc) = true).
  { unfold plain in *. cbn [all_chars]. rewrite Ha, andb_true_r.
    pose proof (Z.mod_pos_bound n 10 ltac:(lia)) as Hm.
    assert (Hd : Forall (fun d => plain_char (digit_char d) = true) [0; 1; 2; 3; 4; 5; 6; 7; 8; 9])
      by (repeat constructor).
    rewrite Forall_forall in Hd. apply Hd. rewrite !elem_of_cons. lia. }
  destruct (n <? 10); [done | by apply IH].
Qed.

Lemma plain_print_dec v : plain (print_dec v) = true.
Proof.
  unfold print_dec. destruct (v <? 0); [|by apply plain_digits].
  change (plain (dec_digits 21 (- v) "") = true). by apply plain_digits.
Qed.

Section plain_messages.
Context `{Glib}.
Hypothesis base64_plain : forall s e, g_base64_encode s = Some e -> plain e = true.

Lemma answer_attributes_ok a :
  plain_option (a_element a) = true -> attributes_ok (answer_attributes a) = true.
Proof.
  destruct a as [rc [e|]]; cbn -[print_dec plain]; rewrite plain_print_dec; [|done]. unfold plain_option. cbn -[plain].
  by intros ->.
Qed.

Lemma lock_8_attributes_ok name64 b t l :
  plain name64 = true -> lock_8_attributes name64 b t = Some l -> attributes_ok l = true.
Proof.
  intros Hp. destruct t; cbn -[attributes_ok]; intros Ha; [done|..]; injection Ha as <-;
    cbn -[print_dec plain]; by rewrite Hp, !plain_print_dec.
Qed.

Lemma sendable_ok h b l : sendable (h_verb h) (h_step h) b l -> sized b ->
  document_ok (message_document h l) = true.
Proof using base64_plain.
  intros Hs Hz. unfold document_ok. cbn [doc_attributes doc_children message_document].
  apply andb_true_intro. split; [cbn -[print_dec plain]; by rewrite !plain_print_dec|].
  destruct Hs as [b n name64 l Hn He Ha|p a|a|a|n name64 r He| | | |a p|p i];
    cbn -[print_dec attributes_ok].
  - destruct Hz as (_ & _ & _ & _ & _ & Hp & _). unfold plain_option in Hp.
    rewrite (lock_8_attributes_ok _ _ _ _ (base64_plain _ _ He) Ha). cbn -[plain]. by rewrite Hp.
  - destruct Hz as (Hp & _ & He). rewrite answer_attributes_ok by done. cbn -[plain].
    unfold plain_option in Hp. by rewrite Hp.
  - destruct Hz as (_ & He). by rewrite answer_attributes_ok.
  - destruct Hz as (_ & He). by rewrite answer_attributes_ok.
  - cbn -[print_dec plain]. by rewrite (base64_plain _ _ He), plain_print_dec.
  - done.
  - done.
  - done.
  - destruct Hz as (Hp & _). unfold plain_option in Hp. cbn -[print_dec plain]. by rewrite Hp, plain_print_dec.
  - destruct Hz as (Hp & _). unfold plain_option in Hp. cbn -[print_dec plain]. by rewrite Hp, plain_print_dec.
Qed.
End plain_messages.

(** ** A reference parser

    GLib's parser is not part of the program; this one, for the documents
    above only, shows that what is asked of a parser can be had. *)
Fixpoint strip (p s : string) : option string :=
  match p, s with
  | EmptyString, _ => Some s
  | String a p, String b s => if Ascii.eqb a b then strip p s else None
  | _, _ => None
  end.

Fixpoint split_at (p : ascii -> bool) (s : string) : string * string :=
  match s with
  | EmptyString => (EmptyString, EmptyString)
  | String c s' => if p c then let '(a, b) := split_at p s' in (String c a, b) else (EmptyString, s)
  end.

(** The attributes up to the end of the tag, whether the element is empty, and
    what follows *)
Fixpoint parse_attributes (fuel : nat) (s : string)
    : option (list (string * string) * bool * string) :=
  match fuel with
  | O => None
  | S fuel =>
      match strip "/>" s, strip " />" s, strip ">" s with
      | Some r, _, _ | _, Some r, _ => Some ([], true, r)
      | _, _, Some r => Some ([], false, r)
      | _, _, _ =>
          r ← strip " " s;
          let '(n, r) := split_at letter r in
          r ← strip ("=" +:+ dquote) r;
          let '(v, r) := split_at plain_char r in
          r ← strip dquote r;
          '(l, e, r) ← parse_attributes fuel r;
          Some ((n, v) :: l, e, r)
      end
  end.

Definition parse_tag (s : string) : option (string * list (string * string) * bool * string) :=
  r ← strip "<" s;
  let '(tag, r) := split_at letter r in
  '(l, e, r) ← parse_attributes (S (String.length r)) r;
  Some (tag, l, e, r).

Fixpoint parse_children (fuel : nat) (s : string) : option (list markup_event) :=
  match fuel with
  | O => None
  | S fuel =>
      if String.eqb s (close_tag FLOM_MSG_TAG_MSG) then Some [EndElement FLOM_MSG_TAG_MSG]
      else
        '(tag, l, e, r) ← parse_tag s;
        events ← parse_children fuel r;
        if (e : bool) then Some (StartElement tag l :: EndElement tag :: events) else None
  end.

Definition parse_document (s : string) : option (list markup_event) :=
  r ← strip xml_header s;
  '(tag, l, _, r) ← parse_tag r;
  events ← parse_children (S (String.length r)) r;
  Some (StartElement tag l :: events).

Lemma strip_app p s : strip p (p +:+ s) = Some s.
Proof.
  induction p as [|c p IH]; [done|]. change (String c p +:+ s) with (String c (p +:+ s)).
  cbn [strip]. by rewrite Ascii.eqb_refl.
Qed.

Lemma split_at_app p s c r :
  all_chars p s = true -> p c = false -> split_at p (s +:+ String c r) = (s, String c r).
Proof.
  intros Hs Hc. induction s as [|a s IH].
  - change (split_at p (String c r) = ("", String c r)). cbn. by rewrite Hc.
  - cbn [all_chars] in Hs. apply andb_true_iff in Hs as [Ha Hs].
    change (String a s +:+ String c r) with (String a (s +:+ String c r)). cbn [split_at].
    by rewrite Ha, (IH Hs).
Qed.

Lemma attributes_cons a l : attributes (a :: l) = attribute a +:+ attributes l.
Proof. unfold attributes. destruct l; cbn; [by rewrite string_app_nil_r | done]. Qed.

Lemma word_head n : word n = true -> exists c s, n = String c s /\ letter c = true /\
  all_chars letter (String c s) = true.
Proof.
  unfold word. intros Hw. apply andb_true_iff in Hw as [He Hl].
  destruct n as [|c s]; [done|]. cbn [all_chars] in Hl.
  exists c, s. split_and!; [done|by apply andb_true_iff in Hl as [? _]|done].
Qed.

Lemma letter_ne c d : letter c = true -> letter d = false -> Ascii.eqb d c = false.
Proof. intros Hc Hd. apply Ascii.eqb_neq. intros ->. congruence. Qed.

Definition tag_end (empty blank : bool) : string :=
  if empty then (if blank then " />" else "/>") else ">".

Lemma parse_attributes_next fuel c s : letter c = true ->
  parse_attributes (S fuel) (String " " (String c s)) =
    (let '(n, r) := split_at letter (String c s) in
     r ← strip ("=" +:+ dquote) r;
     let '(v, r) := split_at plain_char r in
     r ← strip dquote r;
     '(l, e, r) ← parse_attributes fuel r;
     Some ((n, v) :: l, e, r)).
Proof.
  intros Hc. assert (H2 : strip " />" (String " " (String c s)) = None).
  { change (strip " />" (String " " (String c s))) with
      (if Ascii.eqb "/" c then strip ">" s else None). by rewrite (letter_ne c "/" Hc). }
  cbn [parse_attributes]. by rewrite H2.
Qed.

Lemma parse_attributes_ok e b r fuel : forall l,
  attributes_ok l = true -> (length l < fuel)%nat ->
  parse_attributes fuel (attributes l +:+ (tag_end e b +:+ r)) = Some (l, e, r).
Proof.
  induction fuel as [|fuel IH]; intros l Hl Hf; [lia|]. destruct l as [|[n v] l].
  - by destruct e, b.
  - cbn [attributes_ok forallb fst snd] in Hl. apply andb_true_iff in Hl as [Hnv Hl].
    apply andb_true_iff in Hnv as [Hn Hv]. destruct (word_head _ Hn) as (c & s & -> & Hc & Hs).
    rewrite attributes_cons. unfold attribute. cbn [fst snd].
    rewrite !string_app_assoc. set (rest := attributes l +:+ (tag_end e b +:+ r)).
    change (parse_attributes (S fuel)
      (String " " (String c (s +:+ String "=" (dquote +:+ (v +:+ String (ascii_of_nat 34) rest))))) =
      Some ((String c s, v) :: l, e, r)).
    rewrite parse_attributes_next by done.
    change (String c (s +:+ String "=" (dquote +:+ (v +:+ String (ascii_of_nat 34) rest))))
      with (String c s +:+ String "=" (dquote +:+ (v +:+ String (ascii_of_nat 34) rest))).
    rewrite split_at_app by done.
    change (String "=" (dquote +:+ (v +:+ String (ascii_of_nat 34) rest)))
      with (("=" +:+ dquote) +:+ (v +:+ String (ascii_of_nat 34) rest)).
    rewrite strip_app. cbn [mbind option_bind]. rewrite split_at_app by done.
    change (String (ascii_of_nat 34) rest) with (dquote +:+ rest). rewrite strip_app.
    cbn [mbind option_bind]. unfold rest. rewrite IH; [done | exact Hl | by apply Nat.succ_lt_mono in Hf].
Qed.

Lemma length_attributes l : (length l <= String.length (attributes l))%nat.
Proof.
  induction l as [|a l IH]; [cbn; lia|]. rewrite attributes_cons. unfold attribute.
  rewrite !length_string_app. cbn [length String.length]. lia.
Qed.

Lemma parse_tag_ok tag l e b r :
  word tag = true -> attributes_ok l = true ->
  parse_tag ("<" +:+ (tag +:+ (attributes l +:+ (tag_end e b +:+ r)))) = Some (tag, l, e, r).
Proof.
  intros Ht Hl. unfold parse_tag. rewrite strip_app. cbn [mbind option_bind].
  assert (exists c r', attributes l +:+ (tag_end e b +:+ r) = String c r' /\ letter c = false)
    as (c & r' & Hr & Hc).
  { destruct l as [|a l]; [destruct e, b; by eexists _, _|]. rewrite attributes_cons.
    unfold attribute. by eexists _, _. }
  rewrite Hr, split_at_app by (done || (unfold word in Ht; by apply andb_true_iff in Ht as [_ ?])).
  rewrite <- Hr, parse_attributes_ok; [done..|].
  rewrite !length_string_app. pose proof (length_attributes l). lia.
Qed.

Lemma print_child_tag c r :
  print_child c +:+ r =
    "<" +:+ (ch_tag c +:+ (attributes (ch_attributes c) +:+ (tag_end true (ch_blank c) +:+ r))).
Proof. unfold print_child, empty_tag. destruct (ch_blank c); by rewrite !string_app_assoc. Qed.

Lemma parse_children_ok l : forall fuel,
  forallb (fun c => word (ch_tag c) && attributes_ok (ch_attributes c)) l = true ->
  (length l < fuel)%nat ->
  parse_children fuel (print_children l +:+ close_tag FLOM_MSG_TAG_MSG) =
    Some (concat (map child_events l) ++ [EndElement FLOM_MSG_TAG_MSG])%list.
Proof.
  induction l as [|c l IH]; intros [|fuel] Hl Hf; cbn [length] in Hf; try lia; [done|].
  cbn [forallb] in Hl. apply andb_true_iff in Hl as [Hc Hl]. apply andb_true_iff in Hc as [Ht Ha].
  cbn [print_children]. rewrite string_app_assoc, print_child_tag.
  set (rest := print_children l +:+ close_tag FLOM_MSG_TAG_MSG).
  cbn [parse_children].
  destruct (String.eqb_spec ("<" +:+ (ch_tag c +:+ (attributes (ch_attributes c) +:+
    (tag_end true (ch_blank c) +:+ rest)))) (close_tag FLOM_MSG_TAG_MSG)) as [E|_].
  - destruct (word_head _ Ht) as (x & s & Hx & Hlx & _). rewrite Hx in E.
    change ("<" +:+ (String x s +:+ (attributes (ch_attributes c) +:+ (tag_end true (ch_blank c) +:+ rest))))
      with (String "<" (String x (s +:+ (attributes (ch_attributes c) +:+ (tag_end true (ch_blank c) +:+ rest))))) in E.
    injection E as -> _. done.
  - rewrite parse_tag_ok by done. cbn [mbind option_bind]. unfold rest.
    rewrite IH by (done || lia). done.
Qed.

Lemma length_children l : (length l <= String.length (print_children l))%nat.
Proof.
  induction l as [|c l IH]; [done|]. cbn [print_children length]. rewrite length_string_app.
  unfold print_child, empty_tag. destruct (ch_blank c); rewrite !length_string_app; cbn; lia.
Qed.

Lemma parse_document_ok d :
  document_ok d = true -> parse_document (print_document d) = Some (document_events d).
Proof.
  unfold document_ok. intros Hd. apply andb_true_iff in Hd as [Ha Hc].
  unfold parse_document, print_document. rewrite strip_app. cbn [mbind option_bind].
  unfold open_tag. rewrite !string_app_assoc.
  rewrite (parse_tag_ok FLOM_MSG_TAG_MSG _ false false) by done. cbn [mbind option_bind].
  rewrite parse_children_ok; [done|done|]. rewrite length_string_app.
  pose proof (length_children (doc_children d)). lia.
Qed.

(** ** Theorems *)
Section theorems.
Context `{Glib}.

(** C37: bounds.  The text of a message goes into the buffer exactly when it is
    shorter than the buffer, so that the final NUL fits; in every other case
    the serialization fails with [FLOM_RC_CONTAINER_FULL]. *)
Theorem msg_serialize_exact buffer_len m l :
  sendable (msg_verb m) (msg_step m) (m_body m) l ->
  let text := print_document (message_document (m_header m) l) in
  flom_msg_serialize buffer_len m =
    if strlen text <? buffer_len then inr text else inl (Rc FLOM_RC_CONTAINER_FULL).
Proof.
  intros Hs. cbv zeta. unfold flom_msg_serialize. rewrite (serialize_emits _ _ _ Hs).
  destruct (Z.ltb_spec (strlen (print_document (message_document (m_header m) l))) buffer_len).
  - rewrite emits_fits; rewrite document_text; done.
  - destruct (emits buffer_len _ "") as [r buf] eqn:E.
    enough (r = inl (Rc FLOM_RC_CONTAINER_FULL)) as -> by done.
    change r with (r, buf).1. rewrite <- E. apply emits_full; [by right|].
    by rewrite document_text.
Qed.

Variable parse : string -> option (list markup_event).
(** The markup parser calls the callbacks for the elements of a document that
    needs no escaping, in document order. *)
Hypothesis parse_law : forall d,
  document_ok d = true -> parse (print_document d) = Some (document_events d).
(** Base64 can be decoded, and needs no escaping. *)
Hypothesis base64_back : forall s e, g_base64_encode s = Some e -> g_base64_decode e = Some s.
Hypothesis base64_plain : forall s e, g_base64_encode s = Some e -> plain e = true.

(** The text of a message, and what the parser finds in it *)
Definition message_text (h : flom_msg_header) (l : list child) : string :=
  print_document (message_document h l).
Definition message_events (h : flom_msg_header) (l : list child) : list markup_event :=
  document_events (message_document h l).

Lemma msg_text_sent buffer_len m l :
  sendable (msg_verb m) (msg_step m) (m_body m) l ->
  strlen (message_text (m_header m) l) < buffer_len ->
  flom_msg_serialize buffer_len m = inr (message_text (m_header m) l).
Proof.
  intros Hs Hn. unfold flom_msg_serialize. rewrite (serialize_emits _ m l Hs).
  by rewrite emits_fits, document_text by (by rewrite document_text).
Qed.

Lemma msg_text_parsed m l :
  sendable (msg_verb m) (msg_step m) (m_body m) l -> sized (m_body m) ->
  parse (message_text (m_header m) l) = Some (message_events (m_header m) l).
Proof using parse_law base64_plain. intros Hs Hz. apply parse_law. by eapply sendable_ok. Qed.

Lemma msg_events_received m l :
  sendable (msg_verb m) (msg_step m) (m_body m) l -> sized (m_body m) ->
  h_level (m_header m) = FLOM_MSG_LEVEL ->
  markup_callbacks (message_events (m_header m) l) flom_msg_init =
    Some (Msg FLOM_MSG_STATE_READY (m_header m) (received (m_body m))).
Proof using base64_back.
  destruct m as [st [lv v s] b]. cbn [m_header m_body h_level]. unfold msg_verb, msg_step.
  cbn [m_header h_verb h_step]. intros Hs Hz ->.
  assert (in_int32 v /\ in_int32 s) as [Hv Hst].
  { unfold in_int32. destruct Hs; vm_compute; split; split; discriminate. }
  unfold message_events, document_events, message_document.
  cbn [doc_attributes doc_children h_level h_verb h_step].
  rewrite callbacks_start_msg by done. by apply receive_children.
Qed.

(** C36: roundtrip.  A message of any verb and step, serialized in a buffer that
    is large enough, parsed and handed to the callbacks from a message just
    initialized, arrives complete and ready: same header, and a body whose
    members are those that the type of the resource makes the sender print. *)
Theorem msg_round_trip buffer_len m l :
  sendable (msg_verb m) (msg_step m) (m_body m) l -> sized (m_body m) ->
  h_level (m_header m) = FLOM_MSG_LEVEL ->
  strlen (print_document (message_document (m_header m) l)) < buffer_len ->
  exists text events,
    flom_msg_serialize buffer_len m = inr text /\ parse text = Some events /\
    markup_callbacks events flom_msg_init =
      Some (Msg FLOM_MSG_STATE_READY (m_header m) (received (m_body m))).
Proof using parse_law base64_back base64_plain.
  intros Hs Hz Hl Hn. exists (message_text (m_header m) l), (message_events (m_header m) l).
  split_and!; [by apply msg_text_sent | by apply msg_text_parsed | by apply msg_events_received].
Qed.
End theorems.

(** ** A concrete exchange *)
Definition demo_base64 : Glib := {|
  g_base64_encode s := if plain s then Some s else None;
  g_base64_decode := Some
|}.

Definition demo_lock : body_lock_8 := Lock_8 None (Some "printer[4]") 0 1 3 1 5000.
Definition demo_msg : flom_msg :=
  Msg FLOM_MSG_STATE_READY (Header FLOM_MSG_LEVEL FLOM_MSG_VERB_LOCK FLOM_MSG_STEP_INCR)
    (body_lock_8_ demo_lock).
Definition demo_children : list child :=
  [session None;
   Child FLOM_MSG_TAG_RESOURCE
     [(FLOM_MSG_PROP_NAME, "printer[4]"); number FLOM_MSG_PROP_WAIT 1;
      number FLOM_MSG_PROP_QUANTITY 3; number FLOM_MSG_PROP_CREATE 1;
      number FLOM_MSG_PROP_LIFESPAN 5000] false].

Lemma demo_sendable :
  @sendable demo_base64 FLOM_MSG_VERB_LOCK FLOM_MSG_STEP_INCR (body_lock_8_ demo_lock) demo_children.
Proof. by eapply (@send_lock_8 demo_base64). Qed.

Lemma msg_serialize_exact_witness :
  @flom_msg_serialize demo_base64 100 demo_msg = inl (Rc FLOM_RC_CONTAINER_FULL).
Proof. exact (@msg_serialize_exact demo_base64 100 demo_msg demo_children demo_sendable). Defined.

Lemma msg_round_trip_witness :
  exists text events,
    @flom_msg_serialize demo_base64 2000 demo_msg = inr text /\
    parse_document text = Some events /\
    @markup_callbacks demo_base64 events flom_msg_init =
      Some (Msg FLOM_MSG_STATE_READY (m_header demo_msg)
        (body_lock_8_ (Lock_8 (Some "") (Some "printer[4]") 0 1 3 1 5000))).
Proof.
  refine (@msg_round_trip demo_base64 parse_document parse_document_ok _ _ 2000 demo_msg
    demo_children demo_sendable _ eq_refl eq_refl).
  - intros s e. cbn. by destruct (plain s); intros [= ->].
  - intros s e. cbn. destruct (plain s) eqn:E; intros [= <-]; done.
  - repeat split; vm_compute; discriminate.
Defined.
