(* ===== verification/Recv.v ===== *)
(** * Recv: one message out of a stream of bytes

    [flom_tcp_recv_msg] of [src/src/flom_tcp.c] and [flom_tls_recv_msg] of
    [src/src/flom_tls.c], whose loops are the same: they read the bytes of a
    connection until the closing tag of a message, never asking for more bytes
    than are certainly missing. *)
From Stdlib Require Import ZArith String Ascii List Lia.
From stdpp Require Import base list strings.
From S2P Require Import Prelude Types CStr Msg MsgXml.

(** ** The connection

    The bytes that are to come before the peer closes, and, for each call of
    [recv] or [SSL_read], how many bytes are available at least; [None] is a
    failure, and with no entry left all the bytes are available. *)
Record socket : Type := Socket {
  sk_in : list ascii;
  sk_reads : list (option nat)
}.

Definition Rm (A : Type) : Type := M err socket A.

(** [recv] of at most [n] bytes: never more than asked, at least one unless
    the peer has closed or the call fails. *)
Definition recv (read_error : Z) (n : nat) : Rm (list ascii) := fun s =>
  match sk_reads s with
  | None :: l => (inl (Rc read_error), Socket (sk_in s) l)
  | r =>
      let available := match r with Some k :: _ => Nat.max 1 k | _ => n end in
      let bytes := take (Nat.min n available) (sk_in s) in
      match bytes with
      | [] => (inl (Rc read_error), Socket (sk_in s) (tail r))
      | _ => (inr bytes, Socket (drop (length bytes) (sk_in s)) (tail r))
      end
  end.

Definition closing_tag : list ascii := list_ascii_of_string (close_tag FLOM_MSG_TAG_MSG).

(** The comparison loop, from the last characters of the buffer and of the tag
    backwards: [j] counts the characters that match and a mismatch resets it. *)
Fixpoint compare_tag (tag buf : list ascii) (j : nat) : nat :=
  match tag with
  | [] => j
  | t :: tag =>
      match buf !! j with
      | Some b => if Ascii.eqb b t then compare_tag tag buf (S j) else compare_tag tag buf 0
      | None => compare_tag tag buf 0
      end
  end.

(** The loop: storing out of the [len] bytes of the buffer is undefined. *)
Fixpoint recv_loop (fuel : nat) (read_error : Z) (len : nat) (buf : list ascii)
    (to_be_read : nat) : Rm (list ascii) :=
  match fuel with
  | O => throw NoFuel
  | S fuel =>
      _ ← when (len <? length buf + to_be_read)%nat (throw Ub);
      bytes ← recv read_error to_be_read;
      let buf := buf ++ bytes in
      if (length buf <? length closing_tag)%nat then recv_loop fuel read_error len buf to_be_read
      else
        let j := compare_tag (rev closing_tag) (rev buf) 0 in
        if (j =? length closing_tag)%nat then
          _ ← when (len <=? length buf)%nat (throw Ub);
          mret buf
        else
          let to_be_read := (length closing_tag - j)%nat in
          if (len <=? length buf + to_be_read)%nat then throw (Rc FLOM_RC_BUFFER_OVERFLOW)
          else recv_loop fuel read_error len buf to_be_read
  end.

Definition recv_msg (read_error : Z) (len : nat) : Rm (list ascii) :=
  if (len <? length closing_tag)%nat then throw (Rc FLOM_RC_OUT_OF_RANGE)
  else recv_loop (S len) read_error len [] (length closing_tag).

Definition flom_tcp_recv_msg : nat -> Rm (list ascii) := recv_msg FLOM_RC_RECV_ERROR.
Definition flom_tls_recv_msg : nat -> Rm (list ascii) := recv_msg FLOM_RC_SSL_READ_ERROR.

(** ** The comparison finds the longest beginning of the tag that ends the buffer *)
Lemma mismatch_shorter (tag buf d1 d2 rest t1 t2 : list ascii) t : NoDup tag ->
  tag = d1 ++ d2 ++ t :: rest -> d2 `prefix_of` buf -> buf !! length d2 <> Some t ->
  tag = t1 ++ t2 -> t2 `prefix_of` buf -> (length t2 <= S (length rest) + length d2)%nat ->
  (length t2 <= length rest)%nat.
Proof.
  intros Hnd Ht Hd2 Hne Ht2 Hp Hle. destruct (Nat.le_gt_cases (length t2) (length rest)) as [|Hgt]; [done|].
  assert (Hlen : (length t1 + length t2 = length d1 + length d2 + S (length rest))%nat).
  { rewrite <- length_app, <- Ht2, Ht, !length_app. cbn. lia. }
  destruct (decide (length t1 = length d1)) as [E|E].
  - exfalso. apply Hne. apply prefix_lookup_Some with t2; [|done].
    rewrite Ht2, app_assoc in Ht. symmetry in Ht.
    apply (f_equal (lookup (length d1 + length d2)%nat)) in Ht.
    rewrite (lookup_app_r (d1 ++ d2)), length_app, Nat.sub_diag in Ht by (rewrite length_app; lia).
    rewrite lookup_app_r in Ht by lia. cbn in Ht. rewrite Ht. f_equal. lia.
  - exfalso. apply E. destruct t2 as [|b t2]; [cbn in Hgt; lia|].
    destruct d2 as [|b' d2]; [cbn in *; lia|].
    assert (b' = b) as ->.
    { destruct Hp as [k ->], Hd2 as [k' Hk]. by injection Hk. }
    apply (NoDup_lookup tag _ _ b Hnd).
    + rewrite Ht2, lookup_app_r by lia. by rewrite Nat.sub_diag.
    + rewrite Ht, lookup_app_r by lia. by rewrite Nat.sub_diag.
Qed.

Definition overlap (tag buf : list ascii) (n : nat) : Prop :=
  exists t1 t2, tag = t1 ++ t2 /\ length t2 = n /\ t2 `prefix_of` buf.

Lemma compare_tag_from (tag buf : list ascii) : NoDup tag -> forall rest d1 d2,
  tag = d1 ++ d2 ++ rest -> d2 `prefix_of` buf ->
  (forall n, overlap tag buf n -> (n <= length rest + length d2)%nat) ->
  let j := compare_tag rest buf (length d2) in
  overlap tag buf j /\ (forall n, overlap tag buf n -> (n <= j)%nat).
Proof.
  intros Hnd. induction rest as [|t rest IH]; intros d1 d2 Ht Hp Hmax.
  - split; [|done]. exists d1, d2. by rewrite app_nil_r in Ht.
  - cbn [compare_tag].
    assert (Hreset : buf !! length d2 <> Some t ->
      let j := compare_tag rest buf 0 in
      overlap tag buf j /\ (forall n, overlap tag buf n -> (n <= j)%nat)).
    { intros Hne. apply (IH (d1 ++ d2 ++ [t]) []); [|apply prefix_nil|].
      - by rewrite Ht, <- !app_assoc.
      - intros n Hn. pose proof (Hmax n Hn) as Hle. destruct Hn as (t1 & t2 & Ht2 & <- & Hp2).
        rewrite Nat.add_0_r. by apply (mismatch_shorter tag buf d1 d2 rest t1 t2 t). }
    destruct (buf !! length d2) as [b|] eqn:Eb; [|by apply Hreset].
    destruct (Ascii.eqb b t) eqn:E; [|apply Hreset; intros [= ->]; by rewrite Ascii.eqb_refl in E].
    apply Ascii.eqb_eq in E as ->.
    replace (S (length d2)) with (length (d2 ++ [t])) by (rewrite length_app; cbn; lia).
    apply (IH d1 (d2 ++ [t])).
    + by rewrite Ht, <- app_assoc.
    + destruct Hp as [k ->]. rewrite lookup_app_r, Nat.sub_diag in Eb by done.
      destruct k as [|x k]; [done|]. injection Eb as ->. exists k. by rewrite <- app_assoc.
    + intros n Hn. apply Hmax in Hn. rewrite length_app. cbn in *. lia.
Qed.

Lemma compare_tag_longest (tag buf : list ascii) : NoDup tag ->
  let j := compare_tag tag buf 0 in
  overlap tag buf j /\ (forall n, overlap tag buf n -> (n <= j)%nat).
Proof.
  intros Hnd. apply (compare_tag_from tag buf Hnd tag [] []); [done|apply prefix_nil|].
  intros n (t1 & t2 & -> & <- & _). rewrite length_app. cbn. lia.
Qed.

(** In terms of the buffer: [n] characters of the tag are its last ones. *)
Lemma overlap_rev (tag buf : list ascii) n : (n <= length tag)%nat ->
  take n tag `suffix_of` buf <-> overlap (rev tag) (rev buf) n.
Proof.
  intros Hn. unfold overlap. split.
  - intros [k ->]. exists (rev (drop n tag)), (rev (take n tag)).
    rewrite <- rev_app_distr, take_drop. repeat split.
    + rewrite length_rev, length_take. lia.
    + exists (rev k). apply rev_app_distr.
  - intros (t1 & t2 & Ht & <- & [k Hk]).
    apply (f_equal (@rev _)) in Ht, Hk. rewrite rev_involutive, rev_app_distr in Ht, Hk.
    exists (rev k). rewrite Hk, Ht. f_equal. rewrite take_app_le by (rewrite length_rev; lia).
    rewrite <- (length_rev t2). symmetry. apply firstn_all.
Qed.

(** ** The loop *)
Lemma closing_tag_distinct : NoDup closing_tag.
Proof. apply (bool_decide_unpack _). reflexivity. Qed.

(** What the comparison answers for the closing tag *)
Lemma compare_closing_tag buf :
  let j := compare_tag (rev closing_tag) (rev buf) 0 in
  (j <= length closing_tag)%nat /\ take j closing_tag `suffix_of` buf /\
  (forall n, (n <= length closing_tag)%nat -> take n closing_tag `suffix_of` buf -> (n <= j)%nat).
Proof.
  assert (Hnd : NoDup (rev closing_tag)) by (rewrite rev_alt, rev_append_rev, app_nil_r;
    apply NoDup_ListNoDup, NoDup_rev, NoDup_ListNoDup, closing_tag_distinct).
  destruct (compare_tag_longest _ (rev buf) Hnd) as [Ho Hmax].
  assert (Hle : (compare_tag (rev closing_tag) (rev buf) 0 <= length closing_tag)%nat).
  { destruct Ho as (t1 & t2 & Ht & <- & _). rewrite <- (length_rev closing_tag), Ht, length_app. lia. }
  repeat split; [done | by apply overlap_rev |].
  intros n Hn Hs. apply Hmax. by apply overlap_rev.
Qed.

Lemma recv_step e n s :
  match recv e n s with
  | (inr bytes, s') => sk_in s = bytes ++ sk_in s' /\ sk_reads s' = tail (sk_reads s) /\
      (0 < length bytes <= n)%nat
  | (inl r, s') => r = Rc e /\ (Forall is_Some (sk_reads s) -> (0 < n)%nat -> sk_in s = [])
  end.
Proof.
  assert (Hgot : forall k bytes, take (Nat.min n k) (sk_in s) = bytes ->
    sk_in s = bytes ++ drop (length bytes) (sk_in s) /\ (length bytes <= n)%nat).
  { intros k bytes <-. rewrite length_take. split; [|lia].
    destruct (Nat.le_gt_cases (Nat.min n k) (length (sk_in s))).
    - rewrite (Nat.min_l (Nat.min n k)) by lia. by rewrite take_drop.
    - rewrite (Nat.min_r (Nat.min n k)) by lia. rewrite take_ge, drop_ge, app_nil_r by lia. done. }
  assert (Hnone : forall k, (0 < k)%nat -> (0 < n)%nat -> take (Nat.min n k) (sk_in s) = [] -> sk_in s = []).
  { intros k Hk Hn Ht. apply (f_equal length) in Ht. rewrite length_take, length_nil in Ht.
    apply nil_length_inv. lia. }
  unfold recv. destruct (sk_reads s) as [|[k|] l].
  - destruct (take _ _) as [|b bytes] eqn:E; cbn.
    + split; [done|]. intros _ Hn. by apply (Hnone n).
    + destruct (Hgot _ _ E). cbn in *. repeat split; [done | lia..].
  - destruct (take _ _) as [|b bytes] eqn:E; cbn.
    + split; [done|]. intros _ Hn. apply (Hnone (Nat.max 1 k)); [lia | done | exact E].
    + destruct (Hgot _ _ E). cbn in *. repeat split; [done | lia..].
  - split; [done|]. intros H. inversion H as [|? ? Hx]. by destruct Hx.
Qed.

(** A first message: it ends with the closing tag, no beginning of it does *)
Definition first_message (m : list ascii) : Prop :=
  closing_tag `suffix_of` m /\
  forall p, p `prefix_of` m -> closing_tag `suffix_of` p -> p = m.

(** What has been read is too short to end with the tag by this many bytes. *)
Lemma missing_bytes buf rest :
  closing_tag `suffix_of` buf ++ rest ->
  (length closing_tag - compare_tag (rev closing_tag) (rev buf) 0 <= length rest)%nat.
Proof.
  intros [k Hk]. destruct (compare_closing_tag buf) as (_ & _ & Hmax).
  apply app_eq_inv in Hk as [(x & -> & Ht) | (x & -> & ->)]; [|rewrite length_app; lia].
  assert (Hl : length closing_tag = (length x + length rest)%nat) by (by rewrite Ht, length_app).
  enough (length x <= compare_tag (rev closing_tag) (rev (k ++ x)) 0)%nat by lia.
  apply Hmax; [lia|]. exists k. by rewrite Ht, take_app_length.
Qed.

Section framing.
Context (read_error : Z) (len : nat) (m rest : list ascii).
Hypotheses (Hfirst : first_message m) (Hshort : (11 <= length m)%nat) (Hlen : (12 <= len)%nat).

Definition framed (r : err + list ascii) (s : socket) : Prop :=
  if (length m <? len)%nat then r = inr m /\ sk_in s = rest /\ Forall is_Some (sk_reads s)
  else r = inl (Rc FLOM_RC_BUFFER_OVERFLOW).

Lemma recv_loop_framed fuel : forall buf m' to_be_read s,
  m = buf ++ m' -> sk_in s = m' ++ rest -> Forall is_Some (sk_reads s) ->
  (0 < to_be_read <= length m')%nat -> (length buf + to_be_read < len)%nat ->
  ((length buf < length closing_tag)%nat -> to_be_read = length closing_tag) ->
  (len < fuel + length buf)%nat ->
  wp (recv_loop fuel read_error len buf to_be_read) framed s.
Proof.
  assert (Ht6 : length closing_tag = 6%nat) by done.
  induction fuel as [|fuel IH]; intros buf m' n s Hm Hs Hr Hn Hfit H6 Hf; [cbn in Hf; lia|].
  cbn [recv_loop]. rewrite (proj2 (Nat.ltb_ge len _)) by lia. do 2 wp_step; [done|]. wp_step.
  assert (Hstep := recv_step read_error n s). unfold wp at 1.
  destruct (recv read_error n s) as [[r|bytes] s1]; cbn [fst snd].
  { destruct Hstep as [_ Hstep]. rewrite Hs in Hstep.
    apply app_nil in Hstep as [-> _]; [cbn in Hn; lia | done | lia]. }
  destruct Hstep as (Hin & Hreads & Hb). rewrite Hs in Hin.
  (* the bytes are of the message *)
  assert (exists m'', m' = bytes ++ m'' /\ sk_in s1 = m'' ++ rest) as (m'' & -> & Hs1).
  { apply app_eq_inv in Hin as [(x & -> & Hx) | (x & -> & Hx)]; [eauto|].
    rewrite length_app in Hb. destruct x; [|cbn in *; lia]. exists []. by rewrite !app_nil_r in *. }
  assert (Hr1 : Forall is_Some (sk_reads s1)) by (rewrite Hreads; destruct Hr; [constructor|done]).
  assert (Hlm : length m = (length buf + length bytes + length m'')%nat)
    by (rewrite Hm, !length_app; lia).
  rewrite app_assoc in Hm. clear Hin Hreads.
  set (buf' := buf ++ bytes) in *.
  assert (Hb' : length buf' = (length buf + length bytes)%nat) by apply length_app.
  wp_step.
  - apply Nat.ltb_lt in Heqb. rewrite H6 in * by lia.
    apply (IH buf' m'' _ s1); [done|done|done|lia|lia|done|lia].
  - apply Nat.ltb_ge in Heqb. destruct (compare_closing_tag buf') as (Hle & Hov & Hmax).
    assert (Hmiss : (length closing_tag - compare_tag (rev closing_tag) (rev buf') 0 <= length m'')%nat)
      by (apply missing_bytes; rewrite <- Hm; apply Hfirst).
    set (j := compare_tag _ _ _) in *. wp_step.
    + apply Nat.eqb_eq in Heqb0.
      assert (buf' = m) as Hbm.
      { apply (proj2 Hfirst); [exists m''; done|]. rewrite Heqb0, firstn_all in Hov. done. }
      rewrite (proj2 (Nat.leb_gt len _)) by lia. do 2 wp_step; [done|]. wp_step.
      unfold framed. rewrite (proj2 (Nat.ltb_lt _ _)) by (rewrite <- Hbm; lia).
      split; [by rewrite Hbm|]. split; [|done]. rewrite Hs1. destruct m''; [done|].
      exfalso. rewrite <- Hbm, Hb' in Hlm. cbn in Hlm. lia.
    + apply Nat.eqb_neq in Heqb0. wp_step.
      * apply Nat.leb_le in Heqb1. wp_step. unfold framed.
        by rewrite (proj2 (Nat.ltb_ge _ _)) by lia.
      * apply Nat.leb_gt in Heqb1. apply (IH buf' m'' _ s1); [done|done|done|lia|lia|lia|lia].
Qed.

Lemma recv_msg_framed reads :
  Forall is_Some reads -> wp (recv_msg read_error len) framed (Socket (m ++ rest) reads).
Proof.
  intros Hr. unfold recv_msg. assert (Ht6 : length closing_tag = 6%nat) by done.
  rewrite (proj2 (Nat.ltb_ge len _)) by lia.
  apply (recv_loop_framed _ [] m); cbn; [done..|lia|lia|done|lia].
Qed.
End framing.

(** ** Any stream *)
Section any_stream.
Context (read_error : Z) (len : nat) (input : list ascii).
Hypothesis Hlen : (12 <= len)%nat.

Definition delivered (r : err + list ascii) (s : socket) : Prop :=
  match r with
  | inr m => input = m ++ sk_in s /\ closing_tag `suffix_of` m /\ (length m < len)%nat
  | inl e => e = Rc read_error \/ e = Rc FLOM_RC_BUFFER_OVERFLOW
  end.

Lemma recv_loop_delivers fuel : forall buf to_be_read s,
  input = buf ++ sk_in s -> (length buf + to_be_read < len)%nat ->
  ((length buf < length closing_tag)%nat -> to_be_read = length closing_tag) ->
  (len < fuel + length buf)%nat ->
  wp (recv_loop fuel read_error len buf to_be_read) delivered s.
Proof.
  assert (Ht6 : length closing_tag = 6%nat) by done.
  induction fuel as [|fuel IH]; intros buf n s Hs Hfit H6 Hf; [cbn in Hf; lia|].
  cbn [recv_loop]. rewrite (proj2 (Nat.ltb_ge len _)) by lia. do 2 wp_step; [done|]. wp_step.
  assert (Hstep := recv_step read_error n s). unfold wp at 1.
  destruct (recv read_error n s) as [[r|bytes] s1]; cbn [fst snd].
  { destruct Hstep as [-> _]. by left. }
  destruct Hstep as (Hin & _ & Hb). rewrite Hin, app_assoc in Hs. clear Hin.
  set (buf' := buf ++ bytes) in *.
  assert (Hb' : length buf' = (length buf + length bytes)%nat) by apply length_app.
  wp_step.
  - apply Nat.ltb_lt in Heqb. rewrite H6 in * by lia. by apply IH; [|lia| |lia].
  - apply Nat.ltb_ge in Heqb. destruct (compare_closing_tag buf') as (_ & Hov & _).
    set (j := compare_tag _ _ _) in *. wp_step.
    + apply Nat.eqb_eq in Heqb0. rewrite (proj2 (Nat.leb_gt len _)) by lia.
      do 2 wp_step; [done|]. wp_step. repeat split; [done | | lia].
      by rewrite Heqb0, firstn_all in Hov.
    + wp_step; [wp_step; by right|]. apply Nat.leb_gt in Heqb1. by apply IH; [|lia|lia|lia].
Qed.

Lemma recv_msg_delivers s :
  input = sk_in s -> wp (recv_msg read_error len) (fun r s' =>
    match r with
    | inr m => input = m ++ sk_in s' /\ closing_tag `suffix_of` m /\ (0 < length m < len)%nat
    | inl e => e = Rc read_error \/ e = Rc FLOM_RC_BUFFER_OVERFLOW
    end) s.
Proof.
  intros Hin. unfold recv_msg. assert (Ht6 : length closing_tag = 6%nat) by done.
  rewrite (proj2 (Nat.ltb_ge len _)) by lia.
  eapply wp_mono; [|apply recv_loop_delivers]; cbn; [|done|lia|done|lia].
  intros [e|m] s'; [done|]. intros (Hs & Ht & Hl). repeat split; [done | done | | done].
  destruct Ht as [k ->]. rewrite length_app. lia.
Qed.
End any_stream.

(** ** Theorems *)

(** functional.  A message on a connection, followed by anything: the
    routine that reads a connection returns that message, byte for byte, and
    leaves what follows it on the connection, however the bytes are split among
    the reads; it refuses the message when the buffer cannot hold it and its
    terminator. *)
Theorem recv_msg_framing read_error len m rest reads :
  first_message m -> (11 <= length m)%nat -> (12 <= len)%nat -> Forall is_Some reads ->
  wp (recv_msg read_error len) (fun r s =>
    if (length m <? len)%nat then r = inr m /\ sk_in s = rest
    else r = inl (Rc FLOM_RC_BUFFER_OVERFLOW)) (Socket (m ++ rest) reads).
Proof.
  intros Hm Hshort Hlen Hr. eapply wp_mono; [|by apply (recv_msg_framed read_error len m rest)].
  intros r s. unfold framed. case_match; [by intros (? & ? & _) | done].
Qed.

(** C19: safety.  Whatever the bytes of a connection and however its reads go or
    fail, the routine ends; it never stores out of its buffer; and what it
    returns is a beginning of those bytes that ends with the closing tag, so
    never an empty message: a closed connection is reported as an error of the
    read. *)
Theorem recv_msg_safe read_error len s :
  (12 <= len)%nat ->
  wp (recv_msg read_error len) (fun r s' =>
    match r with
    | inr m => sk_in s = m ++ sk_in s' /\ closing_tag `suffix_of` m /\ (0 < length m < len)%nat
    | inl e => e = Rc read_error \/ e = Rc FLOM_RC_BUFFER_OVERFLOW
    end) s.
Proof.
  intros Hlen. by apply recv_msg_delivers.
Qed.

(** ** Concrete messages *)
Definition is_first_message (m : list ascii) : bool :=
  bool_decide (closing_tag `suffix_of` m) &&
  forallb (fun n => negb (bool_decide (closing_tag `suffix_of` take n m))) (seq 0 (length m)).

Lemma is_first_message_spec m : is_first_message m = true -> first_message m.
Proof.
  unfold is_first_message. rewrite andb_true_iff, forallb_forall. intros [Hs Hp].
  split; [by apply bool_decide_eq_true in Hs|]. intros p [k ->] Ht.
  destruct k as [|b k]; [by rewrite app_nil_r|]. exfalso.
  assert (Hin : In (length p) (seq 0 (length (p ++ b :: k)))).
  { apply in_seq. rewrite length_app. cbn. lia. }
  apply Hp in Hin. rewrite take_app_length in Hin.
  by rewrite bool_decide_eq_true_2 in Hin.
Qed.

Definition demo_message : list ascii := list_ascii_of_string (granted_text None).

(** Two messages in a row, read three bytes at a time by a locker *)
Lemma recv_msg_framing_witness :
  wp (recv_msg FLOM_RC_RECV_ERROR 512) (fun r s =>
    if (length demo_message <? 512)%nat
    then r = inr demo_message /\ sk_in s = demo_message
    else r = inl (Rc FLOM_RC_BUFFER_OVERFLOW))
    (Socket (demo_message ++ demo_message) (replicate 200 (Some 3%nat))).
Proof.
  refine (@recv_msg_framing FLOM_RC_RECV_ERROR 512 demo_message demo_message
    (replicate 200 (Some 3%nat)) _ _ _ _).
  - apply is_first_message_spec. vm_compute. reflexivity.
  - apply Nat.leb_le. vm_compute. reflexivity.
  - apply Nat.leb_le. reflexivity.
  - apply Forall_replicate. eexists. reflexivity.
Defined.

(** A peer that closes in the middle of a message *)
Lemma recv_msg_safe_witness :
  wp (recv_msg FLOM_RC_RECV_ERROR 512) (fun r s' =>
    match r with
    | inr m => take 40 demo_message = m ++ sk_in s' /\ closing_tag `suffix_of` m /\ (0 < length m < 512)%nat
    | inl e => e = Rc FLOM_RC_RECV_ERROR \/ e = Rc FLOM_RC_BUFFER_OVERFLOW
    end) (Socket (take 40 demo_message) [Some 1%nat; Some 2%nat]).
Proof.
  refine (@recv_msg_safe FLOM_RC_RECV_ERROR 512 (Socket (take 40 demo_message) [Some 1%nat; Some 2%nat]) _).
  apply Nat.leb_le. reflexivity.
Defined.

(** The longest names of resources *)
Definition demo_name (n : nat) : string := string_of_list_ascii (repeat "a"%char n).
Definition demo_lock_request (n : nat) : flom_msg :=
  Msg FLOM_MSG_STATE_READY (Header FLOM_MSG_LEVEL FLOM_MSG_VERB_LOCK FLOM_MSG_STEP_INCR)
    (body_lock_8_ (Lock_8 (Some "peer"%string) (Some (demo_name n)) 5 1 1 1 0)).
Definition plain_glib : Glib := {| g_base64_encode := Some; g_base64_decode := Some |}.

Example long_request_size :
  match flom_msg_serialize (H := plain_glib) FLOM_NETWORK_BUFFER_SIZE (demo_lock_request 400) with
  | inr text => (512 <? strlen text)%Z
  | inl _ => false
  end = true.
Proof. vm_compute. reflexivity. Qed.

(** error.  The buffer of a client that sends a request has 1024 bytes, that
    of the daemon and of the lockers that receive it 512: the request for a
    resource with a name of 400 characters is sent, and refused as too long by
    who receives it. *)
Theorem long_request_refused :
  exists text s,
    flom_msg_serialize (H := plain_glib) FLOM_NETWORK_BUFFER_SIZE (demo_lock_request 400) = inr text /\
    flom_tcp_recv_msg (Z.to_nat FLOM_MSG_BUFFER_SIZE) (Socket (list_ascii_of_string text) []) =
      (inl (Rc FLOM_RC_BUFFER_OVERFLOW), s).
Proof. eexists _, _. split; [vm_compute; reflexivity | vm_compute; reflexivity]. Qed.
