(* ===== verification/Vfs.v ===== *)
(** * Vfs: the RAM tree behind the virtual file system

    [src/src/flom_vfs.c]: the tree the daemon keeps in memory and shows
    through FUSE.  Every function that takes the tree's mutex holds it for its
    whole body, so it is one atomic operation here.  A [GNode] pointer (and the
    inode, which is the pointer to the node's data) is an identifier drawn from
    a counter; [time(NULL)] and the outcome of [g_try_malloc] are inputs. *)
From Stdlib Require Import ZArith String List Lia.
From stdpp Require Import base list numbers strings.
From S2P Require Import Prelude Types CStr Msg.
Local Open Scope string_scope.
Local Open Scope Z_scope.

(** ** Data *)
#[warnings="-register-all"]
Inductive gnode : Type :=
  GNode (ino : nat) (name : string) (content : option string) (ctime mtime : Z)
        (children : list gnode).

Definition n_ino (n : gnode) : nat := let 'GNode i _ _ _ _ _ := n in i.
Definition n_name (n : gnode) : string := let 'GNode _ s _ _ _ _ := n in s.
Definition n_content (n : gnode) : option string := let 'GNode _ _ c _ _ _ := n in c.
Definition n_children (n : gnode) : list gnode := let 'GNode _ _ _ _ _ c := n in c.
Definition set_children (c : list gnode) (n : gnode) : gnode :=
  let 'GNode i s d ct mt _ := n in GNode i s d ct mt c.

(** [flom_vfs_ram_tree_t], the next free identifier and the two inputs *)
Record ram_tree : Type := RamTree {
  t_active : bool;
  t_root : option gnode;
  t_next : nat;
  t_times : list Z;
  t_mallocs : list bool
}.

Definition set_root (r : option gnode) (t : ram_tree) : ram_tree :=
  RamTree (t_active t) r (t_next t) (t_times t) (t_mallocs t).
Definition set_active (b : bool) (t : ram_tree) : ram_tree :=
  RamTree b (t_root t) (t_next t) (t_times t) (t_mallocs t).

(** ** GLib's [GNode] functions *)
Definition first_some {A B : Type} (f : A -> option B) : list A -> option B :=
  fix go (l : list A) : option B :=
    match l with
    | [] => None
    | x :: l => match f x with Some b => Some b | None => go l end
    end.

(** The first node, in pre-order, that satisfies [p] ([g_node_traverse] with
    [G_PRE_ORDER] and an iterator that stops at a match) *)
Fixpoint find_node (p : gnode -> bool) (n : gnode) : option gnode :=
  if p n then Some n
  else let 'GNode _ _ _ _ _ c := n in first_some (find_node p) c.

Fixpoint update_node (id : nat) (f : gnode -> gnode) (n : gnode) : gnode :=
  let 'GNode i s d ct mt c := n in
  let n' := GNode i s d ct mt (map (update_node id f) c) in
  if (i =? id)%nat then f n' else n'.

(** [g_node_unlink], and [g_node_destroy] of a node that is not the root *)
Fixpoint unlink_node (id : nat) (n : gnode) : gnode :=
  let 'GNode i s d ct mt c := n in
  GNode i s d ct mt
    (List.filter (fun x => negb (n_ino x =? id)%nat) (map (unlink_node id) c)).

Definition append_node (parent : nat) (child : gnode) (root : gnode) : gnode :=
  update_node parent (fun n => set_children (n_children n ++ [child]) n) root.
Definition prepend_node (parent : nat) (child : gnode) (root : gnode) : gnode :=
  update_node parent (fun n => set_children (child :: n_children n) n) root.

Definition node_by_id (id : nat) (root : gnode) : option gnode :=
  find_node (fun n => (n_ino n =? id)%nat) root.

(** ** The functions of [flom_vfs.c]

    [Vfs] is the monad of a function that returns a reason code.  Some
    functions leave the body through an exception without setting [ret_cod],
    which then still holds [FLOM_RC_OK]: that is [throw FLOM_RC_OK], and [call]
    is the caller's test of the code. *)
Definition Vfs (A : Type) : Type := M Z ram_tree A.

Definition call (m : Vfs unit) : Vfs unit := fun t =>
  match m t with
  | (inl rc, t') => if rc =? FLOM_RC_OK then (inr tt, t') else (inl rc, t')
  | (inr a, t') => (inr a, t')
  end.

Definition time_NULL : Vfs Z := fun t =>
  match t_times t with
  | [] => (inr 0, t)
  | x :: l => (inr x, RamTree (t_active t) (t_root t) (t_next t) l (t_mallocs t))
  end.

Definition g_try_malloc_node : Vfs bool := fun t =>
  match t_mallocs t with
  | [] => (inr true, t)
  | b :: l => (inr b, RamTree (t_active t) (t_root t) (t_next t) (t_times t) l)
  end.

Definition fresh_ino : Vfs nat := fun t =>
  (inr (t_next t), RamTree (t_active t) (t_root t) (S (t_next t)) (t_times t) (t_mallocs t)).

Definition check_active : Vfs unit :=
  a ← gets t_active;
  when (negb a) (throw FLOM_RC_INACTIVE_FEATURE).

Definition on_root (f : gnode -> gnode) : Vfs unit :=
  modify (fun t => set_root (f <$> t_root t) t).

Definition FLOM_VFS_ROOT_DIR_NAME : string := "/".
Definition FLOM_VFS_STATUS_DIR_NAME : string := "status".
Definition FLOM_VFS_INCUBATOR_DIR_NAME : string := "incubator".
Definition FLOM_VFS_LOCKERS_DIR_NAME : string := "lockers".
Definition FLOM_VFS_RESNAME_FILE_NAME : string := "resource_name".
Definition FLOM_VFS_RESTYPE_FILE_NAME : string := "resource_type".
Definition FLOM_VFS_LOCKERS_HOLDERS_DIR_NAME : string := "holders".
Definition FLOM_VFS_LOCKERS_WAITINGS_DIR_NAME : string := "waitings".
Definition FLOM_VFS_PEERNAME_FILE_NAME : string := "peer_name".
Definition FLOM_VFS_LOCKERS_LOCKMODE_FILE_NAME : string := "lock_mode".
Definition FLOM_VFS_LOCKERS_QUANTITY_FILE_NAME : string := "quantity".
Definition FLOM_VFS_LOCKERS_SEQUENCE_VALUE_FILE_NAME : string := "sequence_value".
Definition FLOM_VFS_LOCKERS_TIMESTAMP_VALUE_FILE_NAME : string := "timestamp_value".

(** [flom_vfs_ram_node_create]; [None] is NULL *)
Definition flom_vfs_ram_node_create (name : string) (content : option string)
    : Vfs (option gnode) :=
  ok ← g_try_malloc_node;
  if (ok : bool) then
    id ← fresh_ino;
    now ← time_NULL;
    mret (Some (GNode id name content now now []))
  else mret None.

(** Creation, the test of the result and [g_node_append_data]: the code the
    function returns when the node cannot be created is its argument. *)
Definition append_data (parent : nat) (name : string) (content : option string)
    (failed : Z) : Vfs nat :=
  o ← flom_vfs_ram_node_create name content;
  n ← of_option failed o;
  _ ← on_root (append_node parent n);
  mret (n_ino n).

Definition prepend_data (parent : nat) (name : string) (failed : Z) : Vfs nat :=
  o ← flom_vfs_ram_node_create name None;
  n ← of_option failed o;
  _ ← on_root (prepend_node parent n);
  mret (n_ino n).

Definition flom_vfs_ram_tree_init (activate : bool) : Vfs unit :=
  if negb activate then
    _ ← modify (fun t => set_root None (set_active false t));
    throw FLOM_RC_INACTIVE_FEATURE
  else
    o ← flom_vfs_ram_node_create FLOM_VFS_ROOT_DIR_NAME None;
    root ← of_option FLOM_RC_NEW_OBJ o;
    _ ← modify (set_root (Some root));
    _ ← modify (set_active true);
    status ← prepend_data (n_ino root) FLOM_VFS_STATUS_DIR_NAME FLOM_RC_NEW_OBJ;
    _ ← prepend_data status FLOM_VFS_LOCKERS_DIR_NAME FLOM_RC_NEW_OBJ;
    _ ← prepend_data status FLOM_VFS_INCUBATOR_DIR_NAME FLOM_RC_NEW_OBJ;
    mret tt.

(** [flom_vfs_ram_tree_cleanup]: the whole tree ([None] or the root), or the
    subtree of one node *)
Definition flom_vfs_ram_tree_cleanup (node : option nat) : Vfs unit :=
  t ← gets id;
  when (t_active t)
    (match node, t_root t with
     | Some id, Some r =>
         if (n_ino r =? id)%nat
         then modify (fun t => set_active false (set_root None t))
         else on_root (unlink_node id)
     | _, _ => modify (fun t => set_active false (set_root None t))
     end).

(** [flom_vfs_ram_tree_find_node_by_name], from the node [start] *)
Definition flom_vfs_ram_tree_find_node_by_name (start : nat) (name : string) : Vfs nat :=
  _ ← check_active;
  t ← gets id;
  of_option FLOM_RC_OBJ_NOT_FOUND_ERROR
    (r ← t_root t; s ← node_by_id start r;
     n_ino <$> find_node (fun n => String.eqb (n_name n) name) s).

Definition root_ino : Vfs nat :=
  t ← gets id; of_option FLOM_RC_OBJ_NOT_FOUND_ERROR (n_ino <$> t_root t).

(** [flom_vfs_ram_tree_find_parent]: the node that has [id] among its
    children; the root is its own parent; NULL when the tree is not active *)
Definition flom_vfs_ram_tree_find_parent (id : nat) : Vfs (option nat) :=
  t ← gets (fun t : ram_tree => t);
  mret (if t_active t
        then r ← t_root t;
             if (n_ino r =? id)%nat then Some (n_ino r)
             else n_ino <$> find_node (fun n => existsb (fun c => (n_ino c =? id)%nat)
                                                        (n_children n)) r
        else None).

(** [flom_vfs_ram_tree_find]: a node by the pointer the file system uses as
    inode number, the root for NULL; NULL when the tree is not active *)
Definition flom_vfs_ram_tree_find (data : option nat) : Vfs (option nat) :=
  t ← gets (fun t : ram_tree => t);
  mret (if t_active t
        then r ← t_root t;
             match data with None => Some (n_ino r) | Some i => n_ino <$> node_by_id i r end
        else None).

(** [flom_vfs_ram_tree_find_child_by_name]; NULL when the tree is not active *)
Definition flom_vfs_ram_tree_find_child_by_name (id : nat) (name : string)
    : Vfs (option nat) :=
  t ← gets (fun t : ram_tree => t);
  mret (if t_active t
        then r ← t_root t; n ← node_by_id id r;
             n_ino <$> List.find (fun c => String.eqb (n_name c) name) (n_children n)
        else None).

(** [flom_vfs_ram_tree_retrieve_children]: inode and name of each child.
    Only the check of [active] returns NULL: for a node that is not in the tree
    the array has been allocated and is returned empty. *)
Definition flom_vfs_ram_tree_retrieve_children (data : option nat)
    : Vfs (option (list (nat * string))) :=
  t ← gets (fun t : ram_tree => t);
  mret (if t_active t
        then Some (match (r ← t_root t;
                          match data with None => Some r | Some i => node_by_id i r end) with
                   | Some n => map (fun c => (n_ino c, n_name c)) (n_children n)
                   | None => []
                   end)
        else None).

Definition touch (now : Z) (n : gnode) : gnode :=
  let 'GNode i s d ct _ c := n in GNode i s d ct now c.

Definition flom_vfs_ram_tree_update_mtime (id : nat) : Vfs unit :=
  _ ← check_active;
  now ← time_NULL;
  on_root (update_node id (touch now)).

(** The text of a file: the value, a newline, at most 1023 characters *)
Definition file_line (s : string) : string :=
  snprintf_take FLOM_VFS_STD_BUFFER_SIZE (s +:+ String (Ascii.ascii_of_nat 10) "").

Definition flom_vfs_ram_tree_add_locker (uid : Z) (resource_name resource_type : string)
    : Vfs unit :=
  _ ← check_active;
  root ← root_ino;
  lockers ← flom_vfs_ram_tree_find_node_by_name root FLOM_VFS_LOCKERS_DIR_NAME;
  uid_dir ← append_data lockers (print_dec uid) None FLOM_RC_NEW_OBJ;
  _ ← flom_vfs_ram_tree_update_mtime lockers;
  _ ← append_data uid_dir FLOM_VFS_RESNAME_FILE_NAME
        (Some (file_line resource_name)) FLOM_RC_NEW_OBJ;
  _ ← append_data uid_dir FLOM_VFS_RESTYPE_FILE_NAME
        (Some (file_line resource_type)) FLOM_RC_NEW_OBJ;
  _ ← append_data uid_dir FLOM_VFS_LOCKERS_HOLDERS_DIR_NAME None FLOM_RC_NEW_OBJ;
  _ ← append_data uid_dir FLOM_VFS_LOCKERS_WAITINGS_DIR_NAME None FLOM_RC_NEW_OBJ;
  mret tt.

Definition flom_vfs_ram_tree_del_locker (uid : Z) : Vfs unit :=
  _ ← check_active;
  root ← root_ino;
  lockers ← flom_vfs_ram_tree_find_node_by_name root FLOM_VFS_LOCKERS_DIR_NAME;
  locker_dir ← flom_vfs_ram_tree_find_node_by_name lockers (print_dec uid);
  flom_vfs_ram_tree_cleanup (Some locker_dir).

Definition flom_vfs_ram_tree_add_locker_conn_file (locker_uid conn_uid : Z)
    (file_name : string) (file_content : option string) : Vfs unit :=
  _ ← check_active;
  content ← of_option FLOM_RC_NULL_OBJECT file_content;
  root ← root_ino;
  lockers ← flom_vfs_ram_tree_find_node_by_name root FLOM_VFS_LOCKERS_DIR_NAME;
  locker ← flom_vfs_ram_tree_find_node_by_name lockers (print_dec locker_uid);
  conn ← flom_vfs_ram_tree_find_node_by_name locker (print_dec conn_uid);
  _ ← append_data conn file_name (Some content) FLOM_RC_OK;
  mret tt.

(** One optional file of a connection's directory *)
Definition add_conn_file {A} (locker_uid conn_uid : Z) (file_name : string)
    (o : option A) (content : A -> option string) : Vfs unit :=
  match o with
  | None => mret tt
  | Some a => call (flom_vfs_ram_tree_add_locker_conn_file locker_uid conn_uid
                      file_name (content a))
  end.

Definition flom_vfs_ram_tree_add_locker_conn (locker_uid conn_uid : Z) (is_holder : bool)
    (peer_name : string) (lock_mode : Z) (quantity : option Z)
    (sequence_value timestamp_value : option string) : Vfs unit :=
  _ ← check_active;
  root ← root_ino;
  lockers ← flom_vfs_ram_tree_find_node_by_name root FLOM_VFS_LOCKERS_DIR_NAME;
  locker ← flom_vfs_ram_tree_find_node_by_name lockers (print_dec locker_uid);
  dir ← flom_vfs_ram_tree_find_node_by_name locker
          (if is_holder then FLOM_VFS_LOCKERS_HOLDERS_DIR_NAME
           else FLOM_VFS_LOCKERS_WAITINGS_DIR_NAME);
  _ ← append_data dir (print_dec conn_uid) None FLOM_RC_OK;
  _ ← flom_vfs_ram_tree_update_mtime dir;
  _ ← add_conn_file locker_uid conn_uid FLOM_VFS_PEERNAME_FILE_NAME
        (Some peer_name) (fun p => Some (file_line p));
  _ ← add_conn_file locker_uid conn_uid FLOM_VFS_LOCKERS_LOCKMODE_FILE_NAME
        (if FLOM_LOCK_MODE_INVALID =? lock_mode then None else Some lock_mode)
        flom_lock_mode_long_string;
  _ ← add_conn_file locker_uid conn_uid FLOM_VFS_LOCKERS_QUANTITY_FILE_NAME
        quantity (fun q => Some (file_line (print_dec q)));
  _ ← add_conn_file locker_uid conn_uid FLOM_VFS_LOCKERS_SEQUENCE_VALUE_FILE_NAME
        sequence_value Some;
  add_conn_file locker_uid conn_uid FLOM_VFS_LOCKERS_TIMESTAMP_VALUE_FILE_NAME
    timestamp_value Some.

Definition flom_vfs_ram_tree_del_conn (conn_uid : Z) (incubating : bool) : Vfs unit :=
  _ ← check_active;
  root ← root_ino;
  lockers ← flom_vfs_ram_tree_find_node_by_name root
              (if incubating then FLOM_VFS_INCUBATOR_DIR_NAME
               else FLOM_VFS_LOCKERS_DIR_NAME);
  conn ← flom_vfs_ram_tree_find_node_by_name lockers (print_dec conn_uid);
  op ← flom_vfs_ram_tree_find_parent conn;
  parent ← of_option FLOM_RC_OBJ_NOT_FOUND_ERROR op;
  _ ← flom_vfs_ram_tree_update_mtime parent;
  flom_vfs_ram_tree_cleanup (Some conn).

Definition node_name (id : nat) : Vfs string :=
  t ← gets (fun t : ram_tree => t);
  mret (default "" (n_name <$> (r ← t_root t; node_by_id id r))).

(** [g_node_unlink] of a node then [g_node_append] under another parent; the
    modification times of both parents and of the node are updated around. *)
Definition flom_vfs_ram_tree_move_locker_conn (conn_uid : Z) : Vfs unit :=
  _ ← check_active;
  root ← root_ino;
  lockers ← flom_vfs_ram_tree_find_node_by_name root FLOM_VFS_LOCKERS_DIR_NAME;
  conn ← flom_vfs_ram_tree_find_node_by_name lockers (print_dec conn_uid);
  op ← flom_vfs_ram_tree_find_parent conn;
  parent ← of_option FLOM_RC_OBJ_NOT_FOUND_ERROR op;
  nm ← node_name parent;
  _ ← when (negb (String.eqb nm FLOM_VFS_LOCKERS_WAITINGS_DIR_NAME))
        (throw FLOM_RC_OBJ_CORRUPTED);
  og ← flom_vfs_ram_tree_find_parent parent;
  grandparent ← of_option FLOM_RC_OBJ_NOT_FOUND_ERROR og;
  holders ← flom_vfs_ram_tree_find_node_by_name grandparent
              FLOM_VFS_LOCKERS_HOLDERS_DIR_NAME;
  t ← gets (fun t : ram_tree => t);
  node ← of_option FLOM_RC_OBJ_NOT_FOUND_ERROR (r ← t_root t; node_by_id conn r);
  _ ← on_root (unlink_node conn);
  _ ← flom_vfs_ram_tree_update_mtime parent;
  _ ← on_root (append_node holders node);
  _ ← flom_vfs_ram_tree_update_mtime holders;
  flom_vfs_ram_tree_update_mtime conn.

Definition flom_vfs_ram_tree_add_file (dir : nat) (file_name file_content : string)
    : Vfs unit :=
  _ ← append_data dir file_name (Some file_content) FLOM_RC_INTERNAL_ERROR;
  mret tt.

Definition flom_vfs_ram_tree_add_incubator_conn (conn_uid : Z)
    (peer_name resource_name resource_type : string) : Vfs unit :=
  _ ← check_active;
  root ← root_ino;
  incubator ← flom_vfs_ram_tree_find_node_by_name root FLOM_VFS_INCUBATOR_DIR_NAME;
  uid_dir ← append_data incubator (print_dec conn_uid) None FLOM_RC_OK;
  _ ← flom_vfs_ram_tree_update_mtime incubator;
  _ ← flom_vfs_ram_tree_add_file uid_dir FLOM_VFS_PEERNAME_FILE_NAME (file_line peer_name);
  _ ← flom_vfs_ram_tree_add_file uid_dir FLOM_VFS_RESNAME_FILE_NAME
        (file_line resource_name);
  flom_vfs_ram_tree_add_file uid_dir FLOM_VFS_RESTYPE_FILE_NAME
    (file_line resource_type).
