(* ===== verification/Fuse.v ===== *)
(** * Fuse: the state tree as a file system

    [src/src/flom_fuse.c]: the callbacks that libfuse calls over the tree of
    [flom_vfs.c].  An inode is the identifier of a node, but the root's, which is
    [FLOM_VFS_INO_ROOT_DIR] for the kernel.  First the tree is shown to be one:
    the identifiers stay distinct whatever the daemon does with it. *)
From Stdlib Require Import ZArith String List Lia.
From stdpp Require Import base list numbers strings.
From S2P Require Import Prelude Types CStr Vfs.
Local Open Scope string_scope.
Local Open Scope Z_scope.

(** ** The callbacks *)
Definition FLOM_VFS_INO_ROOT_DIR : nat := 1.

Inductive errno : Type := ENOENT | ENOTDIR | EISDIR | EACCES | ENOTSUP.

(** [flom_fuse_common_values]: the owner of all the files *)
Record flom_fuse_common_values : Type := Common { fuse_uid : Z; fuse_gid : Z }.

Record stat : Type := Stat {
  st_ino : nat;
  st_mode : Z;
  st_nlink : Z;
  st_uid : Z;
  st_gid : Z;
  st_ctime : Z;
  st_mtime : Z;
  st_size : Z
}.
Definition S_IFDIR : Z := 16384.
Definition S_IFREG : Z := 32768.

Inductive reply : Type :=
| Reply_err (e : errno)
| Reply_attr (st : stat)
| Reply_entry (ino : nat) (attr : stat)
| Reply_open
| Reply_buf (bytes : string).

(** [fuse_add_direntry name ino off]: an entry of a directory and the offset of
    the next one; its size depends on the name only *)
Class Libfuse : Type := {
  direntry : string -> nat -> Z -> string;
  direntry_size : string -> Z;
  direntry_length : forall name ino off, strlen (direntry name ino off) = direntry_size name
}.

Section callbacks.
Context `{Libfuse}.
Variable common : flom_fuse_common_values.

(** The functions of the tree do not fail here: they answer NULL. *)
Definition Fm (A : Type) : Type := M err ram_tree A.
Definition on_tree {A} (m : Vfs A) : Fm A := fun t =>
  match m t with
  | (inr a, t') => (inr a, t')
  | (inl rc, t') => (inl (Rc rc), t')
  end.

Definition node_of (ino : nat) : Fm (option nat) :=
  on_tree (flom_vfs_ram_tree_find (if (FLOM_VFS_INO_ROOT_DIR =? ino)%nat then None else Some ino)).
Definition data_of (node : nat) : Fm gnode :=
  t ← gets id;
  of_option Ub (r ← t_root t; node_by_id node r).

Definition flom_vfs_ram_node_is_dir (n : gnode) : bool :=
  match n_content n with None => true | Some _ => false end.
Definition flom_vfs_ram_node_get_content (n : gnode) : string := default "" (n_content n).
Definition n_ctime (n : gnode) : Z := let 'GNode _ _ _ c _ _ := n in c.
Definition n_mtime (n : gnode) : Z := let 'GNode _ _ _ _ m _ := n in m.

(** What [flom_fuse_stat] puts into the buffer *)
Definition stat_of (ino : nat) (data : gnode) (st : stat) : stat :=
  if flom_vfs_ram_node_is_dir data
  then Stat ino (Z.lor S_IFDIR 360) 2 (fuse_uid common) (fuse_gid common) (n_ctime data) (n_mtime data) (st_size st)
  else Stat ino (Z.lor S_IFREG 288) 1 (fuse_uid common) (fuse_gid common) (n_ctime data) (n_mtime data)
         (strlen (flom_vfs_ram_node_get_content data)).

(** [flom_fuse_stat] answers 0 even when there is no such node. *)
Definition flom_fuse_stat (ino : nat) (st : stat) : Fm (Z * stat) :=
  o ← node_of ino;
  match o with
  | None => mret (0, st)
  | Some node => data ← data_of node; mret (0, stat_of ino data st)
  end.

Definition zero_stat (ino : nat) : stat := Stat ino 0 0 0 0 0 0 0.
Definition flom_fuse_getattr (ino : nat) : Fm reply :=
  '(rc, st) ← flom_fuse_stat ino (zero_stat ino);
  mret (if rc =? -1 then Reply_err ENOENT else Reply_attr st).

Definition flom_fuse_getxattr (ino : nat) (name : string) (size : Z) : Fm reply := mret (Reply_err ENOTSUP).

Definition flom_fuse_lookup (parent : nat) (name : string) : Fm reply :=
  o ← node_of parent;
  match o with
  | None => mret (Reply_err ENOENT)
  | Some parent_node =>
      o ← on_tree (flom_vfs_ram_tree_find_child_by_name parent_node name);
      match o with
      | None => mret (Reply_err ENOENT)
      | Some child_in_ram =>
          '(_, attr) ← flom_fuse_stat child_in_ram (zero_stat 0);
          mret (Reply_entry child_in_ram attr)
      end
  end.

(** [off_t] is compared with [size_t]. *)
Definition reply_buf_limited (buf : string) (off maxsize : Z) : reply :=
  let off := off mod 2 ^ 64 in
  if off <? strlen buf
  then Reply_buf (String.substring (Z.to_nat off) (Z.to_nat (Z.min (strlen buf - off) maxsize)) buf)
  else Reply_buf "".

Definition dirbuf_add (b : string) (name : string) (ino : nat) : string :=
  b ++ direntry name ino (strlen b + direntry_size name).
Fixpoint dirbuf_add_all (b : string) (l : list (nat * string)) : string :=
  match l with
  | [] => b
  | (ino, name) :: l => dirbuf_add_all (dirbuf_add b name ino) l
  end.

Definition flom_fuse_readdir (ino : nat) (size off : Z) : Fm reply :=
  o ← node_of ino;
  match o with
  | None => mret (Reply_err ENOENT)
  | Some node =>
      parent ← on_tree (flom_vfs_ram_tree_find_parent node);
      node_in_ram ← data_of node;
      if negb (flom_vfs_ram_node_is_dir node_in_ram) then mret (Reply_err ENOTDIR)
      else
        children ← on_tree (flom_vfs_ram_tree_retrieve_children
          (if (FLOM_VFS_INO_ROOT_DIR =? ino)%nat then None else Some ino));
        parent ← of_option Ub parent;
        children ← of_option Ub children;
        mret (reply_buf_limited (dirbuf_add_all "" ((ino, ".") :: (parent, "..") :: children)) off size)
  end.

(** [readonly] is the test of the flags. *)
Definition flom_fuse_open (ino : nat) (readonly : bool) : Fm reply :=
  if (FLOM_VFS_INO_ROOT_DIR =? ino)%nat then mret (Reply_err EISDIR)
  else
    o ← on_tree (flom_vfs_ram_tree_find (Some ino));
    match o with
    | None => mret (Reply_err ENOENT)
    | Some node =>
        node_in_ram ← data_of node;
        mret (if flom_vfs_ram_node_is_dir node_in_ram then Reply_err EISDIR
              else if negb readonly then Reply_err EACCES
              else Reply_open)
    end.

(** When there is no such node an empty answer is sent and the node is read all
    the same. *)
Definition flom_fuse_read (ino : nat) (size off : Z) : Fm reply :=
  o ← on_tree (flom_vfs_ram_tree_find (Some ino));
  node ← of_option Ub o;
  node_in_ram ← data_of node;
  mret (reply_buf_limited (flom_vfs_ram_node_get_content node_in_ram) off size).
End callbacks.

(** ** The identifiers of a tree *)
Section gnode_induction.
Variable P : gnode -> Prop.
Hypothesis Hnode : forall i s ct c m l, Forall P l -> P (GNode i s ct c m l).
Fixpoint gnode_deep (n : gnode) : P n :=
  let 'GNode i s ct c m l := n in
  Hnode i s ct c m l ((fix deep (l : list gnode) : Forall P l :=
    match l with
    | [] => Forall_nil_2 _
    | n :: l => Forall_cons_2 _ n l (gnode_deep n) (deep l)
    end) l).
End gnode_induction.

Fixpoint inos (n : gnode) : list nat :=
  let 'GNode i _ _ _ _ c := n in i :: flat_map inos c.

(** A node of a tree *)
Inductive within : gnode -> gnode -> Prop :=
| within_here n : within n n
| within_child n c m : In c (n_children m) -> within n c -> within n m.

Lemma inos_eq n : inos n = n_ino n :: flat_map inos (n_children n).
Proof. by destruct n. Qed.

Lemma within_ino n m : within n m -> In (n_ino n) (inos m).
Proof.
  induction 1 as [n|n c m Hc _ IH]; rewrite inos_eq; [by left|]. right. apply in_flat_map. by exists c.
Qed.
Lemma within_trans n m r : within n m -> within m r -> within n r.
Proof. intros Hn. induction 1 as [r|m c r Hc _ IH]; [done|]. apply (within_child n c r); [done | by apply IH]. Qed.
Lemma within_inos n m : within n m -> inos n ⊆ inos m.
Proof.
  induction 1 as [n|n c m Hc _ IH]; intros j Hj; [done|]. rewrite inos_eq. right.
  apply list_elem_of_In, in_flat_map. exists c. split; [done|]. by apply list_elem_of_In, IH.
Qed.

Lemma find_node_eq p n : find_node p n = if p n then Some n else first_some (find_node p) (n_children n).
Proof. by destruct n. Qed.
Lemma first_some_none {A B} (f : A -> option B) l : (forall x, In x l -> f x = None) -> first_some f l = None.
Proof. induction l as [|x l IH]; intros Hl; [done|]. cbn. rewrite Hl by by left. apply IH. intros y Hy. apply Hl. by right. Qed.
Lemma first_some_some {A B} (f : A -> option B) l b : first_some f l = Some b -> exists x, In x l /\ f x = Some b.
Proof.
  induction l as [|x l IH]; [done|]. cbn. destruct (f x) eqn:E.
  - intros [= ->]. exists x. split; [by left | done].
  - intros (y & Hy & Hb)%IH. exists y. split; [by right | done].
Qed.

Lemma find_node_within p n m : find_node p n = Some m -> within m n /\ p m = true.
Proof.
  revert m. induction n as [i s ct c mt l IH] using gnode_deep. intros m. rewrite find_node_eq.
  destruct (p _) eqn:E; [intros [= <-]; split; [constructor | done]|]. cbn.
  intros (x & Hx & Hm)%first_some_some. rewrite Stdlib.Lists.List.Forall_forall in IH.
  destruct (IH x Hx m Hm) as [Hw Hp]. split; [|done]. by apply (within_child m x).
Qed.
Lemma node_by_id_within id r n : node_by_id id r = Some n -> within n r /\ n_ino n = id.
Proof. intros [Hw Hp]%find_node_within. split; [done|]. by apply Nat.eqb_eq. Qed.
Lemma node_by_id_none id r : ~ In id (inos r) -> node_by_id id r = None.
Proof.
  intros Hid. destruct (node_by_id id r) as [n|] eqn:E; [|done].
  apply node_by_id_within in E as [Hw <-]. by apply within_ino in Hw.
Qed.

Lemma NoDup_children n c : NoDup (inos n) -> In c (n_children n) -> NoDup (inos c).
Proof.
  rewrite inos_eq. intros [_ Hn]%NoDup_cons Hc. apply in_split in Hc as (l1 & l2 & Hl).
  rewrite Hl, flat_map_app in Hn. cbn in Hn. apply NoDup_app in Hn as (_ & _ & Hn). by apply NoDup_app in Hn as (Hn & _ & _).
Qed.

(** With distinct identifiers a node is found by its own. *)
Lemma node_by_id_found n r : within n r -> NoDup (inos r) -> node_by_id (n_ino n) r = Some n.
Proof.
  unfold node_by_id. induction 1 as [n|n c m Hc Hw IH]; intros Hn; rewrite find_node_eq.
  - by rewrite Nat.eqb_refl.
  - rewrite inos_eq in Hn. pose proof Hn as [Hm Hl]%NoDup_cons. apply in_split in Hc as (l1 & l2 & Hl12).
    assert (Hin : In (n_ino n) (inos c)) by by apply within_ino.
    destruct (Nat.eqb_spec (n_ino m) (n_ino n)) as [Heq|_].
    + destruct Hm. rewrite Heq. apply list_elem_of_In, in_flat_map. exists c. split; [|done].
      rewrite Hl12. apply in_elt.
    + rewrite Hl12 in *. rewrite flat_map_app in Hl. cbn in Hl. apply NoDup_app in Hl as (_ & Hd & Hl).
      assert (Hc : NoDup (inos c)) by by apply NoDup_app in Hl as (Hc & _ & _).
      assert (Hnone : first_some (find_node (fun x => (n_ino x =? n_ino n)%nat)) l1 = None).
      { apply first_some_none. intros x Hx. apply (node_by_id_none (n_ino n) x). intros Hi.
        apply (Hd (n_ino n)); [apply list_elem_of_In, in_flat_map; by exists x|].
        apply elem_of_app. left. by apply list_elem_of_In. }
      clear -Hnone IH Hc. induction l1 as [|x l1 IH1]; cbn in *; [by rewrite IH|].
      destruct (find_node _ x); [done | by apply IH1].
Qed.

(** ** What an update does to them *)
Lemma flat_map_ext_in {A B} (f g : A -> list B) l : (forall x, In x l -> f x = g x) -> flat_map f l = flat_map g l.
Proof. induction l as [|x l IH]; intros Hl; [done|]. cbn. rewrite Hl by by left. rewrite IH; [done|]. intros y Hy. apply Hl. by right. Qed.
Lemma flat_map_map {A B C} (f : B -> list C) (g : A -> B) l : flat_map f (map g l) = flat_map (fun x => f (g x)) l.
Proof. induction l as [|x l IH]; [done|]. cbn. by rewrite IH. Qed.

Lemma inos_update_same id f n : (forall m, inos (f m) = inos m) -> inos (update_node id f n) = inos n.
Proof.
  intros Hf. induction n as [i s ct c mt l IH] using gnode_deep. cbn [update_node].
  assert (Hl : inos (GNode i s ct c mt (map (update_node id f) l)) = inos (GNode i s ct c mt l)).
  { cbn. f_equal. rewrite flat_map_map. apply flat_map_ext_in. by apply Stdlib.Lists.List.Forall_forall. }
  destruct (i =? id)%nat; [by rewrite Hf | done].
Qed.

(** A node that gets one more child, once for each node with its identifier *)
Lemma inos_update_add id f child n :
  (forall m, inos (f m) ≡ₚ inos m ++ inos child) ->
  inos (update_node id f n) ≡ₚ inos n ++ flat_map (fun i => if (i =? id)%nat then inos child else []) (inos n).
Proof.
  intros Hf. induction n as [i s ct c mt l IH] using gnode_deep. cbn [update_node].
  set (g := fun i => if (i =? id)%nat then inos child else []).
  assert (Hl : flat_map inos (map (update_node id f) l) ≡ₚ flat_map inos l ++ flat_map g (flat_map inos l)).
  { induction IH as [|x l Hx _ IHl]; [done|]. cbn. rewrite flat_map_app, Hx, IHl. fold g. solve_Permutation. }
  cbn [inos flat_map]. fold g. unfold g at 1. destruct (i =? id)%nat; cbn [app].
  - rewrite Hf. cbn [inos]. rewrite Hl. solve_Permutation.
  - cbn [inos]. rewrite Hl. solve_Permutation.
Qed.
Lemma flat_map_once {B} id (l : list B) (ids : list nat) : NoDup ids ->
  flat_map (fun i => if (i =? id)%nat then l else []) ids = if bool_decide (id ∈ ids) then l else [].
Proof.
  induction 1 as [|i ids Hi _ IH]; [done|]. cbn. rewrite IH. destruct (Nat.eqb_spec i id) as [->|Hne].
  - rewrite (bool_decide_false (id ∈ ids)), bool_decide_true by first [done | by left]. apply app_nil_r.
  - apply (f_equal (fun b : bool => if b then l else [])), bool_decide_ext.
    rewrite elem_of_cons. split; [by right | by intros [Heq|]; [destruct Hne|]].
Qed.

(** The subtree that [unlink_node] takes out is apart from what stays. *)
Lemma inos_unlink id n :
  exists taken, inos n ≡ₚ inos (unlink_node id n) ++ taken /\
    forall m c, within m n -> In c (n_children m) -> n_ino c = id -> inos c ⊆ taken.
Proof.
  induction n as [i s ct c mt l IH] using gnode_deep. cbn [unlink_node].
  assert (Hl : exists taken,
    flat_map inos l ≡ₚ flat_map inos (List.filter (fun x => negb (n_ino x =? id)%nat) (map (unlink_node id) l)) ++ taken /\
    (forall x, In x l -> n_ino x = id -> inos x ⊆ taken) /\
    (forall x m y, In x l -> within m x -> In y (n_children m) -> n_ino y = id -> inos y ⊆ taken)).
  { induction IH as [|x l (tx & Hx & Htx) _ (tl & Hl & Hl1 & Hl2)]; [by exists []|].
    assert (Hino : n_ino (unlink_node id x) = n_ino x) by by destruct x.
    cbn [map List.filter flat_map]. rewrite Hino. destruct (Nat.eqb_spec (n_ino x) id) as [Heq|Hne]; cbn [negb].
    - exists (inos x ++ tl)%list. split_and!.
      + rewrite Hl. solve_Permutation.
      + intros y [<-|Hy] Hid j Hj; apply elem_of_app; [by left | right; by apply (Hl1 y)].
      + intros y m z [<-|Hy] Hm Hz Hid j Hj; apply elem_of_app.
        * left. apply (within_inos z x); [|done]. apply (within_trans z m x); [|done]. by apply (within_child z z m); [|constructor].
        * right. by apply (Hl2 y m z).
    - exists (tx ++ tl)%list. split_and!.
      + cbn [flat_map]. rewrite Hx, Hl. solve_Permutation.
      + intros y [<-|Hy] Hid j Hj; [done|]. apply elem_of_app. right. by apply (Hl1 y).
      + intros y m z [<-|Hy] Hm Hz Hid j Hj; apply elem_of_app; [left; by apply (Htx m z) | right; by apply (Hl2 y m z)]. }
  destruct Hl as (taken & Hperm & Hl1 & Hl2). exists taken. split; [cbn; rewrite Hperm; solve_Permutation|].
  intros m y Hm Hy Hid. inversion Hm as [|? x ? Hx Hmx]; subst; cbn in *; [by apply Hl1 | by apply (Hl2 x m y)].
Qed.

(** ** The operations keep the tree tidy *)
Definition tidy_root (next : nat) (r : gnode) : Prop :=
  NoDup (inos r) /\ (forall i, i ∈ inos r -> FLOM_VFS_INO_ROOT_DIR < i < next)%nat /\
  n_name r = FLOM_VFS_ROOT_DIR_NAME.
Record tidy (t : ram_tree) : Prop := Tidy {
  tidy_next : (FLOM_VFS_INO_ROOT_DIR < t_next t)%nat;
  tidy_active : t_active t = match t_root t with Some _ => true | None => false end;
  tidy_ids : forall r, t_root t = Some r -> tidy_root (t_next t) r
}.
Definition keeps_tidy {A} (m : Vfs A) : Prop := forall t, tidy t -> tidy (m t).2.

Lemma keeps_tidy_still {A} (m : Vfs A) : (forall t, (m t).2 = t) -> keeps_tidy m.
Proof. intros Hm t Ht. by rewrite Hm. Qed.
Lemma keeps_tidy_bind {A B} (m : Vfs A) (k : A -> Vfs B) :
  keeps_tidy m -> (forall a, keeps_tidy (k a)) -> keeps_tidy (m ≫= k).
Proof.
  intros Hm Hk t Ht. specialize (Hm t Ht). unfold mbind, M_bind. destruct (m t) as [[e|a] t']; [done|]. by apply Hk.
Qed.
Lemma keeps_tidy_of_option {A} e (o : option A) : keeps_tidy (of_option e o).
Proof. destruct o; by apply keeps_tidy_still. Qed.
Lemma keeps_tidy_when b (m : Vfs unit) : keeps_tidy m -> keeps_tidy (when b m).
Proof. destruct b; [done | by intros; apply keeps_tidy_still]. Qed.
Lemma keeps_tidy_call (m : Vfs unit) : keeps_tidy m -> keeps_tidy (call m).
Proof. intros Hm t Ht. specialize (Hm t Ht). unfold call. destruct (m t) as [[e|[]] t']; [by destruct (e =? FLOM_RC_OK) | done]. Qed.

Lemma tidy_inputs t l l' : tidy t -> tidy (RamTree (t_active t) (t_root t) (t_next t) l l').
Proof. intros [Hn Ha Hi]. split; [exact Hn | exact Ha | exact Hi]. Qed.
Lemma keeps_tidy_time : keeps_tidy time_NULL.
Proof. intros t Ht. unfold time_NULL. destruct (t_times t); [done | by apply tidy_inputs]. Qed.
Lemma keeps_tidy_malloc : keeps_tidy g_try_malloc_node.
Proof. intros t Ht. unfold g_try_malloc_node. destruct (t_mallocs t); [done | by apply tidy_inputs]. Qed.
Lemma keeps_tidy_fresh : keeps_tidy fresh_ino.
Proof.
  intros t [Hn Ha Hi]. split; cbn; [lia | done|]. intros r (Hd & Hr & Hname)%Hi. split_and!; [done | | done].
  intros i Hin. specialize (Hr i Hin). lia.
Qed.
Lemma keeps_tidy_on_root f :
  (forall next r, tidy_root next r -> tidy_root next (f r)) -> keeps_tidy (on_root f).
Proof.
  intros Hf t [Hn Ha Hi]. split; cbn; [done | by destruct (t_root t) |].
  intros r Hr. destruct (t_root t) as [r0|]; [|done]. injection Hr as <-. by apply Hf, Hi.
Qed.

Lemma name_update id f n : (forall m, n_name (f m) = n_name m) -> n_name (update_node id f n) = n_name n.
Proof. intros Hf. destruct n. cbn. destruct (_ =? id)%nat; [by rewrite Hf | done]. Qed.
Lemma tidy_touch next id now r : tidy_root next r -> tidy_root next (update_node id (touch now) r).
Proof.
  intros (Hd & Hr & Hname). assert (Hi : inos (update_node id (touch now) r) = inos r).
  { apply inos_update_same. by intros []. }
  split_and!; [by rewrite Hi | by rewrite Hi |]. rewrite name_update; [done | by intros []].
Qed.

(** A new subtree, under any node *)
Lemma tidy_add next parent child r f :
  (forall m, inos (f m) ≡ₚ inos m ++ inos child) -> (forall m, n_name (f m) = n_name m) ->
  tidy_root next r -> NoDup (inos child) -> (forall i, i ∈ inos child -> FLOM_VFS_INO_ROOT_DIR < i < next)%nat ->
  (forall i, i ∈ inos r -> i ∉ inos child) -> tidy_root next (update_node parent f r).
Proof.
  intros Hf Hname (Hd & Hr & Hrn) Hc Hci Hapart.
  pose proof (inos_update_add parent f child r Hf) as Hp. rewrite (flat_map_once parent (inos child) _ Hd) in Hp.
  split_and!; [| |by rewrite name_update].
  - rewrite Hp. apply NoDup_app. split_and!; [done | | by case_bool_decide; [|apply NoDup_nil_2]].
    intros i Hi Hi'. case_bool_decide; [by apply (Hapart i) | by apply not_elem_of_nil in Hi'].
  - intros i. rewrite Hp, elem_of_app. intros [Hi|Hi]; [by apply Hr|].
    case_bool_decide; [by apply Hci | by apply not_elem_of_nil in Hi].
Qed.
Lemma inos_append child m : inos (set_children (n_children m ++ [child]) m) ≡ₚ inos m ++ inos child.
Proof. destruct m. cbn. rewrite flat_map_app. cbn. by rewrite app_nil_r. Qed.
Lemma inos_prepend child m : inos (set_children (child :: n_children m) m) ≡ₚ inos m ++ inos child.
Proof. destruct m. cbn. solve_Permutation. Qed.

(** A node that is not in the tree yet *)
Definition fresh_node (n : gnode) (t : ram_tree) : Prop :=
  inos n = [n_ino n] /\ (FLOM_VFS_INO_ROOT_DIR < n_ino n < t_next t)%nat /\
  forall r, t_root t = Some r -> n_ino n ∉ inos r.
Lemma wp_node_malloc t (Q : Z + bool -> ram_tree -> Prop) :
  tidy t -> (forall b t', tidy t' -> t_root t' = t_root t -> Q (inr b) t') -> wp g_try_malloc_node Q t.
Proof.
  intros Ht HQ. pose proof (keeps_tidy_malloc t Ht) as Ht'. unfold wp, g_try_malloc_node in *.
  by destruct (t_mallocs t); apply HQ.
Qed.
Lemma wp_time t (Q : Z + Z -> ram_tree -> Prop) :
  tidy t -> (forall now t', tidy t' -> t_root t' = t_root t -> t_next t' = t_next t -> Q (inr now) t') ->
  wp time_NULL Q t.
Proof.
  intros Ht HQ. pose proof (keeps_tidy_time t Ht) as Ht'. unfold wp, time_NULL in *. by destruct (t_times t); apply HQ.
Qed.
Lemma wp_node_create name content t (Q : Z + option gnode -> ram_tree -> Prop) :
  tidy t -> (forall t', tidy t' -> t_root t' = t_root t -> Q (inr None) t') ->
  (forall n t', tidy t' -> t_root t' = t_root t -> n_name n = name -> fresh_node n t' -> Q (inr (Some n)) t') ->
  wp (flom_vfs_ram_node_create name content) Q t.
Proof.
  intros Ht He HQ. unfold flom_vfs_ram_node_create. wp_step. apply wp_node_malloc; [done|].
  intros ok t1 Ht1 Hr1. wp_step; [|wp_step; by apply He]. wp_step.
  pose proof (keeps_tidy_fresh t1 Ht1) as Ht2. apply (wp_mono _ (fun r t2 => r = inr (t_next t1) /\ t2 = (fresh_ino t1).2)); [|done].
  intros r t2 [-> ->]. wp_step. apply wp_time; [done|]. intros now t3 Ht3 Hr3 Hn3. wp_step.
  apply HQ; [done | by rewrite Hr3 | done |]. split; [done|]. rewrite Hn3. cbn.
  split; [pose proof (tidy_next _ Ht1); lia|]. intros r Hroot Hin. rewrite Hr3 in Hroot.
  destruct (tidy_ids _ Ht1 r Hroot) as (_ & Hlt & _). specialize (Hlt _ Hin). lia.
Qed.

Lemma keeps_tidy_add_fresh n parent f t :
  (forall m, inos (f m) ≡ₚ inos m ++ inos n) -> (forall m, n_name (f m) = n_name m) ->
  tidy t -> fresh_node n t -> tidy (set_root (update_node parent f <$> t_root t) t).
Proof.
  intros Hf Hname [Hn Ha Hi] (Hin & Hr & Hout). split; cbn; [done | by destruct (t_root t) |].
  intros r Hroot. destruct (t_root t) as [r0|]; [|done]. injection Hroot as <-.
  apply (tidy_add _ parent n); [done.. | by apply Hi | rewrite Hin; apply NoDup_singleton | |].
  - intros i. rewrite Hin. intros ->%list_elem_of_singleton. done.
  - intros i Hi0. rewrite Hin. intros ->%list_elem_of_singleton. by apply (Hout r0).
Qed.
Lemma keeps_tidy_append_data parent name content failed : keeps_tidy (append_data parent name content failed).
Proof.
  intros t Ht. change (wp (append_data parent name content failed) (fun _ t' => tidy t') t). unfold append_data.
  wp_step. apply wp_node_create; [done|by intros|]. intros n t1 Ht1 _ _ Hf. wp_step. apply wp_ret.
  wp_step. unfold on_root. wp_step. wp_step. apply keeps_tidy_add_fresh with (n := n); auto using inos_append.
  by intros [].
Qed.
Lemma keeps_tidy_prepend_data parent name failed : keeps_tidy (prepend_data parent name failed).
Proof.
  intros t Ht. change (wp (prepend_data parent name failed) (fun _ t' => tidy t') t). unfold prepend_data.
  wp_step. apply wp_node_create; [done|by intros|]. intros n t1 Ht1 _ _ Hf. wp_step. apply wp_ret.
  wp_step. unfold on_root. wp_step. wp_step. apply keeps_tidy_add_fresh with (n := n); auto using inos_prepend.
  by intros [].
Qed.

Create HintDb tidy.
#[export] Hint Resolve keeps_tidy_append_data keeps_tidy_prepend_data keeps_tidy_time keeps_tidy_of_option : tidy.

(** Follow the structure of an operation down to the calls the database knows. *)
Ltac solve_tidy :=
  repeat first
    [ progress intros
    | solve [auto with tidy]
    | apply keeps_tidy_bind
    | apply keeps_tidy_when
    | apply keeps_tidy_call
    | apply keeps_tidy_still; reflexivity
    | match goal with
      | |- keeps_tidy (if ?b then _ else _) => destruct b
      | |- keeps_tidy (match ?x with _ => _ end) => destruct x
      end ].

Lemma tidy_unlink next id r : tidy_root next r -> tidy_root next (unlink_node id r).
Proof.
  intros (Hd & Hr & Hname). destruct (inos_unlink id r) as (taken & Hp & _). rewrite Hp in Hd.
  apply NoDup_app in Hd as (Hd & _ & _). split_and!; [done | | by destruct r].
  intros i Hi. apply Hr. rewrite Hp. apply elem_of_app. by left.
Qed.
Lemma tidy_nothing t : tidy t -> tidy (set_active false (set_root None t)).
Proof. intros [Hn Ha Hi]. by split. Qed.
Lemma keeps_tidy_cleanup node : keeps_tidy (flom_vfs_ram_tree_cleanup node).
Proof.
  unfold flom_vfs_ram_tree_cleanup. apply keeps_tidy_bind; [by apply keeps_tidy_still|]. intros t0.
  assert (Hnone : keeps_tidy (modify (fun t => set_active false (set_root None t)))).
  { intros t Ht. by apply tidy_nothing. }
  apply keeps_tidy_when. destruct node, (t_root t0); try done. destruct (_ =? _)%nat; [done|].
  apply keeps_tidy_on_root. intros. by apply tidy_unlink.
Qed.
Lemma keeps_tidy_check_active : keeps_tidy check_active.
Proof. unfold check_active. solve_tidy. Qed.
#[export] Hint Resolve keeps_tidy_cleanup keeps_tidy_check_active : tidy.
Lemma keeps_tidy_mtime id : keeps_tidy (flom_vfs_ram_tree_update_mtime id).
Proof.
  unfold flom_vfs_ram_tree_update_mtime. solve_tidy. apply keeps_tidy_on_root. intros. by apply tidy_touch.
Qed.
Lemma keeps_tidy_find_by_name start name : keeps_tidy (flom_vfs_ram_tree_find_node_by_name start name).
Proof. unfold flom_vfs_ram_tree_find_node_by_name. solve_tidy. Qed.
Lemma keeps_tidy_root_ino : keeps_tidy root_ino.
Proof. unfold root_ino. solve_tidy. Qed.
#[export] Hint Resolve keeps_tidy_mtime keeps_tidy_find_by_name keeps_tidy_root_ino : tidy.
Lemma keeps_tidy_conn_file u c n x : keeps_tidy (flom_vfs_ram_tree_add_locker_conn_file u c n x).
Proof. unfold flom_vfs_ram_tree_add_locker_conn_file. solve_tidy. Qed.
Lemma keeps_tidy_add_file d n x : keeps_tidy (flom_vfs_ram_tree_add_file d n x).
Proof. unfold flom_vfs_ram_tree_add_file. solve_tidy. Qed.
#[export] Hint Resolve keeps_tidy_conn_file keeps_tidy_add_file : tidy.
Lemma keeps_tidy_opt_file {A} u c n (o : option A) x : keeps_tidy (add_conn_file u c n o x).
Proof. unfold add_conn_file. solve_tidy. Qed.
#[export] Hint Resolve keeps_tidy_opt_file : tidy.

(** The root that [flom_vfs_ram_tree_init] puts in place *)
Lemma tidy_new_root n t : tidy t -> fresh_node n t -> n_name n = FLOM_VFS_ROOT_DIR_NAME ->
  tidy (set_active true (set_root (Some n) t)).
Proof.
  intros [Hn Ha Hi] (Hin & Hr & _) Hname. split; [done | done |]. cbn. intros r [= <-].
  split_and!; [rewrite Hin; apply NoDup_singleton | | done]. intros i. rewrite Hin.
  by intros ->%list_elem_of_singleton.
Qed.
Lemma keeps_tidy_init activate : keeps_tidy (flom_vfs_ram_tree_init activate).
Proof.
  unfold flom_vfs_ram_tree_init. destruct activate; cbn [negb].
  - intros t Ht. match goal with |- tidy (?m t).2 => change (wp m (fun _ t' => tidy t') t) end.
    wp_step. apply wp_node_create; [done|by intros|]. intros n t1 Ht1 Hr1 Hname Hf. wp_step. apply wp_ret.
    do 2 wp_step. do 2 wp_step. pose proof (tidy_new_root n t1 Ht1 Hf Hname) as Ht2. revert Ht2.
    generalize (set_active true (set_root (Some n) t1)). intros t2 Ht2.
    match goal with |- wp ?m _ _ => assert (Hk : keeps_tidy m) by solve_tidy; exact (Hk t2 Ht2) end.
  - apply keeps_tidy_bind; [intros t Ht; by apply tidy_nothing | intros; by apply keeps_tidy_still].
Qed.

(** *** Moving a subtree *)
Lemma within_parent n r : within n r -> n = r \/ exists m, within m r /\ In n (n_children m).
Proof.
  induction 1 as [n|n c m Hc _ IH]; [by left|]. right. destruct IH as [->|(m' & Hm' & Hn)].
  - exists m. split; [constructor | done].
  - exists m'. split; [by apply (within_child m' c m) | done].
Qed.

(** A subtree that has been taken out *)
Definition aside_of (n : gnode) (t : ram_tree) : Prop :=
  NoDup (inos n) /\ (forall i, i ∈ inos n -> FLOM_VFS_INO_ROOT_DIR < i < t_next t)%nat /\
  forall r, t_root t = Some r -> forall i, i ∈ inos r -> i ∉ inos n.

Lemma NoDup_within n r : within n r -> NoDup (inos r) -> NoDup (inos n).
Proof. induction 1 as [n|n c m Hc _ IH]; intros Hd; [done|]. by apply IH, (NoDup_children m). Qed.

Lemma unlink_aside id n r t :
  tidy t -> t_root t = Some r -> node_by_id id r = Some n -> n_ino r <> id ->
  aside_of n (set_root (unlink_node id <$> t_root t) t).
Proof.
  intros Ht Hroot Hn Hid. destruct (tidy_ids _ Ht r Hroot) as (Hd & Hr & _).
  apply node_by_id_within in Hn as [Hw Hino]. split; [by apply (NoDup_within n r)|]. split.
  - intros i Hi. apply Hr. by apply (within_inos n r).
  - intros r' Hr' i Hi Hi'. cbn in Hr'. rewrite Hroot in Hr'. injection Hr' as <-.
    destruct (inos_unlink id r) as (taken & Hp & Htaken).
    destruct (within_parent n r Hw) as [->|(m & Hm & Hc)]; [done|].
    rewrite Hp in Hd. apply NoDup_app in Hd as (_ & Hd & _). apply (Hd i); [done|]. by apply (Htaken m n).
Qed.

Lemma wp_mtime id n t (Q : Z + unit -> ram_tree -> Prop) :
  tidy t -> aside_of n t ->
  (forall r t', tidy t' -> aside_of n t' -> Q r t') -> wp (flom_vfs_ram_tree_update_mtime id) Q t.
Proof.
  intros Ht (Hd & Hr & Ha) HQ. unfold flom_vfs_ram_tree_update_mtime, check_active, on_root.
  wp_step. wp_step. wp_step. wp_step; [wp_step; by apply HQ|]. wp_step. apply wp_time; [done|].
  intros now t1 Ht1 Hr1 Hn1. wp_step.
  apply HQ; [apply keeps_tidy_on_root; [intros; by apply tidy_touch | done]|].
  split; [done|]. split; [by cbn; rewrite Hn1|]. intros r Hroot i. cbn in Hroot. rewrite Hr1 in Hroot.
  destruct (t_root t) as [r0|]; [|done]. injection Hroot as <-.
  rewrite inos_update_same by by intros []. by apply Ha.
Qed.

Lemma wp_still {E S A} (m : M E S A) (Q : E + A -> S -> Prop) t :
  (m t).2 = t -> (forall r, (m t).1 = r -> Q r t) -> wp m Q t.
Proof. intros Ht HQ. unfold wp. rewrite Ht. by apply HQ. Qed.

Lemma keeps_tidy_add_aside n id t : tidy t -> aside_of n t -> tidy (set_root (append_node id n <$> t_root t) t).
Proof.
  intros [Hn Ha Hi] (Hd & Hr & Hout). split; cbn; [done | by destruct (t_root t) |].
  intros r Hroot. destruct (t_root t) as [r0|]; [|done]. injection Hroot as <-.
  apply (tidy_add _ id n); [apply inos_append | by intros [] | by apply Hi | done | done | by apply Hout].
Qed.

Lemma move_tail conn parent holders n t :
  tidy t -> aside_of n t ->
  wp (_ ← flom_vfs_ram_tree_update_mtime parent; _ ← on_root (append_node holders n);
      _ ← flom_vfs_ram_tree_update_mtime holders; flom_vfs_ram_tree_update_mtime conn) (fun _ t' => tidy t') t.
Proof.
  intros Ht Ha. wp_step. apply (wp_mtime parent n); [done..|]. intros [e|[]] t1 Ht1 Ha1; [done|].
  pose proof (keeps_tidy_add_aside n holders t1 Ht1 Ha1) as Ht2. wp_step. unfold on_root. wp_step.
  assert (Hk : keeps_tidy (_ ← flom_vfs_ram_tree_update_mtime holders; flom_vfs_ram_tree_update_mtime conn))
    by solve_tidy. exact (Hk _ Ht2).
Qed.

(** A node that [flom_vfs_ram_tree_find_parent] finds under another name than the
    root's is not the root. *)
Lemma parent_not_root conn parent name t r :
  tidy t -> t_root t = Some r -> name <> FLOM_VFS_ROOT_DIR_NAME ->
  (flom_vfs_ram_tree_find_parent conn t).1 = inr (Some parent) -> (node_name parent t).1 = inr name ->
  n_ino r <> conn.
Proof.
  intros Ht Hroot Hne Hp Hn Heq. destruct (tidy_ids _ Ht r Hroot) as (Hd & _ & Hname).
  unfold flom_vfs_ram_tree_find_parent, node_name, mbind, M_bind, gets in *. cbn in Hp, Hn.
  rewrite Hroot in Hp, Hn. destruct (t_active t); [|done]. cbn in Hp, Hn. rewrite Heq, Nat.eqb_refl in Hp. injection Hp as <-.
  rewrite <- Heq in Hn. rewrite (node_by_id_found r r) in Hn; [|constructor | done]. cbn in Hn. congruence.
Qed.

(** The functions that only look *)
Lemma check_active_still t : (check_active t).2 = t.
Proof. unfold check_active, when, gets, mbind, M_bind. cbn. by destruct (t_active t). Qed.
Lemma bind_still {E S A B} (m : M E S A) (k : A -> M E S B) t :
  (m t).2 = t -> (forall a, (k a t).2 = t) -> ((m ≫= k) t).2 = t.
Proof. intros Hm Hk. unfold mbind, M_bind. destruct (m t) as [[e|a] t']; cbn in *; [done|]. by rewrite Hm. Qed.
Lemma of_option_still {E S A} (e : E) (o : option A) (t : S) : (of_option e o t).2 = t.
Proof. by destruct o. Qed.
Lemma find_by_name_still start name t : (flom_vfs_ram_tree_find_node_by_name start name t).2 = t.
Proof.
  apply bind_still; [apply check_active_still|]. intros _. apply bind_still; [done|]. intros. apply of_option_still.
Qed.
Lemma root_ino_still t : (root_ino t).2 = t.
Proof. apply bind_still; [done|]. intros. apply of_option_still. Qed.
Lemma find_parent_still id t : (flom_vfs_ram_tree_find_parent id t).2 = t.
Proof. done. Qed.
Lemma node_name_still id t : (node_name id t).2 = t.
Proof. done. Qed.
Create HintDb still.
#[local] Hint Resolve check_active_still of_option_still find_by_name_still root_ino_still find_parent_still
  node_name_still : still.
Ltac look := wp_step; apply wp_still; [by auto with still | intros [?|?] ?; [done|]].

Lemma keeps_tidy_move conn_uid : keeps_tidy (flom_vfs_ram_tree_move_locker_conn conn_uid).
Proof.
  intros t Ht. change (wp (flom_vfs_ram_tree_move_locker_conn conn_uid) (fun _ t' => tidy t') t).
  unfold flom_vfs_ram_tree_move_locker_conn. do 4 look. rename n1 into conn.
  look. destruct o as [parent|]; [wp_step; apply wp_ret|done]. look.
  wp_step. wp_step; [done|]. apply negb_false_iff, String.eqb_eq in H5 as ->. look.
  destruct o as [grandparent|]; [wp_step; apply wp_ret|done]. look. wp_step. wp_step. wp_step.
  destruct (t_root t) as [r|] eqn:Hroot; [|done]. cbn [mbind option_bind].
  destruct (node_by_id conn r) as [node|] eqn:Hnode; [|done]. cbn [of_option mret M_ret fst snd].
  assert (Hconn : n_ino r <> conn) by by apply (parent_not_root conn parent FLOM_VFS_LOCKERS_WAITINGS_DIR_NAME t r).
  wp_step. pose proof (unlink_aside conn node r t Ht Hroot Hnode Hconn) as Haside.
  assert (Htidy : tidy (set_root (unlink_node conn <$> t_root t) t)).
  { apply (keeps_tidy_on_root (unlink_node conn)); [|done]. intros. by apply tidy_unlink. }
  unfold on_root at 1. wp_step. by apply move_tail.
Qed.

(** *** Any sequence of operations *)
Inductive vfs_op : Type :=
| Op_init (activate : bool)
| Op_cleanup
| Op_add_locker (uid : Z) (resource_name resource_type : string)
| Op_del_locker (uid : Z)
| Op_add_locker_conn (locker_uid conn_uid : Z) (is_holder : bool) (peer_name : string) (lock_mode : Z)
    (quantity : option Z) (sequence_value timestamp_value : option string)
| Op_del_conn (conn_uid : Z) (incubating : bool)
| Op_move_locker_conn (conn_uid : Z)
| Op_add_incubator_conn (conn_uid : Z) (peer_name resource_name resource_type : string).

Definition vfs_op_run (o : vfs_op) : Vfs unit :=
  match o with
  | Op_init activate => flom_vfs_ram_tree_init activate
  | Op_cleanup => flom_vfs_ram_tree_cleanup None
  | Op_add_locker uid name type => flom_vfs_ram_tree_add_locker uid name type
  | Op_del_locker uid => flom_vfs_ram_tree_del_locker uid
  | Op_add_locker_conn locker uid holder peer mode q s ts =>
      flom_vfs_ram_tree_add_locker_conn locker uid holder peer mode q s ts
  | Op_del_conn uid incubating => flom_vfs_ram_tree_del_conn uid incubating
  | Op_move_locker_conn uid => flom_vfs_ram_tree_move_locker_conn uid
  | Op_add_incubator_conn uid peer name type => flom_vfs_ram_tree_add_incubator_conn uid peer name type
  end.
Definition vfs_run (ops : list vfs_op) (t : ram_tree) : ram_tree :=
  fold_left (fun t o => (vfs_op_run o t).2) ops t.

(** The tree before [flom_vfs_ram_tree_init] *)
Definition no_tree (times : list Z) (mallocs : list bool) : ram_tree :=
  RamTree false None (S FLOM_VFS_INO_ROOT_DIR) times mallocs.

Lemma keeps_tidy_find_parent id : keeps_tidy (flom_vfs_ram_tree_find_parent id).
Proof. by apply keeps_tidy_still. Qed.
#[export] Hint Resolve keeps_tidy_init keeps_tidy_move keeps_tidy_find_parent : tidy.
Lemma keeps_tidy_op o : keeps_tidy (vfs_op_run o).
Proof.
  destruct o; cbn [vfs_op_run];
    unfold flom_vfs_ram_tree_add_locker, flom_vfs_ram_tree_del_locker, flom_vfs_ram_tree_add_locker_conn,
      flom_vfs_ram_tree_del_conn, flom_vfs_ram_tree_add_incubator_conn; solve_tidy.
Qed.
Lemma tidy_run ops t : tidy t -> tidy (vfs_run ops t).
Proof. revert t. induction ops as [|o ops IH]; intros t Ht; [done|]. by apply IH, keeps_tidy_op. Qed.
Lemma tidy_no_tree times mallocs : tidy (no_tree times mallocs).
Proof. split; [apply le_n | done | done]. Qed.

(** C33: invariant. Whatever operations the daemon runs, in whatever order, with
    whatever outcome of the allocations: when there is a tree it is active, its
    root is [/], no two of its nodes have the same identifier and none has the
    kernel's number of the root directory, so every inode is one node. *)
Theorem tree_identifiers_distinct ops times mallocs :
  let t := vfs_run ops (no_tree times mallocs) in
  match t_root t with
  | None => t_active t = false
  | Some r => t_active t = true /\ n_name r = FLOM_VFS_ROOT_DIR_NAME /\ NoDup (inos r) /\
      forall i, i ∈ inos r -> (i > FLOM_VFS_INO_ROOT_DIR)%nat
  end.
Proof.
  intros t. pose proof (tidy_run ops _ (tidy_no_tree times mallocs)) as [_ Ha Hi]. fold t in Ha, Hi.
  destruct (t_root t) as [r|]; [|done]. destruct (Hi r eq_refl) as (Hd & Hr & Hn). split_and!; [done..|].
  intros i Hin. apply Hr in Hin. lia.
Qed.

(** ** What the file system shows *)
Lemma find_node_nowhere p c : (forall m, within m c -> p m = false) -> find_node p c = None.
Proof. intros Hp. destruct (find_node p c) as [m|] eqn:E; [|done]. apply find_node_within in E as [Hw Hm]. by rewrite Hp in Hm. Qed.
Lemma first_some_middle {A B} (f : A -> option B) l1 x l2 :
  (forall y, In y l1 -> f y = None) -> first_some f (l1 ++ x :: l2) =
  match f x with Some b => Some b | None => first_some f l2 end.
Proof.
  induction l1 as [|y l1 IH]; intros Hl; [done|]. cbn. rewrite Hl by by left. apply IH. intros z Hz. apply Hl. by right.
Qed.

(** The parent of a node is found by its child. *)
Definition has_child (id : nat) (n : gnode) : bool := existsb (fun c => (n_ino c =? id)%nat) (n_children n).
Lemma has_child_below id n : has_child id n = true -> In id (flat_map inos (n_children n)).
Proof.
  unfold has_child. intros (x & Hx & <-%Nat.eqb_eq)%existsb_exists. apply in_flat_map. exists x. split; [done|].
  apply within_ino. constructor.
Qed.
Lemma has_child_within id n r : has_child id n = true -> within n r -> In id (flat_map inos (n_children r)).
Proof.
  intros Hc%has_child_below Hw. destruct Hw as [n|n c r Hin Hw]; [done|]. apply in_flat_map. exists c. split; [done|].
  apply list_elem_of_In. apply (within_inos n c Hw), list_elem_of_In. rewrite inos_eq. by right.
Qed.
Lemma parent_found m c r : within m r -> In c (n_children m) -> NoDup (inos r) ->
  find_node (has_child (n_ino c)) r = Some m.
Proof.
  intros Hw Hc. induction Hw as [m|m x r Hx Hw IH]; intros Hd; rewrite find_node_eq.
  - assert (has_child (n_ino c) m = true) as ->; [|done]. apply existsb_exists. exists c. split; [done|]. apply Nat.eqb_refl.
  - assert (Hbelow : In (n_ino c) (flat_map inos (n_children x))).
    { apply (has_child_within _ m); [|done]. apply existsb_exists. exists c. split; [done|]. apply Nat.eqb_refl. }
    rewrite inos_eq in Hd. apply NoDup_cons in Hd as [_ Hd]. apply in_split in Hx as (l1 & l2 & Hl). rewrite Hl in *.
    rewrite flat_map_app in Hd. cbn [flat_map] in Hd. apply NoDup_app in Hd as (_ & Hd1 & Hd).
    apply NoDup_app in Hd as (Hdx & Hd2 & _).
    assert (Hinx : n_ino c ∈ inos x) by (rewrite inos_eq; right; by apply list_elem_of_In).
    assert (Hl1 : forall y, In y l1 -> n_ino c ∉ inos y).
    { intros y Hy Hi. apply (Hd1 (n_ino c)); [apply list_elem_of_In, in_flat_map; exists y; split; [done|] |].
      - by apply list_elem_of_In. - apply elem_of_app. by left. }
    assert (Hl2 : forall y, In y l2 -> n_ino c ∉ inos y).
    { intros y Hy Hi. apply (Hd2 (n_ino c) Hinx), list_elem_of_In, in_flat_map. exists y. split; [done|]. by apply list_elem_of_In. }
    assert (has_child (n_ino c) r = false) as ->.
    { apply not_true_iff_false. unfold has_child. rewrite Hl. intros (y & Hy & Heq%Nat.eqb_eq)%existsb_exists.
      assert (Hyi : n_ino y ∈ inos y) by (rewrite inos_eq; by left). rewrite Heq in Hyi.
      apply in_app_or in Hy as [Hy|[<-|Hy]]; [by apply (Hl1 y) | | by apply (Hl2 y)].
      rewrite inos_eq, Heq in Hdx. apply NoDup_cons in Hdx as [Hdx _]. by apply Hdx, list_elem_of_In. }
    rewrite first_some_middle; [by rewrite IH|]. intros y Hy. apply find_node_nowhere. intros z Hz.
    apply not_true_iff_false. intros Hcz. apply (Hl1 y Hy). rewrite inos_eq. right. apply list_elem_of_In.
    by apply (has_child_within _ z).
Qed.

(** The node at a path from the root, and the inode the kernel knows it by *)
Fixpoint at_path (names : list string) (n : gnode) : option gnode :=
  match names with
  | [] => Some n
  | s :: names => c ← List.find (fun c => String.eqb (n_name c) s) (n_children n); at_path names c
  end.
Definition shown_ino (names : list string) (n : gnode) : nat :=
  match names with [] => FLOM_VFS_INO_ROOT_DIR | _ => n_ino n end.

(** How the kernel resolves a path: one lookup for each name *)
Fixpoint fuse_walk (common : flom_fuse_common_values) (names : list string) (ino : nat) : Fm (option nat) :=
  match names with
  | [] => mret (Some ino)
  | s :: names =>
      r ← flom_fuse_lookup common ino s;
      match r with
      | Reply_entry ino _ => fuse_walk common names ino
      | _ => mret None
      end
  end.

Definition shown (r : gnode) (ino : nat) (n : gnode) : Prop :=
  ino = FLOM_VFS_INO_ROOT_DIR /\ n = r \/ ino = n_ino n /\ within n r.

Section shown.
Context `{Libfuse}.
Variables (common : flom_fuse_common_values) (t : ram_tree) (r : gnode).
Hypotheses (Ht : tidy t) (Hroot : t_root t = Some r).

Lemma within_not_root n : within n r -> n_ino n <> FLOM_VFS_INO_ROOT_DIR.
Proof.
  intros Hw. destruct (tidy_ids _ Ht r Hroot) as (_ & Hr & _). specialize (Hr (n_ino n)).
  assert (Hi : n_ino n ∈ inos r) by by apply list_elem_of_In, within_ino. specialize (Hr Hi). lia.
Qed.
Lemma tree_by_id n : within n r -> node_by_id (n_ino n) r = Some n.
Proof. intros Hw. apply node_by_id_found; [done|]. by destruct (tidy_ids _ Ht r Hroot) as [Hd _]. Qed.
Lemma tree_on : t_active t = true.
Proof. by rewrite (tidy_active _ Ht), Hroot. Qed.
Lemma shown_within ino n : shown r ino n -> within n r.
Proof. intros [[_ ->]|[_ Hw]]; [constructor | done]. Qed.

Lemma find_shown n : within n r -> on_tree (flom_vfs_ram_tree_find (Some (n_ino n))) t = (inr (Some (n_ino n)), t).
Proof.
  intros Hw. unfold on_tree, flom_vfs_ram_tree_find, gets, mbind, M_bind, mret, M_ret. cbn.
  rewrite tree_on, Hroot. cbn. by rewrite (tree_by_id n Hw).
Qed.
Lemma node_of_shown ino n : shown r ino n -> node_of ino t = (inr (Some (n_ino n)), t).
Proof.
  intros [[-> ->]|[-> Hw]]; unfold node_of.
  - unfold on_tree, flom_vfs_ram_tree_find, gets, mbind, M_bind, mret, M_ret. cbn. by rewrite tree_on, Hroot.
  - pose proof (within_not_root n Hw) as Hne%not_eq_sym%Nat.eqb_neq. rewrite Hne. by apply find_shown.
Qed.
Lemma data_of_shown n : within n r -> data_of (n_ino n) t = (inr n, t).
Proof.
  intros Hw. unfold data_of, gets, mbind, M_bind. cbn. unfold option_bind. by rewrite Hroot, (tree_by_id n Hw).
Qed.
Lemma stat_shown ino n st : shown r ino n -> flom_fuse_stat common ino st t = (inr (0, stat_of common ino n st), t).
Proof.
  intros Hs. unfold flom_fuse_stat, mbind, M_bind. rewrite (node_of_shown ino n Hs).
  by rewrite (data_of_shown n (shown_within _ _ Hs)).
Qed.

Lemma lookup_shown ino n s : shown r ino n ->
  flom_fuse_lookup common ino s t =
    (inr (match List.find (fun c => String.eqb (n_name c) s) (n_children n) with
          | Some c => Reply_entry (n_ino c) (stat_of common (n_ino c) c (zero_stat 0))
          | None => Reply_err ENOENT
          end), t).
Proof.
  intros Hs. unfold flom_fuse_lookup. unfold mbind at 1, M_bind at 1. rewrite (node_of_shown ino n Hs).
  assert (on_tree (flom_vfs_ram_tree_find_child_by_name (n_ino n) s) t =
    (inr (n_ino <$> List.find (fun c => String.eqb (n_name c) s) (n_children n)), t)) as Hf.
  { unfold on_tree, flom_vfs_ram_tree_find_child_by_name, gets, mbind, M_bind, mret, M_ret. cbn.
    rewrite tree_on, Hroot. cbn. by rewrite (tree_by_id n (shown_within _ _ Hs)). }
  unfold mbind at 1, M_bind at 1. rewrite Hf. destruct (List.find _ _) as [c|] eqn:E; [|done].
  apply find_some in E as [Hc _]. unfold mbind, M_bind. cbn [fmap option_fmap option_map].
  rewrite (stat_shown (n_ino c) c); [done|]. right. split; [done|].
  apply (within_trans c n r); [by apply (within_child c c n); [|constructor] | by apply (shown_within ino)].
Qed.

Lemma at_path_shown names ino n m : shown r ino n -> at_path names n = Some m ->
  shown r (match names with [] => ino | _ => n_ino m end) m.
Proof.
  revert ino n. induction names as [|s names IH]; intros ino n Hs; [by intros [= <-]|]. cbn.
  destruct (List.find _ _) as [c|] eqn:E; [|done]. apply find_some in E as [Hc _]. cbn. intros Hm.
  assert (Hsc : shown r (n_ino c) c).
  { right. split; [done|]. apply (within_trans c n r); [by apply (within_child c c n); [|constructor]|].
    by apply (shown_within ino). }
  specialize (IH _ _ Hsc Hm). destruct names as [|s' names]; [|done]. by injection Hm as <-.
Qed.

Lemma walk_shown names ino n : shown r ino n ->
  fuse_walk common names ino t = (inr ((fun m => match names with [] => ino | _ => n_ino m end) <$> at_path names n), t).
Proof.
  revert ino n. induction names as [|s names IH]; intros ino n Hs; [done|]. cbn [fuse_walk at_path].
  unfold mbind at 1, M_bind at 1. rewrite (lookup_shown ino n s Hs).
  destruct (List.find _ _) as [c|] eqn:E; [|done]. apply find_some in E as [Hc _].
  rewrite (IH (n_ino c) c).
  - cbn [mbind option_bind]. f_equal. f_equal. destruct names as [|s' names]; [done|]. by destruct (at_path (s' :: names) c).
  - right. split; [done|]. apply (within_trans c n r); [by apply (within_child c c n); [|constructor]|].
    by apply (shown_within ino).
Qed.
End shown.

(** What the callbacks answer for a node, computed from the node and its parent *)
Definition entries (ino : nat) (parent n : gnode) : list (nat * string) :=
  (ino, ".") :: (n_ino parent, "..") :: map (fun c => (n_ino c, n_name c)) (n_children n).

Lemma find_parent_shown t r ino n names :
  tidy t -> t_root t = Some r -> at_path names r = Some n -> ino = shown_ino names n ->
  (exists parent, at_path (removelast names) r = Some parent /\
     on_tree (flom_vfs_ram_tree_find_parent (n_ino n)) t = (inr (Some (n_ino parent)), t)).
Proof.
  intros Ht Hroot Hn ->. destruct (tidy_ids _ Ht r Hroot) as (Hd & _).
  unfold on_tree, flom_vfs_ram_tree_find_parent, gets, mbind, M_bind, mret, M_ret. cbn.
  rewrite (tree_on t r Ht Hroot), Hroot. cbn. destruct names as [|s names _] using rev_ind; [injection Hn as <-; exists r; split; [done|]; by rewrite Nat.eqb_refl|].
  rewrite removelast_last.
  assert (Hp : exists p, at_path names r = Some p /\ In n (n_children p)).
  { clear -Hn. revert r Hn. induction names as [|s' names IH]; intros r; cbn; destruct (List.find _ _) as [c|] eqn:E; cbn;
      try done; [|by apply IH]. intros [= ->]. exists r. apply find_some in E as [Hc _]. by split. }
  destruct Hp as (p & Hp & Hc). exists p. split; [done|].
  pose proof (at_path_shown r names FLOM_VFS_INO_ROOT_DIR r p (or_introl (conj eq_refl eq_refl)) Hp) as Hw.
  apply (shown_within r) in Hw.
  assert (Hne : n_ino r <> n_ino n).
  { intros Heq. rewrite inos_eq, Heq in Hd. apply NoDup_cons in Hd as [Hd _]. apply Hd, list_elem_of_In.
    apply (has_child_within _ p); [|done]. apply existsb_exists. exists n. split; [done|]. apply Nat.eqb_refl. }
  apply Nat.eqb_neq in Hne. rewrite Hne. pose proof (parent_found p n r Hw Hc Hd) as Hf. unfold has_child in Hf.
  by rewrite Hf.
Qed.

Lemma children_shown t r ino n : tidy t -> t_root t = Some r -> shown r ino n ->
  on_tree (flom_vfs_ram_tree_retrieve_children (if (FLOM_VFS_INO_ROOT_DIR =? ino)%nat then None else Some ino)) t =
    (inr (Some (map (fun c => (n_ino c, n_name c)) (n_children n))), t).
Proof.
  intros Ht Hroot Hs. unfold on_tree, flom_vfs_ram_tree_retrieve_children, gets, mbind, M_bind, mret, M_ret. cbn [fst snd].
  rewrite (tree_on t r Ht Hroot), Hroot. destruct Hs as [[-> ->]|[-> Hw]]; [done|].
  pose proof (within_not_root t r Ht Hroot n Hw) as Hne%not_eq_sym%Nat.eqb_neq. rewrite Hne. cbn [mbind option_bind].
  by rewrite (tree_by_id t r Ht Hroot n Hw).
Qed.

(** C34: refinement. The callbacks show the tree as it is: resolving a path by
    lookups from the kernel's root finds exactly the nodes that the names lead
    to; the attributes are those of that node, the listing of a directory holds
    itself, its parent and its children in order, a file is opened for reading
    only, and no callback changes the tree. *)
Theorem fuse_shows_tree `{Libfuse} common t r names :
  tidy t -> t_root t = Some r ->
  fuse_walk common names FLOM_VFS_INO_ROOT_DIR t = (inr (shown_ino names <$> at_path names r), t) /\
  forall n, at_path names r = Some n -> exists parent, at_path (removelast names) r = Some parent /\
    let ino := shown_ino names n in
    flom_fuse_getattr common ino t = (inr (Reply_attr (stat_of common ino n (zero_stat ino))), t) /\
    (forall size off, flom_fuse_readdir ino size off t =
      (inr (if flom_vfs_ram_node_is_dir n
            then reply_buf_limited (dirbuf_add_all "" (entries ino parent n)) off size
            else Reply_err ENOTDIR), t)) /\
    (forall readonly, flom_fuse_open ino readonly t =
      (inr (if (FLOM_VFS_INO_ROOT_DIR =? ino)%nat || flom_vfs_ram_node_is_dir n then Reply_err EISDIR
            else if readonly then Reply_open else Reply_err EACCES), t)) /\
    (names <> [] -> forall size off, flom_fuse_read ino size off t =
      (inr (reply_buf_limited (flom_vfs_ram_node_get_content n) off size), t)).
Proof.
  intros Ht Hroot. assert (Hr0 : shown r FLOM_VFS_INO_ROOT_DIR r) by by left. split.
  - rewrite (walk_shown common t r Ht Hroot names _ _ Hr0). do 3 f_equal.
  - intros n Hn. destruct (find_parent_shown t r _ n names Ht Hroot Hn eq_refl) as (parent & Hp & Hfp).
    exists parent. split; [done|]. intros ino.
    assert (Hs : shown r ino n) by (pose proof (at_path_shown r names _ _ _ Hr0 Hn) as Hs; by destruct names).
    pose proof (shown_within r _ _ Hs) as Hw. split_and!.
    + unfold flom_fuse_getattr, mbind, M_bind. by rewrite (stat_shown common t r Ht Hroot ino n _ Hs).
    + intros size off. unfold flom_fuse_readdir, mbind, M_bind. rewrite (node_of_shown t r Ht Hroot ino n Hs), Hfp.
      rewrite (data_of_shown t r Ht Hroot n Hw). destruct (flom_vfs_ram_node_is_dir n); [|done]. cbn [negb].
      by rewrite (children_shown t r ino n Ht Hroot Hs).
    + intros readonly. unfold flom_fuse_open. destruct Hs as [[-> _]|[-> _]]; [done|].
      pose proof (within_not_root t r Ht Hroot n Hw) as Hne%not_eq_sym%Nat.eqb_neq. rewrite Hne. cbn [orb].
      unfold mbind, M_bind. rewrite (find_shown t r Ht Hroot n Hw), (data_of_shown t r Ht Hroot n Hw).
      by destruct (flom_vfs_ram_node_is_dir n), readonly.
    + intros Hne size off. assert (Hi : ino = n_ino n) by by destruct names. rewrite Hi.
      unfold flom_fuse_read, mbind, M_bind. rewrite (find_shown t r Ht Hroot n Hw). cbn [of_option mret M_ret].
      by rewrite (data_of_shown t r Ht Hroot n Hw).
Qed.

(** *** Reading a file *)
Lemma substring_empty n s : String.substring n 0 s = "".
Proof. revert n. induction s as [|c s IH]; intros [|n]; [done..|]. apply IH. Qed.
Lemma substring_after n m s : (String.length s <= n)%nat -> String.substring n m s = "".
Proof. revert n. induction s as [|c s IH]; intros [|n] Hn; cbn in *; try done; [by destruct m | lia|]. apply IH. lia. Qed.
Lemma substring_chunk n m k s :
  String.substring n m s ++ String.substring (n + m) k s = String.substring n (m + k) s.
Proof.
  revert n m. induction s as [|c s IH]; intros [|n] [|m]; cbn; try done.
  exact (f_equal (String c) (IH 0%nat m)).
Qed.
Lemma substring_min n m s : String.substring n m s = String.substring n (Nat.min (String.length s - n) m) s.
Proof.
  revert n m. induction s as [|c s IH]; intros [|n] [|m]; cbn [String.length String.substring Nat.min Nat.sub]; try done.
  f_equal. by rewrite (IH 0%nat m), Nat.sub_0_r.
Qed.

(** How a reader takes a file: [size] bytes at a time until an answer is empty *)
Fixpoint cat (fuel : nat) (ino : nat) (size off : Z) : Fm string :=
  match fuel with
  | O => throw NoFuel
  | S fuel =>
      r ← flom_fuse_read ino size off;
      match r with
      | Reply_buf "" => mret ""
      | Reply_buf b => rest ← cat fuel ino size (off + strlen b); mret (b ++ rest)
      | _ => throw Ub
      end
  end.

Lemma limited_substring buf off size : 0 <= off < 2 ^ 64 -> 0 <= size ->
  reply_buf_limited buf off size = Reply_buf (String.substring (Z.to_nat off) (Z.to_nat size) buf).
Proof.
  intros Hoff Hsize. unfold reply_buf_limited. rewrite Z.mod_small by done. unfold strlen.
  destruct (Z.ltb_spec off (Z.of_nat (String.length buf))) as [Hl|Hl].
  - rewrite (substring_min _ (Z.to_nat size)). do 2 f_equal. lia.
  - rewrite substring_after; [done | lia].
Qed.

Lemma cat_rest t r n size buf : tidy t -> t_root t = Some r -> within n r -> n_content n = Some buf ->
  0 < size -> strlen buf < 2 ^ 64 ->
  forall fuel off, (String.length buf - off < fuel)%nat -> (off <= String.length buf)%nat ->
    cat fuel (n_ino n) size (Z.of_nat off) t = (inr (String.substring off (String.length buf - off) buf), t).
Proof.
  intros Ht Hroot Hw Hbuf Hsize Hlen. induction fuel as [|fuel IH]; intros off Hf Hoff; [lia|]. cbn [cat].
  assert (Hread : flom_fuse_read (n_ino n) size (Z.of_nat off) t =
    (inr (Reply_buf (String.substring off (Z.to_nat size) buf)), t)).
  { unfold flom_fuse_read, mbind, M_bind. rewrite (find_shown t r Ht Hroot n Hw). cbn [of_option mret M_ret].
    rewrite (data_of_shown t r Ht Hroot n Hw). unfold flom_vfs_ram_node_get_content. rewrite Hbuf. cbn [default].
    unfold strlen in Hlen. rewrite limited_substring by lia. by rewrite Nat2Z.id. }
  unfold mbind at 1, M_bind at 1. rewrite Hread.
  pose proof (length_substring off (Z.to_nat size) buf) as Hl.
  destruct (String.substring off (Z.to_nat size) buf) as [|c b] eqn:E; cbn [String.length] in Hl.
  - assert (off = String.length buf) as -> by lia. by rewrite Nat.sub_diag, substring_empty.
  - rewrite <- E in *. unfold strlen, mbind, M_bind. rewrite length_substring, <- Nat2Z.inj_add, IH by lia.
    rewrite (substring_min off (Z.to_nat size)), (Nat.min_comm (String.length buf - off)), substring_chunk.
    unfold mret, M_ret. do 3 f_equal. lia.
Qed.

(** C35: roundtrip. Reading a file through the file system, from the beginning
    and in answers of any positive size until an empty one, ends and gives
    the content of the node, whole and in order. *)
Theorem fuse_read_back t r names n buf size :
  tidy t -> t_root t = Some r -> names <> [] -> at_path names r = Some n -> n_content n = Some buf ->
  0 < size -> strlen buf < 2 ^ 64 ->
  cat (S (String.length buf)) (shown_ino names n) size 0 t = (inr buf, t).
Proof.
  intros Ht Hroot Hne Hn Hbuf Hsize Hlen.
  assert (Hs : shown r FLOM_VFS_INO_ROOT_DIR r) by by left.
  pose proof (at_path_shown r names _ _ _ Hs Hn) as Hw%shown_within.
  assert (shown_ino names n = n_ino n) as -> by by destruct names.
  rewrite (cat_rest t r n size buf) with (off := 0%nat) by (done || lia). by rewrite Nat.sub_0_r, substring_all.
Qed.

(** The inode of a file that has gone: [getattr] answers with attributes that
    are all zero, since [flom_fuse_stat] never answers -1. *)
Lemma fuse_getattr_of_nothing common t r ino : tidy t -> t_root t = Some r ->
  ino <> FLOM_VFS_INO_ROOT_DIR -> ~ In ino (inos r) ->
  flom_fuse_getattr common ino t = (inr (Reply_attr (zero_stat ino)), t).
Proof.
  intros Ht Hroot Hne%not_eq_sym%Nat.eqb_neq Hin.
  assert (Hno : node_of ino t = (inr None, t)).
  { unfold node_of. rewrite Hne. unfold on_tree, flom_vfs_ram_tree_find, gets, mbind, M_bind, mret, M_ret. cbn.
    rewrite (tree_on t r Ht Hroot), Hroot. cbn. by rewrite (node_by_id_none ino r Hin). }
  unfold flom_fuse_getattr, flom_fuse_stat, mbind, M_bind. by rewrite Hno.
Qed.

(** ** A tree with one locker *)
Definition sample_tree : ram_tree :=
  vfs_run [Op_init true; Op_add_locker 7 "R" "simple"; Op_add_incubator_conn 3 "peer" "Q" "simple"] (no_tree [] []).
Definition sample_root : gnode := default (GNode 0 "" None 0 0 []) (t_root sample_tree).
Definition sample_path : list string := ["status"; "lockers"; "7"; "resource_name"].
Definition sample_node : gnode := default sample_root (at_path sample_path sample_root).
#[local] Instance names_only : Libfuse := {|
  direntry name _ _ := name;
  direntry_size := strlen;
  direntry_length _ _ _ := eq_refl
|}.

Lemma fuse_shows_tree_witness :
  tidy sample_tree /\ t_root sample_tree = Some sample_root /\
  fuse_walk (Common 0 0) sample_path FLOM_VFS_INO_ROOT_DIR sample_tree = (inr (Some 7%nat), sample_tree).
Proof.
  assert (Ht : tidy sample_tree) by apply tidy_run, tidy_no_tree.
  assert (Hr : t_root sample_tree = Some sample_root) by (vm_compute; reflexivity).
  split; [exact Ht|]. split; [exact Hr|].
  destruct (@fuse_shows_tree names_only (Common 0 0) sample_tree sample_root sample_path Ht Hr) as [Hw _].
  rewrite Hw. vm_compute. reflexivity.
Defined.

Lemma fuse_read_back_witness :
  exists n, at_path sample_path sample_root = Some n /\
  cat 3 (shown_ino sample_path n) 1 0 sample_tree = (inr (file_line "R"), sample_tree).
Proof.
  exists sample_node. assert (Hn : at_path sample_path sample_root = Some sample_node) by (vm_compute; reflexivity).
  split; [exact Hn|].
  assert (Ht : tidy sample_tree) by apply tidy_run, tidy_no_tree.
  refine (@fuse_read_back sample_tree sample_root sample_path sample_node (file_line "R") 1 Ht _ _ Hn _ _ _);
    [vm_compute; reflexivity | discriminate | vm_compute; reflexivity | reflexivity | reflexivity].
Defined.
