(* ===== verification/Mount.v ===== *)
(** * Mount: the life of the file system in a daemon

    [flom_daemon_mngmnt_activate_vfs] of [src/src/flom_daemon_mngmnt.c], the body
    of the thread that serves the file system, for the two versions of libfuse, and
    the end of [flom_accept_loop] of [src/src/flom_daemon.c], which unmounts it.
    What libfuse does is known by its objects only: each of its functions wants an
    object that exists, and what it does with another is not said. *)
From Stdlib Require Import ZArith String Ascii List Lia.
From stdpp Require Import base list numbers strings.
From S2P Require Import Prelude Types CStr Fuse.
Local Open Scope string_scope.
Local Open Scope Z_scope.

(** ** The objects of libfuse *)

(** A variable that points to one: not set, NULL, alive, or released *)
Inductive fuse_object : Type := Unset | NoObject | Alive | Released.

(** The arguments of the command line; the name of the mount point, which
    [fuse_parse_cmdline] allocates; where the file system is mounted; the channel
    (libfuse 2) and whether it belongs to the session; the session; how many times
    its loop has run; the owner of the files; and which calls succeed (they do when
    nothing is said). *)
Record fuse_state : Type := Fuse_state {
  fs_args : bool;
  fs_mountpoint : option string;
  fs_mounted : option string;
  fs_chan : fuse_object;
  fs_added : bool;
  fs_session : fuse_object;
  fs_loops : nat;
  flom_fuse_common : option flom_fuse_common_values;
  fs_calls : list bool
}.
Definition fuse_start (calls : list bool) : fuse_state :=
  Fuse_state false None None Unset false Unset 0 None calls.
Definition put_cmdline (args : bool) (mountpoint : option string) (s : fuse_state) : fuse_state :=
  Fuse_state args mountpoint (fs_mounted s) (fs_chan s) (fs_added s) (fs_session s) (fs_loops s)
    (flom_fuse_common s) (fs_calls s).
Definition put_mounted (m : option string) (s : fuse_state) : fuse_state :=
  Fuse_state (fs_args s) (fs_mountpoint s) m (fs_chan s) (fs_added s) (fs_session s) (fs_loops s)
    (flom_fuse_common s) (fs_calls s).
Definition put_chan (c : fuse_object) (added : bool) (s : fuse_state) : fuse_state :=
  Fuse_state (fs_args s) (fs_mountpoint s) (fs_mounted s) c added (fs_session s) (fs_loops s)
    (flom_fuse_common s) (fs_calls s).
Definition put_session (x : fuse_object) (s : fuse_state) : fuse_state :=
  Fuse_state (fs_args s) (fs_mountpoint s) (fs_mounted s) (fs_chan s) (fs_added s) x (fs_loops s)
    (flom_fuse_common s) (fs_calls s).
Definition put_loops (n : nat) (s : fuse_state) : fuse_state :=
  Fuse_state (fs_args s) (fs_mountpoint s) (fs_mounted s) (fs_chan s) (fs_added s) (fs_session s) n
    (flom_fuse_common s) (fs_calls s).
Definition put_common (x : option flom_fuse_common_values) (s : fuse_state) : fuse_state :=
  Fuse_state (fs_args s) (fs_mountpoint s) (fs_mounted s) (fs_chan s) (fs_added s) (fs_session s)
    (fs_loops s) x (fs_calls s).

Definition Um (A : Type) : Type := M err fuse_state A.
Definition lib_call : Um bool := fun s =>
  match fs_calls s with
  | [] => (inr true, s)
  | b :: l => (inr b, Fuse_state (fs_args s) (fs_mountpoint s) (fs_mounted s) (fs_chan s) (fs_added s)
                        (fs_session s) (fs_loops s) (flom_fuse_common s) l)
  end.
Definition alive (x : fuse_object) : Um unit :=
  match x with Alive => mret tt | _ => throw Ub end.
Definition live_chan : Um unit := x ← gets fs_chan; alive x.
Definition live_session : Um unit := x ← gets fs_session; alive x.

(** *** What libfuse documents of its functions *)
Definition fuse_parse_cmdline (mountpoint : string) : Um bool :=
  ok ← lib_call;
  _ ← when ok (modify (put_cmdline true (Some mountpoint)));
  mret ok.
Definition fuse_opt_free_args : Um unit := modify (fun s => put_cmdline false (fs_mountpoint s) s).
Definition free_mountpoint : Um unit :=
  m ← gets fs_mountpoint;
  _ ← of_option Ub m;
  modify (fun s => put_cmdline (fs_args s) None s).
Definition mount_there : Um unit :=
  m ← gets fs_mountpoint; m ← of_option Ub m; modify (put_mounted (Some m)).
(** A loop ends when the file system is unmounted or fails. *)
Definition fuse_session_loop : Um unit :=
  _ ← live_session; modify (fun s => put_loops (S (fs_loops s)) s).

Definition fuse_mount : Um bool :=
  ok ← lib_call;
  _ ← when ok mount_there;
  _ ← modify (put_chan (if (ok : bool) then Alive else NoObject) false);
  mret ok.
Definition fuse_lowlevel_new : Um bool :=
  ok ← lib_call; _ ← modify (put_session (if (ok : bool) then Alive else NoObject)); mret ok.
Definition fuse_session_add_chan : Um unit :=
  _ ← live_session; _ ← live_chan; modify (put_chan Alive true).
Definition fuse_session_remove_chan : Um unit :=
  _ ← live_chan; modify (put_chan Alive false).
(** A session takes its channel with it. *)
Definition fuse_session_destroy : Um unit :=
  _ ← live_session;
  b ← gets fs_added;
  _ ← when b (modify (put_chan Released false));
  modify (put_session Released).
Definition fuse_unmount : Um unit :=
  _ ← live_chan;
  _ ← modify (put_mounted None);
  modify (put_chan Released false).

Definition fuse_session_new : Um bool := fuse_lowlevel_new.
Definition fuse_session_mount : Um bool :=
  _ ← live_session; ok ← lib_call; _ ← when ok mount_there; mret ok.
Definition fuse_session_unmount : Um unit := _ ← live_session; modify (put_mounted None).
(** The handlers of the signals were never set. *)
Definition fuse_remove_signal_handlers : Um unit := live_session.

(** ** [flom_daemon_mngmnt_activate_vfs], with libfuse 2

    The four points where it stops; the recovery compares them. *)
Definition FUSE_PARSE_CMDLINE : Z := 0.
Definition FUSE_MOUNT : Z := 1.
Definition FUSE_LOWLEVEL_NEW : Z := 2.
Definition FUSE2_NONE : Z := 4.

Section activate.
Variable owner : flom_fuse_common_values.

Definition fuse2_steps (data : string) : Um Z :=
  _ ← modify (put_common (Some owner));
  ok ← fuse_parse_cmdline data;
  if negb ok then mret FUSE_PARSE_CMDLINE
  else
    ok ← fuse_mount;
    if negb ok then mret FUSE_MOUNT
    else
      ok ← fuse_lowlevel_new;
      if negb ok then mret FUSE_LOWLEVEL_NEW
      else
        _ ← fuse_session_add_chan;
        _ ← fuse_session_loop;
        _ ← fuse_session_remove_chan;
        mret FUSE2_NONE.
Definition activate_vfs_fuse2 (data : string) : Um unit :=
  excp ← fuse2_steps data;
  _ ← when (excp >=? FUSE_LOWLEVEL_NEW) fuse_session_destroy;
  _ ← when (excp >=? FUSE_MOUNT) fuse_unmount;
  when (excp >? FUSE_PARSE_CMDLINE) (_ ← free_mountpoint; fuse_opt_free_args).

(** *** With libfuse 3 *)
Definition FUSE_SESSION_NEW : Z := 1.
Definition FUSE_SESSION_MOUNT : Z := 3.
Definition FUSE3_NONE : Z := 4.

Definition fuse3_steps (data : string) : Um Z :=
  _ ← modify (put_common (Some owner));
  ok ← fuse_parse_cmdline data;
  if negb ok then mret FUSE_PARSE_CMDLINE
  else
    ok ← fuse_session_new;
    if negb ok then mret FUSE_SESSION_NEW
    else
      ok ← fuse_session_mount;
      if negb ok then mret FUSE_SESSION_MOUNT
      else
        _ ← fuse_session_loop;
        _ ← fuse_session_unmount;
        mret FUSE3_NONE.
Definition activate_vfs_fuse3 (data : string) : Um unit :=
  excp ← fuse3_steps data;
  _ ← when (excp >=? FUSE_SESSION_MOUNT) fuse_remove_signal_handlers;
  when (excp >? FUSE_PARSE_CMDLINE) (_ ← free_mountpoint; fuse_opt_free_args).
End activate.

(** ** The end of the accept loop

    [FUSERMOUNT] is the name of the program that the configuration of the build has
    found; the answers are whether [malloc] succeeds, the exit status of the
    command, and whether it could be run. *)
Inductive unmount_event : Type :=
| Ran (command : string)
| Joined
| NotJoined
| NoMemory.

Section unmount.
Variable FUSERMOUNT : string.

Definition unmount_command (mount_point : string) : string :=
  snprintf_take (20 + strlen mount_point) (FUSERMOUNT ++ " -u " ++ mount_point).

(** [reached] is [excp > G_THREAD_NEW_ERROR]: the thread was started. *)
Definition unmount_vfs (reached : bool) (mount_point : option string) (memory : bool) (exitstatus : Z)
    : list unmount_event :=
  match mount_point with
  | Some m =>
      if reached then
        if memory then
          [Ran (unmount_command m); if negb (exitstatus =? 0) then NotJoined else Joined]
        else [NoMemory]
      else []
  | None => []
  end.
End unmount.

(** ** Theorems *)

(** What a thread has released at its end *)
Record released (s : fuse_state) : Prop := Released_all {
  rl_args : fs_args s = false;
  rl_mountpoint : fs_mountpoint s = None;
  rl_mounted : fs_mounted s = None
}.

(** functional.  With libfuse 2 a thread that can mount the file system and
    make its session serves it once, and at its end nothing is mounted or
    allocated; one that cannot read its arguments does nothing; in the two other
    cases the recovery uses a channel or a session that does not exist. *)
Theorem activate_fuse2 owner data calls :
  let '(r, s) := activate_vfs_fuse2 owner data (fuse_start calls) in
  match calls with
  | false :: _ => r = inr tt /\ released s /\ fs_loops s = 0%nat
  | true :: false :: _ | true :: true :: false :: _ => r = inl Ub
  | [true; true] | [true] | [] | true :: true :: true :: _ =>
      r = inr tt /\ released s /\ fs_loops s = 1%nat /\ fs_chan s = Released /\ fs_session s = Released
  end.
Proof. destruct calls as [|[] [|[] [|[] l]]]; vm_compute; repeat split. Qed.

(** functional.  With libfuse 3 the thread releases its mount point whatever
    fails, serves the file system when nothing does, and never the session. *)
Theorem activate_fuse3 owner data calls :
  let '(r, s) := activate_vfs_fuse3 owner data (fuse_start calls) in
  r = inr tt /\ released s /\
  match calls with
  | false :: _ => fs_loops s = 0%nat /\ fs_session s = Unset
  | true :: false :: _ => fs_loops s = 0%nat /\ fs_session s = NoObject
  | true :: true :: false :: _ => fs_loops s = 0%nat /\ fs_session s = Alive
  | _ => fs_loops s = 1%nat /\ fs_session s = Alive
  end.
Proof. destruct calls as [|[] [|[] [|[] l]]]; vm_compute; repeat split. Qed.

(** bounds.  The command names the whole mount point: its buffer holds a name of
    a program of up to fifteen characters. *)
Theorem unmount_command_whole FUSERMOUNT m :
  strlen FUSERMOUNT <= 15 -> unmount_command FUSERMOUNT m = FUSERMOUNT ++ " -u " ++ m.
Proof.
  intros Hn. unfold unmount_command, snprintf_take, strlen in *. apply substring_all.
  rewrite !append_length. cbn [String.length]. lia.
Qed.
Lemma unmount_command_whole_witness :
  unmount_command "fusermount3" "/mnt/flom" = "fusermount3 -u /mnt/flom".
Proof. refine (@unmount_command_whole "fusermount3" "/mnt/flom" _). vm_compute. discriminate. Defined.

(** The shell runs the command, and the mount point is not quoted. *)
Theorem unmount_command_split :
  unmount_command "fusermount" "/mnt/my locks;reboot" = "fusermount -u /mnt/my locks;reboot".
Proof. reflexivity. Qed.
(** With a longer name of the program, as with a whole path, the end of the mount
    point is cut. *)
Theorem unmount_command_cut :
  unmount_command "/usr/bin/fusermount" "/mnt/flom" = "/usr/bin/fusermount -u /mnt/".
Proof. reflexivity. Qed.
