(* ===== verification/World.v ===== *)
(** * World: connections, the network and the shared state of a locker

    The connection objects of [src/src/flom_conn.h], sending through
    [flom_conn_send], [flom_tcp_send] and [flom_tls_send], and the state a
    resource's functions work on: the resource, the message being processed and
    the world.  What the operating system and the TLS library answer is an
    input of the world, consumed call by call; with no input left, sends and
    allocations succeed and the clock fails. *)
From Stdlib Require Import ZArith String List Lia.
From stdpp Require Import base list gmap numbers strings.
From S2P Require Import Prelude Types CStr RsrcName Msg MsgXml Vfs.
Local Open Scope string_scope.
Local Open Scope Z_scope.

(** ** Connections *)
Inductive flom_conn_state : Type :=
| FLOM_CONN_STATE_DAEMON
| FLOM_CONN_STATE_LOCKER
| FLOM_CONN_STATE_REMOVE.

(** A connection pointer. *)
Definition conn_ref : Type := positive.

Definition FLOM_NULL_FD : Z := -1.

(** [flom_conn_t]: [c_peer_name] is the name of the peer of its socket ([None]
    when it cannot be found), [c_tls] whether it has a TLS object, [c_fd] the
    socket of [tcp] and [c_msg] the message being received. *)
Record flom_conn : Type := Conn {
  c_uid : Z;
  c_state : flom_conn_state;
  c_wait : bool;
  c_last_step : Z;
  c_peer_name : option string;
  c_tls : bool;
  c_fd : Z;
  c_msg : flom_msg
}.

Definition set_last_step (v : Z) (c : flom_conn) : flom_conn :=
  Conn (c_uid c) (c_state c) (c_wait c) v (c_peer_name c) (c_tls c) (c_fd c) (c_msg c).

(** A connection that has been closed has no socket. *)
Definition has_fd (c : flom_conn) : bool := negb (c_fd c =? FLOM_NULL_FD).

(** [flom_tcp_retrieve_peer_name]: [getpeername] fails without a socket *)
Definition flom_tcp_retrieve_peer_name (c : flom_conn) : option string :=
  if has_fd c then c_peer_name c else None.

(** ** Inputs: one record per call of [flom_tcp_send] or [flom_tls_send]

    [so_error] is the pending socket error read with [getsockopt]; [EPIPE] and
    [ECONNRESET] have their Linux values. *)
Inductive send_result : Type :=
| SendAll
| GetsockoptFails
| PendingError (so_error : Z)
| Wrote (n : Z).

Definition EPIPE : Z := 32.
Definition ECONNRESET : Z := 104.

Record world : Type := World {
  w_conns : gmap conn_ref flom_conn;
  w_vfs : ram_tree;
  w_sent : list (conn_ref * string);
  w_sends : list send_result;
  w_mallocs : list bool;
  w_clock : list (option timeval);
  w_machine_id : option string
}.

Definition set_conns (x : gmap conn_ref flom_conn) (w : world) : world :=
  World x (w_vfs w) (w_sent w) (w_sends w) (w_mallocs w) (w_clock w) (w_machine_id w).
Definition set_vfs (x : ram_tree) (w : world) : world :=
  World (w_conns w) x (w_sent w) (w_sends w) (w_mallocs w) (w_clock w) (w_machine_id w).
Definition set_sent (x : list (conn_ref * string)) (w : world) : world :=
  World (w_conns w) (w_vfs w) x (w_sends w) (w_mallocs w) (w_clock w) (w_machine_id w).
Definition set_sends (x : list send_result) (w : world) : world :=
  World (w_conns w) (w_vfs w) (w_sent w) x (w_mallocs w) (w_clock w) (w_machine_id w).
Definition set_mallocs (x : list bool) (w : world) : world :=
  World (w_conns w) (w_vfs w) (w_sent w) (w_sends w) x (w_clock w) (w_machine_id w).
Definition set_clock (x : list (option timeval)) (w : world) : world :=
  World (w_conns w) (w_vfs w) (w_sent w) (w_sends w) (w_mallocs w) x (w_machine_id w).

(** ** Operations on the world *)
Definition Wm (A : Type) : Type := M err world A.

Definition deref (c : conn_ref) : Wm flom_conn :=
  w ← gets (fun w : world => w);
  of_option Ub (w_conns w !! c).

Definition flom_conn_get_last_step (c : conn_ref) : Wm Z :=
  o ← deref c; mret (c_last_step o).

Definition flom_conn_set_last_step (c : conn_ref) (v : Z) : Wm unit :=
  o ← deref c;
  modify (fun w => set_conns (<[c := set_last_step v o]> (w_conns w)) w).

(** [g_try_malloc0], as tested by [flom_rsrc_conn_lock_new] *)
Definition g_try_malloc : Wm bool := fun w =>
  match w_mallocs w with
  | [] => (inr true, w)
  | b :: l => (inr b, set_mallocs l w)
  end.

(** [gettimeofday]: [None] is a failure *)
Definition gettimeofday : Wm (option timeval) := fun w =>
  match w_clock w with
  | [] => (inr None, w)
  | t :: l => (inr t, set_clock l w)
  end.

Definition next_send : Wm send_result := fun w =>
  match w_sends w with
  | [] => (inr SendAll, w)
  | r :: l => (inr r, set_sends l w)
  end.

Definition wire (c : conn_ref) (bytes : string) : Wm unit :=
  modify (fun w => set_sent (w_sent w ++ [(c, bytes)]) w).

(** [flom_tcp_send]; [getsockopt] fails without a socket *)
Definition flom_tcp_send (c : conn_ref) (o : flom_conn) (r : send_result) (buf : string)
    : Wm unit :=
  match (if has_fd o then r else GetsockoptFails) with
  | GetsockoptFails => throw (Rc FLOM_RC_GETSOCKOPT_ERROR)
  | PendingError e =>
      if (EPIPE =? e) || (ECONNRESET =? e) then throw (Rc FLOM_RC_CONNECTION_CLOSED)
      else wire c buf
  | SendAll => wire c buf
  | Wrote n =>
      _ ← wire c (String.substring 0 (Z.to_nat n) buf);
      when (negb (strlen buf =? n)) (throw (Rc FLOM_RC_SEND_ERROR))
  end.

(** [flom_tls_send]: [SSL_write] reports an error or the bytes it took *)
Definition flom_tls_send (c : conn_ref) (r : send_result) (buf : string) : Wm unit :=
  match r with
  | GetsockoptFails | PendingError _ => throw (Rc FLOM_RC_SSL_WRITE_ERROR)
  | SendAll => wire c buf
  | Wrote n =>
      if 0 >=? n then throw (Rc FLOM_RC_SSL_WRITE_ERROR)
      else _ ← wire c (String.substring 0 (Z.to_nat n) buf);
           when (negb (n =? strlen buf)) (throw (Rc FLOM_RC_SEND_ERROR))
  end.

Definition flom_conn_send (c : conn_ref) (buf : string) : Wm unit :=
  o ← deref c;
  r ← next_send;
  if c_tls o then flom_tls_send c r buf else flom_tcp_send c o r buf.

(** The reason codes of the tree are traced and dropped by every caller. *)
Definition on_vfs (m : Vfs unit) : Wm unit := fun w =>
  let '(_, t) := m (w_vfs w) in (inr tt, set_vfs t w).

(** ** The state a resource works on

    [s_deadline] is the [next_deadline] of the locker's loop, handed by pointer
    to [inmsg] and [timeout]. *)
Record st (D : Type) : Type := St {
  s_name : option string;
  s_data : D;
  s_msg : flom_msg;
  s_world : world;
  s_deadline : timeval
}.
Arguments St {D} _ _ _ _ _.
Arguments s_name {D} _.
Arguments s_data {D} _.
Arguments s_msg {D} _.
Arguments s_world {D} _.
Arguments s_deadline {D} _.

Definition Res (D A : Type) : Type := M err (st D) A.

Definition put_name {D} (x : option string) (s : st D) : st D :=
  St x (s_data s) (s_msg s) (s_world s) (s_deadline s).
Definition put_data {D} (x : D) (s : st D) : st D :=
  St (s_name s) x (s_msg s) (s_world s) (s_deadline s).
Definition put_msg {D} (x : flom_msg) (s : st D) : st D :=
  St (s_name s) (s_data s) x (s_world s) (s_deadline s).
Definition put_world {D} (x : world) (s : st D) : st D :=
  St (s_name s) (s_data s) (s_msg s) x (s_deadline s).
Definition put_deadline {D} (x : timeval) (s : st D) : st D :=
  St (s_name s) (s_data s) (s_msg s) (s_world s) x.

Definition on_world {D A} (m : Wm A) : Res D A := zoom s_world put_world m.
Definition on_msg {D A} (m : M err flom_msg A) : Res D A := zoom s_msg put_msg m.
