(* ===== verification/Trace.v ===== *)
(** * Trace: the records that the program writes about itself

    [src/src/flom_trace.c] and the macros of [src/src/flom_trace.h]: the stream of
    the trace, how it is opened again on another file, and the text of every
    record.  The streams of the C library are keys: closing one that is not
    open, or writing on it, is undefined. *)
From Stdlib Require Import ZArith String Ascii List Lia.
From stdpp Require Import base list gmap numbers strings.
From S2P Require Import Prelude Types CStr.
Local Open Scope string_scope.
Local Open Scope Z_scope.

(** ** The modules of the program, one bit of the mask for each *)
Definition FLOM_TRACE_MOD_NO_TRACE : Z := 0x00000000.
Definition FLOM_TRACE_MOD_GENERIC : Z := 0x00000001.
Definition FLOM_TRACE_MOD_CONFIG : Z := 0x00000002.
Definition FLOM_TRACE_MOD_EXEC : Z := 0x00000004.
Definition FLOM_TRACE_MOD_CLIENT : Z := 0x00000008.
Definition FLOM_TRACE_MOD_DAEMON : Z := 0x00000010.
Definition FLOM_TRACE_MOD_CONNS : Z := 0x00000020.
Definition FLOM_TRACE_MOD_PARSER : Z := 0x00000040.
Definition FLOM_TRACE_MOD_MSG : Z := 0x00000080.
Definition FLOM_TRACE_MOD_LOCKER : Z := 0x00000100.
Definition FLOM_TRACE_MOD_RSRC : Z := 0x00000200.
Definition FLOM_TRACE_MOD_RESOURCE_SIMPLE : Z := 0x00000400.
Definition FLOM_TRACE_MOD_RESOURCE_NUMERIC : Z := 0x00000800.
Definition FLOM_TRACE_MOD_RESOURCE_SET : Z := 0x00001000.
Definition FLOM_TRACE_MOD_RESOURCE_HIER : Z := 0x00002000.
Definition FLOM_TRACE_MOD_RESOURCE_SEQUENCE : Z := 0x00004000.
Definition FLOM_TRACE_MOD_RESOURCE_TIMESTAMP : Z := 0x00008000.
Definition FLOM_TRACE_MOD_DAEMON_MNGMNT : Z := 0x00040000.
Definition FLOM_TRACE_MOD_API : Z := 0x00080000.
Definition FLOM_TRACE_MOD_DEBUG_FEATURES : Z := 0x00100000.
Definition FLOM_TRACE_MOD_TLS : Z := 0x00200000.
Definition FLOM_TRACE_MOD_TCP : Z := 0x00400000.

Definition FLOM_TRACE_MASK_ENV_VAR : string := "FLOM_TRACE_MASK".

(** ** [strtoul(s, NULL, 0)]: the base is in the prefix. *)
Definition ULONG_MAX : Z := 18446744073709551615.

Definition hex_value (c : ascii) : option Z :=
  let n := Z.of_nat (nat_of_ascii c) in
  if (48 <=? n) && (n <=? 57) then Some (n - 48)
  else if (65 <=? n) && (n <=? 70) then Some (n - 55)
  else if (97 <=? n) && (n <=? 102) then Some (n - 87)
  else None.
Definition digit_below (base : Z) (c : ascii) : option Z :=
  match hex_value c with Some d => if d <? base then Some d else None | None => None end.

Fixpoint value_in (base : Z) (s : string) (acc : Z) : Z :=
  match s with
  | String c s' => match digit_below base c with
                   | Some d => value_in base s' (base * acc + d)
                   | None => acc
                   end
  | EmptyString => acc
  end.

Definition unsigned_value (s : string) : Z :=
  match s with
  | String "0" (String x (String d s')) =>
      if (Ascii.eqb x "x" || Ascii.eqb x "X") && bool_decide (is_Some (digit_below 16 d))
      then value_in 16 (String d s') 0
      else value_in 8 s 0
  | String "0" _ => value_in 8 s 0
  | _ => value_in 10 s 0
  end.

Definition strtoul (s : string) : Z :=
  let clamp neg v :=
    if ULONG_MAX <? v then ULONG_MAX else if (neg : bool) then (- v) mod (ULONG_MAX + 1) else v in
  match skip_spaces s with
  | String "-" s' => clamp true (unsigned_value s')
  | String "+" s' => clamp false (unsigned_value s')
  | s' => clamp false (unsigned_value s')
  end.

(** ** State *)

(** What the header of a record shows: the time, the process and the thread
    (["%p"] of [g_thread_self()], whose text the C library chooses). *)
Record stamp : Type := Stamp {
  tm_year : Z; tm_mon : Z; tm_mday : Z; tm_hour : Z; tm_min : Z; tm_sec : Z;
  tm_usec : Z;
  tr_pid : Z;
  tr_self : string
}.
Definition epoch : stamp := Stamp 70 0 1 0 0 0 0 0 "0x0".

Definition stream : Type := positive.
Definition stderr : stream := 1%positive.

(** What becomes of the streams, in the order it does *)
Inductive trace_event : Type :=
| Opened (f : stream) (name : string) (append : bool)
| Printed (f : stream) (text : string)
| Closed (f : stream).

(** The variables of the file, [trace_file] being [None] for NULL and the
    mutex being held or not; the streams that are open; what was done to
    them; whether the next calls of [fopen] succeed (they do when nothing
    is said), what the next records show, and the mask of the environment. *)
Record trace : Type := Trace {
  flom_trace_initialized : bool;
  flom_trace_mask : Z;
  trace_file : option stream;
  flom_trace_mutex : bool;
  t_open : gset stream;
  t_events : list trace_event;
  t_fopens : list bool;
  t_stamps : list stamp;
  t_env : option string
}.
Definition put_init (i : bool) (m : Z) (f : option stream) (t : trace) : trace :=
  Trace i m f (flom_trace_mutex t) (t_open t) (t_events t) (t_fopens t) (t_stamps t) (t_env t).
Definition put_trace_file (f : option stream) (t : trace) : trace :=
  put_init (flom_trace_initialized t) (flom_trace_mask t) f t.
Definition put_mutex (b : bool) (t : trace) : trace :=
  Trace (flom_trace_initialized t) (flom_trace_mask t) (trace_file t) b (t_open t) (t_events t)
    (t_fopens t) (t_stamps t) (t_env t).
Definition put_streams (o : gset stream) (e : trace_event) (t : trace) : trace :=
  Trace (flom_trace_initialized t) (flom_trace_mask t) (trace_file t) (flom_trace_mutex t) o
    (t_events t ++ [e])%list (t_fopens t) (t_stamps t) (t_env t).
Definition put_fopens (l : list bool) (t : trace) : trace :=
  Trace (flom_trace_initialized t) (flom_trace_mask t) (trace_file t) (flom_trace_mutex t)
    (t_open t) (t_events t) l (t_stamps t) (t_env t).
Definition put_stamps (l : list stamp) (t : trace) : trace :=
  Trace (flom_trace_initialized t) (flom_trace_mask t) (trace_file t) (flom_trace_mutex t)
    (t_open t) (t_events t) (t_fopens t) l (t_env t).

(** Before the library is used: the variables are zero, and [stderr] is the one
    stream. *)
Definition no_trace (env : option string) : trace :=
  Trace false 0 None false {[ stderr ]} [] [] [] env.

Definition Trm (A : Type) : Type := M err trace A.

(** *** The calls of the C library and of GLib *)
Definition fresh_stream (o : gset stream) : stream :=
  Pos.succ (foldr Pos.max stderr (elements o)).
Definition fopen (name : string) (append : bool) : Trm (option stream) := fun t =>
  let '(ok, l) := match t_fopens t with [] => (true, []) | b :: l => (b, l) end in
  if (ok : bool)
  then let f := fresh_stream (t_open t) in
       (inr (Some f), put_streams ({[ f ]} ∪ t_open t) (Opened f name append) (put_fopens l t))
  else (inr None, put_fopens l t).
Definition fclose (f : option stream) : Trm unit :=
  f ← of_option Ub f;
  t ← gets (fun t : trace => t);
  if decide (f ∈ t_open t)
  then modify (put_streams (t_open t ∖ {[ f ]}) (Closed f))
  else throw Ub.
(** [fputs], [fprintf] with the text it makes, [putc] *)
Definition fputs (text : string) (f : option stream) : Trm unit :=
  f ← of_option Ub f;
  t ← gets (fun t : trace => t);
  if decide (f ∈ t_open t) then modify (put_streams (t_open t) (Printed f text)) else throw Ub.

(** A thread that locks again what it has locked, or unlocks what it has not *)
Definition g_mutex_lock : Trm unit :=
  b ← gets flom_trace_mutex; if (b : bool) then throw Ub else modify (put_mutex true).
Definition g_mutex_unlock : Trm unit :=
  b ← gets flom_trace_mutex; if (b : bool) then modify (put_mutex false) else throw Ub.

(** [gettimeofday], [localtime_r], [getpid] and [g_thread_self] *)
Definition trace_now : Trm stamp := fun t =>
  match t_stamps t with
  | [] => (inr epoch, t)
  | x :: l => (inr x, put_stamps l t)
  end.

(** [fprintf(trace_file, ...)]: the variable is read at each call. *)
Definition trace_print (text : string) : Trm unit := f ← gets trace_file; fputs text f.

(** ** [flom_trace_init], [flom_trace_reopen] *)
Definition flom_trace_init : Trm unit :=
  _ ← g_mutex_lock;
  i ← gets flom_trace_initialized;
  env ← gets t_env;
  _ ← when (negb i) (
    modify (put_init true (match env with Some s => strtoul s | None => 0 end) (Some stderr)));
  g_mutex_unlock.

Definition flom_trace_reopen (file_name : option string) (append : bool) : Trm unit :=
  match file_name with
  | Some name =>
      tmp_trace_file ← fopen name append;
      match tmp_trace_file with
      | Some f =>
          old ← gets trace_file;
          _ ← when (negb (bool_decide (old = Some stderr))) (fclose old);
          modify (put_trace_file (Some f))
      | None => mret tt
      end
  | None =>
      old ← gets trace_file;
      _ ← fclose old;
      modify (put_trace_file None)
  end.

(** ** The text of a record *)

(** ["%n.nd"]: at least [n] digits *)
Fixpoint zero_digits (n : nat) : string := match n with O => "" | S n => String "0" (zero_digits n) end.
Definition padded (n : nat) (text : string) : string := zero_digits (n - String.length text) ++ text.
Definition print_digits (n : nat) (z : Z) : string :=
  if z <? 0 then String "-" (padded n (print_dec (- z))) else padded n (print_dec z).

Definition header (x : stamp) : string :=
  print_digits 4 (tm_year x + 1900) ++ "-" ++ print_digits 2 (tm_mon x + 1) ++ "-" ++
  print_digits 2 (tm_mday x) ++ " " ++ print_digits 2 (tm_hour x) ++ ":" ++
  print_digits 2 (tm_min x) ++ ":" ++ print_digits 2 (tm_sec x) ++ "." ++
  print_digits 6 (tm_usec x) ++ " [" ++ print_dec (tr_pid x) ++ "/" ++ tr_self x ++ "] ".

(** *** [flom_trace]: the record is built in a buffer of 2000 bytes; [message] is
    what the format and its arguments give. *)
Definition trace_buffer : Z := 2000.
Definition trace_record (x : stamp) (message : string) : string :=
  let nw1 := strlen (header x) in
  if nw1 <? trace_buffer
  then header x ++ snprintf_take (trace_buffer - nw1) message
  else snprintf_take trace_buffer (header x).

Definition when_open (m : Trm unit) : Trm unit :=
  f ← gets trace_file; when (bool_decide (f <> None)) m.

Definition flom_trace (message : string) : Trm unit :=
  when_open (x ← trace_now; trace_print (trace_record x message)).

(** The macros: a call is made when the module is in the mask. *)
Definition FLOM_TRACE (module : Z) (m : Trm unit) : Trm unit :=
  mask ← gets flom_trace_mask; when (negb (Z.land module mask =? 0)) m.

(** *** Dumps of memory *)
Definition hex_digit (d : Z) : ascii :=
  if d <? 10 then digit_char d else ascii_of_nat (87 + Z.to_nat d).
(** ["%02x"] of a byte *)
Definition hex_byte (b : Z) : string :=
  String (hex_digit (b / 16)) (String (hex_digit (b mod 16)) EmptyString).

Definition under_mutex {A} (m : Trm A) : Trm A :=
  _ ← g_mutex_lock; a ← m; _ ← g_mutex_unlock; mret a.
Definition print_header (prefix : string) : Trm unit :=
  x ← trace_now; trace_print (header x ++ prefix).

Fixpoint print_all {A} (f : A -> string) (l : list A) : Trm unit :=
  match l with [] => mret tt | x :: l => _ ← trace_print (f x); print_all f l end.

Definition hex_dump (prefix : string) (data : list Z) : Trm unit :=
  under_mutex (
    _ ← print_header prefix;
    _ ← print_all (fun b => hex_byte (Z.land b 255) ++ " ") data;
    trace_print (String "010" EmptyString)).
Definition flom_trace_hex_data (prefix : string) (data : list Z) : Trm unit :=
  when_open (hex_dump prefix data).

Definition text_byte (b : Z) : string :=
  if (32 <=? b) && (b <? 128) then String (ascii_of_nat (Z.to_nat (Z.land b 255))) EmptyString
  else " ".
Definition flom_trace_text_data (prefix : string) (data : list Z) : Trm unit :=
  when_open (under_mutex (
    _ ← print_header prefix;
    _ ← print_all text_byte data;
    trace_print (String "010" EmptyString))).

(** *** Addresses *)

(** What the C library and OpenSSL print: an address of a family, an error *)
Class Printers : Type := {
  inet_ntop : Z -> list Z -> string;
  ERR_error_string : Z -> string
}.

(** [struct addrinfo], without its address; [struct sockaddr], the bytes of its
    memory; [struct ifaddrs], [None] for an interface without address *)
Record addrinfo : Type := Addrinfo {
  ai_flags : Z; ai_family : Z; ai_socktype : Z; ai_protocol : Z; ai_addrlen : Z;
  ai_canonname : option string
}.
Definition sockaddr : Type := list Z.
Record ifaddrs : Type := Ifaddrs { ifa_name : string; ifa_addr : option sockaddr }.

Definition sizeof_sockaddr_in : Z := 16.
Definition sizeof_sockaddr_in6 : Z := 28.
Definition FLOM_NULL_STRING : string := "{null}".
Definition STRORNULL (s : option string) : string := default FLOM_NULL_STRING s.

Definition addrinfo_text (p : addrinfo) : string :=
  "[ai_flags=" ++ print_dec (ai_flags p) ++ ",ai_family=" ++ print_dec (ai_family p) ++
  ",ai_socktype=" ++ print_dec (ai_socktype p) ++ ",ai_protocol=" ++ print_dec (ai_protocol p) ++
  ",ai_addrlen=" ++ print_dec (ai_addrlen p) ++ ",ai_canonname='" ++
  STRORNULL (ai_canonname p) ++ "'] ".
Definition flom_trace_addrinfo (prefix : string) (p : list addrinfo) : Trm unit :=
  when_open (under_mutex (
    _ ← print_header prefix;
    _ ← print_all addrinfo_text p;
    trace_print (String "010" EmptyString))).

(** [memcpy] of [addrlen] bytes from the memory of the address *)
Definition memcpy (addrlen : Z) (memory : list Z) : Trm (list Z) :=
  if Z.of_nat (length memory) <? addrlen then throw Ub
  else mret (take (Z.to_nat addrlen) memory).
Definition bytes (first n : nat) (l : list Z) : list Z := take n (drop first l).
(** Numbers in the order of the network and in that of the machine *)
Definition big_endian (l : list Z) : Z := fold_left (fun acc b => 256 * acc + b) l 0.
Definition little_endian (l : list Z) : Z := big_endian (rev l).
(** ["%x"] *)
Fixpoint hex_digits (fuel : nat) (n : Z) (acc : string) : string :=
  match fuel with
  | O => acc
  | S fuel => let acc := String (hex_digit (n mod 16)) acc in
              if n <? 16 then acc else hex_digits fuel (n / 16) acc
  end.
Definition print_hex (z : Z) : string := hex_digits 17 z "".

Section addresses.
Context `{Printers}.

(** What the fields of a [sockaddr_in] and of a [sockaddr_in6] say *)
Definition sin_text (sin : list Z) : string :=
  ", sin_port=" ++ print_dec (big_endian (bytes 2 2 sin)) ++
  ", sin_addr='" ++ inet_ntop AF_INET (bytes 4 4 sin) ++ "'".
Definition sin6_text (sin6 : list Z) : string :=
  ", sin6_port=" ++ print_dec (big_endian (bytes 2 2 sin6)) ++
  ", sin6_flowinfo=0x" ++ print_hex (little_endian (bytes 4 4 sin6)) ++
  ", sin6_addr='" ++ inet_ntop AF_INET6 (bytes 8 16 sin6) ++ "'" ++
  ", sin6_scope_id=" ++ print_dec (little_endian (bytes 24 4 sin6)).
Definition invalid_length (ip : string) (addrlen size : Z) : string :=
  ip ++ ", invalid length structure (" ++ print_dec addrlen ++ "/" ++ print_dec size ++ ")".

(** The address, and whether it must be dumped *)
Definition print_sockaddr (addr : sockaddr) (addrlen : Z) : Trm bool :=
  _ ← trace_print ("addrlen=" ++ print_dec addrlen ++ ";");
  family ← memcpy 2 addr;
  let sa_family := little_endian family in
  if sa_family =? AF_INET then
    if negb (sizeof_sockaddr_in =? addrlen)
    then _ ← trace_print (invalid_length " IPv4" addrlen sizeof_sockaddr_in); mret true
    else _ ← trace_print " IPv4 address";
         sin ← memcpy addrlen addr;
         _ ← trace_print (sin_text sin); mret false
  else if sa_family =? AF_INET6 then
    if negb (sizeof_sockaddr_in6 =? addrlen)
    then _ ← trace_print (invalid_length "IPv6" addrlen sizeof_sockaddr_in6); mret true
    else _ ← trace_print " IPv6 address";
         sin6 ← memcpy addrlen addr;
         _ ← trace_print (sin6_text sin6); mret false
  else
    _ ← trace_print (" unknown family, sa_family=" ++ print_dec sa_family ++
                     ", addrlen=" ++ print_dec addrlen);
    mret true.

Definition flom_trace_sockaddr (prefix : string) (addr : option sockaddr) (addrlen : Z) : Trm unit :=
  when_open (
    trace_hex ← under_mutex (
      _ ← print_header prefix;
      trace_hex ← match addr with
                  | None => _ ← trace_print (" addr is NULL" ++ String "010" EmptyString); mret false
                  | Some addr => print_sockaddr addr addrlen
                  end;
      _ ← trace_print (String "010" EmptyString);
      mret trace_hex);
    match addr with
    | Some addr => when trace_hex (data ← memcpy addrlen addr; flom_trace_hex_data prefix data)
    | None => mret tt
    end).

(** Each interface that has an address of the network, after its name *)
Definition ifaddr_prefix (prefix name : string) : string :=
  snprintf_take (strlen prefix + strlen name + 100) (prefix ++ " ifa_name='" ++ name ++ "'; ").
Fixpoint each_ifaddr (prefix : string) (l : list ifaddrs) : Trm unit :=
  match l with
  | [] => mret tt
  | ifa :: l =>
      _ ← match ifa_addr ifa with
          | None => mret tt
          | Some addr =>
              family ← memcpy 2 addr;
              let sa_family := little_endian family in
              let trace addrlen :=
                flom_trace_sockaddr (ifaddr_prefix prefix (ifa_name ifa)) (Some addr) addrlen in
              if sa_family =? AF_INET then trace sizeof_sockaddr_in
              else if sa_family =? AF_INET6 then trace sizeof_sockaddr_in6
              else mret tt
          end;
      each_ifaddr prefix l
  end.
Definition flom_trace_ifaddrs (prefix : string) (ifaddr : list ifaddrs) : Trm unit :=
  when_open (each_ifaddr prefix ifaddr).

(** *** The errors of OpenSSL *)
Definition SSL_ERROR_NONE : Z := 0.
Definition flom_trace_sslerr (prefix : string) (error : Z) : Trm unit :=
  when_open (under_mutex (
    when (negb (error =? SSL_ERROR_NONE)) (
      _ ← print_header prefix;
      trace_print (" " ++ snprintf_take 1024 (ERR_error_string error) ++ String "010" EmptyString)))).

(** ** The calls of the module, as data *)
Inductive trace_call : Type :=
| Init_trace
| Reopen (name : option string) (append : bool)
| Message (module : Z) (message : string)
| Hex_data (module : Z) (prefix : string) (data : list Z)
| Text_data (module : Z) (prefix : string) (data : list Z)
| Addresses (module : Z) (prefix : string) (l : list addrinfo)
| Interfaces (module : Z) (prefix : string) (l : list ifaddrs)
| Address (module : Z) (prefix : string) (addr : option sockaddr) (addrlen : Z)
| Ssl_error (module : Z) (prefix : string) (error : Z).

Definition run_trace (call : trace_call) : Trm unit :=
  match call with
  | Init_trace => flom_trace_init
  | Reopen name append => flom_trace_reopen name append
  | Message m x => FLOM_TRACE m (flom_trace x)
  | Hex_data m p data => FLOM_TRACE m (flom_trace_hex_data p data)
  | Text_data m p data => FLOM_TRACE m (flom_trace_text_data p data)
  | Addresses m p l => FLOM_TRACE m (flom_trace_addrinfo p l)
  | Interfaces m p l => FLOM_TRACE m (flom_trace_ifaddrs p l)
  | Address m p a n => FLOM_TRACE m (flom_trace_sockaddr p a n)
  | Ssl_error m p e => FLOM_TRACE m (flom_trace_sslerr p e)
  end.
End addresses.

(** ** The streams of the trace *)

(** What was written on a stream *)
Fixpoint printed_on (f : stream) (l : list trace_event) : string :=
  match l with
  | [] => ""
  | Printed g text :: l => if decide (g = f) then text ++ printed_on f l else printed_on f l
  | _ :: l => printed_on f l
  end.

(** The mutex is free, and the trace is on a stream that is open, with [stderr]
    and no other; before the initialisation it is closed. *)
Record trace_sound (t : trace) : Prop := Trace_sound {
  tr_free : flom_trace_mutex t = false;
  tr_start : flom_trace_initialized t = false -> trace_file t = None /\ t_open t = {[ stderr ]};
  tr_streams : forall f, trace_file t = Some f -> t_open t = {[ stderr; f ]}
}.
(** When it is closed, no other stream than [stderr] is open either. *)
Definition trace_ok (t : trace) : Prop :=
  trace_sound t /\ (trace_file t = None -> t_open t ⊆ {[ stderr ]}).

(** From [t] to [t'] only [text] was written, and the mutex is as it was. *)
Record wrote (t : trace) (text : string) (t' : trace) : Prop := Wrote_ok {
  wr_init : flom_trace_initialized t' = flom_trace_initialized t;
  wr_mask : flom_trace_mask t' = flom_trace_mask t;
  wr_file : trace_file t' = trace_file t;
  wr_mutex : flom_trace_mutex t' = flom_trace_mutex t;
  wr_open : t_open t' = t_open t;
  wr_text : forall f, trace_file t = Some f ->
    printed_on f (t_events t') = printed_on f (t_events t) ++ text
}.

(** A computation that writes on the stream and gives a result; [b] says
    whether the mutex is held. *)
Definition tells (b : bool) {A} (m : Trm A) : Prop := forall t f,
  flom_trace_mutex t = b -> trace_file t = Some f -> f ∈ t_open t ->
  wp m (fun r t' => exists a text, r = inr a /\ wrote t text t') t.
Definition writes {A} (m : Trm A) (a : A) (text : trace -> string) : Prop := forall t f,
  trace_file t = Some f -> f ∈ t_open t -> wp m (fun r t' => r = inr a /\ wrote t (text t) t') t.

Lemma printed_on_app f l l' : printed_on f (l ++ l')%list = printed_on f l ++ printed_on f l'.
Proof.
  induction l as [|[g n a|g text|g] l IH]; cbn; [done | done | | done].
  destruct (decide (g = f)); [|done]. by rewrite IH, append_assoc.
Qed.

Lemma wrote_refl t : wrote t "" t.
Proof. split; try done. intros f _. by rewrite append_nil_r. Qed.
Lemma wrote_trans t1 t2 t3 a b : wrote t1 a t2 -> wrote t2 b t3 -> wrote t1 (a ++ b) t3.
Proof.
  intros [I1 M1 F1 X1 O1 T1] [I2 M2 F2 X2 O2 T2]. split; [congruence..|].
  intros f Hf. rewrite (T2 f) by congruence. by rewrite (T1 f), append_assoc.
Qed.
Lemma wrote_stamps l t : wrote t "" (put_stamps l t).
Proof. split; try done. intros f _. cbn. by rewrite append_nil_r. Qed.

Lemma writes_ret {A} (a : A) : writes (mret a) a (fun _ => "").
Proof. intros t f _ _. wp_step. split; [done | apply wrote_refl]. Qed.
Lemma writes_bind {A B} (m : Trm A) (k : A -> Trm B) a b p q :
  writes m a p -> writes (k a) b (fun _ => q) -> writes (m ≫= k) b (fun t => p t ++ q).
Proof.
  intros Hm Hk t f Hf Ho. wp_step. eapply wp_mono; [|by eapply Hm]. intros r t1 [-> H1].
  eapply wp_mono; [|eapply Hk].
  - intros r2 t2 [-> H2]. split; [done|]. by eapply wrote_trans.
  - by rewrite (wr_file _ _ _ H1).
  - by rewrite (wr_open _ _ _ H1).
Qed.
Lemma writes_seq {A} (m : Trm unit) (k : Trm A) b p q :
  writes m tt p -> writes k b (fun _ => q) -> writes (_ ← m; k) b (fun t => p t ++ q).
Proof. intros Hm Hk. exact (writes_bind m (fun _ => k) tt b p q Hm Hk). Qed.
Lemma writes_tells {A} b (m : Trm A) a p : writes m a p -> tells b m.
Proof.
  intros Hm t f _ Hf Ho. eapply wp_mono; [|by eapply Hm]. intros r t' [-> H']. eauto.
Qed.

Lemma writes_print text : writes (trace_print text) tt (fun _ => text).
Proof.
  intros t f Hf Ho. unfold trace_print, fputs. do 2 wp_step. rewrite Hf. wp_step.
  cbn [of_option]. wp_step. do 2 wp_step. rewrite decide_True by done. wp_step. split; [done|]. split; try done.
  intros g Hg. rewrite Hf in Hg. injection Hg as <-. cbn. rewrite printed_on_app. cbn.
  by rewrite decide_True, append_nil_r.
Qed.
Lemma writes_now : forall t, wp trace_now (fun r t' => r = inr (default epoch (head (t_stamps t))) /\
  wrote t "" t') t.
Proof.
  intros t. unfold wp, trace_now. destruct (t_stamps t) as [|x l]; cbn; (split; [done|]).
  - apply wrote_refl.
  - apply wrote_stamps.
Qed.

(** A record starts with the header of the time it is written at. *)
Definition next_stamp (t : trace) : stamp := default epoch (head (t_stamps t)).
Lemma writes_stamped {A} (k : stamp -> Trm A) a p :
  (forall x, writes (k x) a (fun _ => p x)) -> writes (x ← trace_now; k x) a (fun t => p (next_stamp t)).
Proof.
  intros Hk t f Hf Ho. wp_step. eapply wp_mono; [|apply writes_now]. intros r t1 [-> H1].
  eapply wp_mono; [|eapply Hk].
  - intros r2 t2 [-> H2]. split; [done|]. exact (wrote_trans _ _ _ _ _ H1 H2).
  - by rewrite (wr_file _ _ _ H1).
  - by rewrite (wr_open _ _ _ H1).
Qed.
Lemma writes_header prefix :
  writes (print_header prefix) tt (fun t => header (next_stamp t) ++ prefix).
Proof.
  unfold print_header.
  apply (writes_stamped (fun x => trace_print (header x ++ prefix)) tt (fun x => header x ++ prefix)).
  intros x. apply writes_print.
Qed.

Fixpoint all_text {A} (f : A -> string) (l : list A) : string :=
  match l with [] => "" | x :: l => f x ++ all_text f l end.
Lemma writes_all {A} (f : A -> string) l : writes (print_all f l) tt (fun _ => all_text f l).
Proof.
  induction l as [|x l IH]; cbn [print_all all_text]; [apply writes_ret|].
  exact (writes_seq _ _ _ _ _ (writes_print (f x)) IH).
Qed.

Lemma tells_ret b {A} (a : A) : tells b (mret a).
Proof. exact (writes_tells b _ _ _ (writes_ret a)). Qed.
Lemma tells_print b text : tells b (trace_print text).
Proof. exact (writes_tells b _ _ _ (writes_print text)). Qed.
Lemma tells_header b prefix : tells b (print_header prefix).
Proof. exact (writes_tells b _ _ _ (writes_header prefix)). Qed.
Lemma tells_all b {A} (f : A -> string) l : tells b (print_all f l).
Proof. exact (writes_tells b _ _ _ (writes_all f l)). Qed.
Lemma tells_bind b {A B} (m : Trm A) (k : A -> Trm B) :
  tells b m -> (forall a, tells b (k a)) -> tells b (m ≫= k).
Proof.
  intros Hm Hk t f Hb Hf Ho. wp_step. eapply wp_mono; [|by eapply Hm].
  intros r t1 (a & x & -> & H1). eapply wp_mono; [|apply (Hk a t1 f)].
  - intros r2 t2 (a2 & y & -> & H2). exists a2, (x ++ y). split; [done | by eapply wrote_trans].
  - by rewrite (wr_mutex _ _ _ H1).
  - by rewrite (wr_file _ _ _ H1).
  - by rewrite (wr_open _ _ _ H1).
Qed.
Lemma tells_when b (c : bool) (m : Trm unit) : tells b m -> tells b (when c m).
Proof. intros Hm. destruct c; [done | apply tells_ret]. Qed.
Lemma tells_when_open b (m : Trm unit) : tells b m -> tells b (when_open m).
Proof.
  intros Hm t f Hb Hf Ho. unfold when_open. do 2 wp_step. rewrite Hf. by apply (Hm t f).
Qed.
Lemma tells_memcpy b n l : n <= Z.of_nat (length l) -> tells b (memcpy n l).
Proof. intros Hn. unfold memcpy. destruct (Z.ltb_spec (Z.of_nat (length l)) n); [lia | apply tells_ret]. Qed.

(** A record written under the mutex *)
Lemma wrote_locked t text t' :
  flom_trace_mutex t = false -> wrote (put_mutex true t) text t' -> wrote t text (put_mutex false t').
Proof. intros Hx [I M F X O T]. split; [done..| | done|exact T]. by rewrite Hx. Qed.

Lemma wp_under_mutex {A} (m : Trm A) (Q : err + A -> trace -> Prop) t :
  flom_trace_mutex t = false ->
  wp m (fun r t' => exists a text, r = inr a /\ wrote (put_mutex true t) text t' /\
    (wrote t text (put_mutex false t') -> Q (inr a) (put_mutex false t'))) (put_mutex true t) ->
  wp (under_mutex m) Q t.
Proof.
  intros Hx Hm. unfold under_mutex, g_mutex_lock. do 3 wp_step. rewrite Hx. cbn beta iota. do 2 wp_step.
  eapply wp_mono; [|exact Hm]. intros r t' (a & text & -> & Hw & HQ).
  unfold g_mutex_unlock. do 3 wp_step. rewrite (wr_mutex _ _ _ Hw). cbn [flom_trace_mutex put_mutex]. cbn beta iota. do 2 wp_step.
  apply HQ. by apply wrote_locked.
Qed.

Lemma tells_under_mutex {A} (m : Trm A) : tells true m -> tells false (under_mutex m).
Proof.
  intros Hm t f Hb Hf Ho. apply wp_under_mutex; [done|].
  eapply wp_mono; [|by apply (Hm (put_mutex true t) f)].
  intros r t' (a & text & -> & Hw). eauto 8.
Qed.

Create HintDb tells.
#[local] Hint Resolve tells_ret tells_print tells_header tells_all tells_bind tells_when
  tells_when_open tells_under_mutex tells_memcpy : tells.

(** ** The records *)

Lemma hex_data_tells prefix data : tells false (flom_trace_hex_data prefix data).
Proof. unfold flom_trace_hex_data, hex_dump. auto 8 with tells. Qed.
Lemma text_data_tells prefix data : tells false (flom_trace_text_data prefix data).
Proof. unfold flom_trace_text_data. auto 8 with tells. Qed.
Lemma addrinfo_tells prefix p : tells false (flom_trace_addrinfo prefix p).
Proof. unfold flom_trace_addrinfo. auto 8 with tells. Qed.
Lemma trace_tells message : tells false (flom_trace message).
Proof.
  unfold flom_trace. apply tells_when_open.
  apply (writes_tells false _ tt (fun t => trace_record (next_stamp t) message)).
  apply (writes_stamped (fun x => trace_print (trace_record x message)) tt
           (fun x => trace_record x message)).
  intros x. apply writes_print.
Qed.

Section calls.
Context `{Printers}.

(** The memory of an address is as long as it is said to be. *)
Definition whole (addr : sockaddr) (addrlen : Z) : Prop := 2 <= addrlen <= Z.of_nat (length addr).
Definition whole_of_family (addr : sockaddr) : Prop :=
  2 <= Z.of_nat (length addr) /\
  let sa_family := little_endian (take 2 addr) in
  (sa_family = AF_INET -> whole addr sizeof_sockaddr_in) /\
  (sa_family = AF_INET6 -> whole addr sizeof_sockaddr_in6).

Lemma print_sockaddr_tells addr addrlen : whole addr addrlen -> tells true (print_sockaddr addr addrlen).
Proof.
  intros [H1 H2]. unfold print_sockaddr. apply tells_bind; [auto with tells|]. intros _.
  apply tells_bind; [apply tells_memcpy; lia|]. intros family.
  repeat case_match; auto 8 with tells.
Qed.
Lemma sockaddr_tells prefix addr addrlen :
  match addr with Some addr => whole addr addrlen | None => True end ->
  tells false (flom_trace_sockaddr prefix addr addrlen).
Proof.
  intros Ha. unfold flom_trace_sockaddr. apply tells_when_open. apply tells_bind.
  - apply tells_under_mutex. apply tells_bind; [auto with tells|]. intros _.
    apply tells_bind; [|auto with tells].
    destruct addr as [addr|]; [by apply print_sockaddr_tells | auto with tells].
  - intros hex. destruct addr as [addr|]; [|apply tells_ret]. apply tells_when.
    apply tells_bind; [apply tells_memcpy, Ha | intros; apply hex_data_tells].
Qed.
Lemma ifaddrs_tells prefix l :
  Forall (fun ifa => match ifa_addr ifa with Some a => whole_of_family a | None => True end) l ->
  tells false (flom_trace_ifaddrs prefix l).
Proof.
  intros Hl. apply tells_when_open. induction Hl as [|ifa l Ha _ IH]; [apply tells_ret|].
  cbn [each_ifaddr]. apply tells_bind; [|done]. destruct (ifa_addr ifa) as [a|]; [|apply tells_ret].
  destruct Ha as (Hl & H4 & H6).
  assert (E : memcpy 2 a = mret (take 2 a)).
  { unfold memcpy. destruct (Z.ltb_spec (Z.of_nat (length a)) 2); [lia | done]. }
  rewrite E. unfold mbind, M_bind, mret, M_ret. cbn beta iota.
  destruct (Z.eqb_spec (little_endian (take 2 a)) AF_INET) as [E4|]; [by apply sockaddr_tells, H4|].
  destruct (Z.eqb_spec (little_endian (take 2 a)) AF_INET6) as [E6|];
    [by apply sockaddr_tells, H6 | apply tells_ret].
Qed.
Lemma sslerr_tells prefix e : tells false (flom_trace_sslerr prefix e).
Proof. unfold flom_trace_sslerr. auto 8 with tells. Qed.

(** *** Every call *)
Definition valid_trace (t : trace) (call : trace_call) : Prop :=
  match call with
  | Reopen _ _ => trace_file t <> None
  | Interfaces _ _ l =>
      Forall (fun ifa => match ifa_addr ifa with Some a => whole_of_family a | None => True end) l
  | Address _ _ (Some addr) addrlen => whole addr addrlen
  | _ => True
  end.

Lemma fresh_stream_fresh o : fresh_stream o ∉ o.
Proof.
  assert (Hm : forall f, f ∈ elements o -> (f <= foldr Pos.max stderr (elements o))%positive).
  { induction (elements o) as [|x l IH]; intros f; [by rewrite elem_of_nil|].
    cbn. rewrite elem_of_cons. intros [->|Hf]; [lia|]. specialize (IH f Hf). lia. }
  intros Hf. rewrite <- elem_of_elements in Hf. apply Hm in Hf. unfold fresh_stream in Hf. lia.
Qed.

(** The streams before and after a change of file *)
Lemma streams_first (f e : stream) : {[ f ]} ∪ ({[ e; e ]} : gset stream) = {[ e; f ]}.
Proof. set_solver. Qed.
Lemma streams_next (f e old : stream) :
  f ∉ ({[ e; old ]} : gset stream) -> old <> e ->
  ({[ f ]} ∪ ({[ e; old ]} : gset stream)) ∖ {[ old ]} = {[ e; f ]}.
Proof. set_solver. Qed.
Lemma streams_stderr (e : stream) : ({[ e ]} : gset stream) = {[ e; e ]}.
Proof. set_solver. Qed.
Lemma streams_last (e old : stream) : ({[ e; old ]} : gset stream) ∖ {[ old ]} ⊆ {[ e ]}.
Proof. set_solver. Qed.

Lemma trace_ok_open t f : trace_sound t -> trace_file t = Some f -> f ∈ t_open t.
Proof. intros [_ _ Hs] Hf. rewrite (Hs f Hf). apply elem_of_union_r, elem_of_singleton_2. done. Qed.

Lemma wrote_sound t text t' : wrote t text t' -> trace_sound t -> trace_sound t'.
Proof. intros [I M F X O _] [Hx Hi Hs]. split; rewrite ?F, ?O; [congruence | rewrite I; apply Hi | done]. Qed.

Lemma wp_fopen name append (Q : err + option stream -> trace -> Prop) t :
  (forall l, Q (inr None) (put_fopens l t)) ->
  (forall l f, f ∉ t_open t ->
     Q (inr (Some f)) (put_streams ({[ f ]} ∪ t_open t) (Opened f name append) (put_fopens l t))) ->
  wp (fopen name append) Q t.
Proof.
  intros H1 H2. assert (Hf := fresh_stream_fresh (t_open t)). unfold wp, fopen.
  destruct (t_fopens t) as [|[] l]; cbn; [by apply H2 | by apply H2 | apply H1].
Qed.
Lemma wp_fclose f (Q : err + unit -> trace -> Prop) t :
  f ∈ t_open t -> Q (inr tt) (put_streams (t_open t ∖ {[ f ]}) (Closed f) t) -> wp (fclose (Some f)) Q t.
Proof.
  intros Hf HQ. unfold fclose. wp_step. cbn [of_option]. do 3 wp_step.
  rewrite decide_True by done. by wp_step.
Qed.

(** Opening a trace that is open again, and one that is closed *)
Lemma wp_trace_reopen name append t :
  trace_sound t -> trace_file t <> None ->
  wp (flom_trace_reopen name append) (fun r t' => r = inr tt /\ trace_ok t' /\
    flom_trace_initialized t' = true /\ (name <> None -> trace_file t' <> None)) t.
Proof.
  intros [Hx Hi Hs] Hn. destruct (trace_file t) as [old|] eqn:Eo; [clear Hn | done].
  specialize (Hs old eq_refl). assert (Hi' : flom_trace_initialized t = true).
  { destruct (flom_trace_initialized t); [done|]. by destruct (Hi eq_refl) as [? _]; congruence. }
  unfold flom_trace_reopen. destruct name as [name|].
  - wp_step. apply wp_fopen; [intros l | intros l f Hf].
    + cbn beta iota. wp_step. split_and!; [done| |done|cbn; congruence].
      split; [split|]; cbn; rewrite ?Eo; [done | congruence | by intros f [= <-] | done].
    + cbn beta iota. do 2 wp_step. cbn [trace_file put_streams put_fopens]. rewrite Eo. wp_step.
      case_bool_decide as E; cbn [negb when].
      * injection E as ->. do 2 wp_step. split_and!; [done| |done|done].
        split; [|done]. split; cbn; [done | congruence|]. intros f' [= <-]. rewrite Hs. apply streams_first.
      * apply wp_fclose; [cbn; rewrite Hs; by apply elem_of_union_r, elem_of_union_r, elem_of_singleton_2|].
        wp_step. split_and!; [done| |done|done]. split; [|done]. split; cbn; [done | congruence|].
        intros f' [= <-]. rewrite Hs in Hf |- *. apply streams_next; [done | congruence].
  - do 2 wp_step. rewrite Eo. wp_step.
    apply wp_fclose; [rewrite Hs; by apply elem_of_union_r, elem_of_singleton_2|]. wp_step.
    split_and!; [done| |done|done]. split; [split; cbn; [done | congruence | done]|].
    intros _. cbn. rewrite Hs. apply streams_last.
Qed.

Lemma wp_reopen_any name append t :
  trace_sound t -> flom_trace_initialized t = true ->
  wp (flom_trace_reopen name append) (fun r t' => trace_sound t' /\ flom_trace_initialized t' = true /\
    (trace_file t <> None -> r = inr tt)) t.
Proof.
  intros Ht Hi. destruct (trace_file t) as [old|] eqn:Ef.
  - eapply wp_mono; [|apply wp_trace_reopen; [done | congruence]]. by intros r t' (-> & [Ht' _] & ? & ?).
  - destruct Ht as [Hx _ _].
    assert (Hs : forall t', flom_trace_mutex t' = false -> flom_trace_initialized t' = true ->
      trace_file t' = None -> trace_sound t') by (intros t' ???; split; [done | congruence | congruence]).
    unfold flom_trace_reopen. destruct name as [name|].
    + wp_step. apply wp_fopen; [intros l | intros l f _]; cbn beta iota.
      * wp_step. split_and!; [by apply Hs | done | done].
      * do 2 wp_step. cbn [trace_file put_streams put_fopens]. rewrite Ef. wp_step.
        rewrite bool_decide_eq_false_2 by done. cbn [negb when]. unfold fclose. wp_step.
        cbn [of_option]. wp_step. split_and!; [by apply Hs | done | done].
    + do 2 wp_step. rewrite Ef. wp_step. unfold fclose. wp_step. cbn [of_option]. wp_step.
      split_and!; [by apply Hs | done | done].
Qed.

Lemma wp_trace_init t :
  trace_sound t -> wp flom_trace_init (fun r t' => r = inr tt /\ trace_sound t' /\
    flom_trace_initialized t' = true /\
    (flom_trace_initialized t = false \/ trace_file t <> None -> trace_file t' <> None) /\
    (trace_file t' = None -> t_open t' = t_open t)) t.
Proof.
  intros [Hx Hi Hs]. unfold flom_trace_init, g_mutex_lock. do 3 wp_step. rewrite Hx. cbn beta iota.
  do 6 wp_step. destruct (flom_trace_initialized t) eqn:E; cbn [flom_trace_initialized put_mutex negb when];
    rewrite E; cbn [negb when]; wp_step; unfold g_mutex_unlock; do 2 wp_step;
    cbn [flom_trace_mutex put_mutex put_init]; cbn beta iota; wp_step; (split_and!; [done| | | |]).
  - split; cbn; [done | congruence | done].
  - done.
  - intros [?|?]; done.
  - done.
  - split; cbn; [done | done|]. intros f [= <-]. destruct (Hi eq_refl) as [_ ->]. apply streams_stderr.
  - done.
  - done.
  - done.
Qed.

(** A record when the trace is closed, or when its module is not traced *)
Lemma closed_silent (m : Trm unit) t : trace_file t = None -> when_open m t = (inr tt, t).
Proof. intros Hf. unfold when_open, mbind, M_bind, gets. cbn. by rewrite Hf. Qed.

Lemma tells_call_ok module (m : Trm unit) t :
  trace_ok t -> (exists m', m = when_open m') -> tells false m ->
  wp (FLOM_TRACE module m) (fun r t' => r = inr tt /\ trace_ok t' /\ trace_file t' = trace_file t) t.
Proof.
  intros Hok [m' ->] Hm. assert (Ht := proj1 Hok). unfold FLOM_TRACE. do 2 wp_step. wp_step; [|by split].
  destruct (trace_file t) as [f|] eqn:Ef.
  - assert (Ho := trace_ok_open t f Ht Ef). eapply wp_mono; [|apply (Hm t f (tr_free t Ht) Ef Ho)].
    intros r t' ([] & text & -> & Hw). assert (Ef' : trace_file t' = Some f) by (rewrite <- Ef; apply Hw).
    split_and!; [done | | done]. split; [by eapply wrote_sound | congruence].
  - unfold wp. rewrite closed_silent by done. by split.
Qed.

Lemma run_trace_ok call t :
  trace_ok t -> valid_trace t call ->
  wp (run_trace call) (fun r t' => r = inr tt /\ trace_ok t') t.
Proof.
  assert (Hrec : forall module m, trace_ok t -> (exists m', m = when_open m') -> tells false m ->
    wp (FLOM_TRACE module m) (fun r t' => r = inr tt /\ trace_ok t') t).
  { intros module m Ht Hw Hm. eapply wp_mono; [|by apply tells_call_ok]. by intros r t' (? & ? & ?). }
  destruct call; cbn [run_trace valid_trace]; intros Ht Hv;
    [ | | apply Hrec; [done | by eexists|]..].
  - destruct Ht as [Ht Hc]. eapply wp_mono; [|by apply wp_trace_init].
    intros r t' (? & ? & _ & Hn & Ho). split; [done|]. split; [done|]. intros E. rewrite (Ho E). apply Hc.
    destruct (trace_file t); [|done]. exfalso. apply Hn; [by right | done].
  - eapply wp_mono; [|by apply wp_trace_reopen; [apply Ht|]]. by intros r t' (? & ? & ?).
  - apply trace_tells.
  - apply hex_data_tells.
  - apply text_data_tells.
  - apply addrinfo_tells.
  - by apply ifaddrs_tells.
  - by apply sockaddr_tells.
  - apply sslerr_tells.
Qed.

Inductive trace_step (t t' : trace) : Prop :=
| Trace_step call r (Hvalid : valid_trace t call) (Hrun : run_trace call t = (r, t')).

(** ** Theorems *)

(** safety.  In any sequence of calls of the module, whatever [fopen] answers, a
    record or a new file for an open trace never touches a stream that is
    not open, nor a mutex that is held; after it the mutex is free, the
    trace is closed or on an open stream, and no other stream but [stderr] is
    left open. *)
Theorem trace_streams_owned env t call :
  rtc trace_step (no_trace env) t -> valid_trace t call ->
  (run_trace call t).1 = inr tt /\ trace_ok (run_trace call t).2.
Proof.
  intros Hr Hv. assert (Ht : trace_ok t).
  { assert (H0 : trace_ok (no_trace env)) by (split; [by split | done]).
    clear Hv. revert H0. induction Hr as [|t t1 t2 [call' r Hv Hrun] _ IH]; intros Ht; [done|].
    apply IH. destruct (run_trace_ok call' t Ht Hv) as (_ & Hok). by rewrite Hrun in Hok. }
  destruct (run_trace_ok call t Ht Hv) as (Hr' & Hok). by split.
Qed.

(** functional.  What a record is: the header, then the message as far as it
    goes in the buffer; a dump is the header, the prefix and each byte. *)
Theorem trace_record_written t f message prefix data :
  trace_sound t -> trace_file t = Some f ->
  printed_on f (t_events (flom_trace message t).2) =
    printed_on f (t_events t) ++ trace_record (next_stamp t) message /\
  printed_on f (t_events (flom_trace_hex_data prefix data t).2) =
    printed_on f (t_events t) ++ header (next_stamp t) ++ prefix ++
      all_text (fun b => hex_byte (Z.land b 255) ++ " ") data ++ String "010" EmptyString /\
  printed_on f (t_events (flom_trace_text_data prefix data t).2) =
    printed_on f (t_events t) ++ header (next_stamp t) ++ prefix ++
      all_text text_byte data ++ String "010" EmptyString.
Proof.
  intros Ht Hf. assert (Ho := trace_ok_open t f Ht Hf).
  assert (Hdump : forall g : Z -> string,
    wp (when_open (under_mutex (_ ← print_header prefix; _ ← print_all g data;
                                trace_print (String "010" EmptyString))))
      (fun _ t' => printed_on f (t_events t') = printed_on f (t_events t) ++
         header (next_stamp t) ++ prefix ++ all_text g data ++ String "010" EmptyString) t).
  { intros g. unfold when_open. do 2 wp_step. rewrite Hf. cbn [when]. 
    rewrite bool_decide_eq_true_2 by done. cbn [when].
    apply wp_under_mutex; [apply Ht|].
    assert (Hw := writes_seq _ _ _ _ _ (writes_header prefix)
      (writes_seq _ _ _ _ _ (writes_all g data) (writes_print (String "010" EmptyString)))).
    eapply wp_mono; [|apply (Hw (put_mutex true t) f Hf Ho)]. intros r t' [-> H1].
    exists tt. eexists. split_and!; [done | exact H1|]. intros H2.
    rewrite (wr_text _ _ _ H2 f Hf). f_equal. exact (append_assoc _ _ _). }
  split_and!; [| by apply Hdump | by apply Hdump].
  unfold flom_trace. change (wp (when_open (x ← trace_now; trace_print (trace_record x message)))
    (fun _ t' => printed_on f (t_events t') = printed_on f (t_events t) ++
       trace_record (next_stamp t) message) t).
  unfold when_open. do 2 wp_step. rewrite Hf. rewrite bool_decide_eq_true_2 by done. cbn [when].
  assert (Hw := writes_stamped (fun x => trace_print (trace_record x message)) tt
    (fun x => trace_record x message) (fun x => writes_print (trace_record x message))).
  eapply wp_mono; [|exact (Hw t f Hf Ho)]. intros r t' [_ H1]. apply (wr_text _ _ _ H1 f Hf).
Qed.
End calls.

(** bounds.  A record and its terminator are within the buffer; a message that
    fits is not truncated. *)
Theorem trace_record_bounded x message :
  strlen (trace_record x message) < trace_buffer /\
  (strlen (header x) + strlen message < trace_buffer -> trace_record x message = header x ++ message).
Proof.
  unfold trace_record, snprintf_take, strlen, trace_buffer. split.
  - destruct (Z.ltb_spec (Z.of_nat (String.length (header x))) 2000).
    + rewrite append_length, length_substring. lia.
    + rewrite length_substring. lia.
  - intros Hl. destruct (Z.ltb_spec (Z.of_nat (String.length (header x))) 2000); [|lia].
    by rewrite substring_all by lia.
Qed.

(** ** Reading a dump back *)
Fixpoint read_hex (s : string) : list Z :=
  match s with
  | String a (String b (String _ s)) =>
      match hex_value a, hex_value b with
      | Some x, Some y => 16 * x + y :: read_hex s
      | _, _ => []
      end
  | _ => []
  end.

Lemma hex_value_digit d : 0 <= d < 16 -> hex_value (hex_digit d) = Some d.
Proof.
  intros Hd. assert (Hc : forallb (fun n => bool_decide (hex_value (hex_digit (Z.of_nat n)) = Some (Z.of_nat n)))
    (seq 0 16) = true) by (vm_compute; reflexivity).
  rewrite forallb_forall in Hc. specialize (Hc (Z.to_nat d)). rewrite Z2Nat.id in Hc by lia.
  assert (Hin : In (Z.to_nat d) (seq 0 16)) by (apply in_seq; lia).
  exact (bool_decide_eq_true_1 _ (Hc Hin)).
Qed.

(** roundtrip.  The dump of bytes tells them. *)
Theorem hex_data_read_back data :
  Forall (fun b => 0 <= b < 256) data ->
  read_hex (all_text (fun b => hex_byte (Z.land b 255) ++ " ") data) = data.
Proof.
  induction 1 as [|b data Hb _ IH]; [done|]. cbn [all_text]. unfold hex_byte.
  change 255 with (Z.ones 8). rewrite Z.land_ones by lia. change (2 ^ 8) with 256.
  rewrite (Z.mod_small b 256) by lia.
  change (read_hex _) with
    (match hex_value (hex_digit (b / 16)), hex_value (hex_digit (b mod 16)) with
     | Some x, Some y => 16 * x + y :: read_hex (all_text (fun b => hex_byte (Z.land b 255) ++ " ") data)
     | _, _ => []
     end).
  rewrite !hex_value_digit, IH; [|apply Z.mod_pos_bound; lia|].
  - f_equal. pose proof (Z.div_mod b 16). lia.
  - split; [apply Z.div_pos; lia | apply Z.div_lt_upper_bound; lia].
Qed.

(** ** Concrete traces *)
#[local] Instance demo_printers : Printers := {|
  inet_ntop := fun _ l => match l with [a; b; c; d] => print_dec a ++ "." ++ print_dec b ++ "." ++
                            print_dec c ++ "." ++ print_dec d | _ => "::" end;
  ERR_error_string := fun e => "error:" ++ print_hex e
|}.

Definition demo_stamp : stamp := Stamp 124 1 29 7 5 0 42 321 "0x7f00".
(** The trace after its initialisation with a mask *)
Definition demo_trace : trace :=
  (run_trace Init_trace (put_stamps [demo_stamp; demo_stamp] (no_trace (Some "0x80")))).2.

(** A message of one module is written, that of another is not. *)
Example demo_record :
  printed_on stderr (t_events (run_trace (Message FLOM_TRACE_MOD_MSG "hello") demo_trace).2) =
    "2024-02-29 07:05:00.000042 [321/0x7f00] hello" /\
  t_events (run_trace (Message FLOM_TRACE_MOD_TLS "hello") demo_trace).2 = [].
Proof. vm_compute. done. Qed.
Example demo_dump :
  printed_on stderr (t_events (run_trace (Hex_data FLOM_TRACE_MOD_MSG "data: " [0; 171; 16]) demo_trace).2) =
    "2024-02-29 07:05:00.000042 [321/0x7f00] data: 00 ab 10 " ++ String "010" EmptyString.
Proof. vm_compute. done. Qed.
Example demo_address :
  printed_on stderr (t_events (run_trace (Address FLOM_TRACE_MOD_MSG "a: "
    (Some [2; 0; 31; 144; 127; 0; 0; 1; 0; 0; 0; 0; 0; 0; 0; 0]) 16) demo_trace).2) =
    "2024-02-29 07:05:00.000042 [321/0x7f00] a: addrlen=16; IPv4 address, sin_port=8080, sin_addr='127.0.0.1'"
    ++ String "010" EmptyString.
Proof. vm_compute. done. Qed.
Example demo_masks :
  map strtoul ["0x1F"; "017"; " 12z"; "-1"; "0xg"; "99999999999999999999"] =
    [31; 15; 12; 18446744073709551615; 0; ULONG_MAX].
Proof. vm_compute. done. Qed.

(** The calls [l], then the last *)
Fixpoint run_traces (l : list trace_call) (t : trace) : trace :=
  match l with [] => t | call :: l => run_traces l (run_trace call t).2 end.

(** A trace on a file that can be opened, then on one that cannot *)
Definition demo_files : trace := put_fopens [true; false] demo_trace.
Lemma trace_streams_owned_witness :
  let t := run_traces [Init_trace] (no_trace None) in
  (run_trace (Reopen (Some "/tmp/flom.trace") true) t).1 = inr tt /\
  trace_ok (run_trace (Reopen (Some "/tmp/flom.trace") true) t).2.
Proof.
  refine (@trace_streams_owned demo_printers None (run_traces [Init_trace] (no_trace None))
    (Reopen (Some "/tmp/flom.trace") true) _ _).
  - eapply rtc_l; [|apply rtc_refl]. refine (@Trace_step demo_printers _ _ Init_trace (inr tt) I _).
    vm_compute. reflexivity.
  - vm_compute. discriminate.
Defined.
Example demo_reopened :
  let t := run_traces [Reopen (Some "a") false; Reopen (Some "b") false] demo_files in
  (trace_file t, elements (t_open t), t_events t) = (Some 2%positive, [2; 1]%positive, [Opened 2%positive "a" false]).
Proof. vm_compute. done. Qed.

Lemma demo_trace_ok : trace_sound demo_trace.
Proof. split; [done | discriminate | intros f [= <-]; vm_compute; done]. Qed.
Lemma trace_record_written_witness :
  printed_on stderr (t_events (flom_trace "hello" demo_trace).2) =
    printed_on stderr (t_events demo_trace) ++ trace_record (next_stamp demo_trace) "hello".
Proof.
  exact (proj1 (@trace_record_written demo_trace stderr "hello" "" [] demo_trace_ok eq_refl)).
Defined.
Lemma hex_data_read_back_witness :
  read_hex (all_text (fun b => hex_byte (Z.land b 255) ++ " ") [0; 255; 16]) = [0; 255; 16].
Proof. refine (@hex_data_read_back [0; 255; 16] _). repeat constructor; lia. Defined.

(** The name NULL closes the trace, and with it [stderr] when nothing else was
    opened; whatever is asked for next closes a stream that is not there. *)
Theorem trace_cannot_be_reopened :
  let t := (run_trace (Reopen None false) demo_trace).2 in
  trace_file t = None /\ elements (t_open t) = [] /\
  (run_trace (Reopen None false) t).1 = inl Ub /\
  (run_trace (Reopen (Some "/tmp/flom.trace") false) t).1 = inl Ub.
Proof. vm_compute. done. Qed.

(** A name before the initialisation does the same. *)
Theorem trace_reopened_too_early :
  (run_trace (Reopen (Some "/tmp/flom.trace") false) (no_trace None)).1 = inl Ub.
Proof. vm_compute. done. Qed.

(** The mutex does not guard the change of file: a thread that has seen the trace
    open, and then dumps, finds it closed by another. *)
Theorem trace_closed_under_a_dump :
  let t := (run_trace (Reopen None false) demo_trace).2 in
  bool_decide (trace_file demo_trace <> None) = true /\
  (hex_dump "data: " [1] t).1 = inl Ub.
Proof. vm_compute. done. Qed.

(** A message longer than the buffer loses its end, the end of the line with it. *)
Theorem trace_long_message_cut (message := zero_digits 2000 ++ String "010" EmptyString) :
  strlen (trace_record demo_stamp message) = 1999 /\
  String.get 1998 (trace_record demo_stamp message) = Some "0"%char.
Proof. vm_compute. done. Qed.
