(* ===== verification/Config.v ===== *)
(** * Config: the configuration objects

    [src/src/flom_config.c] and the accessors of [src/src/flom_config.h]: the
    global configuration of the process, the copies the handles have, and the
    strings they point to.  A string lives in a heap, since a copy of a
    configuration can share it with the original; reading or freeing one that
    has been freed is undefined. *)
From Stdlib Require Import ZArith String Ascii List Lia.
From stdpp Require Import base list gmap numbers strings.
From S2P Require Import Prelude Types CStr RsrcName Msg Vfs World.
Local Open Scope string_scope.
Local Open Scope Z_scope.

(** ** Data *)
Definition LOCAL_SOCKET_SIZE : Z := 108.
Definition FLOM_NETWORK_WAIT_TIMEOUT : Z := -1.

(** The members of [flom_config_t] that point to a string, and the others but
    [ignored_signals] *)
Inductive string_member : Type :=
| socket_name | daemon_trace_file | command_trace_file | resource_name | unicast_address
| multicast_address | mount_point_vfs | network_interface | tls_certificate | tls_private_key
| tls_ca_certificate.
Inductive int_member : Type :=
| append_trace_file | verbose | daemon_lifespan | resource_transactional | resource_create
| resource_idle_lifespan | resource_timeout | resource_quantity | config_lock_mode
| unicast_port | multicast_port | sin6_scope_id | discovery_attempts | discovery_timeout
| discovery_ttl | tcp_keepalive_time | tcp_keepalive_intvl | tcp_keepalive_probes
| tls_check_peer_id.

#[global] Instance string_member_eq_dec : EqDecision string_member.
Proof. solve_decision. Defined.
#[global] Instance int_member_eq_dec : EqDecision int_member.
Proof. solve_decision. Defined.

(** A pointer to a string; [None] is NULL *)
Definition sptr : Type := option positive.

Record flom_config : Type := Config {
  strs : string_member -> sptr;
  ints : int_member -> Z;
  ignored_signals : list Z
}.

Definition set_str (f : string_member) (p : sptr) (c : flom_config) : flom_config :=
  Config (fun g => if decide (g = f) then p else strs c g) (ints c) (ignored_signals c).
Definition set_int (f : int_member) (v : Z) (c : flom_config) : flom_config :=
  Config (strs c) (fun g => if decide (g = f) then v else ints c g) (ignored_signals c).
Definition set_signals (l : list Z) (c : flom_config) : flom_config :=
  Config (strs c) (ints c) l.

(** The strings that are allocated, the next address, the global object and
    the others; [None] is the NULL that stands for the global one. *)
Definition config_ref : Type := option positive.
Record configs : Type := Configs {
  g_heap : gmap positive string;
  g_next : positive;
  global_config : flom_config;
  g_configs : gmap positive flom_config
}.

Definition set_heap (h : gmap positive string) (n : positive) (s : configs) : configs :=
  Configs h n (global_config s) (g_configs s).
Definition put_flom_config (r : config_ref) (c : flom_config) (s : configs) : configs :=
  match r with
  | None => Configs (g_heap s) (g_next s) c (g_configs s)
  | Some p => Configs (g_heap s) (g_next s) (global_config s) (<[p := c]> (g_configs s))
  end.

Definition Gm (A : Type) : Type := M err configs A.

(** ** Strings *)

(** [g_strdup] of a string, which ends the process without memory, and of NULL *)
Definition g_strdup (o : option string) : Gm sptr := fun s =>
  match o with
  | None => (inr None, s)
  | Some x => (inr (Some (g_next s)),
               set_heap (<[g_next s := x]> (g_heap s)) (Pos.succ (g_next s)) s)
  end.

Definition g_free (p : sptr) : Gm unit := fun s =>
  match p with
  | None => (inr tt, s)
  | Some l =>
      match g_heap s !! l with
      | Some _ => (inr tt, set_heap (delete l (g_heap s)) (g_next s) s)
      | None => (inl Ub, s)
      end
  end.

Definition c_str (p : sptr) : Gm (option string) := fun s =>
  match p with
  | None => (inr None, s)
  | Some l =>
      match g_heap s !! l with
      | Some x => (inr (Some x), s)
      | None => (inl Ub, s)
      end
  end.

(** ** Members *)
Definition the_config (r : config_ref) : Gm flom_config :=
  s ← gets (fun s : configs => s);
  of_option Ub (match r with None => Some (global_config s) | Some p => g_configs s !! p end).

Definition get_int (f : int_member) (r : config_ref) : Gm Z :=
  c ← the_config r; mret (ints c f).
Definition get_str (f : string_member) (r : config_ref) : Gm (option string) :=
  c ← the_config r; c_str (strs c f).
Definition put_int (f : int_member) (r : config_ref) (v : Z) : Gm unit :=
  c ← the_config r; modify (put_flom_config r (set_int f v c)).

(** Most setters free the old string and keep a copy of the new one. *)
Definition put_str (f : string_member) (r : config_ref) (v : option string) : Gm unit :=
  c ← the_config r;
  _ ← g_free (strs c f);
  p ← g_strdup v;
  modify (put_flom_config r (set_str f p c)).

(** The negation of an [int] *)
Definition absolute (v : Z) : Gm Z :=
  if v <? 0 then if v =? -2147483648 then throw Ub else mret (- v) else mret v.

Definition flom_config_get_socket_name := get_str socket_name.
Definition flom_config_get_command_trace_file := get_str command_trace_file.
Definition flom_config_get_lifespan := get_int daemon_lifespan.
Definition flom_config_get_resource_name := get_str resource_name.
Definition flom_config_get_resource_create := get_int resource_create.
Definition flom_config_get_resource_timeout := get_int resource_timeout.
Definition flom_config_get_resource_quantity := get_int resource_quantity.
Definition flom_config_get_lock_mode := get_int config_lock_mode.
Definition flom_config_get_resource_idle_lifespan := get_int resource_idle_lifespan.
Definition flom_config_get_unicast_address := get_str unicast_address.
Definition flom_config_get_unicast_port := get_int unicast_port.
Definition flom_config_get_multicast_address := get_str multicast_address.
Definition flom_config_get_multicast_port := get_int multicast_port.
Definition flom_config_get_network_interface := get_str network_interface.
Definition flom_config_get_discovery_attempts := get_int discovery_attempts.
Definition flom_config_get_discovery_timeout := get_int discovery_timeout.
Definition flom_config_get_discovery_ttl := get_int discovery_ttl.
Definition flom_config_get_tls_certificate := get_str tls_certificate.
Definition flom_config_get_tls_private_key := get_str tls_private_key.
Definition flom_config_get_tls_ca_certificate := get_str tls_ca_certificate.
Definition flom_config_get_tls_check_peer_id := get_int tls_check_peer_id.

(** ** Setters *)
Definition flom_config_set_lifespan := put_int daemon_lifespan.
Definition flom_config_set_append_trace_file := put_int append_trace_file.
Definition flom_config_set_verbose := put_int verbose.
Definition flom_config_set_resource_create := put_int resource_create.
Definition flom_config_set_resource_timeout := put_int resource_timeout.
Definition flom_config_set_lock_mode := put_int config_lock_mode.
Definition flom_config_set_tls_check_peer_id := put_int tls_check_peer_id.
Definition flom_config_set_daemon_trace_file := put_str daemon_trace_file.
Definition flom_config_set_command_trace_file := put_str command_trace_file.
Definition flom_config_set_unicast_address := put_str unicast_address.
Definition flom_config_set_multicast_address := put_str multicast_address.

Definition flom_config_set_resource_quantity (r : config_ref) (value : Z) : Gm unit :=
  value ← absolute value;
  when (negb (value =? 0)) (put_int resource_quantity r value).
Definition flom_config_set_resource_idle_lifespan (r : config_ref) (value : Z) : Gm unit :=
  value ← absolute value;
  when (negb (value =? 0)) (put_int resource_idle_lifespan r value).
Definition flom_config_set_unicast_port (r : config_ref) (port : Z) : Gm unit :=
  port ← absolute port; put_int unicast_port r port.
Definition flom_config_set_multicast_port (r : config_ref) (port : Z) : Gm unit :=
  port ← absolute port; put_int multicast_port r port.
Definition flom_config_set_discovery_attempts (r : config_ref) (attempts : Z) : Gm unit :=
  attempts ← absolute attempts;
  put_int discovery_attempts r (if attempts =? 0 then 1 else attempts).
Definition flom_config_set_discovery_timeout (r : config_ref) (timeout : Z) : Gm unit :=
  timeout ← absolute timeout; put_int discovery_timeout r timeout.
Definition flom_config_set_discovery_ttl (r : config_ref) (ttl : Z) : Gm unit :=
  ttl ← absolute ttl; put_int discovery_ttl r (if ttl =? 0 then 1 else ttl).
Definition flom_config_set_tcp_keepalive_time (r : config_ref) (value : Z) : Gm unit :=
  value ← absolute value; put_int tcp_keepalive_time r value.
Definition flom_config_set_tcp_keepalive_intvl (r : config_ref) (value : Z) : Gm unit :=
  value ← absolute value; put_int tcp_keepalive_intvl r value.
Definition flom_config_set_tcp_keepalive_probes (r : config_ref) (value : Z) : Gm unit :=
  value ← absolute value; put_int tcp_keepalive_probes r value.

(** [flom_config_set_socket_name]: the reason code *)
Definition flom_config_set_socket_name (r : config_ref) (value : option string) : Gm Z :=
  match value with
  | Some x => if LOCAL_SOCKET_SIZE <=? strlen x then mret FLOM_RC_BUFFER_OVERFLOW
              else _ ← put_str socket_name r value; mret FLOM_RC_OK
  | None => _ ← put_str socket_name r value; mret FLOM_RC_OK
  end.

(** [flom_config_set_resource_name].  The comparison with the reserved name is
    of all its bytes, the final one included. *)
Definition flom_config_set_resource_name (r : config_ref) (value : option string) : Gm Z :=
  name ← of_option Ub value;
  ret_cod ← (if String.eqb name DEFAULT_RESOURCE_NAME then mret FLOM_RC_INVALID_RESOURCE_NAME
             else if bool_decide (flom_rsrc_get_type name = FLOM_RSRC_TYPE_NULL)
             then mret FLOM_RC_INVALID_RESOURCE_NAME
             else _ ← put_str resource_name r value; mret FLOM_RC_OK);
  _ ← put_int resource_transactional r (if flom_rsrc_get_transactional name then 1 else 0);
  mret ret_cod.

(** *** Signals *)
Definition SIGNAL_STRING_ARRAY : list string :=
  [""; "SIGHUP"; "SIGINT"; "SIGQUIT"; "SIGILL"; "SIGTRAP"; "SIGABRT"; "SIGBUS"; "SIGFPE";
   "SIGKILL"; "SIGUSR1"; "SIGSEGV"; "SIGUSR2"; "SIGPIPE"; "SIGALRM"; "SIGTERM"; "SIGSTKFLT";
   "SIGCHLD"; "SIGCONT"; "SIGSTOP"; "SIGTSTP"; "SIGTTIN"; "SIGTTOU"; "SIGURG"; "SIGXCPU";
   "SIGXFSZ"; "SIGVTALRM"; "SIGPROF"; "SIGWINCH"; "SIGIO"; "SIGPWR"; "SIGSYS"].
Definition SIGNAL_STRING_ARRAY_SIZE : Z := Z.of_nat (length SIGNAL_STRING_ARRAY).

(** The number of a signal named by its number or by its name; names are
    looked up from the second of the array on. *)
Fixpoint signal_named (l : list string) (j : Z) (name : string) : option Z :=
  match l with
  | [] => None
  | x :: l => if (1 <=? j) && String.eqb x name then Some j else signal_named l (j + 1) name
  end.
Definition signal_number (name : string) : Z :=
  let n := int32 (strtol name) in
  if (n <=? 0) || (SIGNAL_STRING_ARRAY_SIZE <=? n)
  then default n (signal_named SIGNAL_STRING_ARRAY 0 name) else n.
Definition add_signal (l : list Z) (name : string) : list Z :=
  let n := signal_number name in
  if (0 <? n) && (n <? SIGNAL_STRING_ARRAY_SIZE)
  then if existsb (Z.eqb n) l then l else (l ++ [n])%list else l.

(** [flom_config_set_ignored_signals]; [None] is NULL *)
Definition flom_config_set_ignored_signals (r : config_ref) (l : option (list string)) : Gm unit :=
  match l with
  | None => mret tt
  | Some l =>
      c ← the_config r;
      modify (put_flom_config r (set_signals (fold_left add_signal l []) c))
  end.

Definition flom_config_get_ignored_signals_str (r : config_ref) : Gm string :=
  c ← the_config r;
  let ignored '(j, _) := existsb (Z.eqb j) (ignored_signals c) in
  mret (String.concat ";" (map snd (List.filter ignored
    (tail (combine (map Z.of_nat (seq 0 (length SIGNAL_STRING_ARRAY))) SIGNAL_STRING_ARRAY))))).

(** *** What the setters ask of the system

    [directory] says whether a name can be opened as a directory and then
    closed; a key file is what GLib's functions answer about it. *)
Inductive key_integer : Type := KeyInteger (z : Z) | KeyNotFound | KeyError.
Record key_file : Type := Key_file {
  key_file_get_string : string -> string -> option string;
  key_file_get_integer : string -> string -> key_integer;
  key_file_get_string_list : string -> string -> option (list string)
}.
Record ifaddr : Type := Ifaddr { ifa_name : string; ifa_inet6 : bool; ifa_scope_id : Z }.
Class System : Type := {
  realpath : string -> option string;
  getifaddrs : option (list ifaddr);
  login_name : option string;
  directory : string -> option bool;
  key_files : string -> option key_file;
  sysconfdir : string;
  home_dir : string
}.

Section system.
Context `{System}.

Definition put_real_path (f : string_member) (r : config_ref) (value : option string) : Gm Z :=
  match value ≫= realpath with
  | None => mret FLOM_RC_REALPATH_ERROR
  | Some path => _ ← put_str f r (Some path); mret FLOM_RC_OK
  end.
Definition flom_config_set_tls_certificate := put_real_path tls_certificate.
Definition flom_config_set_tls_private_key := put_real_path tls_private_key.
Definition flom_config_set_tls_ca_certificate := put_real_path tls_ca_certificate.

(** The name is compared with every IPv6 interface, so it cannot be NULL when
    there is one. *)
Definition flom_config_set_network_interface (r : config_ref) (value : option string) : Gm Z :=
  match getifaddrs with
  | None => mret FLOM_RC_GETIFADDRS_ERROR
  | Some l =>
      match filter (fun i => ifa_inet6 i = true) l with
      | [] => mret FLOM_RC_INVALID_IPV6_NETWORK_INTERFACE
      | l =>
          name ← of_option Ub value;
          match List.find (fun i => String.eqb name (ifa_name i)) l with
          | None => mret FLOM_RC_INVALID_IPV6_NETWORK_INTERFACE
          | Some i =>
              _ ← put_int sin6_scope_id r (ifa_scope_id i);
              _ ← put_str network_interface r value;
              mret FLOM_RC_OK
          end
      end
  end.

Definition flom_config_set_sin6_scope_id (r : config_ref) (value : Z) : Gm Z :=
  match getifaddrs with
  | None => mret FLOM_RC_GETIFADDRS_ERROR
  | Some l =>
      match List.find (fun i => ifa_inet6 i && (value =? ifa_scope_id i)) l with
      | None => mret FLOM_RC_INVALID_IPV6_NETWORK_INTERFACE
      | Some i =>
          _ ← put_int sin6_scope_id r (ifa_scope_id i);
          _ ← put_str network_interface r (Some (ifa_name i));
          mret FLOM_RC_OK
      end
  end.


Definition flom_config_set_mount_point_vfs (r : config_ref) (value : string) : Gm Z :=
  match directory value with
  | None => mret FLOM_RC_OPENDIR_ERROR
  | Some false => mret FLOM_RC_CLOSEDIR_ERROR
  | Some true => _ ← put_str mount_point_vfs r (Some value); mret FLOM_RC_OK
  end.

(** ** The whole object *)
Definition given (o : option string) : bool := match o with Some _ => true | None => false end.

(** The members that the default values give a number *)
Definition default_int (f : int_member) : Z :=
  match f with
  | append_trace_file | verbose | resource_transactional => 0
  | daemon_lifespan => 5000
  | resource_create => 1
  | resource_timeout => FLOM_NETWORK_WAIT_TIMEOUT
  | resource_quantity => 1
  | config_lock_mode => FLOM_LOCK_MODE_EX
  | resource_idle_lifespan => 0
  | unicast_port | multicast_port => 28015
  | sin6_scope_id => 0
  | discovery_attempts => 2
  | discovery_timeout => 500
  | discovery_ttl => 1
  | tcp_keepalive_time => 60
  | tcp_keepalive_intvl => 10
  | tcp_keepalive_probes => 6
  | tls_check_peer_id => 0
  end.

(** [flom_config_reset]: nothing is freed *)
Definition flom_config_reset (r : config_ref) : Gm unit :=
  _ ← the_config r;
  name ← g_strdup (Some DEFAULT_RESOURCE_NAME);
  modify (put_flom_config r (Config (fun f => if decide (f = resource_name) then name else None)
                               default_int [])).

(** The default socket, in a buffer of the size of its name *)
Definition default_socket_name : string :=
  snprintf_take LOCAL_SOCKET_SIZE ("/tmp/flom-" +:+ default "nobody" login_name).

(** [flom_config_check], with [getifaddrs] available; the warnings it prints
    are left out. *)
Definition flom_config_check (r : config_ref) : Gm Z :=
  socket ← flom_config_get_socket_name r;
  unicast ← flom_config_get_unicast_address r;
  multicast ← flom_config_get_multicast_address r;
  if given socket && (given unicast || given multicast) then mret FLOM_RC_INVALID_OPTION
  else
    _ ← when (negb (given socket || given unicast || given multicast)) (
          c ← the_config r;
          p ← g_strdup (Some default_socket_name);
          modify (put_flom_config r (set_str socket_name p c)));
    name ← flom_config_get_resource_name r;
    name ← of_option Ub name;
    let frt := flom_rsrc_get_type name in
    mode ← flom_config_get_lock_mode r;
    _ ← when (negb (mode =? FLOM_LOCK_MODE_EX) && negb (bool_decide (frt = FLOM_RSRC_TYPE_SIMPLE))
              && negb (bool_decide (frt = FLOM_RSRC_TYPE_HIER)))
          (flom_config_set_lock_mode r FLOM_LOCK_MODE_EX);
    quantity ← flom_config_get_resource_quantity r;
    _ ← when (negb (quantity =? 1) && negb (bool_decide (frt = FLOM_RSRC_TYPE_NUMERIC)))
          (flom_config_set_resource_quantity r 1);
    check ← flom_config_get_tls_check_peer_id r;
    cert ← flom_config_get_tls_certificate r;
    key ← flom_config_get_tls_private_key r;
    ca ← flom_config_get_tls_ca_certificate r;
    if negb (check =? 0) && negb (given cert && given key && given ca)
    then mret FLOM_RC_INVALID_OPTION
    else mret FLOM_RC_OK.

(** [flom_config_free] frees each member and resets its pointer. *)
Definition free_member (f : string_member) (r : config_ref) : Gm unit :=
  c ← the_config r;
  _ ← g_free (strs c f);
  modify (put_flom_config r (set_str f None c)).
Fixpoint free_members (l : list string_member) (r : config_ref) : Gm unit :=
  match l with
  | [] => mret tt
  | f :: l => _ ← free_member f r; free_members l r
  end.
Definition flom_config_free (r : config_ref) : Gm unit :=
  free_members [daemon_trace_file; command_trace_file; resource_name; socket_name;
    unicast_address; multicast_address; mount_point_vfs; network_interface; tls_certificate;
    tls_private_key; tls_ca_certificate] r.

(** [flom_config_clone]: the members are copied as they are, then these
    strings are duplicated. *)
Definition duplicate_member (f : string_member) (r : config_ref) : Gm unit :=
  g ← gets global_config;
  x ← c_str (strs g f);
  c ← the_config r;
  p ← g_strdup x;
  modify (put_flom_config r (set_str f p c)).
Fixpoint duplicate_members (l : list string_member) (r : config_ref) : Gm unit :=
  match l with
  | [] => mret tt
  | f :: l => _ ← duplicate_member f r; duplicate_members l r
  end.
Definition duplicated_members : list string_member :=
  [daemon_trace_file; command_trace_file; resource_name; socket_name; unicast_address;
   multicast_address; mount_point_vfs; network_interface].
Definition flom_config_clone (r : config_ref) : Gm Z :=
  match r with
  | None => mret FLOM_RC_NULL_OBJECT
  | Some _ =>
      g ← gets global_config;
      _ ← modify (put_flom_config r g);
      _ ← duplicate_members duplicated_members r;
      mret FLOM_RC_OK
  end.
End system.

(** [flom_bool_value_retrieve] *)
Inductive flom_bool_value : Type := FLOM_BOOL_NO | FLOM_BOOL_YES | FLOM_BOOL_INVALID.
Definition flom_bool_value_retrieve (text : string) : flom_bool_value :=
  if strcasestr text "no" then FLOM_BOOL_NO
  else if strcasestr text "yes" then FLOM_BOOL_YES
  else if strcasestr text "n" then FLOM_BOOL_NO
  else if strcasestr text "y" then FLOM_BOOL_YES
  else FLOM_BOOL_INVALID.

(** ** Ownership

    A string belongs to one member of one configuration: [X] tells the members
    of which this is not known, whose pointer can be shared or dangling. *)
Definition config_at (s : configs) (r : config_ref) : option flom_config :=
  match r with None => Some (global_config s) | Some p => g_configs s !! p end.

(** What a member says *)
Definition content (s : configs) (r : config_ref) (f : string_member) : option string :=
  c ← config_at s r; l ← strs c f; g_heap s !! l.
Definition pointer (s : configs) (r : config_ref) (f : string_member) : option sptr :=
  c ← config_at s r; Some (strs c f).
Definition number (s : configs) (r : config_ref) (f : int_member) : option Z :=
  c ← config_at s r; Some (ints c f).

Definition members : Type := config_ref -> string_member -> Prop.
Definition the_member (r : config_ref) (f : string_member) : members :=
  fun r' f' => r' = r /\ f' = f.

Record owned_but (X : members) (s : configs) : Prop := Owned {
  ow_live : forall r c f l, config_at s r = Some c -> strs c f = Some l -> ~ X r f ->
    is_Some (g_heap s !! l);
  ow_alone : forall r c f l r' c' f', config_at s r = Some c -> strs c f = Some l -> ~ X r f ->
    config_at s r' = Some c' -> strs c' f' = Some l -> ~ X r' f' -> r' = r /\ f' = f;
  ow_bound : forall r c f l, config_at s r = Some c -> strs c f = Some l ->
    (l < g_next s)%positive
}.
Definition owned : configs -> Prop := owned_but (fun _ _ => False).

Lemma config_at_put r c s r' :
  config_at (put_flom_config r c s) r' = if decide (r' = r) then Some c else config_at s r'.
Proof.
  destruct r as [p|], r' as [p'|]; cbn; try (case_decide; congruence).
  case_decide as E; [injection E as ->; apply lookup_insert_eq | apply lookup_insert_ne; congruence].
Qed.

Lemma heap_put r c s : g_heap (put_flom_config r c s) = g_heap s.
Proof. by destruct r. Qed.
Lemma next_put r c s : g_next (put_flom_config r c s) = g_next s.
Proof. by destruct r. Qed.

Lemma owned_weaken (X Y : members) s :
  (forall r f, X r f -> Y r f) -> owned_but X s -> owned_but Y s.
Proof. intros HXY [HL HA HB]. split; eauto 10. Qed.

Lemma owned_null (X Y : members) s :
  (forall r f, Y r f -> X r f \/ pointer s r f = Some None) -> owned_but Y s -> owned_but X s.
Proof.
  intros HXY [HL HA HB].
  assert (HY : forall r c f l, config_at s r = Some c -> strs c f = Some l -> ~ X r f -> ~ Y r f).
  { intros r c f l Hc Hl Hx [?|Hn]%HXY; [done|]. unfold pointer in Hn. rewrite Hc in Hn.
    cbn in Hn. congruence. }
  split; eauto 12.
Qed.

(** Everything outside the members [X] says the same. *)
Record frame (X : members) (s s' : configs) : Prop := Frame {
  fr_content : forall r f, ~ X r f -> content s' r f = content s r f;
  fr_pointer : forall r f, ~ X r f -> pointer s' r f = pointer s r f;
  fr_number : forall r f, number s' r f = number s r f
}.

Lemma frame_refl X s : frame X s s.
Proof. done. Qed.
Lemma frame_trans X s1 s2 s3 : frame X s1 s2 -> frame X s2 s3 -> frame X s1 s3.
Proof.
  intros [C1 P1 N1] [C2 P2 N2].
  split; intros; [rewrite C2, C1 | rewrite P2, P1 | rewrite N2, N1]; done.
Qed.
Lemma frame_weaken (X Y : members) s s' :
  (forall r f, X r f -> Y r f) -> frame X s s' -> frame Y s s'.
Proof. intros HXY [C P N]. split; eauto. Qed.

Lemma frame_object X s s' r : frame X s s' -> is_Some (config_at s r) -> is_Some (config_at s' r).
Proof.
  intros Hf [c Hc]. assert (Hn := fr_number _ _ _ Hf r verbose). unfold number in Hn.
  rewrite Hc in Hn. destruct (config_at s' r); [eauto | done].
Qed.

Lemma wp_the_config r (Q : err + flom_config -> configs -> Prop) s c :
  config_at s r = Some c -> Q (inr c) s -> wp (the_config r) Q s.
Proof.
  intros Hc HQ. unfold the_config. do 2 wp_step. change (wp (of_option Ub (config_at s r)) Q s).
  rewrite Hc. by apply wp_ret.
Qed.

(** Freeing the string of a member that owns it leaves its pointer dangling. *)
Lemma wp_free_owned X r c f (Q : err + unit -> configs -> Prop) s :
  owned_but X s -> config_at s r = Some c -> ~ X r f ->
  (forall s', owned_but (fun r' f' => X r' f' \/ the_member r f r' f') s' ->
     frame (fun r' f' => X r' f' \/ the_member r f r' f') s s' ->
     (forall r', config_at s' r' = config_at s r') -> Q (inr tt) s') ->
  wp (g_free (strs c f)) Q s.
Proof.
  intros Ho Hc Hx HQ. unfold wp, g_free. destruct (strs c f) as [l|] eqn:El.
  - destruct (ow_live _ _ Ho _ _ _ _ Hc El Hx) as [x Hl]. rewrite Hl. cbn. apply HQ.
    + destruct Ho as [HL HA HB]. split.
      * intros r' c' f' l' Hc' Hl' Hx'. cbn. rewrite lookup_delete_ne; [eauto|]. intros ->.
        apply Hx'. right. eapply (HA r c f l' r' c' f'); eauto.
      * eauto 12.
      * exact HB.
    + split; [|done..]. intros r' f' Hx'. unfold content.
      change (config_at (set_heap _ _ s) r') with (config_at s r').
      destruct (config_at s r') as [c'|] eqn:Hc'; cbn; [|done].
      destruct (strs c' f') as [l'|] eqn:Hl'; cbn; [|done].
      rewrite lookup_delete_ne; [done|]. intros ->. apply Hx'. right.
      eapply (ow_alone _ _ Ho r c f l' r' c' f'); eauto.
    + done.
  - cbn. apply HQ; [|by apply frame_refl |done]. eapply owned_weaken; [|exact Ho]. auto.
Qed.

(** Giving a member a new string, or none *)
Lemma assign_owned X r c f p s (h : gmap positive string) n v :
  owned_but X s -> config_at s r = Some c ->
  match v with
  | None => p = None /\ h = g_heap s /\ n = g_next s
  | Some x => p = Some (g_next s) /\ h = <[g_next s := x]> (g_heap s) /\ n = Pos.succ (g_next s)
  end ->
  let s' := put_flom_config r (set_str f p c) (set_heap h n s) in
  owned_but (fun r' f' => X r' f' /\ ~ the_member r f r' f') s' /\ content s' r f = v /\
  frame (the_member r f) s s'.
Proof.
  intros Ho Hc Hv s'.
  assert (Hat : forall r', config_at s' r' = if decide (r' = r) then Some (set_str f p c) else config_at s r').
  { intros r'. unfold s'. by rewrite config_at_put. }
  assert (Hh : g_heap s' = h) by (unfold s'; by rewrite heap_put).
  assert (Hn : g_next s' = n) by (unfold s'; by rewrite next_put).
  (* a pointer of the new state is the new one or an old one *)
  assert (Hold : forall r' c' f' l, config_at s' r' = Some c' -> strs c' f' = Some l ->
    (the_member r f r' f' /\ p = Some l) \/
    (~ the_member r f r' f' /\ exists c0, config_at s r' = Some c0 /\ strs c0 f' = Some l)).
  { intros r' c' f' l Hc' Hl. rewrite Hat in Hc'. case_decide as Hr; [subst r'|].
    - injection Hc' as <-. cbn in Hl. case_decide as Hf; [left | right]; unfold the_member; [done|].
      split; [tauto | eauto].
    - right. unfold the_member. split; [tauto | eauto]. }
  assert (Hheap : forall l, (l < g_next s)%positive -> h !! l = g_heap s !! l).
  { intros l Hl. destruct v as [x|]; destruct Hv as (-> & -> & ->); [|done].
    rewrite lookup_insert_ne; [done | lia]. }
  assert (Hp : forall l, p = Some l -> l = g_next s /\ (l < n)%positive /\ is_Some (h !! l)).
  { intros l ->. destruct v as [x|]; destruct Hv as (E & -> & ->); [|done].
    injection E as ->. rewrite lookup_insert_eq. repeat split; [lia | eauto]. }
  assert (Hmono : (g_next s <= n)%positive) by (destruct v; destruct Hv as (_ & _ & ->); lia).
  split; [split | split; [|split]].
  - intros r' c' f' l Hc' Hl Hx. rewrite Hh.
    destruct (Hold _ _ _ _ Hc' Hl) as [[Hm Hpl] | (Hm & c0 & Hc0 & Hl0)]; [by apply Hp|].
    rewrite Hheap by (eapply ow_bound; eauto). eapply ow_live; eauto.
  - intros r1 c1 f1 l r2 c2 f2 Hc1 Hl1 Hx1 Hc2 Hl2 Hx2.
    destruct (Hold _ _ _ _ Hc1 Hl1) as [[Hm1 Hp1] | (Hm1 & d1 & Hd1 & Hk1)];
      destruct (Hold _ _ _ _ Hc2 Hl2) as [[Hm2 Hp2] | (Hm2 & d2 & Hd2 & Hk2)].
    + unfold the_member in *. intuition congruence.
    + apply Hp in Hp1 as [-> _]. apply (ow_bound _ _ Ho _ _ _ _ Hd2) in Hk2. lia.
    + apply Hp in Hp2 as [-> _]. apply (ow_bound _ _ Ho _ _ _ _ Hd1) in Hk1. lia.
    + eapply (ow_alone _ _ Ho r1 d1 f1 l r2 d2 f2); eauto.
  - intros r' c' f' l Hc' Hl. rewrite Hn.
    destruct (Hold _ _ _ _ Hc' Hl) as [[Hm Hpl] | (Hm & c0 & Hc0 & Hl0)]; [by apply Hp in Hpl as (_ & ? & _)|].
    apply (ow_bound _ _ Ho _ _ _ _ Hc0) in Hl0. lia.
  - unfold content. rewrite Hat, decide_True by done. cbn. rewrite decide_True by done.
    rewrite Hh. destruct v as [x|]; destruct Hv as (-> & -> & ->); [|done]. cbn.
    apply lookup_insert_eq.
  - intros r' f' Hm. unfold content. rewrite Hat, Hh. case_decide as Hr; [subst r'|].
    + rewrite Hc. cbn. rewrite decide_False; [|intros ->; by apply Hm].
      destruct (strs c f') as [l|] eqn:El; cbn; [|done]. apply Hheap. eapply ow_bound; eauto.
    + destruct (config_at s r') as [c0|] eqn:E0; cbn; [|done].
      destruct (strs c0 f') as [l|] eqn:El; cbn; [|done]. apply Hheap. eapply ow_bound; eauto.
  - intros r' f' Hm. unfold pointer. rewrite Hat. case_decide as Hr; [subst r'|done].
    rewrite Hc. cbn. rewrite decide_False; [done|]. intros ->. by apply Hm.
  - intros r' f'. unfold number. rewrite Hat. case_decide as Hr; [subst r'|done]. by rewrite Hc.
Qed.

(** A new string is given to a member that owns none. *)
Lemma wp_assign X r c f v (Q : err + unit -> configs -> Prop) s :
  owned_but X s -> config_at s r = Some c ->
  (forall s', owned_but (fun r' f' => X r' f' /\ ~ the_member r f r' f') s' ->
     content s' r f = v -> frame (the_member r f) s s' -> Q (inr tt) s') ->
  wp (p ← g_strdup v; modify (put_flom_config r (set_str f p c))) Q s.
Proof.
  intros Ho Hc HQ.
  wp_step. unfold wp at 1, g_strdup. destruct v as [x|]; cbn [fst snd]; wp_step.
  - destruct (assign_owned X r c f (Some (g_next s)) s (<[g_next s := x]> (g_heap s))
      (Pos.succ (g_next s)) (Some x)) as (H1 & H2 & H3); [done.. |]. by apply HQ.
  - destruct (assign_owned X r c f None s (g_heap s) (g_next s) None) as (H1 & H2 & H3); [done.. |].
    destruct s. by apply HQ.
Qed.

Lemma wp_put_str X r c f v (Q : err + unit -> configs -> Prop) s :
  owned_but X s -> config_at s r = Some c -> ~ X r f ->
  (forall s', owned_but X s' -> content s' r f = v ->
     frame (fun r' f' => X r' f' \/ the_member r f r' f') s s' -> Q (inr tt) s') ->
  wp (put_str f r v) Q s.
Proof.
  intros Ho Hc Hx HQ. unfold put_str. wp_step. eapply wp_the_config; [done|]. wp_step.
  eapply wp_free_owned; [done..|]. intros s1 Ho1 Hf1 Hat1.
  eapply wp_assign; [exact Ho1 | by rewrite Hat1|]. intros s2 Ho2 Hv Hf2. apply HQ.
  - eapply owned_weaken; [|exact Ho2]. cbn. tauto.
  - done.
  - eapply frame_trans; [exact Hf1|]. eapply frame_weaken; [|exact Hf2]. auto.
Qed.

Lemma free_member_eq f r s : free_member f r s = put_str f r None s.
Proof.
  unfold free_member, put_str, mbind, M_bind. destruct (the_config r s) as [[e|c] s1]; [done|].
  by destruct (g_free (strs c f) s1) as [[e|u] s2].
Qed.

Definition object (r : config_ref) : members := fun r' _ => r' = r.

Lemma wp_free_members X r l (Q : err + unit -> configs -> Prop) : forall s,
  owned_but X s -> is_Some (config_at s r) -> (forall f, ~ X r f) ->
  (forall s', owned_but X s' -> frame (fun r' f' => X r' f' \/ object r r' f') s s' ->
     (forall f, f ∈ l \/ content s r f = None -> content s' r f = None) -> Q (inr tt) s') ->
  wp (free_members l r) Q s.
Proof.
  induction l as [|f l IH]; intros s Ho [c Hc] Hx HQ; cbn [free_members].
  - wp_step. apply HQ; [done| by apply frame_refl|]. intros f [Hf|Hf]; [inversion Hf | done].
  - wp_step. eapply wp_same; [apply free_member_eq|].
    eapply wp_put_str; [done..|apply Hx|]. intros s1 Ho1 Hv Hf1.
    apply IH; [done|by eapply frame_object|done|]. intros s2 Ho2 Hf2 Hn2. apply HQ; [done|..].
    + eapply frame_trans; [|exact Hf2]. eapply frame_weaken; [|exact Hf1].
      unfold the_member, object. cbn. tauto.
    + intros g Hg. apply Hn2. destruct (decide (g = f)) as [->|Hne]; [auto|].
      destruct Hg as [[?|Hg]%elem_of_cons|Hg]; [done|by left|right].
      rewrite (fr_content _ _ _ Hf1); [done|]. unfold the_member.
      intros [Hg'|[_ ->]]; [by apply (Hx g) | done].
Qed.

(** [flom_config_free] leaves the object without strings. *)
Lemma wp_config_free X r (Q : err + unit -> configs -> Prop) s :
  owned_but X s -> is_Some (config_at s r) -> (forall f, ~ X r f) ->
  (forall s', owned_but X s' -> frame (fun r' f' => X r' f' \/ object r r' f') s s' ->
     (forall f, content s' r f = None) -> Q (inr tt) s') ->
  wp (flom_config_free r) Q s.
Proof.
  intros Ho Hr Hx HQ. apply wp_free_members with (X := X); [done..|].
  intros s' Ho' Hf Hn. apply HQ; [done..|]. intros f. apply Hn. left.
  apply (bool_decide_unpack _). by destruct f.
Qed.

(** Every object but [r] says what it said. *)
Record aside (r : config_ref) (s s' : configs) : Prop := Aside {
  as_content : forall r' f, r' <> r -> content s' r' f = content s r' f;
  as_pointer : forall r' f, r' <> r -> pointer s' r' f = pointer s r' f;
  as_number : forall r' f, r' <> r -> number s' r' f = number s r' f;
  as_object : is_Some (config_at s r) -> is_Some (config_at s' r)
}.

Lemma aside_refl r s : aside r s s.
Proof. done. Qed.
Lemma aside_trans r s1 s2 s3 : aside r s1 s2 -> aside r s2 s3 -> aside r s1 s3.
Proof.
  intros [C1 P1 N1 O1] [C2 P2 N2 O2]. split; intros; auto;
    [rewrite C2, C1 | rewrite P2, P1 | rewrite N2, N1]; done.
Qed.

(** The objects besides [r] are still there. *)
Lemma aside_config_at r s s' r' :
  aside r s s' -> is_Some (config_at s r') -> is_Some (config_at s' r').
Proof.
  intros Ha [c Hc]. destruct (decide (r' = r)) as [->|Hr]; [apply (as_object _ _ _ Ha); eauto|].
  assert (Hn := as_number _ _ _ Ha r' verbose Hr). unfold number in Hn. rewrite Hc in Hn.
  destruct (config_at s' r'); [eauto | done].
Qed.

Lemma frame_aside r s s' : frame (object r) s s' -> aside r s s'.
Proof.
  intros Hf. split; [intros; by apply Hf..|]. intros Hr. by eapply frame_object.
Qed.

(** *** Copies *)

(** The [memcpy] of [flom_config_clone] *)
Lemma owned_copy X r s :
  owned_but X s ->
  owned_but (fun r' f' => X r' f' \/ object r r' f') (put_flom_config r (global_config s) s).
Proof.
  intros [HL HA HB].
  assert (Hat : forall r' c', config_at (put_flom_config r (global_config s) s) r' = Some c' ->
    ~ object r r' socket_name -> config_at s r' = Some c').
  { intros r' c'. rewrite config_at_put. unfold object. case_decide; [congruence|done]. }
  split.
  - intros r' c f l Hc Hl Hx. rewrite heap_put. apply (HL r' c f); [apply Hat|..]; auto.
  - intros r1 c1 f1 l r2 c2 f2 Hc1 Hl1 Hx1 Hc2 Hl2 Hx2.
    apply (HA r1 c1 f1 l r2 c2 f2); [apply Hat| | |apply Hat| |]; auto.
  - intros r' c f l. rewrite config_at_put, next_put. case_decide as E; [|apply HB].
    intros [= <-] Hl. by apply (HB None (global_config s) f).
Qed.

Lemma content_copy r s r' f :
  content (put_flom_config r (global_config s) s) r' f =
  if decide (r' = r) then content s None f else content s r' f.
Proof. unfold content. rewrite config_at_put, heap_put. by case_decide. Qed.

Lemma wp_c_str_owned X r c f (Q : err + option string -> configs -> Prop) s :
  owned_but X s -> config_at s r = Some c -> ~ X r f -> Q (inr (content s r f)) s ->
  wp (c_str (strs c f)) Q s.
Proof.
  intros Ho Hc Hx HQ. unfold wp, c_str, content in *. rewrite Hc in HQ. cbn in HQ.
  destruct (strs c f) as [l|] eqn:El; cbn in HQ; [|done].
  destruct (ow_live _ _ Ho _ _ _ _ Hc El Hx) as [x Hl]. by rewrite Hl in HQ |- *.
Qed.
Lemma wp_get_str f r (Q : err + option string -> configs -> Prop) s :
  owned s -> is_Some (config_at s r) -> Q (inr (content s r f)) s -> wp (get_str f r) Q s.
Proof.
  intros Ho [c Hc] HQ. unfold get_str. wp_step. eapply wp_the_config; [done|].
  apply (wp_c_str_owned (fun _ _ => False) r c f); [done | done | exact id | done].
Qed.

Lemma wp_duplicate_members p l (Q : err + unit -> configs -> Prop) : forall X s,
  owned_but X s -> is_Some (config_at s (Some p)) -> (forall f, ~ X None f) ->
  (forall s', owned_but (fun r f => X r f /\ ~ (r = Some p /\ f ∈ l)) s' ->
     frame (fun r f => r = Some p /\ f ∈ l) s s' ->
     (forall f, f ∈ l -> content s' (Some p) f = content s None f) -> Q (inr tt) s') ->
  wp (duplicate_members l (Some p)) Q s.
Proof.
  induction l as [|f l IH]; intros X s Ho [c Hc] Hx HQ; cbn [duplicate_members].
  - wp_step. apply HQ; [|done|].
    + eapply owned_weaken; [|exact Ho]. intros r g Hg. split; [done|]. intros [_ H]. inversion H.
    + intros g H. inversion H.
  - unfold duplicate_member. do 4 wp_step.
    eapply wp_c_str_owned with (r := None); [exact Ho | done | apply Hx|]. wp_step.
    eapply wp_the_config; [done|]. eapply wp_assign; [done..|].
    intros s1 Ho1 Hv Hf1. eapply IH; [exact Ho1 | by eapply frame_object | |].
    { intros g [Hg _]. by apply (Hx g). }
    intros s2 Ho2 Hf2 Hn2.
    assert (Hg1 : forall g, content s1 None g = content s None g).
    { intros g. apply (fr_content _ _ _ Hf1). by intros [? _]. }
    apply HQ.
    + eapply owned_weaken; [|exact Ho2]. unfold the_member. intros r g [[Hg Hn] Hl].
      split; [done|]. intros [-> [->|?]%elem_of_cons]; tauto.
    + eapply frame_trans; eapply frame_weaken; [|exact Hf1| |exact Hf2];
        [|intros r g [-> ?]; split; [done | by constructor]].
      intros r g [-> ->]. split; [done | constructor].
    + intros g Hg. destruct (decide (g ∈ l)) as [Hl|Hl]; [by rewrite Hn2, Hg1|].
      apply elem_of_cons in Hg as [->|?]; [|done].
      rewrite (fr_content _ _ _ Hf2); [done|]. by intros [_ ?].
Qed.

Definition config_has_no_tls (s : configs) : Prop :=
  forall f, f ∉ duplicated_members -> strs (global_config s) f = None.

(** A clone says what the original says; it owns its strings when there are no
    TLS ones. *)
Lemma wp_config_clone p (Q : err + Z -> configs -> Prop) s :
  owned s -> is_Some (config_at s (Some p)) -> config_has_no_tls s ->
  (forall s', owned s' -> (forall f, content s' (Some p) f = content s None f) ->
     (forall f, number s' (Some p) f = number s None f) -> aside (Some p) s s' ->
     Q (inr FLOM_RC_OK) s') ->
  wp (flom_config_clone (Some p)) Q s.
Proof.
  intros Ho Hp Ht HQ. unfold flom_config_clone. do 5 wp_step.
  assert (Hat : config_at (put_flom_config (Some p) (global_config s) s) (Some p) =
    Some (global_config s)) by (by rewrite config_at_put, decide_True).
  eapply wp_duplicate_members; [by apply owned_copy | by rewrite Hat | |].
  - intros f [[]|?]. done.
  - intros s' Ho' Hf Hd. wp_step.
    assert (Hn : forall f, f ∉ duplicated_members ->
      pointer s' (Some p) f = Some None /\ content s None f = None).
    { intros f Hm. assert (Hs : strs (global_config s) f = None) by by apply Ht. split.
      - rewrite (fr_pointer _ _ _ Hf) by tauto. unfold pointer. rewrite Hat. cbn. by rewrite Hs.
      - unfold content. cbn. by rewrite Hs. }
    apply HQ.
    + eapply owned_null; [|exact Ho']. cbn. intros r f [[ [] | -> ] Hm]. right.
      apply Hn. intros ?. by apply Hm.
    + intros f. destruct (decide (f ∈ duplicated_members)) as [Hm|Hm].
      * rewrite Hd by done. rewrite content_copy. by case_decide.
      * rewrite (proj2 (Hn f Hm)). destruct (Hn f Hm) as [Hp' _]. unfold content.
        unfold pointer in Hp'. destruct (config_at s' (Some p)); cbn in *; [|done].
        by injection Hp' as ->.
    + intros f. rewrite (fr_number _ _ _ Hf). unfold number. by rewrite Hat.
    + split.
      * intros r f Hr. rewrite (fr_content _ _ _ Hf) by tauto. rewrite content_copy.
        by rewrite decide_False.
      * intros r f Hr. rewrite (fr_pointer _ _ _ Hf) by tauto. unfold pointer.
        by rewrite config_at_put, decide_False.
      * intros r f Hr. rewrite (fr_number _ _ _ Hf). unfold number.
        by rewrite config_at_put, decide_False.
      * intros _. eapply frame_object; [exact Hf|]. rewrite Hat. eauto.
Qed.

(** *** Numbers *)
Record renumbered (r : config_ref) (f : int_member) (v : Z) (s s' : configs) : Prop := Renumbered {
  rn_content : forall r' g, content s' r' g = content s r' g;
  rn_pointer : forall r' g, pointer s' r' g = pointer s r' g;
  rn_number : forall r' g, number s' r' g = if decide (r' = r /\ g = f) then Some v else number s r' g
}.

Lemma wp_put_int X r f v (Q : err + unit -> configs -> Prop) s :
  owned_but X s -> is_Some (config_at s r) ->
  (forall s', owned_but X s' -> renumbered r f v s s' -> Q (inr tt) s') ->
  wp (put_int f r v) Q s.
Proof.
  intros [HL HA HB] [c Hc] HQ. unfold put_int. wp_step. eapply wp_the_config; [done|]. wp_step.
  assert (Hat : forall r', config_at (put_flom_config r (set_int f v c) s) r' =
    if decide (r' = r) then Some (set_int f v c) else config_at s r').
  { intros r'. apply config_at_put. }
  assert (Hold : forall r' c', config_at (put_flom_config r (set_int f v c) s) r' = Some c' ->
    exists c0, config_at s r' = Some c0 /\ strs c' = strs c0).
  { intros r' c'. rewrite Hat. case_decide; [intros [= <-]; subst; eauto | eauto]. }
  apply HQ.
  - split.
    + intros r' c' g l (c0 & Hc0 & ->)%Hold. rewrite heap_put. eauto.
    + intros r1 c1 f1 l r2 c2 f2 (d1 & Hd1 & ->)%Hold Hl1 Hx1 (d2 & Hd2 & ->)%Hold. eauto.
    + intros r' c' g l (c0 & Hc0 & ->)%Hold. rewrite next_put. eauto.
  - split; intros r' g; unfold content, pointer, number; rewrite ?heap_put, Hat.
    + case_decide; [subst; by rewrite Hc | done].
    + case_decide; [subst; by rewrite Hc | done].
    + case_decide as E; [subst|by rewrite decide_False by tauto]. rewrite Hc. cbn.
      case_decide as E; [by rewrite decide_True | by rewrite decide_False by tauto].
Qed.

(** *** Operations on one object

    They never fail, they keep the strings owned, and they leave every other
    object aside. *)
Definition confined (r : config_ref) {A} (m : Gm A) : Prop := forall s,
  owned s -> is_Some (config_at s r) ->
  wp m (fun x s' => (exists a, x = inr a) /\ owned s' /\ aside r s s') s.

Create HintDb confined.

Lemma confined_ret r {A} (a : A) : confined r (mret a).
Proof. intros s Ho Hr. wp_step. split_and!; eauto using aside_refl. Qed.
Lemma confined_bind r {A B} (m : Gm A) (k : A -> Gm B) :
  confined r m -> (forall a, confined r (k a)) -> confined r (m ≫= k).
Proof.
  intros Hm Hk s Ho Hr. wp_step. eapply wp_mono; [|by apply Hm].
  intros x s1 ((a & ->) & Ho1 & Ha1). eapply wp_mono; [|apply Hk; [done | by apply Ha1]].
  intros y s2 (Hy & Ho2 & Ha2). eauto using aside_trans.
Qed.
Lemma confined_when r (b : bool) (m : Gm unit) : confined r m -> confined r (when b m).
Proof. intros Hm. destruct b; [done | apply confined_ret]. Qed.


Lemma confined_the_config r : confined r (the_config r).
Proof. intros s Ho [c Hc]. eapply wp_the_config; [done|]. eauto using aside_refl. Qed.
Lemma confined_get_int f r : confined r (get_int f r).
Proof. apply confined_bind; [apply confined_the_config | intros; apply confined_ret]. Qed.
Lemma confined_get_str f r : confined r (get_str f r).
Proof.
  intros s Ho [c Hc]. unfold get_str. wp_step. eapply wp_the_config; [done|].
  eapply wp_c_str_owned; [done..|auto|]. eauto using aside_refl.
Qed.
Lemma confined_put_int f r v : confined r (put_int f r v).
Proof.
  intros s Ho Hr. eapply wp_put_int; [done..|]. intros s' Ho' Hn. split_and!; [eauto | done|].
  split.
  - intros. apply (rn_content _ _ _ _ _ Hn).
  - intros. apply (rn_pointer _ _ _ _ _ Hn).
  - intros r' g Hr'. rewrite (rn_number _ _ _ _ _ Hn), decide_False; [done | tauto].
  - intros [c Hc]. assert (Hp := rn_pointer _ _ _ _ _ Hn r socket_name). unfold pointer in Hp.
    rewrite Hc in Hp. destruct (config_at s' r); [eauto | done].
Qed.
Lemma confined_put_str f r v : confined r (put_str f r v).
Proof.
  intros s Ho [c Hc]. eapply wp_put_str; [done..|auto|]. intros s' Ho' Hv Hf.
  split_and!; [eauto | done|]. apply frame_aside. eapply frame_weaken; [|exact Hf].
  intros r' f' [[]|[-> _]]. done.
Qed.
Lemma confined_absolute r v : v <> -2147483648 -> confined r (absolute v).
Proof.
  intros Hv. unfold absolute. rewrite (proj2 (Z.eqb_neq _ _) Hv).
  destruct (v <? 0); apply confined_ret.
Qed.

#[export] Hint Resolve confined_ret confined_when confined_get_int confined_get_str
  confined_put_int confined_put_str confined_the_config confined_absolute : confined.

(** The setters and getters that are nothing more *)
#[export] Hint Extern 4 (confined _ _) =>
  first [ apply confined_put_int | apply confined_put_str | apply confined_get_int
        | apply confined_get_str ] : confined.

Ltac solve_confined :=
  repeat first
    [ progress intros
    | solve [auto with confined]
    | apply confined_bind
    | apply confined_when
    | match goal with
      | |- confined _ (if ?b then _ else _) => destruct b
      | |- confined _ (match ?x with _ => _ end) => destruct x
      end ].

(** *** The same, for operations that can fail *)
Definition keeps_owned (r : config_ref) {A} (m : Gm A) : Prop := forall s,
  owned s -> is_Some (config_at s r) -> wp m (fun _ s' => owned s' /\ aside r s s') s.

Create HintDb keeps_owned.

Lemma confined_keeps r {A} (m : Gm A) : confined r m -> keeps_owned r m.
Proof. intros Hm s Ho Hr. eapply wp_mono; [|by apply Hm]. by intros x s' (_ & ? & ?). Qed.
Lemma keeps_owned_throw r {A} (e : err) : keeps_owned r (throw (A := A) e).
Proof. intros s Ho Hr. wp_step. eauto using aside_refl. Qed.
Lemma keeps_owned_bind r {A B} (m : Gm A) (k : A -> Gm B) :
  keeps_owned r m -> (forall a, keeps_owned r (k a)) -> keeps_owned r (m ≫= k).
Proof.
  intros Hm Hk s Ho Hr. wp_step. eapply wp_mono; [|by apply Hm].
  intros [e|a] s1 (Ho1 & Ha1); [done|]. eapply wp_mono; [|apply Hk; [done | by apply Ha1]].
  intros y s2 (Ho2 & Ha2). eauto using aside_trans.
Qed.
Lemma keeps_owned_when r (b : bool) (m : Gm unit) : keeps_owned r m -> keeps_owned r (when b m).
Proof. intros Hm. destruct b; [done | apply confined_keeps, confined_ret]. Qed.
Lemma keeps_owned_of_option r {A} (e : err) (o : option A) : keeps_owned r (of_option e o).
Proof. destruct o; [apply confined_keeps, confined_ret | apply keeps_owned_throw]. Qed.

#[export] Hint Resolve keeps_owned_throw keeps_owned_of_option : keeps_owned.
#[export] Hint Extern 3 (keeps_owned _ _) => apply confined_keeps; solve [auto with confined] : keeps_owned.

Ltac solve_keeps_config :=
  repeat first
    [ progress intros
    | solve [auto with keeps_owned]
    | apply keeps_owned_bind
    | apply keeps_owned_when
    | match goal with
      | |- keeps_owned _ (if ?b then _ else _) => destruct b
      | |- keeps_owned _ (match ?x with _ => _ end) => destruct x
      end ].

Lemma keeps_absolute r v : keeps_owned r (absolute v).
Proof. unfold absolute. solve_keeps_config. Qed.
#[export] Hint Resolve keeps_absolute : keeps_owned.
Lemma keeps_unicast_port r v : keeps_owned r (flom_config_set_unicast_port r v).
Proof. unfold flom_config_set_unicast_port. solve_keeps_config. Qed.
Lemma keeps_sin6_scope_id `{System} r v : keeps_owned r (flom_config_set_sin6_scope_id r v).
Proof. unfold flom_config_set_sin6_scope_id. solve_keeps_config. Qed.
#[export] Hint Resolve keeps_unicast_port keeps_sin6_scope_id : keeps_owned.

(** Reading a string, whatever the ownership *)
Lemma get_str_content f r (Q : err + option string -> configs -> Prop) s :
  (forall e, Q (inl e) s) -> Q (inr (content s r f)) s -> wp (get_str f r) Q s.
Proof.
  intros He HQ. unfold get_str. wp_step. destruct (config_at s r) as [c|] eqn:Hc.
  - eapply wp_the_config; [exact Hc|]. unfold content in HQ. rewrite Hc in HQ. cbn in HQ.
    unfold wp, c_str. destruct (strs c f) as [l|]; [|done]. cbn in HQ.
    destruct (g_heap s !! l); [done | apply He].
  - unfold the_config. wp_step. apply wp_gets.
    change (wp (of_option Ub (config_at s r)) (fun r0 s' => match r0 with
      | inl e => Q (inl e) s' | inr a => wp (c_str (strs a f)) Q s' end) s).
    rewrite Hc. apply wp_throw, He.
Qed.
Lemma untouched_get_str f r : untouched id (get_str f r).
Proof.
  intros s. unfold get_str, the_config, mbind, M_bind, gets.
  change (match r with None => Some (global_config s) | Some p => g_configs s !! p end) with (config_at s r).
  destruct (config_at s r) as [c|]; [|done]. cbn. unfold c_str. destruct (strs c f) as [l|]; [|done].
  by destruct (g_heap s !! l).
Qed.
