(* ===== verification/ConfigFile.v ===== *)
(** * ConfigFile: reading the configuration files

    [flom_config_init_load] and [flom_config_init] of [src/src/flom_config.c].
    GLib's parser of key files is a parameter: what a file says of a key of a
    group. *)
From Stdlib Require Import ZArith String List Lia.
From stdpp Require Import base list gmap numbers strings.
From S2P Require Import Prelude Types CStr RsrcName Msg Vfs World Config.
Local Open Scope string_scope.
Local Open Scope Z_scope.

(** ** Keys *)
Definition FLOM_CONFIG_GROUP_TRACE : string := "Trace".
Definition FLOM_CONFIG_GROUP_RESOURCE : string := "Resource".
Definition FLOM_CONFIG_GROUP_DAEMON : string := "Daemon".
Definition FLOM_CONFIG_GROUP_MONITOR : string := "Monitor".
Definition FLOM_CONFIG_GROUP_NETWORK : string := "Network".
Definition FLOM_CONFIG_GROUP_TLS : string := "TLS".

(** The kinds of keys: a text, a yes or no, a number.  [invalid] is the reason
    code of a value that is not of its kind; a setter that returns a reason
    code has its own, or its own is replaced by one. *)
Section load.
Context (file : key_file) (r : config_ref).

Definition text_key (group key : string) (set : string -> Gm unit) : Gm unit :=
  match key_file_get_string file group key with
  | None => mret tt
  | Some value => set value
  end.

Definition boolean_key (group key : string) (set : config_ref -> Z -> Gm unit) : Gm unit :=
  text_key group key (fun value =>
    match flom_bool_value_retrieve value with
    | FLOM_BOOL_INVALID => throw (Rc FLOM_RC_INVALID_OPTION)
    | FLOM_BOOL_YES => set r 1
    | FLOM_BOOL_NO => set r 0
    end).

Definition integer_key (group key : string) (invalid : Z) (set : config_ref -> Z -> Gm unit)
    : Gm unit :=
  match key_file_get_integer file group key with
  | KeyInteger value => set r value
  | KeyNotFound => mret tt
  | KeyError => throw (Rc invalid)
  end.

Definition refused_as (rc : Z) (m : Gm Z) : Gm unit :=
  ret_cod ← m; when (negb (ret_cod =? FLOM_RC_OK)) (throw (Rc rc)).
Definition refused (m : Gm Z) : Gm unit :=
  ret_cod ← m; when (negb (ret_cod =? FLOM_RC_OK)) (throw (Rc ret_cod)).

Context `{System}.

Definition load_trace : Gm unit :=
  _ ← text_key FLOM_CONFIG_GROUP_TRACE "DaemonTraceFile"
        (fun v => flom_config_set_daemon_trace_file r (Some v));
  _ ← text_key FLOM_CONFIG_GROUP_TRACE "CommandTraceFile"
        (fun v => flom_config_set_command_trace_file r (Some v));
  _ ← boolean_key FLOM_CONFIG_GROUP_TRACE "AppendTraceFile" flom_config_set_append_trace_file;
  boolean_key FLOM_CONFIG_GROUP_TRACE "Verbose" flom_config_set_verbose.

Definition load_resource : Gm unit :=
  _ ← text_key FLOM_CONFIG_GROUP_RESOURCE "Name"
        (fun v => refused_as FLOM_RC_INVALID_OPTION (flom_config_set_resource_name r (Some v)));
  _ ← integer_key FLOM_CONFIG_GROUP_RESOURCE "Timeout" FLOM_RC_INVALID_OPTION
        flom_config_set_resource_timeout;
  _ ← integer_key FLOM_CONFIG_GROUP_RESOURCE "Quantity" FLOM_RC_INVALID_OPTION
        flom_config_set_resource_quantity;
  _ ← text_key FLOM_CONFIG_GROUP_RESOURCE "LockMode" (fun v =>
        let mode := flom_lock_mode_retrieve v in
        if mode =? FLOM_LOCK_MODE_INVALID then throw (Rc FLOM_RC_INVALID_OPTION)
        else flom_config_set_lock_mode r mode);
  _ ← boolean_key FLOM_CONFIG_GROUP_RESOURCE "Create" flom_config_set_resource_create;
  integer_key FLOM_CONFIG_GROUP_RESOURCE "IdleLifespan" FLOM_RC_INVALID_OPTION
    flom_config_set_resource_idle_lifespan.

(** The error of the multicast port is not in the table of reason codes. *)
Definition load_daemon : Gm unit :=
  _ ← text_key FLOM_CONFIG_GROUP_DAEMON "SocketName"
        (fun v => refused_as FLOM_RC_INVALID_OPTION (flom_config_set_socket_name r (Some v)));
  _ ← integer_key FLOM_CONFIG_GROUP_DAEMON "Lifespan" FLOM_RC_INVALID_OPTION
        flom_config_set_lifespan;
  _ ← text_key FLOM_CONFIG_GROUP_DAEMON "UnicastAddress"
        (fun v => flom_config_set_unicast_address r (Some v));
  _ ← integer_key FLOM_CONFIG_GROUP_DAEMON "UnicastPort" FLOM_RC_INVALID_OPTION
        flom_config_set_unicast_port;
  _ ← text_key FLOM_CONFIG_GROUP_DAEMON "MulticastAddress"
        (fun v => flom_config_set_multicast_address r (Some v));
  _ ← integer_key FLOM_CONFIG_GROUP_DAEMON "MulticastPort" FLOM_RC_INTERNAL_ERROR
        flom_config_set_multicast_port;
  text_key FLOM_CONFIG_GROUP_DAEMON "MountPointVFS"
    (fun v => refused_as FLOM_RC_INVALID_OPTION (flom_config_set_mount_point_vfs r v)).

(** The result of setting the network interface is ignored. *)
Definition load_network : Gm unit :=
  _ ← match key_file_get_string_list file FLOM_CONFIG_GROUP_MONITOR "IgnoredSignals" with
      | None => mret tt
      | l => flom_config_set_ignored_signals r l
      end;
  _ ← text_key FLOM_CONFIG_GROUP_NETWORK "NetworkInterface"
        (fun v => _ ← flom_config_set_network_interface r (Some v); mret tt);
  _ ← integer_key FLOM_CONFIG_GROUP_NETWORK "DiscoveryAttempts" FLOM_RC_INVALID_OPTION
        flom_config_set_discovery_attempts;
  _ ← integer_key FLOM_CONFIG_GROUP_NETWORK "DiscoveryTimeout" FLOM_RC_INVALID_OPTION
        flom_config_set_discovery_timeout;
  _ ← integer_key FLOM_CONFIG_GROUP_NETWORK "DiscoveryTTL" FLOM_RC_INVALID_OPTION
        flom_config_set_discovery_ttl;
  _ ← integer_key FLOM_CONFIG_GROUP_NETWORK "TcpKeepaliveTime" FLOM_RC_INVALID_OPTION
        flom_config_set_tcp_keepalive_time;
  _ ← integer_key FLOM_CONFIG_GROUP_NETWORK "TcpKeepaliveIntvl" FLOM_RC_INVALID_OPTION
        flom_config_set_tcp_keepalive_intvl;
  integer_key FLOM_CONFIG_GROUP_NETWORK "TcpKeepaliveProbes" FLOM_RC_INVALID_OPTION
    flom_config_set_tcp_keepalive_probes.

Definition load_tls : Gm unit :=
  _ ← text_key FLOM_CONFIG_GROUP_TLS "TlsCertificate"
        (fun v => refused (flom_config_set_tls_certificate r (Some v)));
  _ ← text_key FLOM_CONFIG_GROUP_TLS "TlsPrivateKey"
        (fun v => refused (flom_config_set_tls_private_key r (Some v)));
  _ ← text_key FLOM_CONFIG_GROUP_TLS "TlsCaCertificate"
        (fun v => refused (flom_config_set_tls_ca_certificate r (Some v)));
  boolean_key FLOM_CONFIG_GROUP_TLS "TlsCheckPeerId" flom_config_set_tls_check_peer_id.

Definition load_file : Gm unit :=
  _ ← load_trace;
  _ ← load_resource;
  _ ← load_daemon;
  _ ← load_network;
  load_tls.
End load.

Section init.
Context `{System}.

Definition flom_config_init_load (r : config_ref) (config_file_name : string) : Gm unit :=
  file ← of_option (Rc FLOM_RC_G_KEY_FILE_LOAD_FROM_FILE_ERROR) (key_files config_file_name);
  load_file file r.

(** A system or user file that cannot be loaded does not matter. *)
Definition load_if_any (r : config_ref) (config_file_name : string) : Gm unit :=
  x ← attempt (flom_config_init_load r config_file_name);
  match x with
  | inl rc => when (negb (rc =? FLOM_RC_G_KEY_FILE_LOAD_FROM_FILE_ERROR)) (throw (Rc rc))
  | inr _ => mret tt
  end.

Definition flom_config_init (r : config_ref) (custom_config_filename : option string) : Gm unit :=
  _ ← load_if_any r (sysconfdir +:+ "/" +:+ "flom.conf");
  _ ← load_if_any r (home_dir +:+ "/" +:+ ".flom");
  match custom_config_filename with
  | None => mret tt
  | Some name => flom_config_init_load r name
  end.
End init.

(** ** What loading the files keeps

    The strings stay owned by the members of the object that is loaded. *)
Section keeps.
Context `{System}.

Lemma keeps_text_key file r group key set :
  (forall v, keeps_owned r (set v)) -> keeps_owned r (text_key file group key set).
Proof. intros Hs. unfold text_key. solve_keeps_config. Qed.
Lemma keeps_boolean_key file r group key set :
  (forall v, keeps_owned r (set r v)) -> keeps_owned r (boolean_key file r group key set).
Proof. intros Hs. apply keeps_text_key. intros v. destruct (flom_bool_value_retrieve v); solve_keeps_config. Qed.
Lemma keeps_integer_key file r group key invalid set :
  (forall v, keeps_owned r (set r v)) -> keeps_owned r (integer_key file r group key invalid set).
Proof. intros Hs. unfold integer_key. solve_keeps_config. Qed.
Lemma keeps_refused_as r rc m : keeps_owned r m -> keeps_owned r (refused_as rc m).
Proof. intros Hm. unfold refused_as. solve_keeps_config. Qed.
Lemma keeps_refused r m : keeps_owned r m -> keeps_owned r (refused m).
Proof. intros Hm. unfold refused. solve_keeps_config. Qed.

Lemma keeps_signals r l : keeps_owned r (flom_config_set_ignored_signals r l).
Proof.
  destruct l as [l|]; [|apply confined_keeps, confined_ret]. intros s Ho [c Hc].
  unfold flom_config_set_ignored_signals. wp_step. eapply wp_the_config; [done|]. wp_step.
  set (c' := set_signals _ c).
  assert (Hat : forall r' d, config_at (put_flom_config r c' s) r' = Some d ->
    exists d0, config_at s r' = Some d0 /\ strs d = strs d0).
  { intros r' d. rewrite config_at_put. case_decide; [intros [= <-]; subst; eauto | eauto]. }
  split; [destruct Ho as [HL HA HB]; split|].
  - intros r' d g l' (d0 & Hd & ->)%Hat. rewrite heap_put. eauto.
  - intros r1 d1 f1 l' r2 d2 f2 (e1 & He1 & ->)%Hat Hl1 Hx1 (e2 & He2 & ->)%Hat. eauto.
  - intros r' d g l' (d0 & Hd & ->)%Hat. rewrite next_put. eauto.
  - split; intros; unfold content, pointer, number; rewrite ?heap_put, ?config_at_put;
      [by rewrite decide_False..|]. rewrite decide_True by done. eauto.
Qed.

Lemma keeps_socket_name r v : keeps_owned r (flom_config_set_socket_name r v).
Proof. unfold flom_config_set_socket_name. solve_keeps_config. Qed.
Lemma keeps_resource_name r v : keeps_owned r (flom_config_set_resource_name r v).
Proof. unfold flom_config_set_resource_name. solve_keeps_config. Qed.
Lemma keeps_mount_point_vfs r v : keeps_owned r (flom_config_set_mount_point_vfs r v).
Proof. unfold flom_config_set_mount_point_vfs. solve_keeps_config. Qed.
Lemma keeps_network_interface r v : keeps_owned r (flom_config_set_network_interface r v).
Proof. unfold flom_config_set_network_interface. solve_keeps_config. Qed.
Lemma keeps_real_path f r v : keeps_owned r (put_real_path f r v).
Proof. unfold put_real_path. solve_keeps_config. Qed.
Hint Resolve keeps_refused_as keeps_refused keeps_signals keeps_socket_name keeps_resource_name
  keeps_mount_point_vfs keeps_network_interface keeps_real_path : keeps_owned.

Lemma keeps_load_file file r : keeps_owned r (load_file file r).
Proof.
  unfold load_file, load_trace, load_resource, load_daemon, load_network, load_tls.
  repeat first
    [ progress intros
    | solve [auto with keeps_owned]
    | progress cbv beta delta [flom_config_set_resource_quantity flom_config_set_resource_idle_lifespan
        flom_config_set_unicast_port flom_config_set_multicast_port flom_config_set_discovery_attempts
        flom_config_set_discovery_timeout flom_config_set_discovery_ttl
        flom_config_set_tcp_keepalive_time flom_config_set_tcp_keepalive_intvl
        flom_config_set_tcp_keepalive_probes flom_config_set_tls_certificate
        flom_config_set_tls_private_key flom_config_set_tls_ca_certificate]
    | apply keeps_text_key
    | apply keeps_boolean_key
    | apply keeps_integer_key
    | apply keeps_owned_bind
    | apply keeps_owned_when
    | match goal with |- keeps_owned _ (match ?x with _ => _ end) => destruct x end ].
Qed.

Lemma keeps_load_if_any r name : keeps_owned r (load_if_any r name).
Proof.
  intros s Ho Hr. unfold load_if_any. do 2 wp_step.
  eapply (wp_mono _ (fun _ s' => owned s' /\ aside r s s')).
  - intros [[rc| |]|u] s' Hs'; try exact Hs'. wp_step; [by wp_step | done].
  - unfold flom_config_init_load. destruct (key_files name); cbn [of_option].
    + wp_step. apply wp_ret. by apply keeps_load_file.
    + apply keeps_owned_throw; done.
Qed.

Lemma keeps_config_init r : keeps_owned r (flom_config_init r None).
Proof.
  unfold flom_config_init. do 2 (apply keeps_owned_bind; [apply keeps_load_if_any | intros _]).
  apply confined_keeps, confined_ret.
Qed.

(** *** The global object keeps no name of a TLS file

    when no file that is loaded has one. *)
Definition plain {A} (m : Gm A) : Prop := forall s,
  config_has_no_tls s -> config_has_no_tls (m s).2.

Lemma plain_still {A} (m : Gm A) : (forall s, global_config (m s).2 = global_config s) -> plain m.
Proof. intros Hm s Hs f Hf. rewrite Hm. by apply Hs. Qed.
Lemma plain_ret {A} (a : A) : plain (mret a).
Proof. by apply plain_still. Qed.
Lemma plain_throw {A} (e : err) : plain (throw (A := A) e).
Proof. by apply plain_still. Qed.
Lemma plain_of_option {A} (e : err) (o : option A) : plain (of_option e o).
Proof. destruct o; [apply plain_ret | apply plain_throw]. Qed.
Lemma plain_bind {A B} (m : Gm A) (k : A -> Gm B) :
  plain m -> (forall a, plain (k a)) -> plain (m ≫= k).
Proof.
  intros Hm Hk s Hs. specialize (Hm s Hs). unfold mbind, M_bind.
  destruct (m s) as [[e|a] s1]; [done | by apply Hk].
Qed.
Lemma plain_when (b : bool) (m : Gm unit) : plain m -> plain (when b m).
Proof. intros Hm. destruct b; [done | apply plain_ret]. Qed.
Lemma plain_the_config r : plain (the_config r).
Proof.
  apply plain_bind; [by apply plain_still|]. intros s. apply plain_of_option.
Qed.
Lemma plain_c_str p : plain (c_str p).
Proof. apply plain_still. intros s. destruct p as [l|]; cbn; [|done]. by destruct (g_heap s !! l). Qed.
Lemma plain_g_free p : plain (g_free p).
Proof. apply plain_still. intros s. destruct p as [l|]; cbn; [|done]. by destruct (g_heap s !! l). Qed.
Lemma plain_g_strdup v : plain (g_strdup v).
Proof. apply plain_still. intros s. by destruct v. Qed.
Lemma plain_get_str f r : plain (get_str f r).
Proof. apply plain_bind; [apply plain_the_config | intros; apply plain_c_str]. Qed.
Lemma plain_get_int f r : plain (get_int f r).
Proof. apply plain_bind; [apply plain_the_config | intros; apply plain_ret]. Qed.

(** Changing an object one has read *)
Lemma plain_change {A} r (m : Gm A) (k : flom_config -> A -> flom_config) :
  plain m -> (forall s, global_config (m s).2 = global_config s) ->
  (forall c a f, f ∉ duplicated_members -> strs (k c a) f = strs c f) ->
  plain (c ← the_config r; a ← m; modify (put_flom_config r (k c a))).
Proof.
  intros Hp Hm Hk s Hs f Hf. unfold the_config, gets, mbind, M_bind.
  destruct r as [p|]; cbn.
  - destruct (g_configs s !! p) as [c|]; cbn; [|by apply Hs]. specialize (Hp s Hs f Hf).
    by destruct (m s) as [[e|a] s1].
  - specialize (Hp s Hs f Hf). specialize (Hm s). destruct (m s) as [[e|a] s1]; cbn; [done|].
    rewrite Hk by done. by apply Hs.
Qed.

Lemma plain_put_int f r v : plain (put_int f r v).
Proof.
  intros s Hs. refine (plain_change r (mret tt) (fun c _ => set_int f v c) _ _ _ s Hs); try done.
  apply plain_ret.
Qed.
Lemma plain_put_str f r v : f ∈ duplicated_members -> plain (put_str f r v).
Proof.
  intros Hf s Hs.
  assert (E : put_str f r v s =
    (c ← the_config r; a ← (_ ← (c' ← the_config r; g_free (strs c' f)); g_strdup v);
       modify (put_flom_config r (set_str f a c))) s).
  { unfold put_str, the_config, mbind, M_bind, gets.
    destruct r as [p|]; cbn; [destruct (g_configs s !! p) as [c|] eqn:Ec; cbn; rewrite ?Ec; cbn; [|done]|];
      destruct (g_free _ s) as [[e|u] s1]; cbn; first [done | by destruct v]. }
  rewrite E. apply (plain_change r _ (fun c a => set_str f a c)); [| | |done].
  - repeat first [apply plain_the_config | apply plain_g_free | apply plain_g_strdup | apply plain_bind; intros].
  - intros s1. unfold the_config, mbind, M_bind, gets. destruct r as [p|]; cbn.
    + destruct (g_configs s1 !! p) as [c|]; cbn; [|done]. destruct (strs c f) as [l|]; cbn;
        [destruct (g_heap s1 !! l); cbn|]; by destruct v.
    + destruct (strs (global_config s1) f) as [l|]; cbn; [destruct (g_heap s1 !! l); cbn|]; by destruct v.
  - intros c a g Hg. cbn. rewrite decide_False; [done|]. by intros ->.
Qed.
Lemma plain_absolute v : plain (absolute v).
Proof.
  apply plain_still. intros s. unfold absolute. by destruct (v <? 0); [destruct (v =? _)|].
Qed.
Lemma plain_signals r l : plain (flom_config_set_ignored_signals r l).
Proof.
  destruct l as [l|]; [|apply plain_ret]. intros s Hs.
  refine (plain_change r (mret tt) (fun c _ => set_signals (fold_left add_signal l []) c) _ _ _ s Hs); try done.
  apply plain_ret.
Qed.

Lemma plain_text_key file group key set : (forall v, plain (set v)) -> plain (text_key file group key set).
Proof. intros Hs. unfold text_key. destruct (key_file_get_string _ _ _); [done | apply plain_ret]. Qed.
Lemma plain_boolean_key file r group key set :
  (forall v, plain (set r v)) -> plain (boolean_key file r group key set).
Proof.
  intros Hs. apply plain_text_key. intros v.
  destruct (flom_bool_value_retrieve v); [done | done | apply plain_throw].
Qed.
Lemma plain_integer_key file r group key invalid set :
  (forall v, plain (set r v)) -> plain (integer_key file r group key invalid set).
Proof.
  intros Hs. unfold integer_key.
  destruct (key_file_get_integer _ _ _); [done | apply plain_ret | apply plain_throw].
Qed.
Lemma plain_no_key file group key set :
  key_file_get_string file group key = None -> plain (text_key file group key set).
Proof. intros Hn. unfold text_key. rewrite Hn. apply plain_ret. Qed.

Create HintDb plain.
Hint Resolve plain_ret plain_throw plain_of_option plain_when plain_the_config plain_get_str
  plain_get_int plain_put_int plain_absolute plain_signals : plain.
Hint Extern 2 (plain (put_str _ _ _)) => apply plain_put_str; apply (bool_decide_unpack _); exact I : plain.
Hint Extern 4 (plain _) =>
  first [ apply plain_put_int | apply plain_put_str; apply (bool_decide_unpack _); exact I
        | apply plain_get_int | apply plain_get_str ] : plain.

Definition no_tls_files : Prop := forall name file key,
  key_files name = Some file -> key ∈ ["TlsCertificate"; "TlsPrivateKey"; "TlsCaCertificate"] ->
  key_file_get_string file FLOM_CONFIG_GROUP_TLS key = None.

Ltac solve_plain :=
  repeat first
    [ progress intros
    | solve [auto with plain]
    | progress cbv beta delta [flom_config_set_resource_quantity flom_config_set_resource_idle_lifespan
        flom_config_set_unicast_port flom_config_set_multicast_port flom_config_set_discovery_attempts
        flom_config_set_discovery_timeout flom_config_set_discovery_ttl
        flom_config_set_tcp_keepalive_time flom_config_set_tcp_keepalive_intvl
        flom_config_set_tcp_keepalive_probes flom_config_set_socket_name flom_config_set_resource_name
        flom_config_set_mount_point_vfs flom_config_set_network_interface refused_as]
    | apply plain_no_key; assumption
    | apply plain_text_key
    | apply plain_boolean_key
    | apply plain_integer_key
    | apply plain_bind
    | apply plain_when
    | match goal with
      | |- plain (if ?b then _ else _) => destruct b
      | |- plain (match ?x with _ => _ end) => destruct x
      end ].

Lemma plain_load_file file r :
  (forall key, key ∈ ["TlsCertificate"; "TlsPrivateKey"; "TlsCaCertificate"] ->
     key_file_get_string file FLOM_CONFIG_GROUP_TLS key = None) -> plain (load_file file r).
Proof.
  intros Hn.
  assert (H1 := Hn "TlsCertificate" ltac:(set_solver)). assert (H2 := Hn "TlsPrivateKey" ltac:(set_solver)).
  assert (H3 := Hn "TlsCaCertificate" ltac:(set_solver)).
  unfold load_file, load_trace, load_resource, load_daemon, load_network, load_tls. solve_plain.
Qed.

Lemma plain_load_if_any r name : no_tls_files -> plain (load_if_any r name).
Proof.
  intros Hn s Hs. unfold load_if_any, attempt, mbind, M_bind.
  assert (Hl : config_has_no_tls (flom_config_init_load r name s).2).
  { unfold flom_config_init_load, mbind, M_bind. destruct (key_files name) as [file|] eqn:E; [|done].
    apply plain_load_file; [|done]. intros key Hk. by apply (Hn name file key). }
  destruct (flom_config_init_load r name s) as [[[rc| |]|u] s1]; cbn in *; try done.
  by apply plain_when; [apply plain_throw|].
Qed.

Lemma plain_config_init r : no_tls_files -> plain (flom_config_init r None).
Proof.
  intros Hn. unfold flom_config_init.
  do 2 (apply plain_bind; [by apply plain_load_if_any | intros _]). apply plain_ret.
Qed.

(** *** The other steps of the initialisation *)
Lemma keeps_assign r v f :
  keeps_owned r (c ← the_config r; p ← g_strdup v; modify (put_flom_config r (set_str f p c))).
Proof.
  intros s Ho [c Hc]. wp_step. eapply wp_the_config; [done|]. eapply wp_assign; [done..|].
  intros s' Ho' _ Hf. split; [|apply frame_aside; eapply frame_weaken; [|exact Hf]; by intros r' f' [-> _]].
  eapply owned_weaken; [|exact Ho']. by intros r' f' [[] _].
Qed.

Lemma keeps_config_check r : keeps_owned r (flom_config_check r).
Proof.
  unfold flom_config_check.
  repeat first
    [ progress intros
    | solve [auto with keeps_owned]
    | progress cbv beta delta [flom_config_set_resource_quantity]
    | apply keeps_assign
    | apply keeps_owned_bind
    | apply keeps_owned_when
    | match goal with |- keeps_owned _ (if ?b then _ else _) => destruct b end ].
Qed.

Lemma plain_config_check r : plain (flom_config_check r).
Proof.
  assert (Hd : plain (c ← the_config r; p ← g_strdup (Some default_socket_name);
    modify (put_flom_config r (set_str socket_name p c)))).
  { apply (plain_change r _ (fun c p => set_str socket_name p c)); [apply plain_g_strdup | done|].
    intros c p f Hf. cbn. rewrite decide_False; [done|]. intros ->. apply Hf.
    apply (bool_decide_unpack _). exact I. }
  unfold flom_config_check.
  repeat first [ apply plain_when; exact Hd | progress solve_plain ].
Qed.
End keeps.
