(* ===== verification/LockMode.v ===== *)
(** * LockMode: the lock modes and their compatibility

    The table [lock_table] that [flom_resource_simple_can_lock] and
    [flom_resource_hier_can_lock] ([src/src/flom_resource_simple.c],
    [src/src/flom_resource_hier.c]) each hold a copy of, and what it means. *)
From Stdlib Require Import ZArith List Lia Bool.
From stdpp Require Import base list numbers.
From S2P Require Import Prelude Types.
Local Open Scope Z_scope.

(** ** The table *)
Definition lock_table : list (list bool) :=
  [ [ true;  true;  true;  true;  true;  true ];
    [ true;  true;  true;  true;  true;  false ];
    [ true;  true;  true;  false; false; false ];
    [ true;  true;  false; true;  false; false ];
    [ true;  true;  false; false; false; false ];
    [ true;  false; false; false; false; false ] ].

(** [lock_table[old][new]]; outside the table the access is undefined *)
Definition lock_table_at (old new : Z) : option bool :=
  if (0 <=? old) && (0 <=? new) then
    row ← lock_table !! Z.to_nat old; row !! Z.to_nat new
  else None.

(** ** Specification: which lock modes exclude each other

    A mode gives its owner an access (none, read, write) and limits what the
    others may do at the same time; two modes are compatible when each one's
    access is within the other's limit. *)
Definition valid_mode (m : Z) : Prop := 0 <= m < FLOM_LOCK_MODE_N.

Definition own_access (m : Z) : Z :=
  if m =? FLOM_LOCK_MODE_NL then 0
  else if (m =? FLOM_LOCK_MODE_CR) || (m =? FLOM_LOCK_MODE_PR) then 1 else 2.
Definition allowed_to_others (m : Z) : Z :=
  if (m =? FLOM_LOCK_MODE_NL) || (m =? FLOM_LOCK_MODE_CR) || (m =? FLOM_LOCK_MODE_CW)
  then 2
  else if (m =? FLOM_LOCK_MODE_PR) || (m =? FLOM_LOCK_MODE_PW) then 1 else 0.
Definition compatible (a b : Z) : bool :=
  (own_access a <=? allowed_to_others b) && (own_access b <=? allowed_to_others a).

(** ** Lemmas *)
Lemma compatible_sym a b : compatible a b = compatible b a.
Proof. unfold compatible. apply andb_comm. Qed.

Ltac mode_cases m H :=
  assert (m = 0 \/ m = 1 \/ m = 2 \/ m = 3 \/ m = 4 \/ m = 5)
    as [-> | [-> | [-> | [-> | [-> | ->]]]]]
    by (unfold valid_mode, FLOM_LOCK_MODE_N in H; lia); clear H.

Lemma lock_table_compatible old new :
  valid_mode old -> valid_mode new -> lock_table_at old new = Some (compatible old new).
Proof. intros Ho Hn. mode_cases old Ho; mode_cases new Hn; reflexivity. Qed.

Lemma lock_table_none old new :
  ~ (valid_mode old /\ valid_mode new) -> lock_table_at old new = None.
Proof.
  intros Hv. unfold lock_table_at. destruct (0 <=? old) eqn:E1; [|done].
  destruct (0 <=? new) eqn:E2; [|done]. cbn [andb].
  apply Z.leb_le in E1, E2. unfold valid_mode, FLOM_LOCK_MODE_N in Hv.
  destruct (lock_table !! Z.to_nat old) as [row|] eqn:E; [|done]. cbn.
  assert (Hrow : length row = 6%nat).
  { eapply (Forall_lookup_1 (fun r => length r = 6%nat)); [|exact E].
    by repeat constructor. }
  apply lookup_lt_Some in E. cbn in E. apply lookup_ge_None. lia.
Qed.

(** ** Theorem *)
(** the lock table is the compatibility relation of the lock modes: for
    every pair of valid modes the entry says whether each mode's access is
    within what the other allows, the relation is symmetric, and outside the
    six modes there is no entry. *)
Theorem lock_table_correct old new :
  (valid_mode old -> valid_mode new ->
   lock_table_at old new = Some (compatible old new) /\
   lock_table_at old new = lock_table_at new old) /\
  (~ (valid_mode old /\ valid_mode new) -> lock_table_at old new = None).
Proof.
  split.
  - intros Ho Hn. rewrite !lock_table_compatible by done. by rewrite compatible_sym.
  - apply lock_table_none.
Qed.

(** ** The theorem at a concrete input *)
Lemma lock_table_correct_witness :
  lock_table_at FLOM_LOCK_MODE_CR FLOM_LOCK_MODE_PW = Some true.
Proof.
  refine (proj1 (proj1 (lock_table_correct FLOM_LOCK_MODE_CR FLOM_LOCK_MODE_PW) _ _));
    by unfold valid_mode.
Defined.
