(* ===== verification/ConnLock.v ===== *)
(** * ConnLock: lock/connection pairs, and what the six resources share

    [struct flom_rsrc_conn_lock_s] of [src/src/flom_rsrc.h], the searches and
    removals on lists of them, the answers an [inmsg] function builds, the
    notification a [waitings] function sends, and the scan every [waitings]
    function performs on its queue.  The six resource files repeat the same
    code; here it is one definition each, instantiated by the resources. *)
From Stdlib Require Import ZArith String List Lia.
From stdpp Require Import base list gmap numbers strings.
From S2P Require Import Prelude Types CStr RsrcName Msg MsgXml Vfs World.
Local Open Scope Z_scope.

(** ** Data: [I] is the member of the [info] union the resource uses *)
Record conn_lock (I : Type) : Type := Conn_lock {
  cl_info : I;
  cl_name : option string;
  cl_rollback : Z;
  cl_conn : conn_ref
}.
Arguments Conn_lock {I} _ _ _ _.
Arguments cl_info {I} _.
Arguments cl_name {I} _.
Arguments cl_rollback {I} _.
Arguments cl_conn {I} _.

Definition set_rollback {I} (r : Z) (cl : conn_lock I) : conn_lock I :=
  Conn_lock (cl_info cl) (cl_name cl) r (cl_conn cl).

(** [flom_rsrc_conn_lock_new], whose NULL result every caller turns into
    [G_TRY_MALLOC_ERROR]; the fields it zeroes and the caller then assigns are
    the arguments. *)
Definition flom_rsrc_conn_lock_new {I} (info : I) (conn : conn_ref) : Wm (conn_lock I) :=
  ok ← g_try_malloc;
  if (ok : bool) then mret (Conn_lock info None 0 conn)
  else throw (Rc FLOM_RC_G_TRY_MALLOC_ERROR).

(** ** Searching by connection

    The first entry of a connection; each entry is a separate allocation, so
    [g_slist_remove] of the entry found takes out exactly that one. *)
Section search.
Context {I : Type}.

Definition has_conn (c : conn_ref) (cl : conn_lock I) : bool :=
  bool_decide (cl_conn cl = c).

(** [flom_rsrc_conn_find] *)
Definition flom_rsrc_conn_find (l : list (conn_lock I)) (c : conn_ref)
    : option (conn_lock I) := List.find (has_conn c) l.

Fixpoint remove_conn (c : conn_ref) (l : list (conn_lock I)) : list (conn_lock I) :=
  match l with
  | [] => []
  | cl :: l => if has_conn c cl then l else cl :: remove_conn c l
  end.

Fixpoint update_conn (c : conn_ref) (f : conn_lock I -> conn_lock I)
    (l : list (conn_lock I)) : list (conn_lock I) :=
  match l with
  | [] => []
  | cl :: l => if has_conn c cl then f cl :: l else cl :: update_conn c f l
  end.

Lemma conn_find_split c l cl :
  flom_rsrc_conn_find l c = Some cl ->
  exists l1 l2, l = l1 ++ cl :: l2 /\ remove_conn c l = l1 ++ l2 /\
                cl_conn cl = c /\ Forall (fun x => cl_conn x <> c) l1.
Proof.
  unfold flom_rsrc_conn_find. induction l as [|x l IH]; [done|]. cbn.
  unfold has_conn in *. case_bool_decide as E.
  - intros [= <-]. exists [], l. auto.
  - intros H. destruct (IH H) as (l1 & l2 & -> & Hr & Hc & Hf).
    exists (x :: l1), l2. rewrite Hr. auto.
Qed.

Lemma conn_find_none c l :
  flom_rsrc_conn_find l c = None -> Forall (fun x => cl_conn x <> c) l.
Proof.
  unfold flom_rsrc_conn_find. induction l as [|x l IH]; [constructor|]. cbn.
  unfold has_conn in *. case_bool_decide; [done|]. auto.
Qed.

Lemma remove_conn_sublist c l : sublist (remove_conn c l) l.
Proof.
  induction l as [|x l IH]; [constructor|]. cbn. destruct (has_conn c x).
  - now apply sublist_cons.
  - now apply sublist_skip.
Qed.

Lemma remove_conn_submseteq c l : remove_conn c l ⊆+ l.
Proof. apply sublist_submseteq, remove_conn_sublist. Qed.

Lemma Forall_remove_conn (P : conn_lock I -> Prop) c l :
  Forall P l -> Forall P (remove_conn c l).
Proof.
  induction 1 as [|x l Hx Hl IH]; [constructor|]. cbn.
  destruct (has_conn c x); [done | by constructor].
Qed.

Lemma conn_find_update c f l :
  (forall cl, cl_conn (f cl) = cl_conn cl) ->
  flom_rsrc_conn_find (update_conn c f l) c = f <$> flom_rsrc_conn_find l c.
Proof.
  intros Hf. unfold flom_rsrc_conn_find. induction l as [|x l IH]; [done|].
  cbn. destruct (has_conn c x) eqn:E; cbn.
  - unfold has_conn in *. by rewrite Hf, E.
  - by rewrite E.
Qed.

Lemma remove_conn_update c f l :
  (forall cl, cl_conn (f cl) = cl_conn cl) ->
  remove_conn c (update_conn c f l) = remove_conn c l.
Proof.
  intros Hf. induction l as [|x l IH]; [done|]. cbn. destruct (has_conn c x) eqn:E; cbn.
  - unfold has_conn in *. by rewrite Hf, E.
  - by rewrite E, IH.
Qed.

Lemma remove_conn_none c l :
  Forall (fun x => cl_conn x <> c) l -> remove_conn c l = l.
Proof.
  induction 1 as [|x l Hx Hl IH]; [done|]. cbn. unfold has_conn.
  rewrite bool_decide_eq_false_2 by done. now rewrite IH.
Qed.
End search.

#[export] Hint Resolve Forall_remove_conn remove_conn_submseteq : core.

(** One element in the middle of a queue *)
Lemma delete_middle {A} (pre w : list A) x : delete (length pre) (pre ++ x :: w) = pre ++ w.
Proof. induction pre as [|y pre IH]; cbn; [done|]. now f_equal. Qed.

Lemma Forall_middle {A} (P : A -> Prop) pre x w :
  Forall P (pre ++ x :: w) <-> P x /\ Forall P (pre ++ w).
Proof. rewrite !Forall_app, Forall_cons. tauto. Qed.

(** ** The answers of an [inmsg] function *)
Section answers.
Context {D : Type}.

(** [flom_msg_free(msg); flom_msg_init(msg);] *)
Definition free_and_init_msg : Res D unit :=
  _ ← on_msg flom_msg_free;
  modify (put_msg flom_msg_init).

(** [flom_msg_build_answer(msg, FLOM_MSG_VERB_LOCK,
    flom_conn_get_last_step(conn) + FLOM_MSG_STEP_INCR, rc, element)] *)
Definition build_lock_answer (conn : conn_ref) (rc : Z) (element : option string)
    : Res D unit :=
  last ← on_world (flom_conn_get_last_step conn);
  w ← gets s_world;
  on_msg (flom_msg_build_answer (w_machine_id w) FLOM_MSG_VERB_LOCK
            (last + FLOM_MSG_STEP_INCR) rc element).

(** [flom_vfs_ram_tree_add_locker_conn] with the peer's name, its reason code
    only traced *)
Definition vfs_add_locker_conn (locker_uid : Z) (conn : conn_ref) (is_holder : bool)
    (lock_mode : Z) (quantity : option Z) (sequence_value timestamp_value : option string)
    : Res D unit :=
  o ← on_world (deref conn);
  on_world (on_vfs (flom_vfs_ram_tree_add_locker_conn locker_uid (c_uid o) is_holder
    (default ""%string (flom_tcp_retrieve_peer_name o)) lock_mode quantity sequence_value timestamp_value)).

Definition vfs_del_conn (conn : conn_ref) : Res D unit :=
  o ← on_world (deref conn);
  on_world (on_vfs (flom_vfs_ram_tree_del_conn (c_uid o) false)).

Definition vfs_move_locker_conn (conn : conn_ref) : Res D unit :=
  o ← on_world (deref conn);
  on_world (on_vfs (flom_vfs_ram_tree_move_locker_conn (c_uid o))).

(** The calls of [flom_vfs_ram_tree_add_locker_conn_file] in [waitings] functions *)
Definition vfs_add_locker_conn_file (locker_uid : Z) (conn : conn_ref)
    (file_name content : string) : Res D unit :=
  o ← on_world (deref conn);
  on_world (on_vfs (flom_vfs_ram_tree_add_locker_conn_file locker_uid (c_uid o)
    file_name (Some content))).
End answers.

(** ** [int] arithmetic: overflow is undefined *)
Definition c_int {D : Type} (z : Z) : Res D Z :=
  if (-2147483648 <=? z) && (z <=? 2147483647) then mret z else throw Ub.

Lemma c_int_ok {D} z (s : st D) : in_int32 z -> c_int z s = (inr z, s).
Proof.
  intros [H1 H2]. unfold c_int. by rewrite (proj2 (Z.leb_le _ _) H1), (proj2 (Z.leb_le _ _) H2).
Qed.

Lemma wp_c_int {D} z (Q : err + Z -> st D -> Prop) s :
  in_int32 z -> Q (inr z) s -> wp (c_int z) Q s.
Proof. intros Hz HQ. unfold wp. by rewrite c_int_ok. Qed.

Lemma c_int_terminates {D} z : terminates (c_int (D := D) z).
Proof. unfold c_int. solve_terminates. Qed.
#[export] Hint Resolve c_int_terminates : terminates.

(** ** The notification of a [waitings] function

    A message of its own, step 24, serialized in a network buffer and sent to
    the connection that was waiting. *)
Definition of_result {S A : Type} (r : err + A) : M err S A :=
  match r with inr a => mret a | inl e => throw e end.

Section notify.
Context `{Glib}.

Definition granted_msg (machine_id element : option string) : (err + unit) * flom_msg :=
  flom_msg_build_answer machine_id FLOM_MSG_VERB_LOCK (3 * FLOM_MSG_STEP_INCR)
    FLOM_RC_OK element flom_msg_init.

Definition notify_granted (conn : conn_ref) (element : option string) : Wm unit :=
  w ← gets (fun w : world => w);
  let '(r, msg) := granted_msg (w_machine_id w) element in
  _ ← of_result r;
  buf ← of_result (flom_msg_serialize FLOM_NETWORK_BUFFER_SIZE msg);
  _ ← flom_conn_send conn buf;
  _ ← flom_conn_set_last_step conn (msg_step msg);
  of_result (flom_msg_free msg).1.
End notify.

(** ** The scan of the queue

    [i] is the index of [g_queue_peek_nth]; a request that can be granted is
    popped and the index stays, any other is skipped.  Every round shortens
    what is left to look at, so the length of the queue is enough fuel. *)
Section waitings.
Context {D I G : Type}.
Variable queue : D -> list (conn_lock I).
Variable set_queue : list (conn_lock I) -> D -> D.
(** Can the request be granted now? *)
Variable try_lock : conn_lock I -> Res D (option G).
(** What is done with the popped request *)
Variable grant : G -> conn_lock I -> Res D unit.

Definition pop_nth (i : nat) (s : st D) : st D :=
  put_data (set_queue (delete i (queue (s_data s))) (s_data s)) s.

Fixpoint waitings_loop (fuel i : nat) : Res D unit :=
  match fuel with
  | O => throw NoFuel
  | S fuel =>
      q ← gets (fun s => queue (s_data s));
      match q !! i with
      | None => mret tt
      | Some cl =>
          g ← try_lock cl;
          match g with
          | Some g =>
              _ ← modify (pop_nth i);
              _ ← grant g cl;
              waitings_loop fuel i
          | None => waitings_loop fuel (S i)
          end
      end
  end.

Definition scan_waitings : Res D unit :=
  q ← gets (fun s => queue (s_data s));
  waitings_loop (S (length q)) 0.

(** The loop rule: [J pre w s] relates what was skipped, what is left and the
    state whose queue is [pre ++ w]. *)
Variable J : list (conn_lock I) -> list (conn_lock I) -> st D -> Prop.
Hypothesis J_queue : forall pre w s, J pre w s -> queue (s_data s) = pre ++ w.
Variable Q : err + unit -> st D -> Prop.
Hypothesis J_done : forall pre s, J pre [] s -> Q (inr tt) s.
Hypothesis J_step : forall pre cl w s, J pre (cl :: w) s ->
  wp (try_lock cl) (fun r s' =>
    match r with
    | inl e => Q (inl e) s'
    | inr None => J (pre ++ [cl]) w s'
    | inr (Some g) =>
        wp (grant g cl) (fun r s'' =>
          match r with
          | inl e => Q (inl e) s''
          | inr _ => J pre w s''
          end) (pop_nth (length pre) s')
    end) s.

Lemma wp_waitings_loop fuel : forall pre w s,
  J pre w s -> (length w < fuel)%nat -> wp (waitings_loop fuel (length pre)) Q s.
Proof using J_queue J_done J_step.
  induction fuel as [|fuel IH]; intros pre w s HJ Hf; [lia|].
  cbn [waitings_loop]. do 2 wp_step. rewrite (J_queue _ _ _ HJ).
  rewrite lookup_app_r, Nat.sub_diag by lia.
  destruct w as [|cl w]; cbn [lookup list_lookup].
  - apply wp_ret. eauto.
  - apply wp_bind. eapply wp_mono; [|exact (J_step _ _ _ _ HJ)].
    intros [e|[g|]] s' Hr; [exact Hr| |].
    + do 2 wp_step. apply wp_bind. eapply wp_mono; [|exact Hr].
      intros [e|u] s'' Hr'; [exact Hr'|]. apply (IH pre w); [exact Hr'|]. cbn in Hf. lia.
    + replace (S (length pre)) with (length (pre ++ [cl]))
        by (rewrite length_app; cbn; lia).
      apply (IH _ w); [exact Hr|]. cbn in Hf. lia.
Qed.

Lemma wp_scan_waitings s :
  J [] (queue (s_data s)) s -> wp scan_waitings Q s.
Proof using J_queue J_done J_step.
  intros HJ. unfold scan_waitings. do 2 wp_step.
  apply (wp_waitings_loop _ [] _ _ HJ). lia.
Qed.
End waitings.

(** ** Programs that leave the resource alone

    The answers, the notification and the tree only touch the message and the
    world: whatever they do, and however they fail, the data and the name of
    the resource stay. *)
Class Frame {D A : Type} (m : Res D A) : Prop :=
  frame : forall s, s_data (m s).2 = s_data s /\ s_name (m s).2 = s_name s.

Section frame.
Context {D : Type}.

#[global] Instance frame_ret {A} (a : A) : Frame (D := D) (mret a).
Proof. done. Qed.
#[global] Instance frame_throw {A} e : Frame (D := D) (A := A) (throw e).
Proof. done. Qed.
#[global] Instance frame_gets {A} (f : st D -> A) : Frame (gets f).
Proof. done. Qed.
#[global] Instance frame_on_world {A} (m : Wm A) : Frame (D := D) (on_world m).
Proof. intros s. unfold on_world, zoom. now destruct (m (s_world s)). Qed.
#[global] Instance frame_on_msg {A} (m : M err flom_msg A) : Frame (D := D) (on_msg m).
Proof. intros s. unfold on_msg, zoom. now destruct (m (s_msg s)). Qed.
#[global] Instance frame_put_msg m : Frame (D := D) (modify (put_msg m)).
Proof. done. Qed.
#[global] Instance frame_bind {A B} (m : Res D A) (k : A -> Res D B) :
  Frame m -> (forall a, Frame (k a)) -> Frame (m ≫= k).
Proof.
  intros Hm Hk s. unfold mbind, M_bind. pose proof (Hm s) as [H1 H2].
  destruct (m s) as [[e|a] s']; [done|].
  destruct (Hk a s') as [H3 H4]. cbn in *. split; congruence.
Qed.
#[global] Instance frame_of_option {A} e (o : option A) :
  Frame (D := D) (of_option e o).
Proof. now destruct o. Qed.
#[global] Instance frame_if {A} (b : bool) (m n : Res D A) :
  Frame m -> Frame n -> Frame (if b then m else n).
Proof. now destruct b. Qed.
End frame.

Ltac solve_frame :=
  lazymatch goal with
  | |- Frame (mbind _ _) => apply frame_bind; [|intros ?]; solve_frame
  | |- Frame (if _ then _ else _) => apply frame_if; solve_frame
  | |- Frame _ => apply _
  end.

Section frame_shared.
Context {D : Type}.

#[global] Instance frame_free_and_init_msg : Frame (D := D) free_and_init_msg.
Proof. unfold free_and_init_msg. solve_frame. Qed.
#[global] Instance frame_build_lock_answer c rc e :
  Frame (D := D) (build_lock_answer c rc e).
Proof. unfold build_lock_answer. solve_frame. Qed.
#[global] Instance frame_vfs_add c u b m q x y :
  Frame (D := D) (vfs_add_locker_conn u c b m q x y).
Proof. unfold vfs_add_locker_conn. solve_frame. Qed.
#[global] Instance frame_vfs_add_file u c n x :
  Frame (D := D) (vfs_add_locker_conn_file u c n x).
Proof. unfold vfs_add_locker_conn_file. solve_frame. Qed.
#[global] Instance frame_vfs_del c : Frame (D := D) (vfs_del_conn c).
Proof. unfold vfs_del_conn. solve_frame. Qed.
#[global] Instance frame_vfs_move c : Frame (D := D) (vfs_move_locker_conn c).
Proof. unfold vfs_move_locker_conn. solve_frame. Qed.

Lemma wp_frame {A} (m : Res D A) (Q : err + A -> st D -> Prop) s :
  Frame m ->
  (forall r s', s_data s' = s_data s -> s_name s' = s_name s -> Q r s') ->
  wp m Q s.
Proof. intros Hm HQ. destruct (Hm s). unfold wp. auto. Qed.
End frame_shared.

(** Step over a program that frames the resource *)
Ltac wp_frame_step :=
  apply wp_frame; [solve_frame | let r := fresh "r" in let s := fresh "s" in
    let Hd := fresh "Hd" in let Hn := fresh "Hn" in
    intros r s Hd Hn; try (destruct r); cbn beta iota].

(** The data of a state from that of the state it comes from *)
Ltac follow_data :=
  repeat (match goal with
          | E : s_data ?s = _ |- context [s_data ?s] => rewrite E
          end; cbn [s_data put_data put_world put_msg put_name put_deadline]).

(** ** Programs that leave a part of the state alone *)
Class Keeps {S A T : Type} (f : S -> T) (m : M err S A) : Prop :=
  keeps : forall s, f (m s).2 = f s.

Section keeps.
Context {S T : Type} (f : S -> T).

#[global] Instance keeps_ret {A} (a : A) : Keeps f (mret a).
Proof. done. Qed.
#[global] Instance keeps_throw {A} e : Keeps f (throw (A := A) e).
Proof. done. Qed.
#[global] Instance keeps_gets {A} (g : S -> A) : Keeps f (gets g).
Proof. done. Qed.
#[global] Instance keeps_of_option {A} e (o : option A) : Keeps f (of_option e o).
Proof. now destruct o. Qed.
#[global] Instance keeps_of_result {A} (r : err + A) : Keeps f (of_result r).
Proof. now destruct r. Qed.
#[global] Instance keeps_if {A} (b : bool) (m n : M err S A) :
  Keeps f m -> Keeps f n -> Keeps f (if b then m else n).
Proof. now destruct b. Qed.
#[global] Instance keeps_when (b : bool) (m : M err S unit) :
  Keeps f m -> Keeps f (when b m).
Proof. now destruct b. Qed.
#[global] Instance keeps_bind {A B} (m : M err S A) (k : A -> M err S B) :
  Keeps f m -> (forall a, Keeps f (k a)) -> Keeps f (m ≫= k).
Proof.
  intros Hm Hk s. unfold mbind, M_bind. pose proof (Hm s) as H1.
  destruct (m s) as [[e|a] s']; [done|]. cbn in H1. rewrite <- H1. apply Hk.
Qed.
End keeps.

Ltac solve_keeps :=
  lazymatch goal with
  | |- Keeps _ (mbind _ _) => apply keeps_bind; [|intros ?]; solve_keeps
  | |- Keeps _ (when _ _) => apply keeps_when; solve_keeps
  | |- Keeps _ (if ?b then _ else _) => destruct b; solve_keeps
  | |- Keeps _ (match ?x with _ => _ end) => destruct x; solve_keeps
  | |- Keeps _ (let _ := _ in _) => intros ?; solve_keeps
  | |- Keeps _ (modify _) => first [solve [intros ?; reflexivity] | apply _]
  | |- Keeps _ _ => apply _
  end.

(** *** The clock is read by [gettimeofday] only *)
Section clock.
Context `{Glib} {D : Type}.

Definition clock (s : st D) : list (option timeval) := w_clock (s_world s).

#[global] Instance clock_on_world {A} (m : Wm A) : Keeps w_clock m -> Keeps clock (on_world m).
Proof.
  intros Hm s. unfold on_world, zoom, clock. pose proof (Hm (s_world s)) as E.
  now destruct (m (s_world s)).
Qed.
#[global] Instance clock_on_msg {A} (m : M err flom_msg A) : Keeps clock (on_msg m).
Proof. intros s. unfold on_msg, zoom. now destruct (m (s_msg s)). Qed.
#[global] Instance clock_put_msg m : Keeps clock (modify (put_msg m)).
Proof. done. Qed.
#[global] Instance clock_deref c : Keeps w_clock (deref c).
Proof. unfold deref. solve_keeps. Qed.
#[global] Instance clock_on_vfs f : Keeps w_clock (on_vfs f).
Proof. intros w. unfold on_vfs. now destruct (f (w_vfs w)). Qed.
#[global] Instance clock_malloc : Keeps w_clock g_try_malloc.
Proof. intros w. unfold g_try_malloc. now destruct (w_mallocs w). Qed.
#[global] Instance clock_next_send : Keeps w_clock next_send.
Proof. intros w. unfold next_send. now destruct (w_sends w). Qed.

#[global] Instance clock_send c b : Keeps w_clock (flom_conn_send c b).
Proof. unfold flom_conn_send, flom_tls_send, flom_tcp_send, wire. solve_keeps. Qed.
#[global] Instance clock_notify c e : Keeps w_clock (notify_granted c e).
Proof.
  unfold notify_granted, flom_conn_set_last_step. apply keeps_bind; [apply _ | intros w].
  destruct (granted_msg _ _). solve_keeps.
Qed.
#[global] Instance clock_free_msg : Keeps clock (free_and_init_msg (D := D)).
Proof. unfold free_and_init_msg. solve_keeps. Qed.
#[global] Instance clock_build c rc e : Keeps clock (build_lock_answer (D := D) c rc e).
Proof. unfold build_lock_answer, flom_conn_get_last_step. solve_keeps. Qed.
#[global] Instance clock_vfs_add c u b m q x y :
  Keeps clock (vfs_add_locker_conn (D := D) u c b m q x y).
Proof. unfold vfs_add_locker_conn. solve_keeps. Qed.
#[global] Instance clock_vfs_add_file c u n x :
  Keeps clock (vfs_add_locker_conn_file (D := D) u c n x).
Proof. unfold vfs_add_locker_conn_file. solve_keeps. Qed.
#[global] Instance clock_vfs_del c : Keeps clock (vfs_del_conn (D := D) c).
Proof. unfold vfs_del_conn. solve_keeps. Qed.
#[global] Instance clock_vfs_move c : Keeps clock (vfs_move_locker_conn (D := D) c).
Proof. unfold vfs_move_locker_conn. solve_keeps. Qed.
#[global] Instance clock_conn_lock_new {I} (i : I) c :
  Keeps w_clock (flom_rsrc_conn_lock_new i c).
Proof. unfold flom_rsrc_conn_lock_new. solve_keeps. Qed.

Lemma wp_frame_clock {A} (m : Res D A) (Q : err + A -> st D -> Prop) s :
  Frame m -> Keeps clock m ->
  (forall r s', s_data s' = s_data s -> clock s' = clock s -> Q r s') -> wp m Q s.
Proof. intros Hm Hc HQ. destruct (Hm s). unfold wp. apply HQ; [done | apply Hc]. Qed.
End clock.

#[global] Typeclasses Opaque free_and_init_msg build_lock_answer vfs_add_locker_conn
  vfs_add_locker_conn_file vfs_del_conn vfs_move_locker_conn notify_granted
  flom_rsrc_conn_lock_new on_world on_msg flom_conn_send.

(** ** The notification when the network works *)
Definition sends_ok (w : world) : Prop := Forall (eq SendAll) (w_sends w).

Section notify_ok.
Context `{Glib}.

Definition after_notify (conn : conn_ref) (o : flom_conn) (el : option string)
    (w : world) : world :=
  World (<[conn := set_last_step (3 * FLOM_MSG_STEP_INCR) o]> (w_conns w)) (w_vfs w)
    (w_sent w ++ [(conn, granted_text el)]) (tail (w_sends w)) (w_mallocs w)
    (w_clock w) (w_machine_id w).

(** A connection that bytes can be written to *)
Definition writable (o : flom_conn) : bool := c_tls o || has_fd o.

Lemma conn_send_ok conn o buf w :
  w_conns w !! conn = Some o -> writable o = true -> sends_ok w ->
  flom_conn_send conn buf w =
    (inr tt, set_sent (w_sent w ++ [(conn, buf)]) (set_sends (tail (w_sends w)) w)).
Proof.
  intros Hc Ho Hs. unfold flom_conn_send, flom_tcp_send, deref, next_send, mbind, M_bind, gets.
  cbn. rewrite Hc. cbn. unfold sends_ok in Hs. unfold writable in Ho.
  destruct w as [cs vfs sent sends mal clk mid]. cbn in *.
  destruct Hs as [|r l <- Hs]; cbn; destruct (c_tls o); cbn in Ho; try rewrite Ho; reflexivity.
Qed.

Lemma notify_granted_ok conn o el w :
  w_conns w !! conn = Some o -> writable o = true -> sends_ok w ->
  strlen (granted_text el) < FLOM_NETWORK_BUFFER_SIZE ->
  notify_granted conn el w = (inr tt, after_notify conn o el w).
Proof.
  intros Hc Ho Hs Hl. unfold notify_granted, mbind, M_bind, gets.
  change (granted_msg (w_machine_id w) el) with
    (@inr err unit tt, Msg FLOM_MSG_STATE_READY
       (Header FLOM_MSG_LEVEL FLOM_MSG_VERB_LOCK (3 * FLOM_MSG_STEP_INCR))
       (body_lock_24 (Answer FLOM_RC_OK el))).
  cbn beta iota. cbn [of_result mret M_ret].
  rewrite serialize_lock_24 by exact Hl. cbn [of_result].
  change (mret ?a) with (fun s : world => (@inr err _ a, s)). cbn beta iota.
  rewrite (conn_send_ok _ o) by assumption. cbn beta iota.
  unfold flom_conn_set_last_step, deref, mbind, M_bind, gets. cbn.
  rewrite Hc. reflexivity.
Qed.

(** A pending [EPIPE] on a plain connection: nothing is written *)
Lemma notify_granted_dead conn o el l w :
  w_conns w !! conn = Some o -> c_tls o = false -> has_fd o = true ->
  w_sends w = PendingError EPIPE :: l ->
  strlen (granted_text el) < FLOM_NETWORK_BUFFER_SIZE ->
  notify_granted conn el w = (inl (Rc FLOM_RC_CONNECTION_CLOSED), set_sends l w).
Proof.
  intros Hc Ht Hfd Hs Hl. unfold notify_granted, mbind, M_bind, gets.
  change (granted_msg (w_machine_id w) el) with
    (@inr err unit tt, Msg FLOM_MSG_STATE_READY
       (Header FLOM_MSG_LEVEL FLOM_MSG_VERB_LOCK (3 * FLOM_MSG_STEP_INCR))
       (body_lock_24 (Answer FLOM_RC_OK el))).
  cbn beta iota. cbn [of_result mret M_ret].
  rewrite serialize_lock_24 by exact Hl. cbn [of_result].
  change (mret ?a) with (fun s : world => (@inr err _ a, s)). cbn beta iota.
  unfold flom_conn_send, flom_tcp_send, deref, next_send, mbind, M_bind, gets. cbn.
  rewrite Hc. cbn. rewrite Hs, Ht. cbn. rewrite Hfd. reflexivity.
Qed.

Lemma after_notify_sends conn o el w : sends_ok w -> sends_ok (after_notify conn o el w).
Proof. unfold sends_ok. cbn. destruct 1; auto. Qed.
End notify_ok.

(** ** Exact steps *)
Lemma wp_exact {E S A} (m : M E S A) Q s r s' :
  m s = (r, s') -> Q r s' -> wp m Q s.
Proof. unfold wp. now intros ->. Qed.

Lemma wp_on_world {D A} (m : Wm A) (Q : err + A -> st D -> Prop) s r w' :
  m (s_world s) = (r, w') -> Q r (put_world w' s) -> wp (on_world m) Q s.
Proof. unfold wp, on_world, zoom. now intros ->. Qed.

(** A connection object that exists, and one that can be written to *)
(** The same connections, up to the step they are at *)
Definition same_conns (w w' : world) : Prop :=
  forall c, set_last_step 0 <$> w_conns w' !! c = set_last_step 0 <$> w_conns w !! c.

Definition known (w : world) (c : conn_ref) : Prop := is_Some (w_conns w !! c).
Definition live (w : world) (c : conn_ref) : Prop :=
  exists o, w_conns w !! c = Some o /\ writable o = true.

Lemma live_known w c : live w c -> known w c.
Proof. intros (o & Ho & _). by exists o. Qed.

Section vfs_steps.
Context {D : Type}.

Lemma wp_deref {A} c o (k : flom_conn -> Res D A) Q s :
  w_conns (s_world s) !! c = Some o -> wp (k o) Q s -> wp (on_world (deref c) ≫= k) Q s.
Proof.
  intros Ho HQ. apply wp_bind. eapply wp_on_world.
  - unfold deref, mbind, M_bind, gets. rewrite Ho. reflexivity.
  - now destruct s.
Qed.

Lemma wp_on_vfs f (Q : err + unit -> st D -> Prop) s :
  (forall t, Q (inr tt) (put_world (set_vfs t (s_world s)) s)) ->
  wp (on_world (on_vfs f)) Q s.
Proof.
  intros HQ. destruct (f (w_vfs (s_world s))) as [r t] eqn:E.
  eapply wp_on_world; [unfold on_vfs; now rewrite E | apply HQ].
Qed.

(** Without a live connection the call is undefined; it never fails otherwise. *)
Lemma wp_deref_any {A} c (k : flom_conn -> Res D A) Q s :
  Q (inl Ub) s ->
  (forall o, w_conns (s_world s) !! c = Some o -> wp (k o) Q s) ->
  wp (on_world (deref c) ≫= k) Q s.
Proof.
  intros Hub HQ. destruct (w_conns (s_world s) !! c) as [o|] eqn:E.
  - eapply wp_deref; eauto.
  - apply wp_bind. eapply wp_on_world.
    + unfold deref, mbind, M_bind, gets. rewrite E. reflexivity.
    + now destruct s.
Qed.

Lemma wp_vfs_add_any u c b m q x y (Q : err + unit -> st D -> Prop) s :
  Q (inl Ub) s -> (forall t, Q (inr tt) (put_world (set_vfs t (s_world s)) s)) ->
  wp (vfs_add_locker_conn u c b m q x y) Q s.
Proof. intros Hub HQ. apply wp_deref_any; auto using wp_on_vfs. Qed.

Lemma wp_vfs_move c (Q : err + unit -> st D -> Prop) s :
  known (s_world s) c -> (forall t, Q (inr tt) (put_world (set_vfs t (s_world s)) s)) ->
  wp (vfs_move_locker_conn c) Q s.
Proof. intros [o Ho] HQ. eapply wp_deref; eauto using wp_on_vfs. Qed.

Lemma wp_vfs_del c (Q : err + unit -> st D -> Prop) s :
  known (s_world s) c -> (forall t, Q (inr tt) (put_world (set_vfs t (s_world s)) s)) ->
  wp (vfs_del_conn c) Q s.
Proof. intros [o Ho] HQ. eapply wp_deref; eauto using wp_on_vfs. Qed.

Lemma wp_vfs_add u c b m q x y (Q : err + unit -> st D -> Prop) s :
  known (s_world s) c -> (forall t, Q (inr tt) (put_world (set_vfs t (s_world s)) s)) ->
  wp (vfs_add_locker_conn u c b m q x y) Q s.
Proof. intros [o Ho] HQ. eapply wp_deref; eauto using wp_on_vfs. Qed.

Lemma wp_vfs_add_file u c n x (Q : err + unit -> st D -> Prop) s :
  known (s_world s) c -> (forall t, Q (inr tt) (put_world (set_vfs t (s_world s)) s)) ->
  wp (vfs_add_locker_conn_file u c n x) Q s.
Proof. intros [o Ho] HQ. eapply wp_deref; eauto using wp_on_vfs. Qed.
End vfs_steps.

(** ** The scan when the network works

    A pure account of the scan: which requests of the queue are granted, in
    which order, and what becomes of the data.  [ptry] says whether a request
    can be granted, [papply] what granting does to the data, [el] which element
    the client is told. *)
Section wake.
Context `{Glib} {D I G P : Type}.
Variable queue : D -> list (conn_lock I).
Variable set_queue : list (conn_lock I) -> D -> D.
Variable ptry : D -> conn_lock I -> option G.
Variable papply : G -> conn_lock I -> D -> D.

Fixpoint wake (d : D) (w : list (conn_lock I))
    : list (conn_lock I * G) * list (conn_lock I) * D :=
  match w with
  | [] => ([], [], d)
  | x :: w =>
      match ptry d x with
      | Some g => let '(gs, r, d') := wake (papply g x d) w in ((x, g) :: gs, r, d')
      | None => let '(gs, r, d') := wake d w in (gs, x :: r, d')
      end
  end.

Hypothesis queue_set : forall q d, queue (set_queue q d) = q.
Hypothesis set_set : forall q q' d, set_queue q (set_queue q' d) = set_queue q d.
Hypothesis set_same : forall d, set_queue (queue d) d = d.
Hypothesis queue_apply : forall g x d, queue (papply g x d) = queue d.
Hypothesis ptry_set : forall q d x, ptry (set_queue q d) x = ptry d x.
Hypothesis papply_set : forall g x q d,
  papply g x (set_queue q d) = set_queue q (papply g x d).

Lemma wake_set q w : forall d,
  wake (set_queue q d) w = let '(gs, r, d') := wake d w in (gs, r, set_queue q d').
Proof using ptry_set papply_set.
  induction w as [|x w IH]; intros d; cbn; [done|].
  rewrite ptry_set. destruct (ptry d x) as [g|].
  - rewrite papply_set, IH. by destruct (wake (papply g x d) w) as [[??]?].
  - rewrite IH. by destruct (wake d w) as [[??]?].
Qed.

Variable el : G -> option string.
(** The part of the decision that the program passes on *)
Variable proj : G -> P.
Variable try_lock : conn_lock I -> Res D (option P).
Variable grant : P -> conn_lock I -> Res D unit.
(** What the data must satisfy for the two programs to behave as [ptry] and
    [papply] say *)
Variable inv : D -> Prop.

(** The effect of a notification on the world *)
Definition told (l : list (conn_ref * option string)) (w w' : world) : Prop :=
  w_sent w' = w_sent w ++ map (fun '(c, e) => (c, granted_text e)) l /\
  sends_ok w' /\ (forall c, live w c -> live w' c) /\ (forall c, known w c -> known w' c) /\
  w_mallocs w' = w_mallocs w /\ w_machine_id w' = w_machine_id w /\ same_conns w w'.

Hypothesis try_ok : forall cl s, inv (s_data s) -> cl ∈ queue (s_data s) ->
  try_lock cl s = (inr (proj <$> ptry (s_data s) cl), s).
Hypothesis grant_ok : forall g cl s d Q,
  inv d -> ptry d cl = Some g -> cl ∈ queue d ->
  s_data s = set_queue (queue (s_data s)) d ->
  sends_ok (s_world s) -> live (s_world s) (cl_conn cl) ->
  (forall s', s_data s' = papply g cl (s_data s) -> s_name s' = s_name s ->
     s_msg s' = s_msg s ->
     told [(cl_conn cl, el g)] (s_world s) (s_world s') -> Q (inr tt) s') ->
  wp (grant (proj g) cl) Q s.
Hypothesis inv_grant : forall g pre cl w d, inv d -> queue d = pre ++ cl :: w ->
  ptry d cl = Some g -> inv (papply g cl (set_queue (pre ++ w) d)).

Lemma told_refl w : sends_ok w -> told [] w w.
Proof. intros Hs. unfold told. rewrite app_nil_r. by split_and!. Qed.

Lemma told_trans l1 l2 w1 w2 w3 :
  told l1 w1 w2 -> told l2 w2 w3 -> told (l1 ++ l2) w1 w3.
Proof.
  intros (A1 & A2 & A3 & A4 & A5 & A6 & A7) (B1 & B2 & B3 & B4 & B5 & B6 & B7).
  unfold told. rewrite map_app, app_assoc. split_and!; try congruence; auto.
Qed.

Definition wake_inv (d0 : D) (w0 : world) (n0 : option string) (m0 : flom_msg)
    (pre w : list (conn_lock I)) (s : st D) : Prop :=
  queue (s_data s) = pre ++ w /\ inv (s_data s) /\ s_name s = n0 /\ s_msg s = m0 /\
  Forall (fun cl => live (s_world s) (cl_conn cl)) w /\
  exists gs0, told (map (fun p => (cl_conn p.1, el p.2)) gs0) w0 (s_world s) /\
    wake d0 (queue d0) =
      let '(gs, r, d') := wake (s_data s) w in
      (gs0 ++ gs, pre ++ r, set_queue (queue d0) d').

Lemma wake_inv_step d0 w0 n0 m0 (Q : err + unit -> st D -> Prop) pre cl w s :
  wake_inv d0 w0 n0 m0 pre (cl :: w) s ->
  wp (try_lock cl) (fun r s' =>
    match r with
    | inl e => Q (inl e) s'
    | inr None => wake_inv d0 w0 n0 m0 (pre ++ [cl]) w s'
    | inr (Some g) =>
        wp (grant g cl) (fun r s'' =>
          match r with
          | inl e => Q (inl e) s''
          | inr _ => wake_inv d0 w0 n0 m0 pre w s''
          end) (pop_nth queue set_queue (length pre) s')
    end) s.
Proof using queue_set set_set set_same queue_apply ptry_set papply_set try_ok grant_ok
  inv_grant.
  intros (Hq & Hi & Hn & Hm & Hl & gs0 & Ht & Hw).
  inversion Hl as [|? ? Hlc Hlw]; subst.
  assert (Hin : cl ∈ queue (s_data s)) by (rewrite Hq; set_solver).
  eapply wp_exact; [exact (try_ok cl s Hi Hin)|].
  cbn [wake] in Hw. destruct (ptry (s_data s) cl) as [g|] eqn:Hp; cbn [fmap option_fmap option_map].
  - assert (Hd : s_data (pop_nth queue set_queue (length pre) s) =
                 set_queue (pre ++ w) (s_data s)).
    { cbn. now rewrite Hq, delete_middle. }
    apply grant_ok with (d := s_data s); auto.
    { now rewrite Hd, queue_set. }
    { apply Ht. }
    intros s' Hd' Hn' Hm' Ht'. rewrite Hd in Hd'. unfold wake_inv. rewrite Hd'.
    split_and!; eauto.
    + now rewrite queue_apply, queue_set.
    + eapply Forall_impl; [exact Hlw|]. intros x Hx. apply Ht'. exact Hx.
    + exists (gs0 ++ [(cl, g)]). split.
      { rewrite map_app. eapply told_trans; eauto. }
      rewrite Hw, papply_set, wake_set.
      destruct (wake (papply g cl (s_data s)) w) as [[gs r] d'].
      rewrite set_set, <- app_assoc. done.
  - split_and!; auto.
    + now rewrite <- app_assoc.
    + exists gs0. split; [done|]. rewrite Hw.
      destruct (wake (s_data s) w) as [[gs r] d']. now rewrite <- app_assoc.
Qed.

Lemma wp_scan_wake s (Q : err + unit -> st D -> Prop) :
  inv (s_data s) -> sends_ok (s_world s) ->
  Forall (fun cl => live (s_world s) (cl_conn cl)) (queue (s_data s)) ->
  (forall gs r d' s',
     wake (s_data s) (queue (s_data s)) = (gs, r, d') ->
     s_data s' = set_queue r d' -> inv (s_data s') ->
     s_name s' = s_name s -> s_msg s' = s_msg s ->
     told (map (fun p => (cl_conn p.1, el p.2)) gs) (s_world s) (s_world s') ->
     Q (inr tt) s') ->
  wp (scan_waitings queue set_queue try_lock grant) Q s.
Proof using queue_set set_set set_same queue_apply ptry_set papply_set try_ok grant_ok
  inv_grant.
  intros Hi Hs Hl HQ.
  apply wp_scan_waitings with
    (J := wake_inv (s_data s) (s_world s) (s_name s) (s_msg s)).
  - now intros pre w s' [? _].
  - intros pre s' (Hq & Hi' & Hn & Hm & _ & gs0 & Ht & Hw). cbn [wake] in Hw.
    rewrite !app_nil_r in *. eapply HQ; eauto.
    rewrite set_set. rewrite <- Hq. now rewrite set_same.
  - intros. now apply wake_inv_step.
  - split_and!; auto. exists []. split; [now apply told_refl|].
    destruct (wake (s_data s) (queue (s_data s))) as [[gs r] d'] eqn:E.
    pose proof (wake_set (queue (s_data s)) (queue (s_data s)) (s_data s)) as Hw.
    rewrite set_same, E in Hw. cbn in Hw |- *. congruence.
Qed.
End wake.

(** The notification as a step, for a grant *)
Lemma wp_notify_granted `{Glib} {D} conn el (Q : err + unit -> st D -> Prop) s :
  sends_ok (s_world s) -> live (s_world s) conn ->
  strlen (granted_text el) < FLOM_NETWORK_BUFFER_SIZE ->
  (forall w', told [(conn, el)] (s_world s) w' -> live w' conn ->
     Q (inr tt) (put_world w' s)) ->
  wp (on_world (notify_granted conn el)) Q s.
Proof.
  intros Hs (o & Ho & Hw) Hlen HQ. eapply wp_on_world; [by apply notify_granted_ok|].
  assert (Hl : forall c, live (s_world s) c -> live (after_notify conn o el (s_world s)) c).
  { intros c Hc. unfold live in *. cbn. destruct (decide (c = conn)) as [->|Hne].
    - rewrite lookup_insert_eq. eauto.
    - by rewrite lookup_insert_ne by done. }
  assert (Hk : forall c, known (s_world s) c -> known (after_notify conn o el (s_world s)) c).
  { intros c Hc. unfold known in *. cbn. destruct (decide (c = conn)) as [->|Hne].
    - rewrite lookup_insert_eq. eauto.
    - by rewrite lookup_insert_ne by done. }
  apply HQ; [|apply Hl; by exists o].
  split_and!; [done | by apply after_notify_sends | exact Hl | exact Hk | done..|].
  intros c. cbn. destruct (decide (c = conn)) as [->|Hne].
  - by rewrite lookup_insert_eq, Ho.
  - by rewrite lookup_insert_ne.
Qed.

(** ** The answers when nothing fails *)
Definition lock_request (b : body_lock_8) : flom_msg :=
  Msg FLOM_MSG_STATE_READY (Header FLOM_MSG_LEVEL FLOM_MSG_VERB_LOCK FLOM_MSG_STEP_INCR)
    (body_lock_8_ b).
Definition unlock_request (name : option string) (rollback : Z) : flom_msg :=
  Msg FLOM_MSG_STATE_READY (Header FLOM_MSG_LEVEL FLOM_MSG_VERB_UNLOCK FLOM_MSG_STEP_INCR)
    (body_unlock_8 name rollback).
Definition lock_answer (mid : string) (rc : Z) (element : option string) : flom_msg :=
  Msg FLOM_MSG_STATE_READY
    (Header FLOM_MSG_LEVEL FLOM_MSG_VERB_LOCK (2 * FLOM_MSG_STEP_INCR))
    (body_lock_16 (Some mid) (Answer rc element)).

(** The connection has just sent a first-step message, the machine has an
    identifier and memory is available. *)
Definition can_answer (w : world) (conn : conn_ref) (mid : string) : Prop :=
  (exists o, w_conns w !! conn = Some o /\ c_last_step o = FLOM_MSG_STEP_INCR) /\
  w_machine_id w = Some mid /\ Forall (eq true) (w_mallocs w).

Section answer_steps.
Context {D : Type}.

Lemma can_answer_known w conn mid : can_answer w conn mid -> known w conn.
Proof. intros ((o & Ho & _) & _). now exists o. Qed.

Lemma can_answer_set_vfs t w conn mid :
  can_answer (set_vfs t w) conn mid <-> can_answer w conn mid.
Proof. done. Qed.

Lemma wp_free_lock_request b (Q : err + unit -> st D -> Prop) s :
  s_msg s = lock_request b -> Q (inr tt) (put_msg flom_msg_init s) ->
  wp free_and_init_msg Q s.
Proof. destruct s as [n d m w dl]. cbn. now intros ->. Qed.

Lemma wp_free_unlock_request n r (Q : err + unit -> st D -> Prop) s :
  s_msg s = unlock_request n r -> Q (inr tt) (put_msg flom_msg_init s) ->
  wp free_and_init_msg Q s.
Proof. destruct s as [n' d m w dl]. cbn. now intros ->. Qed.

Lemma wp_build_lock_answer conn mid rc el (Q : err + unit -> st D -> Prop) s :
  can_answer (s_world s) conn mid -> s_msg s = flom_msg_init ->
  Q (inr tt) (put_msg (lock_answer mid rc el) s) ->
  wp (build_lock_answer conn rc el) Q s.
Proof.
  intros ((o & Ho & Hs) & Hm & _) Hi HQ. unfold build_lock_answer.
  apply wp_bind. eapply wp_on_world.
  { unfold flom_conn_get_last_step, deref, mbind, M_bind, gets. rewrite Ho. reflexivity. }
  destruct s as [n d m w dl]. cbn in *. subst m. rewrite Hs. do 2 wp_step.
  cbn. rewrite Hm. exact HQ.
Qed.

Lemma wp_conn_lock_any {I} (i : I) conn (Q : err + conn_lock I -> st D -> Prop) s :
  (forall e w, Q (inl e) (put_world w s)) ->
  (forall w, Q (inr (Conn_lock i None 0 conn)) (put_world w s)) ->
  wp (on_world (flom_rsrc_conn_lock_new i conn)) Q s.
Proof.
  intros He HQ. unfold flom_rsrc_conn_lock_new.
  destruct (w_mallocs (s_world s)) as [|[] l] eqn:E;
    (eapply wp_on_world; [unfold g_try_malloc, mbind, M_bind; rewrite E; reflexivity|]);
    auto.
Qed.

(** Only the virtual file system and the memory of the world have changed. *)
Definition same_net (w w' : world) : Prop :=
  w_conns w' = w_conns w /\ w_sends w' = w_sends w /\ w_sent w' = w_sent w /\
  w_machine_id w' = w_machine_id w.

Lemma wp_conn_lock_new_mallocs {I} (i : I) conn mid (Q : err + conn_lock I -> st D -> Prop) s :
  can_answer (s_world s) conn mid ->
  (forall l, can_answer (set_mallocs l (s_world s)) conn mid ->
     Q (inr (Conn_lock i None 0 conn)) (put_world (set_mallocs l (s_world s)) s)) ->
  wp (on_world (flom_rsrc_conn_lock_new i conn)) Q s.
Proof.
  intros (Ho & Hm & Ha) HQ. unfold flom_rsrc_conn_lock_new.
  destruct (w_mallocs (s_world s)) as [|b l] eqn:E.
  - eapply wp_on_world; [unfold g_try_malloc, mbind, M_bind; rewrite E; reflexivity|].
    replace (s_world s) with (set_mallocs [] (s_world s)) at 1; [apply HQ; by repeat split|].
    destruct (s_world s). cbn in *. by subst.
  - inversion Ha; subst. eapply wp_on_world;
      [unfold g_try_malloc, mbind, M_bind; rewrite E; reflexivity|].
    apply HQ. repeat split; auto.
Qed.

Lemma wp_conn_lock_new_clock {I} (i : I) conn mid (Q : err + conn_lock I -> st D -> Prop) s :
  can_answer (s_world s) conn mid ->
  (forall w, can_answer w conn mid -> w_sent w = w_sent (s_world s) ->
     w_clock w = w_clock (s_world s) ->
     Q (inr (Conn_lock i None 0 conn)) (put_world w s)) ->
  wp (on_world (flom_rsrc_conn_lock_new i conn)) Q s.
Proof. intros Hc HQ. eapply wp_conn_lock_new_mallocs; [exact Hc|]. intros l Hl. by apply HQ. Qed.

Lemma wp_conn_lock_new {I} (i : I) conn mid (Q : err + conn_lock I -> st D -> Prop) s :
  can_answer (s_world s) conn mid ->
  (forall w, can_answer w conn mid -> w_sent w = w_sent (s_world s) ->
     Q (inr (Conn_lock i None 0 conn)) (put_world w s)) ->
  wp (on_world (flom_rsrc_conn_lock_new i conn)) Q s.
Proof. intros Hc HQ. by eapply wp_conn_lock_new_clock; [exact Hc | auto]. Qed.
End answer_steps.

(** ** Termination *)
Lemma of_result_terminates {S A} (r : err + A) : r <> inl NoFuel -> terminates (S := S) (of_result r).
Proof. destruct r as [e|a]; [|done]. intros He s [= ->]. done. Qed.

Lemma msg_free_terminates : terminates flom_msg_free.
Proof.
  intros m. unfold flom_msg_free. destruct (free_body _ _ _) as [e|b] eqn:E; [|done].
  intros [= ->]. revert E. unfold free_body.
  repeat match goal with
         | |- context [if ?b then _ else _] => destruct b
         | |- context [match ?o with Some _ => _ | None => _ end] => destruct o
         end; done.
Qed.

Lemma build_answer_terminates u v s r e : terminates (flom_msg_build_answer u v s r e).
Proof. unfold flom_msg_build_answer. solve_terminates. Qed.

#[export] Hint Resolve terminates_zoom msg_free_terminates build_answer_terminates
  : terminates.

Lemma gettimeofday_terminates : terminates gettimeofday.
Proof. intros w. unfold gettimeofday. by destruct (w_clock w). Qed.
Lemma malloc_terminates : terminates g_try_malloc.
Proof. intros w. unfold g_try_malloc. by destruct (w_mallocs w). Qed.
#[export] Hint Resolve gettimeofday_terminates malloc_terminates : terminates.

Section terminates_shared.
Context `{Glib} {D : Type}.

Lemma deref_terminates c : terminates (deref c).
Proof. unfold deref. solve_terminates. Qed.
Hint Resolve deref_terminates : terminates.

Lemma on_vfs_terminates f : terminates (on_vfs f).
Proof. intros w. unfold on_vfs. by destruct (f (w_vfs w)). Qed.
Hint Resolve on_vfs_terminates : terminates.

Lemma conn_send_terminates c b : terminates (flom_conn_send c b).
Proof.
  assert (Hn : terminates next_send).
  { intros w. unfold next_send. by destruct (w_sends w). }
  unfold flom_conn_send, flom_tls_send, flom_tcp_send, wire. solve_terminates.
Qed.

Lemma notify_granted_terminates c e : terminates (notify_granted c e).
Proof.
  unfold notify_granted. apply terminates_bind; [auto with terminates|]. intros w.
  destruct (granted_msg _ _) as [r m] eqn:E.
  apply terminates_bind; [|intros _; apply terminates_bind; [|intros buf;
    apply terminates_bind; [|intros _; apply terminates_bind; [|intros _]]]].
  - apply of_result_terminates. intros ->.
    pose proof (build_answer_terminates (w_machine_id w) FLOM_MSG_VERB_LOCK
      (3 * FLOM_MSG_STEP_INCR) FLOM_RC_OK e flom_msg_init) as Ht.
    unfold granted_msg in E. rewrite E in Ht. by apply Ht.
  - apply of_result_terminates, serialize_not_NoFuel.
  - apply conn_send_terminates.
  - unfold flom_conn_set_last_step. solve_terminates.
  - apply of_result_terminates, msg_free_terminates.
Qed.

Lemma on_world_terminates {A} (m : Wm A) : terminates m -> terminates (on_world (D := D) m).
Proof. apply terminates_zoom. Qed.

(** The fuel of a scan, one more than the length of the queue, is enough as
    soon as examining a request leaves the queue alone. *)
Lemma scan_terminates {I G} (queue : D -> list (conn_lock I)) set_queue
    (try_lock : conn_lock I -> Res D (option G)) grant :
  (forall q d, queue (set_queue q d) = q) ->
  (forall cl, terminates (try_lock cl)) -> (forall g cl, terminates (grant g cl)) ->
  (forall cl s, queue (s_data (try_lock cl s).2) = queue (s_data s)) ->
  (forall g cl s, queue (s_data (grant g cl s).2) = queue (s_data s)) ->
  terminates (scan_waitings queue set_queue try_lock grant).
Proof.
  intros Hqs Ht Hg Htq Hgq s.
  change (wp (scan_waitings queue set_queue try_lock grant)
            (fun r _ => r <> inl NoFuel) s).
  apply wp_scan_waitings with (J := fun pre w s => queue (s_data s) = pre ++ w);
    [done..| |done].
  clear s. intros pre cl w s Hq. unfold wp.
  specialize (Ht cl s). specialize (Htq cl s).
  destruct (try_lock cl s) as [[e|[g|]] s1]; cbn in *.
  - intros [= ->]. by apply Ht.
  - specialize (Hg g cl (pop_nth queue set_queue (length pre) s1)).
    specialize (Hgq g cl (pop_nth queue set_queue (length pre) s1)).
    destruct (grant _ _ _) as [[e|u] s2]; cbn in *.
    + intros [= ->]. by apply Hg.
    + by rewrite Hgq, Hqs, Htq, Hq, delete_middle.
  - by rewrite Htq, Hq, <- app_assoc.
Qed.
End terminates_shared.

Section terminates_answers.
Context {D : Type}.

Lemma free_and_init_msg_terminates : terminates (free_and_init_msg (D := D)).
Proof. unfold free_and_init_msg, on_msg. solve_terminates. Qed.

Lemma build_lock_answer_terminates c r e : terminates (build_lock_answer (D := D) c r e).
Proof.
  unfold build_lock_answer, on_msg, on_world, flom_conn_get_last_step, deref.
  apply terminates_bind; [apply terminates_zoom; solve_terminates | intros ?].
  solve_terminates.
Qed.

Lemma vfs_add_terminates u c b m q x y :
  terminates (vfs_add_locker_conn (D := D) u c b m q x y).
Proof.
  unfold vfs_add_locker_conn. apply terminates_bind; intros; apply on_world_terminates;
    [apply deref_terminates | apply on_vfs_terminates].
Qed.

Lemma vfs_add_file_terminates u c n x :
  terminates (vfs_add_locker_conn_file (D := D) u c n x).
Proof.
  unfold vfs_add_locker_conn_file. apply terminates_bind; intros; apply on_world_terminates;
    [apply deref_terminates | apply on_vfs_terminates].
Qed.

Lemma vfs_del_terminates c : terminates (vfs_del_conn (D := D) c).
Proof.
  unfold vfs_del_conn. apply terminates_bind; intros; apply on_world_terminates;
    [apply deref_terminates | apply on_vfs_terminates].
Qed.

Lemma vfs_move_terminates c : terminates (vfs_move_locker_conn (D := D) c).
Proof.
  unfold vfs_move_locker_conn. apply terminates_bind; intros; apply on_world_terminates;
    [apply deref_terminates | apply on_vfs_terminates].
Qed.

Lemma conn_lock_new_terminates {I} (i : I) c :
  terminates (on_world (D := D) (flom_rsrc_conn_lock_new i c)).
Proof.
  apply on_world_terminates. unfold flom_rsrc_conn_lock_new.
  apply terminates_bind; [|intros []; solve_terminates].
  intros w. unfold g_try_malloc. by destruct (w_mallocs w).
Qed.
End terminates_answers.

#[export] Hint Resolve free_and_init_msg_terminates build_lock_answer_terminates
  vfs_add_terminates vfs_add_file_terminates vfs_del_terminates vfs_move_terminates conn_lock_new_terminates
  : terminates.
#[export] Hint Resolve deref_terminates on_vfs_terminates notify_granted_terminates
  on_world_terminates : terminates.
(** ** A small world for the examples: three connections, everything succeeds *)
Definition demo_conn (uid : Z) : flom_conn :=
  Conn uid FLOM_CONN_STATE_LOCKER false FLOM_MSG_STEP_INCR (Some "10.0.0.1/4000"%string) false
    uid flom_msg_init.
Definition demo_world : world :=
  World {[ 1%positive := demo_conn 11; 2%positive := demo_conn 12;
           3%positive := demo_conn 13 ]}
    (RamTree false None 0 [] []) [] [] [] [] (Some "0123456789abcdef"%string).
Definition demo_mid : string := "0123456789abcdef".
Definition demo_cl {I} (i : I) (c : positive) : conn_lock I := Conn_lock i None 0 c.
Definition demo_request (mode wait quantity : Z) : body_lock_8 :=
  Lock_8 (Some "peer"%string) (Some "foo"%string) mode wait quantity 1 0.
Definition demo_st {D} (d : D) (m : flom_msg) : st D :=
  St (Some "foo"%string) d m demo_world (Timeval 0 0).
(** GLib's functions do not matter to a granting message. *)
Definition demo_glib : Glib := {| g_base64_encode := Some; g_base64_decode := Some |}.

Lemma demo_live c : (c <= 3)%positive -> live demo_world c.
Proof.
  intros Hc. assert (c = 1 \/ c = 2 \/ c = 3)%positive as [-> | [-> | ->]] by lia;
    by eexists.
Qed.

Lemma demo_known c : (c <= 3)%positive -> known demo_world c.
Proof. intros Hc. by apply live_known, demo_live. Qed.

Lemma demo_can_answer c : (c <= 3)%positive -> can_answer demo_world c demo_mid.
Proof.
  intros Hc. assert (c = 1 \/ c = 2 \/ c = 3)%positive as [-> | [-> | ->]] by lia;
    (split; [by eexists | by repeat constructor]).
Qed.
