(* ===== verification/Resource.v ===== *)
(** * Resource: the interface of a resource

    [struct flom_resource_s] of [src/src/flom_rsrc.h] dispatches to one of six
    implementations through function pointers.  The class [Resource] is that
    table of methods; [ResourceInv] is what an implementation promises about
    the data it keeps, and the locker's theorems are proved against it. *)
From Stdlib Require Import ZArith String List Lia.
From stdpp Require Import base list gmap numbers strings relations.
From S2P Require Import Prelude Types CStr RsrcName Msg MsgXml Vfs World ConnLock.
Local Open Scope Z_scope.

(** ** The virtual methods *)
Class Resource (D : Type) : Type := {
  res_init : string -> Res D unit;
  res_inmsg : Z -> conn_ref -> Res D unit;
  res_clean : Z -> conn_ref -> Res D unit;
  res_free : Res D unit;
  res_timeout : Z -> Res D unit;
  res_compare_name : option string -> Res D bool
}.

(** [flom_resource_timeout], the default method *)
Definition flom_resource_timeout {D : Type} (locker_uid : Z) : Res D unit := mret tt.

(** [flom_resource_compare_name], the default method: [true] stands for 0 *)
Definition flom_resource_compare_name {D : Type} (name : option string) : Res D bool :=
  n ← gets s_name;
  mret (bool_decide (n = name)).

(** ** The life of a resource

    The locker calls one method at a time, on whatever message the client has
    sent and in whatever world; it keeps the resource after a failed call.
    [ok] restricts the messages considered; undefined behaviour is not a step. *)
Section life.
Context {D : Type} `{Resource D}.
Variable ok : D -> flom_msg -> Prop.

Inductive resource_step : option string * D -> option string * D -> Prop :=
| step_inmsg uid conn n d m w dl s' r :
    ok d m ->
    res_inmsg uid conn (St n d m w dl) = (r, s') -> r <> inl Ub ->
    resource_step (n, d) (s_name s', s_data s')
| step_clean uid conn n d m w dl s' r :
    res_clean uid conn (St n d m w dl) = (r, s') -> r <> inl Ub ->
    resource_step (n, d) (s_name s', s_data s')
| step_timeout uid n d m w dl s' r :
    res_timeout uid (St n d m w dl) = (r, s') -> r <> inl Ub ->
    resource_step (n, d) (s_name s', s_data s').

(** A resource that has been initialized with success and used since *)
Inductive resource_reachable : option string * D -> Prop :=
| reachable_init name s s' :
    res_init name s = (inr tt, s') -> resource_reachable (s_name s', s_data s')
| reachable_step x y :
    resource_reachable x -> resource_step x y -> resource_reachable y.
End life.

(** ** What an implementation promises *)
Class ResourceInv (D : Type) `{Resource D} (ok : D -> flom_msg -> Prop)
    (inv : D -> Prop) : Prop := {
  init_inv : forall name s,
    wp (res_init name) (fun r s' => r = inr tt -> inv (s_data s')) s;
  inmsg_inv : forall uid conn s, ok (s_data s) (s_msg s) -> inv (s_data s) ->
    wp (res_inmsg uid conn) (fun r s' => r <> inl Ub -> inv (s_data s')) s;
  clean_inv : forall uid conn s, inv (s_data s) ->
    wp (res_clean uid conn) (fun r s' => r <> inl Ub -> inv (s_data s')) s;
  timeout_inv : forall uid s, inv (s_data s) ->
    wp (res_timeout uid) (fun r s' => r <> inl Ub -> inv (s_data s')) s
}.

(** A property that the methods establish from another one *)
Lemma resource_step_wp {D} `{Resource D} (ok : D -> flom_msg -> Prop)
    (pre post : D -> Prop) x y :
  (forall uid conn s, ok (s_data s) (s_msg s) -> pre (s_data s) ->
     wp (res_inmsg uid conn) (fun r s' => r <> inl Ub -> post (s_data s')) s) ->
  (forall uid conn s, pre (s_data s) ->
     wp (res_clean uid conn) (fun r s' => r <> inl Ub -> post (s_data s')) s) ->
  (forall uid s, pre (s_data s) ->
     wp (res_timeout uid) (fun r s' => r <> inl Ub -> post (s_data s')) s) ->
  resource_step ok x y -> pre x.2 -> post y.2.
Proof.
  intros Hin Hcl Hti Hs Hp.
  destruct Hs as [uid conn n d m w dl s' r Hok E Hr | uid conn n d m w dl s' r E Hr
                 | uid n d m w dl s' r E Hr]; cbn in *.
  - specialize (Hin uid conn (St n d m w dl) Hok Hp). unfold wp in Hin. rewrite E in Hin. auto.
  - specialize (Hcl uid conn (St n d m w dl) Hp). unfold wp in Hcl. rewrite E in Hcl. auto.
  - specialize (Hti uid (St n d m w dl) Hp). unfold wp in Hti. rewrite E in Hti. auto.
Qed.

Lemma reachable_inv {D} `{ResourceInv D ok inv} n d :
  resource_reachable ok (n, d) -> inv d.
Proof.
  intros Hr. change (inv (n, d).2). revert Hr. generalize (n, d). clear n d.
  intros x. induction 1 as [name s s' E | x y Hx IH Hs].
  - specialize (init_inv name s). unfold wp. rewrite E. auto.
  - eapply resource_step_wp; [exact inmsg_inv | exact clean_inv | exact timeout_inv |
      exact Hs | exact IH].
Qed.

(** One more request, on a concrete input *)
Lemma step_inmsg_eq {D} `{Resource D} (ok : D -> flom_msg -> Prop) uid conn m w dl n d r n' d' :
  ok d m -> r <> inl Ub ->
  (let s' := res_inmsg uid conn (St n d m w dl) in
   (s'.1, s_name s'.2, s_data s'.2)) = (r, n', d') ->
  resource_step ok (n, d) (n', d').
Proof.
  intros Hok Hr Heq. cbv zeta in Heq.
  destruct (res_inmsg uid conn (St n d m w dl)) as [r' s'] eqn:E.
  cbn in Heq. injection Heq as -> <- <-. eapply step_inmsg; eauto.
Qed.

Lemma reachable_inmsg {D} `{Resource D} (ok : D -> flom_msg -> Prop)
    uid conn m w dl n d n' d' :
  resource_reachable ok (n, d) -> ok d m ->
  (let s' := res_inmsg uid conn (St n d m w dl) in
   (s'.1, s_name s'.2, s_data s'.2)) = (inr tt, n', d') ->
  resource_reachable ok (n', d').
Proof.
  intros Hr Hok Heq. eapply reachable_step; [exact Hr|].
  by eapply step_inmsg_eq; [exact Hok | | exact Heq].
Qed.

Lemma reachable_start {D} `{Resource D} (ok : D -> flom_msg -> Prop) name s n d :
  (let s' := res_init name s in (s'.1, s_name s'.2, s_data s'.2)) = (inr tt, n, d) ->
  resource_reachable ok (n, d).
Proof.
  intros Heq. cbv zeta in Heq. destruct (res_init name s) as [r s'] eqn:E.
  cbn in Heq. injection Heq as -> <- <-. eapply reachable_init; eauto.
Qed.

(** Every method returns: none of them runs out of fuel, from any state *)
Class Terminating (D : Type) `{Resource D} : Prop := {
  init_terminates : forall name, terminates (res_init name);
  inmsg_terminates : forall uid conn, terminates (res_inmsg uid conn);
  clean_terminates : forall uid conn, terminates (res_clean uid conn);
  free_terminates : terminates res_free;
  timeout_terminates : forall uid, terminates (res_timeout uid);
  compare_terminates : forall name, terminates (res_compare_name name)
}.
