(* ===== verification/Simple.v ===== *)
(** * Simple: simple resources

    [src/src/flom_resource_simple.c]: one lock, six lock modes, a list of
    holders and a queue of waiting connections. *)
From Stdlib Require Import ZArith String List Lia.
From stdpp Require Import base list gmap numbers strings.
From S2P Require Import Prelude Types CStr RsrcName Msg MsgXml Vfs World LockMode ConnLock Resource.
Local Open Scope Z_scope.

(** ** Data: [struct flom_rsrc_data_simple_s] *)
Record simple : Type := Simple {
  holders : list (conn_lock Z);
  waitings : list (conn_lock Z)
}.

Definition set_holders (l : list (conn_lock Z)) (d : simple) : simple :=
  Simple l (waitings d).
Definition set_waitings (l : list (conn_lock Z)) (d : simple) : simple :=
  Simple (holders d) l.

(** ** [flom_resource_simple_can_lock] *)
Fixpoint can_lock_loop (p : list (conn_lock Z)) (lock : Z) : option bool :=
  match p with
  | [] => Some true
  | cl :: p =>
      b ← lock_table_at (cl_info cl) lock;
      if (b : bool) then can_lock_loop p lock else Some false
  end.

Section simple.
Context `{Glib}.

Definition flom_resource_simple_can_lock (lock : Z) : Res simple bool :=
  d ← gets s_data;
  of_option Ub (can_lock_loop (holders d) lock).

(** ** [flom_resource_simple_init] *)
Definition flom_resource_simple_init (name : string) : Res simple unit :=
  _ ← modify (put_name (Some name));
  modify (put_data (Simple [] [])).

(** ** [flom_resource_simple_waitings] *)
Definition simple_try (cl : conn_lock Z) : Res simple (option unit) :=
  b ← flom_resource_simple_can_lock (cl_info cl);
  mret (if (b : bool) then Some tt else None).

Definition push_holder (cl : conn_lock Z) : Res simple unit :=
  modify (fun s => put_data (set_holders (cl :: holders (s_data s)) (s_data s)) s).

Definition simple_grant (_ : unit) (cl : conn_lock Z) : Res simple unit :=
  _ ← on_world (notify_granted (cl_conn cl) None);
  _ ← push_holder cl;
  vfs_move_locker_conn (cl_conn cl).

Definition flom_resource_simple_waitings : Res simple unit :=
  scan_waitings waitings set_waitings simple_try simple_grant.

(** ** [flom_resource_simple_clean] *)
Definition flom_resource_simple_clean (locker_uid : Z) (conn : conn_ref)
    : Res simple unit :=
  d ← gets s_data;
  _ ← match flom_rsrc_conn_find (holders d) conn with
      | Some _ =>
          _ ← modify (put_data (set_holders (remove_conn conn (holders d)) d));
          flom_resource_simple_waitings
      | None => modify (put_data (set_waitings (remove_conn conn (waitings d)) d))
      end;
  vfs_del_conn conn.

(** ** [flom_resource_simple_inmsg] *)
Definition simple_lock (locker_uid : Z) (conn : conn_ref) : Res simple unit :=
  m ← gets s_msg;
  b ← of_option Ub (get_lock_8 (m_body m));
  let new_lock := l8_mode b in
  let can_wait := negb (l8_wait b =? 0) in
  can_lock ← flom_resource_simple_can_lock new_lock;
  _ ← free_and_init_msg;
  if (can_lock : bool) then
    cl ← on_world (flom_rsrc_conn_lock_new new_lock conn);
    _ ← push_holder cl;
    _ ← vfs_add_locker_conn locker_uid conn true new_lock None None None;
    build_lock_answer conn FLOM_RC_OK None
  else if can_wait then
    cl ← on_world (flom_rsrc_conn_lock_new new_lock conn);
    _ ← modify (fun s => put_data (set_waitings (waitings (s_data s) ++ [cl]) (s_data s)) s);
    _ ← vfs_add_locker_conn locker_uid conn false new_lock None None None;
    build_lock_answer conn FLOM_RC_LOCK_ENQUEUED None
  else build_lock_answer conn FLOM_RC_LOCK_BUSY None.

Definition simple_unlock (locker_uid : Z) (conn : conn_ref) : Res simple unit :=
  m ← gets s_msg;
  b ← of_option Ub (get_unlock_8 (m_body m));
  n ← gets s_name;
  _ ← when (negb (bool_decide (n = b.1))) (throw (Rc FLOM_RC_INVALID_OPTION));
  _ ← flom_resource_simple_clean locker_uid conn;
  free_and_init_msg.

Definition flom_resource_simple_inmsg (locker_uid : Z) (conn : conn_ref)
    : Res simple unit :=
  m ← gets s_msg;
  if msg_verb m =? FLOM_MSG_VERB_LOCK then simple_lock locker_uid conn
  else if msg_verb m =? FLOM_MSG_VERB_UNLOCK then simple_unlock locker_uid conn
  else throw (Rc FLOM_RC_PROTOCOL_ERROR).

(** ** [flom_resource_simple_free] *)
Definition flom_resource_simple_free : Res simple unit :=
  _ ← modify (put_data (Simple [] []));
  modify (put_name None).
End simple.

(** ** Specification *)
Definition compat (x y : conn_lock Z) : Prop := compatible (cl_info x) (cl_info y) = true.
Definition valid_cl (x : conn_lock Z) : Prop := valid_mode (cl_info x).

(** The data a simple resource may have: valid modes, and holders that are
    compatible two by two. *)
Definition simple_inv (d : simple) : Prop :=
  Forall valid_cl (holders d) /\ Forall valid_cl (waitings d) /\
  ForallOrdPairs compat (holders d).

(** A waiting request that a holder excludes *)
Definition blocked (hs : list (conn_lock Z)) (x : conn_lock Z) : Prop :=
  forallb (fun h => compatible (cl_info h) (cl_info x)) hs = false.

Definition simple_blocked (d : simple) : Prop := Forall (blocked (holders d)) (waitings d).

(** ** Lemmas *)
Lemma can_lock_loop_spec lock p :
  valid_mode lock -> Forall valid_cl p ->
  can_lock_loop p lock = Some (forallb (fun h => compatible (cl_info h) lock) p).
Proof.
  intros Hl. induction 1 as [|x p Hx Hp IH]; [done|].
  cbn. rewrite lock_table_compatible by done. cbn.
  destruct (compatible (cl_info x) lock); [exact IH | done].
Qed.

Lemma forallb_compat x hs :
  forallb (fun h => compatible (cl_info h) (cl_info x)) hs = true -> Forall (compat x) hs.
Proof.
  rewrite forallb_forall. intros H. apply List.Forall_forall. intros h Hh.
  unfold compat. rewrite compatible_sym. auto.
Qed.

Lemma ForallOrdPairs_remove_conn (R : conn_lock Z -> conn_lock Z -> Prop) c l :
  ForallOrdPairs R l -> ForallOrdPairs R (remove_conn c l).
Proof.
  induction 1 as [|x l Hx Hl IH]; [constructor|]. cbn.
  destruct (has_conn c x); [done|]. constructor; auto.
Qed.

Lemma ForallOrdPairs_lookup (R : conn_lock Z -> conn_lock Z -> Prop) l :
  ForallOrdPairs R l -> forall i j x y,
  l !! i = Some x -> l !! j = Some y -> (i < j)%nat -> R x y.
Proof.
  induction 1 as [|z l Hz Hl IH]; intros i j x y Hi Hj Hij; [done|].
  destruct i as [|i], j as [|j]; cbn in *; [lia| |lia|].
  - injection Hi as <-. eapply Forall_lookup_1; eauto.
  - eapply IH; eauto; lia.
Qed.

Lemma simple_inv_push cl d :
  valid_cl cl -> simple_inv d ->
  forallb (fun h => compatible (cl_info h) (cl_info cl)) (holders d) = true ->
  simple_inv (set_holders (cl :: holders d) d).
Proof.
  intros Hv (H1 & H2 & H3) Hc. repeat split; cbn; auto.
  constructor; [now apply forallb_compat | done].
Qed.

Lemma simple_inv_remove c d :
  simple_inv d -> simple_inv (set_holders (remove_conn c (holders d)) d).
Proof.
  intros (H1 & H2 & H3). repeat split; cbn; auto using ForallOrdPairs_remove_conn.
Qed.

Lemma simple_inv_set_waitings l d :
  simple_inv d -> Forall valid_cl l -> simple_inv (set_waitings l d).
Proof. intros (H1 & H2 & H3) H. repeat split; auto. Qed.

(** The reference scan, on the data *)
Definition simple_ptry (d : simple) (x : conn_lock Z) : option unit :=
  if forallb (fun h => compatible (cl_info h) (cl_info x)) (holders d)
  then Some tt else None.
Definition simple_papply (_ : unit) (x : conn_lock Z) (d : simple) : simple :=
  set_holders (x :: holders d) d.
Definition simple_wake : simple -> list (conn_lock Z) ->
    list (conn_lock Z * unit) * list (conn_lock Z) * simple :=
  wake simple_ptry simple_papply.

Lemma blocked_cons h hs x : blocked hs x -> blocked (h :: hs) x.
Proof. unfold blocked. cbn. intros ->. apply andb_false_r. Qed.

(** Whatever the scan leaves in the queue is excluded by a holder *)
Lemma wake_holders w : forall d gs r d' x, simple_wake d w = (gs, r, d') ->
  blocked (holders d) x -> blocked (holders d') x.
Proof.
  unfold simple_wake. induction w as [|y w IH]; intros d gs r d' x; cbn.
  - by intros [= <- <- <-].
  - destruct (simple_ptry d y) as [u|] eqn:E.
    + destruct (wake simple_ptry simple_papply (simple_papply u y d) w) as [[gs1 r1] d1] eqn:Ew. intros [= <- <- <-] Hb.
      eapply IH; [exact Ew|]. cbn. by apply blocked_cons.
    + destruct (wake simple_ptry simple_papply d w) as [[gs1 r1] d1] eqn:Ew. intros [= <- <- <-] Hb.
      eapply IH; eauto.
Qed.

Lemma simple_wake_left w : forall d gs r d', simple_wake d w = (gs, r, d') ->
  Forall (blocked (holders d')) r.
Proof.
  unfold simple_wake. induction w as [|y w IH]; intros d gs r d'; cbn.
  - intros [= <- <- <-]. constructor.
  - destruct (simple_ptry d y) as [u|] eqn:E.
    + destruct (wake simple_ptry simple_papply (simple_papply u y d) w) as [[gs1 r1] d1] eqn:Ew. intros [= <- <- <-]. eauto.
    + destruct (wake simple_ptry simple_papply d w) as [[gs1 r1] d1] eqn:Ew. intros [= <- <- <-].
      constructor; [|by eauto]. eapply wake_holders; [exact Ew|].
      unfold simple_ptry in E. unfold blocked. by destruct (forallb _ _).
Qed.

Definition simple_request_ok (_ : simple) (m : flom_msg) : Prop :=
  forall b, msg_verb m = FLOM_MSG_VERB_LOCK -> get_lock_8 (m_body m) = Some b ->
            valid_mode (l8_mode b).

Section proofs.
Context `{Glib}.

Lemma wp_can_lock lock Q s :
  valid_mode lock -> Forall valid_cl (holders (s_data s)) ->
  Q (inr (forallb (fun h => compatible (cl_info h) lock) (holders (s_data s)))) s ->
  wp (flom_resource_simple_can_lock lock) Q s.
Proof.
  intros Hl Hh HQ. unfold flom_resource_simple_can_lock.
  do 2 wp_step. rewrite can_lock_loop_spec by done. wp_step; congruence.
Qed.

(** *** The scan keeps the holders compatible, however sending fails *)
Lemma simple_inv_pop pre cl w d :
  waitings d = pre ++ cl :: w -> simple_inv d ->
  valid_cl cl /\ simple_inv (set_waitings (pre ++ w) d).
Proof.
  intros Hq Hd. pose proof Hd as (_ & Hw & _). rewrite Hq, Forall_middle in Hw.
  destruct Hw. auto using simple_inv_set_waitings.
Qed.

Lemma wp_simple_waitings_inv s :
  simple_inv (s_data s) ->
  wp flom_resource_simple_waitings (fun _ s' => simple_inv (s_data s')) s.
Proof.
  intros Hs. unfold flom_resource_simple_waitings.
  apply wp_scan_waitings with (J := fun pre w s =>
    waitings (s_data s) = pre ++ w /\ simple_inv (s_data s));
    [by intros ??? [??] | by intros ?? [??] | | done].
  clear s Hs. intros pre cl w s [Hq Hs].
  destruct (simple_inv_pop _ _ _ _ Hq Hs) as [Hcl Hs'].
  unfold simple_try. wp_step. apply wp_can_lock; [done | apply Hs |].
  wp_step. destruct (forallb _ _) eqn:Hc; [|by rewrite <- app_assoc].
  unfold simple_grant, push_holder. wp_step.
  wp_frame_step; cbn in Hd; rewrite Hq, delete_middle in Hd; [by rewrite Hd|].
  do 2 wp_step. wp_frame_step; cbn in *; rewrite Hd0, Hd.
  all: apply (simple_inv_push cl) in Hs'; auto.
Qed.

Lemma wp_simple_clean_inv uid conn s :
  simple_inv (s_data s) ->
  wp (flom_resource_simple_clean uid conn) (fun _ s' => simple_inv (s_data s')) s.
Proof.
  intros Hs. unfold flom_resource_simple_clean. do 3 wp_step. wp_step.
  - do 2 wp_step. eapply wp_mono; [|apply wp_simple_waitings_inv; cbn].
    + intros [e|u] s' Hs'; [done|]. wp_frame_step; by rewrite Hd.
    + by apply simple_inv_remove.
  - wp_step. wp_frame_step; rewrite Hd; cbn; apply simple_inv_set_waitings; auto.
    all: apply Forall_remove_conn, Hs.
Qed.

Definition new_cl (b : body_lock_8) (conn : conn_ref) : conn_lock Z :=
  Conn_lock (l8_mode b) None 0 conn.
Definition grantable (d : simple) (mode : Z) : bool :=
  forallb (fun h => compatible (cl_info h) mode) (holders d).

(** What an incoming message can do to the data: nothing, grant, enqueue, or
    what a clean-up does. *)
Lemma wp_simple_inmsg_data uid conn s (Q : err + unit -> st simple -> Prop) :
  simple_inv (s_data s) -> simple_request_ok (s_data s) (s_msg s) ->
  (forall r s', s_data s' = s_data s -> Q r s') ->
  (forall b r s', valid_mode (l8_mode b) -> grantable (s_data s) (l8_mode b) = true ->
     s_data s' = set_holders (new_cl b conn :: holders (s_data s)) (s_data s) -> Q r s') ->
  (forall b r s', valid_mode (l8_mode b) -> grantable (s_data s) (l8_mode b) = false ->
     s_data s' = set_waitings (waitings (s_data s) ++ [new_cl b conn]) (s_data s) -> Q r s') ->
  wp (flom_resource_simple_clean uid conn) (fun _ s1 =>
    forall r s', s_data s' = s_data s1 -> Q r s') s ->
  wp (flom_resource_simple_inmsg uid conn) Q s.
Proof.
  intros Hi Hok Hsame Hgrant Hqueue Hclean. set (d := s_data s) in *.
  unfold flom_resource_simple_inmsg. do 3 wp_step; [|wp_step; [|wp_step; by auto]].
  - unfold simple_lock, push_holder. do 3 wp_step. wp_step; [|by auto].
    assert (Hv : valid_mode (l8_mode a)) by (apply Hok; [by apply Z.eqb_eq | done]).
    wp_step. apply wp_can_lock; [done | apply Hi |]. fold d (grantable d (l8_mode a)).
    wp_step. wp_frame_step; [by auto|]. destruct (grantable d (l8_mode a)) eqn:Hc; [|wp_step].
    + wp_step. apply wp_conn_lock_any; intros; [by auto|]. do 2 wp_step.
      apply wp_frame; [solve_frame|]. intros r s1 Hs1 _. eapply Hgrant; eauto.
      rewrite Hs1. cbn. by rewrite Hd.
    + wp_step. apply wp_conn_lock_any; intros; [by auto|]. do 2 wp_step.
      apply wp_frame; [solve_frame|]. intros r s1 Hs1 _. eapply Hqueue; eauto.
      rewrite Hs1. cbn. by rewrite Hd.
    + apply wp_frame; [solve_frame|]. intros r s1 Hs1 _. apply Hsame. by rewrite Hs1, Hd.
  - unfold simple_unlock. do 3 wp_step. wp_step; [|by auto].
    do 4 wp_step; [wp_step; by auto|]. wp_step. eapply wp_mono; [|exact Hclean].
    intros [e|u] s1 Hs1; [by auto|]. apply wp_frame; [solve_frame|]. auto.
Qed.

Lemma wp_simple_inmsg_inv uid conn s :
  simple_request_ok (s_data s) (s_msg s) -> simple_inv (s_data s) ->
  wp (flom_resource_simple_inmsg uid conn) (fun _ s' => simple_inv (s_data s')) s.
Proof.
  intros Hok Hs. apply wp_simple_inmsg_data; [done..|by (intros r s' Hd; rewrite Hd)| | |].
  - intros b _ s' Hv Hg ->. by apply simple_inv_push.
  - intros b _ s' Hv Hg ->. apply simple_inv_set_waitings; [done|].
    apply Forall_app; split; [apply Hs | by constructor].
  - eapply wp_mono; [|by apply wp_simple_clean_inv]. intros r1 s1 H1 r2 s2 H2. by rewrite H2.
Qed.

#[export] Instance simple_resource : Resource simple := {
  res_init := flom_resource_simple_init;
  res_inmsg := flom_resource_simple_inmsg;
  res_clean := flom_resource_simple_clean;
  res_free := flom_resource_simple_free;
  res_timeout := flom_resource_timeout;
  res_compare_name := flom_resource_compare_name
}.

#[export] Instance simple_resource_inv :
  ResourceInv simple simple_request_ok simple_inv.
Proof.
  constructor; intros.
  - cbn. repeat constructor.
  - eapply wp_mono; [|by apply wp_simple_inmsg_inv]. auto.
  - eapply wp_mono; [|by apply wp_simple_clean_inv]. auto.
  - by apply wp_ret.
Qed.
(** *** The scan, exactly, when the network works *)
Lemma simple_grant_ok u cl s d Q :
  simple_inv d -> simple_ptry d cl = Some u -> cl ∈ waitings d ->
  s_data s = set_waitings (waitings (s_data s)) d ->
  sends_ok (s_world s) -> live (s_world s) (cl_conn cl) ->
  (forall s', s_data s' = simple_papply u cl (s_data s) -> s_name s' = s_name s ->
     s_msg s' = s_msg s ->
     told [(cl_conn cl, None)] (s_world s) (s_world s') -> Q (inr tt) s') ->
  wp (simple_grant u cl) Q s.
Proof.
  intros _ _ _ _ Hs Hl HQ. unfold simple_grant, push_holder. wp_step.
  apply wp_notify_granted; [done..|]. intros w' Ht Hl'. do 2 wp_step.
  apply wp_vfs_move; [by apply live_known|]. intros t. by apply HQ.
Qed.

Lemma wp_simple_waitings_wake s (Q : err + unit -> st simple -> Prop) :
  simple_inv (s_data s) -> sends_ok (s_world s) ->
  Forall (fun cl => live (s_world s) (cl_conn cl)) (waitings (s_data s)) ->
  (forall gs r d' s',
     simple_wake (s_data s) (waitings (s_data s)) = (gs, r, d') ->
     s_data s' = set_waitings r d' -> simple_inv (s_data s') ->
     s_name s' = s_name s -> s_msg s' = s_msg s ->
     told (map (fun p => (cl_conn p.1, None)) gs) (s_world s) (s_world s') ->
     Q (inr tt) s') ->
  wp flom_resource_simple_waitings Q s.
Proof.
  intros Hi Hs Hl HQ. unfold flom_resource_simple_waitings.
  apply (wp_scan_wake waitings set_waitings simple_ptry simple_papply)
    with (proj := fun g => g) (el := fun _ => None) (inv := simple_inv); try done; try (by destruct d).
  - intros cl [n d m w dl] (Hv & Hw & _) Hin. cbn in *. unfold simple_try,
      flom_resource_simple_can_lock, simple_ptry, mbind, M_bind, gets. cbn.
    rewrite Forall_forall in Hw.
    rewrite can_lock_loop_spec by (done || by apply Hw). cbn.
    by destruct (forallb _ _).
  - apply simple_grant_ok.
  - intros g pre cl w d Hd Hq Hp. destruct (simple_inv_pop _ _ _ _ Hq Hd) as [Hcl Hd'].
    unfold simple_ptry in Hp. destruct (forallb _ _) eqn:Hf; [|done].
    by apply (simple_inv_push cl) in Hd'.
Qed.

(** *** What is queued stays excluded *)
Lemma simple_clean_blocked uid conn s :
  simple_inv (s_data s) -> sends_ok (s_world s) ->
  Forall (fun x => live (s_world s) (cl_conn x)) (waitings (s_data s)) ->
  simple_blocked (s_data s) \/ is_Some (flom_rsrc_conn_find (holders (s_data s)) conn) ->
  wp (flom_resource_simple_clean uid conn) (fun _ s' => simple_blocked (s_data s')) s.
Proof.
  intros Hi Hs Hl Hb. unfold flom_resource_simple_clean. do 3 wp_step.
  destruct (flom_rsrc_conn_find _ _) as [cl|].
  - do 2 wp_step. apply wp_simple_waitings_wake; [by apply simple_inv_remove | done..|].
    intros gs r d' s1 Hw Hd _ _ _ _. apply wp_frame; [solve_frame|].
    intros r' s2 -> _. rewrite Hd. by apply simple_wake_left in Hw.
  - destruct Hb as [Hb|[x [=]]]. wp_step. apply wp_frame; [solve_frame|]. intros r' s2 -> _.
    by apply Forall_remove_conn.
Qed.

Lemma simple_inmsg_blocked uid conn s :
  simple_inv (s_data s) -> simple_request_ok (s_data s) (s_msg s) ->
  sends_ok (s_world s) ->
  Forall (fun x => live (s_world s) (cl_conn x)) (waitings (s_data s)) ->
  simple_blocked (s_data s) ->
  wp (flom_resource_simple_inmsg uid conn) (fun _ s' => simple_blocked (s_data s')) s.
Proof.
  intros Hi Hok Hs Hl Hb. apply wp_simple_inmsg_data; [done..|by (intros r s' Hd; rewrite Hd)| | |].
  - intros b _ s' _ _ ->. eapply Forall_impl; [exact Hb|]. intros x. apply blocked_cons.
  - intros b _ s' _ Hg ->. apply Forall_app; split; [done|]. by constructor.
  - eapply wp_mono; [|by apply simple_clean_blocked; auto]. intros r1 s1 H1 r2 s2 H2. by rewrite H2.
Qed.

Lemma simple_unlock_blocked uid conn s :
  simple_inv (s_data s) -> sends_ok (s_world s) ->
  Forall (fun x => live (s_world s) (cl_conn x)) (waitings (s_data s)) ->
  is_Some (flom_rsrc_conn_find (holders (s_data s)) conn) ->
  msg_verb (s_msg s) = FLOM_MSG_VERB_UNLOCK ->
  wp (flom_resource_simple_inmsg uid conn)
    (fun r s' => r = inr tt -> simple_blocked (s_data s')) s.
Proof.
  intros Hi Hs Hl Hf Hv. unfold flom_resource_simple_inmsg. do 2 wp_step. rewrite Hv.
  cbn [Z.eqb FLOM_MSG_VERB_LOCK FLOM_MSG_VERB_UNLOCK Pos.eqb].
  unfold simple_unlock. do 3 wp_step. wp_step; [|done]. do 4 wp_step; [by wp_step|]. wp_step.
  eapply wp_mono; [|by apply simple_clean_blocked; auto].
  intros [e|u] s1 Hs1; [done|]. apply wp_frame; [solve_frame|]. intros r s2 -> _ _. exact Hs1.
Qed.
End proofs.

(** ** Theorems *)
Section theorems.
Context `{Glib}.

(** safety.  From a resource just initialized, whatever sequence of lock
    and unlock requests, disconnections and timeouts it serves, in whatever
    worlds (failed allocations and failed sends included), the locks held at
    the same time are compatible two by two. *)
Theorem simple_holders_compatible n d x y i j :
  resource_reachable simple_request_ok (n, d) ->
  holders d !! i = Some x -> holders d !! j = Some y -> i <> j ->
  compatible (cl_info x) (cl_info y) = true.
Proof.
  intros Hr Hx Hy Hij. apply reachable_inv in Hr as (_ & _ & Hp).
  destruct (Nat.lt_total i j) as [?|[?|?]]; [|done|].
  - by eapply (ForallOrdPairs_lookup compat).
  - rewrite compatible_sym. by eapply (ForallOrdPairs_lookup compat).
Qed.
(** functional.  A lock request is answered on its connection: granted, with the
    request in front of the holders, exactly when every holder's mode is
    compatible; otherwise queued behind the others when the client accepts to
    wait, and refused as busy, changing nothing, when it does not. *)
Theorem simple_lock_answer uid conn mid b s :
  simple_inv (s_data s) -> s_msg s = lock_request b -> valid_mode (l8_mode b) ->
  can_answer (s_world s) conn mid ->
  let granted := forallb (fun h => compatible (cl_info h) (l8_mode b))
                   (holders (s_data s)) in
  let cl := Conn_lock (l8_mode b) None 0 conn in
  wp (flom_resource_simple_inmsg uid conn) (fun r s' =>
    r = inr tt /\ s_name s' = s_name s /\ same_net (s_world s) (s_world s') /\
    if granted then
      s_data s' = set_holders (cl :: holders (s_data s)) (s_data s) /\
      s_msg s' = lock_answer mid FLOM_RC_OK None
    else if negb (l8_wait b =? 0) then
      s_data s' = set_waitings (waitings (s_data s) ++ [cl]) (s_data s) /\
      s_msg s' = lock_answer mid FLOM_RC_LOCK_ENQUEUED None
    else s_data s' = s_data s /\ s_msg s' = lock_answer mid FLOM_RC_LOCK_BUSY None) s.
Proof.
  intros Hi Hm Hv Hc granted cl. unfold flom_resource_simple_inmsg. do 2 wp_step.
  rewrite Hm. cbn [msg_verb lock_request m_header h_verb Z.eqb FLOM_MSG_VERB_LOCK Pos.eqb].
  unfold simple_lock, push_holder. do 3 wp_step. rewrite Hm.
  wp_step; [|done]. injection H0 as <-. wp_step. apply wp_can_lock; [done | apply Hi |].
  fold granted. wp_step. eapply wp_free_lock_request; [exact Hm|].
  destruct granted; [|wp_step].
  - wp_step. eapply wp_conn_lock_new_mallocs; [exact Hc|]. intros w Hw. do 3 wp_step.
    apply wp_vfs_add; [by eapply can_answer_known|]. intros t.
    by eapply wp_build_lock_answer.
  - wp_step. eapply wp_conn_lock_new_mallocs; [exact Hc|]. intros w Hw. do 3 wp_step.
    apply wp_vfs_add; [by eapply can_answer_known|]. intros t.
    by eapply wp_build_lock_answer.
  - by eapply wp_build_lock_answer.
Qed.

(** Releasing a lock, step by step *)
Lemma wp_simple_clean_wake uid conn cl Q s :
  simple_inv (s_data s) -> sends_ok (s_world s) -> known (s_world s) conn ->
  Forall (fun x => live (s_world s) (cl_conn x)) (waitings (s_data s)) ->
  flom_rsrc_conn_find (holders (s_data s)) conn = Some cl ->
  (forall gs rest d' s' w t,
     simple_wake (set_holders (remove_conn conn (holders (s_data s))) (s_data s))
       (waitings (s_data s)) = (gs, rest, d') ->
     s_data s' = set_waitings rest d' -> s_name s' = s_name s -> s_msg s' = s_msg s ->
     s_world s' = set_vfs t w ->
     told (map (fun p => (cl_conn p.1, None)) gs) (s_world s) w ->
     Q (inr tt) s') ->
  wp (flom_resource_simple_clean uid conn) Q s.
Proof.
  intros Hi Hs Hc Hl Hf HQ. unfold flom_resource_simple_clean. do 3 wp_step. rewrite Hf.
  do 2 wp_step. apply wp_simple_waitings_wake; [by apply simple_inv_remove | done..|].
  intros gs r d' s1 Hw Hd Hi' Hn Hm Ht. apply wp_vfs_del; [by apply Ht|].
  intros t. by eapply HQ.
Qed.

(** releasing a lock.  When the connection holds a lock and the network
    works, its first entry leaves the holders, the queue is scanned from its
    head, the requests the scan grants become holders and each of their
    connections, in queue order, is sent one granting message. *)
Theorem simple_clean_grants uid conn cl s :
  simple_inv (s_data s) -> sends_ok (s_world s) -> known (s_world s) conn ->
  Forall (fun x => live (s_world s) (cl_conn x)) (waitings (s_data s)) ->
  flom_rsrc_conn_find (holders (s_data s)) conn = Some cl ->
  wp (flom_resource_simple_clean uid conn) (fun r s' =>
    let d := set_holders (remove_conn conn (holders (s_data s))) (s_data s) in
    let '(gs, rest, d') := simple_wake d (waitings d) in
    r = inr tt /\ s_data s' = set_waitings rest d' /\ s_msg s' = s_msg s /\
    w_sent (s_world s') = w_sent (s_world s) ++
      map (fun p => (cl_conn (fst p), granted_text None)) gs) s.
Proof.
  intros Hi Hs Hc Hl Hf. eapply wp_simple_clean_wake; [done..|].
  intros gs rest d' s' w t Hw Hd Hn Hm Hw' (Hsent & _). cbn [waitings set_holders]. rewrite Hw.
  split_and!; [done..|]. rewrite Hw'. cbn. by rewrite Hsent, map_map.
Qed.

(** C12: no lost wake-up, for a simple resource whose sends work and whose waiting
    clients are live.  When the disconnection of a holder has been handled, or the
    unlock of a holder has been accepted, every request left in the queue is excluded
    by a holder, whatever the queue was; any other request and any other
    disconnection leaves none that is not excluded when there was none before. *)
Theorem simple_no_lost_wakeup uid conn s :
  simple_inv (s_data s) -> simple_request_ok (s_data s) (s_msg s) ->
  sends_ok (s_world s) ->
  Forall (fun x => live (s_world s) (cl_conn x)) (waitings (s_data s)) ->
  let holds := is_Some (flom_rsrc_conn_find (holders (s_data s)) conn) in
  wp (flom_resource_simple_inmsg uid conn) (fun r s' =>
    simple_blocked (s_data s) \/
      (r = inr tt /\ holds /\ msg_verb (s_msg s) = FLOM_MSG_VERB_UNLOCK) ->
    simple_blocked (s_data s')) s /\
  wp (flom_resource_simple_clean uid conn) (fun _ s' =>
    simple_blocked (s_data s) \/ holds -> simple_blocked (s_data s')) s.
Proof.
  intros Hi Hok Hs Hl holds. split.
  - intros [Hb|(Hr & Hh & Hv)].
    + by apply (simple_inmsg_blocked uid conn s).
    + by apply (simple_unlock_blocked uid conn s).
  - intros Hb. by apply (simple_clean_blocked uid conn s).
Qed.
(** an unlock request names the resource.  Another name is refused with
    [FLOM_RC_INVALID_OPTION] and changes nothing; the right one releases the
    lock as a disconnection does, and leaves an initialized message, so that
    no answer goes back. *)
Theorem simple_unlock_answer uid conn cl n rb s :
  s_msg s = unlock_request n rb ->
  simple_inv (s_data s) -> sends_ok (s_world s) -> known (s_world s) conn ->
  Forall (fun x => live (s_world s) (cl_conn x)) (waitings (s_data s)) ->
  flom_rsrc_conn_find (holders (s_data s)) conn = Some cl ->
  wp (flom_resource_simple_inmsg uid conn) (fun r s' =>
    if bool_decide (s_name s = n) then
      let d := set_holders (remove_conn conn (holders (s_data s))) (s_data s) in
      let '(gs, rest, d') := simple_wake d (waitings d) in
      r = inr tt /\ s_data s' = set_waitings rest d' /\ s_msg s' = flom_msg_init /\
      told (map (fun p => (cl_conn p.1, None)) gs) (s_world s) (s_world s')
    else r = inl (Rc FLOM_RC_INVALID_OPTION) /\ s' = s) s.
Proof.
  intros Hm Hi Hs Hc Hl Hf. unfold flom_resource_simple_inmsg. do 2 wp_step. rewrite Hm.
  cbn [msg_verb unlock_request m_header h_verb Z.eqb FLOM_MSG_VERB_LOCK
    FLOM_MSG_VERB_UNLOCK Pos.eqb].
  unfold simple_unlock. do 3 wp_step. rewrite Hm. wp_step; [|done]. injection H0 as <-.
  do 4 wp_step; cbn [fst] in H0; destruct (bool_decide (s_name s = n)) eqn:E; try done.
  wp_step. eapply wp_simple_clean_wake; [done..|].
  intros gs rest d' s1 w t Hw Hd Hn Hm1 Hw1 Ht. eapply wp_free_unlock_request; [by rewrite Hm1|].
  cbv zeta. cbn [waitings set_holders]. rewrite Hw. split_and!; [done..|]. cbn. by rewrite Hw1.
Qed.

(** a send that fails stops the scan.  When the only holder leaves and
    the first waiting client's TCP connection is dead, the clean-up returns
    [FLOM_RC_CONNECTION_CLOSED], that request is dropped, and the others stay
    in the queue of a resource that nobody holds. *)
Theorem simple_dead_waiter_stops_scan uid conn h x rest o l s :
  holders (s_data s) = [h] -> cl_conn h = conn ->
  waitings (s_data s) = x :: rest -> valid_cl x ->
  w_conns (s_world s) !! cl_conn x = Some o -> c_tls o = false -> has_fd o = true ->
  w_sends (s_world s) = PendingError EPIPE :: l ->
  wp (flom_resource_simple_clean uid conn) (fun r s' =>
    r = inl (Rc FLOM_RC_CONNECTION_CLOSED) /\ s_data s' = Simple [] rest /\
    w_sent (s_world s') = w_sent (s_world s)) s.
Proof.
  intros Hh Hc Hw Hv Ho Ht Hfd Hs. destruct s as [n [hs ws] m w dl]. cbn in *. subst hs ws.
  unfold flom_resource_simple_clean. do 3 wp_step. cbn. unfold has_conn.
  rewrite bool_decide_eq_true_2 by done. do 2 wp_step.
  unfold flom_resource_simple_waitings, scan_waitings. do 2 wp_step. cbn [waitings_loop].
  do 2 wp_step. cbn [s_data put_data waitings set_holders lookup list_lookup].
  unfold simple_try. do 2 wp_step. apply wp_can_lock; [exact Hv | constructor |].
  cbn [s_data put_data set_holders holders forallb]. do 4 wp_step.
  unfold simple_grant. wp_step.
  eapply wp_on_world; [by eapply notify_granted_dead|]. done.
Qed.

(** the mode of a request is not checked.  A mode outside the six is
    granted when nobody holds the resource, and from then on examining any
    request reads outside the lock table. *)
Theorem simple_invalid_mode uid conn mid b s :
  s_msg s = lock_request b -> FLOM_LOCK_MODE_N <= l8_mode b ->
  holders (s_data s) = [] -> can_answer (s_world s) conn mid ->
  wp (flom_resource_simple_inmsg uid conn) (fun r s' =>
    r = inr tt /\ s_msg s' = lock_answer mid FLOM_RC_OK None /\
    forall lock s'', s_data s'' = s_data s' ->
      (flom_resource_simple_can_lock lock s'').1 = inl Ub) s.
Proof.
  intros Hm Hv Hh Hc. unfold flom_resource_simple_inmsg. do 2 wp_step.
  rewrite Hm. cbn [msg_verb lock_request m_header h_verb Z.eqb FLOM_MSG_VERB_LOCK Pos.eqb].
  unfold simple_lock, push_holder. do 3 wp_step. rewrite Hm.
  wp_step; [|done]. injection H0 as <-. wp_step. unfold flom_resource_simple_can_lock at 1.
  do 2 wp_step. rewrite Hh. cbn [can_lock_loop of_option]. do 2 wp_step.
  eapply wp_free_lock_request; [exact Hm|]. wp_step.
  eapply wp_conn_lock_new; [exact Hc|]. intros w Hw Hsent. do 3 wp_step.
  apply wp_vfs_add; [by eapply can_answer_known|]. intros t.
  eapply wp_build_lock_answer; [done..|]. split_and!; [done..|].
  intros lock s'' Hd. unfold flom_resource_simple_can_lock, mbind, M_bind, gets.
  rewrite Hd. cbn. rewrite lock_table_none; [done|].
  unfold valid_mode. lia.
Qed.
End theorems.

(** ** The theorems at concrete inputs *)
(** Two readers one after the other *)
Lemma simple_holders_compatible_witness :
  compatible FLOM_LOCK_MODE_CR FLOM_LOCK_MODE_PR = true.
Proof.
  refine (@simple_holders_compatible demo_glib (Some "foo"%string)
    (Simple [demo_cl FLOM_LOCK_MODE_PR 2; demo_cl FLOM_LOCK_MODE_CR 1] [])
    (demo_cl FLOM_LOCK_MODE_CR 1) (demo_cl FLOM_LOCK_MODE_PR 2) 1 0 _ eq_refl eq_refl _); [|done].
  apply (@reachable_inmsg _ (@simple_resource demo_glib) _ 7 2%positive
    (lock_request (demo_request FLOM_LOCK_MODE_PR 1 0)) demo_world (Timeval 0 0)
    (Some "foo"%string) (Simple [demo_cl FLOM_LOCK_MODE_CR 1] []));
    [|by intros b _ [= <-] | reflexivity].
  apply (@reachable_inmsg _ (@simple_resource demo_glib) _ 7 1%positive
    (lock_request (demo_request FLOM_LOCK_MODE_CR 1 0)) demo_world (Timeval 0 0)
    (Some "foo"%string) (Simple [] []));
    [|by intros b _ [= <-] | reflexivity].
  by apply (@reachable_start _ (@simple_resource demo_glib) _ "foo"
    (demo_st (Simple [] []) flom_msg_init)).
Defined.

(** A writer that accepts to wait for a reader *)
Definition demo_reader : st simple :=
  demo_st (Simple [demo_cl FLOM_LOCK_MODE_CR 1] [])
    (lock_request (demo_request FLOM_LOCK_MODE_EX 1 0)).

Lemma simple_lock_answer_witness :
  wp (@flom_resource_simple_inmsg demo_glib 7 2%positive) (fun r s' =>
    r = inr tt /\ s_name s' = Some "foo"%string /\ same_net demo_world (s_world s') /\
    s_data s' = Simple [demo_cl FLOM_LOCK_MODE_CR 1] [demo_cl FLOM_LOCK_MODE_EX 2] /\
    s_msg s' = lock_answer demo_mid FLOM_RC_LOCK_ENQUEUED None) demo_reader.
Proof.
  refine (@simple_lock_answer demo_glib 7 2%positive demo_mid
            (demo_request FLOM_LOCK_MODE_EX 1 0) demo_reader _ eq_refl _ _); [| done |].
  - repeat constructor; done.
  - by apply demo_can_answer.
Defined.

Definition demo_holders : simple :=
  Simple [demo_cl FLOM_LOCK_MODE_EX 1]
         [demo_cl FLOM_LOCK_MODE_PR 2; demo_cl FLOM_LOCK_MODE_CR 3].

Lemma demo_holders_inv : simple_inv demo_holders.
Proof. repeat constructor; done. Qed.

Lemma demo_holders_live :
  Forall (fun x : conn_lock Z => live demo_world (cl_conn x)) (waitings demo_holders).
Proof. repeat constructor; by apply demo_live. Qed.

(** The writer leaves: both readers are granted and told so *)
Lemma simple_clean_grants_witness :
  wp (@flom_resource_simple_clean demo_glib 7 1%positive) (fun r s' =>
    r = inr tt /\
    s_data s' = Simple [demo_cl FLOM_LOCK_MODE_CR 3; demo_cl FLOM_LOCK_MODE_PR 2] [] /\
    s_msg s' = flom_msg_init /\
    w_sent (s_world s') =
      [(2%positive, granted_text None); (3%positive, granted_text None)])
    (demo_st demo_holders flom_msg_init).
Proof.
  refine (@simple_clean_grants demo_glib 7 1%positive (demo_cl FLOM_LOCK_MODE_EX 1)
    (demo_st demo_holders flom_msg_init) demo_holders_inv _ _ demo_holders_live eq_refl).
  - constructor.
  - by apply demo_known.
Defined.

(** A holder leaves a queue that two requests were left in *)
Lemma simple_no_lost_wakeup_witness :
  wp (@flom_resource_simple_clean demo_glib 7 1%positive)
     (fun _ s' => simple_blocked (s_data s')) (demo_st demo_holders flom_msg_init).
Proof.
  refine (proj2 (@simple_no_lost_wakeup demo_glib 7 1%positive
    (demo_st demo_holders flom_msg_init) demo_holders_inv _ _ demo_holders_live) _).
  - intros b [=].
  - constructor.
  - right. by eexists.
Defined.

Lemma simple_unlock_answer_witness :
  wp (@flom_resource_simple_inmsg demo_glib 7 1%positive) (fun r s' =>
    r = inr tt /\
    s_data s' = Simple [demo_cl FLOM_LOCK_MODE_CR 3; demo_cl FLOM_LOCK_MODE_PR 2] [] /\
    s_msg s' = flom_msg_init /\
    told [(2%positive, None); (3%positive, None)] demo_world (s_world s'))
    (demo_st demo_holders (unlock_request (Some "foo"%string) 0)).
Proof.
  refine (@simple_unlock_answer demo_glib 7 1%positive (demo_cl FLOM_LOCK_MODE_EX 1)
    (Some "foo"%string) 0 (demo_st demo_holders (unlock_request (Some "foo"%string) 0))
    eq_refl demo_holders_inv _ _ demo_holders_live eq_refl).
  - constructor.
  - by apply demo_known.
Defined.

(** The first reader's connection is dead: the second one stays queued behind
    nobody *)
Definition demo_dead : st simple :=
  St (Some "foo"%string) demo_holders flom_msg_init
     (set_sends [PendingError EPIPE] demo_world) (Timeval 0 0).

Lemma simple_dead_waiter_stops_scan_witness :
  wp (@flom_resource_simple_clean demo_glib 7 1%positive) (fun r s' =>
    r = inl (Rc FLOM_RC_CONNECTION_CLOSED) /\
    s_data s' = Simple [] [demo_cl FLOM_LOCK_MODE_CR 3] /\ w_sent (s_world s') = [])
    demo_dead.
Proof.
  by refine (@simple_dead_waiter_stops_scan demo_glib 7 1%positive
    (demo_cl FLOM_LOCK_MODE_EX 1) (demo_cl FLOM_LOCK_MODE_PR 2)
    [demo_cl FLOM_LOCK_MODE_CR 3] (demo_conn 12) [] demo_dead
    eq_refl eq_refl eq_refl _ eq_refl eq_refl eq_refl eq_refl).
Defined.

Lemma simple_invalid_mode_witness :
  wp (@flom_resource_simple_inmsg demo_glib 7 1%positive) (fun r s' =>
    r = inr tt /\ s_msg s' = lock_answer demo_mid FLOM_RC_OK None /\
    forall lock s'', s_data s'' = s_data s' ->
      (@flom_resource_simple_can_lock lock s'').1 = inl Ub)
    (demo_st (Simple [] []) (lock_request (demo_request 6 1 0))).
Proof.
  refine (@simple_invalid_mode demo_glib 7 1%positive demo_mid (demo_request 6 1 0)
    (demo_st (Simple [] []) (lock_request (demo_request 6 1 0))) eq_refl _ eq_refl _).
  - done.
  - by apply demo_can_answer.
Defined.
