(* ===== verification/Numeric.v ===== *)
(** * Numeric: numeric resources

    [src/src/flom_resource_numeric.c]: a total quantity, given in the name of
    the resource, from which clients lock parts. *)
From Stdlib Require Import ZArith String List Lia.
From stdpp Require Import base list gmap numbers strings.
From S2P Require Import Prelude Types CStr RsrcName Msg MsgXml Vfs World ConnLock Resource.
Local Open Scope Z_scope.

(** ** Data: [struct flom_rsrc_data_numeric_s] *)
Record numeric : Type := Numeric {
  total_quantity : Z;
  locked_quantity : Z;
  holders : list (conn_lock Z);
  waitings : list (conn_lock Z)
}.

Definition set_total (q : Z) (d : numeric) : numeric :=
  Numeric q (locked_quantity d) (holders d) (waitings d).
Definition set_locked (q : Z) (d : numeric) : numeric :=
  Numeric (total_quantity d) q (holders d) (waitings d).
Definition set_holders (l : list (conn_lock Z)) (d : numeric) : numeric :=
  Numeric (total_quantity d) (locked_quantity d) l (waitings d).
Definition set_waitings (l : list (conn_lock Z)) (d : numeric) : numeric :=
  Numeric (total_quantity d) (locked_quantity d) (holders d) l.

Section numeric.
Context `{Glib}.

(** ** [flom_resource_numeric_can_lock] *)
Definition flom_resource_numeric_can_lock (quantity : Z) : Res numeric bool :=
  d ← gets s_data;
  available ← c_int (total_quantity d - locked_quantity d);
  mret (available >=? quantity).

(** ** [flom_resource_numeric_init] *)
Definition flom_resource_numeric_init (name : string) : Res numeric unit :=
  _ ← modify (put_name (Some name));
  match flom_rsrc_get_number name FLOM_RSRC_TYPE_NUMERIC with
  | inl rc => throw (Rc rc)
  | inr n => modify (put_data (Numeric n 0 [] []))
  end.

(** ** [flom_resource_numeric_waitings] *)
Definition numeric_try (cl : conn_lock Z) : Res numeric (option unit) :=
  b ← flom_resource_numeric_can_lock (cl_info cl);
  mret (if (b : bool) then Some tt else None).

Definition push_holder (cl : conn_lock Z) : Res numeric unit :=
  modify (fun s => put_data (set_holders (cl :: holders (s_data s)) (s_data s)) s).

Definition add_locked (q : Z) : Res numeric unit :=
  d ← gets s_data;
  l ← c_int (locked_quantity d + q);
  modify (fun s => put_data (set_locked l (s_data s)) s).

Definition numeric_grant (_ : unit) (cl : conn_lock Z) : Res numeric unit :=
  _ ← on_world (notify_granted (cl_conn cl) None);
  _ ← push_holder cl;
  _ ← add_locked (cl_info cl);
  vfs_move_locker_conn (cl_conn cl).

Definition flom_resource_numeric_waitings : Res numeric unit :=
  scan_waitings waitings set_waitings numeric_try numeric_grant.

(** ** [flom_resource_numeric_clean] *)
Definition flom_resource_numeric_clean (locker_uid : Z) (conn : conn_ref)
    : Res numeric unit :=
  d ← gets s_data;
  _ ← match flom_rsrc_conn_find (holders d) conn with
      | Some cl =>
          _ ← modify (put_data (set_holders (remove_conn conn (holders d)) d));
          _ ← add_locked (- cl_info cl);
          flom_resource_numeric_waitings
      | None => modify (put_data (set_waitings (remove_conn conn (waitings d)) d))
      end;
  vfs_del_conn conn.

(** ** [flom_resource_numeric_inmsg] *)
Definition numeric_lock (locker_uid : Z) (conn : conn_ref) : Res numeric unit :=
  m ← gets s_msg;
  b ← of_option Ub (get_lock_8 (m_body m));
  let new_quantity := l8_quantity b in
  can_lock ← flom_resource_numeric_can_lock new_quantity;
  d ← gets s_data;
  let impossible_lock := new_quantity >? total_quantity d in
  let can_wait := if impossible_lock then false else negb (l8_wait b =? 0) in
  _ ← free_and_init_msg;
  if (can_lock : bool) then
    cl ← on_world (flom_rsrc_conn_lock_new new_quantity conn);
    _ ← push_holder cl;
    _ ← vfs_add_locker_conn locker_uid conn true FLOM_LOCK_MODE_INVALID
          (Some new_quantity) None None;
    _ ← add_locked new_quantity;
    build_lock_answer conn FLOM_RC_OK None
  else if can_wait then
    cl ← on_world (flom_rsrc_conn_lock_new new_quantity conn);
    _ ← modify (fun s => put_data (set_waitings (waitings (s_data s) ++ [cl]) (s_data s)) s);
    _ ← vfs_add_locker_conn locker_uid conn false FLOM_LOCK_MODE_INVALID
          (Some new_quantity) None None;
    build_lock_answer conn FLOM_RC_LOCK_ENQUEUED None
  else
    build_lock_answer conn
      (if impossible_lock then FLOM_RC_LOCK_IMPOSSIBLE else FLOM_RC_LOCK_BUSY) None.

Definition numeric_unlock (locker_uid : Z) (conn : conn_ref) : Res numeric unit :=
  m ← gets s_msg;
  b ← of_option Ub (get_unlock_8 (m_body m));
  n ← gets s_name;
  _ ← when (negb (bool_decide (n = b.1))) (throw (Rc FLOM_RC_INVALID_OPTION));
  _ ← flom_resource_numeric_clean locker_uid conn;
  free_and_init_msg.

Definition flom_resource_numeric_inmsg (locker_uid : Z) (conn : conn_ref)
    : Res numeric unit :=
  m ← gets s_msg;
  if msg_verb m =? FLOM_MSG_VERB_LOCK then numeric_lock locker_uid conn
  else if msg_verb m =? FLOM_MSG_VERB_UNLOCK then numeric_unlock locker_uid conn
  else throw (Rc FLOM_RC_PROTOCOL_ERROR).

(** ** [flom_resource_numeric_free] *)
Definition flom_resource_numeric_free : Res numeric unit :=
  _ ← modify (put_data (Numeric 0 0 [] []));
  modify (put_name None).

#[export] Instance numeric_resource : Resource numeric := {
  res_init := flom_resource_numeric_init;
  res_inmsg := flom_resource_numeric_inmsg;
  res_clean := flom_resource_numeric_clean;
  res_free := flom_resource_numeric_free;
  res_timeout := flom_resource_timeout;
  res_compare_name := flom_resource_compare_name
}.
End numeric.

(** ** Specification *)
Fixpoint quantity_sum (l : list (conn_lock Z)) : Z :=
  match l with [] => 0 | cl :: l => cl_info cl + quantity_sum l end.

(** The quantities are not negative, the locked quantity is what the holders
    hold, and it does not exceed the total (a name whose number does not fit an
    [int] can make the total negative: nothing is ever locked then); a request
    waits only if the total could satisfy it. *)
Definition numeric_inv (d : numeric) : Prop :=
  in_int32 (total_quantity d) /\
  Forall (fun cl => 0 <= cl_info cl) (holders d) /\
  Forall (fun cl => 0 <= cl_info cl <= total_quantity d) (waitings d) /\
  locked_quantity d = quantity_sum (holders d) /\
  0 <= locked_quantity d <= Z.max 0 (total_quantity d).

Definition numeric_request_ok (_ : numeric) (m : flom_msg) : Prop :=
  forall b, msg_verb m = FLOM_MSG_VERB_LOCK -> get_lock_8 (m_body m) = Some b ->
            0 <= l8_quantity b.

Definition available (d : numeric) : Z := total_quantity d - locked_quantity d.

(** No waiting request fits in what is left *)
Definition numeric_blocked (d : numeric) : Prop :=
  Forall (fun cl => available d < cl_info cl) (waitings d).

Definition grant_quantity (cl : conn_lock Z) (d : numeric) : numeric :=
  set_locked (locked_quantity d + cl_info cl) (set_holders (cl :: holders d) d).

Definition release_quantity (conn : conn_ref) (cl : conn_lock Z) (d : numeric) : numeric :=
  set_locked (locked_quantity d - cl_info cl)
    (set_holders (remove_conn conn (holders d)) d).

Definition numeric_ptry (d : numeric) (x : conn_lock Z) : option unit :=
  if available d >=? cl_info x then Some tt else None.
Definition numeric_papply (_ : unit) (x : conn_lock Z) (d : numeric) : numeric :=
  grant_quantity x d.
Definition numeric_wake : numeric -> list (conn_lock Z) ->
    list (conn_lock Z * unit) * list (conn_lock Z) * numeric :=
  wake numeric_ptry numeric_papply.

(** ** Lemmas on the data *)
Lemma quantity_sum_app l1 l2 : quantity_sum (l1 ++ l2) = quantity_sum l1 + quantity_sum l2.
Proof. induction l1 as [|x l IH]; cbn in *; lia. Qed.

Lemma quantity_sum_nonneg l : Forall (fun cl => 0 <= cl_info cl) l -> 0 <= quantity_sum l.
Proof. induction 1; cbn; lia. Qed.

Lemma numeric_inv_release conn cl d :
  numeric_inv d -> flom_rsrc_conn_find (holders d) conn = Some cl ->
  0 <= cl_info cl <= locked_quantity d /\ numeric_inv (release_quantity conn cl d).
Proof.
  intros (Ht & Hh & Hw & Hl & Hb) Hf.
  destruct (conn_find_split _ _ _ Hf) as (l1 & l2 & Heq & Hr & _ & _).
  assert (Hs : quantity_sum (holders d) = quantity_sum (l1 ++ l2) + cl_info cl).
  { rewrite Heq, !quantity_sum_app. cbn. lia. }
  assert (Hp : Forall (fun cl => 0 <= cl_info cl) (l1 ++ l2)).
  { rewrite <- Hr. by apply Forall_remove_conn. }
  pose proof (quantity_sum_nonneg _ Hp). rewrite Heq, Forall_middle in Hh.
  destruct Hh as [Hc _]. split; [lia|].
  unfold release_quantity, numeric_inv; cbn. rewrite Hr. split_and!; auto; lia.
Qed.

Lemma numeric_inv_grant cl d :
  numeric_inv d -> 0 <= cl_info cl -> available d >= cl_info cl ->
  numeric_inv (grant_quantity cl d).
Proof.
  intros (Ht & Hh & Hw & Hl & Hb) Hc Ha. unfold available in Ha.
  unfold grant_quantity, numeric_inv; cbn. split_and!; auto; lia.
Qed.

Lemma numeric_inv_set_waitings l d :
  numeric_inv d -> Forall (fun cl => 0 <= cl_info cl <= total_quantity d) l ->
  numeric_inv (set_waitings l d).
Proof. intros (Ht & Hh & Hw & Hl & Hb) H. unfold numeric_inv; cbn. auto. Qed.

Lemma numeric_inv_pop pre cl w d :
  waitings d = pre ++ cl :: w -> numeric_inv d ->
  0 <= cl_info cl <= total_quantity d /\ numeric_inv (set_waitings (pre ++ w) d).
Proof.
  intros Hq Hd. pose proof Hd as (_ & _ & Hw & _). rewrite Hq, Forall_middle in Hw.
  destruct Hw. auto using numeric_inv_set_waitings.
Qed.

(** Under the invariant no [int] operation overflows *)
Lemma numeric_inv_int d : numeric_inv d ->
  in_int32 (available d) /\ in_int32 (locked_quantity d).
Proof. intros (Ht & _ & _ & _ & Hb). unfold in_int32, available in *. lia. Qed.

Lemma wake_blocked_mono w : forall d gs r d' q, numeric_wake d w = (gs, r, d') ->
  Forall (fun cl => 0 <= cl_info cl) w -> available d < q -> available d' < q.
Proof.
  unfold numeric_wake. induction w as [|y w IH]; intros d gs r d' q; cbn.
  - by intros [= <- <- <-].
  - destruct (numeric_ptry d y) as [u|] eqn:E.
    + destruct (wake _ _ (numeric_papply u y d) w) as [[gs1 r1] d1] eqn:Ew.
      intros [= <- <- <-] Hf Hq. inversion Hf; subst. eapply IH; [exact Ew|done|].
      unfold available in *. cbn. lia.
    + destruct (wake _ _ d w) as [[gs1 r1] d1] eqn:Ew. intros [= <- <- <-] Hf Hq.
      inversion Hf; subst. eapply IH; eauto.
Qed.

Lemma numeric_wake_left w : forall d gs r d', numeric_wake d w = (gs, r, d') ->
  Forall (fun cl => 0 <= cl_info cl) w ->
  Forall (fun cl => available d' < cl_info cl) r.
Proof.
  unfold numeric_wake. induction w as [|y w IH]; intros d gs r d'; cbn.
  - intros [= <- <- <-]. constructor.
  - destruct (numeric_ptry d y) as [u|] eqn:E.
    + destruct (wake _ _ (numeric_papply u y d) w) as [[gs1 r1] d1] eqn:Ew.
      intros [= <- <- <-] Hf. inversion Hf; subst. eauto.
    + destruct (wake _ _ d w) as [[gs1 r1] d1] eqn:Ew. intros [= <- <- <-] Hf.
      inversion Hf; subst. constructor; [|by eauto].
      eapply wake_blocked_mono; [exact Ew | done |]. unfold numeric_ptry in E.
      destruct (available d >=? cl_info y) eqn:E'; [done|].
      rewrite Z.geb_leb in E'. by apply Z.leb_gt in E'.
Qed.

(** ** The programs *)
Section proofs.
Context `{Glib}.

Lemma wp_numeric_can_lock q (Q : err + bool -> st numeric -> Prop) s :
  numeric_inv (s_data s) -> Q (inr (available (s_data s) >=? q)) s ->
  wp (flom_resource_numeric_can_lock q) Q s.
Proof.
  intros Hi HQ. unfold flom_resource_numeric_can_lock. do 3 wp_step.
  apply wp_c_int; [by apply numeric_inv_int|]. by wp_step.
Qed.

Lemma wp_numeric_add_locked q (Q : err + unit -> st numeric -> Prop) s :
  in_int32 (locked_quantity (s_data s) + q) ->
  Q (inr tt) (put_data (set_locked (locked_quantity (s_data s) + q) (s_data s)) s) ->
  wp (add_locked q) Q s.
Proof.
  intros Hi HQ. unfold add_locked. do 3 wp_step.
  apply wp_c_int; [done|]. by wp_step.
Qed.

Lemma numeric_grant_int cl d :
  numeric_inv d -> 0 <= cl_info cl -> available d >= cl_info cl ->
  in_int32 (locked_quantity d + cl_info cl).
Proof.
  intros Hi Hc Ha. pose proof (numeric_inv_grant _ _ Hi Hc Ha) as (_ & _ & _ & _ & Hb).
  destruct Hi as (Ht & _). unfold in_int32 in *. cbn in Hb. lia.
Qed.

(** *** The scan keeps the invariant, however sending fails *)
Lemma wp_numeric_waitings_inv s :
  numeric_inv (s_data s) ->
  wp flom_resource_numeric_waitings (fun _ s' => numeric_inv (s_data s')) s.
Proof.
  intros Hs. unfold flom_resource_numeric_waitings.
  apply wp_scan_waitings with (J := fun pre w s =>
    waitings (s_data s) = pre ++ w /\ numeric_inv (s_data s));
    [by intros ??? [??] | by intros ?? [??] | | done].
  clear s Hs. intros pre cl w s [Hq Hs].
  destruct (numeric_inv_pop _ _ _ _ Hq Hs) as [Hcl Hs'].
  unfold numeric_try. wp_step. apply wp_numeric_can_lock; [done|].
  wp_step. destruct (available (s_data s) >=? cl_info cl) eqn:Hc; [|by rewrite <- app_assoc].
  rewrite Z.geb_leb in Hc. apply Z.leb_le in Hc.
  unfold numeric_grant, push_holder. wp_step.
  wp_frame_step; cbn in Hd; rewrite Hq, delete_middle in Hd; [by rewrite Hd|].
  assert (Ha : available (set_waitings (pre ++ w) (s_data s)) >= cl_info cl)
    by (unfold available in *; cbn; lia).
  do 3 wp_step. apply wp_numeric_add_locked.
  { cbn. rewrite Hd. apply (numeric_grant_int cl _ Hs'); [lia | exact Ha]. }
  apply wp_frame; [solve_frame|]. cbn. rewrite Hd.
  intros r s2 -> _. pose proof (numeric_inv_grant cl _ Hs' ltac:(lia) Ha).
  by destruct r.
Qed.

Lemma wp_numeric_clean_inv uid conn s :
  numeric_inv (s_data s) ->
  wp (flom_resource_numeric_clean uid conn) (fun _ s' => numeric_inv (s_data s')) s.
Proof.
  intros Hs. unfold flom_resource_numeric_clean. do 3 wp_step.
  destruct (flom_rsrc_conn_find _ _) as [cl|] eqn:Hf.
  - destruct (numeric_inv_release _ _ _ Hs Hf) as [Hc Hr].
    do 3 wp_step. apply wp_numeric_add_locked; cbn.
    { pose proof (numeric_inv_int _ Hs) as [_ Hl]. unfold in_int32 in *. lia. }
    eapply wp_mono; [|by apply wp_numeric_waitings_inv].
    intros [e|u] s' Hs'; [done|]. wp_frame_step; by rewrite Hd.
  - wp_step. wp_frame_step; rewrite Hd; cbn; apply numeric_inv_set_waitings; auto.
    all: apply Forall_remove_conn, Hs.
Qed.

Definition new_cl (b : body_lock_8) (conn : conn_ref) : conn_lock Z :=
  Conn_lock (l8_quantity b) None 0 conn.

(** What an incoming message can do to the data *)
Lemma wp_numeric_inmsg_data uid conn s (Q : err + unit -> st numeric -> Prop) :
  numeric_inv (s_data s) -> numeric_request_ok (s_data s) (s_msg s) ->
  (forall r s', r = inl Ub \/ s_data s' = s_data s -> Q r s') ->
  (forall b r s', 0 <= l8_quantity b -> available (s_data s) >= l8_quantity b ->
     s_data s' = grant_quantity (new_cl b conn) (s_data s) -> Q r s') ->
  (forall b r s', 0 <= l8_quantity b <= total_quantity (s_data s) ->
     available (s_data s) < l8_quantity b ->
     s_data s' = set_waitings (waitings (s_data s) ++ [new_cl b conn]) (s_data s) -> Q r s') ->
  wp (flom_resource_numeric_clean uid conn) (fun _ s1 =>
    forall r s', s_data s' = s_data s1 -> Q r s') s ->
  wp (flom_resource_numeric_inmsg uid conn) Q s.
Proof.
  intros Hi Hok Hsame Hgrant Hqueue Hclean.
  unfold flom_resource_numeric_inmsg. do 3 wp_step; [|wp_step; [|wp_step; by auto]].
  - unfold numeric_lock, push_holder. do 3 wp_step. wp_step; [|by auto].
    assert (Hv : 0 <= l8_quantity a) by (apply Hok; [by apply Z.eqb_eq | done]).
    wp_step. apply wp_numeric_can_lock; [done|]. do 3 wp_step. wp_frame_step; [by auto|].
    destruct (available (s_data s) >=? l8_quantity a) eqn:Hc;
      rewrite Z.geb_leb in Hc; [apply Z.leb_le in Hc | apply Z.leb_gt in Hc; wp_step].
    + wp_step. apply wp_conn_lock_any; intros; [by auto|]. do 3 wp_step.
      apply wp_vfs_add_any; [by auto|]. intros t. wp_step. apply wp_numeric_add_locked; cbn.
      { rewrite Hd. apply (numeric_grant_int (new_cl a conn) _ Hi); cbn; lia. }
      apply wp_frame; [solve_frame|]. intros r s1 Hs1 _. eapply Hgrant; eauto; [lia|].
      rewrite Hs1. cbn. by rewrite Hd.
    + wp_step. apply wp_conn_lock_any; intros; [by auto|]. do 2 wp_step.
      apply wp_frame; [solve_frame|]. intros r s1 Hs1 _.
      destruct (l8_quantity a >? total_quantity (s_data s)) eqn:Ht; [done|].
      rewrite Z.gtb_ltb in Ht. apply Z.ltb_ge in Ht. eapply Hqueue; eauto.
      rewrite Hs1. cbn. by rewrite Hd.
    + apply wp_frame; [solve_frame|]. intros r s1 Hs1 _. apply Hsame. right.
      by rewrite Hs1, Hd.
  - unfold numeric_unlock. do 3 wp_step. wp_step; [|by auto].
    do 4 wp_step; [wp_step; by auto|]. wp_step. eapply wp_mono; [|exact Hclean].
    intros [e|u] s1 Hs1; [by auto|]. apply wp_frame; [solve_frame|]. auto.
Qed.

#[export] Instance numeric_resource_inv :
  ResourceInv numeric numeric_request_ok numeric_inv.
Proof.
  constructor; intros.
  - cbn. unfold flom_resource_numeric_init, flom_rsrc_get_number. do 2 wp_step.
    destruct (flom_rsrc_get_group _ _ _) as [rc|g]; [by wp_step|]. wp_step. intros _.
    pose proof (int32_range (strtol g)). unfold numeric_inv; cbn.
    repeat split; try constructor; try lia; apply int32_range.
  - cbn. apply wp_numeric_inmsg_data; [done..| | | |].
    + intros r s' [-> | ->]; [done | auto].
    + intros b r s' Hb Ha -> _. by apply numeric_inv_grant.
    + intros b r s' Hb Ha -> _. apply numeric_inv_set_waitings; [done|].
      apply Forall_app; split; [apply H1|]. by constructor.
    + eapply wp_mono; [|by apply wp_numeric_clean_inv]. intros r1 s1 ? r2 s2 -> _. done.
  - eapply wp_mono; [|by apply wp_numeric_clean_inv]. auto.
  - by apply wp_ret.
Qed.

(** *** The scan, exactly, when the network works *)
Lemma numeric_grant_ok u cl s d Q :
  numeric_inv d -> numeric_ptry d cl = Some u -> cl ∈ waitings d ->
  s_data s = set_waitings (waitings (s_data s)) d ->
  sends_ok (s_world s) -> live (s_world s) (cl_conn cl) ->
  (forall s', s_data s' = numeric_papply u cl (s_data s) -> s_name s' = s_name s ->
     s_msg s' = s_msg s ->
     told [(cl_conn cl, None)] (s_world s) (s_world s') -> Q (inr tt) s') ->
  wp (numeric_grant u cl) Q s.
Proof.
  intros Hi Hp Hin Hd Hs Hl HQ. unfold numeric_grant, push_holder. wp_step.
  apply wp_notify_granted; [done..|]. intros w' Ht Hl'. do 3 wp_step. apply wp_numeric_add_locked.
  { cbn. rewrite Hd. cbn. unfold numeric_ptry in Hp.
    destruct (available d >=? cl_info cl) eqn:E; [|done]. rewrite Z.geb_leb in E.
    apply Z.leb_le in E. apply numeric_grant_int; [done| |lia].
    destruct Hi as (_ & _ & Hw & _). rewrite Forall_forall in Hw. by apply Hw. }
  apply wp_vfs_move; [by apply live_known|]. intros t. by apply HQ.
Qed.

Lemma wp_numeric_waitings_wake s (Q : err + unit -> st numeric -> Prop) :
  numeric_inv (s_data s) -> sends_ok (s_world s) ->
  Forall (fun cl => live (s_world s) (cl_conn cl)) (waitings (s_data s)) ->
  (forall gs r d' s',
     numeric_wake (s_data s) (waitings (s_data s)) = (gs, r, d') ->
     s_data s' = set_waitings r d' -> numeric_inv (s_data s') ->
     s_name s' = s_name s -> s_msg s' = s_msg s ->
     told (map (fun p => (cl_conn p.1, None)) gs) (s_world s) (s_world s') ->
     Q (inr tt) s') ->
  wp flom_resource_numeric_waitings Q s.
Proof.
  intros Hi Hs Hl HQ. unfold flom_resource_numeric_waitings.
  apply (wp_scan_wake waitings set_waitings numeric_ptry numeric_papply)
    with (proj := fun g => g) (el := fun _ => None) (inv := numeric_inv); try done; try (by destruct d).
  - intros cl s' Hi' Hin. unfold numeric_try, flom_resource_numeric_can_lock, mbind,
      M_bind, gets, numeric_ptry. rewrite c_int_ok by (by apply numeric_inv_int). cbn.
    unfold available. by destruct (_ >=? _).
  - apply numeric_grant_ok.
  - intros g pre cl w d Hd Hq Hp. destruct (numeric_inv_pop _ _ _ _ Hq Hd) as [Hcl Hd'].
    unfold numeric_ptry in Hp. destruct (available d >=? cl_info cl) eqn:E; [|done].
    rewrite Z.geb_leb in E. apply Z.leb_le in E.
    apply (numeric_inv_grant cl) in Hd'; [done | lia | unfold available in *; cbn; lia].
Qed.
End proofs.

(** ** Theorems *)
Section theorems.
Context `{Glib}.

(** C7: safety.  After any history of requests for quantities that are not
    negative, disconnections and timeouts, in any world, the locked quantity is
    the sum of what the holders hold and it does not exceed the total. *)
Theorem numeric_within_total n d :
  resource_reachable numeric_request_ok (n, d) ->
  locked_quantity d = quantity_sum (holders d) /\
  0 <= locked_quantity d <= Z.max 0 (total_quantity d) /\
  Forall (fun cl => 0 <= cl_info cl <= total_quantity d) (waitings d).
Proof. intros Hr. by apply reachable_inv in Hr as (_ & _ & ? & ? & ?). Qed.

(** a request for a quantity is granted exactly when it fits in what is
    left; otherwise it is impossible when it exceeds the total, queued when the
    client accepts to wait, and refused as busy when it does not. *)
Theorem numeric_lock_answer uid conn mid b s :
  numeric_inv (s_data s) -> s_msg s = lock_request b -> 0 <= l8_quantity b ->
  can_answer (s_world s) conn mid ->
  let q := l8_quantity b in
  let cl := Conn_lock q None 0 conn in
  wp (flom_resource_numeric_inmsg uid conn) (fun r s' =>
    r = inr tt /\ same_net (s_world s) (s_world s') /\
    if q <=? available (s_data s) then
      s_data s' = grant_quantity cl (s_data s) /\
      s_msg s' = lock_answer mid FLOM_RC_OK None
    else if total_quantity (s_data s) <? q then
      s_data s' = s_data s /\ s_msg s' = lock_answer mid FLOM_RC_LOCK_IMPOSSIBLE None
    else if negb (l8_wait b =? 0) then
      s_data s' = set_waitings (waitings (s_data s) ++ [cl]) (s_data s) /\
      s_msg s' = lock_answer mid FLOM_RC_LOCK_ENQUEUED None
    else s_data s' = s_data s /\ s_msg s' = lock_answer mid FLOM_RC_LOCK_BUSY None) s.
Proof.
  intros Hi Hm Hq Hc q cl. unfold flom_resource_numeric_inmsg. do 2 wp_step.
  rewrite Hm. cbn [msg_verb lock_request m_header h_verb Z.eqb FLOM_MSG_VERB_LOCK Pos.eqb].
  unfold numeric_lock, push_holder. do 3 wp_step. rewrite Hm.
  wp_step; [|done]. injection H0 as <-. wp_step. apply wp_numeric_can_lock; [done|].
  do 3 wp_step. eapply wp_free_lock_request; [exact Hm|].
  rewrite Z.geb_leb, Z.gtb_ltb. fold q. destruct (q <=? available (s_data s)) eqn:Ha.
  - apply Z.leb_le in Ha. wp_step. eapply wp_conn_lock_new_mallocs; [exact Hc|].
    intros w Hw. do 3 wp_step.
    apply wp_vfs_add; [by eapply can_answer_known|]. intros t. wp_step. apply wp_numeric_add_locked.
    { apply (numeric_grant_int cl (s_data s)); cbn; [done|done|lia]. }
    by eapply wp_build_lock_answer.
  - destruct (total_quantity (s_data s) <? q); [by eapply wp_build_lock_answer|].
    destruct (negb (l8_wait b =? 0)); [|by eapply wp_build_lock_answer].
    wp_step. eapply wp_conn_lock_new_mallocs; [exact Hc|]. intros w Hw. do 3 wp_step.
    apply wp_vfs_add; [by eapply can_answer_known|]. intros t.
    by eapply wp_build_lock_answer.
Qed.

(** releasing a quantity.  When the connection holds one and the network
    works, its quantity becomes available, the queue is scanned from its head,
    every request that fits at its turn becomes a holder and is told so, in
    queue order, and no request left in the queue fits in what remains. *)
Theorem numeric_clean_grants uid conn cl s :
  numeric_inv (s_data s) -> sends_ok (s_world s) -> known (s_world s) conn ->
  Forall (fun x => live (s_world s) (cl_conn x)) (waitings (s_data s)) ->
  flom_rsrc_conn_find (holders (s_data s)) conn = Some cl ->
  wp (flom_resource_numeric_clean uid conn) (fun r s' =>
    let d := release_quantity conn cl (s_data s) in
    let '(gs, rest, d') := numeric_wake d (waitings d) in
    r = inr tt /\ s_data s' = set_waitings rest d' /\ numeric_blocked (s_data s') /\
    s_msg s' = s_msg s /\
    told (map (fun p => (cl_conn p.1, None)) gs) (s_world s) (s_world s')) s.
Proof.
  intros Hi Hs Hc Hl Hf. unfold flom_resource_numeric_clean. do 3 wp_step. rewrite Hf.
  destruct (numeric_inv_release _ _ _ Hi Hf) as [Hb Hr].
  do 3 wp_step. apply wp_numeric_add_locked; cbn.
  { pose proof (numeric_inv_int _ Hi) as [_ Hli]. unfold in_int32 in *. lia. }
  apply wp_numeric_waitings_wake; [done..|].
  intros gs r d' s1 Hw Hd Hi' Hn Hm Ht. apply wp_vfs_del; [by apply Ht|].
  intros t. cbn [s_data put_data] in Hw.
  change (numeric_wake (release_quantity conn cl (s_data s)) (waitings (s_data s)) =
          (gs, r, d')) in Hw.
  cbv zeta. cbn [waitings release_quantity set_locked set_holders] in Hw |- *.
  rewrite Hw. split_and!; [done| done| | done | done].
  - unfold numeric_blocked. cbn. rewrite Hd. cbn.
    change (available (set_waitings r d')) with (available d').
    eapply numeric_wake_left; [exact Hw|]. destruct Hi as (_ & _ & Hwt & _).
    eapply Forall_impl; [exact Hwt|]. intros x Hx. cbn in Hx. lia.
Qed.

(** the quantity of a request is not checked to be positive.  A client that
    locks a negative quantity makes more available than the resource has: a
    history exists after which one holder alone has more than the total. *)
Theorem numeric_negative_overbooks :
  exists n d cl, resource_reachable (fun _ _ => True) (n, d) /\
    cl ∈ holders d /\ total_quantity d < cl_info cl.
Proof.
  pose (req := fun q => lock_request (Lock_8 None (Some "foo[1]"%string) 0 1 q 1 0)).
  pose (a := demo_cl (-5) 1). pose (b := demo_cl 3 2).
  exists (Some "foo[1]"%string), (Numeric 1 (-2) [b; a] []), b. split; [|split; [|done]].
  - apply (reachable_inmsg _ 7 2%positive (req 3) demo_world (Timeval 0 0)
      (Some "foo[1]"%string) (Numeric 1 (-5) [a] [])); [|done|reflexivity].
    apply (reachable_inmsg _ 7 1%positive (req (-5)) demo_world (Timeval 0 0)
      (Some "foo[1]"%string) (Numeric 1 0 [] [])); [|done|reflexivity].
    by apply (reachable_start _ "foo[1]" (demo_st (Numeric 0 0 [] []) flom_msg_init)).
  - apply list_elem_of_here.
Qed.
End theorems.

(** ** The theorems at concrete inputs *)
Definition demo_req (q : Z) : flom_msg :=
  lock_request (Lock_8 None (Some "foo[5]"%string) 0 1 q 1 0).

Lemma numeric_within_total_witness :
  locked_quantity (Numeric 5 3 [demo_cl 3 1] [demo_cl 4 2]) = 3 /\
  Forall (fun cl : conn_lock Z => 0 <= cl_info cl <= 5) [demo_cl 4 2].
Proof.
  assert (Hr : @resource_reachable _ (@numeric_resource demo_glib) numeric_request_ok
                 (Some "foo[5]"%string, Numeric 5 3 [demo_cl 3 1] [demo_cl 4 2])).
  { apply (@reachable_inmsg _ (@numeric_resource demo_glib) _ 7 2%positive (demo_req 4)
      demo_world (Timeval 0 0) (Some "foo[5]"%string) (Numeric 5 3 [demo_cl 3 1] []));
      [|by intros b _ [= <-] | reflexivity].
    apply (@reachable_inmsg _ (@numeric_resource demo_glib) _ 7 1%positive (demo_req 3)
      demo_world (Timeval 0 0) (Some "foo[5]"%string) (Numeric 5 0 [] []));
      [|by intros b _ [= <-] | reflexivity].
    by apply (@reachable_start _ (@numeric_resource demo_glib) _ "foo[5]"
      (demo_st (Numeric 0 0 [] []) flom_msg_init)). }
  destruct (@numeric_within_total demo_glib _ _ Hr) as (H1 & _ & H3). by split.
Defined.

Definition demo_numeric : numeric :=
  Numeric 5 4 [demo_cl 4 1] [demo_cl 5 2; demo_cl 3 3].

Lemma demo_numeric_inv : numeric_inv demo_numeric.
Proof. by repeat constructor. Qed.

Lemma demo_numeric_live :
  Forall (fun x : conn_lock Z => live demo_world (cl_conn x)) (waitings demo_numeric).
Proof. repeat constructor; by apply demo_live. Qed.

Lemma numeric_lock_answer_witness :
  wp (@flom_resource_numeric_inmsg demo_glib 7 2%positive) (fun r s' =>
    r = inr tt /\ same_net demo_world (s_world s') /\
    s_data s' = demo_numeric /\ s_msg s' = lock_answer demo_mid FLOM_RC_LOCK_IMPOSSIBLE None)
    (demo_st demo_numeric (demo_req 6)).
Proof.
  refine (@numeric_lock_answer demo_glib 7 2%positive demo_mid
    (Lock_8 None (Some "foo[5]"%string) 0 1 6 1 0) (demo_st demo_numeric (demo_req 6))
    demo_numeric_inv eq_refl _ _); [done | by apply demo_can_answer].
Defined.

(** Four of five units are released: the request for five is granted, the one
    for three stays *)
Lemma numeric_clean_grants_witness :
  wp (@flom_resource_numeric_clean demo_glib 7 1%positive) (fun r s' =>
    r = inr tt /\ s_data s' = Numeric 5 5 [demo_cl 5 2] [demo_cl 3 3] /\
    numeric_blocked (s_data s') /\
    s_msg s' = flom_msg_init /\ told [(2%positive, None)] demo_world (s_world s'))
    (demo_st demo_numeric flom_msg_init).
Proof.
  refine (@numeric_clean_grants demo_glib 7 1%positive (demo_cl 4 1)
    (demo_st demo_numeric flom_msg_init) demo_numeric_inv _ _ demo_numeric_live eq_refl).
  - constructor.
  - by apply demo_known.
Defined.
