(* ===== verification/SetRsrc.v ===== *)
(** * SetRsrc: resource sets

    [src/src/flom_resource_set.c]: the elements named in the resource name,
    each locked by at most one connection and handed out in turn. *)
From Stdlib Require Import ZArith String List Lia.
From stdpp Require Import base list gmap numbers strings.
From S2P Require Import Prelude Types CStr RsrcName Msg MsgXml Vfs World ConnLock Resource.
Local Open Scope Z_scope.

(** ** Data: [struct flom_rsrc_data_set_s] *)
Record element : Type := Element { e_name : string; e_conn : option conn_ref }.

Record rset : Type := Rset {
  index : nat;
  elements : list element;
  waitings : list (conn_lock unit)
}.

Definition set_waitings (l : list (conn_lock unit)) (d : rset) : rset :=
  Rset (index d) (elements d) l.
Definition set_element (j : nat) (c : option conn_ref) (d : rset) : rset :=
  Rset (index d) (alter (fun e => Element (e_name e) c) j (elements d)) (waitings d).
Definition next_index (d : rset) : rset :=
  Rset ((index d + 1) mod length (elements d)) (elements d) (waitings d).

Section rset.
Context `{Glib}.

(** ** [flom_resource_set_can_lock]: the first free element, from [index] on *)
Definition is_free (d : rset) (j : nat) : bool :=
  match elements d !! j with
  | Some e => bool_decide (e_conn e = None)
  | None => false
  end.

Definition flom_resource_set_can_lock (d : rset) : option nat :=
  let len := length (elements d) in
  List.find (is_free d) (map (fun i => ((i + index d) mod len)%nat) (seq 0 len)).

(** ** [flom_resource_set_init] *)
Definition flom_resource_set_init (name : string) : Res rset unit :=
  _ ← modify (put_name (Some name));
  modify (put_data (Rset 0 (map (fun n => Element n None) (flom_rsrc_get_elements name)) [])).

(** [rdse->conn = conn; index = (index + 1) % len] *)
Definition take_element (j : nat) (conn : conn_ref) (d : rset) : rset :=
  next_index (set_element j (Some conn) d).

Definition element_name (d : rset) (j : nat) : option string :=
  e_name <$> elements d !! j.

(** ** [flom_resource_set_waitings] *)
Definition set_try (cl : conn_lock unit) : Res rset (option nat) :=
  gets (fun s => flom_resource_set_can_lock (s_data s)).

Definition set_grant (j : nat) (cl : conn_lock unit) : Res rset unit :=
  d ← gets s_data;
  _ ← on_world (notify_granted (cl_conn cl) (element_name d j));
  _ ← modify (fun s => put_data (take_element j (cl_conn cl) (s_data s)) s);
  vfs_move_locker_conn (cl_conn cl).

Definition flom_resource_set_waitings : Res rset unit :=
  scan_waitings waitings set_waitings set_try set_grant.

(** ** [flom_resource_set_clean] *)
Definition held_by (c : conn_ref) (e : element) : bool := bool_decide (e_conn e = Some c).

Fixpoint find_held (c : conn_ref) (l : list element) : option nat :=
  match l with
  | [] => None
  | e :: l => if held_by c e then Some 0%nat else S <$> find_held c l
  end.

Definition flom_resource_set_clean (locker_uid : Z) (conn : conn_ref) : Res rset unit :=
  d ← gets s_data;
  _ ← match find_held conn (elements d) with
      | Some j =>
          _ ← modify (put_data (set_element j None d));
          flom_resource_set_waitings
      | None => modify (put_data (set_waitings (remove_conn conn (waitings d)) d))
      end;
  vfs_del_conn conn.

(** ** [flom_resource_set_inmsg] *)
Definition set_lock (locker_uid : Z) (conn : conn_ref) : Res rset unit :=
  d ← gets s_data;
  m ← gets s_msg;
  b ← of_option Ub (get_lock_8 (m_body m));
  let can_wait := negb (l8_wait b =? 0) in
  _ ← free_and_init_msg;
  match flom_resource_set_can_lock d with
  | Some j =>
      _ ← modify (fun s => put_data (take_element j conn (s_data s)) s);
      _ ← vfs_add_locker_conn locker_uid conn true FLOM_LOCK_MODE_INVALID None None None;
      build_lock_answer conn FLOM_RC_OK (element_name d j)
  | None =>
      if can_wait then
        cl ← on_world (flom_rsrc_conn_lock_new tt conn);
        _ ← modify (fun s =>
              put_data (set_waitings (waitings (s_data s) ++ [cl]) (s_data s)) s);
        _ ← vfs_add_locker_conn locker_uid conn false FLOM_LOCK_MODE_INVALID None None None;
        build_lock_answer conn FLOM_RC_LOCK_ENQUEUED None
      else build_lock_answer conn FLOM_RC_LOCK_BUSY None
  end.

Definition set_unlock (locker_uid : Z) (conn : conn_ref) : Res rset unit :=
  m ← gets s_msg;
  b ← of_option Ub (get_unlock_8 (m_body m));
  n ← gets s_name;
  _ ← when (negb (bool_decide (n = b.1))) (throw (Rc FLOM_RC_INVALID_OPTION));
  _ ← flom_resource_set_clean locker_uid conn;
  free_and_init_msg.

Definition flom_resource_set_inmsg (locker_uid : Z) (conn : conn_ref) : Res rset unit :=
  m ← gets s_msg;
  if msg_verb m =? FLOM_MSG_VERB_LOCK then set_lock locker_uid conn
  else if msg_verb m =? FLOM_MSG_VERB_UNLOCK then set_unlock locker_uid conn
  else throw (Rc FLOM_RC_PROTOCOL_ERROR).

(** ** [flom_resource_set_free] *)
Definition flom_resource_set_free : Res rset unit :=
  _ ← modify (put_data (Rset 0 [] []));
  modify (put_name None).

#[export] Instance set_resource : Resource rset := {
  res_init := flom_resource_set_init;
  res_inmsg := flom_resource_set_inmsg;
  res_clean := flom_resource_set_clean;
  res_free := flom_resource_set_free;
  res_timeout := flom_resource_timeout;
  res_compare_name := flom_resource_compare_name
}.
End rset.

(** ** Specification *)
Definition free_element (d : rset) (j : nat) : Prop :=
  exists e, elements d !! j = Some e /\ e_conn e = None.

(** The next element to look at exists, and so do the elements of the name *)
Definition set_inv (names : list string) (d : rset) : Prop :=
  map e_name (elements d) = names /\ (elements d <> [] -> (index d < length (elements d))%nat).

(** Nobody waits while an element is free *)
Definition set_blocked (d : rset) : Prop :=
  waitings d <> [] -> forall j, ~ free_element d j.

Definition set_wake : rset -> list (conn_lock unit) ->
    list (conn_lock unit * nat) * list (conn_lock unit) * rset :=
  wake (fun d _ => flom_resource_set_can_lock d)
       (fun j x d => take_element j (cl_conn x) d).

(** ** Lemmas *)
Lemma is_free_spec d j : is_free d j = true <-> free_element d j.
Proof.
  unfold is_free, free_element. destruct (elements d !! j) as [e|].
  - rewrite bool_decide_eq_true. split; [by exists e | by intros (e' & [= <-] & He)].
  - split; [done | by intros (e & [=] & _)].
Qed.

(** The scan looks at every element once, in cyclic order from [index] *)
Lemma cyclic_surj len i0 j :
  (i0 < len)%nat -> (j < len)%nat ->
  exists i, (i < len)%nat /\ ((i + i0) mod len)%nat = j /\
            i = (if (i0 <=? j)%nat then j - i0 else j + len - i0)%nat.
Proof.
  intros Hi Hj. destruct (Nat.leb_spec i0 j).
  - exists (j - i0)%nat. split_and!; [lia| |done].
    replace (j - i0 + i0)%nat with j by lia. apply Nat.mod_small. lia.
  - exists (j + len - i0)%nat. split_and!; [lia| |done].
    replace (j + len - i0 + i0)%nat with (j + 1 * len)%nat by lia.
    rewrite Nat.Div0.mod_add. apply Nat.mod_small. lia.
Qed.

Lemma can_lock_some d j :
  flom_resource_set_can_lock d = Some j -> free_element d j /\ (j < length (elements d))%nat.
Proof.
  intros Hf. apply List.find_some in Hf as [_ Hf]. apply is_free_spec in Hf.
  split; [done|]. destruct Hf as (e & He & _). by eapply lookup_lt_Some.
Qed.

Lemma can_lock_none d names :
  set_inv names d -> flom_resource_set_can_lock d = None -> forall j, ~ free_element d j.
Proof.
  intros [_ Hi] Hf j Hj. pose proof Hj as (e & He & _). apply lookup_lt_Some in He.
  destruct (cyclic_surj (length (elements d)) (index d) j) as (i & Hil & Hij & _); [|done|].
  { apply Hi. intros E. rewrite E in He. cbn in He. lia. }
  eapply List.find_none in Hf; [|apply in_map, in_seq; split; [apply Nat.le_0_l | exact Hil]].
  rewrite Hij in Hf. apply is_free_spec in Hj. congruence.
Qed.

Lemma find_map_seq d j :
  flom_resource_set_can_lock d = Some j ->
  exists i, (i < length (elements d))%nat /\
    j = ((i + index d) mod length (elements d))%nat /\
    forall k, (k < i)%nat -> ~ free_element d ((k + index d) mod length (elements d)).
Proof.
  unfold flom_resource_set_can_lock. set (len := length (elements d)).
  set (f := fun i => ((i + index d) mod len)%nat).
  assert (Hgen : forall n a, List.find (is_free d) (map f (seq a n)) = Some j ->
    exists i, (a <= i < a + n)%nat /\ j = f i /\
      forall k, (a <= k < i)%nat -> ~ free_element d (f k)).
  { induction n as [|n IH]; intros a; cbn [seq map List.find]; [done|].
    destruct (is_free d (f a)) eqn:E.
    - intros [= <-]. exists a. split_and!; [lia.. | done |]. intros k Hk. lia.
    - intros Hj. destruct (IH _ Hj) as (i & Hi & -> & Hk). exists i.
      split_and!; [lia.. | done |]. intros k Hk'.
      destruct (decide (k = a)) as [->|Hne]; [|apply Hk; lia].
      rewrite <- is_free_spec. congruence. }
  intros Hj. destruct (Hgen _ _ Hj) as (i & Hi & -> & Hk). exists i.
  split_and!; [lia | done |]. intros k Hki. apply Hk. lia.
Qed.

Lemma can_lock_set_waitings l d :
  flom_resource_set_can_lock (set_waitings l d) = flom_resource_set_can_lock d.
Proof. done. Qed.

Lemma map_alter_name f j (l : list element) :
  (forall e, e_name (f e) = e_name e) -> map e_name (alter f j l) = map e_name l.
Proof.
  intros Hf. revert j. induction l as [|e l IH]; intros [|j]; cbn; [done..| |].
  - by rewrite Hf.
  - f_equal. apply IH.
Qed.

Lemma set_inv_set_element names j c d : set_inv names d -> set_inv names (set_element j c d).
Proof.
  intros [Hn Hi]. split; cbn.
  - by rewrite map_alter_name.
  - rewrite length_alter. intros He. apply Hi. intros E. by rewrite E in He.
Qed.

Lemma set_inv_next names d : set_inv names d -> set_inv names (next_index d).
Proof.
  intros [Hn Hi]. split; cbn; [done|]. intros He. apply Nat.mod_upper_bound.
  by destruct (elements d).
Qed.

Lemma set_inv_take names j c d : set_inv names d -> set_inv names (take_element j c d).
Proof. intros. by apply set_inv_next, set_inv_set_element. Qed.

(** Taking an element cannot free another one *)
Lemma take_free j c d k : free_element (take_element j c d) k -> free_element d k.
Proof.
  intros (e & He & Hc). cbn in He. destruct (decide (j = k)) as [->|Hne].
  - rewrite list_lookup_alter_eq in He. destruct (elements d !! k); [|done].
    injection He as <-. done.
  - rewrite list_lookup_alter_ne in He by done. by exists e.
Qed.

Lemma wake_set_inv names w : forall d gs r d',
  set_inv names d -> set_wake d w = (gs, r, d') -> set_inv names d'.
Proof.
  unfold set_wake. induction w as [|y w IH]; intros d gs r d' Hi; cbn.
  - by intros [= <- <- <-].
  - destruct (flom_resource_set_can_lock d) as [j|].
    + destruct (wake _ _ (take_element j (cl_conn y) d) w) as [[gs1 r1] d1] eqn:Ew.
      intros [= <- <- <-]. eapply IH; [by apply set_inv_take | exact Ew].
    + destruct (wake _ _ d w) as [[gs1 r1] d1] eqn:Ew. intros [= <- <- <-]. eauto.
Qed.

Lemma wake_no_free w : forall d gs r d',
  (forall j, ~ free_element d j) -> set_wake d w = (gs, r, d') ->
  gs = [] /\ r = w /\ d' = d.
Proof.
  unfold set_wake. induction w as [|y w IH]; intros d gs r d' Hf; cbn.
  - by intros [= <- <- <-].
  - destruct (flom_resource_set_can_lock d) as [j|] eqn:E.
    + apply can_lock_some in E as [Hj _]. by apply Hf in Hj.
    + destruct (wake _ _ d w) as [[gs1 r1] d1] eqn:Ew. intros [= <- <- <-].
      destruct (IH _ _ _ _ Hf Ew) as (-> & -> & ->). done.
Qed.

Lemma set_wake_left names w : forall d gs r d', set_inv names d ->
  set_wake d w = (gs, r, d') -> r <> [] -> forall j, ~ free_element d' j.
Proof.
  unfold set_wake. induction w as [|y w IH]; intros d gs r d' Hi; cbn.
  - by intros [= <- <- <-].
  - destruct (flom_resource_set_can_lock d) as [j|] eqn:E.
    + destruct (wake _ _ (take_element j (cl_conn y) d) w) as [[gs1 r1] d1] eqn:Ew.
      intros [= <- <- <-]. eapply IH; [by apply set_inv_take | exact Ew].
    + destruct (wake _ _ d w) as [[gs1 r1] d1] eqn:Ew. intros [= <- <- <-] _.
      pose proof (can_lock_none _ _ Hi E) as Hf.
      by destruct (wake_no_free _ _ _ _ _ Hf Ew) as (_ & _ & ->).
Qed.

Lemma element_name_inv names d j : set_inv names d -> element_name d j = names !! j.
Proof. intros [<- _]. unfold element_name. by rewrite list_lookup_fmap. Qed.

(** ** The programs *)
Section proofs.
Context `{Glib}.

(** Element names that fit in a granting message *)
Definition short_names (names : list string) : Prop :=
  Forall (fun n => strlen (granted_text (Some n)) < FLOM_NETWORK_BUFFER_SIZE) names.

Lemma wp_set_waitings_inv names s :
  set_inv names (s_data s) ->
  wp flom_resource_set_waitings (fun _ s' => set_inv names (s_data s')) s.
Proof.
  intros Hs. unfold flom_resource_set_waitings.
  apply wp_scan_waitings with (J := fun pre w s =>
    waitings (s_data s) = pre ++ w /\ set_inv names (s_data s));
    [by intros ??? [??] | by intros ?? [??] | | done].
  clear s Hs. intros pre cl w s [Hq Hs]. unfold set_try. wp_step.
  destruct (flom_resource_set_can_lock _) as [j|] eqn:Hj; [|by rewrite <- app_assoc].
  unfold set_grant. do 3 wp_step.
  wp_frame_step; cbn in Hd; rewrite Hq, delete_middle in Hd; [by rewrite Hd|].
  do 2 wp_step. wp_frame_step; cbn in *; rewrite Hd0, Hd.
  all: try (split; [done|]); by apply set_inv_take.
Qed.

Lemma wp_set_clean_inv names uid conn s :
  set_inv names (s_data s) ->
  wp (flom_resource_set_clean uid conn) (fun _ s' => set_inv names (s_data s')) s.
Proof.
  intros Hs. unfold flom_resource_set_clean. do 3 wp_step.
  destruct (find_held _ _) as [j|] eqn:Hf.
  - do 2 wp_step. eapply wp_mono; [|by apply wp_set_waitings_inv, set_inv_set_element].
    intros [e|u] s' Hs'; [done|]. wp_frame_step; by rewrite Hd.
  - wp_step. wp_frame_step; by rewrite Hd.
Qed.

Definition new_cl (conn : conn_ref) : conn_lock unit := Conn_lock tt None 0 conn.

(** What an incoming message can do to the data *)
Lemma wp_set_inmsg_data uid conn s (Q : err + unit -> st rset -> Prop) :
  (forall r s', s_data s' = s_data s -> Q r s') ->
  (forall j r s', flom_resource_set_can_lock (s_data s) = Some j ->
     s_data s' = take_element j conn (s_data s) -> Q r s') ->
  (forall r s', flom_resource_set_can_lock (s_data s) = None ->
     s_data s' = set_waitings (waitings (s_data s) ++ [new_cl conn]) (s_data s) -> Q r s') ->
  wp (flom_resource_set_clean uid conn) (fun _ s1 =>
    forall r s', s_data s' = s_data s1 -> Q r s') s ->
  wp (flom_resource_set_inmsg uid conn) Q s.
Proof.
  intros Hsame Hgrant Hqueue Hclean.
  unfold flom_resource_set_inmsg. do 3 wp_step; [|wp_step; [|wp_step; by auto]].
  - unfold set_lock. do 5 wp_step. wp_step; [|by auto].
    wp_step. wp_frame_step; [by auto|].
    destruct (flom_resource_set_can_lock _) as [j|] eqn:Hc; [|wp_step].
    + do 2 wp_step. apply wp_frame; [solve_frame|]. intros r s1 Hs1 _.
      eapply Hgrant; eauto. rewrite Hs1. cbn. by rewrite Hd.
    + wp_step. apply wp_conn_lock_any; intros; [by auto|]. do 2 wp_step.
      apply wp_frame; [solve_frame|]. intros r s1 Hs1 _. eapply Hqueue; eauto.
      rewrite Hs1. cbn. by rewrite Hd.
    + apply wp_frame; [solve_frame|]. intros r s1 Hs1 _. apply Hsame. by rewrite Hs1, Hd.
  - unfold set_unlock. do 3 wp_step. wp_step; [|by auto].
    do 4 wp_step; [wp_step; by auto|]. wp_step. eapply wp_mono; [|exact Hclean].
    intros [e|u] s1 Hs1; [by auto|]. apply wp_frame; [solve_frame|]. auto.
Qed.

#[export] Instance set_resource_inv :
  ResourceInv rset (fun _ _ => True) (fun d => exists names, set_inv names d).
Proof.
  constructor; intros.
  - cbn. unfold flom_resource_set_init. do 3 wp_step. intros _.
    exists (flom_rsrc_get_elements name). split; cbn.
    + rewrite map_map. apply map_id.
    + rewrite length_map. destruct (flom_rsrc_get_elements name); cbn; [done|lia].
  - destruct H1 as [names Hi]. apply wp_set_inmsg_data.
    + intros r s' -> _. eauto.
    + intros j r s' _ -> _. exists names. by apply set_inv_take.
    + intros r s' _ -> _. by exists names.
    + eapply wp_mono; [|by apply (wp_set_clean_inv names)].
      intros r1 s1 Hs1 r2 s2 -> _. by exists names.
  - destruct H0 as [names Hi]. eapply wp_mono; [|by apply (wp_set_clean_inv names)].
    intros r s1 Hs1 _. by exists names.
  - by apply wp_ret.
Qed.

(** *** The scan, exactly, when the network works *)
Lemma set_grant_ok names j cl s d Q :
  short_names names -> set_inv names d -> flom_resource_set_can_lock d = Some j ->
  cl ∈ waitings d ->
  s_data s = set_waitings (waitings (s_data s)) d ->
  sends_ok (s_world s) -> live (s_world s) (cl_conn cl) ->
  (forall s', s_data s' = take_element j (cl_conn cl) (s_data s) -> s_name s' = s_name s ->
     s_msg s' = s_msg s ->
     told [(cl_conn cl, names !! j)] (s_world s) (s_world s') -> Q (inr tt) s') ->
  wp (set_grant j cl) Q s.
Proof.
  intros Hn Hi Hj Hin Hd Hs Hl HQ. unfold set_grant. do 3 wp_step.
  assert (Hi' : set_inv names (s_data s)) by (rewrite Hd; exact Hi).
  rewrite (element_name_inv names) by done. apply can_lock_some in Hj as [_ Hj].
  apply wp_notify_granted; [done..| |].
  - destruct (names !! j) as [n|] eqn:E.
    + by apply (Forall_lookup_1 _ _ _ _ Hn E).
    + apply lookup_ge_None in E. destruct Hi as [<- _]. rewrite length_map in E. lia.
  - intros w' Ht Hl'. do 2 wp_step. apply wp_vfs_move; [by apply live_known|]. intros t. by apply HQ.
Qed.

Lemma wp_set_waitings_wake names s (Q : err + unit -> st rset -> Prop) :
  short_names names -> set_inv names (s_data s) -> sends_ok (s_world s) ->
  Forall (fun cl => live (s_world s) (cl_conn cl)) (waitings (s_data s)) ->
  (forall gs r d' s',
     set_wake (s_data s) (waitings (s_data s)) = (gs, r, d') ->
     s_data s' = set_waitings r d' -> s_name s' = s_name s -> s_msg s' = s_msg s ->
     told (map (fun p => (cl_conn p.1, names !! p.2)) gs) (s_world s) (s_world s') ->
     Q (inr tt) s') ->
  wp flom_resource_set_waitings Q s.
Proof.
  intros Hn Hi Hs Hl HQ. unfold flom_resource_set_waitings.
  apply (wp_scan_wake waitings set_waitings (fun d _ => flom_resource_set_can_lock d)
           (fun j x d => take_element j (cl_conn x) d))
    with (proj := fun g => g) (el := fun j => names !! j) (inv := set_inv names); try done; try (by destruct d).
  - intros cl s' _ _. unfold set_try, gets. by destruct (flom_resource_set_can_lock (s_data s')).
  - intros. by eapply set_grant_ok.
  - intros. by apply set_inv_take.
  - intros. by eapply HQ.
Qed.
End proofs.

(** ** Theorems *)
Section theorems.
Context `{Glib}.

(** choosing an element.  With a valid index the search finds an element
    exactly when one is free, the element found is free, and every element
    between the index and it, in cyclic order, is held. *)
Theorem set_can_lock_first_free names d :
  set_inv names d ->
  (is_Some (flom_resource_set_can_lock d) <-> exists j, free_element d j) /\
  (forall j, flom_resource_set_can_lock d = Some j ->
     free_element d j /\
     exists i, (i < length (elements d))%nat /\
       j = ((i + index d) mod length (elements d))%nat /\
       forall k, (k < i)%nat ->
         ~ free_element d ((k + index d) mod length (elements d))).
Proof.
  intros Hi. split; [split|].
  - intros [j Hj]. exists j. by apply can_lock_some in Hj as [? _].
  - intros [j Hj]. destruct (flom_resource_set_can_lock d) eqn:E; [done|].
    by eapply can_lock_none in E.
  - intros j Hj. pose proof (can_lock_some _ _ Hj) as [Hf _]. split; [done|].
    by apply find_map_seq.
Qed.

(** a request for an element.  While one is free, the request gets the
    first free element from the index on, in cyclic order, the answer names it
    and the index moves on; otherwise the request is queued or refused as busy,
    as the client asked. *)
Theorem set_lock_answer names uid conn mid b s :
  set_inv names (s_data s) -> s_msg s = lock_request b -> can_answer (s_world s) conn mid ->
  wp (flom_resource_set_inmsg uid conn) (fun r s' =>
    r = inr tt /\ s_name s' = s_name s /\ same_net (s_world s) (s_world s') /\
    match flom_resource_set_can_lock (s_data s) with
    | Some j =>
        s_data s' = take_element j conn (s_data s) /\
        s_msg s' = lock_answer mid FLOM_RC_OK (names !! j)
    | None =>
        (forall j, ~ free_element (s_data s) j) /\
        if negb (l8_wait b =? 0) then
          s_data s' = set_waitings (waitings (s_data s) ++ [new_cl conn]) (s_data s) /\
          s_msg s' = lock_answer mid FLOM_RC_LOCK_ENQUEUED None
        else s_data s' = s_data s /\ s_msg s' = lock_answer mid FLOM_RC_LOCK_BUSY None
    end) s.
Proof.
  intros Hi Hm Hc. unfold flom_resource_set_inmsg. do 2 wp_step. rewrite Hm.
  cbn [msg_verb lock_request m_header h_verb Z.eqb FLOM_MSG_VERB_LOCK Pos.eqb].
  unfold set_lock. do 5 wp_step. rewrite Hm. wp_step; [|done]. injection H0 as <-.
  wp_step. eapply wp_free_lock_request; [exact Hm|].
  destruct (flom_resource_set_can_lock (s_data s)) as [j|] eqn:Ha.
  - do 3 wp_step. apply wp_vfs_add; [by eapply can_answer_known|]. intros t.
    eapply wp_build_lock_answer; [done..|]. by rewrite (element_name_inv names).
  - pose proof (can_lock_none _ _ Hi Ha) as Hn.
    destruct (negb (l8_wait b =? 0)); [|by eapply wp_build_lock_answer].
    wp_step. eapply wp_conn_lock_new_mallocs; [exact Hc|]. intros w Hw. do 3 wp_step.
    apply wp_vfs_add; [by eapply can_answer_known|]. intros t.
    by eapply wp_build_lock_answer.
Qed.

(** releasing an element.  When the connection holds one, the network
    works and the names fit in a message, the element becomes free, every
    request of the queue that finds a free element at its turn takes it and is
    told its name, in queue order, and then nobody waits while an element is
    free. *)
Theorem set_clean_grants names uid conn j s :
  short_names names -> set_inv names (s_data s) ->
  sends_ok (s_world s) -> known (s_world s) conn ->
  Forall (fun x => live (s_world s) (cl_conn x)) (waitings (s_data s)) ->
  find_held conn (elements (s_data s)) = Some j ->
  wp (flom_resource_set_clean uid conn) (fun r s' =>
    let d := set_element j None (s_data s) in
    let '(gs, rest, d') := set_wake d (waitings d) in
    r = inr tt /\ s_data s' = set_waitings rest d' /\ set_blocked (s_data s') /\
    s_msg s' = s_msg s /\
    told (map (fun p => (cl_conn p.1, names !! p.2)) gs) (s_world s) (s_world s')) s.
Proof.
  intros Hn Hi Hs Hc Hl Hf. unfold flom_resource_set_clean. do 3 wp_step. rewrite Hf.
  do 2 wp_step. pose proof (set_inv_set_element _ j None _ Hi) as Hi'.
  eapply wp_set_waitings_wake; [done..|].
  intros gs r d' s1 Hw Hd Hnm Hm Ht. apply wp_vfs_del; [by apply Ht|]. intros t.
  cbn [s_data put_data] in Hw. cbv zeta. rewrite Hw. split_and!; [done | done | | done | done].
  - unfold set_blocked. cbn. rewrite Hd. cbn. intros Hr j' Hj.
    by eapply (set_wake_left _ _ _ _ _ _ Hi' Hw Hr j').
Qed.
End theorems.

(** ** The theorems at concrete inputs *)
Definition demo_set : rset :=
  Rset 1 [Element "red" None; Element "green" (Some 1%positive)] [].

Lemma demo_set_inv : set_inv ["red"; "green"]%string demo_set.
Proof. split; [done|]. cbn. lia. Qed.

(** The search wraps around *)
Lemma set_can_lock_first_free_witness : free_element demo_set 0.
Proof.
  refine (proj1 (proj2 (set_can_lock_first_free _ demo_set demo_set_inv) 0%nat _)).
  reflexivity.
Defined.

Definition demo_set_request : flom_msg :=
  lock_request (Lock_8 None (Some "red.green"%string) 0 1 0 1 0).

Lemma set_lock_answer_witness :
  wp (@flom_resource_set_inmsg demo_glib 7 2%positive) (fun r s' =>
    r = inr tt /\ s_name s' = Some "foo"%string /\ same_net demo_world (s_world s') /\
    s_data s' = Rset 0 [Element "red" (Some 2%positive);
                        Element "green" (Some 1%positive)] [] /\
    s_msg s' = lock_answer demo_mid FLOM_RC_OK (Some "red"%string))
    (demo_st demo_set demo_set_request).
Proof.
  refine (@set_lock_answer demo_glib ["red"; "green"]%string 7 2%positive demo_mid
    (Lock_8 None (Some "red.green"%string) 0 1 0 1 0) (demo_st demo_set demo_set_request)
    demo_set_inv eq_refl _). by apply demo_can_answer.
Defined.

Definition demo_set_full : rset :=
  Rset 0 [Element "red" (Some 2%positive); Element "green" (Some 1%positive)]
    [demo_cl tt 3].

Lemma set_clean_grants_witness :
  wp (@flom_resource_set_clean demo_glib 7 1%positive) (fun r s' =>
    r = inr tt /\
    s_data s' = Rset 1 [Element "red" (Some 2%positive);
                        Element "green" (Some 3%positive)] [] /\
    set_blocked (s_data s') /\
    s_msg s' = flom_msg_init /\
    told [(3%positive, Some "green"%string)] demo_world (s_world s'))
    (demo_st demo_set_full flom_msg_init).
Proof.
  refine (@set_clean_grants demo_glib ["red"; "green"]%string 7 1%positive 1
    (demo_st demo_set_full flom_msg_init) _ _ _ _ _ eq_refl).
  - repeat constructor.
  - split; [done|]. cbn. lia.
  - constructor.
  - by apply demo_known.
  - repeat constructor. by apply demo_live.
Defined.
