(* ===== verification/Sequence.v ===== *)
(** * Sequence: sequence resources

    [src/src/flom_resource_sequence.c]: every lock comes with a number of its
    own; a transactional sequence gives the number of a lock that was not
    committed to a later client. *)
From Stdlib Require Import ZArith String List Lia.
From stdpp Require Import base list gmap numbers strings.
From S2P Require Import Prelude Types CStr RsrcName Msg MsgXml Vfs World ConnLock Resource.
Local Open Scope Z_scope.

(** ** Data: [struct flom_rsrc_data_sequence_s]

    [rolled_back] is NULL for a sequence that is not transactional; the value
    of a lock is in [cl_info]. *)
Record sequence : Type := Sequence {
  total_quantity : Z;
  locked_quantity : Z;
  next_value : Z;
  rolled_back : option (list Z);
  holders : list (conn_lock Z);
  waitings : list (conn_lock Z)
}.

Definition set_locked (q : Z) (d : sequence) : sequence :=
  Sequence (total_quantity d) q (next_value d) (rolled_back d) (holders d) (waitings d).
Definition set_next (n : Z) (d : sequence) : sequence :=
  Sequence (total_quantity d) (locked_quantity d) n (rolled_back d) (holders d) (waitings d).
Definition set_rolled_back (l : option (list Z)) (d : sequence) : sequence :=
  Sequence (total_quantity d) (locked_quantity d) (next_value d) l (holders d) (waitings d).
Definition set_holders (l : list (conn_lock Z)) (d : sequence) : sequence :=
  Sequence (total_quantity d) (locked_quantity d) (next_value d) (rolled_back d) l
    (waitings d).
Definition set_waitings (l : list (conn_lock Z)) (d : sequence) : sequence :=
  Sequence (total_quantity d) (locked_quantity d) (next_value d) (rolled_back d)
    (holders d) l.

Section sequence.
Context `{Glib}.

(** ** [flom_resource_sequence_can_lock] *)
Definition flom_resource_sequence_can_lock : Res sequence bool :=
  d ← gets s_data;
  available ← c_int (total_quantity d - locked_quantity d);
  mret (available >? 0).

(** ** [flom_resource_sequence_get] *)
Definition fresh_value (d : sequence) : Z * sequence :=
  let v := next_value d in
  let n := uint32 (v + 1) in
  if v =? 0 then (n, set_next (uint32 (n + 1)) d) else (v, set_next n d).

(** The head of the rolled back values, unless there is none; a popped 0 would
    read as an empty queue *)
Definition flom_resource_sequence_get (d : sequence) : Z * sequence :=
  match rolled_back d with
  | None | Some [] => fresh_value d
  | Some (v :: l) =>
      let d := set_rolled_back (Some l) d in
      if v =? 0 then fresh_value d else (v, d)
  end.

Definition sequence_get : Res sequence Z :=
  d ← gets s_data;
  let '(v, d) := flom_resource_sequence_get d in
  _ ← modify (put_data d);
  mret v.

(** ** [flom_resource_sequence_init] *)
Definition flom_resource_sequence_init (name : string) : Res sequence unit :=
  _ ← modify (put_name (Some name));
  match flom_rsrc_get_number name FLOM_RSRC_TYPE_SEQUENCE with
  | inl rc => throw (Rc rc)
  | inr n =>
      modify (put_data (Sequence n 0 1
        (if flom_rsrc_get_transactional name then Some [] else None) [] []))
  end.

(** [strcat(element, "\n")] *)
Definition strcat_newline (s : string) : string := s +:+ String newline EmptyString.

(** ** [flom_resource_sequence_waitings] *)
Definition push_holder (cl : conn_lock Z) : Res sequence unit :=
  modify (fun s => put_data (set_holders (cl :: holders (s_data s)) (s_data s)) s).

Definition add_locked (q : Z) : Res sequence unit :=
  d ← gets s_data;
  l ← c_int (locked_quantity d + q);
  modify (fun s => put_data (set_locked l (s_data s)) s).

Definition sequence_try (cl : conn_lock Z) : Res sequence (option unit) :=
  b ← flom_resource_sequence_can_lock;
  mret (if (b : bool) then Some tt else None).

(** The lock with its value and its rollback flag raised *)
Definition with_value (v : Z) (cl : conn_lock Z) : conn_lock Z :=
  Conn_lock v (cl_name cl) 1 (cl_conn cl).

Definition sequence_grant (locker_uid : Z) (_ : unit) (cl : conn_lock Z)
    : Res sequence unit :=
  v ← sequence_get;
  let element := print_dec v in
  _ ← on_world (notify_granted (cl_conn cl) (Some element));
  _ ← push_holder (with_value v cl);
  _ ← add_locked 1;
  _ ← vfs_add_locker_conn_file locker_uid (cl_conn cl)
        FLOM_VFS_LOCKERS_SEQUENCE_VALUE_FILE_NAME (strcat_newline element);
  vfs_move_locker_conn (cl_conn cl).

Definition flom_resource_sequence_waitings (locker_uid : Z) : Res sequence unit :=
  scan_waitings waitings set_waitings sequence_try (sequence_grant locker_uid).

(** ** [flom_resource_sequence_clean] *)
Definition roll_back (cl : conn_lock Z) (d : sequence) : sequence :=
  match rolled_back d with
  | Some l => if cl_rollback cl =? 0 then d
              else set_rolled_back (Some (l ++ [cl_info cl])) d
  | None => d
  end.

Definition flom_resource_sequence_clean (locker_uid : Z) (conn : conn_ref)
    : Res sequence unit :=
  d ← gets s_data;
  _ ← match flom_rsrc_conn_find (holders d) conn with
      | Some cl =>
          _ ← modify (put_data
                (set_holders (remove_conn conn (holders d)) (roll_back cl d)));
          _ ← add_locked (-1);
          flom_resource_sequence_waitings locker_uid
      | None => modify (put_data (set_waitings (remove_conn conn (waitings d)) d))
      end;
  vfs_del_conn conn.

(** ** [flom_resource_sequence_inmsg] *)
Definition sequence_lock (locker_uid : Z) (conn : conn_ref) : Res sequence unit :=
  can_lock ← flom_resource_sequence_can_lock;
  m ← gets s_msg;
  b ← of_option Ub (get_lock_8 (m_body m));
  let can_wait := negb (l8_wait b =? 0) in
  _ ← free_and_init_msg;
  if (can_lock : bool) then
    cl ← on_world (flom_rsrc_conn_lock_new 0 conn);
    v ← sequence_get;
    let element := print_dec v in
    _ ← push_holder (with_value v cl);
    _ ← add_locked 1;
    _ ← build_lock_answer conn FLOM_RC_OK (Some element);
    vfs_add_locker_conn locker_uid conn true FLOM_LOCK_MODE_INVALID None
      (Some (strcat_newline element)) None
  else if can_wait then
    cl ← on_world (flom_rsrc_conn_lock_new 0 conn);
    _ ← modify (fun s => put_data (set_waitings (waitings (s_data s) ++ [cl]) (s_data s)) s);
    _ ← build_lock_answer conn FLOM_RC_LOCK_ENQUEUED None;
    vfs_add_locker_conn locker_uid conn false FLOM_LOCK_MODE_INVALID None None None
  else build_lock_answer conn FLOM_RC_LOCK_BUSY None.

Definition set_conn_rollback (conn : conn_ref) (rb : Z) (d : sequence) : sequence :=
  set_holders (update_conn conn (set_rollback rb) (holders d)) d.

Definition sequence_unlock (locker_uid : Z) (conn : conn_ref) : Res sequence unit :=
  m ← gets s_msg;
  b ← of_option Ub (get_unlock_8 (m_body m));
  n ← gets s_name;
  _ ← when (negb (bool_decide (n = b.1))) (throw (Rc FLOM_RC_INVALID_OPTION));
  d ← gets s_data;
  _ ← of_option (Rc FLOM_RC_OBJ_CORRUPTED) (flom_rsrc_conn_find (holders d) conn);
  _ ← modify (put_data (set_conn_rollback conn b.2 d));
  _ ← flom_resource_sequence_clean locker_uid conn;
  free_and_init_msg.

Definition flom_resource_sequence_inmsg (locker_uid : Z) (conn : conn_ref)
    : Res sequence unit :=
  m ← gets s_msg;
  if msg_verb m =? FLOM_MSG_VERB_LOCK then sequence_lock locker_uid conn
  else if msg_verb m =? FLOM_MSG_VERB_UNLOCK then sequence_unlock locker_uid conn
  else throw (Rc FLOM_RC_PROTOCOL_ERROR).

(** ** [flom_resource_sequence_free] *)
Definition flom_resource_sequence_free : Res sequence unit :=
  _ ← modify (fun s => put_data (Sequence 0 0 (next_value (s_data s)) None [] []) s);
  modify (put_name None).

#[export] Instance sequence_resource : Resource sequence := {
  res_init := flom_resource_sequence_init;
  res_inmsg := flom_resource_sequence_inmsg;
  res_clean := flom_resource_sequence_clean;
  res_free := flom_resource_sequence_free;
  res_timeout := flom_resource_timeout;
  res_compare_name := flom_resource_compare_name
}.
End sequence.

(** ** Specification *)
Definition values (d : sequence) : list Z :=
  map cl_info (holders d) ++ default [] (rolled_back d).

Definition uint32_value (v : Z) : Prop := 0 < v < 4294967296.

(** The locked quantity counts the holders, at most the total; the values held
    or rolled back are [guint]s other than 0. *)
Definition sequence_inv (d : sequence) : Prop :=
  in_int32 (total_quantity d) /\
  locked_quantity d = Z.of_nat (length (holders d)) /\
  locked_quantity d <= Z.max 0 (total_quantity d) /\
  0 <= next_value d < 4294967296 /\
  Forall uint32_value (values d).

Definition available (d : sequence) : Z := total_quantity d - locked_quantity d.

(** Every value below the next one has been issued exactly once: it is held,
    rolled back, or retired.  [R0] are values retired before. *)
Definition accounts (R0 : list Z) (d : sequence) : Prop :=
  1 <= next_value d /\
  exists R, R0 ⊆+ R /\ R ++ values d ≡ₚ seqZ 1 (next_value d - 1).

(** ... as long as the 32-bit counter has not wrapped: [n] more values fit *)
Definition accounted (R0 : list Z) (n : nat) (d : sequence) : Prop :=
  accounts R0 d /\ next_value d + Z.of_nat n < 4294967296.

(** The value of a lock joins the holders *)
Definition hold (v : Z) (cl : conn_lock Z) (d : sequence) : sequence :=
  set_holders (with_value v cl :: holders d) d.

Definition sequence_take (cl : conn_lock Z) (d : sequence) : sequence :=
  let '(v, d) := flom_resource_sequence_get d in
  set_locked (locked_quantity d + 1) (hold v cl d).

Definition sequence_release (conn : conn_ref) (cl : conn_lock Z) (d : sequence) : sequence :=
  set_locked (locked_quantity d - 1)
    (set_holders (remove_conn conn (holders d)) (roll_back cl d)).

(** Is there room, and with which value? *)
Definition sequence_ptry (d : sequence) (x : conn_lock Z) : option Z :=
  if available d >? 0 then Some (flom_resource_sequence_get d).1 else None.
Definition sequence_wake : sequence -> list (conn_lock Z) ->
    list (conn_lock Z * Z) * list (conn_lock Z) * sequence :=
  wake sequence_ptry (fun _ x d => sequence_take x d).

(** ** Lemmas on the data *)
Lemma get_frame d v d1 :
  flom_resource_sequence_get d = (v, d1) ->
  total_quantity d1 = total_quantity d /\ locked_quantity d1 = locked_quantity d /\
  holders d1 = holders d /\ waitings d1 = waitings d.
Proof.
  unfold flom_resource_sequence_get, fresh_value.
  destruct (rolled_back d) as [[|x l]|]; cbn; repeat case_match; by intros [= <- <-].
Qed.

Lemma get_inv d v d1 :
  sequence_inv d -> flom_resource_sequence_get d = (v, d1) ->
  uint32_value v /\ sequence_inv d1.
Proof.
  intros (Ht & Hl & Hm & Hn & Hv) Hg.
  assert (Hf : forall d2, total_quantity d2 = total_quantity d ->
    locked_quantity d2 = locked_quantity d -> holders d2 = holders d ->
    next_value d2 = next_value d -> Forall uint32_value (values d2) ->
    fresh_value d2 = (v, d1) -> uint32_value v /\ sequence_inv d1).
  { intros d2 E1 E2 E3 E4 Hv2. unfold fresh_value. rewrite E4.
    unfold values in Hv2. rewrite E3 in Hv2.
    assert (Hu : forall n, 0 <= uint32 n < 4294967296).
    { intros n. apply Z.mod_pos_bound. lia. }
    destruct (Z.eqb_spec (next_value d) 0) as [E|Hne]; intros [= <- <-];
      (split; [unfold uint32_value; first [lia | by rewrite E]|]);
      unfold sequence_inv; cbn; rewrite E1, E2, E3; split_and!; try done; apply Hu. }
  revert Hg. unfold flom_resource_sequence_get.
  destruct (rolled_back d) as [[|x l]|] eqn:E; [by apply Hf | | by apply Hf].
  unfold values in Hv. rewrite E in Hv. cbn in Hv.
  apply Forall_app in Hv as [Hh Hv]. apply Forall_cons in Hv as [Hx Hv].
  destruct (Z.eqb_spec x 0) as [->|Hne].
  - apply Hf; try done. apply Forall_app. done.
  - intros [= <- <-]. split; [done|]. split_and!; cbn; try done; try lia.
    by apply Forall_app.
Qed.

Lemma hold_inv d v cl :
  sequence_inv d -> uint32_value v -> available d > 0 ->
  sequence_inv (set_locked (locked_quantity d + 1) (hold v cl d)).
Proof.
  intros (Ht & Hl & Hm & Hn & Hv) Hu Ha. unfold available in Ha.
  split_and!; cbn; try done; try lia. by constructor.
Qed.

Lemma values_release conn cl d :
  flom_rsrc_conn_find (holders d) conn = Some cl ->
  exists l, values d ≡ₚ cl_info cl :: l /\
    values (set_holders (remove_conn conn (holders d)) d) = l /\
    (forall q, rolled_back d = Some q -> l = map cl_info (remove_conn conn (holders d)) ++ q).
Proof.
  intros Hf. destruct (conn_find_split _ _ _ Hf) as (l1 & l2 & Heq & Hr & _ & _).
  exists (map cl_info (l1 ++ l2) ++ default [] (rolled_back d)). split_and!.
  - unfold values. rewrite Heq, !map_app, <- !app_assoc. cbn.
    by rewrite <- Permutation_middle.
  - unfold values. cbn. by rewrite Hr.
  - intros q ->. by rewrite Hr.
Qed.

Lemma release_values conn cl d :
  flom_rsrc_conn_find (holders d) conn = Some cl ->
  let d' := set_holders (remove_conn conn (holders d)) (roll_back cl d) in
  next_value d' = next_value d /\
  (values d ≡ₚ values d' \/ values d ≡ₚ cl_info cl :: values d').
Proof.
  intros Hf. destruct (values_release _ _ _ Hf) as (l & Hv & Hl & Hq). cbv zeta.
  unfold roll_back. destruct (rolled_back d) as [q|] eqn:E; [|].
  - destruct (cl_rollback cl =? 0); (split; [done|]).
    + right. by rewrite Hl.
    + left. rewrite Hv. unfold values. cbn. rewrite (Hq q) by done.
      rewrite app_assoc. apply Permutation_cons_append.
  - split; [done|]. right. by rewrite Hl.
Qed.

Lemma release_inv conn cl d :
  sequence_inv d -> flom_rsrc_conn_find (holders d) conn = Some cl ->
  sequence_inv (sequence_release conn cl d).
Proof.
  intros (Ht & Hl & Hm & Hn & Hv) Hf.
  destruct (release_values _ _ _ Hf) as [Hnx Hp]. cbv zeta in *.
  assert (Hr : total_quantity (roll_back cl d) = total_quantity d).
  { unfold roll_back. by repeat case_match. }
  destruct (conn_find_split _ _ _ Hf) as (l1 & l2 & Heq & Hrm & _ & _).
  unfold sequence_release, sequence_inv. cbn. cbn in Hnx. rewrite Hr, Hnx.
  split_and!; try done; try lia.
  - rewrite Hl, Hrm, Heq, !length_app. cbn. lia.
  - change (Forall uint32_value (values (set_holders (remove_conn conn (holders d))
      (roll_back cl d)))).
    destruct Hp as [Hp|Hp]; rewrite Hp in Hv; [done | by inversion Hv].
Qed.

(** A value is issued: the counter moves on by one at most, and the books stay
    right whether the lock is then held or lost *)
Lemma accounted_get R0 n d v d1 :
  sequence_inv d -> accounted R0 (S n) d -> flom_resource_sequence_get d = (v, d1) ->
  (exists R, R0 ⊆+ R /\ R ++ v :: values d1 ≡ₚ seqZ 1 (next_value d1 - 1)) /\
  1 <= next_value d1 /\ next_value d1 + Z.of_nat n < 4294967296.
Proof.
  intros (_ & _ & _ & _ & Hv) ((Hn & R & HR & Hp) & Hb).
  assert (Hfresh : R ++ next_value d :: values d ≡ₚ seqZ 1 (next_value d + 1 - 1)).
  { replace (next_value d + 1 - 1) with ((next_value d - 1) + 1) by lia.
    rewrite seqZ_app by lia. rewrite <- Hp.
    replace (1 + (next_value d - 1)) with (next_value d) by lia.
    change (seqZ (next_value d) 1) with [0 + next_value d].
    rewrite Z.add_0_l, <- app_assoc. apply Permutation_app_head, Permutation_cons_append. }
  assert (Hw : uint32 (next_value d + 1) = next_value d + 1).
  { unfold uint32. apply Z.mod_small. lia. }
  unfold flom_resource_sequence_get, fresh_value. rewrite Hw.
  rewrite (proj2 (Z.eqb_neq (next_value d) 0)) by lia.
  destruct (rolled_back d) as [[|x l]|] eqn:E.
  - intros [= <- <-]. cbn. split; [|lia]. exists R. split; [done|].
    unfold values in *. cbn. by rewrite E in *.
  - unfold values in Hv, Hp. rewrite E in Hv, Hp. cbn in Hv, Hp.
    apply Forall_app in Hv as [_ Hv]. apply Forall_cons in Hv as [Hx _].
    unfold uint32_value in Hx. rewrite (proj2 (Z.eqb_neq x 0)) by lia.
    intros [= <- <-]. cbn. split; [|lia]. exists R. split; [done|].
    rewrite <- Hp. unfold values. cbn. apply Permutation_app_head.
    apply Permutation_middle.
  - intros [= <- <-]. cbn. split; [|lia]. exists R. split; [done|].
    unfold values in *. cbn. by rewrite E in *.
Qed.

Lemma accounted_same R0 n d d' :
  next_value d' = next_value d -> values d' = values d ->
  accounted R0 n d -> accounted R0 n d'.
Proof. intros Hn Hv. unfold accounted, accounts. by rewrite Hn, Hv. Qed.

Lemma accounted_less R0 n m d : (m <= n)%nat -> accounted R0 n d -> accounted R0 m d.
Proof. intros Hm [Ha Hb]. split; [done | lia]. Qed.

Lemma accounted_lost R0 n d v d1 :
  sequence_inv d -> accounted R0 (S n) d -> flom_resource_sequence_get d = (v, d1) ->
  accounted R0 n d1.
Proof.
  intros Hi Ha Hg. destruct (accounted_get _ _ _ _ _ Hi Ha Hg) as ((R & HR & Hp) & H1 & H2).
  split; [split; [done|] | done]. exists (R ++ [v]). split.
  - by apply submseteq_inserts_r.
  - by rewrite <- app_assoc.
Qed.

Lemma accounted_hold R0 n d v d1 cl q :
  sequence_inv d -> accounted R0 (S n) d -> flom_resource_sequence_get d = (v, d1) ->
  accounted R0 n (set_locked q (hold v cl d1)).
Proof.
  intros Hi Ha Hg. destruct (accounted_get _ _ _ _ _ Hi Ha Hg) as ((R & HR & Hp) & H1 & H2).
  split; [split; [done|] | done]. by exists R.
Qed.

Lemma accounted_release R0 n conn cl d q :
  flom_rsrc_conn_find (holders d) conn = Some cl -> accounted R0 n d ->
  accounted R0 n (set_locked q (set_holders (remove_conn conn (holders d)) (roll_back cl d))).
Proof.
  intros Hf ((H1 & R & HR & Hp) & H2).
  destruct (release_values _ _ _ Hf) as [Hn Hv]. cbv zeta in *.
  unfold accounted, accounts. cbn in Hn |- *. rewrite Hn.
  split; [split; [done|] | done].
  destruct Hv as [Hv|Hv]; rewrite Hv in Hp; [by exists R|].
  exists (R ++ [cl_info cl]). split; [by apply submseteq_inserts_r | by rewrite <- app_assoc].
Qed.

(** *** The scan *)
Lemma take_eq cl d v d1 :
  flom_resource_sequence_get d = (v, d1) ->
  sequence_take cl d = set_locked (locked_quantity d1 + 1) (hold v cl d1).
Proof. intros E. unfold sequence_take. by rewrite E. Qed.

Lemma get_set_waitings l d :
  flom_resource_sequence_get (set_waitings l d) =
    ((flom_resource_sequence_get d).1, set_waitings l (flom_resource_sequence_get d).2).
Proof.
  unfold flom_resource_sequence_get, fresh_value. cbn.
  destruct (rolled_back d) as [[|x q]|]; by repeat case_match.
Qed.

Lemma take_set_waitings cl l d :
  sequence_take cl (set_waitings l d) = set_waitings l (sequence_take cl d).
Proof.
  unfold sequence_take. rewrite get_set_waitings.
  by destruct (flom_resource_sequence_get d).
Qed.

Lemma take_waitings cl d : waitings (sequence_take cl d) = waitings d.
Proof.
  destruct (flom_resource_sequence_get d) as [v d1] eqn:E. rewrite (take_eq _ _ _ _ E).
  by destruct (get_frame _ _ _ E) as (_ & _ & _ & ?).
Qed.

Lemma take_available cl d : available (sequence_take cl d) = available d - 1.
Proof.
  destruct (flom_resource_sequence_get d) as [v d1] eqn:E. rewrite (take_eq _ _ _ _ E).
  destruct (get_frame _ _ _ E) as (E1 & E2 & _). unfold available. cbn. lia.
Qed.

(** A request is left in the queue only when nothing is available *)
Lemma sequence_wake_blocked w : forall d gs r d', sequence_wake d w = (gs, r, d') ->
  available d' <= available d /\ (r <> [] -> available d' <= 0).
Proof.
  unfold sequence_wake. induction w as [|y w IH]; intros d gs r d'; cbn.
  - by intros [= <- <- <-].
  - unfold sequence_ptry at 1. destruct (available d >? 0) eqn:E;
      rewrite Z.gtb_ltb in E; [apply Z.ltb_lt in E | apply Z.ltb_ge in E];
      destruct (wake _ _ _ w) as [[gs1 r1] d1] eqn:Ew; intros [= <- <- <-];
      destruct (IH _ _ _ _ Ew) as [Ha Hr].
    + rewrite take_available in Ha. split; [lia | exact Hr].
    + split; [exact Ha | lia].
Qed.

(** ** The programs *)
Section proofs.
Context `{Glib}.

Lemma wp_sequence_can_lock s (Q : err + bool -> st sequence -> Prop) :
  sequence_inv (s_data s) -> Q (inr (available (s_data s) >? 0)) s ->
  wp flom_resource_sequence_can_lock Q s.
Proof.
  intros (Ht & Hl & Hm & _) HQ. unfold flom_resource_sequence_can_lock. do 2 wp_step.
  wp_step. apply wp_c_int; [|exact HQ]. unfold in_int32 in *. lia.
Qed.

Lemma wp_sequence_get s v d1 (Q : err + Z -> st sequence -> Prop) :
  flom_resource_sequence_get (s_data s) = (v, d1) -> Q (inr v) (put_data d1 s) ->
  wp sequence_get Q s.
Proof. intros Hg HQ. unfold sequence_get. do 2 wp_step. rewrite Hg. exact HQ. Qed.

Lemma wp_sequence_add_locked q s (Q : err + unit -> st sequence -> Prop) :
  in_int32 (locked_quantity (s_data s) + q) ->
  Q (inr tt) (put_data (set_locked (locked_quantity (s_data s) + q) (s_data s)) s) ->
  wp (add_locked q) Q s.
Proof. intros Hq HQ. unfold add_locked. do 3 wp_step. by apply wp_c_int. Qed.

(** Holding one more value keeps the count in range *)
Lemma take_int d v d1 :
  sequence_inv d -> available d > 0 -> flom_resource_sequence_get d = (v, d1) ->
  sequence_inv d1 /\ available d1 > 0 /\ uint32_value v /\
  in_int32 (locked_quantity d1 + 1).
Proof.
  intros Hi Ha Hg. destruct (get_inv _ _ _ Hi Hg) as [Hv Hi1].
  destruct (get_frame _ _ _ Hg) as (E1 & E2 & _). unfold available in *.
  rewrite E1, E2. destruct Hi as (Ht & Hl & Hm & _).
  split_and!; try done; unfold in_int32 in *; lia.
Qed.

Lemma take_inv d v d1 cl :
  sequence_inv d -> available d > 0 -> flom_resource_sequence_get d = (v, d1) ->
  sequence_inv (set_locked (locked_quantity d1 + 1) (hold v cl d1)).
Proof.
  intros Hi Ha Hg. destruct (take_int _ _ _ Hi Ha Hg) as (? & ? & ? & _).
  by apply hold_inv.
Qed.

(** *** What every call keeps

    [K n d] holds of data from which [n] more values can be issued. *)
Section kept.
Variable K : nat -> sequence -> Prop.
Hypothesis K_waitings : forall n l d, K n d -> K n (set_waitings l d).
Hypothesis K_less : forall n m d, (m <= n)%nat -> K n d -> K m d.
Hypothesis K_lost : forall n d v d1, sequence_inv d -> K (S n) d ->
  flom_resource_sequence_get d = (v, d1) -> K n d1.
Hypothesis K_hold : forall n d v d1 cl q, sequence_inv d -> K (S n) d ->
  flom_resource_sequence_get d = (v, d1) -> K n (set_locked q (hold v cl d1)).
Hypothesis K_release : forall n conn cl d q,
  flom_rsrc_conn_find (holders d) conn = Some cl -> K n d ->
  K n (set_locked q (set_holders (remove_conn conn (holders d)) (roll_back cl d))).
Hypothesis K_rollback : forall n conn rb d, K n d -> K n (set_conn_rollback conn rb d).

Definition kept (n : nat) (s : st sequence) : Prop :=
  sequence_inv (s_data s) /\ K n (s_data s).

Lemma wp_sequence_grant_kept uid n cl s (Q : err + unit -> st sequence -> Prop) :
  kept (S n) s -> available (s_data s) > 0 ->
  (forall r s', kept n s' ->
     (r = inr tt -> waitings (s_data s') = waitings (s_data s)) -> Q r s') ->
  wp (sequence_grant uid tt cl) Q s.
Proof using K_lost K_hold.
  intros [Hi HK] Ha HQ. unfold sequence_grant, push_holder.
  destruct (flom_resource_sequence_get (s_data s)) as [v d1] eqn:Hg.
  destruct (take_int _ _ _ Hi Ha Hg) as (Hi1 & _ & _ & Hr).
  destruct (get_frame _ _ _ Hg) as (_ & _ & _ & Hw).
  wp_step. apply (wp_sequence_get _ _ _ _ Hg). wp_step.
  wp_frame_step; cbn in Hd.
  { apply HQ; [|done]. unfold kept. rewrite Hd. split; [done|].
    exact (K_lost _ _ _ _ Hi HK Hg). }
  do 3 wp_step. apply wp_sequence_add_locked; cbn; [by rewrite Hd|].
  assert (Hk : forall s', s_data s' = set_locked (locked_quantity d1 + 1) (hold v cl d1) ->
    kept n s' /\ waitings (s_data s') = waitings (s_data s)).
  { intros s' E. unfold kept. rewrite E. split_and!.
    - exact (take_inv _ _ _ _ Hi Ha Hg).
    - exact (K_hold _ _ _ _ _ _ Hi HK Hg).
    - exact Hw. }
  wp_step. wp_frame_step; [|wp_frame_step].
  all: apply HQ; [|intros _]; apply Hk; by follow_data.
Qed.

Lemma wp_sequence_waitings_kept uid s :
  kept (length (waitings (s_data s))) s ->
  wp (flom_resource_sequence_waitings uid) (fun _ s' => kept 0 s') s.
Proof using K_waitings K_less K_lost K_hold.
  intros Hs. unfold flom_resource_sequence_waitings.
  apply wp_scan_waitings with (J := fun pre w s =>
    waitings (s_data s) = pre ++ w /\ kept (length w) s);
    [by intros ??? [??] | by intros ?? [??] | | done].
  clear s Hs. intros pre cl w s (Hq & Hi & HK). unfold sequence_try. wp_step.
  apply wp_sequence_can_lock; [done|]. wp_step.
  destruct (available (s_data s) >? 0) eqn:Ha.
  - apply (wp_sequence_grant_kept uid (length w)).
    + split; cbn; [done | by apply K_waitings].
    + rewrite Z.gtb_ltb in Ha. apply Z.ltb_lt in Ha. cbn. unfold available in *. cbn. lia.
    + intros [e|[]] s' Hk Hw.
      * destruct Hk as [??]. split; [done|]. eapply K_less; [|done]. lia.
      * split; [|done]. rewrite Hw by done. cbn. by rewrite Hq, delete_middle.
  - split; [by rewrite <- app_assoc|]. split; [done|]. eapply K_less; [|done]. cbn. lia.
Qed.

Lemma wp_sequence_clean_kept uid conn s :
  kept (length (waitings (s_data s))) s ->
  wp (flom_resource_sequence_clean uid conn) (fun _ s' => kept 0 s') s.
Proof using K_waitings K_less K_lost K_hold K_release.
  intros [Hi HK]. unfold flom_resource_sequence_clean. do 3 wp_step.
  destruct (flom_rsrc_conn_find _ _) as [cl|] eqn:Hf.
  - pose proof (release_inv _ _ _ Hi Hf) as Hr.
    assert (Hl : locked_quantity (roll_back cl (s_data s)) = locked_quantity (s_data s)).
    { unfold roll_back. by repeat case_match. }
    assert (Hw : waitings (roll_back cl (s_data s)) = waitings (s_data s)).
    { unfold roll_back. by repeat case_match. }
    do 3 wp_step. apply wp_sequence_add_locked; cbn; rewrite Hl.
    { destruct Hr as (Ht & Hln & Hm & _). cbn in Ht, Hln, Hm. unfold in_int32 in *. lia. }
    eapply wp_mono; [|apply wp_sequence_waitings_kept].
    + intros [e|u] s' Hs'; [done|]. wp_frame_step; unfold kept in *; by rewrite Hd.
    + unfold kept. cbn. split; [exact Hr|]. rewrite Hw. by apply K_release.
  - wp_step. wp_frame_step; unfold kept in *; rewrite Hd; cbn.
    all: split; [done|]; apply K_waitings; eapply K_less; [|done]; lia.
Qed.

Lemma inv_rollback conn rb d : sequence_inv d -> sequence_inv (set_conn_rollback conn rb d).
Proof.
  unfold sequence_inv, values. cbn. generalize (holders d) as l. intros l.
  assert (Hm : map cl_info (update_conn conn (set_rollback rb) l) = map cl_info l).
  { induction l as [|x l IH]; [done|]. cbn. destruct (has_conn conn x); cbn; congruence. }
  rewrite <- (length_map cl_info (update_conn _ _ _)), Hm, length_map. done.
Qed.

Lemma wp_sequence_inmsg_kept uid conn s :
  kept (S (length (waitings (s_data s)))) s ->
  wp (flom_resource_sequence_inmsg uid conn) (fun _ s' => kept 0 s') s.
Proof using K_waitings K_less K_lost K_hold K_release K_rollback.
  intros [Hi HK]. assert (H0 : kept 0 s) by (split; [done | eapply K_less; [|done]; lia]).
  unfold flom_resource_sequence_inmsg. do 3 wp_step; [|wp_step; [|by wp_step]].
  - unfold sequence_lock, push_holder. wp_step. apply wp_sequence_can_lock; [done|].
    do 4 wp_step; [|done]. wp_step. assert (Hk0 : forall s', s_data s' = s_data s -> kept 0 s').
    { intros s' E. unfold kept. by rewrite E. }
    wp_frame_step; [by apply Hk0|]. destruct (available (s_data s) >? 0) eqn:Ha.
    + wp_step. apply wp_conn_lock_any; intros; [by apply Hk0|].
      destruct (flom_resource_sequence_get (s_data s)) as [v d1] eqn:Hg.
      rewrite Z.gtb_ltb in Ha. apply Z.ltb_lt in Ha.
      destruct (take_int _ _ _ Hi (Z.lt_gt _ _ Ha) Hg) as (Hi1 & _ & _ & Hr).
      wp_step. apply (wp_sequence_get _ v d1); [by cbn; rewrite Hd|]. do 3 wp_step.
      apply wp_sequence_add_locked; cbn; [done|].
      assert (Hk : forall s', s_data s' = set_locked (locked_quantity d1 + 1)
                     (hold v (Conn_lock 0 None 0 conn) d1) -> kept 0 s').
      { intros s' E. unfold kept. rewrite E. split.
        - exact (take_inv _ _ _ _ Hi (Z.lt_gt _ _ Ha) Hg).
        - refine (K_hold _ _ _ _ _ _ Hi _ Hg). eapply K_less; [|exact HK]. lia. }
      wp_step. wp_frame_step; [|wp_frame_step]; apply Hk; by follow_data.
    + wp_step; [|wp_frame_step; apply Hk0; by follow_data].
      wp_step. apply wp_conn_lock_any; intros; [by apply Hk0|]. do 3 wp_step.
      wp_frame_step; [|wp_frame_step]; unfold kept; follow_data.
      all: split; [done|]; apply K_waitings; eapply K_less; [|done]; lia.
  - unfold sequence_unlock. do 3 wp_step. wp_step; [|done].
    do 3 wp_step. wp_step; [wp_step; done|]. do 3 wp_step. wp_step; [|done].
    do 3 wp_step. eapply wp_mono; [|apply wp_sequence_clean_kept].
    + intros [e|u] s1 Hs1; [done|]. wp_frame_step; unfold kept in *; by rewrite Hd.
    + unfold kept. cbn. split; [by apply inv_rollback|]. apply K_rollback.
      eapply K_less; [|done]. lia.
Qed.
End kept.

#[export] Instance sequence_resource_inv :
  ResourceInv sequence (fun _ _ => True) sequence_inv.
Proof.
  constructor; intros.
  - cbn. unfold flom_resource_sequence_init, flom_rsrc_get_number. do 2 wp_step.
    destruct (flom_rsrc_get_group _ _ _) as [rc|g]; [by wp_step|]. wp_step. intros _.
    split_and!; cbn; try done; try lia; [apply int32_range..|].
    unfold values. cbn. by destruct (flom_rsrc_get_transactional name).
  - eapply wp_mono; [|apply (wp_sequence_inmsg_kept (fun _ _ => True)); done].
    by intros r s' [? _] _.
  - eapply wp_mono; [|apply (wp_sequence_clean_kept (fun _ _ => True)); done].
    by intros r s' [? _] _.
  - by apply wp_ret.
Qed.

Lemma accounted_waitings R0 n l d : accounted R0 n d -> accounted R0 n (set_waitings l d).
Proof. by apply accounted_same. Qed.

Lemma accounted_rollback R0 n conn rb d :
  accounted R0 n d -> accounted R0 n (set_conn_rollback conn rb d).
Proof.
  apply accounted_same; [done|]. unfold values. cbn. f_equal.
  induction (holders d) as [|x l IH]; [done|]. cbn.
  destruct (has_conn conn x); cbn; congruence.
Qed.

(** One call, while the counter is far enough from its end *)
Definition room (d : sequence) : Prop :=
  next_value d + Z.of_nat (S (length (waitings d))) < 4294967296.

Definition unwrapped_step (x y : option string * sequence) : Prop :=
  resource_step (fun _ _ => True) x y /\ room x.2.

Lemma unwrapped_step_accounts R0 x y :
  unwrapped_step x y -> sequence_inv x.2 /\ accounts R0 x.2 ->
  sequence_inv y.2 /\ accounts R0 y.2.
Proof.
  intros [Hs Hroom] [Hi Ha].
  assert (Hk : forall n, (n <= S (length (waitings x.2)))%nat -> accounted R0 n x.2).
  { intros n Hn. split; [done|]. unfold room in Hroom. lia. }
  pose (pre := fun d => d = x.2).
  eapply (resource_step_wp _ pre (fun d => sequence_inv d /\ accounts R0 d)); try done;
    unfold pre; intros.
  - eapply wp_mono; [|apply (wp_sequence_inmsg_kept (accounted R0));
      eauto using accounted_waitings, accounted_less, accounted_lost, accounted_hold,
        accounted_release, accounted_rollback].
    + intros r s' [? [? _]] _. done.
    + unfold kept. rewrite H1. auto.
  - eapply wp_mono; [|apply (wp_sequence_clean_kept (accounted R0));
      eauto using accounted_waitings, accounted_less, accounted_lost, accounted_hold,
        accounted_release, accounted_rollback].
    + intros r s' [? [? _]] _. done.
    + unfold kept. rewrite H0. auto.
  - apply wp_ret. intros _. by rewrite H0.
Qed.

Lemma unwrapped_history_accounts R0 x y :
  rtc unwrapped_step x y -> sequence_inv x.2 -> accounts R0 x.2 ->
  sequence_inv y.2 /\ accounts R0 y.2.
Proof.
  induction 1 as [x | x y z Hs _ IH]; intros Hi Ha; [done|].
  destruct (unwrapped_step_accounts R0 _ _ Hs) as [??]; auto.
Qed.

(** *** The scan, exactly, when the network works *)
Lemma value_text_short v :
  uint32_value v -> strlen (granted_text (Some (print_dec v))) < FLOM_NETWORK_BUFFER_SIZE.
Proof.
  intros Hv. apply granted_text_short. unfold uint32_value in Hv.
  pose proof (print_dec_length v). lia.
Qed.

Lemma sequence_grant_ok uid v cl s d Q :
  sequence_inv d -> sequence_ptry d cl = Some v -> cl ∈ waitings d ->
  s_data s = set_waitings (waitings (s_data s)) d ->
  sends_ok (s_world s) -> live (s_world s) (cl_conn cl) ->
  (forall s', s_data s' = sequence_take cl (s_data s) -> s_name s' = s_name s ->
     s_msg s' = s_msg s ->
     told [(cl_conn cl, Some (print_dec v))] (s_world s) (s_world s') -> Q (inr tt) s') ->
  wp (sequence_grant uid tt cl) Q s.
Proof.
  intros Hi Hp Hin Hd Hs Hl HQ. unfold sequence_grant, push_holder.
  unfold sequence_ptry in Hp. destruct (available d >? 0) eqn:Ha; [|done].
  rewrite Z.gtb_ltb in Ha. apply Z.ltb_lt, Z.lt_gt in Ha. injection Hp as Hp.
  assert (Hi' : sequence_inv (s_data s)) by (rewrite Hd; exact Hi).
  assert (Ha' : available (s_data s) > 0) by (rewrite Hd; exact Ha).
  destruct (flom_resource_sequence_get (s_data s)) as [v' d1] eqn:Hg.
  assert (v' = v) as ->.
  { rewrite Hd, get_set_waitings in Hg. injection Hg as <- _. done. }
  destruct (take_int _ _ _ Hi' Ha' Hg) as (_ & _ & Hv & Hr).
  wp_step. apply (wp_sequence_get _ _ _ _ Hg). wp_step.
  apply wp_notify_granted; [done..|by apply value_text_short|]. intros w' Ht Hl'.
  do 3 wp_step. apply wp_sequence_add_locked; cbn; [done|].
  wp_step. apply wp_vfs_add_file; [by apply live_known|]. intros t. apply wp_vfs_move; [by apply live_known|]. intros t'.
  apply HQ; [|done..|exact Ht]. cbn. by rewrite (take_eq _ _ _ _ Hg).
Qed.

Lemma wp_sequence_waitings_wake uid s (Q : err + unit -> st sequence -> Prop) :
  sequence_inv (s_data s) -> sends_ok (s_world s) ->
  Forall (fun cl => live (s_world s) (cl_conn cl)) (waitings (s_data s)) ->
  (forall gs r d' s',
     sequence_wake (s_data s) (waitings (s_data s)) = (gs, r, d') ->
     s_data s' = set_waitings r d' -> s_name s' = s_name s -> s_msg s' = s_msg s ->
     told (map (fun p => (cl_conn p.1, Some (print_dec p.2))) gs) (s_world s) (s_world s') ->
     Q (inr tt) s') ->
  wp (flom_resource_sequence_waitings uid) Q s.
Proof.
  intros Hi Hs Hl HQ. unfold flom_resource_sequence_waitings.
  apply (wp_scan_wake waitings set_waitings sequence_ptry (fun _ x d => sequence_take x d))
    with (proj := fun _ => tt) (el := fun v => Some (print_dec v)) (inv := sequence_inv);
    try done; try (by destruct d).
  - intros. by rewrite take_waitings.
  - intros. unfold sequence_ptry. rewrite get_set_waitings. done.
  - intros. by rewrite take_set_waitings.
  - intros cl s' Hi' _. unfold sequence_try, mbind, M_bind, sequence_ptry.
    assert (E : flom_resource_sequence_can_lock s' = (inr (available (s_data s') >? 0), s')).
    { unfold flom_resource_sequence_can_lock, mbind, M_bind, gets.
      rewrite c_int_ok; [done|]. destruct Hi' as (Ht & Hln & Hm & _).
      unfold in_int32 in *. lia. }
    rewrite E. by destruct (available (s_data s') >? 0).
  - intros. by eapply sequence_grant_ok.
  - intros g pre cl w d Hd Hq Hp. rewrite take_set_waitings.
    unfold sequence_ptry in Hp. destruct (available d >? 0) eqn:E; [|done].
    rewrite Z.gtb_ltb in E. apply Z.ltb_lt, Z.lt_gt in E.
    destruct (flom_resource_sequence_get d) as [v d1] eqn:Hg.
    rewrite (take_eq _ _ _ _ Hg). exact (take_inv _ _ _ cl Hd E Hg).
  - intros. by eapply HQ.
Qed.

(** The first waiting client cannot be told: its number is gone *)
Lemma wp_sequence_waitings_dead uid x rest o l s (Q : err + unit -> st sequence -> Prop) :
  sequence_inv (s_data s) -> available (s_data s) > 0 ->
  waitings (s_data s) = x :: rest ->
  w_conns (s_world s) !! cl_conn x = Some o -> c_tls o = false -> has_fd o = true ->
  w_sends (s_world s) = PendingError EPIPE :: l ->
  (forall s', s_data s' = set_waitings rest (flom_resource_sequence_get (s_data s)).2 ->
     Q (inl (Rc FLOM_RC_CONNECTION_CLOSED)) s') ->
  wp (flom_resource_sequence_waitings uid) Q s.
Proof.
  intros Hi Ha Hw Ho Ht Hfd Hs HQ. unfold flom_resource_sequence_waitings, scan_waitings.
  do 2 wp_step. cbn [waitings_loop]. do 2 wp_step. rewrite Hw. cbn [lookup list_lookup].
  unfold sequence_try. do 2 wp_step. apply wp_sequence_can_lock; [done|].
  rewrite (proj2 (Z.gtb_lt _ _) (Z.gt_lt _ _ Ha)). do 4 wp_step. unfold sequence_grant.
  destruct (flom_resource_sequence_get (s_data s)) as [v d1] eqn:Hg.
  destruct (get_inv _ _ _ Hi Hg) as [Hv _]. cbn [snd] in HQ.
  wp_step. apply (wp_sequence_get _ v (set_waitings rest d1)).
  { cbn. rewrite Hw. cbn. by rewrite get_set_waitings, Hg. }
  wp_step. eapply wp_on_world.
  { eapply notify_granted_dead; [done..|]. by apply value_text_short. }
  by apply HQ.
Qed.

(** Releasing the value of a connection, then the scan *)
Lemma wp_sequence_clean_wake uid conn cl s (Q : err + unit -> st sequence -> Prop) :
  sequence_inv (s_data s) -> sends_ok (s_world s) -> known (s_world s) conn ->
  Forall (fun x => live (s_world s) (cl_conn x)) (waitings (s_data s)) ->
  flom_rsrc_conn_find (holders (s_data s)) conn = Some cl ->
  (forall s', s_name s' = s_name s -> s_msg s' = s_msg s ->
     (let d := sequence_release conn cl (s_data s) in
      let '(gs, rest, d') := sequence_wake d (waitings d) in
      s_data s' = set_waitings rest d' /\
      (rest <> [] -> available d' <= 0) /\
      told (map (fun p => (cl_conn p.1, Some (print_dec p.2))) gs) (s_world s) (s_world s')) ->
     Q (inr tt) s') ->
  wp (flom_resource_sequence_clean uid conn) Q s.
Proof.
  intros Hi Hs Hc Hl Hf HQ. unfold flom_resource_sequence_clean. do 3 wp_step. rewrite Hf.
  pose proof (release_inv _ _ _ Hi Hf) as Hr.
  assert (Hlk : locked_quantity (roll_back cl (s_data s)) = locked_quantity (s_data s)).
  { unfold roll_back. by repeat case_match. }
  assert (Hw : waitings (roll_back cl (s_data s)) = waitings (s_data s)).
  { unfold roll_back. by repeat case_match. }
  do 3 wp_step. apply wp_sequence_add_locked; cbn; rewrite Hlk.
  { destruct Hr as (Ht & Hln & Hm & _). cbn in Ht, Hln, Hm. unfold in_int32 in *. lia. }
  change (locked_quantity (s_data s) + -1) with (locked_quantity (s_data s) - 1).
  change (set_locked _ (set_holders _ _)) with (sequence_release conn cl (s_data s)).
  apply wp_sequence_waitings_wake; cbn [s_data s_world put_data];
    [exact Hr | done | by cbn; rewrite Hw |].
  intros gs r d' s1 Hwk Hd Hn Hm Ht. apply wp_vfs_del; [by apply Ht|]. intros t.
  apply HQ; [done..|]. cbv zeta. rewrite Hwk. split_and!; [done | | done].
  by apply (sequence_wake_blocked _ _ _ _ _ Hwk).
Qed.
End proofs.

(** ** Theorems *)
Section theorems.
Context `{Glib}.

(** C8: every number once.  From a resource just initialized, through any
    history of calls in any world before the 32-bit counter wraps, the numbers
    held by clients and those waiting to be given again are pairwise distinct,
    each was issued, and no more clients hold one than the total allows. *)
Theorem sequence_values_unique name s s0 n d :
  res_init name s = (inr tt, s0) ->
  rtc unwrapped_step (s_name s0, s_data s0) (n, d) ->
  NoDup (values d) /\ Forall (fun v => 1 <= v < next_value d) (values d) /\
  Z.of_nat (length (holders d)) <= Z.max 0 (total_quantity d).
Proof.
  intros Hinit Hr.
  assert (Hi : sequence_inv (s_data s0) /\ accounts [] (s_data s0)).
  { pose proof (init_inv name s) as Hi. unfold wp in Hi. rewrite Hinit in Hi.
    split; [by apply Hi|]. revert Hinit. cbn. unfold flom_resource_sequence_init, mbind, M_bind.
    cbn. destruct (flom_rsrc_get_number _ _) as [rc|q]; [done|]. intros [= <-].
    split; [done|]. exists []. split; [done|]. unfold values. cbn.
    by destruct (flom_rsrc_get_transactional name). }
  destruct Hi as [Hi Ha].
  destruct (unwrapped_history_accounts [] _ _ Hr Hi Ha) as [(_ & Hl & Hm & _) (Hn & R & _ & Hp)].
  cbn in *. pose proof (NoDup_seqZ 1 (next_value d - 1)) as Hnd. rewrite <- Hp in Hnd.
  apply NoDup_app in Hnd as (_ & _ & Hnd). split_and!; [done| |lia].
  apply Forall_forall. intros v Hv.
  assert (Hin : v ∈ seqZ 1 (next_value d - 1)) by (rewrite <- Hp; apply elem_of_app; by right).
  apply elem_of_seqZ in Hin. lia.
Qed.

(** C9: a committed number never comes back.  A number that was issued and is
    neither held nor rolled back is not given to anybody later, before the
    counter wraps. *)
Theorem sequence_committed_never_reissued v x y :
  sequence_inv x.2 -> accounts [] x.2 ->
  1 <= v < next_value x.2 -> v ∉ values x.2 ->
  rtc unwrapped_step x y -> v ∉ values y.2.
Proof.
  intros Hi (Hn & R & _ & Hp) Hv Hnv Hr.
  assert (Ha : accounts [v] x.2).
  { split; [done|]. exists R. split; [|done]. apply singleton_submseteq_l.
    assert (Hin : v ∈ seqZ 1 (next_value x.2 - 1)) by (apply elem_of_seqZ; lia).
    rewrite <- Hp in Hin. by apply elem_of_app in Hin as [?|?]. }
  destruct (unwrapped_history_accounts [v] _ _ Hr Hi Ha) as [_ (_ & R' & Hs & Hp')].
  pose proof (NoDup_seqZ 1 (next_value y.2 - 1)) as Hnd. rewrite <- Hp' in Hnd.
  apply NoDup_app in Hnd as (_ & Hnd & _). apply Hnd. by apply singleton_submseteq_l.
Qed.

(** a request for a number.  While the total allows one more, the client
    gets the oldest rolled back number, or else the next one, as the element of
    the answer; otherwise it is queued or refused as busy. *)
Theorem sequence_lock_answer uid conn mid b s :
  sequence_inv (s_data s) -> s_msg s = lock_request b -> can_answer (s_world s) conn mid ->
  let cl := Conn_lock 0 None 0 conn in
  wp (flom_resource_sequence_inmsg uid conn) (fun r s' =>
    r = inr tt /\ s_name s' = s_name s /\ same_net (s_world s) (s_world s') /\
    if 0 <? available (s_data s) then
      s_data s' = sequence_take cl (s_data s) /\
      s_msg s' = lock_answer mid FLOM_RC_OK
                   (Some (print_dec (flom_resource_sequence_get (s_data s)).1))
    else if negb (l8_wait b =? 0) then
      s_data s' = set_waitings (waitings (s_data s) ++ [cl]) (s_data s) /\
      s_msg s' = lock_answer mid FLOM_RC_LOCK_ENQUEUED None
    else s_data s' = s_data s /\ s_msg s' = lock_answer mid FLOM_RC_LOCK_BUSY None) s.
Proof.
  intros Hi Hm Hc cl. unfold flom_resource_sequence_inmsg. do 2 wp_step. rewrite Hm.
  cbn [msg_verb lock_request m_header h_verb Z.eqb FLOM_MSG_VERB_LOCK Pos.eqb].
  unfold sequence_lock, push_holder. wp_step. apply wp_sequence_can_lock; [done|].
  do 3 wp_step. rewrite Hm. wp_step; [|done]. injection H0 as <-.
  wp_step. eapply wp_free_lock_request; [exact Hm|]. rewrite Z.gtb_ltb.
  destruct (0 <? available (s_data s)) eqn:Ha.
  - apply Z.ltb_lt, Z.lt_gt in Ha.
    destruct (flom_resource_sequence_get (s_data s)) as [v d1] eqn:Hg.
    destruct (take_int _ _ _ Hi Ha Hg) as (_ & _ & _ & Hr).
    wp_step. eapply wp_conn_lock_new_mallocs; [exact Hc|]. intros w Hw.
    wp_step. apply (wp_sequence_get _ v d1); [exact Hg|]. do 3 wp_step.
    apply wp_sequence_add_locked; [exact Hr|]. wp_step. eapply wp_build_lock_answer; [done..|].
    apply wp_vfs_add; [by eapply can_answer_known|]. intros t. split_and!; [done..| |done].
    cbn. by rewrite (take_eq _ _ _ _ Hg).
  - destruct (negb (l8_wait b =? 0)); [|by eapply wp_build_lock_answer].
    wp_step. eapply wp_conn_lock_new_mallocs; [exact Hc|]. intros w Hw. do 3 wp_step.
    eapply wp_build_lock_answer; [done..|].
    apply wp_vfs_add; [by eapply can_answer_known|]. intros t. done.
Qed.

(** unlocking commits or rolls back, as the request says.  The number of
    the connection becomes the youngest rolled back one when the sequence is
    transactional and the request rolls back, and is retired otherwise; then
    the queue is served in order, one number each, while the total allows. *)
Theorem sequence_unlock_answer uid conn cl rb s :
  sequence_inv (s_data s) -> s_msg s = unlock_request (s_name s) rb ->
  sends_ok (s_world s) -> known (s_world s) conn ->
  Forall (fun x => live (s_world s) (cl_conn x)) (waitings (s_data s)) ->
  flom_rsrc_conn_find (holders (s_data s)) conn = Some cl ->
  wp (flom_resource_sequence_inmsg uid conn) (fun r s' =>
    let d := set_locked (locked_quantity (s_data s) - 1)
               (set_holders (remove_conn conn (holders (s_data s)))
                 (roll_back (set_rollback rb cl) (s_data s))) in
    let '(gs, rest, d') := sequence_wake d (waitings (s_data s)) in
    r = inr tt /\ s_msg s' = flom_msg_init /\ s_data s' = set_waitings rest d' /\
    (rest <> [] -> available d' <= 0) /\
    told (map (fun p => (cl_conn p.1, Some (print_dec p.2))) gs) (s_world s) (s_world s')) s.
Proof.
  intros Hi Hm Hs Hc Hl Hf. unfold flom_resource_sequence_inmsg. do 2 wp_step. rewrite Hm.
  cbn [msg_verb unlock_request m_header h_verb Z.eqb FLOM_MSG_VERB_LOCK
    FLOM_MSG_VERB_UNLOCK Pos.eqb].
  unfold sequence_unlock. do 3 wp_step. rewrite Hm. wp_step; [|done]. injection H0 as <-.
  do 4 wp_step; cbn [fst] in H0; [by rewrite bool_decide_eq_true_2 in H0|].
  do 3 wp_step. rewrite Hf. wp_step; [|done]. do 3 wp_step.
  apply (wp_sequence_clean_wake _ _ (set_rollback rb cl)); cbn [s_data s_world put_data];
    [by apply inv_rollback | done..| |].
  { cbn [set_conn_rollback set_holders holders].
    rewrite conn_find_update by done. by rewrite Hf. }
  intros s1 Hn1 Hm1 Hd1. unfold sequence_release in Hd1. cbn [snd] in Hd1.
  assert (E : set_holders (remove_conn conn (holders (set_conn_rollback conn rb (s_data s))))
      (roll_back (set_rollback rb cl) (set_conn_rollback conn rb (s_data s))) =
    set_holders (remove_conn conn (holders (s_data s)))
      (roll_back (set_rollback rb cl) (s_data s))).
  { cbn. rewrite remove_conn_update by done. unfold roll_back, set_conn_rollback. cbn.
    by repeat case_match. }
  rewrite E in Hd1. eapply wp_free_unlock_request; [by rewrite Hm1|].
  assert (Ew : waitings (roll_back (set_rollback rb cl) (s_data s)) = waitings (s_data s)).
  { unfold roll_back. by repeat case_match. }
  cbn [locked_quantity set_conn_rollback set_holders waitings set_locked] in Hd1.
  rewrite Ew in Hd1. cbv zeta in *. destruct (sequence_wake _ _) as [[gs rest] d'].
  destruct Hd1 as (? & ? & ?). done.
Qed.

(** a failed notification loses a number of a transactional sequence.
    The first waiting client's connection is dead when the only holder
    disconnects without committing: its number is taken from the rolled back
    ones for the dead client, and is then neither held nor rolled back. *)
Theorem sequence_rolled_back_lost uid conn h x rest o l nx s :
  s_data s = Sequence 1 1 nx (Some []) [h] (x :: rest) -> 0 <= nx < 4294967296 ->
  cl_conn h = conn -> cl_rollback h <> 0 -> uint32_value (cl_info h) ->
  w_conns (s_world s) !! cl_conn x = Some o -> c_tls o = false -> has_fd o = true ->
  w_sends (s_world s) = PendingError EPIPE :: l ->
  wp (flom_resource_sequence_clean uid conn) (fun r s' =>
    r = inl (Rc FLOM_RC_CONNECTION_CLOSED) /\
    s_data s' = Sequence 1 0 nx (Some []) [] rest /\ cl_info h ∉ values (s_data s')) s.
Proof.
  intros Hd Hnx Hc Hrb Hv Ho Ht Hfd Hs. unfold flom_resource_sequence_clean. do 3 wp_step.
  rewrite Hd. cbn [holders flom_rsrc_conn_find List.find remove_conn]. unfold has_conn.
  rewrite bool_decide_eq_true_2 by done. unfold roll_back. cbn [rolled_back].
  rewrite (proj2 (Z.eqb_neq _ _) Hrb). do 3 wp_step.
  apply wp_sequence_add_locked; [cbn; unfold in_int32; lia|].
  assert (Hnz : (cl_info h =? 0) = false) by (apply Z.eqb_neq; unfold uint32_value in Hv; lia).
  eapply (wp_sequence_waitings_dead uid x rest o l); try done.
  - split_and!; cbn; try done; try lia. by constructor.
  - intros s' ->. cbn. unfold flom_resource_sequence_get. cbn. rewrite Hnz.
    split_and!; [done..|]. cbn. apply not_elem_of_nil.
Qed.
End theorems.

(** ** The theorems at concrete inputs *)
Definition demo_seq_name : string := "_s_foo[1]".
Definition demo_seq_request : flom_msg :=
  lock_request (Lock_8 None (Some demo_seq_name) 0 1 0 1 0).
Definition demo_held (v : Z) (c : positive) : conn_lock Z := Conn_lock v None 1 c.

(** One client holds the number 1 and a second one waits *)
Definition demo_sequence : sequence :=
  Sequence 1 1 2 None [demo_held 1 1] [demo_cl 0 2].

Lemma sequence_values_unique_witness :
  NoDup [1] /\ Z.of_nat (length [demo_held 1 1]) <= 1.
Proof.
  pose (s := demo_st (Sequence 0 0 0 None [] []) flom_msg_init).
  pose (d1 := Sequence 1 1 2 None [demo_held 1 1] []).
  assert (Hr : rtc (@unwrapped_step demo_glib)
    (Some demo_seq_name, Sequence 1 0 1 None [] []) (Some demo_seq_name, d1)).
  { apply rtc_once. split; [|done].
    apply (@step_inmsg _ (@sequence_resource demo_glib) _ 7 1%positive (Some demo_seq_name)
      (Sequence 1 0 1 None [] []) demo_seq_request demo_world (Timeval 0 0)
      (@flom_resource_sequence_inmsg demo_glib 7 1%positive
        (St (Some demo_seq_name) (Sequence 1 0 1 None [] []) demo_seq_request
          demo_world (Timeval 0 0))).2 (inr tt)); done. }
  destruct (@sequence_values_unique demo_glib demo_seq_name s _ _ d1 eq_refl Hr)
    as (H1 & _ & H3).
  by split.
Defined.

(** The number 1 was committed: the next client gets 2 *)
Lemma sequence_committed_never_reissued_witness : 1 ∉ [2].
Proof.
  pose (d0 := Sequence 1 0 2 None [] []). pose (d1 := Sequence 1 1 3 None [demo_held 2 1] []).
  refine (@sequence_committed_never_reissued demo_glib 1
    (Some demo_seq_name, d0) (Some demo_seq_name, d1) _ _ _ _ _).
  - repeat constructor; done.
  - split; [done|]. exists [1]. split; [apply submseteq_nil_l | done].
  - done.
  - cbn. apply not_elem_of_nil.
  - apply rtc_once. split; [|done].
    by apply (@step_inmsg _ (@sequence_resource demo_glib) _ 7 1%positive (Some demo_seq_name)
      d0 demo_seq_request demo_world (Timeval 0 0)
      (@flom_resource_sequence_inmsg demo_glib 7 1%positive
        (St (Some demo_seq_name) d0 demo_seq_request demo_world (Timeval 0 0))).2 (inr tt)).
Defined.

Lemma demo_sequence_inv : sequence_inv demo_sequence.
Proof. by repeat constructor. Qed.

Lemma sequence_lock_answer_witness :
  wp (@flom_resource_sequence_inmsg demo_glib 7 3%positive) (fun r s' =>
    r = inr tt /\ s_name s' = Some "foo"%string /\ same_net demo_world (s_world s') /\
    s_data s' = Sequence 1 1 2 None [demo_held 1 1] [demo_cl 0 2; demo_cl 0 3] /\
    s_msg s' = lock_answer demo_mid FLOM_RC_LOCK_ENQUEUED None)
    (demo_st demo_sequence demo_seq_request).
Proof.
  refine (@sequence_lock_answer demo_glib 7 3%positive demo_mid
    (Lock_8 None (Some demo_seq_name) 0 1 0 1 0) (demo_st demo_sequence demo_seq_request)
    demo_sequence_inv eq_refl _). by apply demo_can_answer.
Defined.

(** The holder of 1 rolls back: the waiting client gets 1 *)
Definition demo_transactional : sequence :=
  Sequence 1 1 2 (Some []) [demo_held 1 1] [demo_cl 0 2].

Lemma demo_transactional_inv : sequence_inv demo_transactional.
Proof. by repeat constructor. Qed.

Lemma demo_transactional_live :
  Forall (fun x : conn_lock Z => live demo_world (cl_conn x)) (waitings demo_transactional).
Proof. repeat constructor. by apply demo_live. Qed.

Lemma sequence_unlock_answer_witness :
  wp (@flom_resource_sequence_inmsg demo_glib 7 1%positive) (fun r s' =>
    r = inr tt /\ s_msg s' = flom_msg_init /\
    s_data s' = Sequence 1 1 2 (Some []) [demo_held 1 2] [] /\
    (@nil (conn_lock Z) <> [] -> 0 <= 0) /\
    told [(2%positive, Some "1"%string)] demo_world (s_world s'))
    (demo_st demo_transactional (unlock_request (Some "foo"%string) 1)).
Proof.
  refine (@sequence_unlock_answer demo_glib 7 1%positive (demo_held 1 1) 1
    (demo_st demo_transactional (unlock_request (Some "foo"%string) 1))
    demo_transactional_inv eq_refl _ _ demo_transactional_live eq_refl).
  - constructor.
  - by apply demo_known.
Defined.

Lemma sequence_rolled_back_lost_witness :
  wp (@flom_resource_sequence_clean demo_glib 7 1%positive) (fun r s' =>
    r = inl (Rc FLOM_RC_CONNECTION_CLOSED) /\
    s_data s' = Sequence 1 0 2 (Some []) [] [] /\ 1 ∉ values (s_data s'))
    (St (Some "foo"%string) demo_transactional flom_msg_init
        (set_sends [PendingError EPIPE] demo_world) (Timeval 0 0)).
Proof.
  by refine (@sequence_rolled_back_lost demo_glib 7 1%positive (demo_held 1 1)
    (demo_cl 0 2) [] (demo_conn 12) [] 2
    (St (Some "foo"%string) demo_transactional flom_msg_init
        (set_sends [PendingError EPIPE] demo_world) (Timeval 0 0))
    eq_refl _ eq_refl _ _ eq_refl eq_refl eq_refl eq_refl).
Defined.
