(* ===== verification/Timestamp.v ===== *)
(** * Timestamp: timestamp resources

    [src/src/flom_resource_timestamp.c]: every lock comes with the current time
    in a format of the resource's name, and no two locks get a time in the same
    interval, the finest unit the format shows. *)
From Stdlib Require Import ZArith String Ascii List Lia.
From stdpp Require Import base list gmap numbers strings.
From S2P Require Import Prelude Types CStr RsrcName Msg MsgXml Vfs World ConnLock Resource.
Local Open Scope Z_scope.

(** ** Calendar time

    [localtime_r] and [strftime] depend on the time zone and the locale of the
    daemon.  [strftime max format tm] is [None] when the C function returns 0
    and leaves the buffer unspecified. *)
Class Calendar : Type := {
  tm : Type;
  localtime_r : Z -> option tm;
  strftime : Z -> string -> tm -> option string
}.

(** ** Data: [struct flom_rsrc_data_timestamp_s]

    The timestamp of a holder is in [cl_info]. *)
Record timestamp : Type := Timestamp {
  format : string;
  interval : timeval;
  total_quantity : Z;
  locked_quantity : Z;
  last_timestamp : timeval;
  holders : list (conn_lock timeval);
  waitings : list (conn_lock timeval)
}.

Definition set_last (t : timeval) (d : timestamp) : timestamp :=
  Timestamp (format d) (interval d) (total_quantity d) (locked_quantity d) t
    (holders d) (waitings d).
Definition set_locked (q : Z) (d : timestamp) : timestamp :=
  Timestamp (format d) (interval d) (total_quantity d) q (last_timestamp d)
    (holders d) (waitings d).
Definition set_holders (l : list (conn_lock timeval)) (d : timestamp) : timestamp :=
  Timestamp (format d) (interval d) (total_quantity d) (locked_quantity d)
    (last_timestamp d) l (waitings d).
Definition set_waitings (l : list (conn_lock timeval)) (d : timestamp) : timestamp :=
  Timestamp (format d) (interval d) (total_quantity d) (locked_quantity d)
    (last_timestamp d) (holders d) l.

(** ** The fractions of a second in a format *)
Definition MICRO_FORMAT : string := "#ffffff".

(** [micro_format] once cut to [digits] letters *)
Definition micro_format (digits : nat) : string := String.substring 0 (S digits) MICRO_FORMAT.

(** [snprintf(micro_seconds, 7, "%06d", usec)] *)
Fixpoint zeros (n : nat) : string :=
  match n with O => EmptyString | S n => String "0"%char (zeros n) end.
Definition print_06d (z : Z) : string :=
  if z <? 0 then String "-"%char (zeros (5 - String.length (print_dec (- z))) +:+ print_dec (- z))
  else zeros (6 - String.length (print_dec z)) +:+ print_dec z.
Definition micro_seconds (usec : Z) : string := snprintf_take 7 (print_06d usec).

(** The inner loop of [flom_resource_timestamp_get]: every occurrence of
    [pattern], from left to right, becomes [text], as long as the pattern;
    [skip] is what is left of the last one. *)
Fixpoint replace_all (pattern text : string) (skip : nat) (s : string) : string :=
  match s with
  | EmptyString => EmptyString
  | String c t =>
      match skip with
      | S k => replace_all pattern text k t
      | O => if String.prefix pattern s
             then text +:+ replace_all pattern text (String.length pattern - 1) t
             else String c (replace_all pattern text O t)
      end
  end.

(** The outer loop, from six digits down to one *)
Fixpoint replace_fractions (digits : nat) (micro : string) (s : string) : string :=
  match digits with
  | O => s
  | S k =>
      replace_fractions k micro
        (replace_all (micro_format digits)
           (String "."%char (String.substring 0 digits micro)) 0 s)
  end.

(** The loop of [flom_resource_timestamp_init] on the same formats *)
Fixpoint fraction_interval (digits : nat) (microsec : Z) (s : string) : Z :=
  match digits with
  | O => 0
  | S k => if strstr s (micro_format digits) then microsec
           else fraction_interval k (microsec * 10) s
  end.

Definition second_interval (s : string) : Z :=
  if existsb (strstr s) ["%c"; "%r"; "%s"; "%S"; "%T"; "%X"]%string then 1
  else if existsb (strstr s) ["%M"; "%R"]%string then 60
  else if existsb (strstr s) ["%H"; "%I"]%string then 3600
  else 0.

Definition format_interval (s : string) : timeval :=
  let usec := fraction_interval 6 1 s in
  Timeval (if 0 =? usec then second_interval s else 0) usec.

(** ** Has the interval passed?  The second half of
    [flom_resource_timestamp_can_lock] *)
Definition interval_passed (i last now : timeval) : bool :=
  if 0 <? tv_usec i then
    (tv_sec now >? tv_sec last) ||
    (Z.quot (tv_usec now) (tv_usec i) >? Z.quot (tv_usec last) (tv_usec i))
  else if 0 <? tv_sec i then
    Z.quot (tv_sec now) (tv_sec i) >? Z.quot (tv_sec last) (tv_sec i)
  else false.

(** ** [flom_resource_timestamp_next_deadline] *)
Definition next_deadline (i last : timeval) : timeval :=
  let sec := if 0 <? tv_sec i then (Z.quot (tv_sec last) (tv_sec i) + 1) * tv_sec i
             else tv_sec last in
  let usec := if 0 <? tv_usec i then (Z.quot (tv_usec last) (tv_usec i) + 1) * tv_usec i
              else 0 in
  if 999999 <? usec then Timeval (sec + 1) (usec - 1000000) else Timeval sec usec.

Definition flom_resource_timestamp_next_deadline (d : timestamp) : timeval :=
  next_deadline (interval d) (last_timestamp d).

Section timestamp.
Context `{Glib, Calendar}.

(** ** [flom_resource_timestamp_can_lock]; the result of [gettimeofday] is not
    checked *)
Definition flom_resource_timestamp_can_lock : Res timestamp bool :=
  d ← gets s_data;
  available ← c_int (total_quantity d - locked_quantity d);
  if available <=? 0 then mret false
  else
    now ← on_world gettimeofday;
    now ← of_option Ub now;
    mret (interval_passed (interval d) (last_timestamp d) now).

(** ** [flom_resource_timestamp_get]

    Its local [tv] hides the parameter of the same name, which is never
    written. *)
Definition element_size : Z := 1000.

Definition flom_resource_timestamp_get : Res timestamp string :=
  now ← on_world gettimeofday;
  tv ← of_option (Rc FLOM_RC_GETTIMEOFDAY_ERROR) now;
  _ ← modify (fun s => put_data (set_last tv (s_data s)) s);
  d ← gets s_data;
  let tmp_format := replace_fractions 6 (micro_seconds (tv_usec tv)) (format d) in
  broken_time ← of_option (Rc FLOM_RC_LOCALTIME_R_ERROR) (localtime_r (tv_sec tv));
  of_option Ub (strftime element_size tmp_format broken_time).

(** [strcat(element, "\n")] in a buffer of [element_size] bytes *)
Definition strcat_newline (s : string) : Res timestamp string :=
  if strlen s + 2 <=? element_size then mret (s +:+ String newline EmptyString) else throw Ub.

(** ** [flom_resource_timestamp_init] *)
Definition flom_resource_timestamp_init (name : string) : Res timestamp unit :=
  _ ← modify (put_name (Some name));
  match flom_rsrc_get_infix name FLOM_RSRC_TYPE_TIMESTAMP with
  | inl rc => throw (Rc rc)
  | inr f =>
      match flom_rsrc_get_number name FLOM_RSRC_TYPE_TIMESTAMP with
      | inl rc => throw (Rc rc)
      | inr n =>
          let i := format_interval f in
          _ ← modify (put_data (Timestamp f i n 0 (Timeval 0 0) [] []));
          when ((0 =? tv_usec i) && (0 =? tv_sec i))
            (throw (Rc FLOM_RC_INVALID_TIMESTAMP_FORMAT))
      end
  end.

(** ** [flom_resource_timestamp_waitings] *)
Definition push_holder (cl : conn_lock timeval) : Res timestamp unit :=
  modify (fun s => put_data (set_holders (cl :: holders (s_data s)) (s_data s)) s).

Definition add_locked (q : Z) : Res timestamp unit :=
  d ← gets s_data;
  l ← c_int (locked_quantity d + q);
  modify (fun s => put_data (set_locked l (s_data s)) s).

Definition timestamp_try (cl : conn_lock timeval) : Res timestamp (option unit) :=
  b ← flom_resource_timestamp_can_lock;
  mret (if (b : bool) then Some tt else None).

Definition timestamp_grant (locker_uid : Z) (_ : unit) (cl : conn_lock timeval)
    : Res timestamp unit :=
  element ← flom_resource_timestamp_get;
  _ ← on_world (notify_granted (cl_conn cl) (Some element));
  _ ← push_holder cl;
  _ ← add_locked 1;
  line ← strcat_newline element;
  _ ← vfs_add_locker_conn_file locker_uid (cl_conn cl)
        FLOM_VFS_LOCKERS_TIMESTAMP_VALUE_FILE_NAME line;
  vfs_move_locker_conn (cl_conn cl).

Definition flom_resource_timestamp_waitings (locker_uid : Z) : Res timestamp unit :=
  scan_waitings waitings set_waitings timestamp_try (timestamp_grant locker_uid).

(** ** [flom_resource_timestamp_clean] *)
Definition flom_resource_timestamp_clean (locker_uid : Z) (conn : conn_ref)
    : Res timestamp unit :=
  d ← gets s_data;
  _ ← match flom_rsrc_conn_find (holders d) conn with
      | Some cl =>
          _ ← modify (put_data (set_holders (remove_conn conn (holders d)) d));
          _ ← add_locked (-1);
          flom_resource_timestamp_waitings locker_uid
      | None => modify (put_data (set_waitings (remove_conn conn (waitings d)) d))
      end;
  vfs_del_conn conn.

(** ** [flom_resource_timestamp_inmsg] *)
Definition timestamp_answer (locker_uid : Z) (conn : conn_ref) (can_lock : bool)
    : Res timestamp unit :=
  m ← gets s_msg;
  b ← of_option Ub (get_lock_8 (m_body m));
  let can_wait := negb (l8_wait b =? 0) in
  _ ← free_and_init_msg;
  if can_lock then
    cl ← on_world (flom_rsrc_conn_lock_new (Timeval 0 0) conn);
    element ← flom_resource_timestamp_get;
    _ ← push_holder cl;
    _ ← add_locked 1;
    _ ← build_lock_answer conn FLOM_RC_OK (Some element);
    line ← strcat_newline element;
    vfs_add_locker_conn locker_uid conn true FLOM_LOCK_MODE_INVALID None None (Some line)
  else if can_wait then
    _ ← modify (fun s => put_deadline (flom_resource_timestamp_next_deadline (s_data s)) s);
    cl ← on_world (flom_rsrc_conn_lock_new (Timeval 0 0) conn);
    _ ← modify (fun s => put_data (set_waitings (waitings (s_data s) ++ [cl]) (s_data s)) s);
    _ ← vfs_add_locker_conn locker_uid conn false FLOM_LOCK_MODE_INVALID None None None;
    build_lock_answer conn FLOM_RC_LOCK_ENQUEUED None
  else build_lock_answer conn FLOM_RC_LOCK_BUSY None.

Definition timestamp_lock (locker_uid : Z) (conn : conn_ref) : Res timestamp unit :=
  can_lock ← flom_resource_timestamp_can_lock;
  timestamp_answer locker_uid conn can_lock.

Definition timestamp_unlock (locker_uid : Z) (conn : conn_ref) : Res timestamp unit :=
  m ← gets s_msg;
  b ← of_option Ub (get_unlock_8 (m_body m));
  n ← gets s_name;
  _ ← when (negb (bool_decide (n = b.1))) (throw (Rc FLOM_RC_INVALID_OPTION));
  _ ← flom_resource_timestamp_clean locker_uid conn;
  free_and_init_msg.

Definition flom_resource_timestamp_inmsg (locker_uid : Z) (conn : conn_ref)
    : Res timestamp unit :=
  m ← gets s_msg;
  if msg_verb m =? FLOM_MSG_VERB_LOCK then timestamp_lock locker_uid conn
  else if msg_verb m =? FLOM_MSG_VERB_UNLOCK then timestamp_unlock locker_uid conn
  else throw (Rc FLOM_RC_PROTOCOL_ERROR).

(** ** [flom_resource_timestamp_timeout] *)
Definition flom_resource_timestamp_timeout (locker_uid : Z) : Res timestamp unit :=
  d ← gets s_data;
  match waitings d with
  | [] => mret tt
  | _ :: _ =>
      can_lock ← flom_resource_timestamp_can_lock;
      when can_lock (
        _ ← flom_resource_timestamp_waitings locker_uid;
        modify (fun s => put_deadline (flom_resource_timestamp_next_deadline (s_data s)) s))
  end.

(** ** [flom_resource_timestamp_free] *)
Definition flom_resource_timestamp_free : Res timestamp unit :=
  _ ← modify (fun s => put_data (Timestamp (format (s_data s)) (interval (s_data s)) 0 0
                                   (last_timestamp (s_data s)) [] []) s);
  modify (put_name None).

#[export] Instance timestamp_resource : Resource timestamp := {
  res_init := flom_resource_timestamp_init;
  res_inmsg := flom_resource_timestamp_inmsg;
  res_clean := flom_resource_timestamp_clean;
  res_free := flom_resource_timestamp_free;
  res_timeout := flom_resource_timestamp_timeout;
  res_compare_name := flom_resource_compare_name
}.
End timestamp.

(** ** Specification *)
Definition valid_interval (i : timeval) : Prop :=
  tv_sec i = 0 /\ tv_usec i ∈ [1; 10; 100; 1000; 10000; 100000] \/
  tv_usec i = 0 /\ tv_sec i ∈ [1; 60; 3600].

Definition normal (t : timeval) : Prop := 0 <= tv_sec t /\ 0 <= tv_usec t < 1000000.
Definition tv_le (t u : timeval) : Prop :=
  tv_sec t < tv_sec u \/ tv_sec t = tv_sec u /\ tv_usec t <= tv_usec u.

(** The number of the interval a time falls in *)
Definition bucket (i t : timeval) : Z :=
  if 0 <? tv_usec i then (tv_sec t * 1000000 + tv_usec t) / tv_usec i
  else tv_sec t / tv_sec i.

(** The locked quantity counts the holders, at most the total; the interval is
    one a format can ask for. *)
Definition timestamp_inv (d : timestamp) : Prop :=
  in_int32 (total_quantity d) /\
  locked_quantity d = Z.of_nat (length (holders d)) /\
  locked_quantity d <= Z.max 0 (total_quantity d) /\
  valid_interval (interval d).

Definition available (d : timestamp) : Z := total_quantity d - locked_quantity d.

(** A clock that never goes back from [t] on, and may fail *)
Fixpoint monotone_from (t : timeval) (l : list (option timeval)) : Prop :=
  match l with
  | [] => True
  | None :: l => monotone_from t l
  | Some u :: l => normal u /\ tv_le t u /\ monotone_from u l
  end.

(** ** Lemmas on time *)
Lemma fraction_interval_range s :
  fraction_interval 6 1 s ∈ [0; 1; 10; 100; 1000; 10000; 100000].
Proof.
  cbn [fraction_interval]. rewrite !elem_of_cons, elem_of_nil.
  repeat (destruct (strstr s _)); lia.
Qed.

Lemma second_interval_range s : second_interval s ∈ [0; 1; 60; 3600].
Proof.
  unfold second_interval. rewrite !elem_of_cons, elem_of_nil.
  repeat (destruct (existsb _ _)); lia.
Qed.

Lemma format_interval_valid s :
  (0 =? tv_usec (format_interval s)) && (0 =? tv_sec (format_interval s)) = false ->
  valid_interval (format_interval s).
Proof.
  unfold format_interval, valid_interval. cbn [tv_sec tv_usec].
  pose proof (fraction_interval_range s) as Hf. pose proof (second_interval_range s) as Hs.
  revert Hf Hs. generalize (fraction_interval 6 1 s) as f, (second_interval s) as x.
  intros f x. rewrite !elem_of_cons, !elem_of_nil. intros Hf Hx.
  destruct (Z.eqb_spec 0 f) as [<-|Hne]; cbn [andb].
  - intros E. apply Z.eqb_neq in E. lia.
  - intros _. lia.
Qed.

Lemma valid_usec i : valid_interval i -> 0 < tv_usec i ->
  tv_sec i = 0 /\ exists m, 0 < m /\ 1000000 = tv_usec i * m.
Proof.
  intros [[H1 H2]|[H1 H2]] Hp; [|lia]. split; [done|].
  rewrite !elem_of_cons, elem_of_nil in H2.
  destruct H2 as [-> | [-> | [-> | [-> | [-> | [-> | []]]]]]];
    [exists 1000000 | exists 100000 | exists 10000 | exists 1000 | exists 100 | exists 10]; lia.
Qed.

Lemma valid_sec i : valid_interval i -> ~ 0 < tv_usec i -> tv_usec i = 0 /\ 0 < tv_sec i.
Proof.
  intros [[H1 H2]|[H1 H2]] Hp; rewrite !elem_of_cons, elem_of_nil in H2; [lia|].
  split; [done|]. lia.
Qed.

(** Whole seconds and the rest, when the unit divides a second *)
Lemma bucket_usec i t m : 0 < tv_usec i -> 1000000 = tv_usec i * m -> 
  bucket i t = tv_sec t * m + tv_usec t / tv_usec i.
Proof.
  intros Hi Hm. unfold bucket. rewrite (proj2 (Z.ltb_lt _ _) Hi), Hm.
  replace (tv_sec t * (tv_usec i * m) + tv_usec t)
    with (tv_usec t + (tv_sec t * m) * tv_usec i) by lia.
  rewrite Z.div_add by lia. lia.
Qed.

Lemma usec_range i t m : normal t -> 0 < tv_usec i -> 1000000 = tv_usec i * m ->
  0 <= tv_usec t / tv_usec i < m.
Proof.
  intros [_ Hu] Hi Hm. split; [apply Z.div_pos; lia|].
  apply Z.div_lt_upper_bound; lia.
Qed.

Lemma bucket_le i t u : valid_interval i -> normal t -> normal u -> tv_le t u ->
  bucket i t <= bucket i u.
Proof.
  intros Hi Ht Hu Hle. destruct (decide (0 < tv_usec i)) as [Hp|Hp].
  - destruct (valid_usec i Hi Hp) as (_ & m & Hm0 & Hm).
    rewrite !(bucket_usec i _ m) by done.
    pose proof (usec_range i t m Ht Hp Hm). pose proof (usec_range i u m Hu Hp Hm).
    destruct Hle as [Hlt|[-> Hle]]; [nia|].
    pose proof (Z.div_le_mono _ _ (tv_usec i) Hp Hle). lia.
  - destruct (valid_sec i Hi Hp) as [Hz Hs]. unfold bucket. rewrite Hz. cbn.
    apply Z.div_le_mono; [done|]. destruct Hle; lia.
Qed.

(** With a clock that does not go back, the test is the one on intervals *)
Lemma interval_passed_bucket i t u :
  valid_interval i -> normal t -> normal u -> tv_le t u ->
  interval_passed i t u = true <-> bucket i t < bucket i u.
Proof.
  intros Hi Ht Hu Hle. unfold interval_passed.
  destruct (Z.ltb_spec 0 (tv_usec i)) as [Hp|Hp].
  - destruct (valid_usec i Hi Hp) as (_ & m & Hm0 & Hm).
    rewrite !(bucket_usec i _ m) by done. destruct Ht as [Ht1 Ht2], Hu as [Hu1 Hu2].
    rewrite !Z.quot_div_nonneg by lia. rewrite orb_true_iff, !Z.gtb_lt.
    pose proof (usec_range i t m (conj Ht1 Ht2) Hp Hm).
    pose proof (usec_range i u m (conj Hu1 Hu2) Hp Hm).
    destruct Hle as [Hlt|[-> Hle]]; [|lia]. split; [nia | auto].
  - destruct (valid_sec i Hi) as [Hz Hs]; [lia|]. destruct Ht, Hu.
    rewrite (proj2 (Z.ltb_lt _ _) Hs), !Z.quot_div_nonneg, Z.gtb_lt by lia.
    unfold bucket. by rewrite Hz.
Qed.

(** The next deadline is where the next interval begins *)
Lemma next_deadline_bucket i t u :
  valid_interval i -> normal t -> normal u -> tv_le t u ->
  tv_le (next_deadline i t) u <-> bucket i t < bucket i u.
Proof.
  intros Hi Ht Hu Hle. unfold next_deadline, tv_le.
  destruct (Z.ltb_spec 0 (tv_usec i)) as [Hp|Hp].
  - destruct (valid_usec i Hi Hp) as (Hz & m & Hm0 & Hm). rewrite Hz. cbn.
    rewrite !(bucket_usec i _ m) by done.
    pose proof (usec_range i t m Ht Hp Hm). pose proof (usec_range i u m Hu Hp Hm).
    destruct Ht as [Ht1 Ht2], Hu as [Hu1 Hu2]. rewrite Z.quot_div_nonneg by lia.
    assert (Hd : (tv_usec t / tv_usec i + 1) * tv_usec i <= tv_usec u <->
                 tv_usec t / tv_usec i < tv_usec u / tv_usec i).
    { pose proof (Z.div_mod (tv_usec u) (tv_usec i)). pose proof (Z.mod_pos_bound (tv_usec u) (tv_usec i)).
      split; intros; nia. }
    destruct (Z.ltb_spec 999999 ((tv_usec t / tv_usec i + 1) * tv_usec i)) as [Hb|Hb]; cbn.
    + assert (tv_usec t / tv_usec i + 1 = m) by nia.
      destruct Hle as [Hlt|[E Hle]]; [|rewrite <- E; nia]. split; [nia|].
      intros _. destruct (Z.eq_dec (tv_sec t + 1) (tv_sec u)); nia.
    + destruct Hle as [Hlt|[E Hle]]; [|rewrite <- E; lia]. split; [nia | lia].
  - destruct (valid_sec i Hi) as [Hz Hs]; [lia|]. destruct Ht, Hu. unfold bucket.
    rewrite Hz, (proj2 (Z.ltb_lt _ _) Hs), Z.quot_div_nonneg by lia. cbn.
    pose proof (Z.div_mod (tv_sec u) (tv_sec i)). pose proof (Z.mod_pos_bound (tv_sec u) (tv_sec i)).
    split; intros; nia.
Qed.

(** Timestamps in later and later intervals, from the one of [t] on, and the last
    of them *)
Fixpoint later (i t : timeval) (ts : list timeval) : Prop :=
  match ts with
  | [] => True
  | u :: ts => bucket i t < bucket i u /\ later i u ts
  end.
Fixpoint last_from (t : timeval) (ts : list timeval) : timeval :=
  match ts with [] => t | u :: ts => last_from u ts end.

Lemma later_snoc i ts u : forall t,
  later i t ts -> bucket i (last_from t ts) < bucket i u -> later i t (ts ++ [u]).
Proof. induction ts as [|v ts IH]; cbn; [done|]. intros t [Hv Hl] Hu. split; [done | by apply IH]. Qed.
Lemma last_from_snoc ts u : forall t, last_from t (ts ++ [u]) = u.
Proof. induction ts as [|v ts IH]; intros t; [done | apply IH]. Qed.

Lemma tv_le_trans t u v : tv_le t u -> tv_le u v -> tv_le t v.
Proof. unfold tv_le. lia. Qed.

Lemma monotone_trans t u l : tv_le t u -> monotone_from u l -> monotone_from t l.
Proof.
  intros Hle. induction l as [|[v|] l IH]; cbn; [done| |done].
  intros (Hn & Hv & Hm). split_and!; [done | by eapply tv_le_trans | done].
Qed.

(** ** The programs *)
Section proofs.
Context `{Glib, Calendar}.

Lemma wp_timestamp_add_locked q s (Q : err + unit -> st timestamp -> Prop) :
  in_int32 (locked_quantity (s_data s) + q) ->
  Q (inr tt) (put_data (set_locked (locked_quantity (s_data s) + q) (s_data s)) s) ->
  wp (add_locked q) Q s.
Proof. intros Hq HQ. unfold add_locked. do 3 wp_step. by apply wp_c_int. Qed.

Lemma wp_gettimeofday s (Q : err + option timeval -> st timestamp -> Prop) :
  (forall s', s_data s' = s_data s -> clock s' = clock s ->
     w_sent (s_world s') = w_sent (s_world s) -> Q (inr None) s') ->
  (forall t s', s_data s' = s_data s -> clock s = t :: clock s' ->
     w_sent (s_world s') = w_sent (s_world s) -> Q (inr t) s') ->
  wp (on_world gettimeofday) Q s.
Proof.
  intros Hn Ht. unfold clock in *. destruct (w_clock (s_world s)) as [|t l] eqn:E;
    (eapply wp_on_world; [unfold gettimeofday; rewrite E; reflexivity|]).
  - apply Hn; cbn; congruence.
  - by apply Ht.
Qed.

(** *** The clock and what is sent

    Both are changed by few programs: the clock is read by [gettimeofday], and
    only a notification sends. *)
Definition w_heard (w : world) : list (option timeval) * list (conn_ref * string) :=
  (w_clock w, w_sent w).
Definition heard (s : st timestamp) : list (option timeval) * list (conn_ref * string) :=
  w_heard (s_world s).

#[local] Instance heard_on_world {A} (m : Wm A) : Keeps w_heard m -> Keeps heard (on_world m).
Proof.
  intros Hm s. unfold on_world, zoom, heard. pose proof (Hm (s_world s)) as E.
  by destruct (m (s_world s)).
Qed.
#[local] Instance heard_on_msg {A} (m : M err flom_msg A) : Keeps heard (on_msg m).
Proof. intros s. unfold on_msg, zoom. by destruct (m (s_msg s)). Qed.
#[local] Instance heard_put_msg m : Keeps heard (modify (put_msg m)).
Proof. done. Qed.
#[local] Instance heard_deref c : Keeps w_heard (deref c).
Proof. unfold deref. solve_keeps. Qed.
#[local] Instance heard_on_vfs f : Keeps w_heard (on_vfs f).
Proof. intros w. unfold on_vfs. by destruct (f (w_vfs w)). Qed.
#[local] Instance heard_malloc : Keeps w_heard g_try_malloc.
Proof. intros w. unfold g_try_malloc. by destruct (w_mallocs w). Qed.
#[local] Instance heard_conn_lock_new {I} (i : I) c : Keeps w_heard (flom_rsrc_conn_lock_new i c).
Proof. unfold flom_rsrc_conn_lock_new. solve_keeps. Qed.
#[local] Instance heard_free_msg : Keeps heard free_and_init_msg.
Proof. unfold free_and_init_msg. solve_keeps. Qed.
#[local] Instance heard_build c rc e : Keeps heard (build_lock_answer c rc e).
Proof. unfold build_lock_answer, flom_conn_get_last_step. solve_keeps. Qed.
#[local] Instance heard_vfs_add c u b m q x y : Keeps heard (vfs_add_locker_conn u c b m q x y).
Proof. unfold vfs_add_locker_conn. solve_keeps. Qed.
#[local] Instance heard_vfs_add_file c u n x : Keeps heard (vfs_add_locker_conn_file u c n x).
Proof. unfold vfs_add_locker_conn_file. solve_keeps. Qed.
#[local] Instance heard_vfs_del c : Keeps heard (vfs_del_conn c).
Proof. unfold vfs_del_conn. solve_keeps. Qed.
#[local] Instance heard_vfs_move c : Keeps heard (vfs_move_locker_conn c).
Proof. unfold vfs_move_locker_conn. solve_keeps. Qed.

Lemma wp_heard {A} (m : Res timestamp A) (Q : err + A -> st timestamp -> Prop) s :
  Frame m -> Keeps heard m ->
  (forall r s', s_data s' = s_data s -> heard s' = heard s -> Q r s') -> wp m Q s.
Proof. intros Hm Hc HQ. destruct (Hm s). unfold wp. apply HQ; [done | apply Hc]. Qed.

(** What is said of a timestamp: its text in the format of the resource, and
    the notification that has it, or the part of it that could be sent *)
Definition stamp_text (f : string) (t : timeval) (x : string) : Prop := exists broken_time,
  localtime_r (tv_sec t) = Some broken_time /\
  strftime element_size (replace_fractions 6 (micro_seconds (tv_usec t)) f) broken_time = Some x.
Definition part_of (sent text : string) : Prop :=
  sent = text \/ exists n, sent = String.substring 0 n text.
Definition granted_message (x : string) : flom_msg :=
  Msg FLOM_MSG_STATE_READY (Header FLOM_MSG_LEVEL FLOM_MSG_VERB_LOCK (3 * FLOM_MSG_STEP_INCR))
    (body_lock_24 (Answer FLOM_RC_OK (Some x))).
Definition notified (f : string) (t : timeval) (p : conn_ref * string) : Prop :=
  exists x text, stamp_text f t x /\
    flom_msg_serialize FLOM_NETWORK_BUFFER_SIZE (granted_message x) = inr text /\ part_of p.2 text.

(** A send puts at most one message on the wire, or a part of it. *)
Lemma wp_send_heard c buf (Q : err + unit -> world -> Prop) w :
  (forall r w', w_clock w' = w_clock w ->
     (w_sent w' = w_sent w \/ exists x, w_sent w' = w_sent w ++ [(c, x)] /\ part_of x buf) -> Q r w') ->
  wp (flom_conn_send c buf) Q w.
Proof.
  intros HQ. unfold flom_conn_send, deref, next_send, flom_tls_send, flom_tcp_send, wire, wp, mbind, M_bind, gets.
  cbn. destruct (w_conns w !! c) as [o|]; cbn; [|apply HQ; auto].
  assert (Hpart : forall n, part_of (String.substring 0 n buf) buf) by (intros n; right; eauto).
  assert (Hall : part_of buf buf) by by left.
  destruct (w_sends w) as [|r l]; cbn; [|destruct r; cbn]; destruct (c_tls o); cbn; try destruct (has_fd o); cbn;
    repeat case_match; simplify_eq/=; unfold when; try destruct (negb _); apply HQ; cbn; eauto 6.
Qed.
Lemma wp_notify_heard c x s (Q : err + unit -> st timestamp -> Prop) :
  (forall r s', s_data s' = s_data s -> clock s' = clock s ->
     (w_sent (s_world s') = w_sent (s_world s) \/ exists p text,
        w_sent (s_world s') = w_sent (s_world s) ++ [(c, p)] /\
        flom_msg_serialize FLOM_NETWORK_BUFFER_SIZE (granted_message x) = inr text /\ part_of p text) ->
     Q r s') ->
  wp (on_world (notify_granted c (Some x))) Q s.
Proof.
  intros HQ. unfold on_world. wp_step.
  assert (HQ' : forall r w', w_clock w' = w_clock (s_world s) ->
    (w_sent w' = w_sent (s_world s) \/ exists p text, w_sent w' = w_sent (s_world s) ++ [(c, p)] /\
       flom_msg_serialize FLOM_NETWORK_BUFFER_SIZE (granted_message x) = inr text /\ part_of p text) ->
    Q r (put_world w' s)) by (intros r w' ? ?; by apply HQ).
  clear HQ. unfold notify_granted. do 2 wp_step.
  change (granted_msg (w_machine_id (s_world s)) (Some x)) with (@inr err unit tt, granted_message x).
  cbn beta iota. cbn [of_result]. do 2 wp_step.
  destruct (flom_msg_serialize _ _) as [e|text] eqn:E; cbn [of_result]; [wp_step; apply HQ'; auto|].
  do 3 wp_step. apply wp_send_heard. intros r w' Hc Hs.
  assert (Hs' : w_sent w' = w_sent (s_world s) \/ exists p text0,
    w_sent w' = w_sent (s_world s) ++ [(c, p)] /\ @inr err _ text = inr text0 /\ part_of p text0).
  { destruct Hs as [?|(p & ? & ?)]; [by left | right; eauto]. }
  destruct r as [e|[]]; [by apply HQ'|]. unfold flom_conn_set_last_step, deref, wp, mbind, M_bind, gets.
  cbn. destruct (w_conns w' !! c); cbn; by apply HQ'.
Qed.

(** The element of the answer that a request has left in its message *)
Definition answer_element (m : flom_msg) : option string :=
  match m_body m with
  | body_lock_16 _ a | body_lock_24 a | body_lock_32 a => a_element a
  | _ => None
  end.
Lemma wp_build_heard c rc e s (Q : err + unit -> st timestamp -> Prop) :
  (forall r s', s_data s' = s_data s -> heard s' = heard s ->
     (r = inr tt -> answer_element (s_msg s') = e) -> Q r s') ->
  wp (build_lock_answer c rc e) Q s.
Proof.
  intros HQ. pose proof (_ : Frame (build_lock_answer (D := timestamp) c rc e)) as Hf.
  pose proof (_ : Keeps heard (build_lock_answer c rc e)) as Hk. destruct (Hf s) as [Hd _].
  specialize (Hk s). unfold wp. apply HQ; [done..|]. clear.
  unfold build_lock_answer, flom_conn_get_last_step, deref, flom_msg_build_answer, on_world, on_msg, zoom,
    mbind, M_bind, gets, modify. cbn.
  destruct (w_conns _ !! c) as [o|]; cbn; [|done].
  repeat case_match; simplify_eq/=; done.
Qed.
Lemma wp_free_heard s (Q : err + unit -> st timestamp -> Prop) :
  (forall r s', s_data s' = s_data s -> heard s' = heard s ->
     (r = inr tt -> answer_element (s_msg s') = None) -> Q r s') ->
  wp free_and_init_msg Q s.
Proof.
  intros HQ. pose proof (_ : Frame (free_and_init_msg (D := timestamp))) as Hf.
  pose proof (_ : Keeps heard free_and_init_msg) as Hk. destruct (Hf s) as [Hd _].
  specialize (Hk s). unfold wp. apply HQ; [done..|]. clear.
  unfold free_and_init_msg, on_msg, zoom, mbind, M_bind, modify.
  by destruct (flom_msg_free (s_msg s)) as [[e|[]] m].
Qed.
#[local] Instance message_on_world {A} (m : Wm A) : Keeps s_msg (on_world (D := timestamp) m).
Proof. intros s. unfold on_world, zoom. by destruct (m (s_world s)). Qed.
#[local] Instance message_vfs_add c u b m q x y :
  Keeps s_msg (vfs_add_locker_conn (D := timestamp) u c b m q x y).
Proof. unfold vfs_add_locker_conn. solve_keeps. Qed.

Lemma wp_vfs_add_heard u c h m q x y s (Q : err + unit -> st timestamp -> Prop) :
  (forall r s', s_data s' = s_data s -> heard s' = heard s -> s_msg s' = s_msg s -> Q r s') ->
  wp (vfs_add_locker_conn u c h m q x y) Q s.
Proof.
  intros HQ. pose proof (_ : Frame (vfs_add_locker_conn (D := timestamp) u c h m q x y)) as Hf.
  pose proof (heard_vfs_add c u h m q x y) as Hk. pose proof (message_vfs_add c u h m q x y) as Hm.
  destruct (Hf s) as [Hd _]. specialize (Hk s). specialize (Hm s). unfold wp. by apply HQ.
Qed.

(** *** What every call keeps

    With [b], also that the clock has not gone back, that the timestamps [ts] given
    since the last one was [t0] are in later and later intervals, that the messages
    sent since, after [sent0], have each one of them, in order and none twice, and
    that the holders, on top of [g], do not outnumber them.  With [x], the last
    timestamp has this text and has not been told to anybody. *)
Section tracked.
Variable b : bool.
Variables i t0 : timeval.
Variable f : string.
Variable sent0 : list (conn_ref * string).

Definition told (x : option string) (ts : list timeval) (sent : list (conn_ref * string)) : Prop :=
  exists said new, sent = sent0 ++ new /\ Forall2 (notified f) said new /\
    match x with
    | None => sublist said ts
    | Some x => exists ts' t, ts = ts' ++ [t] /\ sublist said ts' /\ stamp_text f t x
    end.

Definition tracked (x : option string) (g : Z) (s : st timestamp) : Prop :=
  timestamp_inv (s_data s) /\ interval (s_data s) = i /\
  (b = true -> format (s_data s) = f /\ normal (last_timestamp (s_data s)) /\
     monotone_from (last_timestamp (s_data s)) (clock s) /\
     exists ts, later i t0 ts /\ last_from t0 ts = last_timestamp (s_data s) /\
       told x ts (w_sent (s_world s)) /\
       g + Z.of_nat (length (holders (s_data s))) <= Z.of_nat (length ts)).

(** The clock is past the interval of the last timestamp *)
Definition ahead (s : st timestamp) : Prop :=
  b = true -> exists now, normal now /\ monotone_from now (clock s) /\
    tv_le (last_timestamp (s_data s)) now /\
    bucket i (last_timestamp (s_data s)) < bucket i now.

Lemma tracked_frame x g s s' :
  s_data s' = s_data s -> heard s' = heard s -> tracked x g s -> tracked x g s'.
Proof. intros Hd [= Hc Hs]. unfold tracked, clock. by rewrite Hd, Hc, Hs. Qed.

Lemma tracked_less x g g' s : g' <= g -> tracked x g s -> tracked x g' s.
Proof.
  intros Hg (Hi & He & Hb). split_and!; [done..|]. intros E.
  destruct (Hb E) as (? & ? & ? & ts & ? & ? & ? & ?). split_and!; [done..|].
  exists ts. split_and!; [done.. | lia].
Qed.

Lemma tracked_untold x g s : tracked (Some x) g s -> tracked None g s.
Proof.
  intros (Hi & He & Hb). split_and!; [done..|]. intros E.
  destruct (Hb E) as (? & ? & ? & ts & ? & ? & (said & new & Hs & Hf & ts' & t & -> & Hsub & _) & ?).
  split_and!; [done..|]. exists (ts' ++ [t]). split_and!; try done. exists said, new. split_and!; [done..|].
  by apply sublist_inserts_r.
Qed.

(** A message of the last timestamp *)
Lemma tracked_told x g s s' c :
  s_data s' = s_data s -> clock s' = clock s ->
  (w_sent (s_world s') = w_sent (s_world s) \/ exists p text,
     w_sent (s_world s') = w_sent (s_world s) ++ [(c, p)] /\
     flom_msg_serialize FLOM_NETWORK_BUFFER_SIZE (granted_message x) = inr text /\ part_of p text) ->
  tracked (Some x) g s -> tracked None g s'.
Proof.
  intros Hd Hc [Hs|(p & text & Hs & Hser & Hp)] Ht.
  { apply (tracked_frame _ _ s); [done | unfold heard, w_heard; unfold clock in Hc; congruence|].
    by eapply tracked_untold. }
  destruct Ht as (Hi & He & Hb). unfold tracked. rewrite Hd, Hc, Hs. split_and!; [done..|]. intros E.
  destruct (Hb E) as (? & ? & ? & ts & ? & ? & (said & new & -> & Hf & ts' & t & -> & Hsub & Hx) & ?).
  split_and!; [done..|]. exists (ts' ++ [t]). split_and!; try done.
  exists (said ++ [t]), (new ++ [(c, p)]). split_and!; [by rewrite app_assoc| |].
  - apply Forall2_app; [done|]. constructor; [|constructor]. exists x, text. done.
  - by apply sublist_app.
Qed.

(** Reading the clock *)
Lemma tracked_read x g s t s' :
  tracked x g s -> s_data s' = s_data s -> clock s = t :: clock s' ->
  w_sent (s_world s') = w_sent (s_world s) ->
  tracked x g s' /\
  (forall u, t = Some u -> b = true -> normal u /\ tv_le (last_timestamp (s_data s)) u /\
     monotone_from u (clock s')).
Proof.
  intros (Hi & He & Hb) Hd Hc Hs. unfold tracked. rewrite Hd, Hc, Hs in *.
  split; [split_and!; [done..|]; intros E; destruct (Hb E) as (Hf & Hn & Hm & Hg)|].
  - destruct t as [u|]; [|done]. destruct Hm as (? & ? & ?).
    split_and!; [done | done | by eapply monotone_trans | done].
  - intros u -> E. destruct (Hb E) as (_ & _ & Hm & _). done.
Qed.

Lemma wp_timestamp_can_lock g s (Q : err + bool -> st timestamp -> Prop) :
  tracked None g s ->
  (forall s', tracked None g s' -> Q (inl Ub) s') ->
  (forall r s', s_data s' = s_data s -> tracked None g s' ->
     (r = true -> available (s_data s) > 0 /\ ahead s') -> Q (inr r) s') ->
  wp flom_resource_timestamp_can_lock Q s.
Proof.
  intros Ht Hub HQ. unfold flom_resource_timestamp_can_lock. do 3 wp_step.
  pose proof Ht as ((Hti & Hl & Hm & Hv) & He & _).
  apply wp_c_int; [unfold in_int32 in *; lia|].
  destruct (Z.leb_spec (total_quantity (s_data s) - locked_quantity (s_data s)) 0) as [Ha|Ha].
  { wp_step. by apply HQ. }
  wp_step. apply wp_gettimeofday.
  - intros s' Hd Hc Hs. do 2 wp_step; [done|]. apply Hub.
    apply (tracked_frame _ _ s); [done| |done]. unfold heard, w_heard. unfold clock in Hc. congruence.
  - intros t s' Hd Hc Hs. destruct (tracked_read _ _ _ _ _ Ht Hd Hc Hs) as [Ht' Hu].
    do 2 wp_step; [|by apply Hub]. wp_step. apply HQ; [done..|]. intros Hp. split; [unfold available; lia|].
    intros E. destruct (Hu _ H1 E) as (Hn & Hle & Hmn). exists a. rewrite Hd.
    split_and!; [done..|]. rewrite He in *. apply interval_passed_bucket; try done.
    by apply Ht.
Qed.

Lemma wp_timestamp_get g s (Q : err + string -> st timestamp -> Prop) :
  tracked None g s -> ahead s ->
  (forall e s', tracked None g s' -> Q (inl e) s') ->
  (forall x t s', s_data s' = set_last t (s_data s) -> tracked (Some x) (g + 1) s' -> Q (inr x) s') ->
  wp flom_resource_timestamp_get Q s.
Proof.
  intros Ht Ha He HQ. unfold flom_resource_timestamp_get. wp_step. apply wp_gettimeofday.
  - intros s' Hd Hc Hs. do 2 wp_step; [done|]. apply He.
    apply (tracked_frame _ _ s); [done| |done]. unfold heard, w_heard. unfold clock in Hc. congruence.
  - intros t s' Hd Hc Hs. destruct (tracked_read _ _ _ _ _ Ht Hd Hc Hs) as [Ht' _].
    do 2 wp_step; [|by apply He]. subst t. do 4 wp_step.
    set (s'' := put_data (set_last a (s_data s')) s').
    assert (Hnew : forall x,
      (b = true -> match x with Some y => stamp_text f a y | None => True end) -> tracked x (g + 1) s'').
    { intros x Hx. destruct Ht as (Hi & Hint & Hb). unfold tracked, s''. cbn. rewrite Hd. cbn.
      split_and!; [done..|]. intros E.
      destruct (Hb E) as (Hf & Hn & _ & ts & Hlt & Hlast & Htold & Hg).
      destruct (Ha E) as (now & Hnn & Hmn & Hle & Hb').
      rewrite Hc in Hmn. destruct Hmn as (Hna & Hla & Hma). split_and!; [done..|].
      assert (Hvi : valid_interval i) by (rewrite <- Hint; apply Hi).
      pose proof (bucket_le i now a Hvi Hnn Hna Hla). exists (ts ++ [a]). split_and!.
      - apply later_snoc; [done|]. rewrite Hlast. lia.
      - apply last_from_snoc.
      - rewrite Hs. destruct Htold as (said & new & Hsent & Hnot & Hsub). exists said, new.
        split_and!; [done..|]. specialize (Hx E). destruct x; [by eauto | by apply sublist_inserts_r].
      - rewrite length_app. cbn. lia. }
    assert (Hget : tracked None g s'') by (apply (tracked_less None (g + 1)); [lia | by apply Hnew]).
    do 2 wp_step; [|by apply He]. wp_step; [|by apply He].
    eapply HQ; [by unfold s''; cbn; rewrite Hd|]. apply Hnew. intros E.
    destruct Ht' as (_ & _ & Hb). destruct (Hb E) as (<- & _). by exists a0.
Qed.

(** A new holder for the timestamp just taken *)
Lemma wp_timestamp_hold {A} x g cl (k : unit -> Res timestamp A) s
    (Q : err + A -> st timestamp -> Prop) :
  tracked x (g + 1) s -> available (s_data s) > 0 ->
  (forall s', tracked x g s' -> waitings (s_data s') = waitings (s_data s) -> wp (k tt) Q s') ->
  wp (push_holder cl ≫= fun _ => add_locked 1 ≫= k) Q s.
Proof.
  intros ((Ht & Hl & Hm & Hv) & He & Hb) Ha HQ. unfold push_holder, available in *.
  do 3 wp_step. apply wp_timestamp_add_locked; [cbn; unfold in_int32 in *; lia|].
  apply HQ; [|done]. split; [|split; [done|]].
  { unfold timestamp_inv. cbn. split_and!; try done; lia. }
  cbn. intros E. destruct (Hb E) as (? & ? & ? & ts & ? & ? & ? & ?). split_and!; [done..|].
  exists ts. split_and!; [done..|]. lia.
Qed.

Lemma wp_timestamp_grant_tracked g uid cl s (Q : err + unit -> st timestamp -> Prop) :
  tracked None g s -> available (s_data s) > 0 -> ahead s ->
  (forall r s', tracked None g s' ->
     (r = inr tt -> waitings (s_data s') = waitings (s_data s)) -> Q r s') ->
  wp (timestamp_grant uid tt cl) Q s.
Proof.
  intros Ht Ha Hh HQ. unfold timestamp_grant, strcat_newline. wp_step.
  apply (wp_timestamp_get g); [done..| intros e s1 Ht1; by apply HQ |]. intros x t s1 Hd Ht1. wp_step.
  apply wp_notify_heard. intros r2 s2 Hd2 Hc2 Hs2.
  assert (Ht2 : tracked None (g + 1) s2) by by eapply tracked_told.
  destruct r2 as [e|[]].
  { apply HQ; [|done]. apply (tracked_less _ (g + 1)); [lia | done]. }
  apply (wp_timestamp_hold None g); [done| |].
  - rewrite Hd2, Hd. exact Ha.
  - intros s3 Ht3 Hw3. do 2 wp_step; [|by apply HQ]. wp_step. wp_step.
    apply wp_heard; [apply _..|]. intros [e|[]] s4 Hd4 Hc4; cbn beta iota.
    { apply HQ; [|done]. by apply (tracked_frame _ _ s3). }
    apply wp_heard; [apply _..|]. intros r s5 Hd5 Hc5. apply HQ.
    + apply (tracked_frame _ _ s4); [done..|]. by apply (tracked_frame _ _ s3).
    + intros _. by rewrite Hd5, Hd4, Hw3, Hd2, Hd.
Qed.

Lemma tracked_waitings x g l s : tracked x g s -> tracked x g (put_data (set_waitings l (s_data s)) s).
Proof. done. Qed.

Lemma wp_timestamp_waitings_tracked g uid s :
  tracked None g s ->
  wp (flom_resource_timestamp_waitings uid) (fun _ s' => tracked None g s') s.
Proof.
  intros Hs. unfold flom_resource_timestamp_waitings.
  apply wp_scan_waitings with (J := fun pre w s =>
    waitings (s_data s) = pre ++ w /\ tracked None g s);
    [by intros ??? [??] | by intros ?? [??] | | done].
  clear s Hs. intros pre cl w s [Hq Ht]. unfold timestamp_try. wp_step.
  apply (wp_timestamp_can_lock g); [done | by auto|]. intros [] s1 Hd Ht1 Hp; wp_step.
  - destruct (Hp eq_refl) as [Ha Hh].
    apply (wp_timestamp_grant_tracked g).
    + by apply tracked_waitings.
    + cbn. rewrite Hd. exact Ha.
    + intros E. destruct (Hh E) as (now & ?). by exists now.
    + intros [e|[]] s2 Ht2 Hw; [done|]. split; [|done].
      rewrite Hw by done. cbn. by rewrite Hd, Hq, delete_middle.
  - split; [by rewrite Hd, Hq, <- app_assoc | done].
Qed.

(** Holders that leave make room for as many. *)
Lemma tracked_leave x g l s d' :
  tracked x g s -> (length l <= length (holders (s_data s)))%nat ->
  timestamp_inv d' -> holders d' = l -> interval d' = interval (s_data s) ->
  format d' = format (s_data s) -> last_timestamp d' = last_timestamp (s_data s) ->
  tracked x (g + Z.of_nat (length (holders (s_data s))) - Z.of_nat (length l)) (put_data d' s).
Proof.
  intros (Hi & He & Hb) Hle Hi' Hl Hei Hf Hla. unfold tracked. cbn. rewrite Hei, Hf, Hla, Hl.
  split_and!; [done..|]. intros E. destruct (Hb E) as (? & ? & ? & ts & ? & ? & ? & ?).
  split_and!; [done..|]. exists ts. split_and!; [done..|]. lia.
Qed.

Lemma wp_timestamp_clean_tracked g uid conn s :
  tracked None g s ->
  wp (flom_resource_timestamp_clean uid conn) (fun _ s' =>
    tracked None (g + Z.of_nat (length (holders (s_data s))) -
             Z.of_nat (length (remove_conn conn (holders (s_data s))))) s') s.
Proof.
  intros Ht. unfold flom_resource_timestamp_clean. do 3 wp_step.
  pose proof Ht as ((Hti & Hl & Hm & Hv) & He & Hb).
  destruct (flom_rsrc_conn_find _ _) as [cl|] eqn:Hf.
  - destruct (conn_find_split _ _ _ Hf) as (l1 & l2 & Heq & Hr & _ & _).
    assert (Hlen : length (holders (s_data s)) = S (length (l1 ++ l2))).
    { rewrite Heq, !length_app. cbn. lia. }
    do 3 wp_step. apply wp_timestamp_add_locked; [cbn; unfold in_int32 in *; lia|].
    eapply wp_mono; [|apply wp_timestamp_waitings_tracked].
    + intros [e|u] s' Hs'; [exact Hs'|].
      apply wp_heard; [apply _..|]. intros r s1 Hd1 Hc1. by apply (tracked_frame _ _ s').
    + cbn. apply (tracked_leave None g (remove_conn conn (holders (s_data s))) s); try done.
      * rewrite Hr, Hlen. lia.
      * unfold timestamp_inv. cbn. rewrite Hr. unfold in_int32 in *. split_and!; try done; lia.
  - wp_step. apply conn_find_none in Hf. rewrite remove_conn_none by done.
    apply wp_heard; [apply _..|]. intros r s1 Hd1 Hc1.
    apply (tracked_frame _ _ (put_data (set_waitings (remove_conn conn (waitings (s_data s)))
      (s_data s)) s)); [done..|].
    apply tracked_waitings. eapply tracked_less; [|done]. lia.
Qed.

Lemma wp_timestamp_timeout_tracked g uid s :
  tracked None g s -> wp (flom_resource_timestamp_timeout uid) (fun _ s' => tracked None g s') s.
Proof.
  intros Ht. unfold flom_resource_timestamp_timeout. do 2 wp_step.
  destruct (waitings (s_data s)) as [|x l]; [by wp_step|]. wp_step.
  apply (wp_timestamp_can_lock g); [done | by auto|]. intros r s1 Hd Ht1 Hp.
  wp_step; [|done]. wp_step. eapply wp_mono; [|by apply wp_timestamp_waitings_tracked].
  intros [e|u] s2 Hs2; [done|]. by wp_step.
Qed.
(** What a request is answered is the last timestamp. *)
Definition answered (r : err + unit) (s : st timestamp) : option string :=
  match r with inr _ => answer_element (s_msg s) | inl _ => None end.
Lemma tracked_answered x r g s :
  tracked x g s -> (r = inr tt -> answer_element (s_msg s) = x) ->
  tracked (answered r s) g s.
Proof.
  intros Ht Hx. destruct r as [e|[]]; cbn; [|by rewrite Hx]. destruct x; [by eapply tracked_untold | done].
Qed.

Lemma wp_timestamp_lock_tracked g uid conn s :
  tracked None g s -> wp (timestamp_lock uid conn) (fun r s' => tracked (answered r s') g s') s.
Proof.
  intros Ht. unfold timestamp_lock, timestamp_answer, strcat_newline. wp_step.
  apply (wp_timestamp_can_lock g); [done | by auto|]. intros r s1 Hd1 Ht1 Hp.
  do 3 wp_step. wp_step; [|done]. wp_step.
  apply wp_free_heard. intros [e|[]] s2 Hd2 Hc2 Hm2; cbn beta iota.
  { by apply (tracked_frame _ _ s1). }
  assert (Ht2 : tracked None g s2) by by apply (tracked_frame _ _ s1).
  destruct r; [|wp_step].
  - destruct (Hp eq_refl) as [Ha Hh]. wp_step.
    apply wp_heard; [apply _..|]. intros [e|cl] s3 Hd3 Hc3; cbn beta iota.
    { by apply (tracked_frame _ _ s2). }
    wp_step. apply (wp_timestamp_get g).
    + by apply (tracked_frame _ _ s2).
    + intros E. destruct (Hh E) as (now & Hn). exists now. injection Hc3 as Hc3 _. injection Hc2 as Hc2 _.
      unfold clock in *. by rewrite Hd3, Hd2, Hc3, Hc2.
    + done.
    + intros x t s4 Hd4 Ht4. apply (wp_timestamp_hold (Some x) g); [done| |].
      { rewrite Hd4, Hd3, Hd2, Hd1. exact Ha. }
      intros s5 Ht5 _. wp_step. apply wp_build_heard.
      intros r6 s6 Hd6 Hc6 Hm6. assert (Ht6 : tracked (Some x) g s6) by by apply (tracked_frame _ _ s5).
      destruct r6 as [e|[]]; [by eapply tracked_untold|]. specialize (Hm6 eq_refl).
      do 2 wp_step; [wp_step|by eapply tracked_untold].
      apply wp_vfs_add_heard. intros r s7 Hd7 Hc7 Hm7. apply (tracked_answered (Some x)).
      * by apply (tracked_frame _ _ s6).
      * intros _. by rewrite Hm7.
  - do 3 wp_step.
    apply wp_heard; [apply _..|]. intros [e|cl] s3 Hd3 Hc3; cbn beta iota.
    { by apply (tracked_frame _ _ s2). }
    do 3 wp_step. assert (Ht3 : tracked None g s3) by by apply (tracked_frame _ _ s2).
    apply wp_heard; [apply _..|]. intros [e|[]] s4 Hd4 Hc4; cbn beta iota.
    { eapply tracked_frame; [exact Hd4 | exact Hc4 |]. by apply tracked_waitings. }
    apply wp_build_heard. intros r s5 Hd5 Hc5 Hm5. apply (tracked_answered None); [|done].
    apply (tracked_frame _ _ s4); [done..|].
    eapply tracked_frame; [exact Hd4 | exact Hc4 |]. by apply tracked_waitings.
  - apply wp_build_heard. intros r s3 Hd3 Hc3 Hm3. apply (tracked_answered None); [|done].
    by apply (tracked_frame _ _ s2).
Qed.

(** The holders that a request leaves, those that it may add aside *)
Definition kept_by (conn : conn_ref) (s : st timestamp) (r : err + unit) : list (conn_lock timeval) :=
  match r with
  | inr _ => if msg_verb (s_msg s) =? FLOM_MSG_VERB_UNLOCK then remove_conn conn (holders (s_data s))
             else holders (s_data s)
  | inl _ => holders (s_data s)
  end.
Lemma wp_timestamp_inmsg_tracked g uid conn s :
  tracked None g s ->
  wp (flom_resource_timestamp_inmsg uid conn) (fun r s' =>
    tracked (answered r s') (g + Z.of_nat (length (holders (s_data s))) -
      Z.of_nat (length (kept_by conn s r))) s') s.
Proof.
  intros Ht. unfold flom_resource_timestamp_inmsg. do 3 wp_step; [|wp_step].
  - assert (Hv : (msg_verb (s_msg s) =? FLOM_MSG_VERB_UNLOCK) = false).
    { apply Z.eqb_eq in Heqb0. by rewrite Heqb0. }
    eapply wp_mono; [|by apply (wp_timestamp_lock_tracked g)].
    intros r s' H'. eapply tracked_less; [|exact H']. unfold kept_by. rewrite Hv. destruct r; lia.
  - rename Heqb1 into Hv. assert (Ht0 : tracked None (g + Z.of_nat (length (holders (s_data s))) -
        Z.of_nat (length (holders (s_data s)))) s) by (eapply tracked_less; [|exact Ht]; lia).
    unfold timestamp_unlock. do 3 wp_step. wp_step; [|done].
    do 3 wp_step. wp_step; [wp_step; done|]. wp_step.
    assert (Hle : (length (remove_conn conn (holders (s_data s))) <=
                   length (holders (s_data s)))%nat).
    { apply submseteq_length, remove_conn_submseteq. }
    eapply wp_mono; [|by apply (wp_timestamp_clean_tracked g)].
    intros [e|u] s1 Hs1; [eapply tracked_less; [|exact Hs1]; cbn; lia|].
    apply wp_free_heard. intros r s2 Hd2 Hc2 Hm2. apply (tracked_answered None); [|done].
    apply (tracked_frame _ _ s1); [done..|]. eapply tracked_less; [|exact Hs1]. unfold kept_by.
    destruct r; [lia|]. rewrite Hv. lia.
  - wp_step. cbn. eapply tracked_less; [|exact Ht]. lia.
Qed.
End tracked.

#[export] Instance timestamp_resource_inv :
  ResourceInv timestamp (fun _ _ => True) timestamp_inv.
Proof.
  assert (Hk : forall s, timestamp_inv (s_data s) ->
    tracked false (interval (s_data s)) (Timeval 0 0) "" [] None 0 s).
  { intros s Hi. split_and!; [apply Hi..| done |]. intros [=]. }
  constructor; intros.
  - cbn. unfold flom_resource_timestamp_init, flom_rsrc_get_number. do 2 wp_step.
    destruct (flom_rsrc_get_infix _ _) as [rc|f]; [by wp_step|].
    destruct (flom_rsrc_get_group _ _ _) as [rc|n]; [by wp_step|]. do 2 wp_step.
    wp_step; [by wp_step|]. unfold timestamp_inv. cbn.
    split_and!; try done; try lia; [apply int32_range..|].
    by apply format_interval_valid.
  - eapply wp_mono; [|by apply (wp_timestamp_inmsg_tracked false (interval (s_data s)) (Timeval 0 0) "" [] 0), Hk].
    by intros r s' [? _] _.
  - eapply wp_mono; [|by apply (wp_timestamp_clean_tracked false (interval (s_data s)) (Timeval 0 0) "" [] 0), Hk].
    by intros r s' [? _] _.
  - eapply wp_mono; [|by apply (wp_timestamp_timeout_tracked false (interval (s_data s)) (Timeval 0 0) "" [] 0), Hk].
    by intros r s' [? _] _.
Qed.

Lemma timely_tracked s :
  timestamp_inv (s_data s) -> normal (last_timestamp (s_data s)) ->
  monotone_from (last_timestamp (s_data s)) (clock s) ->
  tracked true (interval (s_data s)) (last_timestamp (s_data s)) (format (s_data s))
    (w_sent (s_world s)) None (- Z.of_nat (length (holders (s_data s)))) s.
Proof.
  intros Hi Hn Hm. split_and!; [apply Hi..| done |]. intros _. split_and!; [done..|].
  exists []. split_and!; [done..| | cbn; lia]. exists [], []. split_and!; [by rewrite app_nil_r | done | done].
Qed.

(** *** The clock's answers, one by one *)
Lemma wp_gettimeofday_next s t (Q : err + option timeval -> st timestamp -> Prop) l :
  clock s = t :: l -> Q (inr t) (put_world (set_clock l (s_world s)) s) ->
  wp (on_world gettimeofday) Q s.
Proof.
  unfold clock. intros E HQ. eapply wp_on_world; [unfold gettimeofday; rewrite E; reflexivity|].
  done.
Qed.

Lemma wp_can_lock_next s t l (Q : err + bool -> st timestamp -> Prop) :
  timestamp_inv (s_data s) -> clock s = Some t :: l ->
  (available (s_data s) <= 0 -> Q (inr false) s) ->
  (0 < available (s_data s) ->
   Q (inr (interval_passed (interval (s_data s)) (last_timestamp (s_data s)) t))
     (put_world (set_clock l (s_world s)) s)) ->
  wp flom_resource_timestamp_can_lock Q s.
Proof.
  intros (Ht & Hl & Hm & _) Hc Hno Hyes. unfold flom_resource_timestamp_can_lock.
  do 3 wp_step. apply wp_c_int; [unfold in_int32 in *; lia|]. unfold available in *.
  destruct (Z.leb_spec (total_quantity (s_data s) - locked_quantity (s_data s)) 0)
    as [Ha|Ha]; [by wp_step; auto|].
  wp_step. eapply wp_gettimeofday_next; [exact Hc|]. do 2 wp_step; [|done].
  injection H1 as <-. wp_step. by apply Hyes.
Qed.

Section lock_answer.
Variables (uid : Z) (conn : conn_ref) (mid : string) (b : body_lock_8).
Let cl : conn_lock timeval := Conn_lock (Timeval 0 0) None 0 conn.

Lemma wp_timestamp_refused s (Q : err + unit -> st timestamp -> Prop) :
  s_msg s = lock_request b -> can_answer (s_world s) conn mid ->
  (forall s', w_sent (s_world s') = w_sent (s_world s) ->
     (if negb (l8_wait b =? 0) then
        s_data s' = set_waitings (waitings (s_data s) ++ [cl]) (s_data s) /\
        s_msg s' = lock_answer mid FLOM_RC_LOCK_ENQUEUED None /\
        s_deadline s' = flom_resource_timestamp_next_deadline (s_data s)
      else s_data s' = s_data s /\ s_msg s' = lock_answer mid FLOM_RC_LOCK_BUSY None /\
           s_deadline s' = s_deadline s) -> Q (inr tt) s') ->
  wp (timestamp_answer uid conn false) Q s.
Proof.
  intros Hm Hc HQ. unfold timestamp_answer. do 3 wp_step. rewrite Hm. wp_step; [|done].
  injection H1 as <-. wp_step. eapply wp_free_lock_request; [exact Hm|].
  destruct (negb (l8_wait b =? 0)); [|by eapply wp_build_lock_answer; [..|apply HQ]].
  do 3 wp_step. eapply wp_conn_lock_new; [exact Hc|]. intros w Hw Hsent. do 3 wp_step.
  apply wp_vfs_add; [by eapply can_answer_known|]. intros t.
  eapply wp_build_lock_answer; [done..|]. by apply HQ.
Qed.

Lemma wp_timestamp_granted t l bt text s (Q : err + unit -> st timestamp -> Prop) :
  timestamp_inv (s_data s) -> available (s_data s) > 0 ->
  s_msg s = lock_request b -> can_answer (s_world s) conn mid ->
  clock s = Some t :: l -> localtime_r (tv_sec t) = Some bt ->
  strftime element_size
    (replace_fractions 6 (micro_seconds (tv_usec t)) (format (s_data s))) bt = Some text ->
  strlen text <= 998 ->
  (forall s', w_sent (s_world s') = w_sent (s_world s) ->
     s_data s' = set_locked (locked_quantity (s_data s) + 1)
       (set_holders (cl :: holders (s_data s)) (set_last t (s_data s))) ->
     s_msg s' = lock_answer mid FLOM_RC_OK (Some text) -> s_deadline s' = s_deadline s ->
     Q (inr tt) s') ->
  wp (timestamp_answer uid conn true) Q s.
Proof.
  intros (Hti & Hl & Hmx & _) Ha Hm Hc Hk Hlt Hsf Hlen HQ.
  unfold timestamp_answer, push_holder, strcat_newline. do 3 wp_step. rewrite Hm.
  wp_step; [|done]. injection H1 as <-. wp_step.
  eapply wp_free_lock_request; [exact Hm|]. wp_step.
  eapply wp_conn_lock_new_clock; [exact Hc|]. intros w Hw Hsent Hck. wp_step.
  unfold flom_resource_timestamp_get. wp_step.
  eapply wp_gettimeofday_next; [unfold clock in *; cbn; by rewrite Hck|].
  do 2 wp_step; [|done]. injection H1 as <-. do 5 wp_step.
  rewrite Hlt. wp_step; [|done]. injection H1 as <-.
  cbn [s_data put_data put_world put_msg set_last format].
  rewrite Hsf. wp_step; [|done]. injection H1 as <-. do 3 wp_step.
  unfold available in Ha. apply wp_timestamp_add_locked; [cbn; unfold in_int32 in *; lia|]. wp_step.
  eapply wp_build_lock_answer; [done..|]. rewrite (proj2 (Z.leb_le _ _)) by (unfold element_size; lia).
  do 2 wp_step. apply wp_vfs_add; [by eapply can_answer_known|]. intros t'. by apply HQ.
Qed.
End lock_answer.
End proofs.


(** ** Theorems *)
Section theorems.
Context `{Glib, Calendar}.

(** safety.  After any history in any world no more clients hold a
    timestamp than the total allows, and the interval is a fraction of a second
    that divides it, a second, a minute or an hour. *)
Theorem timestamp_within_total n d :
  resource_reachable (fun _ _ => True) (n, d) ->
  locked_quantity d = Z.of_nat (length (holders d)) /\
  locked_quantity d <= Z.max 0 (total_quantity d) /\ valid_interval (interval d).
Proof. intros Hr. by apply reachable_inv in Hr as (_ & ? & ? & ?). Qed.

(** the deadline is exact.  With a clock that does not go back, the time
    test of a request succeeds from the deadline computed at the last timestamp
    on, and not before; that is when the interval changes. *)
Theorem timestamp_deadline_exact i t u :
  valid_interval i -> normal t -> normal u -> tv_le t u ->
  (interval_passed i t u = true <-> tv_le (next_deadline i t) u) /\
  (interval_passed i t u = true <-> bucket i t < bucket i u).
Proof.
  intros Hi Ht Hu Hle. rewrite next_deadline_bucket by done.
  by rewrite interval_passed_bucket.
Qed.

(** What a call gives: timestamps [ts] in later and later intervals, the first in a
    later one than the last that was given before, the last being the new
    [last_timestamp]; each message that was sent, and the answer of the request,
    has the text of one of them, in order and none twice; and no more
    clients hold one than were kept and given one. *)
Definition in_new_intervals (s : st timestamp) (kept : list (conn_lock timeval))
    (answer : option string) (s' : st timestamp) : Prop :=
  let d := s_data s in
  let d' := s_data s' in
  interval d' = interval d /\ format d' = format d /\
  monotone_from (last_timestamp d') (clock s') /\
  exists ts, later (interval d) (last_timestamp d) ts /\
    last_from (last_timestamp d) ts = last_timestamp d' /\
    told (format d) (w_sent (s_world s)) answer ts (w_sent (s_world s')) /\
    (length (holders d') <= length kept + length ts)%nat.

(** C10: one timestamp per interval.  When the clock does not go back, the timestamps
    that a call gives, however it ends, are each in a later interval than the one
    before, and than the last one given before the call: each client that is told
    one, by a message or in the answer of its request, is told another of them. *)
Theorem timestamp_one_per_interval uid conn s :
  timestamp_inv (s_data s) -> normal (last_timestamp (s_data s)) ->
  monotone_from (last_timestamp (s_data s)) (clock s) ->
  wp (flom_resource_timestamp_inmsg uid conn) (fun r s' =>
    in_new_intervals s (kept_by conn s r) (answered r s') s') s /\
  wp (flom_resource_timestamp_timeout uid) (fun _ s' =>
    in_new_intervals s (holders (s_data s)) None s') s /\
  wp (flom_resource_timestamp_clean uid conn) (fun _ s' =>
    in_new_intervals s (remove_conn conn (holders (s_data s))) None s') s.
Proof.
  intros Hi Hn Hm. pose proof (timely_tracked _ Hi Hn Hm) as Ht.
  assert (Hend : forall x g l s', tracked true (interval (s_data s)) (last_timestamp (s_data s))
      (format (s_data s)) (w_sent (s_world s)) x g s' -> - Z.of_nat (length l) <= g ->
      in_new_intervals s l x s').
  { intros x g l s' (_ & He & Hb) Hg. destruct (Hb eq_refl) as (Hf & _ & Hm' & ts & ? & ? & ? & ?).
    split_and!; [done..|]. exists ts. split_and!; [done..|lia]. }
  split_and!.
  - eapply wp_mono; [|exact (wp_timestamp_inmsg_tracked _ _ _ _ _ _ uid conn s Ht)].
    intros r s' H'. eapply Hend; [exact H' | lia].
  - eapply wp_mono; [|exact (wp_timestamp_timeout_tracked _ _ _ _ _ _ uid s Ht)].
    intros r s' H'. eapply Hend; [exact H' | lia].
  - eapply wp_mono; [|exact (wp_timestamp_clean_tracked _ _ _ _ _ _ uid conn s Ht)].
    intros r s' H'. eapply Hend; [exact H' | lia].
Qed.

(** a request for a timestamp.  With a slot free and the interval passed,
    the client holds the current time, which becomes the last timestamp, in the
    format of the resource; otherwise a client that waits is queued and the
    next deadline is asked of the locker. *)
Theorem timestamp_lock_answer uid conn mid b t1 t2 l bt text s :
  timestamp_inv (s_data s) -> s_msg s = lock_request b -> can_answer (s_world s) conn mid ->
  clock s = Some t1 :: Some t2 :: l ->
  localtime_r (tv_sec t2) = Some bt ->
  strftime element_size
    (replace_fractions 6 (micro_seconds (tv_usec t2)) (format (s_data s))) bt = Some text ->
  strlen text <= 998 ->
  let cl := Conn_lock (Timeval 0 0) None 0 conn in
  let d := s_data s in
  wp (flom_resource_timestamp_inmsg uid conn) (fun r s' =>
    r = inr tt /\ w_sent (s_world s') = w_sent (s_world s) /\
    if (0 <? available d) && interval_passed (interval d) (last_timestamp d) t1 then
      s_data s' = set_locked (locked_quantity d + 1)
                    (set_holders (cl :: holders d) (set_last t2 d)) /\
      s_msg s' = lock_answer mid FLOM_RC_OK (Some text) /\ s_deadline s' = s_deadline s
    else if negb (l8_wait b =? 0) then
      s_data s' = set_waitings (waitings d ++ [cl]) d /\
      s_msg s' = lock_answer mid FLOM_RC_LOCK_ENQUEUED None /\
      s_deadline s' = next_deadline (interval d) (last_timestamp d)
    else s_data s' = d /\ s_msg s' = lock_answer mid FLOM_RC_LOCK_BUSY None /\
         s_deadline s' = s_deadline s) s.
Proof.
  intros Hi Hm Hc Hk Hlt Hsf Hlen cl d. unfold flom_resource_timestamp_inmsg. do 2 wp_step.
  rewrite Hm. cbn [msg_verb lock_request m_header h_verb Z.eqb FLOM_MSG_VERB_LOCK Pos.eqb].
  unfold timestamp_lock. wp_step. fold d.
  apply (wp_can_lock_next _ t1 (Some t2 :: l)); [done..| |]; fold d;
    intros Ha; [rewrite (proj2 (Z.ltb_ge _ _) Ha) | rewrite (proj2 (Z.ltb_lt _ _) Ha)];
    cbn [andb].
  - eapply wp_timestamp_refused; [done..|]. intros s' Hs Hr. split_and!; done.
  - destruct (interval_passed (interval d) (last_timestamp d) t1).
    + eapply wp_timestamp_granted; try done. by apply Z.lt_gt.
    + eapply wp_timestamp_refused; [done..|]. intros s' Hs Hr. split_and!; done.
Qed.

(** the timeout of the locker.  Nothing happens when nobody waits; when
    the interval has not passed or every slot is taken nothing happens either,
    and the deadline stays the old one. *)
Theorem timestamp_timeout_idle uid t l s :
  timestamp_inv (s_data s) -> clock s = Some t :: l ->
  waitings (s_data s) = [] \/ available (s_data s) <= 0 \/
    interval_passed (interval (s_data s)) (last_timestamp (s_data s)) t = false ->
  wp (flom_resource_timestamp_timeout uid) (fun r s' =>
    r = inr tt /\ s_data s' = s_data s /\ s_deadline s' = s_deadline s /\
    w_sent (s_world s') = w_sent (s_world s)) s.
Proof.
  intros Hi Hc Hq. unfold flom_resource_timestamp_timeout. do 2 wp_step.
  destruct (waitings (s_data s)) as [|x q] eqn:E; [by wp_step|]. wp_step.
  apply (wp_can_lock_next _ t l); [done..| |]; intros Ha.
  - by wp_step.
  - destruct Hq as [Hq|[Hq|Hq]]; [done | lia |]. rewrite Hq. by wp_step.
Qed.

(** when the clock goes back the test of a fraction of a second can
    succeed: an earlier time is given out. *)
Theorem timestamp_clock_back :
  exists i t u, valid_interval i /\ normal t /\ normal u /\ tv_sec u < tv_sec t /\
    interval_passed i t u = true.
Proof.
  exists (Timeval 0 1000), (Timeval 100 0), (Timeval 99 500000).
  split_and!; try done. left. split; [done|]. set_solver.
Qed.
End theorems.

(** ** The theorems at concrete inputs

    A calendar that prints the format as it is. *)
Definition demo_calendar : Calendar :=
  {| tm := Z; localtime_r := Some; strftime := fun _ f _ => Some f |}.
Definition demo_ts_name : string := "_t_%S[1]".
Definition demo_ts_request : flom_msg :=
  lock_request (Lock_8 None (Some demo_ts_name) 0 1 0 1 0).
Definition demo_clock (l : list Z) : world :=
  set_clock (map (fun t => Some (Timeval t 0)) l) demo_world.

Definition demo_ts (locked : list (conn_lock timeval)) (last : Z) : timestamp :=
  Timestamp "%S" (Timeval 1 0) 1 (Z.of_nat (length locked)) (Timeval last 0) locked [].

Lemma timestamp_within_total_witness :
  Z.of_nat (length [demo_cl (Timeval 0 0) 1]) <= 1 /\ valid_interval (Timeval 1 0).
Proof.
  assert (Hr : @resource_reachable _ (@timestamp_resource demo_glib demo_calendar)
    (fun _ _ => True) (Some demo_ts_name, demo_ts [demo_cl (Timeval 0 0) 1] 101)).
  { apply (@reachable_inmsg _ (@timestamp_resource demo_glib demo_calendar) _ 7 1%positive
      demo_ts_request (demo_clock [100; 101]) (Timeval 0 0) (Some demo_ts_name)
      (demo_ts [] 0)); [|done|reflexivity].
    by apply (@reachable_start _ (@timestamp_resource demo_glib demo_calendar) _ demo_ts_name
      (demo_st (demo_ts [] 0) flom_msg_init)). }
  by destruct (@timestamp_within_total demo_glib demo_calendar _ _ Hr) as (_ & H2 & H3).
Defined.

(** Milliseconds, across a second *)
Lemma timestamp_deadline_exact_witness :
  tv_le (next_deadline (Timeval 0 1000) (Timeval 7 999500)) (Timeval 8 0).
Proof.
  refine (proj1 (proj1 (timestamp_deadline_exact (Timeval 0 1000) (Timeval 7 999500)
    (Timeval 8 0) _ _ _ _)) eq_refl); [|done..|left; done].
  left. split; [done|]. by apply (bool_decide_unpack (1000 ∈ [1; 10; 100; 1000; 10000; 100000])).
Defined.

Definition demo_ts_waiting : st timestamp :=
  St (Some demo_ts_name)
    (Timestamp "%S" (Timeval 1 0) 2 1 (Timeval 50 0) [demo_cl (Timeval 0 0) 1]
       [demo_cl (Timeval 0 0) 2])
    flom_msg_init (demo_clock [60; 61; 62]) (Timeval 0 0).

Lemma demo_ts_inv : timestamp_inv (s_data demo_ts_waiting).
Proof. split_and!; try done. right. split; [done|]. apply list_elem_of_here. Qed.

(** The timeout serves the waiting client *)
Lemma timestamp_one_per_interval_witness :
  wp (@flom_resource_timestamp_timeout demo_glib demo_calendar 7) (fun _ s' =>
    @in_new_intervals demo_glib demo_calendar demo_ts_waiting
      (holders (s_data demo_ts_waiting)) None s') demo_ts_waiting.
Proof.
  refine (proj1 (proj2 (@timestamp_one_per_interval demo_glib demo_calendar 7 1%positive
    demo_ts_waiting demo_ts_inv _ _))); [done|].
  repeat split; try done; by left.
Defined.

Lemma timestamp_lock_answer_witness :
  wp (@flom_resource_timestamp_inmsg demo_glib demo_calendar 7 3%positive) (fun r s' =>
    r = inr tt /\ w_sent (s_world s') = [] /\
    s_data s' = Timestamp "%S" (Timeval 1 0) 2 2 (Timeval 61 0)
      [demo_cl (Timeval 0 0) 3; demo_cl (Timeval 0 0) 1] [demo_cl (Timeval 0 0) 2] /\
    s_msg s' = lock_answer demo_mid FLOM_RC_OK (Some "%S"%string) /\
    s_deadline s' = Timeval 0 0) (put_msg demo_ts_request demo_ts_waiting).
Proof.
  refine (@timestamp_lock_answer demo_glib demo_calendar 7 3%positive demo_mid
    (Lock_8 None (Some demo_ts_name) 0 1 0 1 0) (Timeval 60 0) (Timeval 61 0)
    [Some (Timeval 62 0)] 61 "%S"%string (put_msg demo_ts_request demo_ts_waiting)
    demo_ts_inv eq_refl _ eq_refl eq_refl eq_refl _); [|done].
  split; [by eexists | by repeat constructor].
Defined.

(** In the same second as the last timestamp *)
Lemma timestamp_timeout_idle_witness :
  wp (@flom_resource_timestamp_timeout demo_glib demo_calendar 7) (fun r s' =>
    r = inr tt /\ s_data s' = s_data demo_ts_waiting /\ s_deadline s' = Timeval 0 0 /\
    w_sent (s_world s') = [])
    (put_world (set_clock [Some (Timeval 50 900000)] demo_world) demo_ts_waiting).
Proof.
  refine (@timestamp_timeout_idle demo_glib demo_calendar 7 (Timeval 50 900000) []
    (put_world (set_clock [Some (Timeval 50 900000)] demo_world) demo_ts_waiting)
    demo_ts_inv eq_refl _). by right; right.
Defined.
