(* ===== verification/Hier.v ===== *)
(** * Hier: hierarchical resources

    [src/src/flom_resource_hier.c]: a tree of names; a lock on a node is
    checked against the locks of its ancestors and of its descendants. *)
From Stdlib Require Import ZArith String Ascii List Lia Bool.
From stdpp Require Import base list gmap numbers strings.
From S2P Require Import Prelude Types CStr RsrcName Msg MsgXml Vfs World LockMode ConnLock Resource.
Local Open Scope Z_scope.

(** ** Data: [struct flom_rsrc_data_hier_element_s] and
    [struct flom_rsrc_data_hier_s]

    A holder is [None] when its record has been released while the list still
    points to it. *)
Definition holder : Type := option (conn_lock Z).

Inductive hnode : Type := HNode (name : string) (holders : list holder) (leaves : list hnode).

Definition h_name (n : hnode) : string := let 'HNode s _ _ := n in s.
Definition h_holders (n : hnode) : list holder := let 'HNode _ h _ := n in h.
Definition h_leaves (n : hnode) : list hnode := let 'HNode _ _ l := n in l.

Record hier : Type := Hier { root : option hnode; waitings : list (conn_lock Z) }.

Definition set_root (r : option hnode) (d : hier) : hier := Hier r (waitings d).
Definition set_waitings (l : list (conn_lock Z)) (d : hier) : hier := Hier (root d) l.

(** A pointer to a node is the list of the positions to follow from the root. *)
Fixpoint node_at (idx : list nat) (n : hnode) : option hnode :=
  match idx with
  | [] => Some n
  | k :: idx => c ← h_leaves n !! k; node_at idx c
  end.

Fixpoint update_at (idx : list nat) (f : hnode -> hnode) (n : hnode) : hnode :=
  match idx with
  | [] => f n
  | k :: idx => HNode (h_name n) (h_holders n) (alter (update_at idx f) k (h_leaves n))
  end.

Definition set_holders (g : list holder -> list holder) (n : hnode) : hnode :=
  HNode (h_name n) (g (h_holders n)) (h_leaves n).
Definition add_leaf (name : string) (n : hnode) : hnode :=
  HNode (h_name n) (h_holders n) (h_leaves n ++ [HNode name [] []]).

Definition update_root (idx : list nat) (f : hnode -> hnode) (d : hier) : hier :=
  set_root (update_at idx f <$> root d) d.

(** [g_strsplit(name + strlen("/"), "/", 0)]; an empty name has no second byte *)
Definition split_name (name : string) : option (list string) :=
  match name with
  | EmptyString => None
  | String _ t => Some (g_strsplit FLOM_HIER_RESOURCE_SEPARATOR t)
  end.

(** ** [flom_resource_hier_can_lock]

    [None] is undefined: a mode outside the table, a released record. *)
Fixpoint holders_allow (lock : Z) (hs : list holder) : option bool :=
  match hs with
  | [] => Some true
  | h :: hs =>
      cl ← h;
      b ← lock_table_at (cl_info cl) lock;
      if (b : bool) then holders_allow lock hs else Some false
  end.

Definition other_level (level_name : list string) (name : string) : bool :=
  match level_name with
  | l :: _ => negb (String.eqb l name)
  | [] => false
  end.

Fixpoint flom_resource_hier_can_lock (node : hnode) (lock : Z) (level_name : list string)
    : option bool :=
  match node with
  | HNode name hs leaves =>
      if other_level level_name name then Some true
      else
        b ← holders_allow lock hs;
        if (b : bool) then
          (fix scan (ls : list hnode) : option bool :=
             match ls with
             | [] => Some true
             | leaf :: ls =>
                 b ← flom_resource_hier_can_lock leaf lock (tail level_name);
                 if (b : bool) then scan ls else Some false
             end) leaves
        else Some false
  end.

(** ** [flom_resource_hier_add_locker]

    The search for the node, with its two flags; what is left of the name, the
    node reached and [node_is_leaf]. *)
Fixpoint find_leaf (name : option string) (leaves : list hnode) (k : nat)
    : option (nat * hnode) :=
  match leaves with
  | [] => None
  | leaf :: leaves =>
      if bool_decide (name = Some (h_name leaf)) then Some (k, leaf)
      else find_leaf name leaves (S k)
  end.

Fixpoint search_node (level_name : list string) (node : hnode) (idx : list nat)
    (node_is_leaf continue_search : bool) : list string * list nat * bool :=
  match level_name with
  | [] => ([], idx, node_is_leaf)
  | l :: ls =>
      if continue_search && String.eqb l (h_name node) then
        match find_leaf (head ls) (h_leaves node) 0 with
        | Some (k, leaf) => search_node ls leaf (idx ++ [k]) false true
        | None =>
            search_node ls node idx
              (match h_leaves node with [] => true | _ => false end) false
        end
      else (level_name, idx, true)
  end.

Section hier.
Context `{Glib}.

(** The loop that extends the tree, from the node [idx] *)
Fixpoint extend_tree (level_name : list string) (idx : list nat) : Res hier (list nat) :=
  match level_name with
  | [] => mret idx
  | l :: ls =>
      d ← gets s_data;
      node ← of_option Ub (r ← root d; node_at idx r);
      ok ← on_world g_try_malloc;
      if (ok : bool) then
        _ ← modify (fun s => put_data (update_root idx (add_leaf l) (s_data s)) s);
        extend_tree ls (idx ++ [length (h_leaves node)])
      else throw (Rc FLOM_RC_G_TRY_MALLOC_ERROR)
  end.

Definition flom_resource_hier_add_locker (cl : conn_lock Z) (splitted_name : list string)
    : Res hier (list nat) :=
  d ← gets s_data;
  r ← of_option Ub (root d);
  let '(level_name, node, node_is_leaf) := search_node splitted_name r [] true true in
  node ← match level_name with
         | [] => mret node
         | _ :: _ => if node_is_leaf then extend_tree level_name node
                     else throw (Rc FLOM_RC_INTERNAL_ERROR)
         end;
  _ ← modify (fun s => put_data (update_root node (set_holders (cons (Some cl))) (s_data s)) s);
  mret node.

Definition hier_can_lock (lock : Z) (level_name : list string) : Res hier bool :=
  d ← gets s_data;
  of_option Ub (r ← root d; flom_resource_hier_can_lock r lock level_name).

(** ** [flom_resource_hier_init] *)
Definition starts_with_separator (name : string) : bool :=
  match name with
  | String c _ => Ascii.eqb c FLOM_HIER_RESOURCE_SEPARATOR
  | EmptyString => false
  end.

Definition flom_resource_hier_init (name : string) : Res hier unit :=
  _ ← when (negb (starts_with_separator name)) (throw (Rc FLOM_RC_INVALID_RESOURCE_NAME));
  _ ← modify (put_name (Some name));
  _ ← modify (put_data (Hier None []));
  splitted_name ← of_option Ub (split_name name);
  match splitted_name with
  | [] => mret tt
  | l :: ls =>
      ok ← on_world g_try_malloc;
      if (ok : bool) then
        _ ← modify (put_data (Hier (Some (HNode l [] [])) []));
        _ ← extend_tree ls [];
        mret tt
      else throw (Rc FLOM_RC_G_TRY_MALLOC_ERROR)
  end.

(** ** [flom_resource_hier_waitings] *)
Definition hier_try (cl : conn_lock Z) : Res hier (option (list string)) :=
  n ← of_option Ub (cl_name cl);
  splitted_name ← of_option Ub (split_name n);
  b ← hier_can_lock (cl_info cl) splitted_name;
  mret (if (b : bool) then Some splitted_name else None).

(** The [CATCH] releases the record of the request, which the tree keeps. *)
Definition release_head (hs : list holder) : list holder := None :: tail hs.

Definition hier_grant (splitted_name : list string) (cl : conn_lock Z) : Res hier unit :=
  node ← flom_resource_hier_add_locker cl splitted_name;
  _ ← on_error (on_world (notify_granted (cl_conn cl) None))
        (fun s => put_data (update_root node (set_holders release_head) (s_data s)) s);
  vfs_move_locker_conn (cl_conn cl).

Definition flom_resource_hier_waitings : Res hier unit :=
  scan_waitings waitings set_waitings hier_try hier_grant.

(** ** [flom_resource_hier_gc] *)
Definition is_garbage (n : hnode) : bool :=
  match h_leaves n, h_holders n with
  | [], [] => true
  | _, _ => false
  end.

Fixpoint flom_resource_hier_gc (n : hnode) : hnode :=
  match n with
  | HNode name hs leaves =>
      HNode name hs
        (List.filter (fun c => negb (is_garbage c)) (map flom_resource_hier_gc leaves))
  end.

(** ** [flom_resource_hier_clean]

    The search for the node of the name of the resource; it stops where the
    next level has no node, and after the last level. *)
Fixpoint locate_node (level_name : list string) (node : hnode) (idx : list nat) : list nat :=
  match level_name with
  | [] => idx
  | l :: ls =>
      if String.eqb l (h_name node) then
        match find_leaf (head ls) (h_leaves node) 0 with
        | Some (k, leaf) => locate_node ls leaf (idx ++ [k])
        | None => idx
        end
      else locate_node ls node idx
  end.

(** The position of a connection in a list of holders, when it has one *)
Fixpoint find_holder (conn : conn_ref) (hs : list holder) : option (option nat) :=
  match hs with
  | [] => Some None
  | h :: hs =>
      cl ← h;
      if has_conn conn cl then Some (Some 0%nat)
      else match find_holder conn hs with
           | Some k => Some (S <$> k)
           | None => None
           end
  end.

Definition flom_resource_hier_clean (locker_uid : Z) (conn : conn_ref) : Res hier unit :=
  n ← gets s_name;
  name ← of_option Ub n;
  splitted_name ← of_option Ub (split_name name);
  d ← gets s_data;
  r ← of_option Ub (root d);
  let node := locate_node splitted_name r [] in
  k ← of_option Ub (nd ← node_at node r; find_holder conn (h_holders nd));
  _ ← match k with
      | Some k =>
          _ ← modify (put_data (update_root node (set_holders (delete k)) d));
          flom_resource_hier_waitings
      | None => modify (put_data (set_waitings (remove_conn conn (waitings d)) d))
      end;
  _ ← vfs_del_conn conn;
  modify (fun s => put_data (set_root (flom_resource_hier_gc <$> root (s_data s)) (s_data s)) s).

(** ** [flom_resource_hier_compare_name] *)
Definition flom_resource_hier_compare_name (name : option string) : Res hier bool :=
  n ← of_option Ub name;
  if negb (starts_with_separator n) then mret false
  else
    d ← gets s_data;
    r ← of_option Ub (root d);
    splitted_name ← of_option Ub (split_name n);
    mret (bool_decide (head splitted_name = Some (h_name r))).

(** ** [flom_resource_hier_change_name] *)
Definition flom_resource_hier_change_name (name : option string) : Res hier unit :=
  modify (put_name name).

(** ** [flom_resource_hier_inmsg] *)
Definition hier_lock (locker_uid : Z) (conn : conn_ref) : Res hier unit :=
  m ← gets s_msg;
  b ← of_option Ub (get_lock_8 (m_body m));
  let new_lock := l8_mode b in
  let can_wait := negb (l8_wait b =? 0) in
  resource_name ← of_option Ub (l8_name b);
  splitted_name ← of_option Ub (split_name resource_name);
  _ ← free_and_init_msg;
  can_lock ← hier_can_lock new_lock splitted_name;
  if (can_lock : bool) then
    cl ← on_world (flom_rsrc_conn_lock_new new_lock conn);
    _ ← flom_resource_hier_add_locker cl splitted_name;
    _ ← vfs_add_locker_conn locker_uid conn true new_lock None None None;
    build_lock_answer conn FLOM_RC_OK None
  else if can_wait then
    cl ← on_world (flom_rsrc_conn_lock_new new_lock conn);
    let cl := Conn_lock new_lock (Some resource_name) (cl_rollback cl) conn in
    _ ← modify (fun s => put_data (set_waitings (waitings (s_data s) ++ [cl]) (s_data s)) s);
    _ ← vfs_add_locker_conn locker_uid conn false new_lock None None None;
    build_lock_answer conn FLOM_RC_LOCK_ENQUEUED None
  else build_lock_answer conn FLOM_RC_LOCK_BUSY None.

Definition hier_unlock (locker_uid : Z) (conn : conn_ref) : Res hier unit :=
  m ← gets s_msg;
  b ← of_option Ub (get_unlock_8 (m_body m));
  same ← flom_resource_hier_compare_name b.1;
  _ ← when (negb same) (throw (Rc FLOM_RC_INVALID_RESOURCE_NAME));
  _ ← flom_resource_hier_change_name b.1;
  _ ← flom_resource_hier_clean locker_uid conn;
  free_and_init_msg.

Definition flom_resource_hier_inmsg (locker_uid : Z) (conn : conn_ref) : Res hier unit :=
  m ← gets s_msg;
  if msg_verb m =? FLOM_MSG_VERB_LOCK then hier_lock locker_uid conn
  else if msg_verb m =? FLOM_MSG_VERB_UNLOCK then hier_unlock locker_uid conn
  else throw (Rc FLOM_RC_PROTOCOL_ERROR).

(** ** [flom_resource_hier_free], with [flom_resource_hier_free_element] *)
Definition flom_resource_hier_free : Res hier unit :=
  _ ← modify (put_data (Hier None []));
  modify (put_name None).

#[export] Instance hier_resource : Resource hier := {
  res_init := flom_resource_hier_init;
  res_inmsg := flom_resource_hier_inmsg;
  res_clean := flom_resource_hier_clean;
  res_free := flom_resource_hier_free;
  res_timeout := flom_resource_timeout;
  res_compare_name := flom_resource_hier_compare_name
}.
End hier.

(** ** Specification

    The locks of a tree: the names from the root to the node, and the holder. *)
Definition below (name : string) (l : list string * holder) : list string * holder :=
  (name :: l.1, l.2).

Fixpoint hlocks (n : hnode) : list (list string * holder) :=
  match n with
  | HNode name hs leaves =>
      map (fun h => ([name], h)) hs ++ flat_map (fun c => map (below name) (hlocks c)) leaves
  end.

(** One path is the other's ancestor, or they are equal *)
Fixpoint related (p q : list string) : bool :=
  match p, q with
  | a :: p, b :: q => String.eqb a b && related p q
  | _, _ => true
  end.

(** The lock of a related node is there and does not exclude the mode *)
Definition allowed (lock : Z) (path : list string) (l : list string * holder) : Prop :=
  related l.1 path = true ->
  exists cl, l.2 = Some cl /\ lock_table_at (cl_info cl) lock = Some true.

Definition valid_cl (x : conn_lock Z) : Prop := valid_mode (cl_info x).

Definition valid_lock (l : list string * holder) : Prop :=
  match l.2 with Some cl => valid_cl cl | None => True end.

Definition compat_locks (x y : list string * holder) : Prop :=
  match x.2, y.2 with
  | Some a, Some b => related x.1 y.1 = true -> compatible (cl_info a) (cl_info b) = true
  | _, _ => True
  end.

(** A name of the tree with the given root *)
Definition name_in (rt : string) (n : option string) (path : list string) : Prop :=
  exists s, n = Some s /\ split_name s = Some path /\ head path = Some rt.

Definition valid_waiting (rt : string) (x : conn_lock Z) : Prop :=
  valid_cl x /\ exists path, name_in rt (cl_name x) path.

(** The live locks of related nodes are compatible two by two *)
Definition good_tree (r : hnode) : Prop :=
  Forall valid_lock (hlocks r) /\ ForallOrdPairs compat_locks (hlocks r).

Definition hier_inv (d : hier) : Prop :=
  match root d with
  | None => True
  | Some r => good_tree r /\ Forall (valid_waiting (h_name r)) (waitings d)
  end.

(** A lock request with one of the six modes, for a name of this tree *)
Definition hier_request_ok (d : hier) (m : flom_msg) : Prop :=
  forall b, msg_verb m = FLOM_MSG_VERB_LOCK -> get_lock_8 (m_body m) = Some b ->
    valid_mode (l8_mode b) /\
    forall r, root d = Some r -> exists path, name_in (h_name r) (l8_name b) path.

(** Every leaf below the root holds a lock *)
Fixpoint tidy (n : hnode) : bool :=
  match n with
  | HNode _ _ leaves => forallb (fun c => negb (is_garbage c) && tidy c) leaves
  end.

(** ** Lemmas on the tree *)
Section hnode_ind.
Variable P : hnode -> Prop.
Hypothesis step : forall name hs leaves, Forall P leaves -> P (HNode name hs leaves).

Fixpoint hnode_nested_ind (n : hnode) : P n :=
  match n with
  | HNode name hs leaves =>
      step name hs leaves
        ((fix all (l : list hnode) : Forall P l :=
            match l with
            | [] => List.Forall_nil P
            | c :: l => List.Forall_cons P c l (hnode_nested_ind c) (all l)
            end) leaves)
  end.
End hnode_ind.

Lemma related_sym p : forall q, related p q = related q p.
Proof.
  induction p as [|a p IH]; intros [|b q]; cbn; try done. by rewrite String.eqb_sym, IH.
Qed.

Lemma compat_locks_sym x y : compat_locks x y -> compat_locks y x.
Proof.
  unfold compat_locks. destruct (x.2) as [a|], (y.2) as [b|]; try done.
  by rewrite related_sym, compatible_sym.
Qed.

Lemma and_then_true (o k : option bool) :
  (b ← o; if (b : bool) then k else Some false) = Some true <-> o = Some true /\ k = Some true.
Proof. destruct o as [[]|]; cbn; split; intros H; try done; by destruct H. Qed.

Lemma holders_allow_spec lock hs :
  holders_allow lock hs = Some true <->
  Forall (fun h => exists cl, h = Some cl /\ lock_table_at (cl_info cl) lock = Some true) hs.
Proof.
  induction hs as [|h hs IH]; cbn; [split; [constructor | done]|].
  rewrite Forall_cons, <- IH. destruct h as [cl|]; cbn.
  - destruct (lock_table_at (cl_info cl) lock) as [[]|] eqn:E; cbn.
    + split; [intros Hh; split; [by exists cl | done] | by intros [_ ?]].
    + split; [done|]. intros [(c & [= <-] & Hc) _]. congruence.
    + split; [done|]. intros [(c & [= <-] & Hc) _]. congruence.
  - split; [done|]. by intros [(c & [=] & _) _].
Qed.

(** The recursive check is the one over all related locks *)
Lemma can_lock_spec n : forall lock path,
  flom_resource_hier_can_lock n lock path = Some true <->
  Forall (allowed lock path) (hlocks n).
Proof.
  induction n as [name hs leaves IH] using hnode_nested_ind. intros lock path. cbn.
  destruct (other_level path name) eqn:Eo.
  - split; [intros _ | done]. destruct path as [|l q]; [done|]. cbn in Eo.
    apply Forall_app. rewrite !Forall_forall. split.
    + intros x Hx. apply list_elem_of_In, in_map_iff in Hx as (h & <- & _).
      unfold allowed. cbn. rewrite String.eqb_sym, (proj1 (negb_true_iff _) Eo). done.
    + intros x Hx. apply list_elem_of_In, in_flat_map in Hx as (c & _ & Hx).
      apply in_map_iff in Hx as (y & <- & _).
      unfold allowed. cbn. rewrite String.eqb_sym, (proj1 (negb_true_iff _) Eo). done.
  - assert (Hrel : forall p, related (name :: p) path = related p (tail path)).
    { intros p. destruct path as [|l q]; cbn; [by destruct p|]. cbn in Eo.
      rewrite String.eqb_sym, (proj1 (negb_false_iff _) Eo). done. }
    assert (Hhs : holders_allow lock hs = Some true <->
                  Forall (allowed lock path) (map (fun h => ([name], h)) hs)).
    { rewrite holders_allow_spec, Forall_map. apply Forall_iff. intros h. unfold allowed.
      cbn [fst snd]. rewrite Hrel. split; [done | by auto]. }
    assert (Hls : forall ls, Forall (fun n => forall lock path,
          flom_resource_hier_can_lock n lock path = Some true <->
          Forall (allowed lock path) (hlocks n)) ls ->
        (fix scan (ls : list hnode) : option bool :=
           match ls with
           | [] => Some true
           | leaf :: ls =>
               b ← flom_resource_hier_can_lock leaf lock (tail path);
               if (b : bool) then scan ls else Some false
           end) ls = Some true <->
        Forall (allowed lock path) (flat_map (fun c => map (below name) (hlocks c)) ls)).
    { induction 1 as [|c ls Hc _ IHl]; cbn; [split; [constructor | done]|].
      rewrite Forall_app, <- IHl, Forall_map.
      assert (Hcc : Forall (allowed lock path ∘ below name) (hlocks c) <->
                    flom_resource_hier_can_lock c lock (tail path) = Some true).
      { rewrite Hc. apply Forall_iff. intros x. unfold allowed.
        cbn [fst snd below compose]. by rewrite Hrel. }
      rewrite Hcc. apply and_then_true. }
    rewrite Forall_app, <- Hhs, <- (Hls _ IH). apply and_then_true.
Qed.

(** With no released record and valid modes the check always answers *)
Definition all_live (r : hnode) : Prop := Forall (fun l => is_Some (l.2)) (hlocks r).

Lemma can_lock_total n : forall lock path,
  valid_mode lock -> Forall valid_lock (hlocks n) -> all_live n ->
  is_Some (flom_resource_hier_can_lock n lock path).
Proof.
  unfold all_live. induction n as [name hs leaves IH] using hnode_nested_ind.
  intros lock path Hm Hv Hl. cbn in *.
  destruct (other_level path name); [by eexists|].
  apply Forall_app in Hv as [Hv1 Hv2], Hl as [Hl1 Hl2].
  assert (Hhs : is_Some (holders_allow lock hs)).
  { clear - Hm Hv1 Hl1. induction hs as [|[cl|] hs IHh]; cbn in *; [by eexists| |].
    - apply Forall_cons in Hv1 as [Hc Hv1], Hl1 as [_ Hl1].
      rewrite lock_table_compatible by done. cbn.
      destruct (compatible _ _); [auto | by eexists].
    - apply Forall_cons in Hl1 as [[? [=]] _]. }
  destruct Hhs as [[] ->]; cbn; [|by eexists].
  induction IH as [|c ls Hc _ IHl]; cbn in *; [by eexists|].
  apply Forall_app in Hv2 as [Hvc Hv2], Hl2 as [Hlc Hl2]. rewrite Forall_map in Hvc, Hlc.
  destruct (Hc lock (tail path) Hm Hvc Hlc) as [[] ->]; cbn; [auto | by eexists].
Qed.

(** *** Changing one node *)
Fixpoint prefix_at (idx : list nat) (n : hnode) : list string :=
  match idx with
  | [] => []
  | k :: idx =>
      h_name n :: match h_leaves n !! k with Some c => prefix_at idx c | None => [] end
  end.

(** The names from the root to a node *)
Definition path_at (idx : list nat) (n nd : hnode) : list string :=
  prefix_at idx n ++ [h_name nd].

Definition under (pre : list string) (l : list string * holder) : list string * holder :=
  (pre ++ l.1, l.2).

Lemma map_under_nil l : map (under []) l = l.
Proof. induction l as [|[p h] l IH]; cbn; [done|]. by rewrite IH. Qed.

Lemma map_below_under name pre l :
  map (below name) (map (under pre) l) = map (under (name :: pre)) l.
Proof. by rewrite map_map. Qed.

Lemma h_name_update idx f n :
  (forall nd, h_name (f nd) = h_name nd) -> h_name (update_at idx f n) = h_name n.
Proof. intros Hf. destruct idx; cbn; [apply Hf | done]. Qed.

Lemma update_at_locks idx : forall n nd,
  node_at idx n = Some nd ->
  exists rest, hlocks n ≡ₚ map (under (prefix_at idx n)) (hlocks nd) ++ rest /\
    forall f, hlocks (update_at idx f n) ≡ₚ
      map (under (prefix_at idx n)) (hlocks (f nd)) ++ rest.
Proof.
  induction idx as [|k idx IH]; intros n nd; cbn.
  - intros [= ->]. exists []. split; [|intros f]; by rewrite map_under_nil, app_nil_r.
  - destruct n as [name hs leaves]. cbn. destruct (leaves !! k) as [c|] eqn:Ek; [|done].
    intros Hn. destruct (IH c nd Hn) as (rest & Hr & Hu).
    destruct (alter_split _ _ _ Ek) as (l1 & l2 & -> & Ha).
    exists (map (fun h => ([name], h)) hs ++
            flat_map (fun c => map (below name) (hlocks c)) l1 ++
            map (below name) rest ++
            flat_map (fun c => map (below name) (hlocks c)) l2).
    assert (Hgen : forall x y, hlocks x ≡ₚ map (under (prefix_at idx c)) y ++ rest ->
      map (fun h => ([name], h)) hs ++
        flat_map (fun c => map (below name) (hlocks c)) (l1 ++ x :: l2) ≡ₚ
      map (under (name :: prefix_at idx c)) y ++
        map (fun h => ([name], h)) hs ++
        flat_map (fun c => map (below name) (hlocks c)) l1 ++
        map (below name) rest ++ flat_map (fun c => map (below name) (hlocks c)) l2).
    { intros x y Hx. rewrite flat_map_app. cbn. rewrite Hx, map_app, map_below_under.
      rewrite <- !app_assoc. rewrite !(Permutation_app_swap_app _ (map (under _) y)).
      done. }
    split; [by apply Hgen|]. intros f. rewrite Ha. by apply Hgen.
Qed.

Lemma node_at_app idx k : forall n nd c,
  node_at idx n = Some nd -> h_leaves nd !! k = Some c -> node_at (idx ++ [k]) n = Some c.
Proof.
  induction idx as [|j idx IH]; intros n nd c; cbn.
  - intros [= ->] Hk. by rewrite Hk.
  - destruct (h_leaves n !! j) as [x|]; [|done]. cbn. eauto.
Qed.

Lemma prefix_at_app idx k : forall n nd,
  node_at idx n = Some nd -> prefix_at (idx ++ [k]) n = path_at idx n nd.
Proof.
  unfold path_at. induction idx as [|j idx IH]; intros n nd; cbn.
  - intros [= ->]. by destruct (h_leaves nd !! k).
  - destruct (h_leaves n !! j) as [x|]; [|done]. cbn. intros Hn. f_equal. eauto.
Qed.

Lemma node_at_update idx f : forall n nd,
  node_at idx n = Some nd -> node_at idx (update_at idx f n) = Some (f nd).
Proof.
  induction idx as [|k idx IH]; intros n nd; cbn; [by intros [= ->]|].
  destruct (h_leaves n !! k) as [c|] eqn:Ek; [|done]. cbn. intros Hn.
  rewrite list_lookup_alter_eq, Ek. cbn. eauto.
Qed.

Lemma prefix_at_update idx f : forall n,
  prefix_at idx (update_at idx f n) = prefix_at idx n \/ idx = [].
Proof.
  induction idx as [|k idx IH]; intros n; [by right|]. left. cbn. f_equal.
  rewrite list_lookup_alter_eq. destruct (h_leaves n !! k) as [c|]; [|done]. cbn.
  destruct (IH c) as [->| ->]; done.
Qed.

(** *** The search of a name *)
Lemma find_leaf_spec nm leaves : forall k j c,
  find_leaf nm leaves k = Some (j, c) ->
  nm = Some (h_name c) /\ exists i, j = (k + i)%nat /\ leaves !! i = Some c.
Proof.
  induction leaves as [|x leaves IH]; intros k j c; cbn; [done|].
  case_bool_decide as E.
  - intros [= <- <-]. split; [done|]. exists 0%nat. split; [lia | done].
  - intros Hf. destruct (IH _ _ _ Hf) as (Hn & i & -> & Hi). split; [done|].
    exists (S i). split; [lia | done].
Qed.

Lemma search_node_eq ls n idx fl :
  search_node (h_name n :: ls) n idx fl true =
    match find_leaf (head ls) (h_leaves n) 0 with
    | Some (k, leaf) => search_node ls leaf (idx ++ [k]) false true
    | None =>
        search_node ls n idx (match h_leaves n with [] => true | _ => false end) false
    end.
Proof. cbn. by rewrite String.eqb_refl. Qed.

Lemma search_node_spec ls : forall n idx0 fl,
  exists rest idx nd fl', search_node (h_name n :: ls) n idx0 fl true = (rest, idx0 ++ idx, fl') /\
    node_at idx n = Some nd /\ path_at idx n nd ++ rest = h_name n :: ls /\
    (rest <> [] -> fl' = true).
Proof.
  induction ls as [|l ls IH]; intros n idx0 fl; rewrite search_node_eq; cbn [head].
  - destruct (find_leaf None (h_leaves n) 0) as [[k leaf]|] eqn:E.
    { by apply find_leaf_spec in E as [? _]. }
    exists [], [], n. eexists. rewrite app_nil_r. split_and!; done.
  - destruct (find_leaf (Some l) (h_leaves n) 0) as [[k leaf]|] eqn:E.
    + apply find_leaf_spec in E as ([= ->] & i & -> & Hi). cbn [Nat.add].
      destruct (IH leaf (idx0 ++ [i]) false) as (rest & idx & nd & fl' & Hs & Hn & Hp & Hr).
      exists rest, (i :: idx), nd, fl'. rewrite Hs, <- app_assoc. unfold path_at in *. cbn.
      rewrite Hi. cbn. rewrite Hp. done.
    + exists (l :: ls), [], n, true. rewrite app_nil_r.
      by split_and!.
Qed.

(** *** What happens to the locks *)
Lemma good_tree_perm r r' : hlocks r' ≡ₚ hlocks r -> good_tree r -> good_tree r'.
Proof.
  intros Hp [Hv Hc]. split; [by rewrite Hp|].
  eapply ForallOrdPairs_Permutation; [exact compat_locks_sym | symmetry; exact Hp | done].
Qed.

Lemma good_tree_cons x r r' :
  hlocks r' ≡ₚ x :: hlocks r -> valid_lock x -> Forall (compat_locks x) (hlocks r) ->
  good_tree r -> good_tree r'.
Proof.
  intros Hp Hx Hxc [Hv Hc]. split; [rewrite Hp; by constructor|].
  eapply ForallOrdPairs_Permutation; [exact compat_locks_sym | symmetry; exact Hp |].
  by constructor.
Qed.

Lemma good_tree_add path cl r r' :
  hlocks r' ≡ₚ (path, Some cl) :: hlocks r -> valid_cl cl ->
  flom_resource_hier_can_lock r (cl_info cl) path = Some true ->
  good_tree r -> good_tree r'.
Proof.
  intros Hp Hv Hc Hg. eapply good_tree_cons; [done..| |done].
  apply can_lock_spec in Hc. rewrite Forall_forall in Hc |- *. intros [p h] Hin.
  unfold compat_locks. cbn. destruct h as [a|]; [|done]. intros Hrel.
  rewrite related_sym in Hrel. destruct (Hc _ Hin Hrel) as (b & [= <-] & Hb).
  destruct Hg as [Hval _]. rewrite Forall_forall in Hval. specialize (Hval _ Hin).
  unfold valid_lock, valid_cl in *. cbn in Hval.
  rewrite lock_table_compatible in Hb by done. rewrite compatible_sym. congruence.
Qed.

Lemma good_tree_released path r r' :
  hlocks r' ≡ₚ (path, None) :: hlocks r -> good_tree r -> good_tree r'.
Proof.
  intros Hp Hg. eapply good_tree_cons; [done|done| |done]. apply Forall_true. done.
Qed.

Lemma good_tree_remove x r r' :
  hlocks r ≡ₚ x :: hlocks r' -> good_tree r -> good_tree r'.
Proof.
  intros Hp [Hv Hc]. rewrite Hp in Hv. apply Forall_cons in Hv as [_ Hv]. split; [done|].
  pose proof (ForallOrdPairs_Permutation _ _ _ compat_locks_sym Hp Hc) as Hc'.
  by inversion Hc'.
Qed.

Lemma gc_locks n : hlocks (flom_resource_hier_gc n) = hlocks n.
Proof.
  induction n as [name hs leaves IH] using hnode_nested_ind. cbn. f_equal.
  induction IH as [|c leaves Hc _ IHl]; [done|]. cbn.
  destruct (is_garbage (flom_resource_hier_gc c)) eqn:E; cbn; rewrite IHl.
  - rewrite <- Hc. unfold is_garbage in E. destruct (flom_resource_hier_gc c) as [nm h l].
    cbn in E. by destruct l, h.
  - by rewrite Hc.
Qed.

Lemma gc_name n : h_name (flom_resource_hier_gc n) = h_name n.
Proof. by destruct n. Qed.

Lemma gc_tidy n : tidy (flom_resource_hier_gc n) = true.
Proof.
  induction n as [name hs leaves IH] using hnode_nested_ind. cbn. rewrite forallb_forall.
  intros c Hc. apply filter_In in Hc as [Hin Hg]. rewrite Hg. cbn.
  apply in_map_iff in Hin as (d & <- & Hd). rewrite List.Forall_forall in IH. auto.
Qed.

Lemma find_holder_spec conn hs : forall k,
  find_holder conn hs = Some (Some k) ->
  exists cl, hs !! k = Some (Some cl) /\ cl_conn cl = conn.
Proof.
  induction hs as [|[cl|] hs IH]; intros k; cbn; [done| |done].
  unfold has_conn. case_bool_decide as E.
  - intros [= <-]. by exists cl.
  - destruct (find_holder conn hs) as [[j|]|]; cbn; [|done..]. intros [= <-]. cbn.
    by apply IH.
Qed.

(** The holder found leaves the tree *)
Lemma remove_holder_locks idx r nd k conn :
  node_at idx r = Some nd -> find_holder conn (h_holders nd) = Some (Some k) ->
  exists cl, cl_conn cl = conn /\
    hlocks r ≡ₚ (path_at idx r nd, Some cl) ::
                hlocks (update_at idx (set_holders (delete k)) r).
Proof.
  intros Hn Hf. destruct (find_holder_spec _ _ _ Hf) as (cl & Hk & Hc).
  exists cl. split; [done|]. destruct (update_at_locks _ _ _ Hn) as (rest & Hr & Hu).
  rewrite Hr, Hu. destruct nd as [nm hs lv]. cbn in *.
  apply delete_Permutation in Hk.
  rewrite (Permutation_map (fun h => ([nm], h)) Hk). done.
Qed.

(** ** The programs *)
Section proofs.
Context `{Glib}.

(** What allocations do to the world *)
Definition alloc (w w' : world) : Prop :=
  exists l1 l2, w_mallocs w = l1 ++ l2 /\ w' = set_mallocs l2 w.

Lemma alloc_refl w : alloc w w.
Proof. exists [], (w_mallocs w). split; [done|]. by destruct w. Qed.

Lemma alloc_trans w1 w2 w3 : alloc w1 w2 -> alloc w2 w3 -> alloc w1 w3.
Proof.
  intros (a & b & Hab & ->) (c & e & Hce & ->). cbn in Hce. exists (a ++ c), e.
  split; [by rewrite <- app_assoc, <- Hce | done].
Qed.

Lemma alloc_can_answer w w' conn mid :
  alloc w w' -> can_answer w conn mid -> can_answer w' conn mid.
Proof.
  intros (a & b & Hab & ->) (Ho & Hm & Ha). split_and!; [done..|]. cbn.
  rewrite Hab in Ha. by apply Forall_app in Ha as [_ ?].
Qed.

Lemma alloc_mallocs w w' :
  alloc w w' -> Forall (eq true) (w_mallocs w) -> Forall (eq true) (w_mallocs w').
Proof.
  intros (a & b & Hab & ->) Ha. rewrite Hab in Ha. by apply Forall_app in Ha as [_ ?].
Qed.

Lemma alloc_sent w w' : alloc w w' -> w_sent w' = w_sent w /\ w_sends w' = w_sends w /\
  w_conns w' = w_conns w.
Proof. by intros (a & b & _ & ->). Qed.

Lemma wp_try_malloc s (Q : err + bool -> st hier -> Prop) :
  (forall b w', alloc (s_world s) w' ->
     (b = false -> ~ Forall (eq true) (w_mallocs (s_world s))) ->
     Q (inr b) (put_world w' s)) ->
  wp (on_world g_try_malloc) Q s.
Proof.
  intros HQ. destruct (w_mallocs (s_world s)) as [|b l] eqn:E;
    (eapply wp_on_world; [unfold g_try_malloc; rewrite E; reflexivity|]).
  - apply HQ; [apply alloc_refl | done].
  - apply HQ; [by exists [b], l|]. intros -> Hf. by inversion Hf.
Qed.

(** The state with another tree and fewer allocations to come *)
Definition with_tree (r : hnode) (w : world) (s : st hier) : st hier :=
  put_world w (put_data (set_root (Some r) (s_data s)) s).

Lemma with_tree_same r s : root (s_data s) = Some r -> with_tree r (s_world s) s = s.
Proof. destruct s as [n [rt w] m wd dl]. cbn. by intros ->. Qed.

Lemma wp_extend_tree ls : forall idx s r nd (Q : err + list nat -> st hier -> Prop),
  root (s_data s) = Some r -> node_at idx r = Some nd ->
  (forall e r' w, alloc (s_world s) w -> ~ Forall (eq true) (w_mallocs (s_world s)) ->
     hlocks r' ≡ₚ hlocks r -> h_name r' = h_name r ->
     Q (inl e) (with_tree r' w s)) ->
  (forall idx' r' w nd', alloc (s_world s) w ->
     hlocks r' ≡ₚ hlocks r -> h_name r' = h_name r ->
     node_at idx' r' = Some nd' -> path_at idx' r' nd' = path_at idx r nd ++ ls ->
     Q (inr idx') (with_tree r' w s)) ->
  wp (extend_tree ls idx) Q s.
Proof.
  induction ls as [|l ls IH]; intros idx s r nd Q Hr Hn He HQ; cbn [extend_tree].
  - wp_step. rewrite <- (with_tree_same r s) by done. eapply HQ; eauto using alloc_refl.
    by rewrite app_nil_r.
  - do 3 wp_step. rewrite Hr. cbn [mbind option_bind]. rewrite Hn.
    wp_step; [|done]. injection H0 as <-. wp_step. apply wp_try_malloc.
    intros b w Hw Hb. destruct b.
    + do 2 wp_step. pose (r1 := update_at idx (add_leaf l) r).
      assert (Hl1 : hlocks r1 ≡ₚ hlocks r).
      { destruct (update_at_locks _ _ _ Hn) as (rest & Hrest & Hu). unfold r1.
        rewrite Hu, Hrest. destruct nd as [nm hs leaves]. cbn.
        rewrite flat_map_app. cbn. by rewrite app_nil_r. }
      assert (Hn1 : node_at idx r1 = Some (add_leaf l nd)) by by apply node_at_update.
      assert (Hc1 : h_leaves (add_leaf l nd) !! length (h_leaves nd) = Some (HNode l [] [])).
      { cbn. by rewrite lookup_app_r, Nat.sub_diag by done. }
      assert (Hp1 : path_at idx r1 (add_leaf l nd) = path_at idx r nd).
      { unfold path_at, r1. destruct (prefix_at_update idx (add_leaf l) r) as [->| ->]; done. }
      assert (Hnm : h_name r1 = h_name r) by by apply h_name_update.
      eapply (IH _ _ r1 (HNode l [] [])).
      * cbn. by rewrite Hr.
      * by eapply node_at_app.
      * intros e r' w' Hw' Hm Hl' Hn'.
        apply (He e r' w'); [by eapply alloc_trans| |by rewrite Hl'|congruence].
        intros Hf. apply Hm. by apply (alloc_mallocs _ _ Hw).
      * intros idx' r' w' nd' Hw' Hl' Hn' Hnd' Hp'.
        apply (HQ idx' r' w' nd'); [by eapply alloc_trans|by rewrite Hl'|congruence|done|].
        rewrite Hp'. unfold path_at at 1.
        rewrite (prefix_at_app _ _ _ _ Hn1), Hp1, <- app_assoc. done.
    + wp_step. specialize (He (Rc FLOM_RC_G_TRY_MALLOC_ERROR) r w Hw (Hb eq_refl)).
      unfold with_tree in He. rewrite <- Hr in He. destruct s as [n [rt q] m wd dl].
      apply He; done.
Qed.

(** A lock joins the tree at its name *)
Lemma wp_add_locker cl r ls s (Q : err + list nat -> st hier -> Prop) :
  root (s_data s) = Some r ->
  (forall e r' w, alloc (s_world s) w -> ~ Forall (eq true) (w_mallocs (s_world s)) ->
     hlocks r' ≡ₚ hlocks r -> h_name r' = h_name r ->
     Q (inl e) (with_tree r' w s)) ->
  (forall idx r' w, alloc (s_world s) w ->
     hlocks r' ≡ₚ (h_name r :: ls, Some cl) :: hlocks r -> h_name r' = h_name r ->
     hlocks (update_at idx (set_holders release_head) r') ≡ₚ
       (h_name r :: ls, None) :: hlocks r ->
     Q (inr idx) (with_tree r' w s)) ->
  wp (flom_resource_hier_add_locker cl (h_name r :: ls)) Q s.
Proof.
  intros Hr He HQ. unfold flom_resource_hier_add_locker. do 3 wp_step. rewrite Hr.
  wp_step; [|done]. injection H0 as <-.
  destruct (search_node_spec ls r [] true) as (rest & idx & nd & fl & Hs & Hn & Hp & Hfl).
  rewrite Hs. cbn [app]. wp_step.
  assert (Hpush : forall idx' r' w nd', alloc (s_world s) w ->
    hlocks r' ≡ₚ hlocks r -> h_name r' = h_name r -> node_at idx' r' = Some nd' ->
    path_at idx' r' nd' = h_name r :: ls ->
    wp (_ ← modify (fun s => put_data (update_root idx' (set_holders (cons (Some cl)))
          (s_data s)) s); mret idx') Q (with_tree r' w s)).
  { intros idx' r' w nd' Hw Hl' Hn' Hnd' Hp'. do 3 wp_step.
    pose (r2 := update_at idx' (set_holders (cons (Some cl))) r').
    destruct (update_at_locks _ _ _ Hnd') as (o & Ho & Hu).
    assert (Hu2 : forall h, hlocks (update_at idx' (set_holders (cons h)) r') ≡ₚ
              (path_at idx' r' nd', h) :: hlocks r').
    { intros h. rewrite Hu, Ho. by destruct nd' as [nm hs lv]. }
    apply (HQ idx' r2 w Hw).
    - unfold r2. by rewrite Hu2, Hp', Hl'.
    - unfold r2. by rewrite h_name_update.
    - destruct (update_at_locks idx' r2 (set_holders (cons (Some cl)) nd')) as (o2 & Ho2 & Hu2').
      { by apply node_at_update. }
      assert (Hn2 : hlocks r2 ≡ₚ (path_at idx' r' nd', Some cl) :: hlocks r') by apply Hu2.
      rewrite Hu2'. destruct nd' as [nm hs lv]. cbn in *. rewrite Ho2 in Hn2. cbn in Hn2.
      unfold under in *. cbn in *.
      assert (Epre : prefix_at idx' r2 = prefix_at idx' r').
      { unfold r2. destruct (prefix_at_update idx' (set_holders (cons (Some cl))) r') as [->| ->];
          done. }
      unfold path_at in *. cbn in *. rewrite Epre, Hp' in *.
      apply Permutation_cons_inv in Hn2. by rewrite Hn2, Hl'. }
  destruct rest as [|x rest].
  - wp_step. rewrite app_nil_r in Hp. rewrite <- (with_tree_same r s) by done.
    apply (Hpush idx r (s_world s) nd); auto using alloc_refl.
  - rewrite Hfl by done. apply (wp_extend_tree _ _ _ r nd); [done..| |].
    + intros e r' w Hw Hm Hl' Hn'. by apply He.
    + intros idx' r' w nd' Hw Hl' Hn' Hnd' Hp'. apply (Hpush idx' r' w nd'); try done.
      by rewrite Hp', Hp.
Qed.

(** *** Every call keeps the locks compatible, however it ends *)
Definition inv_at (rt : string) (s : st hier) : Prop :=
  exists r, root (s_data s) = Some r /\ h_name r = rt /\ good_tree r /\
    Forall (valid_waiting rt) (waitings (s_data s)).

Lemma inv_at_tree rt r' w s :
  inv_at rt s -> h_name r' = rt -> good_tree r' -> inv_at rt (with_tree r' w s).
Proof. intros (r & _ & _ & _ & Hw) Hn Hg. by exists r'. Qed.

Lemma inv_at_data rt s s' : s_data s' = s_data s -> inv_at rt s -> inv_at rt s'.
Proof. unfold inv_at. by intros ->. Qed.

Lemma wp_hier_can_lock_any lock path s r (Q : err + bool -> st hier -> Prop) :
  root (s_data s) = Some r -> Q (inl Ub) s ->
  (forall b, flom_resource_hier_can_lock r lock path = Some b -> Q (inr b) s) ->
  wp (hier_can_lock lock path) Q s.
Proof.
  intros Hr Hub HQ. unfold hier_can_lock. do 2 wp_step. rewrite Hr. cbn.
  wp_step; auto.
Qed.

Lemma name_in_path rt n path :
  name_in rt n path -> exists ls, path = rt :: ls.
Proof. intros (s & _ & _ & Hh). destruct path as [|x ls]; [done|]. injection Hh as ->. eauto. Qed.

Lemma wp_hier_waitings_inv rt s :
  inv_at rt s -> wp flom_resource_hier_waitings (fun _ s' => inv_at rt s') s.
Proof.
  intros Hs. unfold flom_resource_hier_waitings.
  apply wp_scan_waitings with (J := fun pre w s =>
    waitings (s_data s) = pre ++ w /\ inv_at rt s);
    [by intros ??? [??] | by intros ?? [??] | | done].
  clear s Hs. intros pre cl w s [Hq Hi]. pose proof Hi as (r & Hr & Hrt & Hg & Hw).
  rewrite Hq, Forall_middle in Hw. destruct Hw as [[Hv (path & n & Hn & Hsp & Hhd)] Hw].
  unfold hier_try. wp_step. rewrite Hn. wp_step; [|done]. injection H0 as <-.
  wp_step. rewrite Hsp. wp_step; [|done]. injection H0 as <-. wp_step.
  apply (wp_hier_can_lock_any _ _ _ r); [done..|]. intros b Hb. wp_step.
  destruct b; [|by rewrite <- app_assoc].
  destruct path as [|x ls]; [done|]. injection Hhd as ->. rewrite <- Hrt in *.
  assert (Hpop : inv_at (h_name r) (pop_nth waitings set_waitings (length pre) s)).
  { exists r. split_and!; [by cbn..|]. cbn. by rewrite Hq, delete_middle. }
  unfold hier_grant. wp_step. apply (wp_add_locker cl r ls); [done|..].
  - intros e r' w' _ _ Hl Hnm. apply inv_at_tree; [done..|]. by eapply good_tree_perm.
  - intros idx r' w' _ Hl Hnm Hrel. do 2 wp_step.
    assert (Hg' : good_tree r') by by eapply good_tree_add.
    apply wp_frame; [apply _|]. intros [e|u] s1 Hd1 _; cbn beta iota.
    + eapply (inv_at_data _ (with_tree (update_at idx (set_holders release_head) r') w'
        (pop_nth waitings set_waitings (length pre) s))).
      { cbn. rewrite Hd1. done. }
      apply inv_at_tree; [done| by rewrite h_name_update |].
      by eapply good_tree_released.
    + assert (Hi1 : inv_at (h_name r) s1).
      { eapply inv_at_data; [exact Hd1|]. by apply inv_at_tree. }
      apply wp_frame; [apply _|]. intros [e|u'] s2 Hd2 _; cbn beta iota.
      * by eapply inv_at_data.
      * split; [|by eapply inv_at_data]. rewrite Hd2, Hd1. cbn. by rewrite Hq, delete_middle.
Qed.

Lemma inv_at_gc rt s :
  inv_at rt s ->
  inv_at rt (put_data (set_root (flom_resource_hier_gc <$> root (s_data s)) (s_data s)) s).
Proof.
  intros (r & Hr & Hrt & Hg & Hw). exists (flom_resource_hier_gc r). cbn. rewrite Hr.
  split_and!; [done| by rewrite gc_name | | done].
  eapply good_tree_perm; [by rewrite gc_locks | done].
Qed.

Lemma wp_hier_clean_inv rt uid conn s :
  inv_at rt s -> wp (flom_resource_hier_clean uid conn) (fun _ s' => inv_at rt s') s.
Proof.
  intros Hi. pose proof Hi as (r & Hr & Hrt & Hg & Hw). unfold flom_resource_hier_clean.
  do 3 wp_step. wp_step; [|done]. wp_step. wp_step; [|done]. do 3 wp_step.
  rewrite Hr. wp_step; [|done]. injection H2 as <-. wp_step. wp_step; [|done].
  destruct (node_at _ r) as [nd|] eqn:Hn; cbn in H2; [|done]. wp_step.
  assert (Hend : forall s1, inv_at rt s1 ->
    wp (_ ← vfs_del_conn conn;
        modify (fun s => put_data (set_root (flom_resource_hier_gc <$> root (s_data s))
          (s_data s)) s)) (fun _ s' => inv_at rt s') s1).
  { intros s1 Hi1. wp_step. apply wp_frame; [apply _|]. intros [e|u] s2 Hd2 _; cbn beta iota.
    - by eapply inv_at_data.
    - wp_step. apply inv_at_gc. by eapply inv_at_data. }
  destruct a1 as [k|].
  - destruct (remove_holder_locks _ _ _ _ _ Hn H2) as (cl & _ & Hl). do 2 wp_step.
    eapply wp_mono; [|apply (wp_hier_waitings_inv rt)].
    + intros [e|u] s1 Hi1; [done|]. by apply Hend.
    + eexists. cbn. rewrite Hr. split_and!; [done|by rewrite h_name_update| |done].
      by eapply good_tree_remove.
  - wp_step. apply Hend. exists r. split_and!; [done..|]. cbn. by apply Forall_remove_conn.
Qed.

Lemma wp_hier_inmsg_inv rt uid conn s :
  inv_at rt s -> hier_request_ok (s_data s) (s_msg s) ->
  wp (flom_resource_hier_inmsg uid conn) (fun _ s' => inv_at rt s') s.
Proof.
  intros Hi Hok. pose proof Hi as (r & Hr & Hrt & Hg & Hw).
  unfold flom_resource_hier_inmsg. do 3 wp_step; [|wp_step; [|by wp_step]].
  - unfold hier_lock. do 3 wp_step. wp_step; [|done].
    destruct (Hok a) as [Hm Hnm]; [by apply Z.eqb_eq | done |].
    destruct (Hnm r Hr) as (path & n & En & Hsp & Hhd).
    wp_step. rewrite En. wp_step; [|done]. injection H1 as <-.
    wp_step. rewrite Hsp. wp_step; [|done]. injection H1 as <-. wp_step.
    apply wp_frame; [apply _|]. intros [e|u] s1 Hd1 _; cbn beta iota; [by eapply inv_at_data|].
    assert (Hi1 : inv_at rt s1) by by eapply inv_at_data.
    wp_step. apply (wp_hier_can_lock_any _ _ _ r); [by rewrite Hd1 | done |].
    intros b Hb. destruct b; [|wp_step].
    + wp_step. apply wp_conn_lock_any; [intros; by eapply inv_at_data|]. intros w1.
      destruct path as [|x ls]; [done|]. injection Hhd as ->. wp_step.
      apply (wp_add_locker _ r ls); [by cbn; rewrite Hd1|..].
      * intros e r' w' _ _ Hl Hnm'. apply inv_at_tree; [by eapply inv_at_data|congruence|].
        by eapply good_tree_perm.
      * intros idx r' w' _ Hl Hnm' _. wp_step.
        assert (Hi2 : inv_at rt (with_tree r' w' (put_world w1 s1))).
        { apply inv_at_tree; [by eapply inv_at_data|congruence|].
          by eapply good_tree_add; [exact Hl|..]. }
        apply wp_frame; [apply _|]. intros [e|u2] s2 Hd2 _; cbn beta iota;
          [by eapply inv_at_data|].
        apply wp_frame; [apply _|]. intros r3 s3 Hd3 _.
        eapply inv_at_data; [exact Hd3|]. by eapply inv_at_data.
    + wp_step. apply wp_conn_lock_any; [intros; by eapply inv_at_data|]. intros w1.
      do 3 wp_step.
      set (s2 := put_data _ _).
      assert (Hi2 : inv_at rt s2).
      { exists r. subst s2. cbn. rewrite Hd1. split_and!; [done..|].
        apply Forall_app; split; [done|]. constructor; [|done]. split; [done|].
        exists path. rewrite <- Hrt. by exists n. }
      apply wp_frame; [apply _|]. intros [e|u3] s3 Hd3 _; cbn beta iota;
        [by eapply inv_at_data|].
      apply wp_frame; [apply _|]. intros r4 s4 Hd4 _.
      eapply inv_at_data; [exact Hd4|]. by eapply inv_at_data.
    + apply wp_frame; [apply _|]. intros r2 s2 Hd2 _. by eapply inv_at_data.
  - unfold hier_unlock, flom_resource_hier_compare_name. do 3 wp_step. wp_step; [|done].
    do 2 wp_step. wp_step; [|done].
    assert (Hrest : forall same,
      wp (_ ← when (negb same) (throw (Rc FLOM_RC_INVALID_RESOURCE_NAME));
          _ ← flom_resource_hier_change_name a.1;
          _ ← flom_resource_hier_clean uid conn;
          free_and_init_msg) (fun _ s' => inv_at rt s') s).
    { intros same. unfold flom_resource_hier_change_name.
      wp_step. wp_step; [by wp_step|]. do 3 wp_step.
      eapply wp_mono; [|apply (wp_hier_clean_inv rt); by eapply inv_at_data].
      intros [e|u] s1 Hi1; [done|]. apply wp_frame; [apply _|]. intros r2 s2 Hd2 _.
      by eapply inv_at_data. }
    wp_step.
    + wp_step. apply Hrest.
    + do 3 wp_step. rewrite Hr. wp_step; [|done]. wp_step. wp_step; [|done]. wp_step.
      apply Hrest.
Qed.

(** Without a root every use of the tree is undefined *)
Definition rootless (r : err + unit) (s : st hier) : Prop := r <> inl Ub -> root (s_data s) = None.

Lemma wp_hier_clean_rootless uid conn s :
  root (s_data s) = None -> wp (flom_resource_hier_clean uid conn) rootless s.
Proof.
  intros Hr. unfold flom_resource_hier_clean, rootless.
  do 3 wp_step. wp_step; [|done]. wp_step. wp_step; [|done]. do 3 wp_step. rewrite Hr.
  wp_step; [done|]. done.
Qed.

Lemma wp_hier_inmsg_rootless uid conn s :
  root (s_data s) = None -> wp (flom_resource_hier_inmsg uid conn) rootless s.
Proof.
  intros Hr. unfold flom_resource_hier_inmsg, rootless. do 3 wp_step; [|wp_step; [|by wp_step]].
  - unfold hier_lock. do 3 wp_step. wp_step; [|done]. wp_step. wp_step; [|done].
    wp_step. wp_step; [|done]. wp_step.
    apply wp_frame; [apply _|]. intros [e|u] s1 Hd1 _; cbn beta iota; [by rewrite Hd1|].
    wp_step. unfold hier_can_lock. do 2 wp_step. rewrite Hd1, Hr. by wp_step.
  - unfold hier_unlock, flom_resource_hier_compare_name. do 3 wp_step. wp_step; [|done].
    do 2 wp_step. wp_step; [|done]. wp_step.
    + do 2 wp_step. wp_step; [by wp_step | done].
    + do 3 wp_step. rewrite Hr. by wp_step.
Qed.

Lemma hier_inv_at s r : root (s_data s) = Some r -> hier_inv (s_data s) -> inv_at (h_name r) s.
Proof. intros Hr Hi. unfold hier_inv in Hi. rewrite Hr in Hi. destruct Hi. by exists r. Qed.

Lemma inv_at_hier rt s : inv_at rt s -> hier_inv (s_data s).
Proof. intros (r & Hr & <- & Hg & Hw). unfold hier_inv. by rewrite Hr. Qed.

#[export] Instance hier_resource_inv : ResourceInv hier hier_request_ok hier_inv.
Proof.
  constructor; intros.
  - cbn. unfold flom_resource_hier_init. wp_step. wp_step; [by wp_step|]. do 5 wp_step.
    wp_step; [|done]. wp_step; [wp_step; by intros _|]. wp_step. apply wp_try_malloc.
    intros b w _ _. destruct b; [|by wp_step]. do 3 wp_step.
    eapply (wp_extend_tree _ [] _ (HNode s0 [] []) (HNode s0 [] [])); [done..| |].
    + by intros.
    + intros idx r' w' nd Hw Hl Hn _ _. wp_step. intros _.
      unfold hier_inv. cbn. split; [|constructor].
      eapply good_tree_perm; [exact Hl|]. split; constructor.
  - destruct (root (s_data s)) as [r|] eqn:Hr.
    + eapply wp_mono; [|apply (wp_hier_inmsg_inv (h_name r)); [by apply hier_inv_at | done]].
      intros r1 s1 H2 _. exact (inv_at_hier _ _ H2).
    + eapply wp_mono; [|by apply wp_hier_inmsg_rootless].
      intros r1 s1 H2 Hub. unfold hier_inv. by rewrite (H2 Hub).
  - destruct (root (s_data s)) as [r|] eqn:Hr.
    + eapply wp_mono; [|apply (wp_hier_clean_inv (h_name r)); by apply hier_inv_at].
      intros r1 s1 H2 _. exact (inv_at_hier _ _ H2).
    + eapply wp_mono; [|by apply wp_hier_clean_rootless].
      intros r1 s1 H2 Hub. unfold hier_inv. by rewrite (H2 Hub).
  - by apply wp_ret.
Qed.

(** *** The scan when the network works and memory is available *)
Definition path_of (cl : conn_lock Z) : list string :=
  default [] (n ← cl_name cl; split_name n).
Definition lock_of (cl : conn_lock Z) : list string * holder := (path_of cl, Some cl).

Definition blocked (r : hnode) (cl : conn_lock Z) : Prop :=
  flom_resource_hier_can_lock r (cl_info cl) (path_of cl) <> Some true.

Lemma blocked_more x r r' cl : hlocks r' ≡ₚ x :: hlocks r -> blocked r cl -> blocked r' cl.
Proof.
  unfold blocked. rewrite !can_lock_spec. intros Hp Hb Hf. apply Hb.
  rewrite Hp in Hf. by apply Forall_cons in Hf as [_ Hf].
Qed.

(** The clients told are granted in the order of the queue; those left are
    blocked by the locks of the tree. *)
Definition scanned (r0 : hnode) (w0 : world) (p0 pre : list (conn_lock Z)) (s : st hier)
    (r : hnode) (gs : list (conn_lock Z)) : Prop :=
  gs ++ pre ≡ₚ p0 /\ sublist gs p0 /\ sublist pre p0 /\
  hlocks r ≡ₚ map lock_of gs ++ hlocks r0 /\ Forall (blocked r) pre /\
  w_sent (s_world s) = w_sent w0 ++ map (fun cl => (cl_conn cl, granted_text None)) gs.

(** No connection is lost *)
Definition conns_stay (w w' : world) : Prop :=
  forall c, (live w c -> live w' c) /\ (known w c -> known w' c).

Definition scan_inv (r0 : hnode) (w0 : world) (n0 : option string) (m0 : flom_msg)
    (q0 pre w : list (conn_lock Z)) (s : st hier) : Prop :=
  waitings (s_data s) = pre ++ w /\ s_name s = n0 /\ s_msg s = m0 /\
  sends_ok (s_world s) /\ Forall (eq true) (w_mallocs (s_world s)) /\
  conns_stay w0 (s_world s) /\
  exists r gs p0, root (s_data s) = Some r /\ h_name r = h_name r0 /\ good_tree r /\
    all_live r /\ q0 = p0 ++ w /\ scanned r0 w0 p0 pre s r gs.

Lemma scan_step r0 w0 n0 m0 q0 (Q : err + unit -> st hier -> Prop) pre cl w s :
  Forall (valid_waiting (h_name r0)) q0 ->
  Forall (fun cl => live w0 (cl_conn cl)) q0 ->
  scan_inv r0 w0 n0 m0 q0 pre (cl :: w) s ->
  wp (hier_try cl) (fun r s' =>
    match r with
    | inl e => Q (inl e) s'
    | inr None => scan_inv r0 w0 n0 m0 q0 (pre ++ [cl]) w s'
    | inr (Some g) =>
        wp (hier_grant g cl) (fun r s'' =>
          match r with
          | inl e => Q (inl e) s''
          | inr _ => scan_inv r0 w0 n0 m0 q0 pre w s''
          end) (pop_nth waitings set_waitings (length pre) s')
    end) s.
Proof.
  intros Hval Hlv (Hq & Hnm & Hmsg & Hs & Hml & Hlive & r & gs & p0 & Hr & Hrt & Hg & Hal & Hq0
    & Hperm & Hsg & Hsp & Hlk & Hbl & Hsent).
  rewrite Hq0, Forall_middle in Hval, Hlv. destruct Hval as [[Hv (path & n & Hn & Hsp' & Hhd)] _].
  destruct Hlv as [Hlc _].
  assert (Hpath : path_of cl = path).
  { unfold path_of. rewrite Hn. cbn. by rewrite Hsp'. }
  unfold hier_try. wp_step. rewrite Hn. wp_step; [|done]. injection H0 as <-.
  wp_step. rewrite Hsp'. wp_step; [|done]. injection H0 as <-. wp_step.
  unfold hier_can_lock. do 2 wp_step. rewrite Hr. cbn [mbind option_bind].
  destruct (can_lock_total r (cl_info cl) path Hv (proj1 Hg) Hal) as [b Hb]. rewrite Hb.
  wp_step; [|done]. injection H0 as <-. wp_step. destruct b.
  - destruct path as [|x ls]; [done|]. injection Hhd as ->. rewrite <- Hrt in *.
    unfold hier_grant. wp_step.
    apply (wp_add_locker cl r ls); [by cbn|intros e r' w' _ Hm; by cbn in Hm|].
    intros idx r' w' Hw Hl Hnm' _. do 2 wp_step.
    destruct (alloc_sent _ _ Hw) as (E1 & E2 & E3). cbn in E1, E2, E3.
    pose proof (alloc_mallocs _ _ Hw Hml) as Hml'.
    apply wp_notify_granted; cbn.
    + unfold sends_ok. by rewrite E2.
    + unfold live. rewrite E3. by apply (Hlive _).
    + by vm_compute.
    + intros w2 (Ht1 & Ht2 & Ht3 & Ht3' & Ht4 & Ht5) Hl2. cbn in *.
      apply wp_vfs_move; [by apply live_known|]. intros t.
      split; [cbn; by rewrite Hq, delete_middle|]. do 2 (split; [done|]).
      split; [exact Ht2|].
      split; [cbn; by rewrite Ht4|].
      split; [intros c; split; intros Hc; [apply Ht3; unfold live | apply Ht3'; unfold known];
        rewrite E3; by apply (Hlive c)|].
      exists r', (gs ++ [cl]), (p0 ++ [cl]).
      split_and!; [done|congruence|by eapply good_tree_add| |by rewrite <- app_assoc|].
      { unfold all_live. rewrite Hl. by constructor; [eexists|]. }
      split_and!; cbn.
      * rewrite <- app_assoc, (Permutation_app_comm [cl]), app_assoc. by rewrite Hperm.
      * by apply sublist_app.
      * by apply sublist_inserts_r.
      * rewrite map_app, <- app_assoc. cbn. unfold lock_of at 2. rewrite Hpath, Hl, Hlk.
        apply Permutation_middle.
      * eapply Forall_impl; [exact Hbl|]. intros y Hy. by eapply blocked_more.
      * rewrite Ht1, E1, Hsent, map_app, app_assoc. done.
  - split_and!; [by rewrite <- app_assoc|done..|].
    exists r, gs, (p0 ++ [cl]). split_and!; [done..|by rewrite <- app_assoc|].
    split_and!; [..|done].
    + by rewrite app_assoc, Hperm.
    + by apply sublist_inserts_r.
    + by apply sublist_app.
    + done.
    + apply Forall_app; split; [done|]. constructor; [|done]. unfold blocked.
      by rewrite Hpath, Hb.
Qed.

Lemma wp_hier_waitings_scan r s (Q : err + unit -> st hier -> Prop) :
  root (s_data s) = Some r -> good_tree r -> all_live r ->
  Forall (valid_waiting (h_name r)) (waitings (s_data s)) ->
  sends_ok (s_world s) -> Forall (eq true) (w_mallocs (s_world s)) ->
  Forall (fun cl => live (s_world s) (cl_conn cl)) (waitings (s_data s)) ->
  (forall r' gs rest s', s_data s' = Hier (Some r') rest -> s_name s' = s_name s ->
     s_msg s' = s_msg s -> conns_stay (s_world s) (s_world s') -> good_tree r' ->
     scanned r (s_world s) (waitings (s_data s)) rest s' r' gs -> Q (inr tt) s') ->
  wp flom_resource_hier_waitings Q s.
Proof.
  intros Hr Hg Hal Hw Hs Hml Hlv HQ. unfold flom_resource_hier_waitings.
  apply wp_scan_waitings with
    (J := scan_inv r (s_world s) (s_name s) (s_msg s) (waitings (s_data s))).
  - by intros pre w s' [? _].
  - intros pre s' (Hq & Hn & Hm & Hs' & _ & Hl & r' & gs & p0 & Hr' & _ & Hg' & _ & Hp0 & Hsc).
    rewrite app_nil_r in *. subst p0. eapply HQ; eauto.
    destruct (s_data s') as [rt q]. cbn in *. by subst.
  - intros. by apply scan_step.
  - split_and!; [done..|]. exists r, [], []. split_and!; [done..|].
    split_and!; [done..|]. by rewrite app_nil_r.
Qed.
End proofs.

(** ** Theorems *)
Section theorems.
Context `{Glib}.

(** C14: the recursive check of a name grants the mode exactly when every lock
    held on the node itself, on an ancestor or on a descendant is compatible
    with it (and none of those records has been released). *)
Theorem hier_can_lock_correct n lock path :
  flom_resource_hier_can_lock n lock path = Some true <->
  forall p h, (p, h) ∈ hlocks n -> related p path = true ->
    exists cl, h = Some cl /\ lock_table_at (cl_info cl) lock = Some true.
Proof.
  rewrite can_lock_spec, Forall_forall. unfold allowed. split.
  - intros Ha p h Hin. exact (Ha (p, h) Hin).
  - intros Ha [p h] Hin. by apply Ha.
Qed.

(** C2: safety.  After any history of requests with valid modes for names under the
    root of the tree, disconnections and timeouts, in any world, two locks held on
    the same node, or on a node and one of its ancestors, are compatible.  (The code
    does not check the root: [hier_other_root_granted].) *)
Theorem hier_locks_compatible n d r p q x y i j :
  resource_reachable hier_request_ok (n, d) -> root d = Some r ->
  hlocks r !! i = Some (p, Some x) -> hlocks r !! j = Some (q, Some y) -> i <> j ->
  related p q = true -> compatible (cl_info x) (cl_info y) = true.
Proof.
  intros Hreach Hr Hi Hj Hne Hrel. apply reachable_inv in Hreach.
  unfold hier_inv in Hreach. rewrite Hr in Hreach. destruct Hreach as [[_ Hc] _].
  assert (Hpair : forall a b l k1 k2, ForallOrdPairs compat_locks l ->
    l !! k1 = Some a -> l !! k2 = Some b -> (k1 < k2)%nat -> compat_locks a b).
  { intros a b l k1 k2 Hl. revert k1 k2.
    induction Hl as [|z l Hz _ IH]; intros [|k1] [|k2]; cbn; try done; try lia.
    - intros [= ->] Hb _. by apply (Forall_lookup_1 _ _ _ _ Hz Hb).
    - intros Ha Hb Hlt. apply (IH k1 k2); [done..|lia]. }
  destruct (decide (i < j)%nat) as [Hlt|Hge].
  - exact (Hpair _ _ _ _ _ Hc Hi Hj Hlt Hrel).
  - rewrite compatible_sym. rewrite related_sym in Hrel.
    refine (Hpair _ _ _ _ _ Hc Hj Hi _ Hrel). lia.
Qed.

(** a request for a node.  It joins the locks of the tree when the check
    allows it; otherwise it is queued with its name, or refused as busy. *)
Theorem hier_lock_answer uid conn mid b r n ls s :
  let path := h_name r :: ls in
  let cl := Conn_lock (l8_mode b) None 0 conn in
  root (s_data s) = Some r -> good_tree r -> all_live r -> valid_mode (l8_mode b) ->
  l8_name b = Some n -> split_name n = Some path ->
  s_msg s = lock_request b -> can_answer (s_world s) conn mid ->
  wp (flom_resource_hier_inmsg uid conn) (fun r1 s' =>
    r1 = inr tt /\ s_name s' = s_name s /\ w_sent (s_world s') = w_sent (s_world s) /\
    match flom_resource_hier_can_lock r (l8_mode b) path with
    | Some true =>
        s_msg s' = lock_answer mid FLOM_RC_OK None /\
        exists r', s_data s' = Hier (Some r') (waitings (s_data s)) /\
                   hlocks r' ≡ₚ (path, Some cl) :: hlocks r
    | _ =>
        if negb (l8_wait b =? 0) then
          s_msg s' = lock_answer mid FLOM_RC_LOCK_ENQUEUED None /\
          s_data s' = Hier (Some r) (waitings (s_data s) ++ [Conn_lock (l8_mode b) (Some n) 0 conn])
        else s_msg s' = lock_answer mid FLOM_RC_LOCK_BUSY None /\ s_data s' = s_data s
    end) s.
Proof.
  intros path cl Hr Hg Hal Hv Hn Hsp Hm Hc. unfold flom_resource_hier_inmsg. do 2 wp_step.
  rewrite Hm. cbn [msg_verb lock_request m_header h_verb Z.eqb FLOM_MSG_VERB_LOCK Pos.eqb].
  unfold hier_lock. do 3 wp_step. rewrite Hm. wp_step; [|done]. injection H0 as <-.
  wp_step. rewrite Hn. wp_step; [|done]. injection H0 as <-.
  wp_step. rewrite Hsp. wp_step; [|done]. injection H0 as <-.
  wp_step. eapply wp_free_lock_request; [exact Hm|]. wp_step. unfold hier_can_lock.
  do 2 wp_step. cbn [s_data put_msg]. rewrite Hr. cbn [mbind option_bind].
  destruct (can_lock_total r (l8_mode b) path Hv (proj1 Hg) Hal) as [g ->].
  wp_step; [|done]. injection H0 as <-. destruct g.
  - wp_step. eapply wp_conn_lock_new; [exact Hc|]. intros w1 Hw1 Hs1. wp_step.
    apply (wp_add_locker cl r ls); [done|..].
    { intros e r' w' _ Hmal. destruct Hw1 as (_ & _ & Hw1). by cbn in Hmal. }
    intros idx r' w' Ha Hl Hnm _. pose proof (alloc_can_answer _ _ _ _ Ha Hw1) as Hca.
    destruct (alloc_sent _ _ Ha) as (E1 & _ & _). wp_step.
    apply wp_vfs_add; [by eapply can_answer_known|]. intros t.
    eapply wp_build_lock_answer; [done..|]. split_and!; [done..| |done|].
    { cbn in *. by rewrite E1. }
    exists r'. split; [done|]. by rewrite Hl.
  - destruct (negb (l8_wait b =? 0)).
    + wp_step. eapply wp_conn_lock_new; [exact Hc|]. intros w1 Hw1 Hs1. do 3 wp_step.
      apply wp_vfs_add; [by eapply can_answer_known|]. intros t.
      eapply wp_build_lock_answer; [done..|]. split_and!; [done..|]. cbn. by rewrite <- Hr.
    + by eapply wp_build_lock_answer.
Qed.

(** C13: releasing a lock, when memory is there, the sends work and the waiting
    clients are live.  When the node that the name of the resource leads to has a
    lock of the connection, that lock leaves the tree, clients of the queue are
    granted and told in its order; every two locks of related nodes of the new tree,
    the granted ones included, are compatible; everybody left in the queue is blocked
    by the locks of the tree, and the garbage collection leaves the locks alone. *)
Theorem hier_clean_grants uid conn n path r nd k s :
  let idx := locate_node path r [] in
  s_name s = Some n -> split_name n = Some path -> root (s_data s) = Some r ->
  node_at idx r = Some nd -> find_holder conn (h_holders nd) = Some (Some k) ->
  good_tree r -> all_live r -> Forall (valid_waiting (h_name r)) (waitings (s_data s)) ->
  sends_ok (s_world s) -> Forall (eq true) (w_mallocs (s_world s)) ->
  known (s_world s) conn ->
  Forall (fun cl => live (s_world s) (cl_conn cl)) (waitings (s_data s)) ->
  wp (flom_resource_hier_clean uid conn) (fun r1 s' =>
    r1 = inr tt /\ exists cl locks r' gs rest,
      cl_conn cl = conn /\ hlocks r ≡ₚ (path_at idx r nd, Some cl) :: locks /\
      s_data s' = Hier (Some r') rest /\ tidy r' = true /\
      hlocks r' ≡ₚ map lock_of gs ++ locks /\ ForallOrdPairs compat_locks (hlocks r') /\
      gs ++ rest ≡ₚ waitings (s_data s) /\ sublist gs (waitings (s_data s)) /\
      Forall (blocked r') rest /\
      w_sent (s_world s') = w_sent (s_world s) ++
        map (fun cl => (cl_conn cl, granted_text None)) gs) s.
Proof.
  intros idx Hnm Hsp Hr Hn Hf Hg Hal Hw Hs Hml Hlc Hlv.
  unfold flom_resource_hier_clean. do 3 wp_step. rewrite Hnm. wp_step; [|done].
  injection H0 as <-. wp_step. rewrite Hsp. wp_step; [|done]. injection H0 as <-.
  do 3 wp_step. rewrite Hr. wp_step; [|done]. injection H0 as <-. wp_step. fold idx.
  rewrite Hn. cbn [mbind option_bind]. rewrite Hf. wp_step; [|done]. injection H0 as <-.
  destruct (remove_holder_locks _ _ _ _ _ Hn Hf) as (cl & Hcc & Hl). do 3 wp_step.
  set (r1 := update_at idx (set_holders (delete k)) r) in *.
  assert (Hnm1 : h_name r1 = h_name r) by by apply h_name_update.
  apply (wp_hier_waitings_scan r1); try done.
  - cbn. by rewrite Hr.
  - by eapply good_tree_remove.
  - unfold all_live in *. rewrite Hl in Hal. by apply Forall_cons in Hal as [_ ?].
  - cbn. by rewrite Hnm1.
  - intros r' gs rest s1 Hd Hn1 Hm1 Hl1 Hg1 (Hp & Hsg & _ & Hlk & Hbl & Hsent). wp_step.
    apply wp_vfs_del; [by apply Hl1|]. intros t. wp_step. split; [done|].
    exists cl, (hlocks r1), (flom_resource_hier_gc r'), gs, rest. cbn. rewrite Hd.
    split_and!; try done.
    + apply gc_tidy.
    + by rewrite gc_locks.
    + rewrite gc_locks. apply Hg1.
    + eapply Forall_impl; [exact Hbl|]. intros y Hy. unfold blocked in *.
      rewrite can_lock_spec in *. by rewrite gc_locks.
Qed.

(** the garbage collection removes the leaves that hold nothing, level
    after level, and no lock. *)
Theorem hier_gc_correct n :
  hlocks (flom_resource_hier_gc n) = hlocks n /\ tidy (flom_resource_hier_gc n) = true.
Proof. split; [apply gc_locks | apply gc_tidy]. Qed.

(** a disconnection releases the lock at the name the resource had last,
    not the lock of the client that left.  A history exists in which a client
    disconnects and its lock stays in the tree. *)
Theorem hier_disconnect_leaks :
  exists n d uid conn s' r cl,
    resource_reachable hier_request_ok (n, d) /\
    flom_resource_hier_clean uid conn (St n d flom_msg_init demo_world (Timeval 0 0)) =
      (inr tt, s') /\
    root (s_data s') = Some r /\ cl_conn cl = conn /\
    (["a"; "c"]%string, Some cl) ∈ hlocks r.
Proof.
  pose (req := lock_request (Lock_8 None (Some "/a/c"%string) FLOM_LOCK_MODE_EX 1 0 1 0)).
  pose (d0 := Hier (Some (HNode "a" [] [HNode "b" [] []])) []).
  pose (cl := demo_cl FLOM_LOCK_MODE_EX 2).
  pose (d1 := Hier (Some (HNode "a" [] [HNode "b" [] []; HNode "c" [Some cl] []])) []).
  exists (Some "/a/b"%string), d1, 7, 2%positive,
    (flom_resource_hier_clean 7 2%positive
       (St (Some "/a/b"%string) d1 flom_msg_init demo_world (Timeval 0 0))).2,
    (HNode "a" [] [HNode "c" [Some cl] []]), cl.
  split_and!; [|vm_compute; reflexivity|vm_compute; reflexivity|done|apply list_elem_of_here].
  apply (reachable_inmsg _ 7 2%positive req demo_world (Timeval 0 0)
    (Some "/a/b"%string) d0); [| |reflexivity].
  - by apply (reachable_start _ "/a/b" (demo_st (Hier None []) flom_msg_init)).
  - intros b _ [= <-]. split; [done|]. intros r [= <-]. by exists ["a"; "c"]%string, "/a/c"%string.
Qed.

(** a failed notification leaves a released record in the tree.  The
    first waiting client can be granted and its connection is dead: the scan
    stops, its lock is in the tree with a record that is no more, and no later
    request for the same node can be granted. *)
Theorem hier_dead_waiter_dangles x rest ls r o l s :
  root (s_data s) = Some r -> waitings (s_data s) = x :: rest ->
  name_in (h_name r) (cl_name x) (h_name r :: ls) ->
  flom_resource_hier_can_lock r (cl_info x) (h_name r :: ls) = Some true ->
  w_conns (s_world s) !! cl_conn x = Some o -> c_tls o = false -> has_fd o = true ->
  w_sends (s_world s) = PendingError EPIPE :: l -> Forall (eq true) (w_mallocs (s_world s)) ->
  wp flom_resource_hier_waitings (fun r1 s' =>
    r1 = inl (Rc FLOM_RC_CONNECTION_CLOSED) /\
    exists r', s_data s' = Hier (Some r') rest /\
      hlocks r' ≡ₚ (h_name r :: ls, None) :: hlocks r /\
      forall lock, flom_resource_hier_can_lock r' lock (h_name r :: ls) <> Some true) s.
Proof.
  intros Hr Hw (n & Hn & Hsp & _) Hc Ho Ht Hfd Hs Hml.
  unfold flom_resource_hier_waitings, scan_waitings. do 2 wp_step. cbn [waitings_loop].
  do 2 wp_step. rewrite Hw. cbn [lookup list_lookup]. unfold hier_try. do 2 wp_step.
  rewrite Hn. wp_step; [|done]. injection H0 as <-. wp_step. rewrite Hsp.
  wp_step; [|done]. injection H0 as <-. wp_step. unfold hier_can_lock. do 2 wp_step.
  rewrite Hr. cbn [mbind option_bind]. rewrite Hc. wp_step; [|done]. injection H0 as <-.
  do 4 wp_step. unfold hier_grant. wp_step.
  apply (wp_add_locker x r ls); [by cbn|by intros e r' w _ Hm; cbn in Hm|].
  intros idx r' w Ha Hl Hnm Hrel. destruct (alloc_sent _ _ Ha) as (_ & E2 & E3).
  cbn in E2, E3. do 2 wp_step. eapply wp_on_world.
  { eapply notify_granted_dead; cbn; [by rewrite E3|done|done|by rewrite E2|by vm_compute]. }
  split; [done|]. eexists. split; [cbn; by rewrite Hw|]. split; [exact Hrel|].
  intros lock Hlk. apply can_lock_spec in Hlk. rewrite Hrel in Hlk.
  apply Forall_cons in Hlk as [Hx _]. unfold allowed in Hx. cbn [fst snd] in Hx.
  assert (Hself : forall p, related p p = true).
  { induction p as [|a p IH]; cbn; [done|]. by rewrite String.eqb_refl. }
  destruct (Hx (Hself _)) as (cl & [=] & _).
Qed.
End theorems.

(** ** The theorems at concrete inputs *)
Definition demo_hier_request (mode : Z) (name : string) : body_lock_8 :=
  Lock_8 None (Some name) mode 1 0 1 0.
Definition demo_reader : conn_lock Z := demo_cl FLOM_LOCK_MODE_PR 1.

(** A reader of the whole tree and one of a node of it *)
Lemma hier_locks_compatible_witness :
  compatible FLOM_LOCK_MODE_PR FLOM_LOCK_MODE_CR = true.
Proof.
  pose (d0 := Hier (Some (HNode "a" [] [])) []).
  pose (d1 := Hier (Some (HNode "a" [Some demo_reader] [])) []).
  pose (r := HNode "a" [Some demo_reader] [HNode "b" [Some (demo_cl FLOM_LOCK_MODE_CR 2)] []]).
  refine (@hier_locks_compatible demo_glib (Some "/a"%string) (Hier (Some r) []) r
    ["a"%string] ["a"; "b"]%string demo_reader (demo_cl FLOM_LOCK_MODE_CR 2) 0 1
    _ eq_refl eq_refl eq_refl _ eq_refl); [|done].
  apply (@reachable_inmsg _ (@hier_resource demo_glib) _ 7 2%positive
    (lock_request (demo_hier_request FLOM_LOCK_MODE_CR "/a/b")) demo_world (Timeval 0 0)
    (Some "/a"%string) d1); [| |reflexivity].
  2: { intros b _ [= <-]. split; [done|]. intros r0 [= <-].
       by exists ["a"; "b"]%string, "/a/b"%string. }
  apply (@reachable_inmsg _ (@hier_resource demo_glib) _ 7 1%positive
    (lock_request (demo_hier_request FLOM_LOCK_MODE_PR "/a")) demo_world (Timeval 0 0)
    (Some "/a"%string) d0); [| |reflexivity].
  2: { intros b _ [= <-]. split; [done|]. intros r0 [= <-].
       by exists ["a"]%string, "/a"%string. }
  by apply (@reachable_start _ (@hier_resource demo_glib) _ "/a"
    (demo_st (Hier None []) flom_msg_init)).
Defined.

Definition demo_tree : hnode := HNode "a" [Some demo_reader] [].

Lemma demo_tree_good : good_tree demo_tree.
Proof. split; [repeat constructor; done|]. repeat constructor. Qed.

Lemma demo_tree_live : all_live demo_tree.
Proof. repeat constructor. by eexists. Qed.

Definition demo_writer : body_lock_8 := demo_hier_request FLOM_LOCK_MODE_EX "/a/b".
Definition demo_hier_st : st hier :=
  St (Some "/a"%string) (Hier (Some demo_tree) []) (lock_request demo_writer) demo_world
    (Timeval 0 0).

(** A writer of a node below a reader waits *)
Lemma hier_lock_answer_witness :
  wp (@flom_resource_hier_inmsg demo_glib 7 2%positive) (fun r1 s' =>
    r1 = inr tt /\ s_name s' = Some "/a"%string /\ w_sent (s_world s') = [] /\
    s_msg s' = lock_answer demo_mid FLOM_RC_LOCK_ENQUEUED None /\
    s_data s' = Hier (Some demo_tree)
      [Conn_lock FLOM_LOCK_MODE_EX (Some "/a/b"%string) 0 2%positive]) demo_hier_st.
Proof.
  refine (@hier_lock_answer demo_glib 7 2%positive demo_mid demo_writer demo_tree
    "/a/b" ["b"%string] demo_hier_st eq_refl demo_tree_good demo_tree_live _
    eq_refl eq_refl eq_refl _); [done | by apply demo_can_answer].
Defined.

Definition demo_hier_waiting : conn_lock Z :=
  Conn_lock FLOM_LOCK_MODE_EX (Some "/a/b"%string) 0 2%positive.
Definition demo_hier_clean : st hier :=
  St (Some "/a"%string) (Hier (Some demo_tree) [demo_hier_waiting]) flom_msg_init demo_world
    (Timeval 0 0).

Lemma demo_waiting_valid : Forall (valid_waiting "a") [demo_hier_waiting].
Proof.
  constructor; [|constructor]. split; [done|]. by exists ["a"; "b"]%string, "/a/b"%string.
Qed.

Lemma hier_clean_grants_witness :
  wp (@flom_resource_hier_clean demo_glib 7 1%positive) (fun r1 s' =>
    r1 = inr tt /\ exists cl locks r' gs rest,
      cl_conn cl = 1%positive /\ hlocks demo_tree ≡ₚ (["a"]%string, Some cl) :: locks /\
      s_data s' = Hier (Some r') rest /\ tidy r' = true /\
      hlocks r' ≡ₚ map lock_of gs ++ locks /\ ForallOrdPairs compat_locks (hlocks r') /\
      gs ++ rest ≡ₚ [demo_hier_waiting] /\ sublist gs [demo_hier_waiting] /\
      Forall (blocked r') rest /\
      w_sent (s_world s') = map (fun cl => (cl_conn cl, granted_text None)) gs)
    demo_hier_clean.
Proof.
  refine (@hier_clean_grants demo_glib 7 1%positive "/a" ["a"%string] demo_tree demo_tree 0
    demo_hier_clean eq_refl eq_refl eq_refl eq_refl eq_refl demo_tree_good demo_tree_live
    demo_waiting_valid _ _ _ _).
  - constructor.
  - constructor.
  - by apply demo_known.
  - repeat constructor. by apply demo_live.
Defined.

(** The writer's connection is dead when the tree is free *)
Lemma hier_dead_waiter_dangles_witness :
  wp (@flom_resource_hier_waitings demo_glib) (fun r1 s' =>
    r1 = inl (Rc FLOM_RC_CONNECTION_CLOSED) /\
    exists r', s_data s' = Hier (Some r') [] /\
      hlocks r' ≡ₚ [(["a"; "b"]%string, None)] /\
      forall lock, flom_resource_hier_can_lock r' lock ["a"; "b"]%string <> Some true)
    (St (Some "/a"%string) (Hier (Some (HNode "a" [] [])) [demo_hier_waiting]) flom_msg_init
      (set_sends [PendingError EPIPE] demo_world) (Timeval 0 0)).
Proof.
  refine (@hier_dead_waiter_dangles demo_glib demo_hier_waiting [] ["b"%string]
    (HNode "a" [] []) (demo_conn 12) []
    (St (Some "/a"%string) (Hier (Some (HNode "a" [] [])) [demo_hier_waiting]) flom_msg_init
      (set_sends [PendingError EPIPE] demo_world) (Timeval 0 0))
    eq_refl eq_refl _ eq_refl eq_refl eq_refl eq_refl eq_refl _); [|constructor].
  by exists "/a/b"%string.
Defined.

(** ** What goes wrong *)

(** A client of the tree [/a] asks for a name of another tree: no node of this one is
    compared with it, and its exclusive lock is granted below the exclusive lock of
    the root. *)
Theorem hier_other_root_granted :
  let holder c := demo_cl FLOM_LOCK_MODE_EX c in
  let s0 := St (Some "/a"%string) (Hier (Some (HNode "a" [Some (holder 1%positive)] [])) [])
    (lock_request (demo_hier_request FLOM_LOCK_MODE_EX "/b")) demo_world (Timeval 0 0) in
  let '(r, s1) := @flom_resource_hier_inmsg demo_glib 7 2%positive s0 in
  r = inr tt /\ (hlocks <$> root (s_data s1)) =
    Some [(["a"]%string, Some (holder 1%positive)); (["a"; "b"]%string, Some (holder 2%positive))] /\
  related ["a"]%string ["a"; "b"]%string = true /\
  compatible FLOM_LOCK_MODE_EX FLOM_LOCK_MODE_EX = false.
Proof. vm_compute. split_and!; reflexivity. Qed.
