(* ===== verification/Rsrc.v ===== *)
(** * Rsrc: a resource of any type

    [flom_resource_init] of [src/src/flom_rsrc.c] fills the table of methods of
    a [flom_resource_t] for one of the six types and calls the type's own
    [init].  Here the union of the data of the six types is itself a
    [Resource], whose methods are those of the type it holds; what each
    implementation promises ([ResourceInv], [Terminating]) is put together for
    the union. *)
From Stdlib Require Import ZArith String List Lia.
From stdpp Require Import base list gmap numbers strings.
From S2P Require Import Prelude Types CStr RsrcName Msg MsgXml Vfs World LockMode ConnLock.
From S2P Require Import Resource Simple Numeric SetRsrc Sequence Timestamp Hier.
Local Open Scope string_scope.
Local Open Scope Z_scope.

(** ** [flom_resource_t]: the type and the union of the data.  [NoData] is the
    zeroed structure, whose method pointers are NULL. *)
Inductive rsrc_data : Type :=
| NoData
| SimpleData (d : simple)
| NumericData (d : numeric)
| SetData (d : rset)
| HierData (d : hier)
| SequenceData (d : sequence)
| TimestampData (d : timestamp).

(** [flom_resource_get_type] *)
Definition flom_resource_get_type (d : rsrc_data) : flom_rsrc_type :=
  match d with
  | NoData => FLOM_RSRC_TYPE_NULL
  | SimpleData _ => FLOM_RSRC_TYPE_SIMPLE
  | NumericData _ => FLOM_RSRC_TYPE_NUMERIC
  | SetData _ => FLOM_RSRC_TYPE_SET
  | HierData _ => FLOM_RSRC_TYPE_HIER
  | SequenceData _ => FLOM_RSRC_TYPE_SEQUENCE
  | TimestampData _ => FLOM_RSRC_TYPE_TIMESTAMP
  end.

(** The data of a type in zeroed memory, with its table of methods filled *)
Definition zeroed (t : flom_rsrc_type) : rsrc_data :=
  match t with
  | FLOM_RSRC_TYPE_NULL => NoData
  | FLOM_RSRC_TYPE_SIMPLE => SimpleData (Simple [] [])
  | FLOM_RSRC_TYPE_NUMERIC => NumericData (Numeric 0 0 [] [])
  | FLOM_RSRC_TYPE_SET => SetData (Rset 0 [] [])
  | FLOM_RSRC_TYPE_HIER => HierData (Hier None [])
  | FLOM_RSRC_TYPE_SEQUENCE => SequenceData (Sequence 0 0 0 None [] [])
  | FLOM_RSRC_TYPE_TIMESTAMP =>
      TimestampData (Timestamp "" (Timeval 0 0) 0 0 (Timeval 0 0) [] [])
  end.

(** ** Calling a method through its pointer *)
Definition recast {D E : Type} (f : D -> E) (s : st D) : st E :=
  St (s_name s) (f (s_data s)) (s_msg s) (s_world s) (s_deadline s).

Definition embed {D A : Type} (inj : D -> rsrc_data) (d : D) (m : Res D A) : Res rsrc_data A :=
  fun s => let '(r, s') := m (recast (fun _ => d) s) in (r, recast inj s').

Section rsrc.
Context `{Glib, Calendar}.

Definition method {A : Type} (f : forall D, Resource D -> Res D A) : Res rsrc_data A :=
  fun s =>
    match s_data s with
    | NoData => throw Ub s
    | SimpleData d => embed SimpleData d (f simple _) s
    | NumericData d => embed NumericData d (f numeric _) s
    | SetData d => embed SetData d (f rset _) s
    | HierData d => embed HierData d (f hier _) s
    | SequenceData d => embed SequenceData d (f sequence _) s
    | TimestampData d => embed TimestampData d (f timestamp _) s
    end.

(** ** [flom_resource_init] *)
Definition flom_resource_init (t : flom_rsrc_type) (name : string) : Res rsrc_data unit :=
  _ ← when (bool_decide (t = FLOM_RSRC_TYPE_NULL)) (throw (Rc FLOM_RC_OUT_OF_RANGE));
  _ ← modify (fun s => put_name None (put_data (zeroed t) s));
  method (fun D _ => res_init name).

(** ** [flom_resource_free]: nothing when the pointer is NULL *)
Definition flom_resource_free : Res rsrc_data unit := fun s =>
  match s_data s with
  | NoData => (inr tt, s)
  | _ => method (fun D _ => res_free) s
  end.

(** The daemon initializes a resource with the type of its name. *)
#[export] Instance any_resource : Resource rsrc_data := {
  res_init name := flom_resource_init (flom_rsrc_get_type name) name;
  res_inmsg uid conn := method (fun D _ => res_inmsg uid conn);
  res_clean uid conn := method (fun D _ => res_clean uid conn);
  res_free := flom_resource_free;
  res_timeout uid := method (fun D _ => res_timeout uid);
  res_compare_name name := method (fun D _ => res_compare_name name)
}.
End rsrc.

(** ** What the six types promise, for the union *)
Definition rsrc_ok (d : rsrc_data) (m : flom_msg) : Prop :=
  match d with
  | SimpleData d => simple_request_ok d m
  | NumericData d => numeric_request_ok d m
  | HierData d => hier_request_ok d m
  | _ => True
  end.

Definition rsrc_inv (d : rsrc_data) : Prop :=
  match d with
  | NoData => False
  | SimpleData d => simple_inv d
  | NumericData d => numeric_inv d
  | SetData d => exists names, set_inv names d
  | HierData d => hier_inv d
  | SequenceData d => sequence_inv d
  | TimestampData d => timestamp_inv d
  end.

Section promises.
Context `{Glib, Calendar}.

Lemma wp_embed {D A} (inj : D -> rsrc_data) d (m : Res D A) (Q : err + A -> st rsrc_data -> Prop) s :
  wp m (fun r s' => Q r (recast inj s')) (recast (fun _ => d) s) -> wp (embed inj d m) Q s.
Proof. unfold wp, embed. by destruct (m _). Qed.

(** A method is called for the type the union holds. *)
Lemma wp_method {A} (f : forall D, Resource D -> Res D A) Q s :
  match s_data s with
  | NoData => Q (inl Ub) s
  | SimpleData d => wp (f simple _) (fun r s' => Q r (recast SimpleData s')) (recast (fun _ => d) s)
  | NumericData d => wp (f numeric _) (fun r s' => Q r (recast NumericData s')) (recast (fun _ => d) s)
  | SetData d => wp (f rset _) (fun r s' => Q r (recast SetData s')) (recast (fun _ => d) s)
  | HierData d => wp (f hier _) (fun r s' => Q r (recast HierData s')) (recast (fun _ => d) s)
  | SequenceData d =>
      wp (f sequence _) (fun r s' => Q r (recast SequenceData s')) (recast (fun _ => d) s)
  | TimestampData d =>
      wp (f timestamp _) (fun r s' => Q r (recast TimestampData s')) (recast (fun _ => d) s)
  end -> wp (method f) Q s.
Proof.
  unfold wp at 7. unfold method. destruct (s_data s) as [|d|d|d|d|d|d]; intros HQ.
  - exact HQ.
  - by apply wp_embed in HQ.
  - by apply wp_embed in HQ.
  - by apply wp_embed in HQ.
  - by apply wp_embed in HQ.
  - by apply wp_embed in HQ.
  - by apply wp_embed in HQ.
Qed.

Lemma wp_rsrc_init t name s :
  wp (flom_resource_init t name) (fun r s' => r = inr tt -> rsrc_inv (s_data s')) s.
Proof.
  unfold flom_resource_init. do 2 wp_step; [by wp_step|]. do 2 wp_step. apply wp_method.
  destruct t; [done | | | | | |].
  - exact (init_inv (D := simple) name _).
  - exact (init_inv (D := numeric) name _).
  - exact (init_inv (D := rset) name _).
  - exact (init_inv (D := hier) name _).
  - exact (init_inv (D := sequence) name _).
  - exact (init_inv (D := timestamp) name _).
Qed.

(** *** The type is fixed by [flom_resource_init] *)
Lemma embed_type {D A} (inj : D -> rsrc_data) d (m : Res D A) s t :
  (forall d, flom_resource_get_type (inj d) = t) ->
  flom_resource_get_type (s_data (embed inj d m s).2) = t.
Proof. intros Ht. unfold embed. destruct (m _). apply Ht. Qed.

Lemma method_type {A} (f : forall D, Resource D -> Res D A) s :
  flom_resource_get_type (s_data (method f s).2) = flom_resource_get_type (s_data s).
Proof.
  unfold method. destruct (s_data s) eqn:E; cbn [flom_resource_get_type];
    [by cbn; rewrite E | by apply embed_type..].
Qed.

Lemma wp_rsrc_init_type t name s :
  wp (flom_resource_init t name) (fun r s' => r = inr tt ->
    flom_resource_get_type (s_data s') = t /\ t <> FLOM_RSRC_TYPE_NULL) s.
Proof.
  unfold flom_resource_init. do 2 wp_step; [by wp_step|]. do 2 wp_step. unfold wp.
  pose proof (method_type (fun D _ => res_init name) (put_name None (put_data (zeroed t) s))) as Ht.
  destruct (method _ _) as [r s']. intros _. cbn in Ht |- *. rewrite Ht.
  split; [by destruct t|]. by intros ->.
Qed.

Lemma resource_step_type x y :
  resource_step rsrc_ok x y -> flom_resource_get_type y.2 = flom_resource_get_type x.2.
Proof.
  intros Hs. destruct Hs as [uid conn n d m w dl s' r Hok E Hr | uid conn n d m w dl s' r E Hr
                            | uid n d m w dl s' r E Hr]; cbn [snd];
    change s' with (r, s').2; rewrite <- E; apply method_type.
Qed.

#[export] Instance rsrc_resource_inv : ResourceInv rsrc_data rsrc_ok rsrc_inv.
Proof.
  constructor.
  - intros name s. apply wp_rsrc_init.
  - intros uid conn [n d m w dl] Hok Hinv. apply wp_method.
    destruct d as [|d|d|d|d|d|d]; [done|..];
      exact (inmsg_inv uid conn (St n d m w dl) Hok Hinv).
  - intros uid conn [n d m w dl] Hinv. apply wp_method.
    destruct d as [|d|d|d|d|d|d]; [done|..]; exact (clean_inv uid conn (St n d m w dl) Hinv).
  - intros uid [n d m w dl] Hinv. apply wp_method.
    destruct d as [|d|d|d|d|d|d]; [done|..]; exact (timeout_inv uid (St n d m w dl) Hinv).
Qed.
End promises.

(** ** Termination

    The only loops with fuel are the scans of the queue; granting a request
    leaves the queue as it is after the request was popped, so the fuel is
    enough. *)
Section termination.
Context `{Glib, Calendar}.

(** What leaves the data alone leaves the queue alone. *)
Definition queue_of {D I} (q : D -> list (conn_lock I)) (s : st D) : list (conn_lock I) :=
  q (s_data s).

#[local] Instance keeps_queue {D I A} (q : D -> list (conn_lock I)) (m : Res D A) :
  Frame m -> Keeps (queue_of q) m.
Proof. intros Hm s. destruct (Hm s) as [Hd _]. unfold queue_of. by rewrite Hd. Qed.
#[local] Instance frame_c_int {D} z : Frame (c_int (D := D) z).
Proof. unfold c_int. solve_frame. Qed.

Lemma queue_terminates {D I G} (queue : D -> list (conn_lock I)) set_queue
    (try_lock : conn_lock I -> Res D (option G)) grant :
  (forall q d, queue (set_queue q d) = q) ->
  (forall cl, terminates (try_lock cl)) -> (forall g cl, terminates (grant g cl)) ->
  (forall cl, Keeps (queue_of queue) (try_lock cl)) ->
  (forall g cl, Keeps (queue_of queue) (grant g cl)) ->
  terminates (scan_waitings queue set_queue try_lock grant).
Proof. intros Hq Ht Hg Hkt Hkg. apply scan_terminates; [done..|apply Hkt|apply Hkg]. Qed.

Lemma keeps_on_error {S T A} (f : S -> T) (m : M err S A) g :
  Keeps f m -> (forall s, f (g s) = f s) -> Keeps f (on_error m g).
Proof.
  intros Hm Hg s. unfold on_error. pose proof (Hm s) as E. destruct (m s) as [[e|a] s']; cbn in *.
  - by rewrite Hg.
  - done.
Qed.

(** Unfold the definitions of a resource, then follow their structure. *)
Ltac solve_scan :=
  apply queue_terminates; intros; first [done | solve_keeps | solve_terminates].

#[export] Instance simple_terminating : Terminating simple.
Proof.
  assert (Hw : terminates flom_resource_simple_waitings).
  { unfold flom_resource_simple_waitings, simple_try, simple_grant, Simple.push_holder,
      flom_resource_simple_can_lock. solve_scan. }
  assert (Hc : forall u c, terminates (flom_resource_simple_clean u c)).
  { intros u c. unfold flom_resource_simple_clean. solve_terminates. }
  constructor; intros; cbn; unfold flom_resource_simple_init, flom_resource_simple_inmsg,
    simple_lock, simple_unlock, Simple.push_holder, flom_resource_simple_can_lock,
    flom_resource_simple_free, flom_resource_timeout, flom_resource_compare_name;
    first [apply Hc | solve_terminates].
Qed.

#[export] Instance numeric_terminating : Terminating numeric.
Proof.
  assert (Hw : terminates flom_resource_numeric_waitings).
  { unfold flom_resource_numeric_waitings, numeric_try, numeric_grant, Numeric.push_holder,
      Numeric.add_locked, flom_resource_numeric_can_lock. solve_scan. }
  assert (Hc : forall u c, terminates (flom_resource_numeric_clean u c)).
  { intros u c. unfold flom_resource_numeric_clean, Numeric.add_locked. solve_terminates. }
  constructor; intros; cbn; unfold flom_resource_numeric_init, flom_resource_numeric_inmsg,
    numeric_lock, numeric_unlock, Numeric.push_holder, Numeric.add_locked,
    flom_resource_numeric_can_lock, flom_resource_numeric_free, flom_resource_timeout,
    flom_resource_compare_name; first [apply Hc | solve_terminates].
Qed.

#[export] Instance set_terminating : Terminating rset.
Proof.
  assert (Hw : terminates flom_resource_set_waitings).
  { unfold flom_resource_set_waitings, set_try, set_grant. solve_scan. }
  assert (Hc : forall u c, terminates (flom_resource_set_clean u c)).
  { intros u c. unfold flom_resource_set_clean. solve_terminates. }
  constructor; intros; cbn; unfold flom_resource_set_init, flom_resource_set_inmsg,
    set_lock, set_unlock, flom_resource_set_free, flom_resource_timeout,
    flom_resource_compare_name; first [apply Hc | solve_terminates].
Qed.

#[local] Instance keeps_sequence_get : Keeps (queue_of Sequence.waitings) sequence_get.
Proof.
  intros s. unfold sequence_get, queue_of, mbind, M_bind, gets. cbn.
  destruct (flom_resource_sequence_get (s_data s)) as [v d] eqn:E. cbn. revert E.
  unfold flom_resource_sequence_get, fresh_value.
  destruct (rolled_back (s_data s)) as [[|v' l]|]; [|destruct (v' =? 0)|]; cbn;
    try destruct (next_value _ =? 0); by intros [= <- <-].
Qed.
Lemma sequence_get_terminates : terminates sequence_get.
Proof. unfold sequence_get. solve_terminates. Qed.
#[local] Hint Resolve sequence_get_terminates : terminates.

#[export] Instance sequence_terminating : Terminating sequence.
Proof.
  assert (Hw : forall u, terminates (flom_resource_sequence_waitings u)).
  { intros u. unfold flom_resource_sequence_waitings, sequence_try, sequence_grant,
      Sequence.push_holder, Sequence.add_locked, flom_resource_sequence_can_lock. solve_scan. }
  assert (Hc : forall u c, terminates (flom_resource_sequence_clean u c)).
  { intros u c. unfold flom_resource_sequence_clean, Sequence.add_locked. solve_terminates. }
  constructor; intros; cbn; unfold flom_resource_sequence_init, flom_resource_sequence_inmsg,
    sequence_lock, sequence_unlock, Sequence.push_holder, Sequence.add_locked,
    flom_resource_sequence_can_lock, flom_resource_sequence_free, flom_resource_timeout,
    flom_resource_compare_name; first [apply Hc | solve_terminates].
Qed.


Lemma timestamp_can_lock_terminates : terminates flom_resource_timestamp_can_lock.
Proof.
  unfold flom_resource_timestamp_can_lock. solve_terminates.
Qed.
Lemma timestamp_get_terminates : terminates flom_resource_timestamp_get.
Proof.
  unfold flom_resource_timestamp_get. solve_terminates.
Qed.
#[local] Hint Resolve timestamp_can_lock_terminates timestamp_get_terminates : terminates.

#[export] Instance timestamp_terminating : Terminating timestamp.
Proof.
  assert (Hw : forall u, terminates (flom_resource_timestamp_waitings u)).
  { intros u. unfold flom_resource_timestamp_waitings, timestamp_try, timestamp_grant,
      Timestamp.push_holder, Timestamp.add_locked, Timestamp.strcat_newline.
    apply queue_terminates; intros; [done | | | |];
      unfold flom_resource_timestamp_can_lock, flom_resource_timestamp_get;
      first [solve_keeps | fold flom_resource_timestamp_can_lock flom_resource_timestamp_get;
             solve_terminates]. }
  assert (Hc : forall u c, terminates (flom_resource_timestamp_clean u c)).
  { intros u c. unfold flom_resource_timestamp_clean, Timestamp.add_locked. solve_terminates. }
  constructor; intros; cbn; unfold flom_resource_timestamp_init, flom_resource_timestamp_inmsg,
    timestamp_lock, timestamp_answer, timestamp_unlock, Timestamp.push_holder,
    Timestamp.add_locked, Timestamp.strcat_newline, flom_resource_timestamp_timeout,
    flom_resource_timestamp_free, flom_resource_compare_name; first [apply Hc | solve_terminates].
Qed.

Lemma extend_tree_terminates ls idx : terminates (extend_tree ls idx).
Proof.
  revert idx. induction ls as [|l ls IH]; intros idx; cbn [extend_tree]; [solve_terminates|].
  solve_terminates.
Qed.
#[local] Instance keeps_extend_tree ls idx : Keeps (queue_of Hier.waitings) (extend_tree ls idx).
Proof. revert idx. induction ls as [|l ls IH]; intros idx; cbn [extend_tree]; solve_keeps. Qed.
#[local] Hint Resolve extend_tree_terminates : terminates.

#[export] Instance hier_terminating : Terminating hier.
Proof.
  assert (Ha : forall cl ls, terminates (flom_resource_hier_add_locker cl ls)).
  { intros cl ls. unfold flom_resource_hier_add_locker. solve_terminates. }
  assert (Hw : terminates flom_resource_hier_waitings).
  { unfold flom_resource_hier_waitings, hier_try, hier_grant, hier_can_lock.
    apply queue_terminates; intros; [done | solve_terminates | solve_terminates | solve_keeps |].
    unfold flom_resource_hier_add_locker. apply keeps_bind; [solve_keeps | intros node].
    apply keeps_bind; [|intros ?; solve_keeps]. by apply keeps_on_error; [apply _|]. }
  assert (Hc : forall u c, terminates (flom_resource_hier_clean u c)).
  { intros u c. unfold flom_resource_hier_clean. solve_terminates. }
  constructor; intros; cbn; unfold flom_resource_hier_init, flom_resource_hier_inmsg,
    hier_lock, hier_unlock, hier_can_lock, flom_resource_hier_free, flom_resource_timeout,
    flom_resource_hier_compare_name, flom_resource_hier_change_name;
    first [apply Hc | solve_terminates].
Qed.

Lemma embed_terminates {D A} (inj : D -> rsrc_data) d (m : Res D A) :
  terminates m -> terminates (embed inj d m).
Proof. intros Hm s. specialize (Hm (recast (fun _ => d) s)). unfold embed. by destruct (m _). Qed.

Lemma method_terminates {A} (f : forall D, Resource D -> Res D A) :
  (forall D `{HD : Resource D}, Terminating D -> terminates (f D HD)) -> terminates (method f).
Proof.
  intros Hf s. unfold method.
  destruct (s_data s); [done | apply embed_terminates, Hf, _..].
Qed.

Lemma rsrc_init_terminates t name : terminates (flom_resource_init t name).
Proof.
  unfold flom_resource_init. do 2 (apply terminates_bind; [solve_terminates | intros ?]).
  apply method_terminates. intros. apply init_terminates.
Qed.

#[export] Instance rsrc_terminating : Terminating rsrc_data.
Proof.
  constructor; intros.
  - apply rsrc_init_terminates.
  - apply method_terminates. intros. apply inmsg_terminates.
  - apply method_terminates. intros. apply clean_terminates.
  - intros s. unfold res_free, any_resource, flom_resource_free.
    destruct (s_data s) eqn:E; [done|..]; apply method_terminates; intros; apply free_terminates.
  - apply method_terminates. intros. apply timeout_terminates.
  - apply method_terminates. intros. apply compare_terminates.
Qed.
End termination.

(** ** Theorems *)
Section theorems.
Context `{Glib, Calendar}.

(** C15: termination.  Every method of a resource of any type returns, from any
    state and in any world: the scans of the queue, the only loops with fuel,
    never run out of it. *)
Theorem resource_methods_terminate :
  (forall name, terminates (res_init (D := rsrc_data) name)) /\
  (forall uid conn, terminates (res_inmsg (D := rsrc_data) uid conn)) /\
  (forall uid conn, terminates (res_clean (D := rsrc_data) uid conn)) /\
  (forall uid, terminates (res_timeout (D := rsrc_data) uid)) /\
  terminates (res_free (D := rsrc_data)) /\
  (forall name, terminates (res_compare_name (D := rsrc_data) name)).
Proof.
  split_and!; [exact init_terminates | exact inmsg_terminates | exact clean_terminates |
    exact timeout_terminates | exact free_terminates | exact compare_terminates].
Qed.

(** C16: type.  A resource initialized with success has the type its name has,
    and keeps it, and its data stay well formed for that type, through any
    disconnections, timeouts and requests with one of the six modes, a quantity
    that is not negative and, for a tree, a name under its root. *)
Theorem resource_well_formed name s s' n d :
  res_init name s = (inr tt, s') ->
  rtc (resource_step rsrc_ok) (s_name s', s_data s') (n, d) ->
  flom_resource_get_type d = flom_rsrc_get_type name /\
  flom_rsrc_get_type name <> FLOM_RSRC_TYPE_NULL /\ rsrc_inv d.
Proof.
  intros Hi Hr. change d with (n, d).2. revert Hr. generalize (n, d). intros y Hr.
  pose proof (wp_rsrc_init (flom_rsrc_get_type name) name s) as Hv.
  pose proof (wp_rsrc_init_type (flom_rsrc_get_type name) name s) as Ht.
  unfold wp in Hv, Ht. cbn [res_init any_resource] in Hi. rewrite Hi in Hv, Ht.
  specialize (Hv eq_refl). specialize (Ht eq_refl) as [Ht Hn]. cbn in Ht.
  enough (flom_resource_get_type y.2 = flom_rsrc_get_type name /\ rsrc_inv y.2) by tauto.
  remember (s_name s', s_data s') as x eqn:Ex.
  assert (Hx : flom_resource_get_type x.2 = flom_rsrc_get_type name /\ rsrc_inv x.2) by (by subst x).
  clear Ex Hi Hv Ht Hn. induction Hr as [x|x z y Hs _ IH]; [done|]. apply IH.
  destruct Hx as [Htx Hix]. split.
  - rewrite <- Htx. by apply resource_step_type.
  - eapply resource_step_wp; [exact inmsg_inv | exact clean_inv | exact timeout_inv |
      exact Hs | exact Hix].
Qed.
End theorems.

(** ** The theorems at concrete inputs *)
Definition demo_any_name : string := "pool[5]".
Definition demo_any_request : flom_msg :=
  lock_request (demo_request FLOM_LOCK_MODE_EX 1 2).
Definition demo_any : st rsrc_data :=
  recast (fun _ => NumericData (Numeric 5 0 [] []))
    (put_name (Some demo_any_name) (demo_st tt demo_any_request)).

Lemma resource_well_formed_witness :
  flom_rsrc_get_type demo_any_name = FLOM_RSRC_TYPE_NUMERIC /\
  rsrc_inv (NumericData (Numeric 5 2 [Conn_lock 2 None 0 1%positive] [])).
Proof.
  refine (_ (@resource_well_formed demo_glib demo_calendar demo_any_name
    (recast (fun _ => NoData) demo_any) demo_any (Some demo_any_name)
    (NumericData (Numeric 5 2 [Conn_lock 2 None 0 1%positive] [])) eq_refl _)).
  - intros (Ht & _ & Hi). exact (conj (eq_sym Ht) Hi).
  - apply rtc_once. apply (step_inmsg_eq rsrc_ok 7 1%positive demo_any_request
      (s_world demo_any) (s_deadline demo_any) _ _ (inr tt)); [by intros b _ [= <-] | done | reflexivity].
Defined.
