(* ===== verification/Route.v ===== *)
(** * Route: which resource a name belongs to

    The daemon looks for the locker of a request with the method
    [compare_name].  What it compares is determined by a key: the first level
    of the name for a hierarchical resource, the whole name for the others.
    The key of a resource is the one of the name it was initialized with, and
    never changes. *)
From Stdlib Require Import ZArith String Ascii List Lia.
From stdpp Require Import base list gmap numbers strings relations.
From S2P Require Import Prelude Types CStr RsrcName Msg MsgXml Vfs World LockMode ConnLock.
From S2P Require Import Resource Simple Numeric SetRsrc Sequence Timestamp Hier Rsrc.
Local Open Scope string_scope.
Local Open Scope Z_scope.

Inductive route : Type :=
| Whole (name : option string)
| Tree (root : option string).

#[global] Instance route_eq_dec : EqDecision route.
Proof. solve_decision. Defined.

Definition resource_route (x : option string * rsrc_data) : route :=
  match x.2 with
  | HierData d => Tree (h_name <$> root d)
  | _ => Whole x.1
  end.

(** The names a resource with this key answers for *)
Definition matches (rt : route) (n : string) : bool :=
  match rt with
  | Whole o => bool_decide (o = Some n)
  | Tree r => starts_with_separator n && bool_decide (split_name n ≫= head = r)
  end.

(** The key of a name without a newline *)
Definition name_route (n : string) : route :=
  if starts_with_separator n then Tree (split_name n ≫= head) else Whole (Some n).

(** A resource that has been initialized *)
Definition routable (x : option string * rsrc_data) : Prop :=
  match x.2 with
  | NoData => False
  | HierData d => is_Some (root d)
  | _ => is_Some x.1
  end.

(** ** Names without a newline *)
Fixpoint no_newline (s : string) : bool :=
  match s with
  | EmptyString => true
  | String c s => negb (Ascii.eqb c newline) && no_newline s
  end.

(** An expression that only matches at the beginning of a line *)
Definition anchored (r : regex) : Prop :=
  forall (k : mstate -> option mstate) s, at_bol s = false -> rmatch r k s = None.

Lemma anchored_bol r : anchored (Seq Bol r).
Proof. intros k s Hs. cbn. by rewrite Hs. Qed.

Lemma anchored_alt a b : anchored a -> anchored b -> anchored (Alt a b).
Proof. intros Ha Hb k s Hs. cbn. by rewrite (Ha k s Hs), (Hb k s Hs). Qed.

Lemma search_anchored r rest : forall c pos,
  anchored r -> Ascii.eqb c newline = false -> no_newline rest = true ->
  search r (Some c) rest pos = None.
Proof.
  induction rest as [|d rest IH]; intros c pos Hr Hc Hn; cbn [search]; rewrite Hr by done; [done|].
  cbn in Hn. apply andb_true_iff in Hn as [Hd Hn]. apply IH; [done| by destruct (Ascii.eqb d _) | done].
Qed.

(** Only the name of a tree starts with the separator. *)
Lemma type_of_separator n :
  no_newline n = true -> starts_with_separator n = true ->
  flom_rsrc_get_type n = FLOM_RSRC_TYPE_HIER \/ flom_rsrc_get_type n = FLOM_RSRC_TYPE_NULL.
Proof.
  destruct n as [|c n]; [done|]. cbn [no_newline starts_with_separator]. intros Hn Hc.
  apply Ascii.eqb_eq in Hc as ->. cbn in Hn.
  assert (Hno : forall t, anchored (res_name_preg t) ->
    rmatch (res_name_preg t) Some (Mstate None (String FLOM_HIER_RESOURCE_SEPARATOR n) 0 []) = None ->
    name_matches t (String FLOM_HIER_RESOURCE_SEPARATOR n) = false).
  { intros t Ht Hm. unfold name_matches, regexec. cbn [search]. rewrite Hm.
    rewrite search_anchored by done. done. }
  unfold flom_rsrc_get_type, rsrc_types. cbn [List.find].
  rewrite (Hno FLOM_RSRC_TYPE_SIMPLE) by (done || apply anchored_alt; apply anchored_bol).
  rewrite (Hno FLOM_RSRC_TYPE_NUMERIC) by (done || apply anchored_bol).
  rewrite (Hno FLOM_RSRC_TYPE_SET) by (done || apply anchored_bol).
  rewrite (Hno FLOM_RSRC_TYPE_SEQUENCE) by (done || apply anchored_bol).
  rewrite (Hno FLOM_RSRC_TYPE_TIMESTAMP) by (done || apply anchored_bol).
  destruct (name_matches FLOM_RSRC_TYPE_HIER _); [by left | by right].
Qed.

Section route.
Context `{Glib, Calendar}.

(** ** [compare_name] compares the keys *)
Lemma compare_route n s :
  routable (s_name s, s_data s) ->
  (res_compare_name (D := rsrc_data) (Some n) s).1 =
    inr (matches (resource_route (s_name s, s_data s)) n).
Proof.
  destruct s as [nm d m w dl]. unfold routable, resource_route. cbn [s_name s_data fst snd].
  assert (Hw : forall D (inj : D -> rsrc_data) (d : D),
    (embed inj d (flom_resource_compare_name (Some n)) (St nm (inj d) m w dl)).1 =
      inr (matches (Whole nm) n)) by done.
  destruct d as [|d|d|d|d|d|d]; intros Hr; [done|by apply Hw..| | by apply Hw |by apply Hw].
  destruct Hr as [r Hr]. cbn [res_compare_name any_resource method s_data hier_resource].
  unfold embed, flom_resource_hier_compare_name, recast. cbn [s_name s_msg s_world s_deadline].
  unfold mbind, M_bind. cbn [of_option]. unfold mret, M_ret, matches. rewrite Hr.
  destruct n as [|c n]; [done|]. cbn [starts_with_separator split_name].
  destruct (Ascii.eqb c FLOM_HIER_RESOURCE_SEPARATOR); cbn; [|done]. by rewrite Hr.
Qed.

(** ** Initialization gives a resource the key of its name *)
Lemma strsplit_nonempty sep n : strsplit sep n <> [].
Proof.
  destruct n as [|c n]; [done|]. cbn. destruct (Ascii.eqb c sep); [done|]. by destruct (strsplit sep n).
Qed.

Lemma wp_init_hier n s :
  wp (flom_resource_hier_init n) (fun r s' => r = inr tt -> starts_with_separator n = true /\
    (flom_rsrc_get_type n = FLOM_RSRC_TYPE_HIER ->
     exists r, root (s_data s') = Some r /\ split_name n ≫= head = Some (h_name r))) s.
Proof.
  unfold flom_resource_hier_init. wp_step. wp_step; [by wp_step|]. apply negb_false_iff in H1.
  do 5 wp_step. wp_step; [|done]. wp_step.
  - wp_step. intros _. split; [done|]. intros Ht. destruct n as [|c [|c' n]]; [done| |].
    + cbn in H1. apply Ascii.eqb_eq in H1 as ->. by vm_compute in Ht.
    + injection H2 as H2. by apply (strsplit_nonempty FLOM_HIER_RESOURCE_SEPARATOR (String c' n)) in H2.
  - wp_step. apply wp_try_malloc. intros b w _ _. destruct b; [|by wp_step]. do 3 wp_step.
    eapply (wp_extend_tree _ [] _ (HNode s0 [] []) (HNode s0 [] [])); [done..| |].
    + by intros.
    + intros idx r' w' nd Hw Hl Hn _ _. wp_step. intros _. split; [done|]. intros _.
      exists r'. split; [done|]. by rewrite H2, Hn.
Qed.

Lemma wp_init_route n t s :
  t = flom_rsrc_get_type n ->
  wp (flom_resource_init t n) (fun r s' => r = inr tt ->
    routable (s_name s', s_data s') /\
    (starts_with_separator n = false \/ t = FLOM_RSRC_TYPE_HIER ->
     resource_route (s_name s', s_data s') = name_route n) /\
    matches (resource_route (s_name s', s_data s')) n = true) s.
Proof.
  intros Ht. unfold flom_resource_init. do 2 wp_step; [by wp_step|]. do 2 wp_step.
  apply wp_method. unfold name_route.
  destruct t; cbn [s_data zeroed put_data put_name]; [by intros|..];
    cbn [res_init simple_resource numeric_resource set_resource sequence_resource timestamp_resource
      hier_resource];
    unfold flom_resource_simple_init, flom_resource_numeric_init, flom_resource_set_init,
      flom_resource_sequence_init, flom_resource_timestamp_init, routable, resource_route, matches;
    cbn [recast s_name s_data fst snd].
  4: { eapply wp_mono; [|apply wp_init_hier]. intros r s' Hr E. destruct (Hr E) as (-> & Hroot).
       destruct (Hroot (eq_sym Ht)) as (rt & -> & ->). cbn. rewrite bool_decide_eq_true_2 by done.
       by split. }
  all: repeat wp_step; intros; try done; cbn; rewrite bool_decide_eq_true_2 by done;
    (split; [eauto|split; [by intros [->|]|done]]).
Qed.

(** A name without a newline determines the key of its resource. *)
Lemma type_route n :
  no_newline n = true -> flom_rsrc_get_type n <> FLOM_RSRC_TYPE_NULL ->
  starts_with_separator n = false \/ flom_rsrc_get_type n = FLOM_RSRC_TYPE_HIER.
Proof.
  intros Hn Ht. destruct (starts_with_separator n) eqn:E; [|by left]. right.
  by destruct (type_of_separator n Hn E).
Qed.

(** ** The methods leave the name of a resource alone, except for trees *)
#[local] Instance keeps_name {D A} (m : Res D A) : Frame m -> Keeps s_name m.
Proof. intros Hm s. apply Hm. Qed.
#[local] Instance keeps_name_c_int {D} z : Keeps s_name (c_int (D := D) z).
Proof. unfold c_int. solve_keeps. Qed.

Lemma scan_keeps {D I G T} (key : st D -> T) (queue : D -> list (conn_lock I)) set_queue
    (try_lock : conn_lock I -> Res D (option G)) grant :
  (forall i, Keeps key (modify (pop_nth queue set_queue i))) ->
  (forall cl, Keeps key (try_lock cl)) -> (forall g cl, Keeps key (grant g cl)) ->
  Keeps key (scan_waitings queue set_queue try_lock grant).
Proof.
  intros Hp Ht Hg. unfold scan_waitings. apply keeps_bind; [apply _|]. intros q.
  generalize 0%nat as i. induction (S (length q)) as [|n IH]; intros i; cbn [waitings_loop];
    solve_keeps.
Qed.

Class KeepsKey (D : Type) `{Resource D} {T} (key : st D -> T) : Prop := {
  inmsg_key : forall uid c, Keeps key (res_inmsg uid c);
  clean_key : forall uid c, Keeps key (res_clean uid c);
  timeout_key : forall uid, Keeps key (res_timeout uid)
}.

Ltac solve_scan_name := apply scan_keeps; intros; solve_keeps.

#[export] Instance simple_keeps_name : KeepsKey simple s_name.
Proof.
  assert (Hw : Keeps s_name flom_resource_simple_waitings).
  { unfold flom_resource_simple_waitings, simple_try, simple_grant, Simple.push_holder,
      flom_resource_simple_can_lock. solve_scan_name. }
  assert (Hc : forall u c, Keeps s_name (flom_resource_simple_clean u c)).
  { intros u c. unfold flom_resource_simple_clean. solve_keeps. }
  constructor; intros; cbn; unfold flom_resource_simple_inmsg,
    simple_lock, simple_unlock, Simple.push_holder, flom_resource_simple_can_lock,
    flom_resource_timeout, flom_resource_compare_name; first [apply Hc | solve_keeps].
Qed.

#[export] Instance numeric_keeps_name : KeepsKey numeric s_name.
Proof.
  assert (Hw : Keeps s_name flom_resource_numeric_waitings).
  { unfold flom_resource_numeric_waitings, numeric_try, numeric_grant, Numeric.push_holder,
      Numeric.add_locked, flom_resource_numeric_can_lock. solve_scan_name. }
  assert (Hc : forall u c, Keeps s_name (flom_resource_numeric_clean u c)).
  { intros u c. unfold flom_resource_numeric_clean, Numeric.add_locked. solve_keeps. }
  constructor; intros; cbn; unfold flom_resource_numeric_inmsg,
    numeric_lock, numeric_unlock, Numeric.push_holder, Numeric.add_locked,
    flom_resource_numeric_can_lock, flom_resource_timeout,
    flom_resource_compare_name; first [apply Hc | solve_keeps].
Qed.

#[export] Instance set_keeps_name : KeepsKey rset s_name.
Proof.
  assert (Hw : Keeps s_name flom_resource_set_waitings).
  { unfold flom_resource_set_waitings, set_try, set_grant. solve_scan_name. }
  assert (Hc : forall u c, Keeps s_name (flom_resource_set_clean u c)).
  { intros u c. unfold flom_resource_set_clean. solve_keeps. }
  constructor; intros; cbn; unfold flom_resource_set_inmsg, set_lock, set_unlock,
    flom_resource_timeout, flom_resource_compare_name; first [apply Hc | solve_keeps].
Qed.

#[local] Instance sequence_get_name : Keeps s_name sequence_get.
Proof. unfold sequence_get. solve_keeps. Qed.

#[export] Instance sequence_keeps_name : KeepsKey sequence s_name.
Proof.
  assert (Hw : forall u, Keeps s_name (flom_resource_sequence_waitings u)).
  { intros u. unfold flom_resource_sequence_waitings, sequence_try, sequence_grant,
      Sequence.push_holder, Sequence.add_locked, flom_resource_sequence_can_lock. solve_scan_name. }
  assert (Hc : forall u c, Keeps s_name (flom_resource_sequence_clean u c)).
  { intros u c. unfold flom_resource_sequence_clean, Sequence.add_locked. solve_keeps. }
  constructor; intros; cbn; unfold flom_resource_sequence_inmsg,
    sequence_lock, sequence_unlock, Sequence.push_holder, Sequence.add_locked,
    flom_resource_sequence_can_lock, flom_resource_timeout,
    flom_resource_compare_name; first [apply Hc | solve_keeps].
Qed.

#[local] Instance timestamp_can_lock_name : Keeps s_name flom_resource_timestamp_can_lock.
Proof. unfold flom_resource_timestamp_can_lock. solve_keeps. Qed.
#[local] Instance timestamp_get_name : Keeps s_name flom_resource_timestamp_get.
Proof. unfold flom_resource_timestamp_get. cbv zeta. solve_keeps. Qed.
#[local] Instance strcat_newline_name x : Keeps s_name (strcat_newline x).
Proof. unfold strcat_newline. solve_keeps. Qed.
#[local] Instance timestamp_locked_name z : Keeps s_name (Timestamp.add_locked z).
Proof. unfold Timestamp.add_locked. solve_keeps. Qed.
#[local] Instance timestamp_push_name c : Keeps s_name (Timestamp.push_holder c).
Proof. unfold Timestamp.push_holder. solve_keeps. Qed.

#[export] Instance timestamp_keeps_name : KeepsKey timestamp s_name.
Proof.
  assert (Hw : forall u, Keeps s_name (flom_resource_timestamp_waitings u)).
  { intros u. unfold flom_resource_timestamp_waitings, timestamp_try, timestamp_grant.
    solve_scan_name. }
  assert (Hc : forall u c, Keeps s_name (flom_resource_timestamp_clean u c)).
  { intros u c. unfold flom_resource_timestamp_clean. solve_keeps. }
  constructor; intros; cbn; unfold flom_resource_timestamp_inmsg,
    timestamp_lock, timestamp_answer, timestamp_unlock, flom_resource_timestamp_timeout,
    flom_resource_compare_name; first [apply Hc | solve_keeps].
Qed.

(** A tree keeps its root. *)
Definition rootname (s : st hier) : option string := h_name <$> root (s_data s).

Lemma rootname_update idx f d :
  (forall nd, h_name (f nd) = h_name nd) ->
  h_name <$> root (update_root idx f d) = h_name <$> root d.
Proof. intros Hf. destruct d as [[r|] q]; cbn; [|done]. by rewrite h_name_update. Qed.

#[local] Instance keeps_rootname {A} (m : Res hier A) : Frame m -> Keeps rootname m.
Proof. intros Hm s. unfold rootname. f_equal. f_equal. apply Hm. Qed.
#[local] Instance keeps_update idx f :
  (forall nd, h_name (f nd) = h_name nd) ->
  Keeps rootname (modify (fun s => put_data (update_root idx f (s_data s)) s)).
Proof. intros Hf s. by apply rootname_update. Qed.
#[local] Instance extend_tree_root ls : forall idx, Keeps rootname (extend_tree ls idx).
Proof.
  induction ls as [|l ls IH]; intros idx; cbn [extend_tree]; [apply _|].
  repeat (apply keeps_bind; [apply _|intros ?]). destruct a1; [|apply _].
  apply keeps_bind; [by apply keeps_update|]. intros _. apply IH.
Qed.
#[local] Instance add_locker_root cl ls : Keeps rootname (flom_resource_hier_add_locker cl ls).
Proof.
  unfold flom_resource_hier_add_locker. repeat (apply keeps_bind; [apply _|intros ?]).
  destruct (search_node _ _ _ _ _) as [[lv nd] lf].
  apply keeps_bind; [destruct lv, lf; apply _|]. intros ?.
  apply keeps_bind; [by apply keeps_update|]. intros _. apply _.
Qed.
#[local] Instance hier_grant_root ls cl : Keeps rootname (hier_grant ls cl).
Proof.
  unfold hier_grant. apply keeps_bind; [apply _|]. intros idx.
  apply keeps_bind; [|intros _; apply _]. apply keeps_on_error; [apply _|].
  intros s. by apply rootname_update.
Qed.
#[local] Instance hier_waitings_root : Keeps rootname flom_resource_hier_waitings.
Proof.
  unfold flom_resource_hier_waitings. apply scan_keeps; [done| |intros; apply _].
  intros cl. unfold hier_try, hier_can_lock. solve_keeps.
Qed.
#[local] Instance hier_clean_root uid c : Keeps rootname (flom_resource_hier_clean uid c).
Proof.
  intros s. change (wp (flom_resource_hier_clean uid c) (fun _ s' => rootname s' = rootname s) s).
  assert (Hend : forall s1, rootname s1 = rootname s ->
    wp (_ ← vfs_del_conn c;
        modify (fun s => put_data (set_root (flom_resource_hier_gc <$> root (s_data s))
          (s_data s)) s)) (fun _ s' => rootname s' = rootname s) s1).
  { intros s1 <-. wp_step. apply wp_frame; [apply _|]. unfold rootname.
    intros [e|u] s2 Hd _; cbn beta iota; [by rewrite Hd|]. wp_step. cbn.
    rewrite Hd. destruct (root (s_data s1)); cbn; [by rewrite gc_name|done]. }
  unfold flom_resource_hier_clean. do 3 wp_step. wp_step; [|done]. wp_step. wp_step; [|done].
  do 3 wp_step. wp_step; [|done]. wp_step. wp_step; [|done].
  destruct a2 as [k|].
  - wp_step. wp_step. wp_step. unfold wp.
    set (s0 := put_data (update_root _ _ _) s).
    assert (E : rootname s0 = rootname s) by by apply rootname_update.
    pose proof (hier_waitings_root s0) as E'.
    destruct (flom_resource_hier_waitings s0) as [[e|u] s1]; cbn beta iota;
      [exact (eq_trans E' E) | exact (Hend s1 (eq_trans E' E))].
  - do 2 wp_step. by apply Hend.
Qed.

#[export] Instance hier_keeps_root : KeepsKey hier rootname.
Proof.
  constructor; intros; [|apply hier_clean_root|apply _].
  cbn. unfold flom_resource_hier_inmsg, hier_lock, hier_unlock, hier_can_lock,
    flom_resource_hier_compare_name, flom_resource_hier_change_name. cbv zeta. solve_keeps.
Qed.

(** ** A method leaves the key of a resource alone *)
Definition same_route (x y : option string * rsrc_data) : Prop :=
  (routable x -> routable y) /\ resource_route y = resource_route x.

#[export] Instance same_route_preorder : PreOrder same_route.
Proof.
  split; [by intros x|]. intros x y z [H1 H2] [H3 H4]. split; [auto|]. by rewrite H4.
Qed.

Lemma wp_method_route {A} (f : forall D, Resource D -> Res D A) s :
  Keeps s_name (f simple _) -> Keeps s_name (f numeric _) -> Keeps s_name (f rset _) ->
  Keeps s_name (f sequence _) -> Keeps s_name (f timestamp _) -> Keeps rootname (f hier _) ->
  same_route (s_name s, s_data s) (s_name (method f s).2, s_data (method f s).2).
Proof.
  intros H1 H2 H3 H4 H5 H6. unfold method, same_route, routable, resource_route.
  assert (Hn : forall D (m : Res D A) inj (d : D), Keeps s_name m ->
    s_name (embed inj d m s).2 = s_name s).
  { intros D m inj d Hm. pose proof (Hm (recast (fun _ => d) s)) as E. unfold embed.
    by destruct (m _). }
  assert (Hd : forall D (m : Res D A) inj (d : D),
    exists d', s_data (embed inj d m s).2 = inj d').
  { intros D m inj d. unfold embed. destruct (m _) as [r s']. by exists (s_data s'). }
  cbn [fst snd]. destruct (s_data s) as [|d|d|d|d|d|d] eqn:E; [by cbn; rewrite E|..].
  4: { unfold embed. pose proof (H6 (recast (fun _ => d) s)) as E'. unfold rootname in E'.
       destruct (f hier _ _) as [r s']. cbn in E' |- *. rewrite E'. split; [|done].
       intros [x Hx]. rewrite Hx in E'. by destruct (root (s_data s')). }
  - destruct (Hd _ (f simple _) SimpleData d) as [d' ->]. by rewrite Hn.
  - destruct (Hd _ (f numeric _) NumericData d) as [d' ->]. by rewrite Hn.
  - destruct (Hd _ (f rset _) SetData d) as [d' ->]. by rewrite Hn.
  - destruct (Hd _ (f sequence _) SequenceData d) as [d' ->]. by rewrite Hn.
  - destruct (Hd _ (f timestamp _) TimestampData d) as [d' ->]. by rewrite Hn.
Qed.

Lemma step_route ok x y : resource_step (D := rsrc_data) ok x y -> same_route x y.
Proof.
  intros [uid conn n d m w dl s' r Hok E Hne | uid conn n d m w dl s' r E Hne
         | uid n d m w dl s' r E Hne];
    change s' with (r, s').2; rewrite <- E;
    change (n, d) with (s_name (St n d m w dl), s_data (St n d m w dl));
    apply wp_method_route; first [apply inmsg_key | apply clean_key | apply timeout_key].
Qed.

(** Nothing a locker does changes the names it answers for. *)
Lemma steps_route ok x y : rtc (resource_step (D := rsrc_data) ok) x y -> same_route x y.
Proof. induction 1 as [x | x y z Hs _ IH]; [done|]. transitivity y; [by eapply step_route|done]. Qed.

Lemma matches_route n m :
  matches (name_route n) m = bool_decide (name_route n = name_route m) \/
  starts_with_separator n = false /\ starts_with_separator m = true.
Proof.
  unfold name_route, matches. destruct (starts_with_separator n), (starts_with_separator m); cbn.
  - left. apply bool_decide_ext. split; [by intros ->| by intros [= ->]].
  - left. by rewrite bool_decide_eq_false_2.
  - by right.
  - left. apply bool_decide_ext. split; [by intros [= ->] | by intros [= ->]].
Qed.

(** ** Theorem *)

(** C40: equivalence.  A resource that was initialized with a name answers
    [compare_name] the same way during all of its life, whatever messages it
    is sent: with success for the names whose key is its own.  When neither
    name has a newline, those are the names with the key of the name it was
    initialized with: the same first level if that name is a path, the same
    name if it is not.

    With a newline a name that starts with the separator can have another
    type, since the expressions are compiled with [REG_NEWLINE]. *)
Theorem compare_name_correct ok n m s s' nm d msg w dl :
  res_init (D := rsrc_data) n s = (inr tt, s') ->
  rtc (resource_step ok) (s_name s', s_data s') (nm, d) ->
  let key := resource_route (s_name s', s_data s') in
  (res_compare_name (Some m) (St nm d msg w dl)).1 = inr (matches key m) /\
  (no_newline n = true -> key = name_route n) /\
  (no_newline n = true -> no_newline m = true -> flom_rsrc_get_type m <> FLOM_RSRC_TYPE_NULL ->
   matches key m = bool_decide (name_route n = name_route m)).
Proof.
  intros Hi Hs key. pose proof (wp_init_route n _ s eq_refl) as Hr. pose proof (wp_rsrc_init_type
    (flom_rsrc_get_type n) n s) as Ht. unfold wp in Hr, Ht. cbn [res_init any_resource] in Hi. rewrite Hi in Hr, Ht.
  cbn [fst snd] in Hr, Ht.
  destruct (Hr eq_refl) as (Ho & Hk & Hm). destruct (Ht eq_refl) as [_ Hty].
  apply steps_route in Hs as [Ho' Hk']. split; [|split].
  - rewrite compare_route by auto. unfold key. by rewrite <- Hk'.
  - intros Hn. by apply Hk, type_route.
  - intros Hn Hnm Htm. unfold key. rewrite Hk by by apply type_route.
    destruct (matches_route n m) as [->|[Hsn Hsm]]; [done|].
    unfold matches, name_route. rewrite Hsn, Hsm. apply bool_decide_ext.
    split; [|done]. intros [= ->]. congruence.
Qed.
End route.

(** ** The theorem at a concrete input: a tree and a name below its root *)
Definition demo_path : string := "/a/b".
Definition demo_below : string := "/a/c/d".
Definition demo_tree : hier :=
  Hier (Some (HNode "a" [] [HNode "b" [] []])) [].
Definition demo_zero : st rsrc_data := recast (fun _ => NoData) (demo_st tt flom_msg_init).

Lemma compare_name_correct_witness :
  matches (Tree (Some "a")) demo_below = true /\
  matches (Tree (Some "a")) demo_below = bool_decide (name_route demo_path = name_route demo_below).
Proof.
  refine (_ (@compare_name_correct demo_glib demo_calendar (fun _ _ => True) demo_path demo_below
    demo_zero (recast (fun _ => HierData demo_tree) (put_name (Some demo_path) demo_zero))
    (Some demo_path) (HierData demo_tree) flom_msg_init (s_world demo_zero) (Timeval 0 0) _ _)).
  - cbv zeta. intros (_ & _ & Hm). split; [reflexivity|].
    exact (Hm eq_refl eq_refl ltac:(vm_compute; discriminate)).
  - vm_compute. reflexivity.
  - apply rtc_refl.
Defined.
