(* ===== verification/Conns.v ===== *)
(** * Conns: tables of connections

    [flom_conns_t] of [src/src/flom_conns.c], the array of connections that the
    daemon and each locker poll, with the operations of [src/src/flom_conn.c]
    and [src/src/flom_tcp.c] that end a connection.  The array holds pointers:
    the connections themselves are in the world, and a deleted one is no longer
    there, so a later use through a stale pointer is undefined. *)
From Stdlib Require Import ZArith String List Lia.
From stdpp Require Import base list gmap numbers strings.
From S2P Require Import Prelude Types CStr RsrcName Msg MsgXml Vfs World.
From S2P Require Import ConnLock.
Local Open Scope Z_scope.

(** ** [flom_conns_t].  The poll array is rebuilt before every poll. *)
Record flom_conns : Type := Conns {
  cs_array : list conn_ref;
  cs_domain : Z;
  cs_last_uid : Z
}.

Definition set_array (l : list conn_ref) (cs : flom_conns) : flom_conns :=
  Conns l (cs_domain cs) (cs_last_uid cs).

(** The table, the world and the results of the calls of [close] to come
    ([true] is success, also when there is none left) *)
Record net : Type := Net {
  n_conns : flom_conns;
  n_world : world;
  n_closes : list bool
}.

Definition put_conns (cs : flom_conns) (n : net) : net := Net cs (n_world n) (n_closes n).
Definition put_nworld (w : world) (n : net) : net := Net (n_conns n) w (n_closes n).

Definition Cm (A : Type) : Type := M err net A.
Definition on_nworld {A} (m : Wm A) : Cm A := zoom n_world put_nworld m.

Definition close_fd : Cm bool := fun n =>
  match n_closes n with
  | [] => (inr true, n)
  | b :: l => (inr b, Net (n_conns n) (n_world n) l)
  end.

(** ** The fields of a connection *)
Definition set_conn_state (x : flom_conn_state) (c : flom_conn) : flom_conn :=
  Conn (c_uid c) x (c_wait c) (c_last_step c) (c_peer_name c) (c_tls c) (c_fd c) (c_msg c).
Definition set_wait (x : bool) (c : flom_conn) : flom_conn :=
  Conn (c_uid c) (c_state c) x (c_last_step c) (c_peer_name c) (c_tls c) (c_fd c) (c_msg c).
Definition set_fd (x : Z) (c : flom_conn) : flom_conn :=
  Conn (c_uid c) (c_state c) (c_wait c) (c_last_step c) (c_peer_name c) (c_tls c) x (c_msg c).
Definition set_conn_msg (x : flom_msg) (c : flom_conn) : flom_conn :=
  Conn (c_uid c) (c_state c) (c_wait c) (c_last_step c) (c_peer_name c) (c_tls c) (c_fd c) x.

(** A store through a connection pointer *)
Definition store (c : conn_ref) (f : flom_conn -> flom_conn) : Wm unit :=
  o ← deref c;
  modify (fun w => set_conns (<[c := f o]> (w_conns w)) w).

(** [flom_conn_delete] *)
Definition flom_conn_delete (c : conn_ref) : Wm unit :=
  _ ← deref c;
  modify (fun w => set_conns (delete c (w_conns w)) w).

(** ** The operations of the table *)
Definition flom_conns_init (domain : Z) : flom_conns := Conns [] domain 0.

Definition flom_conns_add_conn (c : conn_ref) : Cm unit :=
  modify (fun n => put_conns (set_array (cs_array (n_conns n) ++ [c]) (n_conns n)) n).

Definition flom_conns_import (fd : Z) (c : conn_ref) : Cm unit := flom_conns_add_conn c.

Definition flom_conns_get_used : Cm nat := gets (fun n => length (cs_array (n_conns n))).

(** [flom_conns_get_conn]: [None] is NULL *)
Definition flom_conns_get_conn (id : nat) : Cm (option conn_ref) :=
  gets (fun n => cs_array (n_conns n) !! id).

(** [flom_conns_get_new_uid]: [++last_uid] on an unsigned long *)
Definition flom_conns_get_new_uid : Cm Z :=
  cs ← gets n_conns;
  let uid := (cs_last_uid cs + 1) mod 18446744073709551616 in
  _ ← modify (fun n => put_conns (Conns (cs_array cs) (cs_domain cs) uid) n);
  mret uid.

(** [flom_conns_get_fds]: the descriptors to poll; NULL when [realloc] fails *)
Definition flom_conns_get_fds : Cm (option (list Z)) :=
  ok ← on_nworld g_try_malloc;
  if (ok : bool) then
    l ← gets (fun n => cs_array (n_conns n));
    w ← gets n_world;
    fds ← of_option Ub (mapM (fun c => c_fd <$> w_conns w !! c) l);
    mret (Some fds)
  else mret None.

(** [flom_conns_set_events] *)
Definition flom_conns_set_events : Cm unit :=
  l ← gets (fun n => cs_array (n_conns n));
  w ← gets n_world;
  os ← of_option Ub (mapM (fun c => w_conns w !! c) l);
  when (negb (forallb has_fd os)) (throw (Rc FLOM_RC_OBJ_CORRUPTED)).

(** [g_ptr_array_remove_index_fast]: the last element takes the place *)
Definition remove_index_fast {A} (i : nat) (l : list A) : list A :=
  match last l with
  | Some z => take (length l - 1) (<[i := z]> l)
  | None => l
  end.

(** ** Ending a connection *)

(** [flom_tcp_close] *)
Definition flom_tcp_close (c : conn_ref) : Cm unit :=
  o ← on_nworld (deref c);
  when (has_fd o) (
    ok ← close_fd;
    if (ok : bool) then on_nworld (store c (set_fd FLOM_NULL_FD))
    else throw (Rc FLOM_RC_CLOSE_ERROR)).

(** [flom_conn_terminate] *)
Definition flom_conn_terminate (c : conn_ref) : Cm unit :=
  o ← on_nworld (deref c);
  match c_state o with
  | FLOM_CONN_STATE_REMOVE => mret tt
  | _ =>
      _ ← on_nworld (store c (set_conn_state FLOM_CONN_STATE_REMOVE));
      when (has_fd o) (flom_tcp_close c)
  end.

(** [flom_conns_close_fd] *)
Definition flom_conns_close_fd (id : nat) : Cm unit :=
  o ← flom_conns_get_conn id;
  c ← of_option (Rc FLOM_RC_OUT_OF_RANGE) o;
  flom_conn_terminate c.

(** [flom_conns_trns_fd] *)
Definition flom_conns_trns_fd (id : nat) : Cm unit :=
  o ← flom_conns_get_conn id;
  c ← of_option (Rc FLOM_RC_OUT_OF_RANGE) o;
  _ ← on_nworld (store c (set_conn_state FLOM_CONN_STATE_LOCKER));
  modify (fun n => put_conns (set_array (remove_index_fast id (cs_array (n_conns n))) (n_conns n)) n).

(** [flom_conns_clean]: connections to remove are taken out and deleted.  Every
    round either advances [i] or shortens the array. *)
Definition to_remove (o : flom_conn) : bool :=
  match c_state o with FLOM_CONN_STATE_REMOVE => true | _ => false end.

Fixpoint clean_loop (fuel i : nat) : Cm unit :=
  match fuel with
  | O => throw NoFuel
  | S fuel =>
      oc ← flom_conns_get_conn i;
      match oc with
      | None => mret tt
      | Some c =>
          o ← on_nworld (deref c);
          if to_remove o then
            _ ← modify (fun n =>
                  put_conns (set_array (remove_index_fast i (cs_array (n_conns n))) (n_conns n)) n);
            _ ← on_nworld (flom_conn_delete c);
            clean_loop fuel i
          else clean_loop fuel (S i)
      end
  end.

Definition flom_conns_clean : Cm unit :=
  n ← flom_conns_get_used;
  clean_loop (S n) 0.

(** [flom_conns_free]: every connection is closed, then deleted; the reason
    codes are not looked at *)
Fixpoint close_all (n i : nat) : Cm unit :=
  match n with
  | O => mret tt
  | S n => _ ← ignore_rc (flom_conns_close_fd i); close_all n (S i)
  end.

Definition flom_conns_free : Cm unit :=
  n ← flom_conns_get_used;
  _ ← close_all n 0;
  _ ← ignore_rc flom_conns_clean;
  modify (fun n => put_conns (set_array [] (n_conns n)) n).

(** ** [g_ptr_array_remove_index_fast] *)
Lemma remove_index_fast_spec {A} (l1 l2 : list A) c :
  exists l2', remove_index_fast (length l1) (l1 ++ c :: l2) = l1 ++ l2' /\ l2' ≡ₚ l2.
Proof.
  unfold remove_index_fast. destruct l2 as [|z l2 _] using rev_ind.
  - rewrite last_snoc. exists []. split; [|done].
    replace (length (l1 ++ [c]) - 1)%nat with (length l1) by (rewrite length_app; cbn; lia).
    rewrite insert_app_r_alt, Nat.sub_diag by lia. cbn. by rewrite app_nil_r, take_app_length.
  - exists (z :: l2). split; [|by rewrite Permutation_app_comm].
    replace (l1 ++ c :: l2 ++ [z]) with ((l1 ++ c :: l2) ++ [z]) by (by rewrite <- app_assoc).
    rewrite last_snoc. rewrite insert_app_l by (rewrite length_app; cbn; lia).
    rewrite insert_app_r_alt, Nat.sub_diag by lia. cbn.
    replace (length ((l1 ++ c :: l2) ++ [z]) - 1)%nat with (length (l1 ++ z :: l2)).
    + by rewrite take_app_length.
    + rewrite !length_app. cbn. lia.
Qed.

(** ** What a clean-up takes out *)
Definition removing (w : world) (c : conn_ref) : bool :=
  match w_conns w !! c with Some o => to_remove o | None => false end.

(** The connections of [l] to be removed are deleted. *)
Definition swept (l : list conn_ref) (w : world) (c : conn_ref) : option flom_conn :=
  if bool_decide (c ∈ l) && removing w c then None else w_conns w !! c.

Lemma removing_eq w w' x : w_conns w' !! x = w_conns w !! x -> removing w' x = removing w x.
Proof. intros Hx. unfold removing. by rewrite Hx. Qed.

Lemma Permutation_filter_eq w w' l :
  (forall x, x ∈ l -> w_conns w' !! x = w_conns w !! x) ->
  base.filter (fun c => removing w' c = false) l ≡ₚ base.filter (fun c => removing w c = false) l.
Proof.
  intros Hl. induction l as [|x l IH]; [done|].
  rewrite !filter_cons. rewrite (removing_eq w w' x) by (apply Hl; by left).
  specialize (IH (fun y Hy => Hl y (list_elem_of_further _ _ _ Hy))).
  destruct (decide (removing w x = false)); [by apply perm_skip | done].
Qed.

(** One connection more has been deleted. *)
Lemma swept_cons w w' c l l' x :
  removing w c = true -> c ∉ l -> (forall x, x ∈ l' <-> x ∈ l) ->
  (forall x, x ∈ l -> w_conns w' !! x = w_conns w !! x) -> w_conns w' !! c = None ->
  (forall x, x <> c -> w_conns w' !! x = w_conns w !! x) ->
  swept l' w' x = swept (c :: l) w x.
Proof.
  intros Ec Hc Hl Hw Hn Hx. unfold swept. destruct (decide (x = c)) as [->|Hne].
  - rewrite (bool_decide_eq_true_2 (c ∈ c :: l)), Ec, Hn by (by left). cbn. by destruct (_ && _).
  - rewrite (removing_eq w w' x) by auto. rewrite Hx by done.
    rewrite (bool_decide_ext (x ∈ l') (x ∈ c :: l)); [done|]. rewrite Hl, elem_of_cons. tauto.
Qed.

Lemma clean_loop_spec fuel : forall l1 l2 n,
  (length l2 < fuel)%nat -> cs_array (n_conns n) = l1 ++ l2 -> NoDup l2 ->
  Forall (fun c => is_Some (w_conns (n_world n) !! c)) l2 ->
  exists l2' ws,
    clean_loop fuel (length l1) n =
      (inr tt, Net (set_array (l1 ++ l2') (n_conns n)) (set_conns ws (n_world n)) (n_closes n)) /\
    l2' ≡ₚ base.filter (fun c => removing (n_world n) c = false) l2 /\
    forall c, ws !! c = swept l2 (n_world n) c.
Proof.
  induction fuel as [|fuel IH]; intros l1 l2 [[a dom uid] w cl] Hf Ha Hnd Hk; [lia|].
  cbn [n_conns n_world n_closes cs_array] in *. subst a. destruct l2 as [|c l2].
  - exists [], (w_conns w). split_and!; [|done|by intros].
    cbn. unfold flom_conns_get_conn, mbind, M_bind, gets. cbn.
    rewrite app_nil_r, lookup_ge_None_2 by lia. by destruct w.
  - apply Forall_cons in Hk as [[o Ho] Hk]. apply NoDup_cons in Hnd as [Hc Hnd].
    assert (Hstep : clean_loop (S fuel) (length l1) (Net (Conns (l1 ++ c :: l2) dom uid) w cl) =
      if to_remove o
      then clean_loop fuel (length l1)
             (Net (Conns (remove_index_fast (length l1) (l1 ++ c :: l2)) dom uid)
                  (set_conns (delete c (w_conns w)) w) cl)
      else clean_loop fuel (length (l1 ++ [c])) (Net (Conns ((l1 ++ [c]) ++ l2) dom uid) w cl)).
    { rewrite length_app, <- app_assoc, Nat.add_1_r. cbn [clean_loop].
      unfold flom_conns_get_conn, flom_conn_delete, deref, on_nworld, zoom, mbind, M_bind, gets.
      cbn. rewrite list_lookup_middle by done. cbn. rewrite Ho. cbn.
      destruct (to_remove o); [|by destruct w]. cbn. rewrite Ho. by destruct w. }
    rewrite Hstep. destruct (to_remove o) eqn:Er.
    + destruct (remove_index_fast_spec l1 l2 c) as (l2' & -> & Hp).
      set (w1 := set_conns _ _).
      assert (Hrm : forall x, x ∈ l2 -> w_conns w1 !! x = w_conns w !! x).
      { intros x Hx. unfold w1. cbn. by rewrite lookup_delete_ne by (by intros ->). }
      destruct (IH l1 l2' (Net (Conns (l1 ++ l2') dom uid) w1 cl)) as (l3 & ws & -> & Hl3 & Hws);
        cbn [n_conns n_world n_closes cs_array] in *.
      * rewrite Hp. cbn in Hf. lia.
      * done.
      * by rewrite Hp.
      * rewrite Hp. apply Forall_forall. intros x Hx. rewrite Hrm by done.
        by apply (proj1 (Forall_forall _ _) Hk).
      * exists l3, ws. assert (Ec : removing w c = true) by (unfold removing; by rewrite Ho).
        split_and!; [done| |].
        { rewrite filter_cons_False by (by rewrite Ec). rewrite Hl3, Hp.
          apply (Permutation_filter_eq w w1 l2 Hrm). }
        intros x. rewrite Hws. apply swept_cons; [done | done | intros y; by rewrite Hp | exact Hrm | |]; unfold w1; cbn.
        { by rewrite lookup_delete_eq. } intros y Hy. by rewrite lookup_delete_ne.
    + destruct (IH (l1 ++ [c]) l2 (Net (Conns ((l1 ++ [c]) ++ l2) dom uid) w cl))
        as (l3 & ws & -> & Hl3 & Hws);
        cbn [n_conns n_world n_closes cs_array] in *; [cbn in Hf; lia|done|done|done|].
      assert (Ec : removing w c = false) by (unfold removing; by rewrite Ho).
      exists (c :: l3), ws. split_and!; [by rewrite <- app_assoc| |].
      * rewrite filter_cons_True by done. by rewrite Hl3.
      * intros x. rewrite Hws. unfold swept. destruct (decide (x = c)) as [->|Hx].
        { by rewrite Ec, !andb_false_r. }
        rewrite (bool_decide_ext (x ∈ l2) (x ∈ c :: l2)); [done|]. rewrite elem_of_cons. tauto.
Qed.

(** ** The operations of the table end, from any state *)
Lemma length_remove_index_fast {A} i (l : list A) x :
  l !! i = Some x -> length (remove_index_fast i l) = (length l - 1)%nat.
Proof.
  intros Hi. unfold remove_index_fast. destruct (last l) eqn:El.
  - rewrite length_take, length_insert. lia.
  - apply last_None in El as ->. done.
Qed.

Lemma clean_loop_terminates fuel : forall i n,
  (length (cs_array (n_conns n)) - i < fuel)%nat -> (clean_loop fuel i n).1 <> inl NoFuel.
Proof.
  induction fuel as [|fuel IH]; intros i n Hf; [lia|]. cbn [clean_loop].
  unfold flom_conns_get_conn, mbind, M_bind, gets.
  destruct (cs_array (n_conns n) !! i) as [c|] eqn:Ei; [|done].
  unfold on_nworld, zoom at 1, deref, mbind, M_bind, gets. cbn.
  destruct (w_conns (n_world n) !! c) as [o|] eqn:Ec; [|done]. cbn. destruct (to_remove o).
  - cbn. unfold zoom, flom_conn_delete, deref, mbind, M_bind, gets. cbn. rewrite Ec. cbn.
    apply IH. cbn. rewrite (length_remove_index_fast _ _ _ Ei).
    apply lookup_lt_Some in Ei. lia.
  - apply IH. cbn. apply lookup_lt_Some in Ei. lia.
Qed.

Lemma conns_clean_terminates : terminates flom_conns_clean.
Proof.
  intros n. unfold flom_conns_clean, flom_conns_get_used, mbind, M_bind, gets.
  apply clean_loop_terminates. lia.
Qed.

Lemma on_nworld_terminates {A} (m : Wm A) : terminates m -> terminates (on_nworld m).
Proof. apply terminates_zoom. Qed.

Lemma store_terminates c f : terminates (store c f).
Proof. unfold store. solve_terminates. Qed.

#[export] Hint Resolve conns_clean_terminates on_nworld_terminates store_terminates : terminates.

Lemma conns_close_fd_terminates i : terminates (flom_conns_close_fd i).
Proof.
  assert (terminates close_fd) by (intros n; unfold close_fd; by destruct (n_closes n)).
  unfold flom_conns_close_fd, flom_conns_get_conn, flom_conn_terminate, flom_tcp_close.
  solve_terminates.
Qed.
#[export] Hint Resolve conns_close_fd_terminates : terminates.

Lemma close_all_terminates n : forall i, terminates (close_all n i).
Proof.
  induction n as [|n IH]; intros i; cbn [close_all]; solve_terminates.
Qed.

Lemma conns_free_terminates : terminates flom_conns_free.
Proof.
  pose proof close_all_terminates.
  unfold flom_conns_free, flom_conns_get_used. solve_terminates.
Qed.

Lemma conns_get_fds_terminates : terminates flom_conns_get_fds.
Proof. unfold flom_conns_get_fds. solve_terminates. Qed.
Lemma conns_set_events_terminates : terminates flom_conns_set_events.
Proof. unfold flom_conns_set_events. solve_terminates. Qed.
#[export] Hint Resolve conns_free_terminates conns_get_fds_terminates conns_set_events_terminates
  : terminates.

(** ** Closing a connection that is open *)
Definition closed (o : flom_conn) : flom_conn :=
  set_fd FLOM_NULL_FD (set_conn_state FLOM_CONN_STATE_REMOVE o).

Lemma wp_store c f o (Q : err + unit -> world -> Prop) w :
  w_conns w !! c = Some o -> Q (inr tt) (set_conns (<[c := f o]> (w_conns w)) w) ->
  wp (store c f) Q w.
Proof.
  intros Ho HQ. unfold store, wp, deref, mbind, M_bind, gets. cbn. by rewrite Ho.
Qed.

Lemma wp_deref_conn c o (Q : err + flom_conn -> world -> Prop) w :
  w_conns w !! c = Some o -> Q (inr o) w -> wp (deref c) Q w.
Proof. intros Ho HQ. unfold deref. do 2 wp_step. by rewrite Ho. Qed.

Lemma wp_conns_close_fd i c o (Q : err + unit -> net -> Prop) n :
  cs_array (n_conns n) !! i = Some c -> w_conns (n_world n) !! c = Some o ->
  c_state o <> FLOM_CONN_STATE_REMOVE -> has_fd o = true -> Forall (eq true) (n_closes n) ->
  Q (inr tt)
    (Net (n_conns n) (set_conns (<[c := closed o]> (w_conns (n_world n))) (n_world n))
       (tail (n_closes n))) ->
  wp (flom_conns_close_fd i) Q n.
Proof.
  destruct n as [cs w cl]. cbn. intros Hi Ho Hs Hf Hc HQ.
  unfold flom_conns_close_fd, flom_conns_get_conn. do 2 wp_step. cbn. rewrite Hi.
  wp_step. wp_step; [|done]. injection H as <-.
  unfold flom_conn_terminate, on_nworld. do 2 wp_step.
  apply (wp_deref_conn c o); [done|].
  assert (Hq : wp (A := unit) (_ ← zoom n_world put_nworld (store c (set_conn_state FLOM_CONN_STATE_REMOVE));
                when (has_fd o) (flom_tcp_close c)) Q (Net cs w cl)); [|by destruct (c_state o)].
  do 2 wp_step. apply (wp_store c _ o); [done|]. cbn. rewrite Hf. unfold flom_tcp_close, on_nworld.
  cbn [when]. do 2 wp_step. eapply wp_deref_conn; [cbn; apply lookup_insert_eq|].
  change (has_fd (set_conn_state FLOM_CONN_STATE_REMOVE o)) with (has_fd o). rewrite Hf.
  cbn [when]. wp_step. unfold close_fd, wp at 1. cbn.
  destruct cl as [|b cl]; [|apply Forall_cons in Hc as [<- _]]; cbn; wp_step;
    (eapply wp_store; [cbn; apply lookup_insert_eq|]); cbn in *; by rewrite insert_insert_eq.
Qed.

(** ** Theorem *)

(** functional.  [flom_conns_clean] takes out and deletes exactly the
    connections that were closed: the array keeps the others (in an order of
    its own), the deleted objects are no longer in memory, every other
    connection is as it was, and the loop ends. *)
Theorem conns_clean_correct n :
  NoDup (cs_array (n_conns n)) ->
  Forall (fun c => is_Some (w_conns (n_world n) !! c)) (cs_array (n_conns n)) ->
  exists l ws,
    flom_conns_clean n =
      (inr tt, Net (set_array l (n_conns n)) (set_conns ws (n_world n)) (n_closes n)) /\
    l ≡ₚ base.filter (fun c => removing (n_world n) c = false) (cs_array (n_conns n)) /\
    forall c, ws !! c = swept (cs_array (n_conns n)) (n_world n) c.
Proof.
  intros Hnd Hk. apply (clean_loop_spec _ [] _ n); [lia|done..].
Qed.

(** ** Concrete run: the middle one of three connections was closed *)
Definition demo_entry (state : flom_conn_state) (fd : Z) : flom_conn :=
  Conn 0 state false 0 None false fd flom_msg_init.

Definition demo_table : gmap conn_ref flom_conn :=
  <[1%positive := demo_entry FLOM_CONN_STATE_LOCKER 3]>
  (<[2%positive := demo_entry FLOM_CONN_STATE_REMOVE FLOM_NULL_FD]>
  (<[3%positive := demo_entry FLOM_CONN_STATE_LOCKER 4]> ∅)).

Definition demo_net : net :=
  Net (Conns [1; 2; 3]%positive 2 0)
    (World demo_table (RamTree false None 0 [] []) [] [] [] [] None) [].

Lemma conns_clean_correct_witness :
  exists l ws,
    flom_conns_clean demo_net =
      (inr tt, Net (set_array l (n_conns demo_net)) (set_conns ws (n_world demo_net)) []) /\
    l ≡ₚ [1; 3]%positive /\
    forall c, ws !! c = swept [1; 2; 3]%positive (n_world demo_net) c.
Proof.
  refine (@conns_clean_correct demo_net _ _).
  - repeat constructor; rewrite ?elem_of_cons, ?elem_of_nil; intros H; decompose [or] H; done.
  - repeat constructor; cbn; eexists; reflexivity.
Defined.
