(* ===== verification/Locker.v ===== *)
(** * Locker: the thread that serves one resource

    [src/src/flom_locker.c].  A locker polls the pipe of the daemon, its
    connection 0, and the connections of its clients, and hands what they send
    to the resource's methods.  The model is generic in the resource: any
    instance of the class [Resource].  What [poll] answers is the argument of a
    round of the loop; what is read from the pipe and from the sockets, and
    what the XML parser calls for it, are inputs consumed call by call. *)
From Stdlib Require Import ZArith String List Lia.
From stdpp Require Import base list gmap numbers strings.
From S2P Require Import Prelude Types CStr RsrcName Msg MsgXml Vfs World.
From S2P Require Import ConnLock Resource Conns.
Local Open Scope Z_scope.

(** ** Data *)
Definition FLOM_LOCKER_POLL_TIMEOUT : Z := 1000.
Definition FLOM_LOCKER_MAX_IDLE_PERIODS : Z := 1.
Definition AF_UNIX : Z := 1.

(** [struct flom_locker_s], as the thread sees it *)
Record locker (D : Type) : Type := Locker {
  lk_uid : Z;
  lk_read_pipe : Z;
  lk_read_sequence : Z;
  lk_idle_periods : Z;
  lk_idle_lifespan : Z;
  lk_name : option string;
  lk_data : D
}.
Arguments Locker {D} _ _ _ _ _ _ _.
Arguments lk_uid {D} _.
Arguments lk_read_pipe {D} _.
Arguments lk_read_sequence {D} _.
Arguments lk_idle_periods {D} _.
Arguments lk_idle_lifespan {D} _.
Arguments lk_name {D} _.
Arguments lk_data {D} _.

(** A read of the pipe: a token ([struct flom_locker_token_s]), a connection
    pointer, or anything else *)
Inductive pipe_read : Type :=
| ReadToken (domain client_fd sequence : Z)
| ReadConn (c : conn_ref)
| ReadFails.

(** [flom_conn_recv] and, for the bytes received, what the parser calls and
    whether it reports an error.  A client that closes its socket makes it fail:
    the routine of [Recv] never returns an empty message, so the code that is
    ready for one never runs, but for a datagram of the daemon.  [Wire] computes
    these inputs from the bytes of the network. *)
Inductive recv_result : Type :=
| RecvFails (rc : Z)
| RecvClosed
| RecvData (events : list markup_event) (well_formed : bool).

(** The flags of one descriptor, and the result of [poll] *)
Record revents : Type := Revents { re_err : bool; re_in : bool; re_hup : bool; re_nval : bool }.
Inductive poll_result : Type :=
| PollFails
| PollTimeout
| PollReady (l : list revents).

(** The state of the thread: the locker, its connections and the world, the
    deadline of the loop, and the inputs to come *)
Record lstate (D : Type) : Type := LState {
  l_locker : locker D;
  l_net : net;
  l_deadline : timeval;
  l_reads : list pipe_read;
  l_recvs : list recv_result
}.
Arguments LState {D} _ _ _ _ _.
Arguments l_locker {D} _.
Arguments l_net {D} _.
Arguments l_deadline {D} _.
Arguments l_reads {D} _.
Arguments l_recvs {D} _.

Section fields.
Context {D : Type}.
Implicit Type k : locker D.
Implicit Type s : lstate D.

Definition set_read_pipe (x : Z) k : locker D :=
  Locker (lk_uid k) x (lk_read_sequence k) (lk_idle_periods k) (lk_idle_lifespan k)
    (lk_name k) (lk_data k).
Definition set_read_sequence (x : Z) k : locker D :=
  Locker (lk_uid k) (lk_read_pipe k) x (lk_idle_periods k) (lk_idle_lifespan k)
    (lk_name k) (lk_data k).
Definition set_idle_periods (x : Z) k : locker D :=
  Locker (lk_uid k) (lk_read_pipe k) (lk_read_sequence k) x (lk_idle_lifespan k)
    (lk_name k) (lk_data k).
Definition set_resource (n : option string) (d : D) k : locker D :=
  Locker (lk_uid k) (lk_read_pipe k) (lk_read_sequence k) (lk_idle_periods k)
    (lk_idle_lifespan k) n d.

Definition put_locker (k : locker D) s : lstate D :=
  LState k (l_net s) (l_deadline s) (l_reads s) (l_recvs s).
Definition put_net (n : net) s : lstate D :=
  LState (l_locker s) n (l_deadline s) (l_reads s) (l_recvs s).
Definition put_ldeadline (t : timeval) s : lstate D :=
  LState (l_locker s) (l_net s) t (l_reads s) (l_recvs s).
Definition upd_locker (f : locker D -> locker D) s : lstate D := put_locker (f (l_locker s)) s.
End fields.

Definition Lm (D A : Type) : Type := M err (lstate D) A.

Section lift.
Context {D : Type}.

Definition on_net {A} (m : Cm A) : Lm D A := zoom l_net put_net m.
Definition on_lworld {A} (m : Wm A) : Lm D A := on_net (on_nworld m).

Definition read_pipe : Lm D pipe_read := fun s =>
  match l_reads s with
  | [] => (inr ReadFails, s)
  | r :: l => (inr r, LState (l_locker s) (l_net s) (l_deadline s) l (l_recvs s))
  end.

Definition flom_conn_recv : Lm D recv_result := fun s =>
  match l_recvs s with
  | [] => (inr (RecvFails FLOM_RC_RECV_ERROR), s)
  | r :: l => (inr r, LState (l_locker s) (l_net s) (l_deadline s) (l_reads s) l)
  end.

(** Calling a method of the resource with the message [m]; [back] is what
    becomes of the message afterwards, however the call ends. *)
Definition call_method {A} (m : flom_msg) (back : flom_msg -> world -> world) (f : Res D A)
    : Lm D A := fun s =>
  let k := l_locker s in
  let '(r, s') := f (St (lk_name k) (lk_data k) m (n_world (l_net s)) (l_deadline s)) in
  (r, LState (set_resource (s_name s') (s_data s') k)
        (put_nworld (back (s_msg s') (s_world s')) (l_net s)) (s_deadline s')
        (l_reads s) (l_recvs s)).

(** The message of a connection is updated in place. *)
Definition write_msg (c : conn_ref) (m : flom_msg) (w : world) : world :=
  set_conns (alter (set_conn_msg m) c (w_conns w)) w.
End lift.

(** ** [flom_locker_loop_get_timeout]: milliseconds, stored in an [int] *)
Definition flom_locker_loop_get_timeout (next_deadline : timeval) : Wm Z :=
  now ← gettimeofday;
  now ← of_option Ub now;
  mret (int32 ((tv_sec next_deadline - tv_sec now) * 1000 +
               Z.quot (tv_usec next_deadline - tv_usec now) 1000 + 1)).

Section locker.
Context `{Glib} {D : Type} `{Resource D}.

(** ** The methods of the resource *)
Definition resource_inmsg (c : conn_ref) : Lm D unit :=
  o ← on_lworld (deref c);
  s ← gets (fun s : lstate D => s);
  call_method (c_msg o) (write_msg c) (res_inmsg (lk_uid (l_locker s)) c).

Definition resource_clean (c : conn_ref) : Lm D unit :=
  s ← gets (fun s : lstate D => s);
  call_method flom_msg_init (fun _ w => w) (res_clean (lk_uid (l_locker s)) c).

Definition resource_timeout : Lm D unit :=
  s ← gets (fun s : lstate D => s);
  call_method flom_msg_init (fun _ w => w) (res_timeout (lk_uid (l_locker s))).

(** ** [flom_locker_loop_pollin]

    The second half: the message of the connection [c] is handed to the
    resource, and the answer left in its place is sent.  A failed [send] is
    left to the next poll, any other failure ends the call. *)
Definition send_answer (c : conn_ref) : Lm D unit :=
  o ← on_lworld (deref c);
  when (bool_decide (m_state (c_msg o) = FLOM_MSG_STATE_READY)) (
    match flom_msg_serialize FLOM_MSG_BUFFER_SIZE (c_msg o) with
    | inl Ub => throw Ub
    | inl NoFuel => throw NoFuel
    | inl (Rc _) => throw (Rc FLOM_RC_INTERNAL_ERROR)
    | inr buffer =>
        rc ← attempt (on_lworld (flom_conn_send c buffer));
        _ ← match rc with
            | inl rc => when (negb (rc =? FLOM_RC_SEND_ERROR)) (throw (Rc rc))
            | inr _ => mret tt
            end;
        on_lworld (flom_conn_set_last_step c (msg_step (c_msg o)))
    end).

Definition free_conn_msg (c : conn_ref) : Lm D unit :=
  o ← on_lworld (deref c);
  let '(r, m) := flom_msg_free (c_msg o) in
  _ ← on_lworld (store c (set_conn_msg m));
  _ ← of_result r;
  on_lworld (store c (set_conn_msg flom_msg_init)).

Definition dispatch (c : conn_ref) : Lm D unit :=
  o ← on_lworld (deref c);
  if (msg_verb (c_msg o) =? FLOM_MSG_VERB_LOCK) || (msg_verb (c_msg o) =? FLOM_MSG_VERB_UNLOCK)
  then
    _ ← resource_inmsg c;
    _ ← send_answer c;
    free_conn_msg c
  else throw (Rc FLOM_RC_PROTOCOL_ERROR).

(** A connection passed by the daemon, with its first message *)
Definition import_connection : Lm D conn_ref :=
  t ← read_pipe;
  match t with
  | ReadToken domain client_fd sequence =>
      _ ← on_net (modify (fun n => put_conns
            (Conns (cs_array (n_conns n)) domain (cs_last_uid (n_conns n))) n));
      p ← read_pipe;
      match p with
      | ReadConn new_conn =>
          _ ← on_net (flom_conns_import client_fd new_conn);
          _ ← modify (upd_locker (set_read_sequence sequence));
          mret new_conn
      | _ => throw (Rc FLOM_RC_READ_ERROR)
      end
  | _ => throw (Rc FLOM_RC_READ_ERROR)
  end.

(** [flom_msg_deserialize] in the message of the connection *)
Definition deserialize_into (c : conn_ref) (events : list markup_event) (well_formed : bool)
    : Lm D unit :=
  o ← on_lworld (deref c);
  m ← of_option Ub (markup_callbacks events (c_msg o));
  _ ← on_lworld (store c (set_conn_msg m));
  when (negb well_formed) (throw (Rc FLOM_RC_G_MARKUP_PARSE_CONTEXT_PARSE_ERROR)).

(** [true] is [*refresh_conns] *)
Definition flom_locker_loop_pollin (id : nat) : Lm D bool :=
  oc ← on_net (flom_conns_get_conn id);
  curr_conn ← of_option (Rc FLOM_RC_NULL_OBJECT) oc;
  _ ← modify (upd_locker (set_idle_periods 0));
  if (id =? 0)%nat then
    new_conn ← import_connection;
    _ ← dispatch new_conn;
    mret false
  else
    r ← flom_conn_recv;
    match r with
    | RecvFails rc => throw (Rc rc)
    | RecvClosed =>
        _ ← on_net (flom_conns_close_fd id);
        _ ← resource_clean curr_conn;
        mret true
    | RecvData events well_formed =>
        _ ← deserialize_into curr_conn events well_formed;
        o ← on_lworld (deref curr_conn);
        _ ← on_lworld (flom_conn_set_last_step curr_conn (msg_step (c_msg o)));
        _ ← when (bool_decide (m_state (c_msg o) = FLOM_MSG_STATE_INVALID))
              (on_net (flom_conns_close_fd id));
        _ ← dispatch curr_conn;
        mret false
    end.

(** ** [flom_locker_loop] *)

(** Which timeout [poll] is given *)
Definition poll_timeout : Lm D Z :=
  s ← gets (fun s : lstate D => s);
  let k := l_locker s in
  timeout ← on_lworld (flom_locker_loop_get_timeout (l_deadline s));
  mret (if 0 <=? timeout then timeout
        else if lk_idle_periods k >? FLOM_LOCKER_MAX_IDLE_PERIODS then -1
        else if lk_idle_periods k >? 0 then FLOM_LOCKER_POLL_TIMEOUT
        else if (lk_idle_periods k =? 0) && (lk_idle_lifespan k >? 0) then lk_idle_lifespan k
        else FLOM_LOCKER_POLL_TIMEOUT).

(** A client is closed and its locks are cleaned. *)
Definition drop_client (i : nat) : Lm D unit :=
  oc ← on_net (flom_conns_get_conn i);
  _ ← on_net (flom_conns_close_fd i);
  c ← of_option Ub oc;
  resource_clean c.

(** The scan of the descriptors, up to the first one that makes the table of
    connections stale *)
Fixpoint scan_fds (l : list revents) (i : nat) : Lm D unit :=
  match l with
  | [] => mret tt
  | r :: l =>
      if re_err r then drop_client i
      else
        stop ← (if re_in r then
                  x ← attempt (flom_locker_loop_pollin i);
                  match x with
                  | inl _ => _ ← drop_client i; mret true
                  | inr refresh_conns => mret refresh_conns
                  end
                else mret false);
        if (stop : bool) then mret tt
        else if re_hup r then
          if (i =? 0)%nat then
            _ ← on_net (flom_conns_close_fd i);
            modify (upd_locker (set_read_pipe FLOM_NULL_FD))
          else drop_client i
        else scan_fds l (S i)
  end.

(** One round of the loop, for what [poll] answers on these descriptors and
    this timeout; [false] leaves the loop.  An error ends the thread. *)
Definition locker_round (poll : list Z -> Z -> poll_result) : Lm D bool :=
  _ ← on_net flom_conns_clean;
  used ← on_net flom_conns_get_used;
  if (used =? 0)%nat then mret false
  else
    ofds ← on_net flom_conns_get_fds;
    fds ← of_option (Rc FLOM_RC_NULL_OBJECT) ofds;
    _ ← on_net flom_conns_set_events;
    timeout ← poll_timeout;
    match poll fds timeout with
    | PollFails => throw (Rc FLOM_RC_OK)
    | PollTimeout =>
        _ ← resource_timeout;
        used ← on_net flom_conns_get_used;
        _ ← when (used =? 1)%nat
              (modify (fun s : lstate D =>
                 upd_locker (set_idle_periods (lk_idle_periods (l_locker s) + 1)) s));
        mret true
    | PollReady l => _ ← scan_fds l 0; mret true
    end.

(** The thread of a new locker: its connection 0 is the reading end of the
    pipe; the deadline is one second in the past. *)
Definition control_conn (fd : Z) : flom_conn :=
  Conn 0 FLOM_CONN_STATE_LOCKER false 0 None false fd flom_msg_init.

Definition flom_locker_loop_start (c : conn_ref) : Lm D unit :=
  now ← on_lworld gettimeofday;
  now ← of_option Ub now;
  _ ← modify (put_ldeadline (Timeval (tv_sec now - 1) (tv_usec now)));
  _ ← on_net (modify (put_conns (flom_conns_init AF_UNIX)));
  ok ← on_lworld g_try_malloc;
  _ ← when (negb ok) (throw Ub);
  ok ← on_lworld g_try_malloc;
  _ ← when (negb ok) (throw Ub);
  s ← gets (fun s : lstate D => s);
  _ ← on_lworld (modify (fun w => set_conns
        (<[c := control_conn (lk_read_pipe (l_locker s))]> (w_conns w)) w));
  on_net (flom_conns_add_conn c).

(** The rounds of the loop, one for each answer of [poll]; [true] when it is
    still polling after the last one *)
Fixpoint locker_rounds (polls : list (list Z -> Z -> poll_result)) : Lm D bool :=
  match polls with
  | [] => mret true
  | poll :: polls =>
      loop ← locker_round poll;
      if (loop : bool) then locker_rounds polls else mret false
  end.

(** The thread: however the loop ends, the table is freed. *)
Definition flom_locker_loop (c : conn_ref) (polls : list (list Z -> Z -> poll_result))
    : Lm D bool :=
  r ← attempt (_ ← flom_locker_loop_start c; locker_rounds polls);
  match r with
  | inr true => mret true
  | _ => _ ← on_net flom_conns_free; mret false
  end.
End locker.

(** ** What a locker does to its resource

    Whatever [poll], the pipe and the sockets answer, the data of the resource
    change only by calls of its methods. *)
Section steps.
Context `{Glib} {D : Type} `{Resource D}.

Definition any_message (_ : D) (_ : flom_msg) : Prop := True.

Definition resource_of (s : lstate D) : option string * D :=
  (lk_name (l_locker s), lk_data (l_locker s)).

Definition drives {A} (m : Lm D A) : Prop := forall s,
  (m s).1 <> inl Ub -> rtc (resource_step any_message) (resource_of s) (resource_of (m s).2).

Lemma drives_same {A} (m : Lm D A) : (forall s, resource_of (m s).2 = resource_of s) -> drives m.
Proof. intros Hm s _. by rewrite Hm. Qed.

Lemma drives_ret {A} (a : A) : drives (mret a).
Proof. by apply drives_same. Qed.
Lemma drives_throw {A} e : drives (A := A) (throw e).
Proof. by apply drives_same. Qed.
Lemma drives_gets {A} (f : lstate D -> A) : drives (gets f).
Proof. by apply drives_same. Qed.
Lemma drives_of_option {A} e (o : option A) : drives (of_option e o).
Proof. destruct o; by apply drives_same. Qed.
Lemma drives_of_result {A} (r : err + A) : drives (of_result r).
Proof. destruct r; by apply drives_same. Qed.
Lemma drives_on_net {A} (m : Cm A) : drives (on_net m).
Proof. apply drives_same. intros s. unfold on_net, zoom. by destruct (m (l_net s)). Qed.
Lemma drives_on_lworld {A} (m : Wm A) : drives (on_lworld m).
Proof. apply drives_on_net. Qed.
Lemma drives_deadline t : drives (modify (put_ldeadline t)).
Proof. by apply drives_same. Qed.
Lemma drives_read_pipe : drives read_pipe.
Proof. apply drives_same. intros s. unfold read_pipe. by destruct (l_reads s). Qed.
Lemma drives_recv : drives flom_conn_recv.
Proof. apply drives_same. intros s. unfold flom_conn_recv. by destruct (l_recvs s). Qed.
Lemma drives_upd f :
  (forall k, lk_name (f k) = lk_name k /\ lk_data (f k) = lk_data k) ->
  drives (modify (upd_locker f)).
Proof.
  intros Hf. apply drives_same. intros s. unfold resource_of. cbn.
  by destruct (Hf (l_locker s)) as [-> ->].
Qed.

Lemma drives_bind {A B} (m : Lm D A) (k : A -> Lm D B) :
  drives m -> (forall a, drives (k a)) -> drives (m ≫= k).
Proof.
  intros Hm Hk s. specialize (Hm s). unfold mbind, M_bind.
  destruct (m s) as [[e|a] s']; cbn in *.
  - intros He. apply Hm. by intros [= ->].
  - intros Hr. etrans; [by apply Hm | by apply Hk].
Qed.

Lemma drives_when b (m : Lm D unit) : drives m -> drives (when b m).
Proof. destruct b; [done|]. intros _. apply drives_ret. Qed.

Lemma drives_attempt {A} (m : Lm D A) : drives m -> drives (attempt m).
Proof.
  intros Hm s. specialize (Hm s). unfold attempt.
  destruct (m s) as [[[]|a] s']; cbn in *; auto.
Qed.
End steps.

Create HintDb drives.
#[export] Hint Resolve drives_ret drives_throw drives_gets drives_of_option drives_of_result
  drives_on_net drives_on_lworld drives_deadline drives_read_pipe drives_recv : drives.

Ltac solve_drives :=
  lazymatch goal with
  | |- drives (mbind _ _) => apply drives_bind; [|intros ?]; solve_drives
  | |- drives (when _ _) => apply drives_when; solve_drives
  | |- drives (attempt _) => apply drives_attempt; solve_drives
  | |- drives (if ?b then _ else _) => destruct b; solve_drives
  | |- drives (match ?x with _ => _ end) => destruct x; solve_drives
  | |- drives (modify (upd_locker _)) => apply drives_upd; by intros []
  | |- _ => auto with drives
  end.

Section drives.
Context `{Glib} {D : Type} `{Resource D}.

Lemma drives_inmsg c : drives (resource_inmsg c).
Proof.
  unfold resource_inmsg. apply drives_bind; [auto with drives|]. intros o.
  apply drives_bind; [auto with drives|]. intros s0. intros s. unfold call_method.
  destruct (res_inmsg _ c _) as [r s'] eqn:E. cbn. intros Hr. apply rtc_once.
  by eapply step_inmsg; [|exact E|].
Qed.

Lemma drives_clean c : drives (resource_clean c).
Proof.
  unfold resource_clean. apply drives_bind; [auto with drives|]. intros s0. intros s.
  unfold call_method. destruct (res_clean _ c _) as [r s'] eqn:E. cbn. intros Hr.
  apply rtc_once. by eapply step_clean; [exact E|].
Qed.

Lemma drives_timeout : drives resource_timeout.
Proof.
  unfold resource_timeout. apply drives_bind; [auto with drives|]. intros s0. intros s.
  unfold call_method. destruct (res_timeout _ _) as [r s'] eqn:E. cbn. intros Hr.
  apply rtc_once. by eapply step_timeout; [exact E|].
Qed.
Hint Resolve drives_inmsg drives_clean drives_timeout : drives.

Lemma drives_dispatch c : drives (dispatch c).
Proof.
  unfold dispatch, send_answer, free_conn_msg. solve_drives.
Qed.
Hint Resolve drives_dispatch : drives.

Lemma drives_pollin i : drives (flom_locker_loop_pollin i).
Proof. unfold flom_locker_loop_pollin, import_connection, deserialize_into. solve_drives. Qed.
Hint Resolve drives_pollin : drives.

Lemma drives_drop i : drives (drop_client i).
Proof. unfold drop_client. solve_drives. Qed.
Hint Resolve drives_drop : drives.

Lemma drives_scan l : forall i, drives (scan_fds l i).
Proof. induction l as [|r l IH]; intros i; cbn [scan_fds]; solve_drives. Qed.
Hint Resolve drives_scan : drives.

Lemma drives_round poll : drives (locker_round poll).
Proof.
  unfold locker_round, poll_timeout. solve_drives.
  by apply drives_same.
Qed.

Lemma drives_rounds polls : drives (locker_rounds polls).
Proof.
  induction polls as [|poll polls IH]; cbn [locker_rounds]; [auto with drives|].
  apply drives_bind; [apply drives_round | intros ?; solve_drives].
Qed.

Lemma drives_loop c polls : drives (flom_locker_loop c polls).
Proof.
  unfold flom_locker_loop, flom_locker_loop_start. pose proof (drives_rounds polls).
  solve_drives.
Qed.
End drives.

(** ** Every round ends *)
Lemma flom_locker_loop_get_timeout_terminates t : terminates (flom_locker_loop_get_timeout t).
Proof.
  unfold flom_locker_loop_get_timeout. solve_terminates.
Qed.
#[local] Hint Resolve flom_locker_loop_get_timeout_terminates : terminates.

Section terminates.
Context `{Glib} {D : Type} `{Resource D} `{!Terminating D}.

Lemma on_net_terminates {A} (m : Cm A) : terminates m -> terminates (on_net (D := D) m).
Proof. apply terminates_zoom. Qed.
Lemma on_lworld_terminates {A} (m : Wm A) : terminates m -> terminates (on_lworld (D := D) m).
Proof. intros Hm. by apply on_net_terminates, on_nworld_terminates. Qed.
Hint Resolve on_net_terminates on_lworld_terminates : terminates.

Lemma call_method_terminates {A} m back (f : Res D A) :
  terminates f -> terminates (call_method m back f).
Proof.
  intros Hf s. unfold call_method. specialize (Hf (St (lk_name (l_locker s)) (lk_data (l_locker s))
    m (n_world (l_net s)) (l_deadline s))). by destruct (f _).
Qed.

Lemma resource_inmsg_terminates c : terminates (resource_inmsg (D := D) c).
Proof.
  unfold resource_inmsg. solve_terminates.
  apply call_method_terminates, inmsg_terminates.
Qed.
Lemma resource_clean_terminates c : terminates (resource_clean (D := D) c).
Proof.
  unfold resource_clean. solve_terminates.
  apply call_method_terminates, clean_terminates.
Qed.
Lemma resource_timeout_terminates : terminates (resource_timeout (D := D)).
Proof.
  unfold resource_timeout. solve_terminates.
  apply call_method_terminates, timeout_terminates.
Qed.
Hint Resolve resource_inmsg_terminates resource_clean_terminates resource_timeout_terminates
  : terminates.

Lemma set_last_step_terminates c v : terminates (flom_conn_set_last_step c v).
Proof. unfold flom_conn_set_last_step. solve_terminates. Qed.
Hint Resolve set_last_step_terminates conn_send_terminates : terminates.

Lemma send_answer_terminates c : terminates (send_answer (D := D) c).
Proof.
  unfold send_answer. apply terminates_bind; [solve_terminates | intros o].
  apply terminates_when. destruct (flom_msg_serialize _ _) as [[]|b] eqn:E.
  - solve_terminates.
  - solve_terminates.
  - by apply serialize_not_NoFuel in E.
  - solve_terminates.
Qed.

Lemma free_conn_msg_terminates c : terminates (free_conn_msg (D := D) c).
Proof.
  unfold free_conn_msg. apply terminates_bind; [solve_terminates | intros o].
  destruct (flom_msg_free (c_msg o)) as [r m] eqn:E.
  apply terminates_bind; [solve_terminates | intros _].
  apply terminates_bind; [apply of_result_terminates | intros _; solve_terminates].
  pose proof (msg_free_terminates (c_msg o)) as Hf. by rewrite E in Hf.
Qed.
Hint Resolve send_answer_terminates free_conn_msg_terminates : terminates.

Lemma dispatch_terminates c : terminates (dispatch (D := D) c).
Proof. unfold dispatch. solve_terminates. Qed.
Hint Resolve dispatch_terminates : terminates.

Lemma read_pipe_terminates : terminates (read_pipe (D := D)).
Proof. intros s. unfold read_pipe. by destruct (l_reads s). Qed.
Lemma recv_terminates : terminates (flom_conn_recv (D := D)).
Proof. intros s. unfold flom_conn_recv. by destruct (l_recvs s). Qed.
Hint Resolve read_pipe_terminates recv_terminates : terminates.

Lemma pollin_terminates i : terminates (flom_locker_loop_pollin (D := D) i).
Proof.
  unfold flom_locker_loop_pollin, import_connection, deserialize_into, flom_conns_get_conn,
    flom_conns_import, flom_conns_add_conn. solve_terminates.
Qed.
Hint Resolve pollin_terminates : terminates.

Lemma drop_client_terminates i : terminates (drop_client (D := D) i).
Proof. unfold drop_client, flom_conns_get_conn. solve_terminates. Qed.
Hint Resolve drop_client_terminates : terminates.

Lemma scan_fds_terminates l : forall i, terminates (scan_fds (D := D) l i).
Proof. induction l as [|r l IH]; intros i; cbn [scan_fds]; solve_terminates. Qed.
Hint Resolve scan_fds_terminates : terminates.

Lemma locker_round_terminates poll : terminates (locker_round (D := D) poll).
Proof. unfold locker_round, poll_timeout, flom_conns_get_used. solve_terminates. Qed.
Hint Resolve locker_round_terminates : terminates.

Lemma locker_rounds_terminates polls : terminates (locker_rounds (D := D) polls).
Proof. induction polls as [|poll polls IH]; cbn [locker_rounds]; solve_terminates. Qed.
Hint Resolve locker_rounds_terminates : terminates.

Lemma locker_loop_terminates c polls : terminates (flom_locker_loop (D := D) c polls).
Proof.
  unfold flom_locker_loop, flom_locker_loop_start, flom_conns_add_conn. solve_terminates.
Qed.
End terminates.
