(* ===== verification/Calls.v ===== *)
(** * Calls: which methods a locker calls, and when

    The contract of the thread of a locker with its resource, independent of what the
    resource is: for each descriptor that [poll] reports, which calls of the methods
    the thread makes, on which connection, with which message and in which order,
    and how it ends.  [Serve] proves that the loop of [Locker] keeps it. *)
From Stdlib Require Import ZArith String List Lia.
From stdpp Require Import base list gmap numbers strings relations.
From S2P Require Import Prelude Types CStr RsrcName Msg MsgXml Vfs World.
From S2P Require Import ConnLock Resource Conns Locker.
Local Open Scope Z_scope.

(** ** The contract *)
Section contract.
Context `{Glib} {D : Type} `{Resource D}.
Implicit Type s : lstate D.

(** What the thread does for somebody else to see: the calls of the three methods,
    an answer (and the release of the message it answers), the end of a
    connection *)
Inductive locker_action : Type :=
| Inmsg (c : conn_ref) (m : flom_msg)
| Clean (c : conn_ref)
| Timeout
| Answer (c : conn_ref)
| Close (i : nat).

Definition act (a : locker_action) : Lm D unit :=
  match a with
  | Inmsg c m =>
      s ← gets (fun s : lstate D => s);
      call_method m (write_msg c) (res_inmsg (lk_uid (l_locker s)) c)
  | Clean c => resource_clean c
  | Timeout => resource_timeout
  | Answer c => _ ← send_answer c; free_conn_msg c
  | Close i => on_net (flom_conns_close_fd i)
  end.

(** The actions done, each with its result *)
Definition actions : Type := list (locker_action * (err + unit)).

Definition conn_at s (i : nat) : option conn_ref := cs_array (n_conns (l_net s)) !! i.
Definition message_of s (c : conn_ref) : option flom_msg :=
  c_msg <$> w_conns (n_world (l_net s)) !! c.
Definition next_recv s : recv_result :=
  default (RecvFails FLOM_RC_RECV_ERROR) (head (l_recvs s)).
Definition is_request (m : flom_msg) : bool :=
  (msg_verb m =? FLOM_MSG_VERB_LOCK) || (msg_verb m =? FLOM_MSG_VERB_UNLOCK).

(** [true]: the scan of the descriptors ends here *)
Definition ending (b : bool) (r : err + unit) : err + bool :=
  match r with inl e => inl e | inr _ => inr b end.

(** A connection is closed, and the resource cleaned for it and no other. *)
Inductive drops (i : nat) s : actions -> err + unit -> Prop :=
| drops_close_fails e : drops i s [(Close i, inl e)] (inl e)
| drops_cleans c r : conn_at s i = Some c ->
    drops i s [(Close i, inr tt); (Clean c, r)] r.

(** A message is given to the resource once, when it is a request, and answered. *)
Inductive requests (c : conn_ref) (m : flom_msg) : actions -> err + unit -> Prop :=
| requests_other : is_request m = false ->
    requests c m [] (inl (Rc FLOM_RC_PROTOCOL_ERROR))
| requests_refused e : is_request m = true -> requests c m [(Inmsg c m, inl e)] (inl e)
| requests_answered r : is_request m = true ->
    requests c m [(Inmsg c m, inr tt); (Answer c, r)] r.

(** The pipe is readable: the connection read from it and the message it comes with *)
Inductive reads_pipe s : actions -> err + bool -> Prop :=
| pipe_fails :
    (forall domain fd n c l, l_reads s <> ReadToken domain fd n :: ReadConn c :: l) ->
    reads_pipe s [] (inl (Rc FLOM_RC_READ_ERROR))
| pipe_brings domain fd n c l m t r :
    l_reads s = ReadToken domain fd n :: ReadConn c :: l -> message_of s c = Some m ->
    requests c m t r -> reads_pipe s t (ending false r).

(** The connection of a client is readable: the message is the one of the connection
    with what the parser has called for the bytes received. *)
Inductive reads_client (i : nat) (c : conn_ref) s : actions -> err + bool -> Prop :=
| client_fails rc : next_recv s = RecvFails rc -> reads_client i c s [] (inl (Rc rc))
| client_closed t r : next_recv s = RecvClosed -> drops i s t r ->
    reads_client i c s t (ending true r)
| client_garbled events : next_recv s = RecvData events false ->
    reads_client i c s [] (inl (Rc FLOM_RC_G_MARKUP_PARSE_CONTEXT_PARSE_ERROR))
| client_sends events m0 m t r :
    next_recv s = RecvData events true -> message_of s c = Some m0 ->
    markup_callbacks events m0 = Some m -> m_state m <> FLOM_MSG_STATE_INVALID ->
    requests c m t r -> reads_client i c s t (ending false r)
| client_invalid_stuck events m0 m e :
    next_recv s = RecvData events true -> message_of s c = Some m0 ->
    markup_callbacks events m0 = Some m -> m_state m = FLOM_MSG_STATE_INVALID ->
    reads_client i c s [(Close i, inl e)] (inl e)
| client_invalid events m0 m t r :
    next_recv s = RecvData events true -> message_of s c = Some m0 ->
    markup_callbacks events m0 = Some m -> m_state m = FLOM_MSG_STATE_INVALID ->
    requests c m t r -> reads_client i c s ((Close i, inr tt) :: t) (ending false r).

Inductive readable_fd (i : nat) s : actions -> err + bool -> Prop :=
| readable_gone : conn_at s i = None ->
    readable_fd i s [] (inl (Rc FLOM_RC_NULL_OBJECT))
| readable_pipe c t r : i = 0%nat -> conn_at s i = Some c -> reads_pipe s t r ->
    readable_fd i s t r
| readable_client c t r : i <> 0%nat -> conn_at s i = Some c -> reads_client i c s t r ->
    readable_fd i s t r.

Inductive hangup_fd (i : nat) (r : revents) s : actions -> err + bool -> Prop :=
| hangup_no : re_hup r = false -> hangup_fd i r s [] (inr false)
| hangup_pipe x : re_hup r = true -> i = 0%nat ->
    hangup_fd i r s [(Close 0, x)] (ending true x)
| hangup_client t x : re_hup r = true -> i <> 0%nat -> drops i s t x ->
    hangup_fd i r s t (ending true x).

(** One descriptor *)
Inductive served_fd (i : nat) (r : revents) s : actions -> err + bool -> Prop :=
| fd_err t x : re_err r = true -> drops i s t x -> served_fd i r s t (ending true x)
| fd_fails t1 rc t2 x : re_err r = false -> re_in r = true ->
    readable_fd i s t1 (inl (Rc rc)) -> drops i s t2 x ->
    served_fd i r s (t1 ++ t2) (ending true x)
| fd_lost t e : re_err r = false -> re_in r = true -> (forall rc, e <> Rc rc) ->
    readable_fd i s t (inl e) -> served_fd i r s t (inl e)
| fd_leaves t : re_err r = false -> re_in r = true -> readable_fd i s t (inr true) ->
    served_fd i r s t (inr true)
| fd_goes_on t1 t2 x : re_err r = false -> re_in r = true ->
    readable_fd i s t1 (inr false) -> hangup_fd i r s t2 x -> served_fd i r s (t1 ++ t2) x
| fd_not_readable t x : re_err r = false -> re_in r = false -> hangup_fd i r s t x ->
    served_fd i r s t x.

(** The table and what is left to read after it *)
Definition inputs s : list conn_ref * list pipe_read * list recv_result :=
  (cs_array (n_conns (l_net s)), l_reads s, l_recvs s).
Definition inputs_after (i : nat) (r : revents) s
    : list conn_ref * list pipe_read * list recv_result :=
  if negb (re_err r) && re_in r && bool_decide (is_Some (conn_at s i)) then
    if (i =? 0)%nat then
      match l_reads s with
      | ReadToken _ _ _ :: ReadConn c :: l =>
          (cs_array (n_conns (l_net s)) ++ [c], l, l_recvs s)
      | ReadToken _ _ _ :: _ :: l | _ :: l => (cs_array (n_conns (l_net s)), l, l_recvs s)
      | [] => inputs s
      end
    else (cs_array (n_conns (l_net s)), l_reads s, tail (l_recvs s))
  else inputs s.

(** Between two actions the thread leaves alone the resource, the deadline and the
    connections other than the one it reads. *)
Definition spares (c : option conn_ref) s s' : Prop :=
  resource_of s' = resource_of s /\ lk_uid (l_locker s') = lk_uid (l_locker s) /\
  l_deadline s' = l_deadline s /\
  forall x, Some x <> c -> w_conns (n_world (l_net s')) !! x = w_conns (n_world (l_net s)) !! x.

Inductive performs (c : option conn_ref) s0 : actions -> lstate D -> Prop :=
| performs_nothing : performs c s0 [] s0
| performs_spares t s s' : performs c s0 t s -> spares c s s' -> performs c s0 t s'
| performs_act t a r s s' : performs c s0 t s -> act a s = (r, s') -> r <> inl Ub ->
    performs c s0 (t ++ [(a, r)]) s'.

(** The result of a scan that a descriptor ends *)
Definition scan_result (x : err + bool) : err + unit :=
  match x with inl e => inl e | inr _ => inr tt end.

Definition reading (i : nat) s : option conn_ref :=
  if (i =? 0)%nat then None else conn_at s i.

Inductive scans : list revents -> nat -> lstate D -> actions -> err + unit -> lstate D -> Prop :=
| scans_nil i s : scans [] i s [] (inr tt) s
| scans_stops r l i s t x s' :
    performs (reading i s) s t s' -> served_fd i r s t x -> inputs s' = inputs_after i r s ->
    x <> inr false -> scans (r :: l) i s t (scan_result x) s'
| scans_goes_on r l i s t s1 t' x s' :
    performs (reading i s) s t s1 -> served_fd i r s t (inr false) ->
    inputs s1 = inputs_after i r s -> scans l (S i) s1 t' x s' ->
    scans (r :: l) i s (t ++ t') x s'.

(** One round, on the table without the connections that have ended.  It cannot poll
    without memory or with a connection that has no descriptor. *)
Definition open_conns s : Prop :=
  forall c o, c ∈ cs_array (n_conns (l_net s)) ->
    w_conns (n_world (l_net s)) !! c = Some o -> has_fd o = true.
Definition can_poll s : Prop :=
  head (w_mallocs (n_world (l_net s))) <> Some false /\ open_conns s.
Definition descriptors s (fds : list Z) : Prop :=
  Forall2 (fun c fd => c_fd <$> w_conns (n_world (l_net s)) !! c = Some fd)
    (cs_array (n_conns (l_net s))) fds.

Inductive polls_once (poll : list Z -> Z -> poll_result) s
    : actions -> err + bool -> lstate D -> Prop :=
| polls_nobody : cs_array (n_conns (l_net s)) = [] -> polls_once poll s [] (inr false) s
| polls_stuck e s' : ~ can_poll s -> spares None s s' -> polls_once poll s [] (inl (Rc e)) s'
| polls_fails fds timeout s' : can_poll s -> descriptors s fds ->
    poll fds timeout = PollFails -> spares None s s' ->
    polls_once poll s [] (inl (Rc FLOM_RC_OK)) s'
| polls_timeout fds timeout r s' : can_poll s -> descriptors s fds ->
    poll fds timeout = PollTimeout -> performs None s [(Timeout, r)] s' ->
    inputs s' = inputs s -> polls_once poll s [(Timeout, r)] (ending true r) s'
| polls_ready fds timeout l s1 t x s' : can_poll s -> descriptors s fds ->
    poll fds timeout = PollReady l -> spares None s s1 -> inputs s1 = inputs s ->
    scans l 0 s1 t x s' -> polls_once poll s t (ending true x) s'.

Inductive rounds : list (list Z -> Z -> poll_result) -> lstate D -> actions -> err + bool ->
    lstate D -> Prop :=
| rounds_none s : rounds [] s [] (inr true) s
| rounds_end poll polls s s1 t x s' :
    on_net flom_conns_clean s = (inr tt, s1) -> polls_once poll s1 t x s' -> x <> inr true ->
    rounds (poll :: polls) s t x s'
| rounds_next poll polls s s1 t s2 t' x s' :
    on_net flom_conns_clean s = (inr tt, s1) -> polls_once poll s1 t (inr true) s2 ->
    rounds polls s2 t' x s' -> rounds (poll :: polls) s (t ++ t') x s'.

(** The thread starts with its pipe alone in the table. *)
Definition starts (c : conn_ref) s s' : Prop :=
  (exists now clock, w_clock (n_world (l_net s)) = Some now :: clock /\
     l_deadline s' = Timeval (tv_sec now - 1) (tv_usec now)) /\
  spares (Some c) s (put_ldeadline (l_deadline s) s') /\
  inputs s' = ([c], l_reads s, l_recvs s) /\
  w_conns (n_world (l_net s')) !! c = Some (control_conn (lk_read_pipe (l_locker s))).

(** A failure of a round ends the thread, not the daemon. *)
Definition thread_result (r : err + bool) : err + bool :=
  match r with inl (Rc _) => inr false | _ => r end.

(** What the actions of a trace do to the resource of the locker [uid] *)
Inductive call_step (uid : Z) : locker_action * (err + unit) -> option string * D ->
    option string * D -> Prop :=
| call_inmsg c m r n d w dl u :
    res_inmsg uid c (St n d m w dl) = (r, u) -> r <> inl Ub ->
    call_step uid (Inmsg c m, r) (n, d) (s_name u, s_data u)
| call_clean c r n d w dl u :
    res_clean uid c (St n d flom_msg_init w dl) = (r, u) -> r <> inl Ub ->
    call_step uid (Clean c, r) (n, d) (s_name u, s_data u)
| call_timeout r n d w dl u :
    res_timeout uid (St n d flom_msg_init w dl) = (r, u) -> r <> inl Ub ->
    call_step uid (Timeout, r) (n, d) (s_name u, s_data u)
| call_answer c r x : call_step uid (Answer c, r) x x
| call_close i r x : call_step uid (Close i, r) x x.

Inductive resource_run (uid : Z) : actions -> option string * D -> option string * D -> Prop :=
| run_nil x : resource_run uid [] x x
| run_snoc t l x y z :
    resource_run uid t x y -> call_step uid l y z -> resource_run uid (t ++ [l]) x z.
End contract.

(** ** The thread keeps it *)
Section kept.
Context `{Glib} {D : Type} `{Resource D}.
Implicit Type s : lstate D.

Lemma spares_refl c s : spares c s s.
Proof. by split_and!. Qed.
Lemma spares_trans c s1 s2 s3 : spares c s1 s2 -> spares c s2 s3 -> spares c s1 s3.
Proof.
  intros (Hr & Hu & Hd & Hw) (Hr' & Hu' & Hd' & Hw').
  split_and!; [by etrans..|]. intros x Hx. by rewrite Hw', Hw.
Qed.

(** An action leaves the table and what is left to read. *)
Lemma act_inputs a : untouched inputs (act (D := D) a).
Proof.
  assert (Hn : forall A (m : Cm A), untouched (fun n => cs_array (n_conns n)) m ->
    untouched inputs (on_net (D := D) m)).
  { intros A m Hm s. specialize (Hm (l_net s)). unfold on_net, zoom.
    destruct (m (l_net s)) as [r n]. unfold inputs. cbn in *. by rewrite Hm. }
  assert (Hw : forall A (m : Wm A), untouched (fun n => cs_array (n_conns n)) (on_nworld m)).
  { intros A m. by apply untouched_zoom_other. }
  assert (Hl : forall A (m : Wm A), untouched inputs (on_lworld (D := D) m)).
  { intros A m. apply Hn, Hw. }
  assert (Hc : untouched (fun n => cs_array (n_conns n)) close_fd).
  { intros [cs w [|b l]]; done. }
  assert (Hm : forall A m back (f : Res D A), untouched inputs (call_method m back f)).
  { intros A m back f s. unfold call_method. by destruct (f _). }
  destruct a; cbn [act].
  - solve_untouched.
  - unfold resource_clean. solve_untouched.
  - unfold resource_timeout. solve_untouched.
  - assert (forall A (r : err + A), untouched inputs (of_result (S := lstate D) r)).
    { intros A [e|x]; done. }
    unfold send_answer, free_conn_msg. solve_untouched.
  - apply Hn. unfold flom_conns_close_fd, flom_conns_get_conn, flom_conn_terminate,
      flom_tcp_close. solve_untouched.
Qed.

Lemma wp_act c s0 t a s (Q : err + unit -> lstate D -> Prop) :
  performs c s0 t s ->
  (forall r s', r <> inl Ub -> performs c s0 (t ++ [(a, r)]) s' -> inputs s' = inputs s ->
     act a s = (r, s') -> Q r s') ->
  (forall s', Q (inl Ub) s') -> wp (act a) Q s.
Proof.
  intros Ht HQ Hub. unfold wp. pose proof (act_inputs a s) as Hi.
  destruct (act a s) as [r s'] eqn:E. cbn in *.
  assert (r = inl Ub \/ r <> inl Ub) as [->|Hr] by (destruct r as [[]|]; auto); [apply Hub|].
  apply HQ; [done| |done|done]. by eapply performs_act.
Qed.

Lemma wp_look c s (Q : err + flom_conn -> lstate D -> Prop) :
  (forall o, w_conns (n_world (l_net s)) !! c = Some o -> Q (inr o) s) ->
  Q (inl Ub) s -> wp (on_lworld (deref c)) Q s.
Proof.
  intros HQ Hub. destruct s as [k [cs w cl] dl rd rc].
  unfold wp, on_lworld, on_net, on_nworld, zoom, deref, mbind, M_bind, gets. cbn in *.
  destruct (w_conns w !! c) as [o|]; cbn; auto.
Qed.

Lemma wp_get_conn i s (Q : err + option conn_ref -> lstate D -> Prop) :
  Q (inr (conn_at s i)) s -> wp (on_net (flom_conns_get_conn i)) Q s.
Proof. by destruct s. Qed.

Lemma conn_at_inputs s s' i : inputs s' = inputs s -> conn_at s' i = conn_at s i.
Proof. unfold inputs, conn_at. by intros [= -> _ _]. Qed.

Lemma wp_drop i c s0 t s (Q : err + unit -> lstate D -> Prop) :
  performs c s0 t s -> conn_at s i = conn_at s0 i ->
  (forall t2 x s', drops i s0 t2 x -> performs c s0 (t ++ t2) s' -> inputs s' = inputs s ->
     Q x s') ->
  (forall s', Q (inl Ub) s') -> wp (drop_client i) Q s.
Proof.
  intros Ht Hi HQ Hub. unfold drop_client. wp_step. apply wp_get_conn. wp_step.
  apply (wp_act c s0 t (Close i)); [done| |auto]. intros r s1 _ Ht1 Hi1 _.
  destruct r as [e|[]]; [by eapply HQ; [apply drops_close_fails|..]|].
  wp_step. wp_step; [|auto]. eapply (wp_act c s0 _ (Clean _)); [done| |auto].
  intros r s2 _ Ht2 Hi2 _. rewrite <- app_assoc in Ht2.
  eapply HQ; [apply drops_cleans; by rewrite <- Hi | exact Ht2 | by rewrite Hi2].
Qed.

Lemma wp_requests c0 s0 t c s (Q : err + unit -> lstate D -> Prop) :
  performs c0 s0 t s ->
  (forall m t2 x s', message_of s c = Some m -> requests c m t2 x ->
     performs c0 s0 (t ++ t2) s' -> inputs s' = inputs s -> Q x s') ->
  (forall s', Q (inl Ub) s') -> wp (dispatch c) Q s.
Proof.
  unfold message_of. intros Ht HQ Hub. unfold dispatch. wp_step. apply wp_look; [|auto].
  intros o Ho. rewrite Ho in HQ. cbn in HQ. set (m := c_msg o) in *. fold (is_request m).
  destruct (is_request m) eqn:Hv.
  - unfold resource_inmsg. do 2 wp_step. apply wp_look; [|auto]. intros o' Ho'.
    rewrite Ho in Ho'. injection Ho' as <-.
    apply (wp_act c0 s0 t (Inmsg c m)); [done| |auto]. intros r s1 _ Ht1 Hi1 _.
    destruct r as [e|[]]; [by eapply HQ; [|apply requests_refused|..]|].
    apply (wp_act c0 s0 (t ++ [(Inmsg c m, inr tt)]) (Answer c)); [done| |auto].
    intros r s2 _ Ht2 Hi2 _. rewrite <- app_assoc in Ht2.
    eapply HQ; [done | by apply requests_answered | exact Ht2 | by rewrite Hi2].
  - wp_step. eapply HQ; [done | by apply requests_other | by rewrite app_nil_r | done].
Qed.

(** The connection [c] is changed. *)
Definition rewritten (c : conn_ref) (o : flom_conn) s : lstate D :=
  put_net (put_nworld (set_conns (<[c := o]> (w_conns (n_world (l_net s)))) (n_world (l_net s)))
    (l_net s)) s.
Lemma spares_rewritten c o s : spares (Some c) s (rewritten c o s).
Proof. split_and!; [done..|]. intros x Hx. cbn. by rewrite lookup_insert_ne by congruence. Qed.
Lemma rewritten_twice c o o' s : rewritten c o' (rewritten c o s) = rewritten c o' s.
Proof. unfold rewritten, put_net, put_nworld, set_conns. cbn. by rewrite insert_insert_eq. Qed.

Lemma wp_rewrite c f o s (Q : err + unit -> lstate D -> Prop) :
  w_conns (n_world (l_net s)) !! c = Some o -> Q (inr tt) (rewritten c (f o) s) ->
  wp (on_lworld (store c f)) Q s.
Proof.
  intros Ho HQ. destruct s as [k [cs w cl] dl rd rc].
  unfold wp, on_lworld, on_net, on_nworld, zoom, store, deref, mbind, M_bind, gets. cbn in *.
  by rewrite Ho.
Qed.
Lemma wp_set_last_step c v o s (Q : err + unit -> lstate D -> Prop) :
  w_conns (n_world (l_net s)) !! c = Some o -> Q (inr tt) (rewritten c (set_last_step v o) s) ->
  wp (on_lworld (flom_conn_set_last_step c v)) Q s.
Proof. intros Ho HQ. by apply (wp_rewrite c (set_last_step v) o). Qed.

(** The end of a connection leaves its message. *)
Lemma close_message i s r s' c :
  act (Close i) s = (r, s') -> message_of s' c = message_of s c.
Proof.
  assert (Hst : forall x f, (forall o, c_msg (f o) = c_msg o) ->
    untouched (fun n => c_msg <$> w_conns (n_world n) !! c) (on_nworld (store x f))).
  { intros x f Hf [cs w cl]. unfold on_nworld, zoom, store, deref, mbind, M_bind, gets. cbn.
    destruct (w_conns w !! x) as [o|] eqn:Ho; [|done]. cbn.
    destruct (decide (x = c)) as [->|]; [|by rewrite lookup_insert_ne].
    by rewrite lookup_insert_eq, Ho; cbn; rewrite Hf. }
  assert (Hd : forall x, untouched (fun n => c_msg <$> w_conns (n_world n) !! c) (on_nworld (deref x))).
  { intros x [cs w cl]. unfold on_nworld, zoom, deref, mbind, M_bind, gets. cbn.
    by destruct (w_conns w !! x). }
  assert (Hc : untouched (fun n => c_msg <$> w_conns (n_world n) !! c) close_fd)
    by (intros [cs w [|b l]]; done).
  intros E. assert (Hu : untouched (fun n => c_msg <$> w_conns (n_world n) !! c)
    (flom_conns_close_fd i)).
  { unfold flom_conns_close_fd, flom_conns_get_conn, flom_conn_terminate, flom_tcp_close.
    solve_untouched; by apply Hst. }
  specialize (Hu (l_net s)). cbn in E. unfold on_net, zoom in E.
  destruct (flom_conns_close_fd i (l_net s)) as [r' n]. injection E as _ <-. exact Hu.
Qed.

Definition brings s (x : Z * Z * Z * conn_ref) (l : list pipe_read) : Prop :=
  l_reads s = ReadToken x.1.1.1 x.1.1.2 x.1.2 :: ReadConn x.2 :: l.
Lemma wp_import s (Q : err + conn_ref -> lstate D -> Prop) :
  (forall x l s', brings s x l -> spares None s s' ->
     inputs s' = (cs_array (n_conns (l_net s)) ++ [x.2], l, l_recvs s) -> Q (inr x.2) s') ->
  ((forall x l, ~ brings s x l) -> forall s', spares None s s' ->
     inputs s' = (cs_array (n_conns (l_net s)), match l_reads s with
       | ReadToken _ _ _ :: _ :: l | _ :: l => l | [] => [] end, l_recvs s) ->
     Q (inl (Rc FLOM_RC_READ_ERROR)) s') ->
  wp import_connection Q s.
Proof.
  intros Hok Hbad. destruct s as [k [[a dom uid] w cl] dl rd rc]. unfold brings in *. cbn in *.
  unfold import_connection, read_pipe, wp, mbind, M_bind, on_net, zoom, gets, modify. cbn.
  destruct rd as [|[d fd n|x|] [|[d' fd' n'|x'|] l]]; cbn;
    try (apply Hbad; [by intros | by split_and! | done]).
  by apply (Hok (d, fd, n, x') l).
Qed.

Lemma wp_reads_pipe r s (Q : err + bool -> lstate D -> Prop) :
  re_err r = false -> re_in r = true -> is_Some (conn_at s 0) ->
  (forall t x s', reads_pipe s t x -> performs None s t s' ->
     inputs s' = inputs_after 0 r s -> Q x s') ->
  (forall s', Q (inl Ub) s') -> wp (flom_locker_loop_pollin 0) Q s.
Proof.
  intros He Hin [c Hc] HQ Hub. unfold inputs_after in HQ. rewrite He, Hin, Hc in HQ.
  rewrite bool_decide_eq_true_2 in HQ by done. cbn in HQ.
  unfold flom_locker_loop_pollin. wp_step. apply wp_get_conn.
  do 2 wp_step; [|congruence]. do 2 wp_step. cbn [Nat.eqb]. wp_step.
  set (s1 := upd_locker _ s). assert (Hl1 : spares None s s1) by by split_and!.
  apply wp_import.
  - intros x l s2 Hx Hl2 Hi2. assert (Hl : spares None s s2) by by eapply spares_trans.
    wp_step. eapply (wp_requests None s []); [by eapply performs_spares; [apply performs_nothing|]| |auto].
    intros m t y s3 Hm Hr Ht Hi. assert (Hb : reads_pipe s t (ending false y)).
    { eapply pipe_brings; [exact Hx| |exact Hr]. destruct Hl as (_ & _ & _ & Hw).
      unfold message_of in *. by rewrite <- Hw. }
    destruct y as [e|[]]; [|wp_step]; eapply HQ; try done; by rewrite Hi, Hi2; unfold brings in Hx; cbn in Hx; rewrite Hx.
  - intros Hx s2 Hl2 Hi2. eapply HQ.
    + apply pipe_fails. intros d fd n x l Hr. by apply (Hx (d, fd, n, x) l).
    + eapply performs_spares; [apply performs_nothing | by eapply spares_trans].
    + rewrite Hi2. unfold brings in Hx. cbn in *.
      destruct (l_reads s) as [|[] [|[] ?]] eqn:El; try done; try (by unfold inputs; rewrite El).
      by destruct (Hx (domain, client_fd, sequence, c0) l).
Qed.

Lemma wp_next_recv s (Q : err + recv_result -> lstate D -> Prop) :
  (forall s', spares None s s' ->
     inputs s' = (cs_array (n_conns (l_net s)), l_reads s, tail (l_recvs s)) ->
     Q (inr (next_recv s)) s') -> wp flom_conn_recv Q s.
Proof.
  intros HQ. destruct s as [k n dl rd [|x rc]]; unfold wp, flom_conn_recv; cbn;
    (apply HQ; [by split_and! | done]).
Qed.

(** What the parser calls is done in the message of the connection. *)
Lemma wp_deserialize c events (wf : bool) s (Q : err + unit -> lstate D -> Prop) :
  (forall o m, w_conns (n_world (l_net s)) !! c = Some o -> markup_callbacks events (c_msg o) = Some m ->
     Q (if wf then inr tt else inl (Rc FLOM_RC_G_MARKUP_PARSE_CONTEXT_PARSE_ERROR))
       (rewritten c (set_conn_msg m o) s)) ->
  (forall s', Q (inl Ub) s') -> wp (deserialize_into c events wf) Q s.
Proof.
  intros HQ Hub. unfold deserialize_into. wp_step. apply wp_look; [|auto]. intros o Ho.
  do 2 wp_step; [|auto]. wp_step. eapply wp_rewrite; [done|].
  specialize (HQ o a Ho H1). by destruct wf.
Qed.

(** Closed, cleaned, and the scan ends *)
Lemma wp_closes i c c0 s0 t s (Q : err + bool -> lstate D -> Prop) :
  performs c0 s0 t s -> conn_at s0 i = Some c ->
  (forall t2 x s', drops i s0 t2 x -> performs c0 s0 (t ++ t2) s' -> inputs s' = inputs s ->
     Q (ending true x) s') ->
  (forall s', Q (inl Ub) s') ->
  wp (_ ← on_net (flom_conns_close_fd i); _ ← resource_clean c; mret true) Q s.
Proof.
  intros Ht Hc HQ Hub. wp_step. apply (wp_act c0 s0 t (Close i)); [done| |auto].
  intros x s1 _ Ht1 Hi1 _.
  destruct x as [e|[]]; [by apply (HQ _ (inl e) s1 (drops_close_fails i s0 e))|].
  wp_step. eapply (wp_act c0 s0 _ (Clean c)); [done| |auto]. intros x s2 _ Ht2 Hi2 _.
  rewrite <- app_assoc in Ht2. assert (Hd : drops i s0 [(Close i, inr tt); (Clean c, x)] x)
    by by apply drops_cleans.
  specialize (HQ _ _ s2 Hd Ht2). rewrite Hi2 in HQ. destruct x as [e|[]]; [|wp_step]; by apply HQ.
Qed.

(** Given to the resource, and the descriptors after it are looked at *)
Lemma wp_requests_goes_on c0 s0 t c m s (Q : err + bool -> lstate D -> Prop) :
  performs c0 s0 t s -> message_of s c = Some m ->
  (forall t2 x s', requests c m t2 x -> performs c0 s0 (t ++ t2) s' -> inputs s' = inputs s ->
     Q (ending false x) s') ->
  (forall s', Q (inl Ub) s') -> wp (_ ← dispatch c; mret false) Q s.
Proof.
  intros Ht Hm HQ Hub. wp_step. eapply wp_requests; [done| |auto].
  intros m' t2 x s' Hm' Hr Ht2 Hi2. rewrite Hm in Hm'. injection Hm' as <-.
  specialize (HQ _ _ s' Hr Ht2 Hi2). destruct x as [e|[]]; [|wp_step]; exact HQ.
Qed.

(** The message that is complete, of a client *)
Lemma wp_client_sends i c s0 s m (Q : err + bool -> lstate D -> Prop) :
  performs (Some c) s0 [] s -> message_of s c = Some m ->
  (forall t x s', performs (Some c) s0 t s' -> inputs s' = inputs s ->
     (m_state m = FLOM_MSG_STATE_INVALID ->
        (exists e, t = [(Close i, inl e)] /\ x = inl e) \/
        exists t2 y, t = (Close i, inr tt) :: t2 /\ x = ending false y /\ requests c m t2 y) ->
     (m_state m <> FLOM_MSG_STATE_INVALID -> exists y, x = ending false y /\ requests c m t y) ->
     Q x s') ->
  (forall s', Q (inl Ub) s') ->
  wp (_ ← when (bool_decide (m_state m = FLOM_MSG_STATE_INVALID))
            (on_net (flom_conns_close_fd i));
      _ ← dispatch c; mret false) Q s.
Proof.
  intros Ht Hm HQ Hub. wp_step. wp_step.
  - apply bool_decide_eq_true in H1. apply (wp_act (Some c) s0 [] (Close i)); [done| |auto].
    intros x s1 _ Ht1 Hi1 Ea. pose proof (close_message i s x s1 c Ea) as Hm1.
    destruct x as [e|[]]; [eapply HQ; eauto; done|].
    eapply wp_requests_goes_on; [done | by rewrite Hm1 | | auto].
    intros t y s2 Hr Ht2 Hi2. eapply HQ; [exact Ht2 | by rewrite Hi2 | eauto 6 | done].
  - apply bool_decide_eq_false in H1. eapply wp_requests_goes_on; [done|done| |auto].
    intros t y s2 Hr Ht2 Hi2. eapply HQ; [exact Ht2 | done..| eauto].
Qed.

Lemma wp_pollin_client i c r s (Q : err + bool -> lstate D -> Prop) :
  i <> 0%nat -> re_err r = false -> re_in r = true -> conn_at s i = Some c ->
  (forall t x s', reads_client i c s t x -> performs (Some c) s t s' ->
     inputs s' = inputs_after i r s -> Q x s') ->
  (forall s', Q (inl Ub) s') -> wp (flom_locker_loop_pollin i) Q s.
Proof.
  intros Hi0 He Hin Hc HQ Hub. unfold inputs_after in HQ. rewrite He, Hin, Hc in HQ.
  rewrite bool_decide_eq_true_2, (proj2 (Nat.eqb_neq i 0)) in HQ by done. cbn in HQ.
  unfold flom_locker_loop_pollin. wp_step. apply wp_get_conn.
  rewrite Hc. do 2 wp_step; [|done]. injection H1 as <-. do 2 wp_step.
  rewrite (proj2 (Nat.eqb_neq i 0)) by done. wp_step.
  set (s1 := upd_locker _ s). assert (Hl1 : spares None s s1) by by split_and!.
  apply wp_next_recv. intros s2 Hl2 Hi2. change (next_recv s1) with (next_recv s).
  pose proof (spares_trans _ _ _ _ Hl1 Hl2) as Hl.
  assert (Ht : performs (Some c) s [] s2).
  { eapply performs_spares; [apply performs_nothing|]. destruct Hl as (? & ? & ? & Hw).
    by split_and!; auto. }
  destruct (next_recv s) as [rc| |events wf] eqn:Er.
  - wp_step. eapply HQ; [by apply client_fails | done | done].
  - eapply wp_closes; [done|done| |auto]. intros t x s3 Hd Ht3 Hi3.
    eapply HQ; [by apply client_closed | done | by rewrite Hi3].
  - wp_step. apply wp_deserialize; [|auto]. intros o m Ho Hm.
    assert (Hm0 : message_of s c = Some (c_msg o)).
    { destruct Hl as (_ & _ & _ & Hw). unfold message_of. by rewrite <- Hw, Ho. }
    destruct wf; [|by eapply HQ; [eapply client_garbled | eapply performs_spares, spares_rewritten |]].
    wp_step. apply wp_look; [|auto]. intros o' Ho'. cbn in Ho'. rewrite lookup_insert_eq in Ho'.
    injection Ho' as <-. wp_step. eapply wp_set_last_step; [apply lookup_insert_eq|].
    rewrite rewritten_twice. set (s3 := rewritten _ _ s2).
    apply (wp_client_sends i c s s3 m); [by eapply performs_spares, spares_rewritten| | |auto].
    { unfold message_of. cbn. by rewrite lookup_insert_eq. }
    intros t x s4 Ht4 Hi4 Hinv Hval. eapply HQ; [|exact Ht4 | by rewrite Hi4].
    assert (m_state m = FLOM_MSG_STATE_INVALID \/ m_state m <> FLOM_MSG_STATE_INVALID)
      as [E|E] by (destruct (m_state m); auto).
    + destruct (Hinv E) as [(e & -> & ->)|(t2 & y & -> & -> & Hr)];
        [by eapply client_invalid_stuck | by eapply client_invalid].
    + destruct (Hval E) as (y & -> & Hr). by eapply client_sends.
Qed.

Lemma wp_pollin i r s (Q : err + bool -> lstate D -> Prop) :
  re_err r = false -> re_in r = true ->
  (forall t x s', readable_fd i s t x -> performs (reading i s) s t s' ->
     inputs s' = inputs_after i r s -> Q x s') ->
  (forall s', Q (inl Ub) s') -> wp (flom_locker_loop_pollin i) Q s.
Proof.
  intros He Hin HQ Hub. destruct (conn_at s i) as [c|] eqn:Hc.
  - unfold reading in HQ. destruct i as [|i]; cbn [Nat.eqb] in HQ.
    + apply (wp_reads_pipe r); [done|done|by eexists| |done]. intros t x s' Hr.
      apply HQ. by eapply readable_pipe.
    + apply (wp_pollin_client (S i) c r); [done..| |done]. intros t x s' Hr.
      rewrite Hc in HQ. apply HQ. by eapply readable_client.
  - unfold flom_locker_loop_pollin. wp_step. apply wp_get_conn. rewrite Hc. do 2 wp_step; [done|].
    apply (HQ []); [by apply readable_gone | apply performs_nothing |].
    unfold inputs_after. rewrite Hc. by rewrite bool_decide_eq_false_2, andb_false_r by (by intros [? ?]).
Qed.

Lemma conn_at_after i r s s' : inputs s' = inputs_after i r s -> conn_at s' i = conn_at s i.
Proof.
  unfold inputs_after. destruct (negb _ && _); cbn; [|apply conn_at_inputs].
  case_bool_decide as Hc; [|apply conn_at_inputs]. unfold conn_at, inputs in *.
  destruct i as [|i]; cbn; [|by intros [= -> _ _]].
  destruct (l_reads s) as [|[] [|[] ?]]; intros [= E _ _]; rewrite E; try done.
  destruct Hc as [c' Hc]. by rewrite (lookup_app_l_Some _ _ _ _ Hc).
Qed.

Lemma scan_result_ending b x : scan_result (ending b x) = x.
Proof. by destruct x as [e|[]]. Qed.

(** What follows the reading of a descriptor *)
Lemma wp_hangup i r s0 t l s (Q : err + unit -> lstate D -> Prop) :
  performs (reading i s0) s0 t s -> conn_at s i = conn_at s0 i ->
  (forall t2 x s', hangup_fd i r s0 t2 x -> performs (reading i s0) s0 (t ++ t2) s' ->
     inputs s' = inputs s -> x <> inr false -> Q (scan_result x) s') ->
  (re_hup r = false -> wp (scan_fds l (S i)) Q s) -> (forall s', Q (inl Ub) s') ->
  wp (if re_hup r then
        if (i =? 0)%nat then
          _ ← on_net (flom_conns_close_fd i); modify (upd_locker (set_read_pipe FLOM_NULL_FD))
        else drop_client i
      else scan_fds l (S i)) Q s.
Proof.
  intros Ht Hc HQ HI Hub. wp_step; [|auto]. wp_step.
  - apply Nat.eqb_eq in Heqb0 as ->. wp_step. apply (wp_act (reading 0 s0) s0 t (Close 0)); [done| |auto].
    intros x s1 _ Ht1 Hi1 _. assert (Hh : hangup_fd 0 r s0 [(Close 0, x)] (ending true x))
      by by apply hangup_pipe.
    destruct x as [e|[]].
    + by apply (HQ _ _ s1 Hh Ht1 Hi1).
    + wp_step. apply (HQ _ _ _ Hh); [|exact Hi1|done].
      eapply performs_spares; [exact Ht1 | by split_and!].
  - apply Nat.eqb_neq in Heqb0. eapply wp_drop; [exact Ht|done| |auto].
    intros t2 x s' Hd Ht' Hi'. rewrite <- (scan_result_ending true x).
    eapply HQ; [by apply hangup_client | done | done | by destruct x].
Qed.

Lemma scan_served l : forall i s,
  wp (scan_fds l i) (fun x s' => x <> inl Ub -> exists t, scans l i s t x s') s.
Proof.
  induction l as [|r l IH]; intros i s; cbn [scan_fds].
  { wp_step. intros _. exists []. apply scans_nil. }
  assert (Hstop : forall t x s', served_fd i r s t x -> performs (reading i s) s t s' ->
    inputs s' = inputs_after i r s -> x <> inr false ->
    scan_result x <> inl Ub -> exists t, scans (r :: l) i s t (scan_result x) s').
  { intros t x s' Hf Ht Hi Hx _. exists t. by apply scans_stops. }
  assert (Hgo : forall t s1, served_fd i r s t (inr false) -> performs (reading i s) s t s1 ->
    inputs s1 = inputs_after i r s ->
    wp (scan_fds l (S i)) (fun x s' => x <> inl Ub -> exists t, scans (r :: l) i s t x s') s1).
  { intros t s1 Hf Ht Hi. eapply wp_mono; [|apply (IH (S i) s1)]. intros x s' Hx Hub.
    destruct (Hx Hub) as [t' Ht']. exists (t ++ t'). by eapply scans_goes_on. }
  wp_step.
  { eapply (wp_drop i _ s []); [apply performs_nothing | done | | done].
    intros t x s' Hd Ht Hi. rewrite <- (scan_result_ending true x).
    eapply Hstop; [by apply fd_err | done | | by destruct x]. rewrite Hi. unfold inputs_after.
    by rewrite Heqb. }
  wp_step. wp_step.
  - wp_step. wp_step. apply (wp_pollin i r); [done..| |done]. intros t x s1 Hr Ht Hi.
    pose proof (conn_at_after _ _ _ _ Hi) as Hc. destruct x as [[rc| |]|[]].
    + wp_step. eapply wp_drop; [exact Ht | exact Hc | |done]. intros t2 x s2 Hd Ht2 Hi2.
      rewrite <- Hi2 in Hi.
      pose proof (Hstop _ _ s2 (fd_fails _ _ _ _ _ _ _ Heqb Heqb0 Hr Hd) Ht2 Hi) as HQ.
      destruct x as [e|[]]; [|do 2 wp_step]; by apply HQ.
    + done.
    + eapply (Hstop t (inl NoFuel)); [by apply fd_lost | done..].
    + do 2 wp_step. by eapply (Hstop t (inr true)); [apply fd_leaves|..].
    + wp_step. eapply wp_hangup; [exact Ht | exact Hc | | |done].
      * intros t2 x s2 Hh Ht2 Hi2 Hx. by eapply Hstop; [eapply fd_goes_on | | rewrite Hi2 |].
      * intros Hh. eapply (Hgo t); [|done|done]. rewrite <- (app_nil_r t).
        eapply fd_goes_on; [done..|]. by apply hangup_no.
  - wp_step. assert (Hi : inputs s = inputs_after i r s).
    { unfold inputs_after. by rewrite Heqb, Heqb0. }
    eapply (wp_hangup i r s []); [apply performs_nothing | done | | |done].
    + intros t2 x s2 Hh Ht2 Hi2 Hx. by eapply Hstop; [eapply fd_not_readable | | rewrite Hi2 |].
    + intros Hh. eapply (Hgo []); [|apply performs_nothing|done].
      apply fd_not_readable; [done..|]. by apply hangup_no.
Qed.

(** *** One round *)
Lemma clean_loop_errors fuel : forall i n rc, (clean_loop fuel i n).1 <> inl (Rc rc).
Proof.
  induction fuel as [|fuel IH]; intros i n rc; [done|]. cbn [clean_loop].
  unfold flom_conns_get_conn, flom_conn_delete, on_nworld, zoom, deref, mbind, M_bind, gets.
  destruct (cs_array (n_conns n) !! i) as [c|]; [|done]. cbn.
  destruct (w_conns (n_world n) !! c) as [o|] eqn:Ho; [|done]. cbn.
  destruct (to_remove o); [|apply IH]. cbn. rewrite Ho. apply IH.
Qed.

Lemma wp_clean s (Q : err + unit -> lstate D -> Prop) :
  (forall s', on_net flom_conns_clean s = (inr tt, s') -> Q (inr tt) s') ->
  (forall s', Q (inl Ub) s') -> wp (on_net flom_conns_clean) Q s.
Proof.
  intros HQ Hub. unfold wp. pose proof (conns_clean_terminates (l_net s)) as Hf.
  pose proof (clean_loop_errors (S (length (cs_array (n_conns (l_net s))))) 0 (l_net s)) as He.
  change (clean_loop _ _ _) with (flom_conns_clean (l_net s)) in He.
  unfold on_net, zoom in *. destruct (flom_conns_clean (l_net s)) as [[[rc| |]|[]] n]; cbn in *; auto.
  - by destruct (He rc).
  - done.
Qed.

(** Memory and descriptors for [poll] *)
Definition unmoved s s' : Prop := spares None s s' /\ inputs s' = inputs s.

Lemma wp_get_fds s (Q : err + option (list Z) -> lstate D -> Prop) :
  (forall s', unmoved s s' -> head (w_mallocs (n_world (l_net s))) = Some false -> Q (inr None) s') ->
  (forall fds s', unmoved s s' -> head (w_mallocs (n_world (l_net s))) <> Some false ->
     descriptors s fds -> Q (inr (Some fds)) s') ->
  (forall s', Q (inl Ub) s') -> wp (on_net flom_conns_get_fds) Q s.
Proof.
  intros Hno Hok Hub. destruct s as [k [cs [ws t sent sd ml ck mid] cl] dl rd rc]. unfold descriptors in *.
  unfold wp, on_net, zoom, flom_conns_get_fds, on_nworld, zoom, g_try_malloc, mbind, M_bind, gets.
  destruct ml as [|[] ml]; cbn in *.
  1, 2: destruct (mapM (fun c => c_fd <$> ws !! c) (cs_array cs)) as [fds|] eqn:E; [|apply Hub];
    apply Hok; [by split_and! | done | by apply mapM_Some].
  apply Hno; [by split_and! | done].
Qed.

Lemma wp_set_events s (Q : err + unit -> lstate D -> Prop) :
  (open_conns s -> Q (inr tt) s) ->
  (~ open_conns s -> Q (inl (Rc FLOM_RC_OBJ_CORRUPTED)) s) ->
  Q (inl Ub) s -> wp (on_net flom_conns_set_events) Q s.
Proof.
  intros Hok Hbad Hub. unfold open_conns in *. destruct s as [k [cs w cl] dl rd rc]. cbn in *.
  unfold wp, on_net, zoom, flom_conns_set_events, mbind, M_bind, gets. cbn.
  destruct (mapM (fun c => w_conns w !! c) (cs_array cs)) as [os|] eqn:E; [|done].
  apply mapM_Some in E. cbn. destruct (forallb has_fd os) eqn:Hf; cbn.
  - apply Hok. intros c o Hc Ho. apply list_elem_of_lookup in Hc as [j Hj].
    destruct (Forall2_lookup_l _ _ _ _ _ E Hj) as (o' & Ho' & Hoo). rewrite Ho in Hoo.
    injection Hoo as <-. rewrite forallb_forall in Hf. apply Hf, list_elem_of_In.
    by eapply list_elem_of_lookup_2.
  - apply Hbad. intros Hall. apply not_true_iff_false in Hf. apply Hf, forallb_forall.
    intros o Ho%list_elem_of_In. apply list_elem_of_lookup in Ho as [j Hj].
    destruct (Forall2_lookup_r _ _ _ _ _ E Hj) as (c & Hc & Hco).
    eapply Hall; [by eapply list_elem_of_lookup_2 | done].
Qed.

Lemma wp_poll_timeout s (Q : err + Z -> lstate D -> Prop) :
  (forall z s', unmoved s s' -> Q (inr z) s') -> (forall s', Q (inl Ub) s') ->
  wp poll_timeout Q s.
Proof.
  intros HQ Hub. destruct s as [k [cs [ws t sent sd ml ck mid] cl] dl rd rc].
  unfold poll_timeout, flom_locker_loop_get_timeout, gettimeofday, on_lworld, on_net, on_nworld, zoom,
    wp, mbind, M_bind, gets. cbn.
  destruct ck as [|[now|] ck]; cbn; auto. by apply HQ.
Qed.

Lemma unmoved_trans s1 s2 s3 : unmoved s1 s2 -> unmoved s2 s3 -> unmoved s1 s3.
Proof. intros [Hl Hi] [Hl' Hi']. split; [by eapply spares_trans | by rewrite Hi', Hi]. Qed.

Lemma open_conns_unmoved s s' : unmoved s s' -> (open_conns s' <-> open_conns s).
Proof.
  intros [(_ & _ & _ & Hw) [= Ha _ _]]. unfold open_conns. rewrite Ha.
  by split; intros Ho c o Hc Hoc; apply (Ho c o Hc); rewrite Hw in *.
Qed.

(** The reports of [poll], in a state in which it has been called *)
Lemma wp_reports poll fds timeout s s2 :
  can_poll s -> descriptors s fds -> unmoved s s2 ->
  wp (match poll fds timeout with
      | PollFails => throw (Rc FLOM_RC_OK)
      | PollTimeout =>
          _ ← resource_timeout;
          used ← on_net flom_conns_get_used;
          _ ← when (used =? 1)%nat
                (modify (fun s : lstate D =>
                   upd_locker (set_idle_periods (lk_idle_periods (l_locker s) + 1)) s));
          mret true
      | PollReady l => _ ← scan_fds l 0; mret true
      end) (fun x s' => x <> inl Ub -> exists t, polls_once poll s t x s') s2.
Proof.
  intros Hcan Hfds [Hl Hi]. destruct (poll fds timeout) as [| |l] eqn:Ep.
  - wp_step. intros _. exists []. by eapply polls_fails.
  - assert (Hp : performs None s [] s2) by by eapply performs_spares; [apply performs_nothing|].
    wp_step. apply (wp_act None s [] Timeout); [done| |done]. intros r s3 _ Ht3 Hi3 _.
    rewrite Hi in Hi3. assert (Hr : forall s', spares None s3 s' -> inputs s' = inputs s3 ->
      exists t, polls_once poll s t (ending true r) s').
    { intros s' Hl' Hi'. exists [(Timeout, r)]. eapply polls_timeout; [done..| |by rewrite Hi'].
      by eapply performs_spares. }
    destruct r as [e|[]]; [by intros _; apply Hr|]. wp_step.
    assert (Hu : forall Q, Q (inr (length (cs_array (n_conns (l_net s3))))) s3 ->
      wp (on_net (D := D) flom_conns_get_used) Q s3) by (intros Q; by destruct s3).
    apply Hu. wp_step. wp_step; [wp_step|]; wp_step; intros _; by apply Hr.
  - wp_step. eapply wp_mono; [|apply scan_served]. intros x s3 Hx.
    assert (Hr : x <> inl Ub -> exists t, polls_once poll s t (ending true x) s3).
    { intros Hub. destruct (Hx Hub) as [t Ht]. exists t. by eapply polls_ready. }
    destruct x as [e|[]]; [|wp_step]; intros Hub; apply Hr; [congruence|done].
Qed.

Lemma round_keeps poll s :
  wp (locker_round poll) (fun x s' => x <> inl Ub -> exists s1 t,
    on_net flom_conns_clean s = (inr tt, s1) /\ polls_once poll s1 t x s') s.
Proof.
  unfold locker_round. wp_step. apply wp_clean; [|done]. intros s1 Hs1.
  assert (Hr : forall m, wp m (fun x s' => x <> inl Ub -> exists t, polls_once poll s1 t x s') s1 ->
    wp m (fun x s' => x <> inl Ub -> exists s1 t,
      on_net flom_conns_clean s = (inr tt, s1) /\ polls_once poll s1 t x s') s1).
  { intros m. apply wp_mono. intros x s' Hx Hub. destruct (Hx Hub) as [t Ht]. eauto. }
  apply Hr. clear Hr s Hs1. wp_step.
  assert (Hu : forall Q, Q (inr (length (cs_array (n_conns (l_net s1))))) s1 ->
    wp (on_net (D := D) flom_conns_get_used) Q s1) by (intros Q; by destruct s1).
  apply Hu. wp_step.
  { apply Nat.eqb_eq, nil_length_inv in Heqb. wp_step. intros _. exists []. by apply polls_nobody. }
  wp_step. apply wp_get_fds; [| |done].
  { intros s2 [Hl Hi] Hm. do 2 wp_step; [done|]. exists [].
    apply polls_stuck; [|done]. by intros [? _]. }
  intros fds s2 Hst Hm Hfds. do 2 wp_step; [|done]. injection H1 as <-. wp_step.
  apply wp_set_events; [| |done]; rewrite (open_conns_unmoved _ _ Hst).
  - intros Ho. wp_step. apply wp_poll_timeout; [|done]. intros timeout s3 Hst3.
    by apply wp_reports; [| |eapply unmoved_trans].
  - intros Ho _. exists []. apply polls_stuck; [by intros [_ ?] | apply Hst].
Qed.

Lemma rounds_keep polls : forall s,
  wp (locker_rounds polls) (fun x s' => x <> inl Ub -> exists t, rounds polls s t x s') s.
Proof.
  induction polls as [|poll polls IH]; intros s; cbn [locker_rounds].
  { wp_step. intros _. exists []. apply rounds_none. }
  wp_step. eapply wp_mono; [|apply round_keeps]. intros x s2 Hx.
  assert (Hend : x <> inr true -> x <> inl Ub -> exists t, rounds (poll :: polls) s t x s2).
  { intros Ht Hub. destruct (Hx Hub) as (s1 & t & Hs1 & Hp). exists t. by eapply rounds_end. }
  destruct x as [e|[]]; [intros Hub; apply Hend; congruence| |wp_step; by intros _; apply Hend].
  destruct Hx as (s1 & t & Hs1 & Hp); [done|]. eapply wp_mono; [|apply IH].
  intros x s3 Hx Hub. destruct (Hx Hub) as [t' Ht']. exists (t ++ t'). by eapply rounds_next.
Qed.

(** *** The thread *)
Lemma wp_start c s (Q : err + unit -> lstate D -> Prop) :
  (forall s', starts c s s' -> Q (inr tt) s') -> (forall s', Q (inl Ub) s') ->
  wp (flom_locker_loop_start c) Q s.
Proof.
  intros HQ Hub. destruct s as [k [cs [ws t sent sd ml ck mid] cl] dl rd rc]. unfold wp,
    flom_locker_loop_start, flom_conns_add_conn, gettimeofday, g_try_malloc, on_lworld, on_net,
    on_nworld, zoom, mbind, M_bind, gets, modify. cbn.
  destruct ck as [|[now|] ck]; cbn; auto.
  destruct ml as [|[] [|[] ml]]; cbn; auto.
  all: apply HQ; split; [by eexists _, _|]; split; [|split; [done | apply lookup_insert_eq]].
  all: split_and!; [done..|]; intros x Hx; cbn; by rewrite lookup_insert_ne by congruence.
Qed.

Lemma ignore_rc_returns {S A} (m : M err S A) (x : S) rc : (ignore_rc m x).1 <> inl (Rc rc).
Proof. unfold ignore_rc. by destruct (m x) as [[[]|] x']. Qed.

Lemma conns_free_returns n : (flom_conns_free n).1 = inr tt \/ (flom_conns_free n).1 = inl Ub.
Proof.
  assert (Hc : forall k i n rc, (close_all k i n).1 <> inl (Rc rc)).
  { induction k as [|k IH]; intros i n' rc; cbn [close_all]; [done|]. unfold mbind, M_bind.
    pose proof (ignore_rc_returns (flom_conns_close_fd i) n' rc) as Hi.
    destruct (ignore_rc _ n') as [[e|[]] n1]; [exact Hi | apply IH]. }
  pose proof (conns_free_terminates n) as Ht. assert (Hr : forall rc, (flom_conns_free n).1 <> inl (Rc rc)).
  { intros rc. unfold flom_conns_free, flom_conns_get_used, mbind, M_bind, gets.
    specialize (Hc (length (cs_array (n_conns n))) 0%nat n rc).
    destruct (close_all _ 0%nat n) as [[e|[]] n1]; [exact Hc|].
    pose proof (ignore_rc_returns flom_conns_clean n1 rc) as Hi.
    by destruct (ignore_rc _ n1) as [[e|[]] n2]. }
  destruct (flom_conns_free n) as [[[rc| |]|[]] n']; cbn in *; auto.
  - by destruct (Hr rc).
  - done.
Qed.

Lemma thread_keeps c polls s :
  wp (flom_locker_loop c polls) (fun x s' => x <> inl Ub -> exists s1 t r s2,
    starts c s s1 /\ rounds polls s1 t r s2 /\ x = thread_result r /\
    resource_of s' = resource_of s2) s.
Proof.
  assert (Hfree : forall s2 (P : err + bool -> lstate D -> Prop),
    (forall s', resource_of s' = resource_of s2 -> P (inr false) s') ->
    (forall s', P (inl Ub) s') -> wp (_ ← on_net flom_conns_free; mret false) P s2).
  { intros s2 P HP Hub. wp_step. unfold wp, on_net, zoom.
    pose proof (conns_free_returns (l_net s2)) as Hr.
    destruct (flom_conns_free (l_net s2)) as [r n]. cbn in *. destruct Hr as [->| ->]; auto. }
  unfold flom_locker_loop. wp_step. wp_step. wp_step. apply wp_start; [|done]. intros s1 Hs1.
  eapply wp_mono; [|apply rounds_keep]. intros r s2 Hr.
  destruct r as [[rc| |]|[]]; [|done|intros _|intros _|].
  - destruct Hr as [t Ht]; [done|]. apply Hfree; [|done]. intros s' Hs' _. eauto 10.
  - destruct Hr as [t Ht]; [done|]. eauto 10.
  - destruct Hr as [t Ht]; [done|]. eauto 10.
  - destruct Hr as [t Ht]; [done|]. apply Hfree; [|done]. intros s' Hs' _. eauto 10.
Qed.

(** *** The resource, by the trace *)
Lemma run_app uid t1 t2 x y z :
  resource_run uid t1 x y -> resource_run uid t2 y z -> resource_run uid (t1 ++ t2) x z.
Proof.
  intros H1. induction 1 as [|t l y y' z Ht IH Hl]; [by rewrite app_nil_r|].
  rewrite app_assoc. eapply run_snoc; [by apply IH | done].
Qed.

Lemma run_steps uid t x y : resource_run uid t x y -> rtc (resource_step any_message) x y.
Proof.
  induction 1 as [|t l x y z _ IH Hl]; [done|]. etrans; [exact IH|].
  destruct Hl; [by apply rtc_once; eapply step_inmsg|by apply rtc_once; eapply step_clean|
    by apply rtc_once; eapply step_timeout | done..].
Qed.

Definition serving s : Z * (option string * D) := (lk_uid (l_locker s), resource_of s).

Lemma untouched_serving_net {A} (m : Cm A) : untouched serving (on_net (D := D) m).
Proof. by apply untouched_zoom_other. Qed.

Lemma act_call a s r s' :
  act a s = (r, s') -> r <> inl Ub ->
  lk_uid (l_locker s') = lk_uid (l_locker s) /\
  call_step (lk_uid (l_locker s)) (a, r) (resource_of s) (resource_of s').
Proof.
  intros E Hr. assert (Hu : untouched serving (act a) ->
    lk_uid (l_locker s') = lk_uid (l_locker s) /\ resource_of s' = resource_of s).
  { intros Hu. specialize (Hu s). rewrite E in Hu. exact (conj (f_equal fst Hu) (f_equal snd Hu)). }
  destruct a as [c m|c| |c|i].
  1-3: clear Hu; unfold resource_of; cbn in E;
    unfold resource_clean, resource_timeout, call_method, mbind, M_bind, gets in E;
    match type of E with (let '(_, _) := ?f in _) = _ => destruct f as [r' u] eqn:Er end;
    injection E as <- <-; cbn; (split; [done|]); by econstructor; [exact Er|].
  - destruct Hu as [-> ->]; [|split; [done | apply call_answer]]. cbn [act].
    assert (forall A (r : err + A), untouched serving (of_result (S := lstate D) r)) by (by intros A []).
    pose proof @untouched_serving_net. unfold send_answer, free_conn_msg, on_lworld. solve_untouched.
  - destruct Hu as [-> ->]; [|split; [done | apply call_close]]. apply untouched_serving_net.
Qed.

Lemma performs_run c s0 t s :
  performs c s0 t s -> lk_uid (l_locker s) = lk_uid (l_locker s0) /\
    resource_run (lk_uid (l_locker s0)) t (resource_of s0) (resource_of s).
Proof.
  induction 1 as [|t s s' _ [Hu IH] (Hr & Hu' & _)|t a r s s' _ [Hu IH] E Hr].
  - split; [done | apply run_nil].
  - by rewrite Hu', Hr.
  - destruct (act_call _ _ _ _ E Hr) as [Hu' Hc]. rewrite Hu in *. split; [done|]. by eapply run_snoc.
Qed.

Lemma scans_run l i s t x s' :
  scans l i s t x s' -> lk_uid (l_locker s') = lk_uid (l_locker s) /\
    resource_run (lk_uid (l_locker s)) t (resource_of s) (resource_of s').
Proof.
  induction 1 as [i s|r l i s t x s' Ht|r l i s t s1 t' x s' Ht _ _ _ [Hu IH]].
  - split; [done | apply run_nil].
  - by eapply performs_run.
  - apply performs_run in Ht as [Hu1 Ht]. rewrite Hu1 in *. split; [done|]. by eapply run_app.
Qed.

Lemma polls_run poll s t x s' :
  polls_once poll s t x s' -> lk_uid (l_locker s') = lk_uid (l_locker s) /\
    resource_run (lk_uid (l_locker s)) t (resource_of s) (resource_of s').
Proof.
  assert (Hl : forall s s', spares None s s' -> lk_uid (l_locker s') = lk_uid (l_locker s) /\
    resource_run (lk_uid (l_locker s)) [] (resource_of s) (resource_of s')).
  { intros s1 s2 (-> & -> & _). split; [done | apply run_nil]. }
  destruct 1 as [| | |fds timeout r s' _ _ _ Ht|fds timeout l s1 t x s' _ _ _ (Hr & Hu & _) _ Hs];
    [split; [done | apply run_nil] | by auto | by auto | by eapply performs_run |].
  apply scans_run in Hs. by rewrite Hu, Hr in Hs.
Qed.

Lemma rounds_run polls s t x s' :
  rounds polls s t x s' -> lk_uid (l_locker s') = lk_uid (l_locker s) /\
    resource_run (lk_uid (l_locker s)) t (resource_of s) (resource_of s').
Proof.
  assert (Hc : forall s s1, on_net flom_conns_clean s = (inr tt, s1) ->
    lk_uid (l_locker s1) = lk_uid (l_locker s) /\ resource_of s1 = resource_of s).
  { intros s1 s2 E. pose proof (untouched_serving_net flom_conns_clean s1) as Hu.
    rewrite E in Hu. exact (conj (f_equal fst Hu) (f_equal snd Hu)). }
  induction 1 as [s|poll polls s s1 t x s' E Hp|poll polls s s1 t s2 t' x s' E Hp _ [Hu IH]].
  - split; [done | apply run_nil].
  - destruct (Hc _ _ E) as [Hu Hr]. apply polls_run in Hp. by rewrite Hu, Hr in Hp.
  - destruct (Hc _ _ E) as [Hu1 Hr1]. apply polls_run in Hp as [Hu2 Hp]. rewrite Hu2, Hu1 in *.
    rewrite Hr1 in Hp. split; [done|]. by eapply run_app.
Qed.
End kept.
