(* ===== verification/Serve.v ===== *)
(** * Serve: a locker and its resource, together

    What the clients of a locker observe, from the poll of their connections to
    the messages they are sent: the composition of the loop of [Locker] with
    the resources' methods. *)
From Stdlib Require Import ZArith String List Lia.
From stdpp Require Import base list gmap numbers strings relations.
From S2P Require Import Prelude Types CStr RsrcName Msg MsgXml Vfs World LockMode.
From S2P Require Import ConnLock Resource Timestamp Rsrc Simple Conns Locker Calls.
Local Open Scope Z_scope.

(** ** Descriptors *)
Definition quiet : revents := Revents false false false false.
Definition readable : revents := Revents false true false false.
Definition hung_up : revents := Revents false false true false.

Section serve.
Context `{Glib} {D : Type} `{Resource D}.

Lemma scan_quiet k l : forall i s,
  scan_fds (replicate k quiet ++ l) i s = scan_fds (D := D) l (i + k) s.
Proof.
  induction k as [|k IH]; intros i s; cbn [replicate app].
  - by rewrite Nat.add_0_r.
  - cbn [scan_fds re_err re_in re_hup quiet]. unfold mbind at 1, M_bind at 1. cbn.
    rewrite IH. f_equal. lia.
Qed.

Lemma wp_scan_quiet i l Q s :
  wp (scan_fds (D := D) l i) Q s -> wp (scan_fds (replicate i quiet ++ l) 0) Q s.
Proof. unfold wp. by rewrite scan_quiet. Qed.

Lemma wp_call_method {A} m back (f : Res D A) Q s :
  wp f (fun r s' => Q r (LState (set_resource (s_name s') (s_data s') (l_locker s))
          (put_nworld (back (s_msg s') (s_world s')) (l_net s)) (s_deadline s')
          (l_reads s) (l_recvs s)))
    (St (lk_name (l_locker s)) (lk_data (l_locker s)) m (n_world (l_net s)) (l_deadline s)) ->
  wp (call_method m back f) Q s.
Proof. unfold wp, call_method. by destruct (f _). Qed.

Lemma wp_eq {S A} (m : M err S A) r s' (Q : err + A -> S -> Prop) s :
  m s = (r, s') -> Q r s' -> wp m Q s.
Proof. unfold wp. by intros ->. Qed.

(** The connection of a client fails or has ended: it is closed and the
    resource is cleaned. *)
Lemma wp_scan_eof i c o rc l Q s :
  cs_array (n_conns (l_net s)) !! i = Some c -> i <> 0%nat ->
  w_conns (n_world (l_net s)) !! c = Some o -> c_state o <> FLOM_CONN_STATE_REMOVE ->
  has_fd o = true -> Forall (eq true) (n_closes (l_net s)) ->
  head (l_recvs s) = Some (RecvFails rc) ->
  (forall s1,
    l_locker s1 = set_idle_periods 0 (l_locker s) ->
    l_net s1 = Net (n_conns (l_net s))
      (set_conns (<[c := closed o]> (w_conns (n_world (l_net s)))) (n_world (l_net s)))
      (tail (n_closes (l_net s))) ->
    wp (resource_clean c) (fun r s' => r = inr tt /\ Q (inr tt) s') s1) ->
  wp (scan_fds (replicate i quiet ++ readable :: l) 0) Q s.
Proof.
  intros Hi Hne Ho Hst Hfd Hcl Hr HQ. apply wp_scan_quiet.
  cbn [scan_fds re_err re_in re_hup readable]. wp_step. wp_step. wp_step.
  unfold flom_locker_loop_pollin, on_net. do 2 wp_step. unfold flom_conns_get_conn at 1. wp_step.
  rewrite Hi. wp_step. wp_step; [|done]. injection H1 as <-. do 2 wp_step.
  rewrite (proj2 (Nat.eqb_neq i 0)) by done. wp_step.
  destruct s as [k [cs w cl] dl rd rcs]. cbn in *. destruct rcs as [|x rcs]; [done|].
  injection Hr as ->. unfold flom_conn_recv, wp at 1. cbn.
  unfold drop_client, on_net. do 3 wp_step. unfold flom_conns_get_conn at 1. wp_step. cbn. rewrite Hi.
  do 2 wp_step. eapply wp_conns_close_fd; [done..|]. cbn. do 2 wp_step.
  eapply wp_mono; [|by apply HQ]. intros r s' [-> HQ']. by wp_step.
Qed.
End serve.

(** ** Theorems *)
Section theorems.
Context `{Glib}.

(** C17: refinement.  Whatever [poll], the pipe and the clients' sockets answer in
    its rounds, and however it ends, the thread of a locker (when its run is not
    undefined) makes exactly the calls of the contract of [Calls]: a message read
    from a client, or brought by the pipe, is given once to the resource when it is a
    request, for its connection, and answered when the resource accepts it; a
    connection whose reading, request or answer fails, or that poll reports in error
    or hung up, is closed and, when the close succeeds, the resource is cleaned once
    for it and for no other (a second time only when the clean after an end of file
    has failed); the resource's timeout is called when poll expires, and nothing else is.  The resource goes
    through these calls, in this order, and so through a sequence of steps of the
    relation against which the resources' invariants are proved. *)
Theorem locker_refines_resource {D} `{Resource D} c polls s :
  let '(x, s') := flom_locker_loop c polls s in
  x <> inl Ub ->
  exists s1 t r s2, starts c s s1 /\ rounds polls s1 t r s2 /\ x = thread_result r /\
    resource_run (lk_uid (l_locker s)) t (resource_of s) (resource_of s') /\
    rtc (resource_step any_message) (resource_of s) (resource_of s').
Proof.
  pose proof (thread_keeps c polls s) as Hk. unfold wp in Hk.
  destruct (flom_locker_loop c polls s) as [x s']. cbn in Hk. intros Hub.
  destruct (Hk Hub) as (s1 & t & r & s2 & Hs & Ht & Hr & Hres).
  exists s1, t, r, s2. split; [done|]. split; [done|]. split; [done|].
  pose proof Hs as (_ & (Hr1 & Hu1 & _) & _). cbn in Hr1, Hu1.
  destruct (rounds_run _ _ _ _ _ Ht) as [_ Hrun]. rewrite Hres.
  change (resource_of s1 = resource_of s) in Hr1. rewrite Hr1, Hu1 in Hrun.
  split; [done | by eapply run_steps].
Qed.

(** termination.  Whatever the inputs, the thread of a locker of any type
    of resource performs each round of its loop and its final clean-up to
    their end. *)
Theorem locker_loop_ends {D} `{Resource D} `{!Terminating D} c polls :
  (forall poll, terminates (locker_round (D := D) poll)) /\
  terminates (flom_locker_loop (D := D) c polls).
Proof.
  split; [exact locker_round_terminates | apply locker_loop_terminates].
Qed.

(** bounds.  The timeout given to [poll] for a deadline: never short of the
    deadline and at most two milliseconds late, for a deadline up to 24 days
    away in the past or the future. *)
Theorem locker_timeout_exact deadline now clock w :
  w_clock w = Some now :: clock ->
  0 <= tv_usec deadline < 1000000 -> 0 <= tv_usec now < 1000000 ->
  let remaining := (tv_sec deadline - tv_sec now) * 1000000 + (tv_usec deadline - tv_usec now) in
  Z.abs remaining <= 24 * 86400 * 1000000 ->
  exists timeout,
    flom_locker_loop_get_timeout deadline w = (inr timeout, set_clock clock w) /\
    remaining < 1000 * timeout <= remaining + 2000.
Proof.
  intros Hc Hd Hn remaining Hr. unfold flom_locker_loop_get_timeout, gettimeofday, mbind, M_bind.
  rewrite Hc. cbn. eexists. split; [done|].
  rewrite int32_id; [|unfold in_int32]; Z.to_euclidean_division_equations; lia.
Qed.

(** C32: liveness.  A client of a simple resource that holds a lock closes its
    socket, or its connection fails: in the same scan of the descriptors its connection is closed, so
    that the next clean-up of the table deletes it, its lock is released, and
    every waiting client that no remaining holder excludes is granted, in queue
    order, with one message each; nothing is sent to anybody else. *)
Theorem locker_eof_wakes i c o cl rc l (s : lstate simple) :
  let d := lk_data (l_locker s) in
  let w := n_world (l_net s) in
  cs_array (n_conns (l_net s)) !! i = Some c -> i <> 0%nat ->
  w_conns w !! c = Some o -> c_state o <> FLOM_CONN_STATE_REMOVE -> has_fd o = true ->
  Forall (eq true) (n_closes (l_net s)) -> head (l_recvs s) = Some (RecvFails rc) ->
  simple_inv d -> sends_ok w -> flom_rsrc_conn_find (holders d) c = Some cl ->
  Forall (fun x => cl_conn x <> c /\ live w (cl_conn x)) (waitings d) ->
  wp (scan_fds (replicate i quiet ++ readable :: l) 0) (fun r s' =>
    let '(gs, rest, d') :=
      simple_wake (set_holders (remove_conn c (holders d)) d) (waitings d) in
    r = inr tt /\ lk_data (l_locker s') = set_waitings rest d' /\
    n_conns (l_net s') = n_conns (l_net s) /\ removing (n_world (l_net s')) c = true /\
    w_sent (n_world (l_net s')) =
      w_sent w ++ map (fun p => (cl_conn p.1, granted_text None)) gs) s.
Proof.
  intros d w Hi Hne Ho Hst Hfd Hcl Hr Hinv Hs Hf Hl.
  eapply wp_scan_eof; [done..|]. intros s1 Hk Hn. unfold resource_clean. do 2 wp_step.
  apply wp_call_method. eapply wp_simple_clean_wake; cbn; rewrite ?Hk, ?Hn; cbn; fold d w.
  - done.
  - done.
  - exists (closed o). apply lookup_insert_eq.
  - eapply Forall_impl; [exact Hl|]. intros x [Hx (ox & Hox & Hw)]. exists ox. cbn.
    by rewrite lookup_insert_ne.
  - done.
  - intros gs rest d' s' w' t Hw Hd _ _ Hs' Ht. split; [done|]. rewrite Hw, Hd, Hs'. cbn.
    destruct Ht as (-> & _ & _ & _ & _ & _ & Hsame). split_and!; [done..| |by rewrite map_map].
    specialize (Hsame c). cbn in Hsame. rewrite lookup_insert_eq in Hsame. unfold removing. cbn.
    destruct (w_conns w' !! c) as [o'|]; [|done]. cbn in Hsame. unfold to_remove.
    apply (f_equal (fun x => c_state <$> x)) in Hsame. cbn in Hsame. by injection Hsame as ->.
Qed.
End theorems.

(** ** Concrete lockers

    Connection 9 is the pipe of the daemon, descriptor 5; the clients are 2 and
    3, and the writer 1 that leaves. *)
Definition demo_client (c : conn_ref) (m : flom_msg) : flom_conn :=
  Conn (10 + Z.pos c) FLOM_CONN_STATE_LOCKER false FLOM_MSG_STEP_INCR
    (Some "10.0.0.1/4000"%string) false (10 + Z.pos c) m.
Definition demo_clients (m : flom_msg) : gmap conn_ref flom_conn :=
  {[ 9%positive := control_conn 5; 1%positive := demo_client 1%positive m; 2%positive := demo_client 2%positive m;
     3%positive := demo_client 3%positive m ]}.
Definition demo_clock : list (option timeval) := replicate 4 (Some (Timeval 100 0)).
Definition demo_lstate {D} (d : D) (array : list conn_ref) (m : flom_msg)
    (sends : list send_result) (reads : list pipe_read) (recvs : list recv_result) : lstate D :=
  LState (Locker 7 5 0 0 0 (Some "foo"%string) d)
    (Net (Conns array AF_UNIX 0)
       (World (demo_clients m) (RamTree false None 0 [] []) [] sends [] demo_clock (Some demo_mid))
       [])
    (Timeval 99 0) reads recvs.

(** The writer leaves: both readers are granted in the same scan. *)
Definition demo_eof : lstate simple :=
  demo_lstate demo_holders [9; 2; 1; 3]%positive flom_msg_init [] []
    [RecvFails FLOM_RC_RECV_ERROR].

Lemma locker_eof_wakes_witness :
  wp (@scan_fds demo_glib simple (@simple_resource demo_glib) [quiet; quiet; readable; quiet] 0)
    (fun r s' =>
      r = inr tt /\
      lk_data (l_locker s') = Simple [demo_cl FLOM_LOCK_MODE_CR 3; demo_cl FLOM_LOCK_MODE_PR 2] [] /\
      n_conns (l_net s') = Conns [9; 2; 1; 3]%positive AF_UNIX 0 /\
      removing (n_world (l_net s')) 1%positive = true /\
      w_sent (n_world (l_net s')) =
        [(2%positive, granted_text None); (3%positive, granted_text None)]) demo_eof.
Proof.
  refine (@locker_eof_wakes demo_glib 2 1%positive (demo_client 1%positive flom_msg_init)
    (demo_cl FLOM_LOCK_MODE_EX 1) FLOM_RC_RECV_ERROR [quiet] demo_eof eq_refl _ eq_refl _ eq_refl _ eq_refl
    demo_holders_inv _ eq_refl _).
  - done.
  - done.
  - constructor.
  - constructor.
  - repeat constructor; try done; by eexists.
Defined.

(** A client arrives through the pipe and is granted; then nothing happens. *)
Definition demo_arrival : lstate simple :=
  demo_lstate (Simple [] []) [] (lock_request (demo_request FLOM_LOCK_MODE_EX 1 0)) []
    [ReadToken 1 12 1; ReadConn 2%positive] [].
Definition demo_polls : list (list Z -> Z -> poll_result) :=
  [fun _ _ => PollReady [readable]; fun _ _ => PollTimeout].
Definition demo_loop : Lm simple bool :=
  @flom_locker_loop demo_glib simple (@simple_resource demo_glib) 9%positive demo_polls.

Lemma locker_refines_resource_witness :
  resource_of (demo_loop demo_arrival).2 =
    (Some "foo"%string, Simple [demo_cl FLOM_LOCK_MODE_EX 2] []) /\
  exists s1 t r s2,
    starts 9%positive demo_arrival s1 /\
    @rounds demo_glib simple (@simple_resource demo_glib) demo_polls s1 t r s2 /\
    r = inr true /\
    @resource_run simple (@simple_resource demo_glib) 7 t (resource_of demo_arrival)
      (resource_of (demo_loop demo_arrival).2).
Proof.
  split; [vm_compute; reflexivity|].
  pose proof (@locker_refines_resource demo_glib simple (@simple_resource demo_glib) 9%positive
    demo_polls demo_arrival) as Hr.
  unfold demo_loop. destruct (flom_locker_loop 9%positive demo_polls demo_arrival) as [x s'] eqn:E.
  assert (Hx : x = inr true) by (change x with (fst (x, s')); rewrite <- E; vm_compute; reflexivity).
  rewrite Hx in Hr. destruct Hr as (s1 & t & r & s2 & Hs & Ht & Hr & Hrun & _); [discriminate|].
  exists s1, t, r, s2. split; [exact Hs|]. split; [exact Ht|]. split; [|exact Hrun].
  by destruct r as [[]|].
Defined.

(** The thread ends for a resource of any of the six types. *)
Lemma locker_loop_ends_witness :
  (forall poll, terminates (@locker_round demo_glib rsrc_data (@any_resource demo_glib demo_calendar) poll)) /\
  terminates (@flom_locker_loop demo_glib rsrc_data (@any_resource demo_glib demo_calendar)
    9%positive demo_polls).
Proof.
  exact (@locker_loop_ends demo_glib rsrc_data (@any_resource demo_glib demo_calendar)
    (@rsrc_terminating demo_glib demo_calendar) 9%positive demo_polls).
Defined.

Lemma locker_timeout_exact_witness :
  exists timeout,
    flom_locker_loop_get_timeout (Timeval 101 500) (n_world (l_net demo_arrival)) =
      (inr timeout, set_clock (tail demo_clock) (n_world (l_net demo_arrival))) /\
    1000500 < 1000 * timeout <= 1000500 + 2000.
Proof.
  refine (@locker_timeout_exact (Timeval 101 500) (Timeval 100 0) (tail demo_clock)
    (n_world (l_net demo_arrival)) eq_refl _ _ _); cbn; lia.
Defined.

(** ** What goes wrong *)

(** 25 days after the thread started, the deadline it set then, one second
    before, wraps around to 24 days in the future. *)
Example locker_timeout_wraps :
  (flom_locker_loop_get_timeout (Timeval 99 0)
     (set_clock [Some (Timeval (100 + 25 * 86400) 0)] (n_world (l_net demo_arrival)))).1 =
  inr 2134966297.
Proof. vm_compute. reflexivity. Qed.

(** The rounds of a locker of a simple resource *)
Definition demo_round (l : list revents) (s : lstate simple) : (err + bool) * lstate simple :=
  @locker_round demo_glib simple (@simple_resource demo_glib) (fun _ _ => PollReady l) s.

(** error.  A new client resets its socket before its answer is sent: the
    failure is taken for one of connection 0, so the locker closes its pipe
    and cleans the pipe's locks.  In the next round the dead client, which
    keeps the lock it was granted, has the place of the pipe in the table. *)
Theorem locker_reset_closes_pipe :
  let s0 := demo_lstate (Simple [] []) [9%positive]
              (lock_request (demo_request FLOM_LOCK_MODE_EX 1 0)) [PendingError ECONNRESET]
              [ReadToken 1 12 1; ReadConn 2%positive] [] in
  let '(r1, s1) := demo_round [readable] s0 in
  let '(r2, s2) := demo_round [quiet] s1 in
  r1 = inr true /\ removing (n_world (l_net s1)) 9%positive = true /\
  lk_read_pipe (l_locker s1) = 5 /\
  r2 = inr true /\ cs_array (n_conns (l_net s2)) = [2%positive] /\
  lk_data (l_locker s2) = Simple [demo_cl FLOM_LOCK_MODE_EX 2] [].
Proof. vm_compute. split_and!; reflexivity. Qed.
