(* ===== verification/Exclusive.v ===== *)
(** * Exclusive: mutual exclusion with no assumption on the requests

    The locker does not check the mode a client asks for
    ([src/src/flom_locker.c], [src/src/flom_resource_simple.c]).  Whatever the
    messages, as long as the lock table is not read out of its bounds, the
    holders of a simple resource are compatible: a mode that is not one of the
    six is only ever granted to a client that holds the resource alone. *)
From Stdlib Require Import ZArith String List Lia.
From stdpp Require Import base list gmap numbers strings relations.
From S2P Require Import Prelude Types CStr RsrcName Msg MsgXml Vfs World LockMode ConnLock.
From S2P Require Import Resource Timestamp Rsrc Locker Simple.
Local Open Scope Z_scope.

(** ** The invariant *)

(** [x] was granted while [y] was held. *)
Definition allowed (x y : conn_lock Z) : Prop := lock_table_at (cl_info y) (cl_info x) = Some true.
Definition simple_exclusive (d : simple) : Prop := ForallOrdPairs allowed (holders d).
Definition exclusive (d : rsrc_data) : Prop :=
  match d with
  | SimpleData d => simple_exclusive d
  | _ => True
  end.

Lemma allowed_compatible x y :
  allowed x y -> valid_mode (cl_info x) /\ valid_mode (cl_info y) /\ compatible (cl_info x) (cl_info y) = true.
Proof.
  unfold allowed. intros Ha.
  destruct (decide (valid_mode (cl_info y) /\ valid_mode (cl_info x))) as [[Hy Hx]|Hn].
  - rewrite lock_table_compatible in Ha by done. injection Ha as Ha. by rewrite compatible_sym.
  - by rewrite lock_table_none in Ha.
Qed.

Lemma can_lock_allowed x p : can_lock_loop p (cl_info x) = Some true -> Forall (allowed x) p.
Proof.
  induction p as [|y p IH]; [done|]. cbn. destruct (lock_table_at _ _) as [[]|] eqn:E; cbn; [|done..].
  intros Hp. constructor; [exact E | by apply IH].
Qed.

Lemma exclusive_push x d :
  can_lock_loop (holders d) (cl_info x) = Some true -> simple_exclusive d ->
  simple_exclusive (set_holders (x :: holders d) d).
Proof. intros Hc Hd. constructor; [by apply can_lock_allowed | exact Hd]. Qed.
Lemma exclusive_remove c d :
  simple_exclusive d -> simple_exclusive (set_holders (remove_conn c (holders d)) d).
Proof. apply ForallOrdPairs_remove_conn. Qed.

(** ** Every method keeps it *)
Section simple.
Context `{Glib}.

Lemma wp_can_lock_any lock Q s :
  (can_lock_loop (holders (s_data s)) lock = None -> Q (inl Ub) s) ->
  (forall b, can_lock_loop (holders (s_data s)) lock = Some b -> Q (inr b) s) ->
  wp (flom_resource_simple_can_lock lock) Q s.
Proof. intros Hn Hs. unfold flom_resource_simple_can_lock. do 2 wp_step. wp_step; auto. Qed.

Lemma exclusive_waitings s :
  simple_exclusive (s_data s) ->
  wp flom_resource_simple_waitings (fun _ s' => simple_exclusive (s_data s')) s.
Proof.
  intros Hs. unfold flom_resource_simple_waitings.
  apply wp_scan_waitings with (J := fun pre w s =>
    waitings (s_data s) = pre ++ w /\ simple_exclusive (s_data s));
    [by intros ??? [??] | by intros ?? [??] | | done].
  clear s Hs. intros pre cl w s [Hq Hs]. unfold simple_try. wp_step.
  apply wp_can_lock_any; [done|]. intros b Hb. wp_step. destruct b; [|by rewrite <- app_assoc].
  unfold simple_grant, push_holder. wp_step.
  wp_frame_step; cbn in Hd; rewrite Hq, delete_middle in Hd; [by rewrite Hd|].
  do 2 wp_step. wp_frame_step; cbn in *; rewrite Hd0, Hd; [|split; [done|]]; by apply exclusive_push.
Qed.

Lemma exclusive_clean uid conn s :
  simple_exclusive (s_data s) ->
  wp (flom_resource_simple_clean uid conn) (fun _ s' => simple_exclusive (s_data s')) s.
Proof.
  intros Hs. unfold flom_resource_simple_clean. do 3 wp_step. wp_step.
  - do 2 wp_step. eapply wp_mono; [|apply exclusive_waitings; by apply exclusive_remove].
    intros [e|u] s1 Hs1; [done|]. wp_frame_step; by rewrite Hd.
  - wp_step. wp_frame_step; rewrite Hd; exact Hs.
Qed.

Lemma exclusive_inmsg uid conn s :
  simple_exclusive (s_data s) ->
  wp (flom_resource_simple_inmsg uid conn) (fun _ s' => simple_exclusive (s_data s')) s.
Proof.
  intros Hs. unfold flom_resource_simple_inmsg. do 3 wp_step; [|wp_step; [|by wp_step]].
  - unfold simple_lock, push_holder. do 3 wp_step. wp_step; [|done].
    wp_step. apply wp_can_lock_any; [done|]. intros b Hb. cbn beta iota. wp_step.
    wp_frame_step; [by rewrite Hd|]. destruct b; [|wp_step].
    + wp_step. apply wp_conn_lock_any; intros; cbn; [by rewrite Hd|]. do 2 wp_step.
      wp_frame_step; rewrite Hd0; cbn; rewrite Hd; by apply exclusive_push.
    + wp_step. apply wp_conn_lock_any; intros; cbn; [by rewrite Hd|]. do 2 wp_step.
      wp_frame_step; rewrite Hd0; cbn; by rewrite Hd.
    + wp_frame_step; by rewrite Hd0, Hd.
  - unfold simple_unlock. do 3 wp_step. wp_step; [|done].
    do 4 wp_step; [by wp_step|]. wp_step. eapply wp_mono; [|by apply exclusive_clean].
    intros [e|u] s1 Hs1; [done|]. wp_frame_step; by rewrite Hd.
Qed.

#[export] Instance simple_any : ResourceInv simple any_message simple_exclusive.
Proof.
  constructor; intros.
  - intros _. constructor.
  - eapply wp_mono; [|by apply exclusive_inmsg]. auto.
  - eapply wp_mono; [|by apply exclusive_clean]. auto.
  - by apply wp_ret.
Qed.
End simple.

Section any.
Context `{Glib, Calendar}.

(** A method of the type the union holds; only simple resources promise
    something here. *)
Lemma exclusive_method {A} (f : forall D, Resource D -> Res D A) s :
  (forall s : st simple, simple_exclusive (s_data s) ->
     wp (f simple _) (fun _ s' => simple_exclusive (s_data s')) s) ->
  exclusive (s_data s) -> wp (method f) (fun _ s' => exclusive (s_data s')) s.
Proof.
  intros Hf Hs. apply wp_method. destruct (s_data s) as [|d|d|d|d|d|d] eqn:E; [done| |done..].
  by apply Hf.
Qed.

#[export] Instance exclusive_any : ResourceInv rsrc_data any_message exclusive.
Proof.
  constructor.
  - intros name s. cbn [res_init any_resource]. unfold flom_resource_init. do 2 wp_step; [by wp_step|]. do 2 wp_step.
    eapply wp_mono; [|apply exclusive_method; [intros s0 _|by destruct (flom_rsrc_get_type name); try constructor]].
    + auto.
    + cbn. unfold flom_resource_simple_init. do 3 wp_step. constructor.
  - intros uid conn s _ Hs. eapply wp_mono; [|apply exclusive_method; [apply exclusive_inmsg|exact Hs]]. auto.
  - intros uid conn s Hs. eapply wp_mono; [|apply exclusive_method; [apply exclusive_clean|exact Hs]]. auto.
  - intros uid s Hs. eapply wp_mono; [|apply exclusive_method; [|exact Hs]]; [auto|]. intros s0 Hs0. by apply wp_ret.
Qed.

Lemma steps_exclusive x y :
  rtc (resource_step any_message) x y -> exclusive x.2 -> exclusive y.2.
Proof.
  induction 1 as [x|x y z Hs _ IH]; [done|]. intros Hx. apply IH.
  eapply resource_step_wp; [exact inmsg_inv | exact clean_inv | exact timeout_inv | exact Hs | exact Hx].
Qed.
End any.
