(* ===== verification/Daemon.v ===== *)
(** * Daemon: the thread that accepts the clients

    The accept loop of [src/src/flom_daemon.c], from a client's first bytes to
    the locker that serves its resource, with the array of lockers of
    [src/src/flom_locker.c] and the management messages of
    [src/src/flom_daemon_mngmnt.c].  The lockers are the threads of [Locker];
    a token and a connection pointer written to a locker's pipe are what it
    reads there.  What the system answers is an input, as in the other files;
    listening, TLS set-up and the threads themselves belong to the system. *)
From Stdlib Require Import ZArith String List Lia.
From stdpp Require Import base list gmap numbers strings.
From S2P Require Import Prelude Types CStr RsrcName Msg MsgXml Vfs World.
From S2P Require Import ConnLock Resource Timestamp Rsrc Conns Locker.
Local Open Scope string_scope.
Local Open Scope Z_scope.

(** ** Data *)
Definition FLOM_SHUTDOWN_QUIESCE_GRACE_TIME : Z := 100.
Definition FLOM_INADDR_ANY_STRING : string := "0.0.0.0".
Definition FLOM_INADDR6_ANY_STRING : string := "::".

(** What the loop asks of the configuration: [cf_tls] when the certificate,
    the key and the CA certificate are all set.  It is the configuration of the
    process: a handle, which has its own, never starts a daemon. *)
Record daemon_config : Type := Daemon_config {
  cf_lifespan : Z;
  cf_mount_point_vfs : bool;
  cf_tls : bool;
  cf_tls_check_peer_id : bool;
  cf_unicast_address : option string;
  cf_unicast_port : Z
}.

(** [flom_config_set_lifespan(NULL, x)] *)
Definition set_global_lifespan (x : Z) (cf : daemon_config) : daemon_config :=
  Daemon_config x (cf_mount_point_vfs cf) (cf_tls cf) (cf_tls_check_peer_id cf)
    (cf_unicast_address cf) (cf_unicast_port cf).

(** [struct flom_locker_s] as the daemon sees it: the part of the thread, its
    own end of the pipe, its sequence, and what it has written *)
Record dlocker : Type := DLocker {
  dl_locker : locker rsrc_data;
  dl_write_pipe : Z;
  dl_write_sequence : Z;
  dl_pipe : list pipe_read
}.

Definition set_write_pipe (x : Z) (k : dlocker) : dlocker :=
  DLocker (dl_locker k) x (dl_write_sequence k) (dl_pipe k).
Definition set_write_sequence (x : Z) (k : dlocker) : dlocker :=
  DLocker (dl_locker k) (dl_write_pipe k) x (dl_pipe k).
Definition push_pipe (x : pipe_read) (k : dlocker) : dlocker :=
  DLocker (dl_locker k) (dl_write_pipe k) (dl_write_sequence k) (dl_pipe k ++ [x]).

(** [accept] and what is then called for the new connection: the memory it is
    given, the reason codes of [flom_conn_set_keepalive], [flom_conn_init] and
    [flom_accept_loop_pollin_tls], and its peer's name *)
Inductive accept_result : Type :=
| AcceptFails
| Accepted (fd : Z) (c : conn_ref) (keepalive init tls : Z) (peer : option string).

(** The state of the daemon: its connections and the world, the lockers, the
    configuration, the datagrams sent; the inputs to come are the calls that
    only succeed or fail ([true] is success), the new pipes, the accepted
    connections and the bytes received.  [d_dgram] is the listener of
    datagrams, when there is one. *)
Record daemon : Type := DState {
  d_net : net;
  d_lockers : list dlocker;
  d_config : daemon_config;
  d_sent : list (Z * string);
  d_calls : list bool;
  d_pipes : list (option (Z * Z));
  d_accepts : list accept_result;
  d_recvs : list recv_result;
  d_dgram : option conn_ref
}.

Definition put_dnet (x : net) (s : daemon) : daemon :=
  DState x (d_lockers s) (d_config s) (d_sent s) (d_calls s) (d_pipes s) (d_accepts s)
    (d_recvs s) (d_dgram s).
Definition put_lockers (x : list dlocker) (s : daemon) : daemon :=
  DState (d_net s) x (d_config s) (d_sent s) (d_calls s) (d_pipes s) (d_accepts s)
    (d_recvs s) (d_dgram s).
Definition put_config (x : daemon_config) (s : daemon) : daemon :=
  DState (d_net s) (d_lockers s) x (d_sent s) (d_calls s) (d_pipes s) (d_accepts s)
    (d_recvs s) (d_dgram s).
Definition put_sent (x : list (Z * string)) (s : daemon) : daemon :=
  DState (d_net s) (d_lockers s) (d_config s) x (d_calls s) (d_pipes s) (d_accepts s)
    (d_recvs s) (d_dgram s).

Definition Dm (A : Type) : Type := M err daemon A.
Definition on_dnet {A} (m : Cm A) : Dm A := zoom d_net put_dnet m.
Definition on_dworld {A} (m : Wm A) : Dm A := on_dnet (on_nworld m).

(** ** The inputs *)
Definition sys_call : Dm bool := fun s =>
  match d_calls s with
  | [] => (inr true, s)
  | b :: l => (inr b, DState (d_net s) (d_lockers s) (d_config s) (d_sent s) l (d_pipes s)
                        (d_accepts s) (d_recvs s) (d_dgram s))
  end.
Definition sys_pipe : Dm (option (Z * Z)) := fun s =>
  match d_pipes s with
  | [] => (inr None, s)
  | p :: l => (inr p, DState (d_net s) (d_lockers s) (d_config s) (d_sent s) (d_calls s) l
                        (d_accepts s) (d_recvs s) (d_dgram s))
  end.
Definition sys_accept : Dm accept_result := fun s =>
  match d_accepts s with
  | [] => (inr AcceptFails, s)
  | a :: l => (inr a, DState (d_net s) (d_lockers s) (d_config s) (d_sent s) (d_calls s)
                        (d_pipes s) l (d_recvs s) (d_dgram s))
  end.
Definition sys_recv : Dm recv_result := fun s =>
  match d_recvs s with
  | [] => (inr (RecvFails FLOM_RC_RECV_ERROR), s)
  | r :: l => (inr r, DState (d_net s) (d_lockers s) (d_config s) (d_sent s) (d_calls s)
                        (d_pipes s) (d_accepts s) l (d_dgram s))
  end.

(** ** The array of lockers *)
Definition flom_locker_array_get (i : nat) : Dm (option dlocker) :=
  gets (fun s => d_lockers s !! i).
Definition flom_locker_array_count : Dm nat := gets (fun s => length (d_lockers s)).

Definition upd_dlocker (i : nat) (f : dlocker -> dlocker) : Dm unit :=
  modify (fun s => put_lockers (alter f i (d_lockers s)) s).

(** The type of a resource is the one of its data. *)
Definition flom_locker_array_add (k : dlocker) : Dm unit :=
  _ ← modify (fun s => put_lockers (d_lockers s ++ [k]) s);
  on_dworld (on_vfs (flom_vfs_ram_tree_add_locker (lk_uid (dl_locker k))
    (default "" (lk_name (dl_locker k)))
    (flom_rsrc_get_type_human_readable (flom_resource_get_type (lk_data (dl_locker k)))))).

(** [flom_locker_destroy] closes the ends of the pipe that are open; what
    [close] answers is not looked at.  The resource is freed with the locker,
    which is no longer in the array. *)
Definition flom_locker_destroy (k : dlocker) : Dm unit :=
  _ ← when (negb (dl_write_pipe k =? FLOM_NULL_FD)) (_ ← on_dnet close_fd; mret tt);
  when (negb (lk_read_pipe (dl_locker k) =? FLOM_NULL_FD)) (_ ← on_dnet close_fd; mret tt).

Definition flom_locker_array_del (i : nat) : Dm unit :=
  ok ← flom_locker_array_get i;
  k ← of_option Ub ok;
  _ ← on_dworld (on_vfs (flom_vfs_ram_tree_del_locker (lk_uid (dl_locker k))));
  _ ← modify (fun s => put_lockers (delete i (d_lockers s)) s);
  flom_locker_destroy k.

Section daemon.
Context `{Glib, Calendar}.

(** The virtual method of the resource of a locker; it only reads it. *)
Definition compare_locker (k : dlocker) (name : option string) : Dm bool := fun s =>
  let '(r, _) := res_compare_name name
    (St (lk_name (dl_locker k)) (lk_data (dl_locker k)) flom_msg_init (n_world (d_net s))
        (Timeval 0 0)) in
  (r, s).

(** ** [flom_accept_loop_reply] *)
Definition flom_accept_loop_reply (c : conn_ref) (rc : Z) : Wm unit :=
  w ← gets (fun w : world => w);
  let '(r, msg) := flom_msg_build_answer (w_machine_id w) FLOM_MSG_VERB_LOCK
                     (2 * FLOM_MSG_STEP_INCR) rc None flom_msg_init in
  _ ← of_result r;
  buf ← of_result (flom_msg_serialize FLOM_NETWORK_BUFFER_SIZE msg);
  _ ← flom_conn_send c buf;
  _ ← flom_conn_set_last_step c (msg_step msg);
  of_result (flom_msg_free msg).1.

(** ** [flom_accept_loop_transfer_conn]

    [++locker->write_sequence] on an [int]; [li] is the locker. *)
Definition flom_accept_loop_transfer_conn (id li : nat) (c : conn_ref) : Dm unit :=
  ok ← flom_locker_array_get li;
  k ← of_option Ub ok;
  domain ← on_dnet (gets (fun n => cs_domain (n_conns n)));
  oc ← on_dnet (flom_conns_get_conn id);
  fd ← match oc with
       | Some x => o ← on_dworld (deref x); mret (c_fd o)
       | None => mret FLOM_NULL_FD
       end;
  _ ← when (2147483647 <=? dl_write_sequence k) (throw Ub);
  let sequence := dl_write_sequence k + 1 in
  _ ← upd_dlocker li (set_write_sequence sequence);
  ok ← sys_call;
  _ ← when (negb ok) (throw (Rc FLOM_RC_WRITE_ERROR));
  _ ← upd_dlocker li (push_pipe (ReadToken domain fd sequence));
  _ ← on_dnet (flom_conns_trns_fd id);
  ok ← sys_call;
  _ ← when (negb ok) (throw (Rc FLOM_RC_WRITE_ERROR));
  upd_dlocker li (push_pipe (ReadConn c)).

(** ** [flom_accept_loop_start_locker]: the index of the new locker *)
Definition flom_accept_loop_start_locker (b : body_lock_8) (flrt : flom_rsrc_type) (uid : Z)
    : Dm nat :=
  name ← of_option Ub (l8_name b);
  w ← on_dnet (gets n_world);
  let '(r, s') := flom_resource_init flrt name (St None NoData flom_msg_init w (Timeval 0 0)) in
  _ ← on_dnet (modify (put_nworld (s_world s')));
  _ ← match r with
      | inl (Rc _) => throw (Rc FLOM_RC_RESOURCE_INIT_ERROR)
      | inl e => throw e
      | inr _ => mret tt
      end;
  op ← sys_pipe;
  p ← of_option (Rc FLOM_RC_PIPE_ERROR) op;
  thread ← sys_call;
  _ ← when (negb thread) (throw (Rc FLOM_RC_G_THREAD_NEW_ERROR));
  n ← flom_locker_array_count;
  _ ← flom_locker_array_add
        (DLocker (Locker uid p.1 0 0 (l8_lifespan b) (s_name s') (s_data s')) p.2 0 []);
  mret n.

(** ** [flom_accept_loop_transfer] *)

(** Is there a locker already active?  One that is terminating is skipped. *)
Definition is_live (k : dlocker) : bool :=
  negb (dl_write_pipe k =? FLOM_NULL_FD) && negb (lk_read_pipe (dl_locker k) =? FLOM_NULL_FD).

Fixpoint find_locker (l : list dlocker) (i : nat) (name : option string) : Dm (option nat) :=
  match l with
  | [] => mret None
  | k :: l =>
      if negb (is_live k) then find_locker l (S i) name
      else
        b ← compare_locker k name;
        if (b : bool) then mret (Some i) else find_locker l (S i) name
  end.

(** The clients that wait for the resource of the new locker [li]; every round
    advances [i] or shortens the table. *)
Fixpoint scan_incubator (fuel i li : nat) : Dm unit :=
  match fuel with
  | O => throw NoFuel
  | S fuel =>
      n ← on_dnet flom_conns_get_used;
      if (n <=? i)%nat then mret tt
      else
        oc ← on_dnet (flom_conns_get_conn i);
        c ← of_option (Rc FLOM_RC_OBJ_CORRUPTED) oc;
        o ← on_dworld (deref c);
        if negb (c_wait o) then scan_incubator fuel (S i) li
        else
          ok ← flom_locker_array_get li;
          k ← of_option Ub ok;
          b ← of_option Ub (get_lock_8 (m_body (c_msg o)));
          same ← compare_locker k (l8_name b);
          if (same : bool) then
            _ ← flom_accept_loop_transfer_conn i li c;
            _ ← on_dworld (on_vfs (flom_vfs_ram_tree_del_conn (c_uid o) true));
            scan_incubator fuel i li
          else scan_incubator fuel (S i) li
  end.

(** A client that cannot be served is answered; the [shutdown] of its socket
    is only traced when it fails. *)
Definition refuse (c : conn_ref) (rc : Z) : Dm unit :=
  _ ← on_dworld (flom_accept_loop_reply c rc);
  _ ← sys_call;
  mret tt.

Definition put_into_incubator (c : conn_ref) (name : string) (flrt : flom_rsrc_type) : Dm unit :=
  _ ← on_dworld (flom_accept_loop_reply c FLOM_RC_LOCK_WAIT_RESOURCE);
  _ ← on_dworld (store c (set_wait true));
  o ← on_dworld (deref c);
  on_dworld (on_vfs (flom_vfs_ram_tree_add_incubator_conn (c_uid o)
    (default "" (flom_tcp_retrieve_peer_name o)) name (flom_rsrc_get_type_human_readable flrt))).

(** A new locker, its client, and the clients waiting for it; a resource that
    cannot be initialized only has its client's socket shut down. *)
Definition transfer_to_new (id : nat) (c : conn_ref) (b : body_lock_8) (flrt : flom_rsrc_type)
    : Dm unit :=
  uid ← on_dnet flom_conns_get_new_uid;
  r ← attempt (flom_accept_loop_start_locker b flrt uid);
  match r with
  | inl rc => if rc =? FLOM_RC_RESOURCE_INIT_ERROR then _ ← sys_call; mret tt else throw (Rc rc)
  | inr li =>
      _ ← flom_accept_loop_transfer_conn id li c;
      n ← on_dnet flom_conns_get_used;
      scan_incubator (S n) 1 li
  end.

Definition flom_accept_loop_transfer (id : nat) : Dm unit :=
  oc ← on_dnet (flom_conns_get_conn id);
  c ← of_option (Rc FLOM_RC_OBJ_CORRUPTED) oc;
  o ← on_dworld (deref c);
  let msg := c_msg o in
  _ ← when (negb ((msg_verb msg =? FLOM_MSG_VERB_LOCK) && (msg_step msg =? FLOM_MSG_STEP_INCR)))
        (throw (Rc FLOM_RC_PROTOCOL_ERROR));
  b ← of_option Ub (get_lock_8 (m_body msg));
  name ← of_option Ub (l8_name b);
  let flrt := flom_rsrc_get_type name in
  if bool_decide (flrt = FLOM_RSRC_TYPE_NULL) then refuse c FLOM_RC_INVALID_RESOURCE_NAME
  else
    lockers ← gets d_lockers;
    found ← find_locker lockers 0 (Some name);
    match found with
    | Some li => flom_accept_loop_transfer_conn id li c
    | None =>
        if l8_create b =? 0 then
          if l8_wait b =? 0 then refuse c FLOM_RC_LOCK_CANT_WAIT
          else put_into_incubator c name flrt
        else transfer_to_new id c b flrt
    end.

(** ** [flom_accept_loop_chklockers]: [true] is [*again] *)
Definition idle (k : dlocker) : bool :=
  (dl_write_sequence k =? lk_read_sequence (dl_locker k)) &&
  (lk_idle_periods (dl_locker k) >? FLOM_LOCKER_MAX_IDLE_PERIODS).

Fixpoint chklockers (n i : nat) : Dm bool :=
  match n with
  | O => mret false
  | S n =>
      ok ← flom_locker_array_get i;
      k ← of_option (Rc FLOM_RC_NULL_OBJECT) ok;
      if idle k then
        if negb (dl_write_pipe k =? FLOM_NULL_FD) then
          ok ← on_dnet close_fd;
          _ ← when (negb ok) (throw (Rc FLOM_RC_CLOSE_ERROR));
          _ ← upd_dlocker i (set_write_pipe FLOM_NULL_FD);
          chklockers n (S i)
        else if lk_read_pipe (dl_locker k) =? FLOM_NULL_FD then
          _ ← flom_locker_array_del i;
          mret true
        else chklockers n (S i)
      else chklockers n (S i)
  end.

Definition flom_accept_loop_chklockers : Dm bool :=
  n ← flom_locker_array_count;
  chklockers n 0.

(** ** Management messages: [true] when the process exits *)
Definition flom_daemon_mngmnt_shutdown (immediate : Z) : Dm bool :=
  if negb (immediate =? 0) then mret true
  else
    _ ← modify (fun s => put_config (set_global_lifespan FLOM_SHUTDOWN_QUIESCE_GRACE_TIME (d_config s)) s);
    mret false.

Definition flom_daemon_mngmnt (msg : flom_msg) : Dm bool :=
  _ ← when (negb (msg_verb msg =? FLOM_MSG_VERB_MNGMNT)) (throw (Rc FLOM_RC_INTERNAL_ERROR));
  '(_, action, immediate) ← of_option Ub (get_mngmnt_8 (m_body msg));
  match action with
  | FLOM_MSG_MNGMNT_ACTION_SHUTDOWN => flom_daemon_mngmnt_shutdown immediate
  | _ => throw (Rc FLOM_RC_INVALID_OPTION)
  end.

(** ** [flom_accept_discover_reply]: one datagram on the descriptor [fd] *)
Definition discover_answer (cf : daemon_config) : flom_msg :=
  let address := match cf_unicast_address cf with
                 | Some a => if String.eqb FLOM_INADDR_ANY_STRING a ||
                                String.eqb FLOM_INADDR6_ANY_STRING a then None else Some a
                 | None => None
                 end in
  Msg FLOM_MSG_STATE_INITIALIZED
    (Header FLOM_MSG_LEVEL FLOM_MSG_VERB_DISCOVER (2 * FLOM_MSG_STEP_INCR))
    (body_discover_16 address (uint16 (cf_unicast_port cf))).

Definition flom_accept_discover_reply (fd : Z) : Dm unit :=
  cf ← gets d_config;
  buffer ← of_result (flom_msg_serialize FLOM_NETWORK_BUFFER_SIZE (discover_answer cf));
  ok ← sys_call;
  _ ← when (negb ok) (throw (Rc FLOM_RC_SENDTO_ERROR));
  modify (fun s => put_sent (d_sent s ++ [(fd, buffer)]) s).

(** ** [flom_accept_loop_pollin]

    A new client: the connection object is deleted when one of the calls
    fails; a failed TLS negotiation only closes it. *)
Definition accept_connection (c : conn_ref) (init : Z) (o : flom_conn) (tls : Z) : Dm unit :=
  _ ← on_dworld (modify (fun w => set_conns (<[c := o]> (w_conns w)) w));
  _ ← when (negb (init =? FLOM_RC_OK)) (throw (Rc init));
  when (negb (tls =? FLOM_RC_OK)) (on_dnet (flom_conn_terminate c)).

Definition accept_client : Dm unit :=
  a ← sys_accept;
  match a with
  | AcceptFails => throw (Rc FLOM_RC_ACCEPT_ERROR)
  | Accepted fd c keepalive init tls peer =>
      domain ← on_dnet (gets (fun n => cs_domain (n_conns n)));
      _ ← when (domain =? AF_INET) (
            ok ← sys_call;
            _ ← when (negb ok) (throw (Rc FLOM_RC_SETSOCKOPT_ERROR));
            when (negb (keepalive =? FLOM_RC_OK)) (throw (Rc keepalive)));
      ok ← on_dworld g_try_malloc;
      _ ← when (negb ok) (throw Ub);
      ok ← on_dworld g_try_malloc;
      _ ← when (negb ok) (throw Ub);
      uid ← on_dnet flom_conns_get_new_uid;
      cf ← gets d_config;
      let o := Conn uid FLOM_CONN_STATE_DAEMON false 0 peer (cf_tls cf) fd flom_msg_init in
      _ ← on_error (accept_connection c init o tls)
            (fun s => put_dnet (put_nworld
               (set_conns (delete c (w_conns (n_world (d_net s)))) (n_world (d_net s))) (d_net s)) s);
      on_dnet (flom_conns_add_conn c)
  end.

Inductive pollin_result : Type :=
| Stays
| Moved
| Exits.

(** A message that has been received completely *)
Definition check_peer (id : nat) (c : conn_ref) (msg : flom_msg) : Dm unit :=
  _ ← of_option Ub (flom_msg_get_peerid msg);
  cf ← gets d_config;
  when (negb (msg_verb msg =? FLOM_MSG_VERB_DISCOVER) && cf_tls_check_peer_id cf) (
    o ← on_dworld (deref c);
    _ ← when (negb (c_tls o)) (throw (Rc FLOM_RC_NO_TLS_CONNECTION));
    _ ← of_option (Rc FLOM_RC_NULL_OBJECT) (flom_tcp_retrieve_peer_name o);
    ok ← sys_call;
    when (negb ok) (
      _ ← on_dnet (flom_conns_close_fd id);
      throw (Rc FLOM_RC_CONNECTION_CLOSED))).

Definition handle_message (id : nat) (c : conn_ref) (msg : flom_msg) : Dm pollin_result :=
  _ ← when (negb (flom_msg_check_protocol msg true)) (throw (Rc FLOM_RC_PROTOCOL_ERROR));
  _ ← check_peer id c msg;
  if msg_verb msg =? FLOM_MSG_VERB_DISCOVER then
    ok ← sys_call;
    _ ← when (negb ok) (throw (Rc FLOM_RC_GETNAMEINFO_ERROR));
    o ← on_dworld (deref c);
    _ ← flom_accept_discover_reply (c_fd o);
    mret Stays
  else if msg_verb msg =? FLOM_MSG_VERB_MNGMNT then
    exits ← flom_daemon_mngmnt msg;
    mret (if (exits : bool) then Exits else Stays)
  else
    _ ← flom_accept_loop_transfer id;
    mret Moved.

Definition receive_message (id : nat) (c : conn_ref) (events : list markup_event)
    (well_formed : bool) : Dm pollin_result :=
  o ← on_dworld (deref c);
  m ← of_option Ub (markup_callbacks events (c_msg o));
  _ ← on_dworld (store c (set_conn_msg m));
  _ ← when (negb well_formed) (throw (Rc FLOM_RC_G_MARKUP_PARSE_CONTEXT_PARSE_ERROR));
  _ ← on_dworld (flom_conn_set_last_step c (msg_step m));
  _ ← when (bool_decide (m_state m = FLOM_MSG_STATE_INVALID)) (on_dnet (flom_conns_close_fd id));
  if bool_decide (m_state m = FLOM_MSG_STATE_READY) then handle_message id c m
  else mret Stays.

Definition flom_accept_loop_pollin (id : nat) : Dm pollin_result :=
  oc ← on_dnet (flom_conns_get_conn id);
  c ← of_option (Rc FLOM_RC_NULL_OBJECT) oc;
  if (id =? 0)%nat then _ ← accept_client; mret Stays
  else
    r ← sys_recv;
    match r with
    | RecvFails _ | RecvClosed => throw (Rc FLOM_RC_CONNECTION_CLOSED)
    | RecvData events well_formed => receive_message id c events well_formed
    end.

(** ** [flom_accept_loop] *)

(** The scan of the descriptors: [true] when the process exits.  An error of
    [flom_accept_loop_pollin] that is not a closed connection ends the loop. *)
Fixpoint scan_clients (l : list revents) (i : nat) : Dm bool :=
  match l with
  | [] => mret false
  | r :: l =>
      if re_hup r && negb (i =? 0)%nat then
        _ ← on_dnet (flom_conns_close_fd i);
        scan_clients l (S i)
      else if re_in r then
        x ← attempt (flom_accept_loop_pollin i);
        match x with
        | inl rc =>
            if rc =? FLOM_RC_CONNECTION_CLOSED then
              _ ← on_dnet (flom_conns_close_fd i);
              scan_clients l (S i)
            else throw (Rc rc)
        | inr Moved => mret false
        | inr Exits => mret true
        | inr Stays =>
            if re_err r || re_hup r || re_nval r then throw (Rc FLOM_RC_NETWORK_EVENT_ERROR)
            else scan_clients l (S i)
        end
      else if re_err r || re_hup r || re_nval r then throw (Rc FLOM_RC_NETWORK_EVENT_ERROR)
      else scan_clients l (S i)
  end.

Definition accept_timeout (lifespan : Z) (again : bool) : Z :=
  if again then 0 else if 3 <? lifespan then Z.quot lifespan 3 else lifespan.

(** Only the listeners are left. *)
Definition only_listeners : Dm bool :=
  l ← on_dnet (gets (fun n => cs_array (n_conns n)));
  dgram ← gets d_dgram;
  mret ((length l =? 1)%nat || ((length l =? 2)%nat && bool_decide (l !! 1%nat = dgram))).

(** One round; [again] is [chklockers_again], and the result its new value, or
    [None] when the loop is left. *)
Definition accept_round (again : bool) (poll : list Z -> Z -> poll_result) : Dm (option bool) :=
  cf ← gets d_config;
  let timeout := accept_timeout (cf_lifespan cf) again in
  _ ← on_dnet flom_conns_clean;
  ofds ← on_dnet flom_conns_get_fds;
  fds ← of_option (Rc FLOM_RC_NULL_OBJECT) ofds;
  _ ← on_dnet flom_conns_set_events;
  match poll fds timeout with
  | PollFails => throw (Rc FLOM_RC_POLL_ERROR)
  | PollTimeout =>
      n ← flom_locker_array_count;
      if (n =? 0)%nat && (0 <? timeout) then
        over ← only_listeners;
        mret (if (over : bool) then None else Some false)
      else if (0 <? n)%nat then again ← flom_accept_loop_chklockers; mret (Some again)
      else mret (Some false)
  | PollReady l =>
      exits ← scan_clients l 0;
      if (exits : bool) then mret None
      else
        n ← flom_locker_array_count;
        if (0 <? n)%nat then again ← flom_accept_loop_chklockers; mret (Some again)
        else mret (Some again)
  end.

(** The start of the loop: no lockers, and the tree of the virtual file
    system, active only with a mount point *)
Definition flom_accept_loop_start : Dm unit := fun s =>
  let activate := cf_mount_point_vfs (d_config s) in
  let w := n_world (d_net s) in
  let '(r, t) := flom_vfs_ram_tree_init activate (w_vfs w) in
  let s := put_lockers [] (put_dnet (put_nworld (set_vfs t w) (d_net s)) s) in
  match r with
  | inr _ => if activate then
               (thread ← sys_call; when (negb thread) (throw (Rc FLOM_RC_G_THREAD_NEW_ERROR))) s
             else throw (Rc FLOM_RC_OK) s
  | inl rc => if negb activate && (rc =? FLOM_RC_INACTIVE_FEATURE) then (inr tt, s)
              else throw (Rc rc) s
  end.
End daemon.
