(* ===== verification/Dispatch.v ===== *)
(** * Dispatch: what the accept loop guarantees

    Theorems about [Daemon]: whatever the clients send and however the system
    answers, no two lockers the daemon gives clients to are for the same
    resource; which locker a request is given to, and what happens when there
    is none; the accept loop does not loop; what ends it. *)
From Stdlib Require Import ZArith String List Lia.
From stdpp Require Import base list gmap numbers strings relations.
From S2P Require Import Prelude Types CStr RsrcName Msg MsgXml Vfs World.
From S2P Require Import LockMode ConnLock Resource Simple Timestamp Rsrc Route Conns Locker Exclusive Daemon.
Local Open Scope Z_scope.

(** ** Lockers and their keys *)
Definition dl_resource (k : dlocker) : option string * rsrc_data :=
  (lk_name (dl_locker k), lk_data (dl_locker k)).
Definition dl_route (k : dlocker) : route := resource_route (dl_resource k).

Definition live_routes (l : list dlocker) : list route :=
  map dl_route (List.filter is_live l).

(** The resource of a locker is initialized, and its holders exclude nobody they
    should not be held with. *)
Definition sound (k : dlocker) : Prop :=
  routable (dl_resource k) /\ exclusive (lk_data (dl_locker k)).

(** Every locker is sound; the live ones have different keys. *)
Definition lockers_ok (l : list dlocker) : Prop :=
  Forall sound l /\ NoDup (live_routes l).

(** A locker that moved on: the same names, sound if it was, and dead once dead *)
Definition moved_on (k k' : dlocker) : Prop :=
  same_route (dl_resource k) (dl_resource k') /\ (is_live k' = true -> is_live k = true) /\
  (exclusive (lk_data (dl_locker k)) -> exclusive (lk_data (dl_locker k'))).

Lemma moved_on_refl k : moved_on k k.
Proof. by split_and!. Qed.
Lemma sound_routable l : Forall sound l -> Forall (fun k => routable (dl_resource k)) l.
Proof. intros Hl. eapply Forall_impl; [exact Hl|]. by intros k []. Qed.

Lemma live_routes_app l1 l2 : live_routes (l1 ++ l2) = live_routes l1 ++ live_routes l2.
Proof. unfold live_routes. by rewrite List.filter_app, map_app. Qed.

Lemma live_routes_cons k l :
  live_routes (k :: l) = (if is_live k then [dl_route k] else []) ++ live_routes l.
Proof. unfold live_routes. cbn. by destruct (is_live k). Qed.

Lemma moved_on_routes l l' : Forall2 moved_on l l' -> sublist (live_routes l') (live_routes l).
Proof.
  induction 1 as [|k k' l l' [[_ Hr] [Hl _]] _ IH]; [done|]. rewrite !live_routes_cons.
  apply sublist_app; [|done]. unfold dl_route. rewrite Hr.
  destruct (is_live k'); [by rewrite Hl|apply sublist_nil_l].
Qed.

Lemma lockers_ok_moved l l' : Forall2 moved_on l l' -> lockers_ok l -> lockers_ok l'.
Proof.
  intros Hm [Ho Hn]. split.
  - clear Hn. induction Hm as [|k k' l l' [[Hr _] [_ He]] _ IH]; [done|].
    apply Forall_cons in Ho as [[Hk Hx] Hl]. constructor; [split|]; auto.
  - by eapply sublist_NoDup, moved_on_routes.
Qed.

Lemma lockers_ok_alter i f l :
  (forall k, moved_on k (f k)) -> lockers_ok l -> lockers_ok (alter f i l).
Proof.
  intros Hf. apply lockers_ok_moved. revert i.
  induction l as [|k l IH]; intros [|i]; constructor; try apply moved_on_refl; auto.
  clear IH. induction l; constructor; auto using moved_on_refl.
Qed.

Lemma lockers_ok_delete i l : lockers_ok l -> lockers_ok (delete i l).
Proof.
  intros [Ho Hn]. split; [by apply Forall_delete|].
  eapply sublist_NoDup; [exact Hn|]. clear. revert i.
  induction l as [|k l IH]; intros [|i]; [done|done|..].
  - rewrite live_routes_cons. by apply sublist_inserts_l.
  - change (delete (S i) (k :: l)) with (k :: delete i l). rewrite !live_routes_cons.
    by apply sublist_app.
Qed.

Lemma lockers_ok_add k n l :
  lockers_ok l -> sound k -> matches (dl_route k) n = true ->
  (forall k', k' ∈ l -> is_live k' = true -> matches (dl_route k') n = false) ->
  lockers_ok (l ++ [k]).
Proof.
  intros [Ho Hn] Hk Hm Hl. split; [by apply Forall_app; auto|].
  rewrite live_routes_app, live_routes_cons.
  destruct (is_live k); cbn; [|by rewrite app_nil_r]. apply NoDup_app. split; [done|].
  split; [|apply NoDup_singleton]. intros rt Hin ->%list_elem_of_singleton.
  apply list_elem_of_In, in_map_iff in Hin as (k' & E & [Hin Hlv]%List.filter_In).
  specialize (Hl k' ltac:(by apply list_elem_of_In) Hlv). congruence.
Qed.

(** ** Programs of the accept loop that keep the lockers in order *)
Definition orderly {A} (m : Dm A) : Prop := forall s,
  lockers_ok (d_lockers s) -> lockers_ok (d_lockers (m s).2).

Lemma orderly_keeps {A} (m : Dm A) : Keeps d_lockers m -> orderly m.
Proof. intros Hm s Hs. unfold Keeps in Hm. by rewrite Hm. Qed.
Lemma orderly_bind {A B} (m : Dm A) (k : A -> Dm B) :
  orderly m -> (forall a, orderly (k a)) -> orderly (m ≫= k).
Proof.
  intros Hm Hk s Hs. specialize (Hm s Hs). unfold mbind, M_bind.
  destruct (m s) as [[e|a] s']; [done | by apply Hk].
Qed.
Lemma orderly_when b (m : Dm unit) : orderly m -> orderly (when b m).
Proof. destruct b; [done|]. by intros _ s. Qed.
Lemma orderly_attempt {A} (m : Dm A) : orderly m -> orderly (attempt m).
Proof. intros Hm s Hs. specialize (Hm s Hs). unfold attempt. by destruct (m s) as [[[]|a] s']. Qed.
Lemma orderly_upd i f : (forall k, moved_on k (f k)) -> orderly (upd_dlocker i f).
Proof. intros Hf s Hs. by apply lockers_ok_alter. Qed.
Lemma orderly_on_error {A} (m : Dm A) f :
  orderly m -> (forall s, d_lockers (f s) = d_lockers s) -> orderly (on_error m f).
Proof.
  intros Hm Hf s Hs. specialize (Hm s Hs). unfold on_error.
  destruct (m s) as [[e|a] s']; [|done]. cbn. by rewrite Hf.
Qed.

#[global] Instance keeps_on_dnet {A} (m : Cm A) : Keeps d_lockers (on_dnet m).
Proof. intros s. unfold on_dnet, zoom. by destruct (m _). Qed.
#[global] Instance keeps_on_dworld {A} (m : Wm A) : Keeps d_lockers (on_dworld m).
Proof. apply keeps_on_dnet. Qed.
#[global] Instance keeps_sys_call : Keeps d_lockers sys_call.
Proof. intros s. unfold sys_call. by destruct (d_calls s). Qed.
#[global] Instance keeps_sys_pipe : Keeps d_lockers sys_pipe.
Proof. intros s. unfold sys_pipe. by destruct (d_pipes s). Qed.
#[global] Instance keeps_sys_accept : Keeps d_lockers sys_accept.
Proof. intros s. unfold sys_accept. by destruct (d_accepts s). Qed.
#[global] Instance keeps_sys_recv : Keeps d_lockers sys_recv.
Proof. intros s. unfold sys_recv. by destruct (d_recvs s). Qed.
#[global] Typeclasses Opaque on_dnet on_dworld sys_call sys_pipe sys_accept sys_recv.

Create HintDb orderly.
Ltac solve_orderly :=
  lazymatch goal with
  | |- orderly (mbind _ _) => apply orderly_bind; [|intros ?]; solve_orderly
  | |- orderly (when _ _) => apply orderly_when; solve_orderly
  | |- orderly (attempt _) => apply orderly_attempt; solve_orderly
  | |- orderly (on_error _ _) => apply orderly_on_error; [solve_orderly|done]
  | |- orderly (if ?b then _ else _) => destruct b; solve_orderly
  | |- orderly (match ?x with _ => _ end) => destruct x; solve_orderly
  | |- orderly (let _ := _ in _) => intros ?; solve_orderly
  | |- orderly _ => first [solve [apply orderly_keeps; solve_keeps] | solve [auto with orderly]]
  end.

Section dispatch.
Context `{Glib, Calendar}.

Lemma moved_on_write_pipe k : moved_on k (set_write_pipe FLOM_NULL_FD k).
Proof. split_and!; [done| |done]. unfold is_live. cbn. done. Qed.

#[global] Instance keeps_compare k n : Keeps d_lockers (compare_locker k n).
Proof. intros s. unfold compare_locker. by destruct (res_compare_name _ _). Qed.
#[global] Instance keeps_find l n : forall i, Keeps d_lockers (find_locker l i n).
Proof.
  induction l as [|k l IH]; intros i; cbn [find_locker]; [apply _|]. solve_keeps.
Qed.

Lemma orderly_transfer_conn id li c : orderly (flom_accept_loop_transfer_conn id li c).
Proof.
  unfold flom_accept_loop_transfer_conn, flom_locker_array_get.
  assert (Hu : forall x, orderly (upd_dlocker li (set_write_sequence x))) by
    (intros; by apply orderly_upd).
  assert (Hp : forall x, orderly (upd_dlocker li (push_pipe x))) by
    (intros; by apply orderly_upd).
  solve_orderly.
Qed.
#[local] Hint Resolve orderly_transfer_conn : orderly.

Lemma orderly_scan_incubator fuel : forall i li, orderly (scan_incubator fuel i li).
Proof.
  induction fuel as [|fuel IH]; intros i li; cbn [scan_incubator];
    unfold flom_locker_array_get; solve_orderly.
Qed.
#[local] Hint Resolve orderly_scan_incubator : orderly.

Lemma orderly_chklockers n : forall i, orderly (chklockers n i).
Proof.
  induction n as [|n IH]; intros i; cbn [chklockers];
    unfold flom_locker_array_get; [solve_orderly|].
  assert (Hu : orderly (upd_dlocker i (set_write_pipe FLOM_NULL_FD))) by
    (apply orderly_upd, moved_on_write_pipe).
  assert (Hd : orderly (flom_locker_array_del i)).
  { unfold flom_locker_array_del, flom_locker_array_get, flom_locker_destroy.
    assert (orderly (modify (fun s => put_lockers (delete i (d_lockers s)) s))) by
      (intros s; apply lockers_ok_delete).
    solve_orderly. }
  solve_orderly.
Qed.

(** The search for a locker: it finds none when none answers for the name. *)
Lemma compare_locker_eq k n s :
  routable (dl_resource k) -> compare_locker k (Some n) s = (inr (matches (dl_route k) n), s).
Proof.
  intros Hr. unfold compare_locker.
  pose proof (compare_route n (St (lk_name (dl_locker k)) (lk_data (dl_locker k)) flom_msg_init
    (n_world (d_net s)) (Timeval 0 0)) Hr) as E.
  destruct (res_compare_name _ _) as [r s']. cbn in E. by subst r.
Qed.

Definition answers (n : string) (k : dlocker) : bool := is_live k && matches (dl_route k) n.

Lemma find_locker_eq l n s : forall i,
  Forall (fun k => routable (dl_resource k)) l ->
  find_locker l i (Some n) s = (inr (Nat.add i <$> (fst <$> list_find (answers n) l)), s).
Proof.
  induction l as [|k l IH]; intros i Hr; [done|]. apply Forall_cons in Hr as [Hk Hl].
  cbn [find_locker list_find].
  assert (Hnext : (find_locker l (S i) (Some n) s) =
    (inr (Nat.add i <$> (fst <$> (prod_map S id <$> list_find (answers n) l))), s)).
  { rewrite IH by done. destruct (list_find _ l) as [[j x]|]; [|done]. cbn.
    by rewrite Nat.add_succ_r. }
  destruct (decide (answers n k)) as [Ha|Ha]; unfold answers in Ha.
  - apply andb_prop_elim in Ha as [Hlv Hm]. apply Is_true_true in Hlv, Hm. rewrite Hlv. cbn [negb].
    unfold mbind, M_bind. rewrite compare_locker_eq, Hm by done. cbn. by rewrite Nat.add_0_r.
  - rewrite <- Hnext. destruct (is_live k); [|done]. cbn [negb].
    unfold mbind, M_bind. rewrite compare_locker_eq by done.
    by destruct (matches _ n); [destruct Ha|].
Qed.

Lemma find_locker_none l n :
  list_find (answers n) l = None ->
  forall k, k ∈ l -> is_live k = true -> matches (dl_route k) n = false.
Proof.
  intros Hf k Hk Hl. apply list_find_None in Hf. rewrite Forall_forall in Hf.
  specialize (Hf k Hk). unfold answers in Hf. rewrite Hl in Hf.
  by destruct (matches _ n); [destruct Hf|].
Qed.

(** A new locker is started only when no live one answers for the name. *)
Definition unclaimed (n : string) (s : daemon) : Prop :=
  lockers_ok (d_lockers s) /\
  forall k, k ∈ d_lockers s -> is_live k = true -> matches (dl_route k) n = false.

Lemma wp_keeps {A} (m : Dm A) (Q : err + A -> daemon -> Prop) s :
  Keeps d_lockers m -> (forall r s', d_lockers s' = d_lockers s -> Q r s') -> wp m Q s.
Proof. intros Hm HQ. apply HQ, Hm. Qed.

Lemma wp_orderly {A} (m : Dm A) s :
  orderly m -> lockers_ok (d_lockers s) -> wp m (fun _ s' => lockers_ok (d_lockers s')) s.
Proof. intros Hm Hs. by apply Hm. Qed.

Lemma wp_daemon_vfs f (Q : err + unit -> daemon -> Prop) s :
  (forall s', d_lockers s' = d_lockers s -> Q (inr tt) s') -> wp (on_dworld (on_vfs f)) Q s.
Proof.
  intros HQ. unfold wp, on_dworld, on_dnet, on_nworld, zoom, on_vfs. by destruct (f _); apply HQ.
Qed.

(** The locker that was added at the end *)
Definition started (n : string) (l : list dlocker) (li : nat) (l' : list dlocker) : Prop :=
  li = length l /\
  exists k, l' = l ++ [k] /\ sound k /\ matches (dl_route k) n = true.

Lemma wp_start_locker b n uid s :
  l8_name b = Some n ->
  wp (flom_accept_loop_start_locker b (flom_rsrc_get_type n) uid) (fun r s' =>
    match r with
    | inr li => started n (d_lockers s) li (d_lockers s')
    | inl _ => d_lockers s' = d_lockers s
    end) s.
Proof.
  intros Hb. unfold flom_accept_loop_start_locker. rewrite Hb. wp_step. wp_step; [|done].
  injection H1 as <-. wp_step. apply wp_keeps; [apply _|]. intros [e|w] s1 E1; cbn beta iota; [done|].
  pose proof (wp_init_route n _ (St None NoData flom_msg_init w (Timeval 0 0)) eq_refl) as Hi.
  pose proof (init_inv (D := rsrc_data) (ok := any_message) n
    (St None NoData flom_msg_init w (Timeval 0 0))) as Hx. cbn [res_init any_resource] in Hx.
  unfold wp in Hi, Hx. destruct (flom_resource_init _ n _) as [r s']. cbn [fst snd] in Hi, Hx.
  wp_step. apply wp_keeps; [apply _|]. intros [e|[]] s2 E2; cbn beta iota; [congruence|].
  rewrite E1 in E2. wp_step.
  destruct r as [[rc| |]|[]]; [by wp_step..|]. destruct (Hi eq_refl) as (Hr & _ & Hm). specialize (Hx eq_refl).
  wp_step. wp_step. apply wp_keeps; [apply _|]. intros [e|op] s3 E3; cbn beta iota;
    [congruence|]. rewrite E2 in E3. wp_step. wp_step; [|done].
  wp_step. apply wp_keeps; [apply _|]. intros [e|thread] s4 E4; cbn beta iota;
    [congruence|]. rewrite E3 in E4. wp_step.
  wp_step; [by wp_step|]. unfold flom_locker_array_count, flom_locker_array_add.
  do 5 wp_step. apply wp_daemon_vfs. intros s5 E5; cbn beta iota. wp_step. rewrite E4.
  split; [done|]. rewrite E5. cbn. rewrite E4. eexists. split; [done|]. by split.
Qed.

Lemma wp_transfer_to_new id c b n s :
  l8_name b = Some n -> unclaimed n s ->
  wp (transfer_to_new id c b (flom_rsrc_get_type n)) (fun _ s' => lockers_ok (d_lockers s')) s.
Proof.
  intros Hb [Ho Hu]. unfold transfer_to_new. wp_step. apply wp_keeps; [apply _|].
  intros [e|uid] s1 E1; cbn beta iota; [by rewrite E1|]. do 2 wp_step.
  eapply wp_mono; [|by apply (wp_start_locker b n uid)].
  intros [[rc| |]|li] s2 Hs2; cbn beta iota in *; rewrite E1 in Hs2.
  - wp_step; [|by wp_step; rewrite Hs2]. apply wp_orderly; [solve_orderly|by rewrite Hs2].
  - by rewrite Hs2.
  - by rewrite Hs2.
  - destruct Hs2 as (_ & k & Hs2 & Hr & Hm).
    apply wp_orderly; [solve_orderly|rewrite Hs2; by eapply lockers_ok_add].
Qed.

Lemma orderly_transfer id : orderly (flom_accept_loop_transfer id).
Proof.
  intros s Hs. change (wp (flom_accept_loop_transfer id) (fun _ s' => lockers_ok (d_lockers s')) s).
  unfold flom_accept_loop_transfer. wp_step. apply wp_keeps; [apply _|].
  intros [e|oc] s1 E1; cbn beta iota; [by rewrite E1|]. wp_step. wp_step; [|by rewrite E1].
  wp_step. apply wp_keeps; [apply _|]. intros [e|o] s2 E2; cbn beta iota; [by rewrite E2, E1|].
  rewrite E1 in E2. wp_step. wp_step; [by wp_step; rewrite E2|].
  wp_step. wp_step; [|by rewrite E2]. wp_step. wp_step; [|by rewrite E2].
  wp_step; [apply wp_orderly; [unfold refuse; solve_orderly|by rewrite E2]|].
  do 3 wp_step. unfold wp at 1. rewrite find_locker_eq by (rewrite E2; apply sound_routable, Hs). cbn [fst snd].
  destruct (list_find _ _) as [[j x]|] eqn:Hf; cbn [fmap option_fmap option_map];
    [apply wp_orderly; [solve_orderly|by rewrite E2]|].
  destruct (l8_create a0 =? 0).
  - apply wp_orderly; [unfold refuse, put_into_incubator; solve_orderly|by rewrite E2].
  - apply wp_transfer_to_new; [done|]. rewrite <- E2 in Hs. split; [done|].
    by apply find_locker_none.
Qed.
#[local] Hint Resolve orderly_transfer orderly_chklockers : orderly.

Lemma orderly_pollin id : orderly (flom_accept_loop_pollin id).
Proof.
  unfold flom_accept_loop_pollin, accept_client, receive_message, handle_message, check_peer,
    flom_accept_discover_reply, flom_daemon_mngmnt, flom_daemon_mngmnt_shutdown, accept_connection.
  solve_orderly.
Qed.
#[local] Hint Resolve orderly_pollin : orderly.

Lemma orderly_scan l : forall i, orderly (scan_clients l i).
Proof. induction l as [|r l IH]; intros i; cbn [scan_clients]; solve_orderly. Qed.
#[local] Hint Resolve orderly_scan : orderly.

Lemma orderly_round again poll : orderly (accept_round again poll).
Proof.
  unfold accept_round, flom_accept_loop_chklockers, flom_locker_array_count, only_listeners.
  solve_orderly.
Qed.
End dispatch.

(** ** The thread of a locker only ever closes its end of the pipe *)
Section tame.
Context `{Glib} {D : Type} `{Resource D}.

Definition pipe_end (s : lstate D) : Z := lk_read_pipe (l_locker s).

Definition tame {A} (m : Lm D A) : Prop := forall s,
  pipe_end (m s).2 = pipe_end s \/ pipe_end (m s).2 = FLOM_NULL_FD.

Lemma tame_keeps {A} (m : Lm D A) : Keeps pipe_end m -> tame m.
Proof. intros Hm s. left. apply Hm. Qed.
Lemma tame_bind {A B} (m : Lm D A) (k : A -> Lm D B) :
  tame m -> (forall a, tame (k a)) -> tame (m ≫= k).
Proof.
  intros Hm Hk s. specialize (Hm s). unfold mbind, M_bind. destruct (m s) as [[e|a] s']; [done|].
  destruct (Hk a s') as [E|E]; [|by right]. rewrite E. exact Hm.
Qed.

#[local] Instance pipe_on_net {A} (m : Cm A) : Keeps pipe_end (Locker.on_net m).
Proof. intros s. unfold Locker.on_net, zoom. by destruct (m _). Qed.
#[local] Instance pipe_on_world {A} (m : Wm A) : Keeps pipe_end (on_lworld m).
Proof. apply pipe_on_net. Qed.
#[local] Instance pipe_read : Keeps pipe_end read_pipe.
Proof. intros s. unfold read_pipe. by destruct (l_reads s). Qed.
#[local] Instance pipe_recv : Keeps pipe_end flom_conn_recv.
Proof. intros s. unfold flom_conn_recv. by destruct (l_recvs s). Qed.
#[local] Instance pipe_call {A} m back (f : Res D A) : Keeps pipe_end (call_method m back f).
Proof. intros s. unfold call_method. by destruct (f _). Qed.
#[local] Instance pipe_upd f :
  (forall k, lk_read_pipe (f k) = lk_read_pipe k) -> Keeps pipe_end (modify (upd_locker f)).
Proof. intros Hf s. apply Hf. Qed.
#[local] Instance pipe_attempt {A} (m : Lm D A) : Keeps pipe_end m -> Keeps pipe_end (attempt m).
Proof. intros Hm s. specialize (Hm s). unfold attempt. by destruct (m s) as [[[]|a] s']. Qed.
#[local] Typeclasses Opaque Locker.on_net on_lworld read_pipe flom_conn_recv call_method.

#[local] Instance pipe_dispatch c : Keeps pipe_end (dispatch c).
Proof. unfold dispatch, resource_inmsg, send_answer, free_conn_msg. solve_keeps. Qed.
#[local] Instance pipe_pollin i : Keeps pipe_end (flom_locker_loop_pollin i).
Proof.
  unfold flom_locker_loop_pollin, import_connection, deserialize_into, resource_clean. solve_keeps.
Qed.
#[local] Instance pipe_drop i : Keeps pipe_end (drop_client i).
Proof. unfold drop_client, resource_clean. solve_keeps. Qed.

Lemma tame_scan l : forall i, tame (scan_fds l i).
Proof.
  induction l as [|r l IH]; intros i; cbn [scan_fds]; [by apply tame_keeps, _|].
  destruct (re_err r); [by apply tame_keeps, _|].
  apply tame_bind; [apply tame_keeps; destruct (re_in r); solve_keeps|]. intros stop.
  destruct stop; [by apply tame_keeps, _|]. destruct (re_hup r); [|apply IH].
  destruct (i =? 0)%nat; [|by apply tame_keeps, _].
  apply tame_bind; [by apply tame_keeps, _|]. intros _ s. by right.
Qed.

Lemma tame_round poll : tame (locker_round poll).
Proof.
  unfold locker_round, poll_timeout, resource_timeout.
  repeat (first [apply tame_bind; [solve [apply tame_keeps; solve_keeps]|intros ?]
                |match goal with |- tame (if ?b then _ else _) => destruct b end
                |match goal with |- tame (match ?x with _ => _ end) => destruct x end
                |solve [apply tame_keeps; solve_keeps]]).
  apply tame_bind; [apply tame_scan|]. intros _. by apply tame_keeps, _.
Qed.
End tame.

(** ** The daemon and its lockers together

    A round of the accept loop, a round of the thread of one locker, or
    anything else that happens to the connections and to the system, in any
    order.  Of the state of a thread only its locker is shared with the
    daemon; its connections, its pipe and the file system are arbitrary. *)
Section system.
Context `{Glib, Calendar}.

Definition set_thread (k : locker rsrc_data) (x : dlocker) : dlocker :=
  DLocker k (dl_write_pipe x) (dl_write_sequence x) (dl_pipe x).

Inductive system_step : daemon -> daemon -> Prop :=
| step_accept again poll s : system_step s (accept_round again poll s).2
| step_thread i k poll ls r ls' s :
    d_lockers s !! i = Some k -> l_locker ls = dl_locker k ->
    locker_round poll ls = (r, ls') -> r <> inl Ub ->
    system_step s (put_lockers (alter (set_thread (l_locker ls')) i (d_lockers s)) s)
| step_other s s' : d_lockers s' = d_lockers s -> system_step s s'.

Lemma thread_moves_on k poll ls r ls' :
  l_locker ls = dl_locker k -> locker_round poll ls = (r, ls') -> r <> inl Ub ->
  moved_on k (set_thread (l_locker ls') k).
Proof.
  intros Hk E Hr. pose proof (drives_round poll ls) as Hd. pose proof (tame_round poll ls) as Ht.
  rewrite E in Hd, Ht. cbn [fst snd] in Hd, Ht. specialize (Hd Hr). apply steps_route in Hd.
  unfold resource_of, pipe_end in Hd, Ht. rewrite Hk in Hd, Ht. split_and!; [exact Hd| |].
  2: { pose proof (drives_round poll ls) as Hx. rewrite E in Hx. cbn [fst snd] in Hx.
       intros Hek. apply (steps_exclusive _ _ (Hx Hr)). unfold resource_of. cbn [snd]. by rewrite Hk. }
  unfold is_live. cbn. destruct Ht as [->| ->]; [done|]. cbn. by rewrite andb_false_r.
Qed.

Lemma system_step_ok s s' :
  system_step s s' -> lockers_ok (d_lockers s) -> lockers_ok (d_lockers s').
Proof.
  intros [again poll s0 | i k poll ls r ls' s0 Hi Hk E Hr | s0 s1 ->] Hs; [|cbn|done].
  - by apply orderly_round.
  - eapply lockers_ok_moved; [|exact Hs]. apply Forall2_same_length_lookup_2.
    + by rewrite length_alter.
    + intros j x y Hx Hy. destruct (decide (j = i)) as [->|Hne].
      * rewrite list_lookup_alter_eq, Hi in Hy. injection Hy as <-.
        assert (x = k) as -> by congruence. by eapply thread_moves_on.
      * rewrite list_lookup_alter_ne in Hy by done. assert (x = y) as -> by congruence.
        apply moved_on_refl.
Qed.

Lemma reachable_lockers_ok s0 s :
  d_lockers s0 = [] -> rtc system_step s0 s -> lockers_ok (d_lockers s).
Proof.
  intros H0' Hs. assert (H1 : lockers_ok (d_lockers s0)) by (rewrite H0'; split; constructor).
  clear H0'. induction Hs as [|x y z Hxy _ IH]; [done|]. by eapply IH, system_step_ok.
Qed.

Lemma live_route_unique l : NoDup (live_routes l) -> forall i j k k',
  l !! i = Some k -> l !! j = Some k' -> is_live k = true -> is_live k' = true ->
  dl_route k = dl_route k' -> i = j.
Proof.
  induction l as [|x l IH]; intros Hnd i j k k' Hi Hj Hk Hk' Hr; [done|].
  rewrite live_routes_cons in Hnd. apply NoDup_app in Hnd as (_ & Hx & Hnd).
  assert (Hin : forall m y, l !! m = Some y -> is_live y = true -> dl_route y ∈ live_routes l).
  { intros m y Hm Hy. apply list_elem_of_In, in_map_iff. exists y. split; [done|].
    apply List.filter_In. split; [|done]. apply list_elem_of_In. by eapply list_elem_of_lookup_2. }
  destruct i as [|i], j as [|j]; cbn in Hi, Hj; [done|..].
  - injection Hi as ->. rewrite Hk in Hx. exfalso. apply (Hx (dl_route k)); [left|].
    rewrite Hr. by eapply Hin.
  - injection Hj as ->. rewrite Hk' in Hx. exfalso. apply (Hx (dl_route k')); [left|].
    rewrite <- Hr. by eapply Hin.
  - f_equal. by eapply (IH Hnd).
Qed.

(** ** Theorems *)

(** C3: safety.  From the start of the accept loop, whatever the clients send,
    however [poll] and the system answer, and however the rounds of the
    daemon and of the threads interleave, two lockers that the daemon can
    give clients to have different keys: two hierarchical resources do not
    share their root, two other resources do not share their name.  The locks
    on a resource are therefore kept by one thread at most. *)
Theorem one_locker_per_resource s0 s i j k k' :
  d_lockers s0 = [] -> rtc system_step s0 s ->
  d_lockers s !! i = Some k -> d_lockers s !! j = Some k' ->
  is_live k = true -> is_live k' = true -> dl_route k = dl_route k' -> i = j.
Proof.
  intros H0' Hs. destruct (reachable_lockers_ok s0 s H0' Hs) as [_ Hnd]. by apply live_route_unique.
Qed.

End system.

(** ** The part of the state a handover changes *)
Section view.
Context `{Glib, Calendar}.

Definition table (s : daemon) : list conn_ref := cs_array (n_conns (d_net s)).
Definition objects (s : daemon) : gmap conn_ref flom_conn := w_conns (n_world (d_net s)).

(** The state of a connection object is not what the scan looks at. *)
Definition same_wish (m m' : gmap conn_ref flom_conn) : Prop := forall c o',
  m' !! c = Some o' -> exists o, m !! c = Some o /\ c_wait o = c_wait o' /\ c_msg o = c_msg o'.

Lemma same_wish_refl m : same_wish m m.
Proof. intros c o Ho. by exists o. Qed.
Lemma same_wish_trans m1 m2 m3 : same_wish m1 m2 -> same_wish m2 m3 -> same_wish m1 m3.
Proof.
  intros H12 H23 c o3 H3. destruct (H23 c o3 H3) as (o2 & H2 & E1 & E2).
  destruct (H12 c o2 H2) as (o1 & H1' & E3 & E4). exists o1. split; [done|]. split; congruence.
Qed.
(** What a handover does to the table and to the locker it is made to *)
Definition view (li : nat) (s : daemon) : list conn_ref * gmap conn_ref flom_conn *
    option (locker rsrc_data) := (table s, objects s, dl_locker <$> d_lockers s !! li).

#[export] Instance view_net_gets {A} li (f : net -> A) : Keeps (view li) (on_dnet (gets f)).
Proof. intros s. by destruct s. Qed.
#[export] Instance view_get li i : Keeps (view li) (on_dnet (flom_conns_get_conn i)).
Proof. intros s. by destruct s. Qed.
#[export] Instance view_used li : Keeps (view li) (on_dnet flom_conns_get_used).
Proof. intros s. by destruct s. Qed.
#[export] Instance view_deref li c : Keeps (view li) (on_dworld (deref c)).
Proof.
  intros s. unfold on_dworld, on_dnet, on_nworld, zoom, deref, mbind, M_bind, gets. cbn.
  destruct (w_conns _ !! c); by destruct s as [[? []]].
Qed.
#[export] Instance view_call li : Keeps (view li) sys_call.
Proof. intros s. unfold sys_call. by destruct (d_calls s). Qed.
#[export] Instance view_compare li k n : Keeps (view li) (compare_locker k n).
Proof. intros s. unfold compare_locker. by destruct (res_compare_name _ _). Qed.
#[export] Instance view_vfs li f : Keeps (view li) (on_dworld (on_vfs f)).
Proof. intros s. unfold on_dworld, on_dnet, on_nworld, zoom, on_vfs. by destruct (f _). Qed.
#[export] Instance view_upd li i f :
  (forall k, dl_locker (f k) = dl_locker k) -> Keeps (view li) (upd_dlocker i f).
Proof.
  intros Hf s. unfold view, upd_dlocker, modify. cbn. f_equal.
  destruct (decide (li = i)) as [->|Hne]; [|by rewrite list_lookup_alter_ne].
  rewrite list_lookup_alter_eq. destruct (d_lockers s !! i); cbn; by rewrite ?Hf.
Qed.

Lemma wp_view {A} li (m : Dm A) (Q : err + A -> daemon -> Prop) s :
  Keeps (view li) m -> (forall r s', view li s' = view li s -> Q r s') -> wp m Q s.
Proof. intros Hk HQ. apply HQ, Hk. Qed.

Lemma wp_net_gets {A} (f : net -> A) (Q : err + A -> daemon -> Prop) s :
  Q (inr (f (d_net s))) s -> wp (on_dnet (gets f)) Q s.
Proof. unfold wp, on_dnet, zoom, gets. by destruct s. Qed.

Lemma wp_object c (Q : err + flom_conn -> daemon -> Prop) s :
  (forall o, objects s !! c = Some o -> Q (inr o) s) ->
  (objects s !! c = None -> Q (inl Ub) s) -> wp (on_dworld (deref c)) Q s.
Proof.
  unfold wp, objects, on_dworld, on_dnet, on_nworld, zoom, deref, mbind, M_bind, gets. cbn.
  intros HS HN. destruct (w_conns _ !! c); destruct s as [[]]; cbn; auto.
Qed.

Lemma wp_trns_fd i s :
  wp (on_dnet (flom_conns_trns_fd i)) (fun r s' => r = inr tt ->
    table s' = remove_index_fast i (table s) /\ same_wish (objects s) (objects s') /\
    d_lockers s' = d_lockers s) s.
Proof.
  unfold table, objects, wp, on_dnet, flom_conns_trns_fd, flom_conns_get_conn, on_nworld, store,
    deref, zoom, mbind, M_bind, gets. cbn.
  destruct (cs_array _ !! i) as [c|]; cbn; [|done].
  destruct (w_conns (n_world (d_net s)) !! c) as [o|] eqn:Ho; cbn; [|done]. intros _.
  split; [done|]. split; [|done]. intros c' o' Hc'. destruct (decide (c' = c)) as [->|Hne].
  - rewrite lookup_insert_eq in Hc'. injection Hc' as <-. by exists o.
  - rewrite lookup_insert_ne in Hc' by done. by exists o'.
Qed.

Lemma wp_handover i li c s :
  wp (flom_accept_loop_transfer_conn i li c) (fun r s' => r = inr tt ->
    table s' = remove_index_fast i (table s) /\ same_wish (objects s) (objects s') /\
    dl_locker <$> d_lockers s' !! li = dl_locker <$> d_lockers s !! li) s.
Proof.
  unfold flom_accept_loop_transfer_conn, flom_locker_array_get.
  do 3 wp_step. wp_step; [|done]. wp_step. apply (wp_view li); [apply _|].
  intros [e|domain] s1 E1; cbn beta iota; [done|]. wp_step.
  apply (wp_view li); [apply _|]. intros [e|oc] s2 E2; cbn beta iota; [done|].
  wp_step. apply (wp_view li); [destruct oc; solve_keeps|].
  intros [e|fd] s3 E3; cbn beta iota; [done|]. wp_step. wp_step; [by wp_step|].
  wp_step. apply (wp_view li); [by apply view_upd|]. intros [e|[]] s4 E4; cbn beta iota; [done|].
  wp_step. apply (wp_view li); [apply _|]. intros [e|ok] s5 E5; cbn beta iota; [done|].
  wp_step. wp_step; [by wp_step|]. wp_step. apply (wp_view li); [by apply view_upd|].
  intros [e|[]] s6 E6; cbn beta iota; [done|]. wp_step.
  assert (Hv : view li s6 = view li s) by congruence. injection Hv as Ht Ho Hl. clear E1 E2 E3 E4 E5 E6.
  rewrite <- Ht, <- Ho, <- Hl.
  eapply wp_mono; [|apply wp_trns_fd]. intros [e|[]] s7 H7; cbn beta iota; [done|].
  destruct (H7 eq_refl) as (Ht7 & Ho7 & Hl7).
  wp_step. apply (wp_view li); [apply _|].
  intros [e|ok'] s8 E8; cbn beta iota; [done|]. wp_step. wp_step; [by wp_step|].
  apply (wp_view li); [by apply view_upd|]. intros r s9 E9 _. rewrite E8 in E9.
  injection E9 as -> -> ->. by rewrite Hl7.
Qed.
End view.

(** ** A first request, with a name of one of the six types *)
Section request.
Context `{Glib, Calendar}.

Record first_request (id : nat) (c : conn_ref) (o : flom_conn) (b : body_lock_8) (n : string)
    (s : daemon) : Prop := First_request {
  fr_lockers : Forall (fun k => routable (dl_resource k)) (d_lockers s);
  fr_conn : table s !! id = Some c;
  fr_object : objects s !! c = Some o;
  fr_verb : msg_verb (c_msg o) = FLOM_MSG_VERB_LOCK;
  fr_step : msg_step (c_msg o) = FLOM_MSG_STEP_INCR;
  fr_body : get_lock_8 (m_body (c_msg o)) = Some b;
  fr_name : l8_name b = Some n;
  fr_type : flom_rsrc_get_type n <> FLOM_RSRC_TYPE_NULL
}.

Lemma wp_request id c o b n (Q : err + unit -> daemon -> Prop) s :
  first_request id c o b n s ->
  match list_find (answers n) (d_lockers s) with
  | Some (li, _) => wp (flom_accept_loop_transfer_conn id li c) Q s
  | None =>
      if l8_create b =? 0 then
        if l8_wait b =? 0 then wp (refuse c FLOM_RC_LOCK_CANT_WAIT) Q s
        else wp (put_into_incubator c n (flom_rsrc_get_type n)) Q s
      else wp (transfer_to_new id c b (flom_rsrc_get_type n)) Q s
  end -> wp (flom_accept_loop_transfer id) Q s.
Proof.
  intros [Hr Hi Ho Hv Hst Hb Hn Ht] HQ. unfold flom_accept_loop_transfer, flom_conns_get_conn.
  wp_step. apply wp_net_gets. wp_step.
  unfold table in Hi. rewrite Hi. wp_step; [|done]. injection H1 as <-. wp_step.
  apply wp_object; [intros o1 Ho1|congruence]. assert (o1 = o) as -> by congruence. cbn beta iota.
  wp_step. rewrite Hv, Hst. wp_step; [done|]. rewrite Hb. wp_step. wp_step; [|done].
  injection H2 as <-. rewrite Hn. wp_step. wp_step; [|done]. injection H2 as <-.
  rewrite bool_decide_eq_false_2 by done. do 3 wp_step. unfold wp at 1.
  rewrite find_locker_eq by done. cbn [fst snd].
  destruct (list_find _ _) as [[j x]|]; cbn [fmap option_fmap option_map]; [done|].
  destruct (l8_create b =? 0); [|done]. by destruct (l8_wait b =? 0).
Qed.
End request.

(** ** A round of the accept loop ends

    The only loop with fuel is the scan of the incubator: a client that is
    handed over leaves the table. *)
Section ends.
Context `{Glib, Calendar}.

Lemma on_dnet_terminates {A} (m : Cm A) : terminates m -> terminates (on_dnet m).
Proof. apply terminates_zoom. Qed.
Lemma on_dworld_terminates {A} (m : Wm A) : terminates m -> terminates (on_dworld m).
Proof. intros Hm. by apply on_dnet_terminates, on_nworld_terminates. Qed.
Lemma sys_call_terminates : terminates sys_call.
Proof. intros s. unfold sys_call. by destruct (d_calls s). Qed.
Lemma sys_pipe_terminates : terminates sys_pipe.
Proof. intros s. unfold sys_pipe. by destruct (d_pipes s). Qed.
Lemma sys_accept_terminates : terminates sys_accept.
Proof. intros s. unfold sys_accept. by destruct (d_accepts s). Qed.
Lemma sys_recv_terminates : terminates sys_recv.
Proof. intros s. unfold sys_recv. by destruct (d_recvs s). Qed.
Lemma compare_locker_terminates k n : terminates (compare_locker k n).
Proof.
  intros s. unfold compare_locker.
  pose proof (compare_terminates (D := rsrc_data) n (St (lk_name (dl_locker k))
    (lk_data (dl_locker k)) flom_msg_init (n_world (d_net s)) (Timeval 0 0))) as Ht.
  by destruct (res_compare_name _ _).
Qed.
Lemma upd_dlocker_terminates i f : terminates (upd_dlocker i f).
Proof. apply terminates_modify. Qed.
Lemma trns_fd_terminates i : terminates (flom_conns_trns_fd i).
Proof. unfold flom_conns_trns_fd, flom_conns_get_conn. solve_terminates. Qed.
Lemma get_conn_terminates i : terminates (flom_conns_get_conn i).
Proof. done. Qed.
Lemma get_used_terminates : terminates flom_conns_get_used.
Proof. done. Qed.
Lemma get_new_uid_terminates : terminates flom_conns_get_new_uid.
Proof. done. Qed.
Lemma conn_terminate_terminates c : terminates (flom_conn_terminate c).
Proof.
  assert (terminates close_fd) by (intros n; unfold close_fd; by destruct (n_closes n)).
  unfold flom_conn_terminate, flom_tcp_close. solve_terminates.
Qed.
Lemma add_conn_terminates c : terminates (flom_conns_add_conn c).
Proof. done. Qed.
Hint Resolve get_new_uid_terminates conn_terminate_terminates add_conn_terminates
  get_conn_terminates get_used_terminates on_dnet_terminates on_dworld_terminates sys_call_terminates sys_pipe_terminates
  sys_accept_terminates sys_recv_terminates compare_locker_terminates upd_dlocker_terminates
  trns_fd_terminates : terminates.

Lemma daemon_reply_terminates c rc : terminates (flom_accept_loop_reply c rc).
Proof.
  unfold flom_accept_loop_reply. apply terminates_bind; [solve_terminates|]. intros w.
  pose proof (build_answer_terminates (w_machine_id w) FLOM_MSG_VERB_LOCK (2 * FLOM_MSG_STEP_INCR)
    rc None flom_msg_init) as Hb.
  destruct (flom_msg_build_answer _ _ _ _ _ _) as [r msg]. cbn in Hb.
  apply terminates_bind; [by apply of_result_terminates|]. intros _.
  apply terminates_bind; [apply of_result_terminates, serialize_not_NoFuel|]. intros buf.
  apply terminates_bind; [auto using conn_send_terminates|]. intros _.
  apply terminates_bind; [apply set_last_step_terminates|]. intros _.
  apply of_result_terminates, msg_free_terminates.
Qed.

Lemma start_locker_terminates b t uid : terminates (flom_accept_loop_start_locker b t uid).
Proof.
  unfold flom_accept_loop_start_locker, flom_locker_array_count, flom_locker_array_add.
  apply terminates_bind; [solve_terminates|]. intros name.
  apply terminates_bind; [solve_terminates|]. intros w.
  pose proof (rsrc_init_terminates t name (St None NoData flom_msg_init w (Timeval 0 0))) as Hi.
  destruct (flom_resource_init _ _ _) as [[[]|r] s'];
    first [by destruct Hi | solve_terminates].
Qed.

Lemma find_locker_terminates l n : forall i, terminates (find_locker l i n).
Proof. induction l as [|k l IH]; intros i; cbn [find_locker]; solve_terminates. Qed.
Hint Resolve daemon_reply_terminates start_locker_terminates find_locker_terminates : terminates.

Lemma transfer_conn_terminates i li c : terminates (flom_accept_loop_transfer_conn i li c).
Proof.
  unfold flom_accept_loop_transfer_conn, flom_locker_array_get. solve_terminates.
Qed.
Hint Resolve transfer_conn_terminates : terminates.

Lemma wp_view_terminates {A} (m : Dm A) (Q : err + A -> daemon -> Prop) s :
  terminates m -> Keeps (view 0) m ->
  (forall r s', r <> inl NoFuel -> table s' = table s -> Q r s') -> wp m Q s.
Proof.
  intros Ht Hk HQ. apply HQ; [apply Ht|]. pose proof (Hk s) as E. by injection E.
Qed.

Lemma scan_incubator_terminates fuel : forall i li s,
  (length (table s) - i < fuel)%nat -> (scan_incubator fuel i li s).1 <> inl NoFuel.
Proof.
  induction fuel as [|fuel IH]; intros i li s Hf; [lia|].
  change (wp (scan_incubator (S fuel) i li) (fun r _ => r <> inl NoFuel) s).
  cbn [scan_incubator]. unfold flom_locker_array_get.
  wp_step. apply wp_zoom. unfold flom_conns_get_used. do 2 wp_step; [by wp_step|].
  assert (Es : put_dnet (d_net s) s = s) by by destruct s. rewrite Es. clear Es.
  wp_step. apply wp_zoom. unfold flom_conns_get_conn. do 3 wp_step; [|done].
  assert (Es : put_dnet (d_net s) s = s) by by destruct s. rewrite Es. clear Es.
  wp_step. apply wp_view_terminates; [solve_terminates|apply _|].
  intros [e|o] s1 Hr1 E1; cbn beta iota; [congruence|].
  assert (Hi : (i < length (table s))%nat) by by eapply lookup_lt_Some.
  wp_step; [apply IH; rewrite E1; lia|].
  do 3 wp_step. wp_step; [|done]. wp_step. wp_step; [|done].
  wp_step. apply wp_view_terminates; [solve_terminates|apply _|].
  intros [e|same] s2 Hr2 E2; cbn beta iota; [congruence|].
  assert (Et : table s2 = table s) by congruence.
  destruct same; [|apply IH; rewrite Et; lia].
  wp_step. pose proof (wp_handover i li a s2) as Hh. unfold wp in Hh.
  unfold wp at 1.
  pose proof (transfer_conn_terminates i li a s2) as Ht3.
  destruct (flom_accept_loop_transfer_conn i li a s2) as [[e|[]] s3]; cbn in Hh, Ht3 |- *;
    [congruence|]. destruct (Hh eq_refl) as [Et3 _].
  wp_step. apply wp_view_terminates; [solve_terminates|apply _|].
  intros [e|[]] s4 Hr4 E4; cbn beta iota; [congruence|]. apply IH.
  rewrite E4, Et3, Et, (length_remove_index_fast _ _ a) by done. lia.
Qed.

Lemma transfer_to_new_terminates id c b t : terminates (transfer_to_new id c b t).
Proof.
  unfold transfer_to_new. apply terminates_bind; [solve_terminates|].
  intros uid. apply terminates_bind; [solve_terminates|]. intros [rc|li]; [solve_terminates|].
  apply terminates_bind; [solve_terminates|]. intros _ s.
  change (wp (n ← on_dnet flom_conns_get_used; scan_incubator (S n) 1 li)
    (fun r _ => r <> inl NoFuel) s).
  wp_step. apply wp_zoom. unfold flom_conns_get_used. wp_step.
  assert (Es : put_dnet (d_net s) s = s) by by destruct s. rewrite Es.
  apply scan_incubator_terminates. unfold table. lia.
Qed.
Hint Resolve transfer_to_new_terminates : terminates.

Lemma transfer_terminates id : terminates (flom_accept_loop_transfer id).
Proof. unfold flom_accept_loop_transfer, refuse, put_into_incubator. solve_terminates. Qed.
Hint Resolve transfer_terminates set_last_step_terminates : terminates.

Lemma discover_reply_terminates fd : terminates (flom_accept_discover_reply fd).
Proof.
  unfold flom_accept_discover_reply. apply terminates_bind; [solve_terminates|]. intros cf.
  apply terminates_bind; [apply of_result_terminates, serialize_not_NoFuel|intros ?; solve_terminates].
Qed.
Hint Resolve discover_reply_terminates : terminates.

Lemma accept_pollin_terminates id : terminates (flom_accept_loop_pollin id).
Proof.
  unfold flom_accept_loop_pollin, accept_client, receive_message, handle_message, check_peer,
    flom_daemon_mngmnt, flom_daemon_mngmnt_shutdown, accept_connection.
  solve_terminates.
Qed.
Hint Resolve accept_pollin_terminates : terminates.

Lemma scan_clients_terminates l : forall i, terminates (scan_clients l i).
Proof. induction l as [|r l IH]; intros i; cbn [scan_clients]; solve_terminates. Qed.

Lemma chklockers_terminates n : forall i, terminates (chklockers n i).
Proof.
  assert (terminates close_fd) by (intros s; unfold close_fd; by destruct (n_closes s)).
  induction n as [|n IH]; intros i; cbn [chklockers];
    unfold flom_locker_array_get, flom_locker_array_del, flom_locker_destroy,
      flom_locker_array_get; solve_terminates.
Qed.
Hint Resolve scan_clients_terminates chklockers_terminates : terminates.

(** termination.  A round of the accept loop ends, whatever the clients
    send, the answers of the system and the state of the lockers: the scan of
    the incubator, which hands clients over while it walks the table, neither
    skips the end of the table nor loops. *)
Theorem accept_round_ends again poll : terminates (accept_round again poll).
Proof.
  unfold accept_round, flom_accept_loop_chklockers, flom_locker_array_count, only_listeners.
  solve_terminates.
Qed.
End ends.

(** ** Clients that wait for a resource *)
Section incubator.
Context `{Glib, Calendar}.

(** What the scan looks at: the waiting clients and the names they sent *)
Definition waits_for (rt : route) (o : flom_conn) : Prop :=
  c_wait o = true /\
  exists b n, get_lock_8 (m_body (c_msg o)) = Some b /\ l8_name b = Some n /\ matches rt n = true.

Definition nobody_waits (rt : route) (i j : nat) (s : daemon) : Prop := forall x c o,
  (i <= x < j)%nat -> table s !! x = Some c -> objects s !! c = Some o -> ~ waits_for rt o.

Lemma nobody_waits_more rt i j s s' :
  (forall x, (i <= x < j)%nat -> table s' !! x = table s !! x) ->
  same_wish (objects s) (objects s') -> nobody_waits rt i j s -> nobody_waits rt i j s'.
Proof.
  intros Ht Hw Hn x c o Hx Hc Ho (Hwt & b & n & Hb & Hnm & Hm). rewrite Ht in Hc by done.
  destruct (Hw c o Ho) as (o1 & Ho1 & E1 & E2). apply (Hn x c o1 Hx Hc Ho1). split; [congruence|].
  exists b, n. by rewrite E2.
Qed.

Lemma remove_index_fast_before {A} (l : list A) i x :
  (x < i)%nat -> (i < length l)%nat -> remove_index_fast i l !! x = l !! x.
Proof.
  intros Hx Hi. unfold remove_index_fast. destruct (last l) as [z|]; [|done].
  rewrite lookup_take_lt by lia. apply list_lookup_insert_ne. lia.
Qed.


Lemma wp_compare_locker k n o b (Q : err + bool -> daemon -> Prop) s :
  routable (dl_resource k) -> get_lock_8 (m_body (c_msg o)) = Some b -> l8_name b = n ->
  (forall r, (r = inr false -> ~ waits_for (dl_route k) o) -> Q r s) ->
  wp (compare_locker k n) Q s.
Proof.
  intros Hr Hb Hn HQ. destruct n as [n|].
  - unfold wp. rewrite compare_locker_eq by done. apply HQ. intros [= Hm] (_ & b' & n' & Hb' & Hn' & Hm').
    congruence.
  - unfold wp, compare_locker. destruct (res_compare_name _ _) as [r s']. apply HQ.
    intros _ (_ & b' & n' & Hb' & Hn' & _). congruence.
Qed.

(** The scan hands over every client it finds waiting for the locker. *)
Definition served (li : nat) (k : dlocker) (s : daemon) : Prop :=
  nobody_waits (dl_route k) 1 (length (table s)) s /\
  dl_locker <$> d_lockers s !! li = Some (dl_locker k).

Lemma nobody_waits_next rt i c s :
  table s !! i = Some c -> (forall o, objects s !! c = Some o -> ~ waits_for rt o) ->
  nobody_waits rt 1 i s -> nobody_waits rt 1 (S i) s.
Proof.
  intros Hi Hc Hn x c' o Hx Hc' Ho. destruct (decide (x = i)) as [->|Hne].
  - rewrite Hi in Hc'. injection Hc' as <-. auto.
  - apply (Hn x c' o); [lia|done..].
Qed.

Lemma wp_scan_incubator fuel : forall i li k s,
  dl_locker <$> d_lockers s !! li = Some (dl_locker k) -> routable (dl_resource k) ->
  nobody_waits (dl_route k) 1 i s ->
  wp (scan_incubator fuel i li) (fun r s' => r = inr tt -> served li k s') s.
Proof.
  induction fuel as [|fuel IH]; intros i li k s Hk Hr Hn; [done|]. cbn [scan_incubator].
  unfold flom_locker_array_get, flom_conns_get_used, flom_conns_get_conn.
  wp_step. apply wp_net_gets. wp_step.
  { wp_step. intros _. split; [|done]. intros x c o Hx. apply Hn.
    apply Nat.leb_le in Heqb. unfold table in Hx. lia. }
  wp_step. apply wp_net_gets. wp_step. wp_step; [|done]. wp_step.
  apply wp_object; [intros o Ho|done]. cbn beta iota.
  assert (Hi : table s !! i = Some a) by done.
  assert (Hnext : ~ waits_for (dl_route k) o -> nobody_waits (dl_route k) 1 (S i) s).
  { intros Hw. apply (nobody_waits_next _ _ a); [done| |done]. intros o' Ho'. congruence. }
  wp_step; [apply IH; [done..|]; apply Hnext; intros [Hw _]; by rewrite Hw in Heqb0|].
  do 3 wp_step. wp_step; [|done]. wp_step. wp_step; [|done]. rewrite H2 in Hk. injection Hk as Hk.
  assert (Ek : dl_route a0 = dl_route k) by (unfold dl_route, dl_resource; by rewrite Hk).
  wp_step. eapply wp_compare_locker; [unfold dl_resource; by rewrite Hk|done|done|].
  rewrite Ek. intros [e|[]] Hf; cbn beta iota; [done|..].
  - wp_step. eapply wp_mono; [|apply wp_handover].
    intros [e|[]] s1 H1'; cbn beta iota; [done|]. destruct (H1' eq_refl) as (Ht & Hw & Hl).
    wp_step. apply (wp_view li); [apply _|]. intros [e|[]] s2 E2; cbn beta iota; [done|].
    injection E2 as Et2 Eo2 El2. apply IH; [by rewrite El2, Hl, H2; cbn; rewrite Hk|done|].
    apply (nobody_waits_more _ _ _ s); [|by rewrite Eo2|exact Hn]. intros x Hx. rewrite Et2, Ht.
    apply remove_index_fast_before; [lia|by eapply lookup_lt_Some].
  - apply IH; [by rewrite H2; cbn; rewrite Hk|done|auto].
Qed.

Lemma wp_new_serves id c b n s :
  l8_name b = Some n ->
  wp (transfer_to_new id c b (flom_rsrc_get_type n)) (fun r s' => r = inr tt ->
    forall k, d_lockers s' !! length (d_lockers s) = Some k ->
    matches (dl_route k) n = true /\ nobody_waits (dl_route k) 1 (length (table s')) s') s.
Proof.
  intros Hn. unfold transfer_to_new. wp_step. apply wp_keeps; [apply _|].
  intros [e|uid] s1 E1; cbn beta iota; [done|]. do 2 wp_step.
  eapply wp_mono; [|by apply (wp_start_locker b n uid)].
  intros [[rc| |]|li] s2 Hs2; cbn beta iota in *; rewrite E1 in Hs2; [|done..|].
  - wp_step; [|by wp_step]. apply wp_keeps; [solve_keeps|]. intros r s3 E3 _ k Hk.
    rewrite E3, Hs2 in Hk. apply lookup_lt_Some in Hk. lia.
  - destruct Hs2 as (-> & k & Hs2 & [Hr _] & Hm). wp_step.
    eapply wp_mono; [|apply wp_handover]. intros [e|[]] s3 H3; cbn beta iota; [done|].
    destruct (H3 eq_refl) as (_ & _ & Hl). wp_step. apply wp_net_gets. cbn beta iota.
    eapply wp_mono; [|apply (wp_scan_incubator _ 1 _ k); [|done|]].
    + intros r s4 H4 Er k4 Hk4. destruct (H4 Er) as [Hno Hl4]. rewrite Hk4 in Hl4.
      injection Hl4 as Hl4. unfold dl_route, dl_resource in *. by rewrite Hl4.
    + rewrite Hl, Hs2. rewrite lookup_app_r, Nat.sub_diag by done. done.
    + intros x. lia.
Qed.

(** ** Theorem *)

(** C39: liveness.  When a request creates the locker of a resource, no client
    that was waiting for the resource to be created is left behind: after
    [flom_accept_loop_transfer] nobody in the daemon's table (the listener,
    at index 0, apart) waits for a name the new locker answers for. *)
Theorem new_locker_serves_waiters id c o b n s s' k :
  first_request id c o b n s ->
  list_find (answers n) (d_lockers s) = None -> l8_create b <> 0 ->
  flom_accept_loop_transfer id s = (inr tt, s') ->
  d_lockers s' !! length (d_lockers s) = Some k ->
  matches (dl_route k) n = true /\
  forall i c' o', (1 <= i)%nat -> table s' !! i = Some c' -> objects s' !! c' = Some o' ->
    ~ waits_for (dl_route k) o'.
Proof.
  intros Hreq Hf Hc E Hk.
  assert (Hw : wp (flom_accept_loop_transfer id) (fun r s' => r = inr tt ->
    forall k, d_lockers s' !! length (d_lockers s) = Some k ->
    matches (dl_route k) n = true /\ nobody_waits (dl_route k) 1 (length (table s')) s') s).
  { eapply wp_request; [exact Hreq|]. apply Z.eqb_neq in Hc. rewrite Hf, Hc.
    apply wp_new_serves, Hreq. }
  unfold wp in Hw. rewrite E in Hw. destruct (Hw eq_refl k Hk) as [Hm Hnw]. split; [done|].
  intros i c' o' Hi' Hc' Ho'. apply (Hnw i c'); [|done..]. split; [done|]. by eapply lookup_lt_Some.
Qed.
End incubator.
