(* ===== verification/Admission.v ===== *)
(** * Admission: what becomes of the first request of a client

    The functional behaviour of [flom_accept_loop_transfer] on each of its
    branches, the handover of a client from the daemon to the thread of a
    locker, and the messages that end the daemon.  The concrete daemons at the
    end are those of the theorems of [Dispatch] as well. *)
From Stdlib Require Import ZArith String List Lia.
From stdpp Require Import base list gmap numbers strings relations.
From S2P Require Import Prelude Types CStr RsrcName Msg MsgXml MsgRound Vfs World LockMode.
From S2P Require Import ConnLock Resource Simple Numeric Timestamp Hier Rsrc Route Conns Locker Serve Daemon Dispatch.
Local Open Scope Z_scope.

Section handover.
Context `{Glib, Calendar}.

(** ** The handover, both ends *)

(** The locker after the daemon has written a client to its pipe *)
Definition handed (domain fd : Z) (c : conn_ref) (k : dlocker) : dlocker :=
  DLocker (dl_locker k) (dl_write_pipe k) (dl_write_sequence k + 1)
    (dl_pipe k ++ [ReadToken domain fd (dl_write_sequence k + 1); ReadConn c]).

Lemma alter_insert {A} f i (l : list A) x : l !! i = Some x -> alter f i l = <[i := f x]> l.
Proof.
  revert i. induction l as [|y l IH]; intros [|i]; cbn; [done..| |].
  - by intros [= ->].
  - intros Hi. f_equal. by apply IH.
Qed.

Lemma alter_inserted {A} f i (l : list A) x y :
  l !! i = Some x -> alter f i (<[i := y]> l) = <[i := f y]> l.
Proof.
  revert i. induction l as [|z l IH]; intros [|i]; cbn; [done..|].
  intros Hi. f_equal. by eapply IH.
Qed.

(** The two writes succeed. *)
Definition writes_ok (s : daemon) : Prop := Forall (eq true) (take 2 (d_calls s)).

Lemma handover_exact id li k c o s :
  table s !! id = Some c -> objects s !! c = Some o -> d_lockers s !! li = Some k ->
  dl_write_sequence k < 2147483647 -> writes_ok s ->
  exists s', flom_accept_loop_transfer_conn id li c s = (inr tt, s') /\
    d_lockers s' = <[li := handed (cs_domain (n_conns (d_net s))) (c_fd o) c k]> (d_lockers s) /\
    table s' = remove_index_fast id (table s) /\
    objects s' = <[c := set_conn_state FLOM_CONN_STATE_LOCKER o]> (objects s).
Proof.
  destruct s as [[cs w cl] lk cf sent calls ps acs rs dg]. unfold table, objects, writes_ok. cbn.
  intros Hi Ho Hk Hs Hw.
  unfold flom_accept_loop_transfer_conn, flom_locker_array_get, flom_conns_get_conn,
    flom_conns_trns_fd, on_dworld, on_dnet, on_nworld, store, deref, upd_dlocker, zoom, mbind,
    M_bind, gets, modify. cbn.
  rewrite Hk. cbn. rewrite Hi. cbn. rewrite Ho. cbn.
  replace (2147483647 <=? dl_write_sequence k) with false by (symmetry; apply Z.leb_gt; lia). cbn.
  assert (Hl : alter (push_pipe (ReadConn c)) li (alter (push_pipe (ReadToken (cs_domain cs) (c_fd o)
      (dl_write_sequence k + 1))) li (alter (set_write_sequence (dl_write_sequence k + 1)) li lk)) =
    <[li := handed (cs_domain cs) (c_fd o) c k]> lk).
  { rewrite (alter_insert _ _ lk k Hk), !(alter_inserted _ _ lk k) by done.
    f_equal. unfold push_pipe, handed. cbn. by rewrite <- app_assoc. }
  rewrite <- Hl.
  destruct calls as [|b [|b' calls]]; cbn in Hw; repeat apply Forall_cons in Hw as [<- Hw];
    unfold sys_call; cbn; unfold flom_conns_get_conn, gets; cbn; rewrite Hi; cbn; rewrite Ho; cbn;
    eexists; split_and!; reflexivity.
Qed.

(** What the locker reads of it *)
Lemma import_exact domain fd sequence c rest (ls : lstate rsrc_data) :
  l_reads ls = ReadToken domain fd sequence :: ReadConn c :: rest ->
  exists ls', import_connection ls = (inr c, ls') /\
    l_reads ls' = rest /\ l_locker ls' = set_read_sequence sequence (l_locker ls) /\
    n_world (l_net ls') = n_world (l_net ls) /\
    cs_array (n_conns (l_net ls')) = (cs_array (n_conns (l_net ls)) ++ [c])%list /\
    cs_domain (n_conns (l_net ls')) = domain.
Proof.
  destruct ls as [k [cs w cl] dl reads recvs]. cbn. intros ->. by eexists.
Qed.

(** ** The answer of the daemon itself *)
Definition after_reply (c : conn_ref) (o : flom_conn) (text : string) (w : world) : world :=
  World (<[c := set_last_step (2 * FLOM_MSG_STEP_INCR) o]> (w_conns w)) (w_vfs w)
    (w_sent w ++ [(c, text)]) (tail (w_sends w)) (w_mallocs w) (w_clock w) (w_machine_id w).

Lemma daemon_reply_exact c o rc mid text w :
  w_conns w !! c = Some o -> writable o = true -> sends_ok w -> w_machine_id w = Some mid ->
  flom_msg_serialize FLOM_NETWORK_BUFFER_SIZE (lock_answer mid rc None) = inr text ->
  flom_accept_loop_reply c rc w = (inr tt, after_reply c o text w).
Proof.
  intros Ho Hw Hs Hm Ht. unfold flom_accept_loop_reply, mbind, M_bind, gets. rewrite Hm.
  change (flom_msg_build_answer (Some mid) FLOM_MSG_VERB_LOCK (2 * FLOM_MSG_STEP_INCR) rc None
    flom_msg_init) with (@inr err unit tt, lock_answer mid rc None).
  cbn [of_result]. unfold mret, M_ret. rewrite Ht. cbn [of_result].
  change (mret ?a) with (fun s : world => (@inr err _ a, s)). cbn beta iota.
  rewrite (conn_send_ok _ o) by done. unfold flom_conn_set_last_step, deref, mbind, M_bind, gets.
  cbn. by rewrite Ho.
Qed.

Lemma wp_daemon_world {A} (m : Wm A) r w' (Q : err + A -> daemon -> Prop) s :
  m (n_world (d_net s)) = (r, w') -> Q r (put_dnet (put_nworld w' (d_net s)) s) ->
  wp (on_dworld m) Q s.
Proof. intros E HQ. unfold wp, on_dworld, on_dnet, on_nworld, zoom. by rewrite E. Qed.

(** ** Theorems *)

(** C38: refinement.  A request for a resource that has a live locker is given
    to the first one that answers for its name: two writes to its pipe, and
    the client leaves the daemon's table.  The thread of that locker reads
    from them the same connection, adds it to its own table, and reports the
    sequence number the daemon has reached: the daemon takes a locker for idle
    only when it has nothing left to read. *)
Theorem request_handed_over id c o b n li k s :
  first_request id c o b n s ->
  list_find (answers n) (d_lockers s) = Some (li, k) ->
  dl_write_sequence k < 2147483647 -> writes_ok s ->
  let k' := handed (cs_domain (n_conns (d_net s))) (c_fd o) c k in
  exists s', flom_accept_loop_transfer id s = (inr tt, s') /\
    d_lockers s' = <[li := k']> (d_lockers s) /\
    table s' = remove_index_fast id (table s) /\
    objects s' = <[c := set_conn_state FLOM_CONN_STATE_LOCKER o]> (objects s) /\
    forall (ls : lstate rsrc_data) rest, l_reads ls = (skipn (length (dl_pipe k)) (dl_pipe k') ++ rest)%list ->
      exists ls', import_connection ls = (inr c, ls') /\ l_reads ls' = rest /\
        l_locker ls' = set_read_sequence (dl_write_sequence k') (l_locker ls) /\
        cs_array (n_conns (l_net ls')) = (cs_array (n_conns (l_net ls)) ++ [c])%list.
Proof.
  intros Hreq Hf Hs Hw k'. pose proof Hreq as [Hr Hi Ho _ _ _ _ _].
  assert (Hk : d_lockers s !! li = Some k) by by apply list_find_Some in Hf as [? _].
  destruct (handover_exact id li k c o s) as (s' & E & Hl & Ht & Hob); [done..|].
  assert (Hx : wp (flom_accept_loop_transfer id) (fun r s1 => (r, s1) = (inr tt, s')) s).
  { eapply wp_request; [exact Hreq|]. rewrite Hf. unfold wp. by rewrite E. }
  unfold wp in Hx. rewrite <- surjective_pairing in Hx. exists s'. split_and!; [done..|].
  intros ls rest Hrd. cbn [k' handed dl_pipe] in Hrd. rewrite drop_app_length in Hrd.
  destruct (import_exact _ _ _ _ _ _ Hrd) as (ls' & E' & Hr' & Hlk & _ & Ha & _). by exists ls'.
Qed.

(** functional.  A request for a resource nobody serves, from a client that
    must not create it: a client that cannot wait is told so and refused, one
    that can wait is told that it waits and marked; no locker is started, and
    the client stays in the daemon's table in both cases. *)
Theorem request_without_locker id c o b n mid text s :
  first_request id c o b n s ->
  list_find (answers n) (d_lockers s) = None -> l8_create b = 0 ->
  writable o = true -> sends_ok (n_world (d_net s)) ->
  w_machine_id (n_world (d_net s)) = Some mid ->
  flom_msg_serialize FLOM_NETWORK_BUFFER_SIZE (lock_answer mid
    (if l8_wait b =? 0 then FLOM_RC_LOCK_CANT_WAIT else FLOM_RC_LOCK_WAIT_RESOURCE) None) = inr text ->
  exists s', flom_accept_loop_transfer id s = (inr tt, s') /\
    d_lockers s' = d_lockers s /\ table s' = table s /\
    w_sent (n_world (d_net s')) = (w_sent (n_world (d_net s)) ++ [(c, text)])%list /\
    objects s' !! c = Some (set_last_step (2 * FLOM_MSG_STEP_INCR)
                              (if l8_wait b =? 0 then o else set_wait true o)).
Proof.
  intros Hreq Hf Hc Hw Hs Hm Ht. pose proof (fr_object _ _ _ _ _ _ Hreq) as Ho.
  cut (wp (flom_accept_loop_transfer id) (fun r s' => r = inr tt /\
    d_lockers s' = d_lockers s /\ table s' = table s /\
    w_sent (n_world (d_net s')) = (w_sent (n_world (d_net s)) ++ [(c, text)])%list /\
    objects s' !! c = Some (set_last_step (2 * FLOM_MSG_STEP_INCR)
                              (if l8_wait b =? 0 then o else set_wait true o))) s).
  { unfold wp. destruct (flom_accept_loop_transfer id s) as [r s']. cbn. intros [-> ?]. by exists s'. }
  eapply wp_request; [exact Hreq|]. rewrite Hf, Hc. cbn [Z.eqb].
  destruct (l8_wait b =? 0).
  - unfold refuse. wp_step. eapply wp_daemon_world; [by eapply daemon_reply_exact|]. cbn beta iota.
    wp_step. unfold wp at 1, sys_call. cbn. unfold objects. destruct (d_calls s); apply wp_ret; cbn; by rewrite lookup_insert_eq.
  - unfold put_into_incubator. wp_step.
    eapply wp_daemon_world; [by eapply daemon_reply_exact|]. cbn beta iota.
    wp_step. eapply wp_daemon_world; [unfold store, deref, mbind, M_bind, gets; cbn; by rewrite lookup_insert_eq|].
    cbn beta iota. wp_step. eapply wp_daemon_world.
    { unfold deref, mbind, M_bind, gets. cbn. by rewrite lookup_insert_eq. }
    cbn beta iota. unfold wp, on_dworld, on_dnet, on_nworld, zoom, on_vfs. cbn.
    destruct (flom_vfs_ram_tree_add_incubator_conn _ _ _ _ _). unfold objects, table. cbn.
    rewrite lookup_insert_eq. by destruct o.
Qed.
End handover.

(** ** Concrete daemons

    Connection 9 is the listener; the clients have said nothing yet, or their
    message is in [msgs]. *)
Definition demo_config : daemon_config := Daemon_config 5000 false false false None 28015.
Definition demo_peer (c : conn_ref) (wait : bool) (m : flom_msg) : flom_conn :=
  Conn (10 + Z.pos c) FLOM_CONN_STATE_DAEMON wait 0 (Some "10.0.0.1/4000"%string) false
    (10 + Z.pos c) m.
Definition demo_daemon (clients : list (conn_ref * flom_conn)) (lockers : list dlocker)
    (recvs : list recv_result) : daemon :=
  DState (Net (Conns (9%positive :: map fst clients) AF_UNIX 3)
            (World (<[9%positive := demo_peer 9%positive false flom_msg_init]> (list_to_map clients))
               (RamTree false None 0 [] []) [] [] [] [] (Some demo_mid)) [])
    lockers demo_config [] [] [Some (7, 8); Some (17, 18)] [] recvs None.

Definition demo_events : list markup_event :=
  document_events (message_document (m_header demo_msg) demo_children).
Definition demo_first : daemon :=
  demo_daemon [(2%positive, demo_peer 2%positive false flom_msg_init)] [] [RecvData demo_events true].

Definition demo_accept (l : list revents) (s : daemon) : (err + option bool) * daemon :=
  @accept_round demo_glib demo_calendar false (fun _ _ => PollReady l) s.

(** After the first request there is one locker, and it is live. *)
Definition demo_printer : dlocker :=
  DLocker (Locker 4 7 0 0 5000 (Some "printer[4]"%string)
             (NumericData (Numeric 4 0 [] []))) 8 1 [ReadToken 1 12 1; ReadConn 2%positive].

Example demo_first_round :
  ((demo_accept [quiet; readable] demo_first).1,
   d_lockers (demo_accept [quiet; readable] demo_first).2,
   table (demo_accept [quiet; readable] demo_first).2) =
  (inr (Some false), [demo_printer], [9%positive]).
Proof. vm_compute. reflexivity. Qed.

Lemma one_locker_per_resource_witness :
  d_lockers (demo_accept [quiet; readable] demo_first).2 = [demo_printer] /\ (0 = 0)%nat.
Proof.
  split; [vm_compute; reflexivity|].
  refine (@one_locker_per_resource demo_glib demo_calendar demo_first
    (demo_accept [quiet; readable] demo_first).2 0 0 demo_printer demo_printer eq_refl
    (rtc_once _ _ _) _ _ eq_refl eq_refl eq_refl).
  - exact (@step_accept demo_glib demo_calendar false (fun _ _ => PollReady [quiet; readable]) demo_first).
  - vm_compute. reflexivity.
  - vm_compute. reflexivity.
Defined.



(** Clients that have sent a request for the resource of [demo_printer] *)
Definition demo_wish (create wait : Z) : flom_msg :=
  lock_request (Lock_8 (Some "peer"%string) (Some "printer[4]"%string) 0 wait 3 create 5000).
Definition demo_asking (create wait : Z) (lockers : list dlocker) : daemon :=
  demo_daemon [(2%positive, demo_peer 2%positive false (demo_wish create wait));
               (3%positive, demo_peer 3%positive true (demo_wish 0 1))] lockers [].

Lemma demo_asking_request create wait lockers :
  Forall (fun k => routable (dl_resource k)) lockers ->
  first_request 1 2%positive (demo_peer 2%positive false (demo_wish create wait))
    (Lock_8 (Some "peer"%string) (Some "printer[4]"%string) 0 wait 3 create 5000) "printer[4]"
    (demo_asking create wait lockers).
Proof. intros Hl. constructor; try reflexivity; [exact Hl|]. vm_compute. discriminate. Qed.

Lemma request_handed_over_witness :
  exists s', @flom_accept_loop_transfer demo_glib demo_calendar 1 (demo_asking 1 1 [demo_printer]) =
      (inr tt, s') /\
    d_lockers s' = [handed 1 12 2%positive demo_printer] /\
    table s' = [9; 3]%positive.
Proof.
  destruct (@request_handed_over demo_glib demo_calendar 1 2%positive _ _ "printer[4]" 0 demo_printer
    (demo_asking 1 1 [demo_printer])
    (demo_asking_request 1 1 [demo_printer] ltac:(repeat constructor; by eexists)))
    as (s' & E & Hl & Ht & _).
  - reflexivity.
  - vm_compute. reflexivity.
  - constructor.
  - exists s'. split; [exact E|]. split; [exact Hl | exact Ht].
Defined.

Lemma request_without_locker_witness :
  exists s' text, @flom_accept_loop_transfer demo_glib demo_calendar 1 (demo_asking 0 1 []) =
      (inr tt, s') /\
    w_sent (n_world (d_net s')) = [(2%positive, text)] /\
    objects s' !! 2%positive =
      Some (set_last_step 16 (set_wait true (demo_peer 2%positive false (demo_wish 0 1)))).
Proof.
  destruct (@request_without_locker demo_glib demo_calendar 1 2%positive _ _ "printer[4]" demo_mid
    (print_document (message_document (Header FLOM_MSG_LEVEL FLOM_MSG_VERB_LOCK 16)
       [session (Some demo_mid); answer (Answer FLOM_RC_LOCK_WAIT_RESOURCE None)]))
    (demo_asking 0 1 []) (demo_asking_request 0 1 [] ltac:(constructor)))
    as (s' & E & _ & _ & Hs & Ho).
  - reflexivity.
  - reflexivity.
  - reflexivity.
  - constructor.
  - reflexivity.
  - vm_compute. reflexivity.
  - exists s'. eexists. split; [exact E|]. split; [exact Hs | exact Ho].
Defined.

(** The client 3 waits for the resource that the client 2 creates. *)
Definition demo_created : daemon :=
  (@flom_accept_loop_transfer demo_glib demo_calendar 1 (demo_asking 1 1 [])).2.

Lemma new_locker_serves_waiters_witness :
  table demo_created = [9%positive] /\
  dl_pipe <$> d_lockers demo_created =
    [[ReadToken 1 12 1; ReadConn 2%positive; ReadToken 1 13 2; ReadConn 3%positive]] /\
  forall k, d_lockers demo_created !! 0%nat = Some k -> matches (dl_route k) "printer[4]" = true.
Proof.
  split; [vm_compute; reflexivity|]. split; [vm_compute; reflexivity|]. intros k Hk.
  refine (proj1 (@new_locker_serves_waiters demo_glib demo_calendar 1 2%positive _ _ "printer[4]"
    (demo_asking 1 1 []) demo_created k
    (demo_asking_request 1 1 [] ltac:(constructor)) eq_refl _ _ Hk)).
  - discriminate.
  - vm_compute. reflexivity.
Defined.

(** ** What goes wrong *)

(** The daemon of [demo_printer], to which the client 2 sends [events] *)
Definition demo_sending (events : list markup_event) (well_formed : bool) : daemon :=
  demo_daemon [(2%positive, demo_peer 2%positive false flom_msg_init)] [demo_printer]
    [RecvData events well_formed].
Definition demo_unlock_events : list markup_event :=
  document_events (message_document (Header FLOM_MSG_LEVEL FLOM_MSG_VERB_UNLOCK FLOM_MSG_STEP_INCR)
    [Child FLOM_MSG_TAG_RESOURCE
       [(FLOM_MSG_PROP_NAME, "printer[4]"%string); number FLOM_MSG_PROP_ROLLBACK 0] true]).

(** error.  One client ends the daemon for everybody: an unlock message as
    its first one, bytes that are not XML, or a socket error are errors of the
    accept loop, not of the connection; a live locker does not matter. *)
Theorem one_client_ends_daemon :
  (demo_accept [quiet; readable] (demo_sending demo_unlock_events true)).1 =
    inl (Rc FLOM_RC_PROTOCOL_ERROR) /\
  (demo_accept [quiet; readable] (demo_sending [] false)).1 =
    inl (Rc FLOM_RC_G_MARKUP_PARSE_CONTEXT_PARSE_ERROR) /\
  (demo_accept [quiet; Revents true false false false] (demo_sending [] true)).1 =
    inl (Rc FLOM_RC_NETWORK_EVENT_ERROR) /\
  is_live demo_printer = true.
Proof. vm_compute. split_and!; reflexivity. Qed.

(** The thread of [demo_printer], whose [poll] fails *)
Definition demo_dying : bool * locker rsrc_data :=
  let ls := LState (dl_locker demo_printer)
    (Net (Conns [] 0 0) (World ∅ (RamTree false None 0 [] []) [] [] [] (repeat (Some (Timeval 100 0)) 4)
       (Some demo_mid)) []) (Timeval 0 0) [] [] in
  let '(r, ls') := @flom_locker_loop demo_glib rsrc_data (@any_resource demo_glib demo_calendar)
                     9%positive [fun _ _ => PollFails] ls in
  (bool_decide (r = inr false), l_locker ls').

(** error.  A thread that an error has ended leaves its end of the pipe
    open, so its locker stays live for the daemon: the next client is written
    to a pipe that nobody reads, and hears nothing. *)
Theorem dead_thread_gets_clients :
  let k := DLocker demo_dying.2 8 1 [ReadToken 1 12 1; ReadConn 2%positive] in
  let '(r, s) := @flom_accept_loop_transfer demo_glib demo_calendar 1 (demo_asking 1 1 [k]) in
  demo_dying.1 = true /\ is_live k = true /\ r = inr tt /\
  dl_pipe <$> d_lockers s =
    [dl_pipe k ++ [ReadToken 1 12 2; ReadConn 2%positive]] /\
  w_sent (n_world (d_net s)) = [].
Proof. vm_compute. split_and!; reflexivity. Qed.

(** With a newline in its name a simple resource can be given to the locker of
    a tree: the name starts with the separator, but [REG_NEWLINE] lets its
    second line make it simple. *)
Definition demo_two_lines : string := ("/a" +:+ String newline "b")%string.
Example demo_misrouted :
  flom_rsrc_get_type demo_two_lines = FLOM_RSRC_TYPE_SIMPLE /\
  matches (Tree (Some ("a" +:+ String newline "b")%string)) demo_two_lines = true.
Proof. vm_compute. split; reflexivity. Qed.
