(* ===== verification/Wire.v ===== *)
(** * Wire: from the bytes of the network to a message

    What [flom_conn_recv] ([src/src/flom_conn.c]) and [flom_tcp_recv]
    ([src/src/flom_tcp.c]) take from a connection or a datagram, and what
    [flom_msg_deserialize] ([src/src/flom_msg.c]) makes of it: the inputs that
    [Locker], [Daemon] and [Client] start from, here computed from the bytes that
    the peer has sent. *)
From Stdlib Require Import ZArith String Ascii List Lia.
From stdpp Require Import base list gmap numbers strings.
From S2P Require Import Prelude Types CStr RsrcName Msg MsgXml MsgRound Recv.
From S2P Require Import World ConnLock Conns Locker Resource Rsrc Serve Daemon Dispatch Admission.
Local Open Scope string_scope.
Local Open Scope Z_scope.

(** ** The socket of a connection *)
Inductive socket_type : Type := SOCK_STREAM | SOCK_DGRAM | SOCK_OTHER.

(** Whether TLS is on it; the bytes of a stream; the datagrams that have
    arrived, [None] for a call of [recvfrom] that fails; and what [poll] returns
    (a descriptor is ready when nothing is said). *)
Record wire : Type := Wire {
  wr_type : socket_type;
  wr_tls : bool;
  wr_stream : socket;
  wr_datagrams : list (option (list ascii));
  wr_polls : list Z
}.
Definition put_stream (x : socket) (s : wire) : wire :=
  Wire (wr_type s) (wr_tls s) x (wr_datagrams s) (wr_polls s).
Definition put_datagrams (x : list (option (list ascii))) (s : wire) : wire :=
  Wire (wr_type s) (wr_tls s) (wr_stream s) x (wr_polls s).
Definition put_polls (x : list Z) (s : wire) : wire :=
  Wire (wr_type s) (wr_tls s) (wr_stream s) (wr_datagrams s) x.

Definition Nm (A : Type) : Type := M err wire A.
Definition on_stream {A} (m : Rm A) : Nm A := zoom wr_stream put_stream m.

Definition sys_poll : Nm Z := fun s =>
  match wr_polls s with [] => (inr 1, s) | x :: l => (inr x, put_polls l s) end.

(** [recvfrom] of at most [len] bytes: the rest of a datagram is lost. *)
Definition recvfrom (len : nat) : Nm (option (list ascii)) := fun s =>
  match wr_datagrams s with
  | [] => (inr None, s)
  | d :: l => (inr (take len <$> d), put_datagrams l s)
  end.

(** [size_t] and [gssize] *)
Definition size_t (z : Z) : Z := z mod 18446744073709551616.
Definition gssize (z : Z) : Z := (z + 9223372036854775808) mod 18446744073709551616 - 9223372036854775808.

(** ** [flom_tcp_recv]

    The result is [*received] and the bytes stored in the buffer, which may be
    fewer.  [*received] is a [size_t], and it is compared with zero after the
    result of [recvfrom] has been stored in it. *)
Definition flom_tcp_recv (len : nat) : Nm (Z * list ascii) :=
  ty ← gets wr_type;
  match ty with
  | SOCK_STREAM =>
      bytes ← on_stream (flom_tcp_recv_msg len);
      mret (Z.of_nat (length bytes), bytes)
  | SOCK_DGRAM =>
      d ← recvfrom len;
      let received := size_t (match d with Some bytes => Z.of_nat (length bytes) | None => -1 end) in
      if 0 >? received then throw (Rc FLOM_RC_RECVFROM_ERROR)
      else mret (received, default [] d)
  | SOCK_OTHER => throw (Rc FLOM_RC_INVALID_OPTION)
  end.

(** ** [flom_conn_recv] *)
Definition flom_conn_recv (len : nat) (timeout : Z) : Nm (Z * list ascii) :=
  _ ← when (timeout >? 0) (
        rc ← sys_poll;
        if rc =? -1 then throw (Rc FLOM_RC_POLL_ERROR)
        else if rc =? 0 then throw (Rc FLOM_RC_NETWORK_TIMEOUT)
        else if rc =? 1 then mret tt
        else throw (Rc FLOM_RC_INTERNAL_ERROR));
  tls ← gets wr_tls;
  if (tls : bool) then
    bytes ← on_stream (flom_tls_recv_msg len);
    mret (Z.of_nat (length bytes), bytes)
  else flom_tcp_recv len.

(** ** [flom_msg_deserialize]

    The markup parser of GLib: an object that is fed a text and keeps what it needs
    of it for the next one; it says the elements it calls the callbacks for, and
    whether it reports no error.  A negative length asks it to look for the end of
    the text, in a buffer of which only the bytes received are known. *)
Class Markup : Type := {
  parser : Type;
  new_parser : parser;
  parse_markup : string -> parser -> (list markup_event * bool) * parser
}.

Fixpoint text_until_nul (l : list ascii) : option (list ascii) :=
  match l with
  | [] => None
  | c :: l => if Ascii.eqb c "000" then Some [] else cons c <$> text_until_nul l
  end.
Definition parser_input (buffer : list ascii) (buffer_len : Z) : option (list ascii) :=
  let text_len := gssize buffer_len in
  if text_len <? 0 then text_until_nul buffer
  else if Z.of_nat (length buffer) <? text_len then None
  else Some (take (Z.to_nat text_len) buffer).

Section receive.
Context `{Glib, Markup}.

Definition flom_msg_deserialize (buffer : list ascii) (buffer_len : Z) (msg : flom_msg) (gmpc : parser)
    : (err + flom_msg) * parser :=
  match parser_input buffer buffer_len with
  | None => (inl Ub, gmpc)
  | Some text =>
      let '((events, well_formed), gmpc) := parse_markup (string_of_list_ascii text) gmpc in
      (match markup_callbacks events msg with
       | None => inl Ub
       | Some msg => if well_formed then inr msg else inl (Rc FLOM_RC_G_MARKUP_PARSE_CONTEXT_PARSE_ERROR)
       end, gmpc)
  end.

(** A connection to read from: its socket and its parser *)
Record reader : Type := Reader { rd_wire : wire; rd_parser : parser }.
Definition put_wire (x : wire) (s : reader) : reader := Reader x (rd_parser s).
Definition put_parser (x : parser) (s : reader) : reader := Reader (rd_wire s) x.
Definition Cn (A : Type) : Type := M err reader A.
Definition on_wire {A} (m : Nm A) : Cn A := zoom rd_wire put_wire m.
Definition with_parser {A} (f : parser -> A * parser) : Cn A := fun s =>
  let '(a, p) := f (rd_parser s) in (inr a, put_parser p s).

(** ** The input of a loop

    What the loops of the daemon, of a locker and of a client test for after
    [flom_conn_recv], with the elements that they give to the callbacks. *)
Definition arrival (len : nat) (timeout : Z) : Cn recv_result :=
  r ← attempt (on_wire (flom_conn_recv len timeout));
  match r with
  | inl rc => mret (RecvFails rc)
  | inr (received, buffer) =>
      if received =? 0 then mret RecvClosed
      else text ← of_option Ub (parser_input buffer received);
           '(events, well_formed) ← with_parser (parse_markup (string_of_list_ascii text));
           mret (RecvData events well_formed)
  end.

(** A connection read message after message, with one parser *)
Fixpoint receive_all (n : nat) (len : nat) (timeout : Z) : Cn (list flom_msg) :=
  match n with
  | O => mret []
  | S n =>
      r ← on_wire (flom_conn_recv len timeout);
      m ← with_parser (flom_msg_deserialize r.2 r.1 flom_msg_init);
      m ← of_result m;
      l ← receive_all n len timeout;
      mret (m :: l)
  end.
End receive.

(** ** The end of a message

    In the text of a message a tag that closes comes last, and once. *)
Definition open_char (c : ascii) : bool := Ascii.eqb c "<".
Fixpoint tame (l : list ascii) : bool :=
  match l with
  | [] => true
  | c :: l =>
      (if open_char c then match l with d :: _ => negb (Ascii.eqb d "/") | [] => false end else true)
      && tame l
  end.

Lemma tame_app a b : tame a = true -> tame b = true -> tame (a ++ b) = true.
Proof.
  induction a as [|c a IH]; [done|]. cbn [tame app]. intros [Hc Ha]%andb_prop Hb.
  rewrite IH by done. rewrite andb_true_r. destruct (open_char c); [|done].
  by destruct a.
Qed.

Lemma tame_plain l : forallb (fun c => negb (open_char c)) l = true -> tame l = true.
Proof.
  induction l as [|c l IH]; [done|]. cbn [forallb tame]. intros [Hc Hl]%andb_prop.
  rewrite IH by done. by destruct (open_char c).
Qed.

(** A beginning of what [a] and the tag make that ends with the tag is all. *)
Lemma tame_first a : tame a = true -> first_message (a ++ closing_tag).
Proof.
  intros Ha. split; [by exists a|]. intros p [q Hp] [k ->].
  revert a Ha q Hp. induction k as [|c k IH]; intros a Ha q Hp.
  - destruct a as [|x [|y a]]; [done| |].
    + unfold closing_tag in Hp. vm_compute in Hp. discriminate Hp.
    + exfalso. assert (x = "<"%char /\ y = "/"%char) as [-> ->] by (by injection Hp). discriminate Ha.
  - destruct a as [|x a].
    + exfalso. apply (f_equal length) in Hp. cbn in Hp. rewrite !length_app in Hp. cbn in Hp. lia.
    + injection Hp as -> Hp. cbn [tame] in Ha. apply andb_prop in Ha as [_ Ha]. cbn [app]. f_equal.
      by apply (IH a Ha q).
Qed.

(** *** The texts that are printed *)
Definition chars : string -> list ascii := list_ascii_of_string.
Lemma chars_app a b : chars (a +:+ b) = (chars a ++ chars b)%list.
Proof. induction a as [|c a IH]; [done|]. exact (f_equal (cons c) IH). Qed.

Lemma no_open_chars p s :
  (forall c, p c = true -> open_char c = false) -> all_chars p s = true ->
  forallb (fun c => negb (open_char c)) (chars s) = true.
Proof.
  intros Hp. induction s as [|c s IH]; [done|]. cbn [all_chars chars list_ascii_of_string forallb].
  intros [Hc Hs]%andb_prop. rewrite (Hp c Hc). by apply IH.
Qed.
Lemma plain_not_open c : plain_char c = true -> open_char c = false.
Proof. unfold open_char. destruct (Ascii.eqb_spec c "<") as [->|]; [done | done]. Qed.
Lemma letter_not_open c : letter c = true -> open_char c = false.
Proof. unfold open_char. destruct (Ascii.eqb_spec c "<") as [->|]; [done | done]. Qed.

Lemma tame_of_plain s : plain s = true -> tame (chars s) = true.
Proof. intros H. apply tame_plain. by apply (no_open_chars plain_char); [apply plain_not_open|]. Qed.
Lemma tame_of_word s : word s = true -> tame (chars s) = true.
Proof.
  intros [_ H]%andb_prop. apply tame_plain. by apply (no_open_chars letter); [apply letter_not_open|].
Qed.

Lemma tame_attributes l : attributes_ok l = true -> tame (chars (attributes l)) = true.
Proof.
  unfold attributes. induction l as [|[n v] l IH]; [done|]. cbn [attributes_ok forallb map].
  intros [[Hn Hv]%andb_prop Hl]%andb_prop. specialize (IH Hl).
  assert (Ha : tame (chars (attribute (n, v))) = true).
  { unfold attribute. cbn [fst snd] in *. rewrite !chars_app.
    repeat (apply tame_app; [first [done | by apply tame_of_word | by apply tame_of_plain]|]). done. }
  destruct (map attribute l) as [|x l'] eqn:E; [by cbn [String.concat]|].
  change (String.concat "" (attribute (n, v) :: x :: l')) with
    (attribute (n, v) +:+ String.concat "" (x :: l')).
  rewrite chars_app. by apply tame_app.
Qed.

Lemma tame_tag tag l more :
  word tag = true -> attributes_ok l = true -> tame more = true ->
  tame (chars ("<" +:+ tag +:+ attributes l) ++ more) = true.
Proof.
  intros Ht Hl Hm. apply tame_app; [|done]. rewrite !chars_app.
  assert (Hta := tame_app _ _ (tame_of_word _ Ht) (tame_attributes _ Hl)).
  cbn [chars list_ascii_of_string app tame]. rewrite Hta, andb_true_r. cbn.
  unfold word in Ht. destruct tag as [|c tag]; [done|]. cbn in Ht |- *.
  apply andb_prop in Ht as [Hc _]. destruct (Ascii.eqb_spec c "/") as [->|]; done.
Qed.

Lemma tame_children l :
  forallb (fun c => word (ch_tag c) && attributes_ok (ch_attributes c)) l = true ->
  tame (chars (print_children l)) = true.
Proof.
  induction l as [|c l IH]; [done|]. cbn [forallb print_children].
  intros [[Ht Ha]%andb_prop Hl]%andb_prop. rewrite chars_app. apply tame_app; [|by apply IH].
  unfold print_child, empty_tag.
  assert (E : forall e, chars ("<" +:+ ch_tag c +:+ attributes (ch_attributes c) +:+ e) =
    (chars ("<" +:+ ch_tag c +:+ attributes (ch_attributes c)) ++ chars e)%list).
  { intros e. by rewrite !chars_app, <- !app_assoc. }
  destruct (ch_blank c); rewrite E; by apply tame_tag.
Qed.

Lemma document_first d : document_ok d = true -> first_message (chars (print_document d)).
Proof.
  unfold document_ok. intros [Ha Hc]%andb_prop. unfold print_document, open_tag.
  assert (E : forall a b c e f, chars (a +:+ ((b +:+ FLOM_MSG_TAG_MSG +:+ c +:+ e) +:+ (f +:+ close_tag FLOM_MSG_TAG_MSG))) =
    ((chars a ++ (chars (b +:+ FLOM_MSG_TAG_MSG +:+ c) ++ chars e) ++ chars f) ++ closing_tag)%list).
  { intros. unfold closing_tag. change (list_ascii_of_string) with chars.
    by rewrite !chars_app, <- !app_assoc. }
  rewrite E. apply tame_first. apply tame_app; [vm_compute; reflexivity|]. apply tame_app.
  - by apply tame_tag.
  - by apply tame_children.
Qed.
Lemma document_long d : (11 <= length (chars (print_document d)))%nat.
Proof.
  assert (Hh : (11 <= length (chars xml_header))%nat) by (apply Nat.leb_le; vm_compute; reflexivity).
  unfold print_document. rewrite chars_app, length_app. lia.
Qed.

(** ** Theorems *)

(** The receiver is a stream, or TLS over one; [poll] finds it ready. *)
Definition streaming (s : wire) : Prop := wr_tls s = true \/ wr_type s = SOCK_STREAM.
Definition ready (s : wire) : Prop := Forall (eq 1) (wr_polls s).

Lemma wp_on_stream {A} (m : Rm A) (Q : err + A -> wire -> Prop) s :
  wp m (fun r k => Q r (put_stream k s)) (wr_stream s) -> wp (on_stream m) Q s.
Proof. intros Hm. unfold on_stream. by wp_step. Qed.

(** [poll] lets the reception go on, or makes it fail. *)
Lemma wp_conn_recv len timeout (Q : err + (Z * list ascii) -> wire -> Prop) s :
  (forall rc p, ~ ready s -> Q (inl (Rc rc)) (put_polls p s)) ->
  (forall p, (ready s -> ready (put_polls p s)) ->
     wp (tls ← gets wr_tls;
         if (tls : bool) then bytes ← on_stream (flom_tls_recv_msg len); mret (Z.of_nat (length bytes), bytes)
         else flom_tcp_recv len) Q (put_polls p s)) ->
  wp (flom_conn_recv len timeout) Q s.
Proof.
  intros Hfail Hgo. unfold flom_conn_recv.
  assert (Hid : put_polls (wr_polls s) s = s) by by destruct s.
  wp_step. destruct (timeout >? 0); cbn [when]; wp_step.
  - unfold sys_poll, wp at 1. destruct (wr_polls s) as [|x l] eqn:E.
    + cbn. specialize (Hgo []). rewrite Hid in Hgo. by apply Hgo.
    + cbn. assert (Hx : x <> 1 -> ~ ready s).
      { intros Hx Hr. unfold ready in Hr. rewrite E in Hr. inversion Hr. congruence. }
      destruct (Z.eqb_spec x (-1)); [wp_step; apply Hfail; apply Hx; lia|].
      destruct (Z.eqb_spec x 0); [wp_step; apply Hfail; apply Hx; lia|].
      destruct (Z.eqb_spec x 1); [|wp_step; apply Hfail; by apply Hx].
      wp_step. apply Hgo. unfold ready. rewrite E. cbn. by intros [_ Hl]%Forall_cons.
  - specialize (Hgo (wr_polls s)). rewrite Hid in Hgo. by apply Hgo.
Qed.

(** A reception from a stream is that of one message from its bytes. *)
Lemma wp_stream_recv len timeout (Q : err + (Z * list ascii) -> wire -> Prop) s :
  streaming s -> (forall rc p, ~ ready s -> Q (inl (Rc rc)) (put_polls p s)) ->
  (forall e p, (ready s -> ready (put_polls p s)) ->
     wp (recv_msg e len) (fun r k => Q (match r with inl x => inl x | inr m => inr (Z.of_nat (length m), m) end)
       (put_stream k (put_polls p s))) (wr_stream s)) ->
  wp (flom_conn_recv len timeout) Q s.
Proof.
  intros Hs Hfail HQ. apply wp_conn_recv; [done|]. intros p Hr.
  assert (Hone : forall e, wp (bytes ← on_stream (recv_msg e len); mret (Z.of_nat (length bytes), bytes)) Q
    (put_polls p s)).
  { intros e. wp_step. apply wp_on_stream. eapply wp_mono; [|apply (HQ e p Hr)]. by intros [x|m] k. }
  do 2 wp_step. change (wr_tls (put_polls p s)) with (wr_tls s).
  destruct (wr_tls s) eqn:Et; [apply Hone|].
  unfold flom_tcp_recv. do 2 wp_step. change (wr_type (put_polls p s)) with (wr_type s).
  destruct Hs as [?|Hs]; [congruence|]. rewrite Hs. apply Hone.
Qed.

Lemma wp_on_wire `{Markup} {A} (m : Nm A) (Q : err + A -> reader -> Prop) s :
  wp m (fun r w => Q r (put_wire w s)) (rd_wire s) -> wp (on_wire m) Q s.
Proof. intros Hm. unfold on_wire. by wp_step. Qed.
Lemma wp_with_parser `{Markup} {A} (f : parser -> A * parser) a p (Q : err + A -> reader -> Prop) s :
  f (rd_parser s) = (a, p) -> Q (inr a) (put_parser p s) -> wp (with_parser f) Q s.
Proof. intros Hf HQ. unfold wp, with_parser. by rewrite Hf. Qed.

Lemma whole_input m : Z.of_nat (length m) < 2 ^ 63 -> parser_input m (Z.of_nat (length m)) = Some m.
Proof.
  intros Hn. unfold parser_input. assert (Eg : gssize (Z.of_nat (length m)) = Z.of_nat (length m)).
  { unfold gssize. rewrite Z.mod_small by lia. lia. }
  rewrite Eg. destruct (Z.ltb_spec (Z.of_nat (length m)) 0); [lia|].
  destruct (Z.ltb_spec (Z.of_nat (length m)) (Z.of_nat (length m))); [lia|].
  by rewrite Nat2Z.id, take_ge by lia.
Qed.

Section messages.
Context `{Glib, Markup}.
(** A parser that is not within an element calls the callbacks for the elements of
    a document that needs no escaping, in document order, reports no error, and is
    not within an element after it; base64 can be decoded, and needs no escaping. *)
Variable at_rest : parser -> Prop.
Hypothesis parse_law : forall d p, document_ok d = true -> at_rest p ->
  exists p', parse_markup (print_document d) p = ((document_events d, true), p') /\ at_rest p'.
Hypothesis base64_back : forall s e, g_base64_encode s = Some e -> g_base64_decode e = Some s.
Hypothesis base64_plain : forall s e, g_base64_encode s = Some e -> plain e = true.

(** A message of the protocol, the text it is serialized to by its sender, which
    fits in the buffer of its receiver, and what arrives *)
Definition sent_as (buffer_len : Z) (len : nat) (m : flom_msg) (text : string) : Prop :=
  (exists l, sendable (msg_verb m) (msg_step m) (m_body m) l) /\ sized (m_body m) /\
  h_level (m_header m) = FLOM_MSG_LEVEL /\
  flom_msg_serialize buffer_len m = inr text /\ (length (chars text) < len)%nat.
Definition arrived (m : flom_msg) : flom_msg :=
  Msg FLOM_MSG_STATE_READY (m_header m) (received (m_body m)).

Lemma deserialize_whole m l p : at_rest p ->
  sendable (msg_verb m) (msg_step m) (m_body m) l -> sized (m_body m) ->
  h_level (m_header m) = FLOM_MSG_LEVEL ->
  let text := chars (message_text (m_header m) l) in
  Z.of_nat (length text) < 2 ^ 63 ->
  exists p', flom_msg_deserialize text (Z.of_nat (length text)) flom_msg_init p = (inr (arrived m), p') /\
    at_rest p'.
Proof using parse_law base64_back base64_plain.
  intros Hp Hs Hz Hl text Hn. unfold flom_msg_deserialize.
  rewrite whole_input by done. unfold text, chars. rewrite string_of_list_ascii_of_string.
  destruct (parse_law (message_document (m_header m) l) p) as (p' & Hp' & Hr); [by eapply sendable_ok | done|].
  exists p'. unfold message_text. rewrite Hp'.
  change (document_events (message_document (m_header m) l)) with (message_events (m_header m) l).
  by rewrite msg_events_received.
Qed.

Lemma serialized_text buffer_len m l text :
  sendable (msg_verb m) (msg_step m) (m_body m) l -> flom_msg_serialize buffer_len m = inr text ->
  text = message_text (m_header m) l.
Proof using.
  intros Hs E. unfold flom_msg_serialize in E. rewrite (serialize_emits _ m l Hs) in E.
  destruct (Z.lt_ge_cases (strlen (message_text (m_header m) l)) buffer_len).
  - rewrite emits_fits, document_text in E by (by rewrite document_text). by injection E as <-.
  - destruct (emits buffer_len _ "") as [r buf] eqn:Er.
    assert (Hr : r = inl (Rc FLOM_RC_CONTAINER_FULL)); [|by rewrite Hr in E].
    change r with (r, buf).1. rewrite <- Er. apply emits_full; [by right|]. by rewrite document_text.
Qed.

(** C18: roundtrip.  Messages of the protocol, each of whose texts is shorter than the
    buffer it is received into, serialized one after the other on a
    connection, plain or with TLS, are received one by one, in their order and
    each one complete, however their bytes are split among the reads and with one
    parser object for all of them, and whatever follows them stays on the
    connection; nothing is lost between the end of a message and the beginning of
    the next.  (A longer one is refused: [Recv.long_request_refused].) *)
Theorem messages_arrive_in_order buffer_len len timeout ms texts rest reads s :
  (12 <= len)%nat -> Z.of_nat len <= 2 ^ 63 -> Forall2 (sent_as buffer_len len) ms texts ->
  Forall is_Some reads -> streaming (rd_wire s) -> ready (rd_wire s) -> at_rest (rd_parser s) ->
  wr_stream (rd_wire s) = Socket (concat (map chars texts) ++ rest) reads ->
  wp (receive_all (length ms) len timeout) (fun r s' =>
    r = inr (map arrived ms) /\ sk_in (wr_stream (rd_wire s')) = rest) s.
Proof using parse_law base64_back base64_plain.
  intros Hlen Hmax Hm. revert reads s. induction Hm as [|m text ms texts Hsent _ IH];
    intros reads s Hr Hst Hp Hrest Hin; cbn [length receive_all].
  { wp_step. split; [done|]. by rewrite Hin. }
  destruct Hsent as ([l Hs] & Hz & Hl & Ht & Hfit).
  apply (serialized_text _ _ l) in Ht as ->; [|done]. set (text := message_text (m_header m) l) in *.
  assert (Hok : document_ok (message_document (m_header m) l) = true) by by eapply sendable_ok.
  wp_step. apply wp_on_wire, wp_stream_recv; [done | by intros|]. intros e p Hp'. specialize (Hp' Hp).
  rewrite Hin. cbn [map concat]. rewrite <- app_assoc.
  eapply wp_mono; [|apply (recv_msg_framed e len (chars text) (concat (map chars texts) ++ rest));
    [by apply document_first | apply document_long | done | done]].
  intros r k. unfold framed. rewrite (proj2 (Nat.ltb_lt _ _)) by done. intros (-> & Hk & Hrk).
  cbn beta iota. wp_step. cbn [fst snd]. unfold text.
  destruct (deserialize_whole m l (rd_parser s) Hrest Hs Hz Hl) as (p' & Hd & Hrest'); [fold text; lia|].
  eapply wp_with_parser; [exact Hd|]. wp_step. cbn [of_result]. do 2 wp_step. cbn beta iota.
  eapply wp_mono; [|apply (IH (sk_reads k))].
  - intros r' s' [-> Hk']. cbn beta iota. wp_step. by split.
  - done.
  - exact Hst.
  - exact Hp'.
  - exact Hrest'.
  - destruct k. cbn in *. by rewrite Hk.
Qed.

(** functional.  A message on a connection is, for a loop, the elements of its
    text: what the two ends of an exchange hear of each other is what the bytes
    of the network say. *)
Theorem message_arrives buffer_len len timeout m text rest reads s :
  (12 <= len)%nat -> Z.of_nat len <= 2 ^ 63 -> sent_as buffer_len len m text ->
  Forall is_Some reads -> streaming (rd_wire s) -> ready (rd_wire s) -> at_rest (rd_parser s) ->
  wr_stream (rd_wire s) = Socket (chars text ++ rest) reads ->
  wp (arrival len timeout) (fun r s' => exists events,
    parse_markup text (rd_parser s) = ((events, true), rd_parser s') /\ at_rest (rd_parser s') /\
    r = inr (RecvData events true) /\
    markup_callbacks events flom_msg_init = Some (arrived m) /\ sk_in (wr_stream (rd_wire s')) = rest) s.
Proof using parse_law base64_back base64_plain.
  intros Hlen Hmax ([l Hs] & Hz & Hl & Ht & Hfit) Hr Hst Hp Hrest Hin.
  apply (serialized_text _ _ l) in Ht as ->; [|done]. set (text := message_text (m_header m) l) in *.
  assert (Hok : document_ok (message_document (m_header m) l) = true) by by eapply sendable_ok.
  unfold arrival. do 2 wp_step. apply wp_on_wire, wp_stream_recv; [done | by intros|]. intros e p _. rewrite Hin.
  eapply wp_mono; [|apply (recv_msg_framed e len (chars text) rest);
    [by apply document_first | apply document_long | done | done]].
  intros r k. unfold framed. rewrite (proj2 (Nat.ltb_lt _ _)) by done. intros (-> & Hk & _).
  cbn beta iota. assert (Hlong : (11 <= length (chars text))%nat) by apply document_long.
  destruct (Z.eqb_spec (Z.of_nat (length (chars text))) 0); [lia|].
  wp_step. rewrite whole_input by lia. cbn [of_option]. wp_step.
  unfold chars at 1. rewrite string_of_list_ascii_of_string.
  destruct (parse_law (message_document (m_header m) l) (rd_parser s) Hok Hrest) as (p' & Hpa & Hrest').
  wp_step. eapply wp_with_parser; [exact Hpa|]. cbn beta iota. wp_step.
  exists (message_events (m_header m) l). split_and!; [exact Hpa | exact Hrest' | done | | exact Hk].
  by apply msg_events_received.
Qed.
End messages.

(** ** What the loops start from *)
Section arrivals.
Context `{Markup}.

(** What a loop sees of a connection: an error, or the elements of the bytes up
    to a closing tag *)
Definition seen (s : reader) (r : recv_result) (s' : reader) : Prop :=
  match r with
  | RecvFails _ => True
  | RecvClosed => False
  | RecvData events well_formed => exists m,
      sk_in (wr_stream (rd_wire s)) = (m ++ sk_in (wr_stream (rd_wire s')))%list /\ closing_tag `suffix_of` m /\
      parse_markup (string_of_list_ascii m) (rd_parser s) = ((events, well_formed), rd_parser s')
  end.

(** refinement.  Whatever the peer of a stream sends, and whatever [poll] and
    the reads answer, the loops of the program start from an error or from the
    elements that the parser finds in the bytes up to the next closing tag: the
    bytes received are those that are parsed, and a closed connection is an
    error, never an empty message. *)
Theorem stream_arrivals len timeout s :
  (12 <= len)%nat -> Z.of_nat len <= 2 ^ 63 -> streaming (rd_wire s) ->
  wp (arrival len timeout) (fun r s' => exists x, r = inr x /\ seen s x s') s.
Proof.
  intros Hlen Hmax Hs. unfold arrival. do 2 wp_step. apply wp_on_wire, wp_stream_recv; [done|..].
  { intros rc p _. cbn beta iota. wp_step. by eexists. }
  intros e p _. eapply wp_mono; [|by apply (recv_msg_delivers e len (sk_in (wr_stream (rd_wire s))) Hlen)].
  intros [x|m] k; cbn beta iota.
  - intros [-> | ->]; cbn beta iota; wp_step; by eexists.
  - intros (Hin & Ht & H1 & H2). destruct (Z.eqb_spec (Z.of_nat (length m)) 0); [lia|].
    wp_step. rewrite whole_input by lia. cbn [of_option]. wp_step.
    destruct (parse_markup (string_of_list_ascii m) (rd_parser s)) as [[events ok] p'] eqn:Ep.
    wp_step. eapply wp_with_parser; [exact Ep|]. cbn beta iota. wp_step.
    eexists. split; [done|]. exists m. by split_and!.
Qed.

(** What a datagram is to the loop of the daemon: its elements; the end of the
    connection when it is empty; and when [recvfrom] fails the parser is given a
    buffer where nothing has been stored. *)
Theorem datagram_arrivals len timeout s :
  Z.of_nat len <= 2 ^ 63 - 1 -> wr_tls (rd_wire s) = false -> wr_type (rd_wire s) = SOCK_DGRAM ->
  ready (rd_wire s) ->
  wp (arrival len timeout) (fun r s' => match wr_datagrams (rd_wire s) with
    | Some [] :: _ => r = inr RecvClosed
    | Some d :: _ => (0 < len)%nat ->
        r = inr (let '(events, ok) := (parse_markup (string_of_list_ascii (take len d)) (rd_parser s)).1 in
                 RecvData events ok)
    | _ => r = inl Ub
    end) s.
Proof.
  intros Hlen Ht Hd Hr. unfold arrival. do 2 wp_step. apply wp_on_wire, wp_conn_recv; [done|]. intros p _.
  set (w := rd_wire s) in *.
  do 2 wp_step. change (wr_tls (put_polls p w)) with (wr_tls w). rewrite Ht.
  unfold flom_tcp_recv. do 2 wp_step. change (wr_type (put_polls p w)) with (wr_type w). rewrite Hd.
  wp_step. unfold wp at 1, recvfrom. change (wr_datagrams (put_polls p w)) with (wr_datagrams w).
  assert (Hz : forall x, (0 >? size_t x) = false).
  { intros x. unfold size_t. pose proof (Z.mod_pos_bound x 18446744073709551616).
    destruct (Z.gtb_spec 0 (x mod 18446744073709551616)); [lia | done]. }
  destruct (wr_datagrams w) as [|[[|c d]|] l] eqn:El; cbn [fst snd fmap option_fmap option_map default];
    rewrite Hz; wp_step; cbn beta iota.
  - by vm_compute.
  - rewrite take_nil. by wp_step.
  - assert (Hn : (length (take len (c :: d)) <= len)%nat) by (rewrite length_take; lia).
    unfold size_t. rewrite Z.mod_small by lia.
    destruct (Z.eqb_spec (Z.of_nat (length (take len (c :: d)))) 0) as [E|E].
    { wp_step. intros Hp. destruct len; [lia|]. done. }
    wp_step. rewrite whole_input by lia. cbn [of_option]. wp_step.
    destruct (parse_markup (string_of_list_ascii (take len (c :: d))) (rd_parser s)) as [[events ok] p'] eqn:Ep.
    wp_step. eapply wp_with_parser; [exact Ep|]. cbn beta iota. by wp_step.
  - by vm_compute.
Qed.
End arrivals.

(** ** Concrete connections *)

(** A parser of whole documents: [true] is one that has found an error, after which
    it finds nothing else. *)
Definition parse_whole (s : string) (broken : bool) : (list markup_event * bool) * bool :=
  if broken then (([], false), true)
  else match parse_document s with Some events => ((events, true), false) | None => (([], false), true) end.
#[local] Instance demo_markup : Markup :=
  {| parser := bool; new_parser := false; parse_markup := parse_whole |}.
Definition demo_at_rest (p : @parser demo_markup) : Prop := p = false.
Lemma demo_markup_law d (p : @parser demo_markup) : document_ok d = true -> demo_at_rest p ->
  exists p', parse_markup (print_document d) p = ((document_events d, true), p') /\ demo_at_rest p'.
Proof. intros Hd ->. exists false. cbn. unfold parse_whole. by rewrite parse_document_ok. Qed.

Definition demo_text : string := message_text (m_header demo_msg) demo_children.
Definition demo_wire (ty : socket_type) (l : list ascii) (datagrams : list (option (list ascii))) : wire :=
  Wire ty false (Socket l (replicate 300 (Some 5%nat))) datagrams [1; 1].
Definition demo_reader (ty : socket_type) (l : list ascii) (datagrams : list (option (list ascii))) : @reader demo_markup :=
  @Reader demo_markup (demo_wire ty l datagrams) new_parser.

(** Two requests in a row, five bytes at a time *)
Lemma messages_arrive_in_order_witness :
  wp (@receive_all demo_base64 demo_markup 2 512 1000) (fun r s' =>
    r = inr [arrived demo_msg; arrived demo_msg] /\ sk_in (wr_stream (rd_wire s')) = chars "<?xml")
    (demo_reader SOCK_STREAM (chars demo_text ++ chars demo_text ++ chars "<?xml") []).
Proof.
  assert (Hsent : @sent_as demo_base64 1024 512 demo_msg demo_text).
  { split; [exists demo_children; exact demo_sendable|]. split; [repeat split; vm_compute; discriminate|].
    split; [reflexivity|].
    split; [vm_compute; reflexivity|]. apply Nat.ltb_lt. vm_compute. reflexivity. }
  refine (@messages_arrive_in_order demo_base64 demo_markup demo_at_rest demo_markup_law _ _ 1024 512 1000
    [demo_msg; demo_msg] [demo_text; demo_text] (chars "<?xml") (replicate 300 (Some 5%nat)) _ _ _ _ _ _ _ _ _).
  - intros s e. cbn. destruct (plain s); [|discriminate]. by intros [= <-].
  - intros s e. cbn. destruct (plain s) eqn:E; [|discriminate]. by intros [= <-].
  - apply Nat.leb_le. reflexivity.
  - vm_compute. discriminate.
  - apply Forall2_cons_2; [exact Hsent|]. apply Forall2_cons_2; [exact Hsent|]. apply Forall2_nil_2.
  - apply Forall_replicate. eexists. reflexivity.
  - right. reflexivity.
  - apply Forall_cons_2; [reflexivity|]. apply Forall_cons_2; [reflexivity|]. apply Forall_nil_2.
  - reflexivity.
  - unfold demo_reader, demo_wire, rd_wire, wr_stream. cbn [map concat]. rewrite app_nil_r, <- app_assoc. reflexivity.
Defined.

Lemma message_arrives_witness :
  wp (@arrival demo_markup 512 1000) (fun r s' => exists events,
    @parse_markup demo_markup demo_text new_parser = ((events, true), rd_parser s') /\
    demo_at_rest (rd_parser s') /\ r = inr (RecvData events true) /\
    @markup_callbacks demo_base64 events flom_msg_init = Some (arrived demo_msg) /\
    sk_in (wr_stream (rd_wire s')) = [])
    (demo_reader SOCK_STREAM (chars demo_text ++ []) []).
Proof.
  refine (@message_arrives demo_base64 demo_markup demo_at_rest demo_markup_law _ _ 1024 512 1000 demo_msg demo_text []
    (replicate 300 (Some 5%nat)) (demo_reader SOCK_STREAM (chars demo_text ++ []) []) _ _ _ _ _ _ _ _).
  - intros s e. cbn. destruct (plain s); [|discriminate]. by intros [= <-].
  - intros s e. cbn. destruct (plain s) eqn:E; [|discriminate]. by intros [= <-].
  - apply Nat.leb_le. reflexivity.
  - vm_compute. discriminate.
  - split; [exists demo_children; exact demo_sendable|]. split; [repeat split; vm_compute; discriminate|].
    split; [reflexivity|]. split; [vm_compute; reflexivity|]. apply Nat.ltb_lt. vm_compute. reflexivity.
  - apply Forall_replicate. eexists. reflexivity.
  - right. reflexivity.
  - apply Forall_cons_2; [reflexivity|]. apply Forall_cons_2; [reflexivity|]. apply Forall_nil_2.
  - reflexivity.
  - reflexivity.
Defined.

(** A peer that closes after one message *)
Lemma stream_arrivals_witness :
  wp (@arrival demo_markup 512 1000) (fun r s' => exists x, r = inr x /\
    @seen demo_markup (demo_reader SOCK_STREAM (chars demo_text ++ chars "<?xml") []) x s')
    (demo_reader SOCK_STREAM (chars demo_text ++ chars "<?xml") []).
Proof.
  refine (@stream_arrivals demo_markup 512 1000 (demo_reader SOCK_STREAM (chars demo_text ++ chars "<?xml") []) _ _ _).
  - apply Nat.leb_le. reflexivity.
  - vm_compute. discriminate.
  - right. reflexivity.
Defined.
Lemma datagram_arrivals_witness :
  wp (@arrival demo_markup 512 0) (fun r s' => r = inr RecvClosed) (demo_reader SOCK_DGRAM [] [Some []]).
Proof.
  refine (@datagram_arrivals demo_markup 512 0 (demo_reader SOCK_DGRAM [] [Some []]) _ eq_refl eq_refl _).
  - vm_compute. discriminate.
  - apply Forall_cons_2; [reflexivity|]. apply Forall_cons_2; [reflexivity|]. apply Forall_nil_2.
Defined.

(** *** What datagrams do to a daemon

    The connection 2 is the one that waits for discoveries.  A datagram without
    any byte is taken for the end of a connection, and one that asks for a lock
    for the request of a client: the daemon closes that connection, or gives it to
    a locker, and cannot be discovered any more.  One that is not a message ends
    the daemon. *)
Definition still_listens (s : daemon) : bool :=
  bool_decide (2%positive ∈ table s) &&
  match objects s !! 2%positive with Some o => has_fd o | None => false end.
Definition demo_discoverable (d : option (list ascii)) : err + (recv_result * (err + option bool) * bool) :=
  match (@arrival demo_markup 512 1000 (demo_reader SOCK_DGRAM [] [d])).1 with
  | inr r =>
      let '(x, s) := demo_accept [quiet; readable]
        (demo_daemon [(2%positive, demo_peer 2%positive false flom_msg_init)] [] [r]) in
      inr (r, x, still_listens s)
  | inl e => inl e
  end.
Theorem datagram_ends_discovery :
  demo_discoverable (Some []) = inr (RecvClosed, inr (Some false), false) /\
  demo_discoverable (Some (chars demo_text)) = inr (RecvData demo_events true, inr (Some false), false) /\
  demo_discoverable (Some (chars "hello")) =
    inr (RecvData [] false, inl (Rc FLOM_RC_G_MARKUP_PARSE_CONTEXT_PARSE_ERROR), true).
Proof. vm_compute. done. Qed.

(** A failure of [recvfrom] is not seen: a [size_t] is never less than zero. *)
Theorem datagram_failure_unseen :
  (@flom_tcp_recv 512 (demo_wire SOCK_DGRAM [] [None])).1 = inr (18446744073709551615, []) /\
  demo_discoverable None = inl Ub.
Proof. vm_compute. done. Qed.
