(* ===== verification/Connect.v ===== *)
(** * Connect: how a client reaches a daemon

    [flom_client_connect] of [src/src/flom_client.c] with the three ways it has
    (a local socket, a TCP address, the discovery of an address by multicast)
    and [flom_tcp_connect] of [src/src/flom_tcp.c].  What the system calls
    answer, what [flom_daemon] answers to a client that starts one and what the
    TLS library answers are inputs of the state, consumed call by call. *)
From Stdlib Require Import ZArith String List Lia.
From stdpp Require Import base list gmap numbers strings.
From S2P Require Import Prelude Types CStr RsrcName Msg MsgXml Vfs World Config.
From S2P Require Import ConnLock Conns Locker.
Local Open Scope string_scope.
Local Open Scope Z_scope.

(** ** The state of a client *)
Inductive connect_result : Type :=
| Connected (peer_name : option string)
| NobodyListens
| ConnectFails.

(** An answer to a discovery: [scope_id] is the interface it comes from. *)
Inductive datagram : Type :=
| NoAnswer
| RecvFromFails
| Answered (events : list markup_event) (well_formed : bool) (scope_id : Z).

(** An address: its family, [AF_INET], [AF_INET6] or another, and whether each
    option of a multicast socket, then its [bind], succeeds *)
Inductive family : Type := Inet | Inet6 | OtherFamily.
Record addr : Type := Addr { ai_family : family; ai_options : list bool }.

(** The connections and the results of [close]; the configurations; the message
    a call works on; the descriptors that are open; then the inputs: [socket],
    [connect], [getaddrinfo], the reads of a connection with the [poll] before
    them, the answers to discoveries, the calls that only succeed or fail, and
    the reason codes of [flom_daemon] and of the [flom_tls] functions. *)
Record client : Type := Client {
  k_net : net;
  k_configs : configs;
  k_msg : flom_msg;
  k_open : list Z;
  k_datagrams : list string;
  k_sockets : list (option Z);
  k_connects : list connect_result;
  k_addrs : list (option (list addr));
  k_polls : list Z;
  k_recvs : list recv_result;
  k_answers : list datagram;
  k_calls : list bool;
  k_daemons : list Z;
  k_tls : list Z
}.

Definition Km (A : Type) : Type := M err client A.

Definition put_knet (x : net) (s : client) : client :=
  Client x (k_configs s) (k_msg s) (k_open s) (k_datagrams s) (k_sockets s) (k_connects s)
    (k_addrs s) (k_polls s) (k_recvs s) (k_answers s) (k_calls s) (k_daemons s) (k_tls s).
Definition put_configs (x : configs) (s : client) : client :=
  Client (k_net s) x (k_msg s) (k_open s) (k_datagrams s) (k_sockets s) (k_connects s)
    (k_addrs s) (k_polls s) (k_recvs s) (k_answers s) (k_calls s) (k_daemons s) (k_tls s).
Definition put_kmsg (x : flom_msg) (s : client) : client :=
  Client (k_net s) (k_configs s) x (k_open s) (k_datagrams s) (k_sockets s) (k_connects s)
    (k_addrs s) (k_polls s) (k_recvs s) (k_answers s) (k_calls s) (k_daemons s) (k_tls s).
Definition put_open (x : list Z) (s : client) : client :=
  Client (k_net s) (k_configs s) (k_msg s) x (k_datagrams s) (k_sockets s) (k_connects s)
    (k_addrs s) (k_polls s) (k_recvs s) (k_answers s) (k_calls s) (k_daemons s) (k_tls s).
Definition put_datagrams (x : list string) (s : client) : client :=
  Client (k_net s) (k_configs s) (k_msg s) (k_open s) x (k_sockets s) (k_connects s)
    (k_addrs s) (k_polls s) (k_recvs s) (k_answers s) (k_calls s) (k_daemons s) (k_tls s).
Definition put_sockets (x : list (option Z)) (s : client) : client :=
  Client (k_net s) (k_configs s) (k_msg s) (k_open s) (k_datagrams s) x (k_connects s)
    (k_addrs s) (k_polls s) (k_recvs s) (k_answers s) (k_calls s) (k_daemons s) (k_tls s).
Definition put_connects (x : list connect_result) (s : client) : client :=
  Client (k_net s) (k_configs s) (k_msg s) (k_open s) (k_datagrams s) (k_sockets s) x
    (k_addrs s) (k_polls s) (k_recvs s) (k_answers s) (k_calls s) (k_daemons s) (k_tls s).
Definition put_addrs (x : list (option (list addr))) (s : client) : client :=
  Client (k_net s) (k_configs s) (k_msg s) (k_open s) (k_datagrams s) (k_sockets s)
    (k_connects s) x (k_polls s) (k_recvs s) (k_answers s) (k_calls s) (k_daemons s) (k_tls s).
Definition put_polls (x : list Z) (s : client) : client :=
  Client (k_net s) (k_configs s) (k_msg s) (k_open s) (k_datagrams s) (k_sockets s)
    (k_connects s) (k_addrs s) x (k_recvs s) (k_answers s) (k_calls s) (k_daemons s) (k_tls s).
Definition put_recvs (x : list recv_result) (s : client) : client :=
  Client (k_net s) (k_configs s) (k_msg s) (k_open s) (k_datagrams s) (k_sockets s)
    (k_connects s) (k_addrs s) (k_polls s) x (k_answers s) (k_calls s) (k_daemons s) (k_tls s).
Definition put_answers (x : list datagram) (s : client) : client :=
  Client (k_net s) (k_configs s) (k_msg s) (k_open s) (k_datagrams s) (k_sockets s)
    (k_connects s) (k_addrs s) (k_polls s) (k_recvs s) x (k_calls s) (k_daemons s) (k_tls s).
Definition put_calls (x : list bool) (s : client) : client :=
  Client (k_net s) (k_configs s) (k_msg s) (k_open s) (k_datagrams s) (k_sockets s)
    (k_connects s) (k_addrs s) (k_polls s) (k_recvs s) (k_answers s) x (k_daemons s) (k_tls s).
Definition put_daemons (x : list Z) (s : client) : client :=
  Client (k_net s) (k_configs s) (k_msg s) (k_open s) (k_datagrams s) (k_sockets s)
    (k_connects s) (k_addrs s) (k_polls s) (k_recvs s) (k_answers s) (k_calls s) x (k_tls s).
Definition put_tls (x : list Z) (s : client) : client :=
  Client (k_net s) (k_configs s) (k_msg s) (k_open s) (k_datagrams s) (k_sockets s)
    (k_connects s) (k_addrs s) (k_polls s) (k_recvs s) (k_answers s) (k_calls s) (k_daemons s) x.

Definition on_knet {A} (m : Cm A) : Km A := zoom k_net put_knet m.
Definition on_kworld {A} (m : Wm A) : Km A := on_knet (on_nworld m).
Definition on_configs {A} (m : Gm A) : Km A := zoom k_configs put_configs m.
Definition on_kmsg {A} (m : M err flom_msg A) : Km A := zoom k_msg put_kmsg m.

(** The next input of a list, or [none] when there is none left *)
Definition next_input {A} (get : client -> list A) (put : list A -> client -> client) (none : A)
    : Km A := fun s =>
  match get s with
  | [] => (inr none, s)
  | x :: l => (inr x, put l s)
  end.

Definition sys_ok : Km bool := next_input k_calls put_calls true.
Definition sys_connect : Km connect_result := next_input k_connects put_connects ConnectFails.
Definition sys_getaddrinfo : Km (option (list addr)) := next_input k_addrs put_addrs None.
Definition flom_daemon : Km Z := next_input k_daemons put_daemons FLOM_RC_INTERNAL_ERROR.
Definition flom_tls_call : Km Z := next_input k_tls put_tls FLOM_RC_OK.

(** [socket]: a descriptor that is open from now on *)
Definition sys_socket : Km (option Z) :=
  o ← next_input k_sockets put_sockets None;
  _ ← match o with
      | Some fd => modify (fun s => put_open (fd :: k_open s) s)
      | None => mret tt
      end;
  mret o.

(** [close], whose result is ignored, of a descriptor that is not in a
    connection *)
Definition sys_close (fd : Z) : Km unit :=
  modify (fun s => put_open (filter (fun x => x <> fd) (k_open s)) s).

(** The descriptor of a connection is set, and with it the name of the peer
    that the system knows it to have. *)
Definition set_tcp (fd : Z) (peer : option string) (o : flom_conn) : flom_conn :=
  Conn (c_uid o) (c_state o) (c_wait o) (c_last_step o) peer (c_tls o) fd (c_msg o).
Definition set_tls (o : flom_conn) : flom_conn :=
  Conn (c_uid o) (c_state o) (c_wait o) (c_last_step o) (c_peer_name o) true (c_fd o) (c_msg o).

(** ** TCP *)

(** [flom_tcp_try_connect]: the first address that accepts, with the socket and
    the name of the peer *)
Fixpoint flom_tcp_try_connect (l : list addr) : Km (option (Z * option string)) :=
  match l with
  | [] => mret None
  | _ :: l =>
      o ← sys_socket;
      match o with
      | None => flom_tcp_try_connect l
      | Some fd =>
          r ← sys_connect;
          match r with
          | Connected peer => mret (Some (fd, peer))
          | _ => _ ← sys_close fd; flom_tcp_try_connect l
          end
      end
  end.

Section connect.
Context `{Glib, System}.

(** [flom_tcp_init], whose [memset] leaves descriptor 0, and [flom_tcp_connect] *)
Definition flom_tcp_init (c : conn_ref) : Km unit := on_kworld (store c (set_tcp 0 None)).

Definition flom_tcp_connect (c : conn_ref) : Km unit :=
  l ← sys_getaddrinfo;
  l ← of_option (Rc FLOM_RC_GETADDRINFO_ERROR) l;
  found ← flom_tcp_try_connect l;
  '(fd, peer) ← of_option (Rc FLOM_RC_CONNECTION_REFUSED) found;
  on_kworld (store c (set_tcp fd peer)).

(** [flom_client_connect_tcp]: [refused] is what to do when nobody listens;
    [true] is the connection that is complete already. *)
Definition connect_tcp_with (c : conn_ref) (refused : Km unit) : Km unit :=
  _ ← flom_tcp_init c;
  r ← attempt (flom_tcp_connect c);
  match r with
  | inr _ =>
      ok ← sys_ok;
      when (negb ok) (throw (Rc FLOM_RC_SETSOCKOPT_ERROR))
  | inl rc => if rc =? FLOM_RC_CONNECTION_REFUSED then refused else throw (Rc rc)
  end.

Definition flom_client_connect_tcp (cf : config_ref) (c : conn_ref) (start_daemon : bool)
    : Km unit :=
  connect_tcp_with c (
    if negb start_daemon then throw (Rc FLOM_RC_DAEMON_NOT_STARTED)
    else
      lifespan ← on_configs (flom_config_get_lifespan cf);
      if lifespan =? 0 then throw (Rc FLOM_RC_CONNECT_ERROR)
      else
        rc ← flom_daemon;
        if negb (rc =? FLOM_RC_OK) && negb (rc =? FLOM_RC_BIND_ERROR) then throw (Rc rc)
        else
          r ← attempt (connect_tcp_with c (throw (Rc FLOM_RC_DAEMON_NOT_STARTED)));
          match r with
          | inl _ => throw (Rc FLOM_RC_DAEMON_NOT_STARTED)
          | inr _ => mret tt
          end).

(** ** A local socket *)

(** A failure leaves the socket in the connection, open.  The name is copied
    in a field of [LOCAL_SOCKET_SIZE] bytes. *)
Definition flom_client_connect_local (cf : config_ref) (c : conn_ref) (start_daemon : bool)
    : Km unit :=
  o ← sys_socket;
  _ ← on_kworld (store c (set_tcp (default FLOM_NULL_FD o) None));
  fd ← of_option (Rc FLOM_RC_SOCKET_ERROR) o;
  name ← on_configs (flom_config_get_socket_name cf);
  name ← of_option Ub name;
  _ ← when (LOCAL_SOCKET_SIZE <=? strlen name) (throw Ub);
  r ← sys_connect;
  match r with
  | Connected peer => on_kworld (store c (set_tcp fd peer))
  | ConnectFails => throw (Rc FLOM_RC_CONNECT_ERROR)
  | NobodyListens =>
      if negb start_daemon then throw (Rc FLOM_RC_DAEMON_NOT_STARTED)
      else
        lifespan ← on_configs (flom_config_get_lifespan cf);
        if lifespan =? 0 then throw (Rc FLOM_RC_CONNECT_ERROR)
        else
          rc ← flom_daemon;
          if negb (rc =? FLOM_RC_OK) && negb (rc =? FLOM_RC_FLOCK_ERROR) then throw (Rc rc)
          else
            r ← sys_connect;
            match r with
            | Connected peer => on_kworld (store c (set_tcp fd peer))
            | _ => throw (Rc FLOM_RC_DAEMON_NOT_STARTED)
            end
  end.

(** ** Discovery *)

(** The options of a socket, in order, up to the first that fails *)
Fixpoint all_ok (l : list bool) : bool :=
  match l with
  | [] => true
  | b :: l => b && all_ok l
  end.

(** The address to use and its socket.  When [socket] fails the code takes the
    next address and goes on with the options of a descriptor that does not
    exist: there must be a next address, which is skipped. *)
Fixpoint find_multicast (l : list addr) : Km (option (family * Z)) :=
  match l with
  | [] => mret None
  | a :: l =>
      match ai_family a with
      | OtherFamily => throw (Rc FLOM_RC_INVALID_AI_FAMILY_ERROR)
      | _ =>
          o ← sys_socket;
          match o with
          | None => match l with [] => throw Ub | _ :: l => find_multicast l end
          | Some fd =>
              if all_ok (ai_options a) then mret (Some (ai_family a, fd))
              else _ ← sys_close fd; find_multicast l
          end
      end
  end.

(** The attempts: each sends the datagram and waits for one answer. *)
Fixpoint ask (attempts : nat) (text : string) : Km (option (list markup_event * bool * Z)) :=
  match attempts with
  | O => mret None
  | S attempts =>
      ok ← sys_ok;
      _ ← when (negb ok) (throw (Rc FLOM_RC_SENDTO_ERROR));
      _ ← modify (fun s => put_datagrams (k_datagrams s ++ [text])%list s);
      r ← next_input k_answers put_answers NoAnswer;
      match r with
      | NoAnswer => ask attempts text
      | RecvFromFails => throw (Rc FLOM_RC_RECVFROM_ERROR)
      | Answered events well_formed scope_id => mret (Some (events, well_formed, scope_id))
      end
  end.

(** [flom_client_discover_udp_connect]: the socket is closed on error. *)
Definition flom_client_discover_udp_connect (c : conn_ref) : Km unit :=
  o ← sys_socket;
  fd ← of_option (Rc FLOM_RC_SOCKET_ERROR) o;
  r ← sys_connect;
  match r with
  | Connected peer =>
      ok ← sys_ok;
      if (ok : bool) then on_kworld (store c (set_tcp fd peer))
      else _ ← sys_close fd; throw (Rc FLOM_RC_SETSOCKOPT_ERROR)
  | _ => _ ← sys_close fd; throw (Rc FLOM_RC_CONNECT_ERROR)
  end.

Definition free_and_init_kmsg : Km unit :=
  _ ← ignore_rc (on_kmsg flom_msg_free);
  on_kmsg (modify (fun _ => flom_msg_init)).

(** [flom_msg_deserialize] in the message the call works on *)
Definition deserialize_kmsg (events : list markup_event) (well_formed : bool) : Km unit :=
  m ← gets k_msg;
  m ← of_option Ub (markup_callbacks events m);
  _ ← on_kmsg (modify (fun _ => m));
  when (negb well_formed) (throw (Rc FLOM_RC_G_MARKUP_PARSE_CONTEXT_PARSE_ERROR)).

(** From the answer to the connection: the address in the message is read
    whatever the message is. *)
Definition follow_answer (cf : config_ref) (c : conn_ref) (start_daemon : bool) (f : family)
    (scope_id : Z) : Km unit :=
  m ← gets k_msg;
  '(address, port) ← of_option Ub (get_discover_16 (m_body m));
  address ← of_option Ub address;
  if 0 <? strlen address then
    _ ← on_configs (flom_config_set_unicast_address cf (Some address));
    _ ← on_configs (flom_config_set_unicast_port cf port);
    _ ← match f with
        | Inet6 =>
            rc ← on_configs (flom_config_set_sin6_scope_id cf scope_id);
            when (negb (rc =? FLOM_RC_OK)) (throw (Rc rc))
        | _ => mret tt
        end;
    flom_client_connect_tcp cf c start_daemon
  else flom_client_discover_udp_connect c.

(** The part of [flom_client_discover_udp] that has a socket *)
Definition discover_with (cf : config_ref) (c : conn_ref) (start_daemon : bool) (f : family)
    (fd : Z) : Km unit :=
  r ← attempt (
    _ ← on_kmsg (modify (set_header (Header FLOM_MSG_LEVEL FLOM_MSG_VERB_DISCOVER FLOM_MSG_STEP_INCR)));
    m ← gets k_msg;
    text ← of_result (flom_msg_serialize FLOM_NETWORK_BUFFER_SIZE m);
    ok ← sys_ok;
    _ ← when (negb ok) (throw (Rc FLOM_RC_SETSOCKOPT_ERROR));
    attempts ← on_configs (flom_config_get_discovery_attempts cf);
    answer ← ask (Z.to_nat attempts) text;
    of_option (Rc FLOM_RC_CONNECTION_REFUSED) answer);
  _ ← sys_close fd;
  match r with
  | inl rc => throw (Rc rc)
  | inr (events, well_formed, scope_id) =>
      _ ← free_and_init_kmsg;
      ok ← sys_ok;
      _ ← when (negb ok) (throw (Rc FLOM_RC_G_MARKUP_PARSE_CONTEXT_NEW_ERROR));
      _ ← deserialize_kmsg events well_formed;
      follow_answer cf c start_daemon f scope_id
  end.

Definition flom_client_discover_udp (cf : config_ref) (c : conn_ref) (start_daemon : bool)
    : Km unit :=
  finally (
    _ ← on_kmsg (modify (fun _ => flom_msg_init));
    l ← sys_getaddrinfo;
    l ← of_option (Rc FLOM_RC_GETADDRINFO_ERROR) l;
    found ← find_multicast l;
    '(f, fd) ← of_option (Rc FLOM_RC_CONNECT_ERROR) found;
    discover_with cf c start_daemon f fd) (ignore_rc (on_kmsg flom_msg_free)).

(** ** [flom_client_connect] *)
Definition discover_or_start (cf : config_ref) (c : conn_ref) (start_daemon : bool) : Km unit :=
  r ← attempt (flom_client_discover_udp cf c start_daemon);
  match r with
  | inr _ => mret tt
  | inl rc =>
      if negb (rc =? FLOM_RC_CONNECTION_REFUSED) then throw (Rc rc)
      else if negb start_daemon then throw (Rc FLOM_RC_DAEMON_NOT_STARTED)
      else
        lifespan ← on_configs (flom_config_get_lifespan cf);
        if lifespan =? 0 then throw (Rc FLOM_RC_CONNECT_ERROR)
        else
          rc ← flom_daemon;
          _ ← when (negb (rc =? FLOM_RC_OK)) (throw (Rc rc));
          flom_client_discover_udp cf c start_daemon
  end.

(** The switch to TLS, when the three files are configured *)
Definition connect_tls (cf : config_ref) (c : conn_ref) : Km unit :=
  cert ← on_configs (flom_config_get_tls_certificate cf);
  key ← on_configs (flom_config_get_tls_private_key cf);
  ca ← on_configs (flom_config_get_tls_ca_certificate cf);
  when (given cert && given key && given ca) (
    _ ← on_kworld (store c set_tls);
    rc ← flom_tls_call;
    _ ← when (negb (rc =? FLOM_RC_OK)) (throw (Rc rc));
    rc ← flom_tls_call;
    _ ← when (negb (rc =? FLOM_RC_OK)) (throw (Rc rc));
    rc ← flom_tls_call;
    when (negb (rc =? FLOM_RC_OK)) (throw (Rc rc))).

Definition flom_client_connect (cf : config_ref) (c : conn_ref) (start_daemon : bool) : Km unit :=
  local ← on_configs (flom_config_get_socket_name cf);
  unicast ← on_configs (flom_config_get_unicast_address cf);
  multicast ← on_configs (flom_config_get_multicast_address cf);
  _ ← (if given local then flom_client_connect_local cf c start_daemon
       else if given unicast then flom_client_connect_tcp cf c start_daemon
       else if given multicast then discover_or_start cf c start_daemon
       else throw (Rc FLOM_RC_INTERNAL_ERROR));
  ok ← sys_ok;
  _ ← when (negb ok) (throw (Rc FLOM_RC_FCNTL_ERROR));
  connect_tls cf c.
End connect.

(** ** What every call of a client leaves alone

    Whatever happens, the strings of the configurations stay owned, only the
    configuration [cf] changes, and no connection is deleted. *)
Definition conns_of (s : client) : gmap conn_ref flom_conn := w_conns (n_world (k_net s)).

Record docile_after (cf : config_ref) (s s' : client) : Prop := Docile {
  td_owned : owned (k_configs s');
  td_aside : aside cf (k_configs s) (k_configs s');
  td_conns : forall c, is_Some (conns_of s !! c) -> is_Some (conns_of s' !! c)
}.
Definition docile (cf : config_ref) {A} (m : Km A) : Prop := forall s,
  owned (k_configs s) -> is_Some (config_at (k_configs s) cf) ->
  wp m (fun _ s' => docile_after cf s s') s.

Create HintDb docile.

Lemma docile_after_trans cf s1 s2 s3 : docile_after cf s1 s2 -> docile_after cf s2 s3 -> docile_after cf s1 s3.
Proof. intros [O1 A1 C1] [O2 A2 C2]. split; eauto using aside_trans. Qed.
Lemma docile_after_refl cf s : owned (k_configs s) -> docile_after cf s s.
Proof. intros Ho. split; auto using aside_refl. Qed.

(** Calls that change neither a configuration nor the table of connections *)
Lemma docile_still cf {A} (m : Km A) :
  (forall s, k_configs (m s).2 = k_configs s /\ k_net (m s).2 = k_net s) -> docile cf m.
Proof.
  intros Hm s Ho Hr. destruct (Hm s) as [Hc Hn]. unfold wp. split; unfold conns_of; rewrite ?Hc, ?Hn.
  - done.
  - apply aside_refl.
  - done.
Qed.
Lemma docile_ret cf {A} (a : A) : docile cf (mret a).
Proof. apply docile_still. by intros s. Qed.
Lemma docile_throw cf {A} (e : err) : docile cf (throw (A := A) e).
Proof. apply docile_still. by intros s. Qed.
Lemma docile_gets cf {A} (f : client -> A) : docile cf (gets f).
Proof. apply docile_still. by intros s. Qed.
Lemma docile_next_input cf {A} get put (none : A) :
  (forall l s, k_configs (put l s) = k_configs s /\ k_net (put l s) = k_net s) ->
  docile cf (next_input get put none).
Proof. intros Hp. apply docile_still. intros s. unfold next_input. destruct (get s); [done | apply Hp]. Qed.
Lemma docile_modify cf f :
  (forall s, k_configs (f s) = k_configs s /\ k_net (f s) = k_net s) -> docile cf (modify f).
Proof. intros Hf. apply docile_still. exact Hf. Qed.
Lemma docile_on_kmsg cf {A} (m : M err flom_msg A) : docile cf (on_kmsg m).
Proof. apply docile_still. intros s. unfold on_kmsg, zoom. by destruct (m (k_msg s)). Qed.
Lemma docile_of_option cf {A} (e : err) (o : option A) : docile cf (of_option e o).
Proof. destruct o; [apply docile_ret | apply docile_throw]. Qed.
Lemma docile_of_result cf {A} (r : err + A) : docile cf (of_result r).
Proof. destruct r; [apply docile_throw | apply docile_ret]. Qed.

Lemma docile_bind cf {A B} (m : Km A) (k : A -> Km B) :
  docile cf m -> (forall a, docile cf (k a)) -> docile cf (m ≫= k).
Proof.
  intros Hm Hk s Ho Hr. wp_step. eapply wp_mono; [|by apply Hm].
  intros [e|a] s1 Ht; [done|]. eapply wp_mono.
  2: apply Hk; [apply Ht | apply (as_object _ _ _ (td_aside _ _ _ Ht)), Hr].
  intros y s2. by apply docile_after_trans.
Qed.
Lemma docile_when cf (b : bool) (m : Km unit) : docile cf m -> docile cf (when b m).
Proof. intros Hm. destruct b; [done | apply docile_ret]. Qed.
Lemma docile_attempt cf {A} (m : Km A) : docile cf m -> docile cf (attempt m).
Proof.
  intros Hm s Ho Hr. wp_step. eapply wp_mono; [|by apply Hm]. by intros [[]|] s'.
Qed.
Lemma docile_ignore_rc cf {A} (m : Km A) : docile cf m -> docile cf (ignore_rc m).
Proof.
  intros Hm s Ho Hr. wp_step. eapply wp_mono; [|by apply Hm]. by intros [[]|] s'.
Qed.
Lemma docile_finally cf {A} (m : Km A) clean : docile cf m -> docile cf clean -> docile cf (finally m clean).
Proof.
  intros Hm Hc s Ho Hr. assert (Ht := Hm s Ho Hr). unfold wp, finally in *.
  assert (Hcl : forall s1 {B} (k : Km B), docile cf k -> docile_after cf s s1 ->
    docile_after cf s ((_ ← clean; k) s1).2).
  { intros s1 B k Hk Ht1. eapply docile_after_trans; [exact Ht1|].
    apply (docile_bind cf clean (fun _ => k)); [done | done | apply Ht1|].
    apply (as_object _ _ _ (td_aside _ _ _ Ht1)), Hr. }
  destruct (m s) as [[[rc| |]|a] s1]; cbn in *; auto using docile_ret, docile_throw.
Qed.

Lemma docile_on_configs cf {A} (m : Gm A) : keeps_owned cf m -> docile cf (on_configs m).
Proof.
  intros Hm s Ho Hr. unfold on_configs. wp_step. eapply wp_mono; [|by apply Hm].
  intros x g [Hg Ha]. by split.
Qed.

Definition keeps_conns {A} (m : Cm A) : Prop := forall n c,
  is_Some (w_conns (n_world n) !! c) -> is_Some (w_conns (n_world (m n).2) !! c).
Lemma docile_on_knet cf {A} (m : Cm A) : keeps_conns m -> docile cf (on_knet m).
Proof.
  intros Hm s Ho Hr. unfold on_knet. wp_step. unfold wp. split; [done | apply aside_refl|].
  intros c Hc. by apply Hm.
Qed.

#[export] Hint Resolve docile_ret docile_throw docile_gets docile_on_kmsg docile_of_option docile_of_result
  docile_when docile_attempt docile_ignore_rc docile_finally : docile.
#[export] Hint Extern 3 (docile _ (on_configs _)) => apply docile_on_configs; solve [solve_keeps_config] : docile.
#[export] Hint Extern 2 (docile _ (next_input _ _ _)) => by apply docile_next_input : docile.
#[export] Hint Extern 2 (docile _ (modify _)) => by apply docile_modify : docile.

Ltac solve_docile :=
  repeat first
    [ progress intros
    | solve [auto with docile]
    | apply docile_bind
    | apply docile_when
    | apply docile_attempt
    | apply docile_ignore_rc
    | apply docile_finally
    | match goal with
      | |- docile _ (if ?b then _ else _) => destruct b
      | |- docile _ (match ?x with _ => _ end) => destruct x
      | |- docile _ (let '_ := ?x in _) => destruct x
      end ].

(** Storing through a connection pointer, sending *)
Definition keeps_table {A} (m : Wm A) : Prop := forall w c,
  is_Some (w_conns w !! c) -> is_Some (w_conns (m w).2 !! c).

Lemma keeps_on_nworld {A} (m : Wm A) : keeps_table m -> keeps_conns (on_nworld m).
Proof.
  intros Hm n c Hc. unfold on_nworld, zoom. specialize (Hm (n_world n) c Hc). by destruct (m _).
Qed.
Lemma keeps_table_bind {A B} (m : Wm A) (k : A -> Wm B) :
  keeps_table m -> (forall a, keeps_table (k a)) -> keeps_table (m ≫= k).
Proof.
  intros Hm Hk w c Hc. unfold mbind, M_bind. specialize (Hm w c Hc).
  destruct (m w) as [[e|a] w']; [done | by apply Hk].
Qed.
Lemma keeps_table_still {A} (m : Wm A) : (forall w, w_conns (m w).2 = w_conns w) -> keeps_table m.
Proof. intros Hm w c. by rewrite Hm. Qed.
Lemma keeps_table_deref c : keeps_table (deref c).
Proof.
  apply keeps_table_still. intros w. unfold deref, mbind, M_bind, gets. by destruct (w_conns w !! c).
Qed.
Lemma keeps_table_insert f c : keeps_table (modify (fun w => set_conns (<[c := f w]> (w_conns w)) w)).
Proof.
  intros w c' Hc. cbn. destruct (decide (c' = c)) as [->|Hne].
  - rewrite lookup_insert_eq. eauto.
  - by rewrite lookup_insert_ne.
Qed.
Lemma keeps_table_store c f : keeps_table (store c f).
Proof.
  apply keeps_table_bind; [apply keeps_table_deref|]. intros o.
  apply (keeps_table_insert (fun _ => f o)).
Qed.
Lemma keeps_table_last_step c v : keeps_table (flom_conn_set_last_step c v).
Proof.
  apply keeps_table_bind; [apply keeps_table_deref|]. intros o.
  apply (keeps_table_insert (fun _ => set_last_step v o)).
Qed.
Lemma keeps_table_send c text : keeps_table (flom_conn_send c text).
Proof.
  apply keeps_table_bind; [apply keeps_table_deref|]. intros o.
  apply keeps_table_bind.
  - apply keeps_table_still. intros w. unfold next_send. by destruct (w_sends w).
  - intros r. apply keeps_table_still. intros w. unfold flom_tls_send, flom_tcp_send, wire.
    unfold mbind, M_bind, modify, when. destruct (c_tls o); [|destruct (has_fd o)]; destruct r; try done;
      repeat case_match; simplify_eq; done.
Qed.
Lemma keeps_table_gets {A} (f : world -> A) : keeps_table (gets f).
Proof. by apply keeps_table_still. Qed.
Lemma keeps_table_malloc : keeps_table g_try_malloc.
Proof. apply keeps_table_still. intros w. unfold g_try_malloc. by destruct (w_mallocs w). Qed.

Lemma docile_on_kworld cf {A} (m : Wm A) : keeps_table m -> docile cf (on_kworld m).
Proof. intros Hm. by apply docile_on_knet, keeps_on_nworld. Qed.

#[export] Hint Resolve keeps_table_deref keeps_table_store keeps_table_last_step keeps_table_send
  keeps_table_gets keeps_table_malloc : docile.
#[export] Hint Extern 3 (docile _ (on_kworld _)) => apply docile_on_kworld; solve [auto with docile] : docile.

Lemma docile_sys_socket cf : docile cf sys_socket.
Proof. unfold sys_socket. solve_docile. Qed.
Lemma docile_sys_close cf fd : docile cf (sys_close fd).
Proof. unfold sys_close. solve_docile. Qed.
Lemma docile_sys_ok cf : docile cf sys_ok.
Proof. unfold sys_ok. solve_docile. Qed.
Lemma docile_sys_connect cf : docile cf sys_connect.
Proof. unfold sys_connect. solve_docile. Qed.
Lemma docile_sys_getaddrinfo cf : docile cf sys_getaddrinfo.
Proof. unfold sys_getaddrinfo. solve_docile. Qed.
Lemma docile_flom_daemon cf : docile cf flom_daemon.
Proof. unfold flom_daemon. solve_docile. Qed.
Lemma docile_flom_tls_call cf : docile cf flom_tls_call.
Proof. unfold flom_tls_call. solve_docile. Qed.
#[export] Hint Resolve docile_sys_socket docile_sys_close docile_sys_ok docile_sys_connect
  docile_sys_getaddrinfo docile_flom_daemon docile_flom_tls_call : docile.

Lemma docile_try_connect cf l : docile cf (flom_tcp_try_connect l).
Proof. induction l; cbn [flom_tcp_try_connect]; solve_docile. Qed.
Lemma docile_ask cf text n : docile cf (ask n text).
Proof. induction n; cbn [ask]; solve_docile. Qed.
Lemma docile_find_multicast cf : forall n l, (length l <= n)%nat -> docile cf (find_multicast l).
Proof.
  induction n as [|n IH]; intros [|a l] Hl; cbn [find_multicast length] in *; solve_docile; try lia;
    apply IH; cbn in *; lia.
Qed.
#[export] Hint Resolve docile_try_connect docile_ask : docile.
#[export] Hint Extern 3 (docile _ (find_multicast ?l)) => by apply (docile_find_multicast _ (length l)) : docile.

Section docile_connect.
Context `{Glib, System}.

Lemma docile_connect_tcp cf c b : docile cf (flom_client_connect_tcp cf c b).
Proof.
  unfold flom_client_connect_tcp, connect_tcp_with, flom_tcp_init, flom_tcp_connect. solve_docile.
Qed.
Lemma docile_connect_local cf c b : docile cf (flom_client_connect_local cf c b).
Proof. unfold flom_client_connect_local. solve_docile. Qed.
Hint Resolve docile_connect_tcp docile_connect_local : docile.

Lemma docile_deserialize_kmsg cf events b : docile cf (deserialize_kmsg events b).
Proof. unfold deserialize_kmsg. solve_docile. Qed.
Lemma docile_free_and_init_kmsg cf : docile cf free_and_init_kmsg.
Proof. unfold free_and_init_kmsg. solve_docile. Qed.
Hint Resolve docile_deserialize_kmsg docile_free_and_init_kmsg : docile.

Lemma docile_discover cf c b : docile cf (flom_client_discover_udp cf c b).
Proof.
  unfold flom_client_discover_udp, discover_with, follow_answer, flom_client_discover_udp_connect.
  solve_docile.
Qed.
Hint Resolve docile_discover : docile.

Lemma docile_client_connect cf c b : docile cf (flom_client_connect cf c b).
Proof. unfold flom_client_connect, discover_or_start, connect_tls. solve_docile. Qed.
End docile_connect.

#[export] Hint Resolve docile_client_connect docile_deserialize_kmsg docile_free_and_init_kmsg : docile.
