(* ===== verification/Client.v ===== *)
(** * Client: the requests of a client

    [flom_client_lock], [flom_client_wait_lock], [flom_client_unlock],
    [flom_client_disconnect] and [flom_client_shutdown] of
    [src/src/flom_client.c], on a connection that [Connect] has made. *)
From Stdlib Require Import ZArith String List Lia.
From stdpp Require Import base list gmap numbers strings.
From S2P Require Import Prelude Types CStr RsrcName Msg MsgXml Vfs World Config.
From S2P Require Import ConnLock Conns Locker Connect.
Local Open Scope string_scope.
Local Open Scope Z_scope.

(** ** Receiving and closing *)

(** [flom_conn_recv] of [src/src/flom_conn.c]: [poll] comes first only for a
    positive timeout.  An answer that is received is a message without errors or
    with some; a failure has the reason code of the read. *)
Definition client_recv (timeout : Z) : Km recv_result :=
  _ ← when (0 <? timeout) (
        rc ← next_input k_polls put_polls 1;
        if rc =? 1 then mret tt
        else if rc =? 0 then throw (Rc FLOM_RC_NETWORK_TIMEOUT)
        else if rc =? -1 then throw (Rc FLOM_RC_POLL_ERROR)
        else throw (Rc FLOM_RC_INTERNAL_ERROR));
  next_input k_recvs put_recvs (RecvFails FLOM_RC_RECV_ERROR).

(** [flom_conn_terminate]; a descriptor that [close] has taken is not open any
    more. *)
Definition client_terminate (c : conn_ref) : Km unit :=
  before ← on_kworld (deref c);
  _ ← on_knet (flom_conn_terminate c);
  after ← on_kworld (deref c);
  when (has_fd before && negb (has_fd after)) (sys_close (c_fd before)).

Section client.
Context `{Glib, System}.

(** Sending the message the call works on *)
Definition send_kmsg (c : conn_ref) : Km unit :=
  m ← gets k_msg;
  text ← of_result (flom_msg_serialize FLOM_NETWORK_BUFFER_SIZE m);
  _ ← on_kworld (flom_conn_send c text);
  on_kworld (flom_conn_set_last_step c (msg_step m)).

(** ** [flom_client_lock] *)

(** The request, from the configuration *)
Definition lock_request_of (cf : config_ref) : Km flom_msg :=
  id ← on_kworld (gets w_machine_id);
  peerid ← of_option (Rc FLOM_RC_NULL_OBJECT) id;
  name ← on_configs (flom_config_get_resource_name cf);
  name ← of_option (Rc FLOM_RC_G_STRDUP_ERROR) name;
  mode ← on_configs (flom_config_get_lock_mode cf);
  timeout ← on_configs (flom_config_get_resource_timeout cf);
  quantity ← on_configs (flom_config_get_resource_quantity cf);
  create ← on_configs (flom_config_get_resource_create cf);
  lifespan ← on_configs (flom_config_get_resource_idle_lifespan cf);
  mret (Msg FLOM_MSG_STATE_INITIALIZED (Header FLOM_MSG_LEVEL FLOM_MSG_VERB_LOCK FLOM_MSG_STEP_INCR)
    (body_lock_8_ (Lock_8 (Some peerid) (Some name) mode (if timeout =? 0 then 0 else 1)
       quantity create lifespan))).

(** The first answer: complete, and of the right verb and step *)
Definition check_answer (cf : config_ref) (c : conn_ref) : Km unit :=
  m ← gets k_msg;
  _ ← when (negb (bool_decide (m_state m = FLOM_MSG_STATE_READY))) (
        if h_level (m_header m) =? FLOM_MSG_LEVEL then throw (Rc FLOM_RC_MSG_DESERIALIZE_ERROR)
        else throw (Rc FLOM_RC_PROTOCOL_LEVEL_MISMATCH));
  _ ← when (negb (msg_verb m =? FLOM_MSG_VERB_LOCK) || negb (msg_step m =? 2 * FLOM_MSG_STEP_INCR))
        (throw (Rc FLOM_RC_PROTOCOL_ERROR));
  _ ← of_option Ub (flom_msg_get_peerid m);
  check ← on_configs (flom_config_get_tls_check_peer_id cf);
  when (negb (check =? 0)) (
    o ← on_kworld (deref c);
    _ ← when (negb (c_tls o)) (throw (Rc FLOM_RC_NO_TLS_CONNECTION));
    _ ← of_option (Rc FLOM_RC_NULL_OBJECT) (flom_tcp_retrieve_peer_name o);
    rc ← flom_tls_call;
    when (negb (rc =? FLOM_RC_OK)) (throw (Rc rc))).

(** [flom_client_wait_lock].  [mba] is the answer of the previous message, or
    nothing: the variable of the code is not initialised and keeps its value
    when a message is not of verb LOCK. *)
Definition wait_answer (m : flom_msg) (mba : option body_answer) : err + option body_answer :=
  let some (o : option body_answer) := match o with Some a => inr (Some a) | None => inl Ub end in
  if msg_verb m =? FLOM_MSG_VERB_LOCK then
    if msg_step m =? 2 * FLOM_MSG_STEP_INCR then some (snd <$> get_lock_16 (m_body m))
    else if msg_step m =? 3 * FLOM_MSG_STEP_INCR then some (get_lock_24 (m_body m))
    else if msg_step m =? 4 * FLOM_MSG_STEP_INCR then
      match get_lock_24 (m_body m) with
      | None => inl Ub
      | Some a => if a_rc a =? FLOM_RC_OK then inr (Some a) else inl (Rc FLOM_RC_LOCK_CANT_LOCK)
      end
    else inl (Rc FLOM_RC_PROTOCOL_ERROR)
  else inr mba.

Definition receive_kmsg (c : conn_ref) (r : recv_result) : Km unit :=
  match r with
  | RecvFails rc => throw (Rc rc)
  | RecvClosed =>
      _ ← free_and_init_kmsg;
      _ ← deserialize_kmsg [] true;
      m ← gets k_msg;
      on_kworld (flom_conn_set_last_step c (msg_step m))
  | RecvData events well_formed =>
      _ ← free_and_init_kmsg;
      _ ← deserialize_kmsg events well_formed;
      m ← gets k_msg;
      on_kworld (flom_conn_set_last_step c (msg_step m))
  end.

Fixpoint wait_loop (fuel : nat) (c : conn_ref) (timeout : Z) (mba : option body_answer) : Km unit :=
  match fuel with
  | O => throw NoFuel
  | S fuel =>
      r ← client_recv timeout;
      _ ← receive_kmsg c r;
      m ← gets k_msg;
      mba ← of_result (wait_answer m mba);
      a ← of_option Ub mba;
      if a_rc a =? FLOM_RC_LOCK_ENQUEUED then wait_loop fuel c timeout mba else mret tt
  end.

Definition flom_client_wait_lock (c : conn_ref) (timeout : Z) : Km unit := fun s =>
  wait_loop (S (length (k_recvs s))) c timeout None s.

(** The name of the element locked: a message that names none leaves the
    former one. *)
Definition new_element (element : option string) (a : body_answer) : option string :=
  match a_element a with Some e => Some e | None => element end.

Definition client_lock_answer (c : conn_ref) (timeout : Z) (element : option string)
    : Km (option string) :=
  m ← gets k_msg;
  '(_, a) ← of_option Ub (get_lock_16 (m_body m));
  let rc := a_rc a in
  if rc =? FLOM_RC_OK then mret (new_element element a)
  else if (rc =? FLOM_RC_LOCK_ENQUEUED) || (rc =? FLOM_RC_LOCK_WAIT_RESOURCE) then
    _ ← flom_client_wait_lock c timeout;
    o ← on_kworld (deref c);
    if (c_last_step o =? 3 * FLOM_MSG_STEP_INCR) || (c_last_step o =? 4 * FLOM_MSG_STEP_INCR) then
      m ← gets k_msg;
      a ← of_option Ub (get_lock_24 (m_body m));
      mret (new_element element a)
    else throw (Rc FLOM_RC_INTERNAL_ERROR)
  else if (rc =? FLOM_RC_LOCK_BUSY) || (rc =? FLOM_RC_LOCK_IMPOSSIBLE)
          || (rc =? FLOM_RC_LOCK_CANT_WAIT) then throw (Rc rc)
  else throw (Rc FLOM_RC_PROTOCOL_ERROR).

(** The new value of [*element] *)
Definition flom_client_lock (cf : config_ref) (c : conn_ref) (timeout : Z)
    (element : option string) : Km (option string) :=
  finally (
    _ ← on_kmsg (modify (fun _ => flom_msg_init));
    request ← lock_request_of cf;
    _ ← on_kmsg (modify (fun _ => request));
    _ ← send_kmsg c;
    _ ← on_kmsg flom_msg_free;
    _ ← on_kmsg (modify (fun _ => flom_msg_init));
    r ← client_recv timeout;
    match r with
    | RecvFails rc => throw (Rc rc)
    | RecvClosed => throw (Rc FLOM_RC_CONNECTION_CLOSED_BY_SERVER)
    | RecvData events well_formed =>
        ok ← sys_ok;
        _ ← when (negb ok) (throw (Rc FLOM_RC_G_MARKUP_PARSE_CONTEXT_NEW_ERROR));
        r ← attempt (deserialize_kmsg events well_formed);
        _ ← match r with inl _ => throw (Rc FLOM_RC_MSG_DESERIALIZE_ERROR) | inr _ => mret tt end;
        m ← gets k_msg;
        _ ← on_kworld (flom_conn_set_last_step c (msg_step m));
        _ ← check_answer cf c;
        client_lock_answer c timeout element
    end) (ignore_rc (on_kmsg flom_msg_free)).

(** ** [flom_client_unlock] *)
Definition flom_client_unlock (cf : config_ref) (c : conn_ref) (rollback : bool) : Km unit :=
  name ← on_configs (flom_config_get_resource_name cf);
  name ← of_option (Rc FLOM_RC_G_STRDUP_ERROR) name;
  _ ← on_kmsg (modify (fun _ =>
        Msg FLOM_MSG_STATE_INITIALIZED (Header FLOM_MSG_LEVEL FLOM_MSG_VERB_UNLOCK FLOM_MSG_STEP_INCR)
          (body_unlock_8 (Some name) (if rollback then 1 else 0))));
  _ ← send_kmsg c;
  on_kmsg flom_msg_free.

(** ** [flom_client_disconnect]: the results of [shutdown] and [recv] are only
    traced *)
Definition flom_client_disconnect (c : conn_ref) : Km unit := client_terminate c.

(** ** [flom_client_shutdown] *)

(** [flom_conn_new]: it does not survive a failure of the allocator. *)
Definition fresh_conn (w : world) : conn_ref :=
  Pos.succ (map_fold (fun k _ acc => Pos.max k acc) 1%positive (w_conns w)).
Definition flom_conn_new : Km conn_ref :=
  ok ← on_kworld g_try_malloc;
  _ ← when (negb ok) (throw Ub);
  ok ← on_kworld g_try_malloc;
  _ ← when (negb ok) (throw Ub);
  w ← on_kworld (gets id);
  let c := fresh_conn w in
  _ ← on_kworld (modify (fun w => set_conns
        (<[c := Conn 0 FLOM_CONN_STATE_DAEMON false 0 None false 0 flom_msg_init]> (w_conns w)) w));
  mret c.

Definition flom_client_shutdown (cf : config_ref) (immediate : Z) : Km unit :=
  c ← flom_conn_new;
  finally (
    _ ← on_kmsg (modify (fun _ => flom_msg_init));
    _ ← flom_client_connect cf c false;
    id ← on_kworld (gets w_machine_id);
    peerid ← of_option (Rc FLOM_RC_NULL_OBJECT) id;
    _ ← on_kmsg (modify (fun _ =>
          Msg FLOM_MSG_STATE_INITIALIZED
            (Header FLOM_MSG_LEVEL FLOM_MSG_VERB_MNGMNT FLOM_MSG_STEP_INCR)
            (body_mngmnt_8 (Some peerid) FLOM_MSG_MNGMNT_ACTION_SHUTDOWN immediate)));
    _ ← send_kmsg c;
    _ ← attempt (client_recv 1000);
    flom_client_disconnect c)
  (_ ← on_kworld (flom_conn_delete c); ignore_rc (on_kmsg flom_msg_free)).
End client.

(** ** The requests are docile too *)
Lemma keeps_conns_bind {A B} (m : Cm A) (k : A -> Cm B) :
  keeps_conns m -> (forall a, keeps_conns (k a)) -> keeps_conns (m ≫= k).
Proof.
  intros Hm Hk n c Hc. unfold mbind, M_bind. specialize (Hm n c Hc).
  destruct (m n) as [[e|a] n']; [done | by apply Hk].
Qed.

Lemma keeps_conns_terminate c : keeps_conns (flom_conn_terminate c).
Proof.
  assert (Hdone : forall A (r : err + A), keeps_conns (fun n : net => (r, n)))
    by (intros A r n c' Hc; exact Hc).
  assert (Hstore : forall f, keeps_conns (on_nworld (store c f)))
    by (intros; apply keeps_on_nworld, keeps_table_store).
  assert (Hclose : keeps_conns close_fd).
  { intros n c' Hc. unfold close_fd. by destruct (n_closes n). }
  assert (Hderef : keeps_conns (on_nworld (deref c)))
    by apply keeps_on_nworld, keeps_table_deref.
  unfold flom_conn_terminate, flom_tcp_close.
  apply keeps_conns_bind; [done|]. intros o. destruct (c_state o); [..|apply Hdone].
  all: apply keeps_conns_bind; [apply Hstore|]; intros _; destruct (has_fd o); [|apply Hdone]; cbn [when];
    apply keeps_conns_bind; [done|]; intros o'; destruct (has_fd o'); [|apply Hdone]; cbn [when];
    apply keeps_conns_bind; [done|]; intros []; [apply Hstore | apply Hdone].
Qed.

Lemma docile_client_recv cf timeout : docile cf (client_recv timeout).
Proof. unfold client_recv. solve_docile. Qed.
Lemma docile_client_terminate cf c : docile cf (client_terminate c).
Proof.
  unfold client_terminate. apply docile_bind; [solve_docile|]. intros before.
  apply docile_bind; [apply docile_on_knet, keeps_conns_terminate|]. solve_docile.
Qed.
#[export] Hint Resolve docile_client_recv docile_client_terminate : docile.

Section docile_requests.
Context `{Glib, System}.

Lemma docile_send_kmsg cf c : docile cf (send_kmsg c).
Proof. unfold send_kmsg. solve_docile. Qed.
Lemma docile_receive_kmsg cf c r : docile cf (receive_kmsg c r).
Proof. unfold receive_kmsg. solve_docile. Qed.
Hint Resolve docile_send_kmsg docile_receive_kmsg : docile.

Lemma docile_wait_lock cf c timeout : docile cf (flom_client_wait_lock c timeout).
Proof.
  assert (Hl : forall fuel mba, docile cf (wait_loop fuel c timeout mba)).
  { induction fuel; intros mba; cbn [wait_loop]; solve_docile. }
  intros s. apply Hl.
Qed.
Hint Resolve docile_wait_lock : docile.

Lemma docile_client_lock cf c timeout element : docile cf (flom_client_lock cf c timeout element).
Proof. unfold flom_client_lock, lock_request_of, check_answer, client_lock_answer. solve_docile. Qed.
Lemma docile_client_unlock cf c b : docile cf (flom_client_unlock cf c b).
Proof. unfold flom_client_unlock. solve_docile. Qed.
Lemma docile_client_disconnect cf c : docile cf (flom_client_disconnect c).
Proof. apply docile_client_terminate. Qed.
End docile_requests.
#[export] Hint Resolve docile_client_lock docile_client_unlock docile_client_disconnect : docile.
