(* ===== verification/Exchange.v ===== *)
(** * Exchange: a client and a locker, together

    The two ends of a lock request: [flom_client_lock] of
    [src/src/flom_client.c], which sends the request that the configuration
    describes and acts on what it hears, and [flom_locker_loop_pollin] of
    [src/src/flom_locker.c], which hands the request to the resource and sends
    the answer; between them, the messages as text ([MsgRound]).  The client is
    told it has the lock exactly when it is among the holders. *)
From Stdlib Require Import ZArith String List Lia.
From stdpp Require Import base list gmap numbers strings.
From S2P Require Import Prelude Types CStr RsrcName Msg MsgXml MsgRound Vfs World Config LockMode.
From S2P Require Import ConnLock Resource Simple Conns Locker Serve Connect Client.
Local Open Scope Z_scope.

(** ** The client *)
Definition kworld (k : client) : world := n_world (k_net k).

(** What the client asks for, from its configuration [g] and its identifier *)
Definition request_body (g : configs) (cf : config_ref) (peer : option string)
    : option body_lock_8 :=
  o ← config_at g cf;
  name ← content g cf resource_name;
  p ← peer;
  Some (Lock_8 (Some p) (Some name) (ints o config_lock_mode)
    (if ints o Config.resource_timeout =? 0 then 0 else 1)
    (ints o resource_quantity) (ints o resource_create) (ints o resource_idle_lifespan)).
Definition request_of (b : body_lock_8) : flom_msg :=
  Msg FLOM_MSG_STATE_INITIALIZED (Header FLOM_MSG_LEVEL FLOM_MSG_VERB_LOCK FLOM_MSG_STEP_INCR)
    (body_lock_8_ b).

(** The connection works and the memory suffices: what has been sent so far is
    [sent], what will be heard is [recvs]. *)
Record talking (c : conn_ref) (g : configs) (peer : option string) (sent : list (conn_ref * string))
    (recvs : list recv_result) (k : client) : Prop := Talking {
  tk_live : live (kworld k) c;
  tk_sends : sends_ok (kworld k);
  tk_polls : Forall (eq 1) (k_polls k);
  tk_calls : Forall (eq true) (k_calls k);
  tk_configs : k_configs k = g;
  tk_peer : w_machine_id (kworld k) = peer;
  tk_sent : w_sent (kworld k) = sent;
  tk_recvs : k_recvs k = recvs
}.

Section client_side.
Context `{Glib}.
Context (c : conn_ref) (g : configs) (peer : option string).
Implicit Type k : client.

Lemma talking_msg m sent recvs k : talking c g peer sent recvs k -> talking c g peer sent recvs (put_kmsg m k).
Proof. by intros []. Qed.

Lemma wp_set_kmsg m sent recvs (Q : err + unit -> client -> Prop) k :
  talking c g peer sent recvs k ->
  (forall k', talking c g peer sent recvs k' -> k_msg k' = m -> Q (inr tt) k') ->
  wp (on_kmsg (modify (fun _ => m))) Q k.
Proof. intros Ht HQ. unfold on_kmsg. wp_step. wp_step. apply HQ; [by apply talking_msg | done]. Qed.

Lemma wp_free_kmsg sent recvs m (Q : err + unit -> client -> Prop) k :
  talking c g peer sent recvs k -> flom_msg_free (k_msg k) = (inr tt, m) ->
  (forall k', talking c g peer sent recvs k' -> Q (inr tt) k') ->
  wp (on_kmsg flom_msg_free) Q k.
Proof.
  intros Ht Hf HQ. unfold on_kmsg. wp_step. eapply wp_exact; [exact Hf|]. by apply HQ, talking_msg.
Qed.

(** The step of the connection *)
Definition at_step (v : Z) k : Prop :=
  exists o, w_conns (kworld k) !! c = Some o /\ c_last_step o = v.

Lemma wp_set_step v sent recvs (Q : err + unit -> client -> Prop) k :
  talking c g peer sent recvs k ->
  (forall k', talking c g peer sent recvs k' -> k_msg k' = k_msg k -> at_step v k' -> Q (inr tt) k') ->
  wp (on_kworld (flom_conn_set_last_step c v)) Q k.
Proof.
  intros [(o & Ho & Hw) ? ? ? ? ? ? ?] HQ. unfold on_kworld, on_knet, on_nworld. do 2 wp_step.
  unfold kworld in Ho. eapply wp_exact.
  { unfold flom_conn_set_last_step, deref, mbind, M_bind, gets. rewrite Ho. reflexivity. }
  apply HQ; [|done|].
  - split; [|done..]. exists (set_last_step v o). split; [apply lookup_insert_eq | done].
  - exists (set_last_step v o). split; [apply lookup_insert_eq | done].
Qed.

Lemma wp_send_kmsg text sent recvs (Q : err + unit -> client -> Prop) k :
  talking c g peer sent recvs k ->
  flom_msg_serialize FLOM_NETWORK_BUFFER_SIZE (k_msg k) = inr text ->
  (forall k', talking c g peer (sent ++ [(c, text)]) recvs k' -> k_msg k' = k_msg k -> Q (inr tt) k') ->
  wp (send_kmsg c) Q k.
Proof.
  intros Ht Hs HQ. unfold send_kmsg. do 3 wp_step. rewrite Hs. apply wp_ret. wp_step.
  unfold on_kworld at 1, on_knet, on_nworld. do 2 wp_step.
  assert (Ht' := Ht). destruct Ht as [(o & Ho & Hw) Hok ? ? ? ? Hsent ?].
  eapply wp_exact; [by apply (conn_send_ok c o)|].
  cbn beta iota. eapply (wp_set_step _ (sent ++ [(c, text)]) recvs);
    [|intros k' Hk' Hm _; exact (HQ k' Hk' Hm)].
  split; cbn; try done.
  - by exists o.
  - unfold sends_ok, kworld in *. cbn. by destruct Hok.
  - by rewrite <- Hsent.
Qed.

Lemma wp_hear timeout r sent recvs (Q : err + recv_result -> client -> Prop) k :
  talking c g peer sent (r :: recvs) k ->
  (forall k', talking c g peer sent recvs k' -> k_msg k' = k_msg k -> w_conns (kworld k') = w_conns (kworld k) ->
     Q (inr r) k') ->
  wp (client_recv timeout) Q k.
Proof.
  intros [? ? Hp ? ? ? ? Hr] HQ. unfold client_recv. wp_step.
  assert (Hnext : forall l, Forall (eq 1) l ->
    wp (next_input k_recvs put_recvs (RecvFails FLOM_RC_RECV_ERROR)) Q (put_polls l k)).
  { intros l Hl. unfold next_input, wp. cbn. rewrite Hr. by apply HQ. }
  wp_step; [|replace k with (put_polls (k_polls k) k) by (by destruct k); by apply Hnext].
  wp_step. unfold next_input at 1, wp at 1. destruct (k_polls k) as [|p l] eqn:El; cbn [fst snd].
  - cbn. replace k with (put_polls [] k) by (destruct k; cbn in *; by subst). by apply Hnext.
  - inversion Hp as [|? ? <- Hl]. subst. cbn. by apply Hnext.
Qed.

Lemma wp_understand events m sent recvs (Q : err + unit -> client -> Prop) k :
  talking c g peer sent recvs k -> markup_callbacks events (k_msg k) = Some m ->
  (forall k', talking c g peer sent recvs k' -> k_msg k' = m -> Q (inr tt) k') ->
  wp (deserialize_kmsg events true) Q k.
Proof.
  intros Ht Hm HQ. unfold deserialize_kmsg. do 3 wp_step. rewrite Hm. apply wp_ret. wp_step.
  eapply wp_set_kmsg; [done|]. intros k' Ht' Hm'. wp_step; [done|]. by apply HQ.
Qed.
(** Reading the configuration *)
Lemma read_int f cf o k :
  config_at (k_configs k) cf = Some o -> on_configs (get_int f cf) k = (inr (ints o f), k).
Proof.
  intros Ho. unfold on_configs, zoom, get_int, the_config, mbind, M_bind, gets.
  change (match cf with None => Some (global_config (k_configs k)) | Some p => g_configs (k_configs k) !! p end)
    with (config_at (k_configs k) cf). rewrite Ho. by destruct k.
Qed.

Lemma read_str f cf name k :
  content (k_configs k) cf f = Some name -> on_configs (get_str f cf) k = (inr (Some name), k).
Proof.
  intros Hn. unfold on_configs, zoom, get_str, the_config, mbind, M_bind, gets.
  change (match cf with None => Some (global_config (k_configs k)) | Some p => g_configs (k_configs k) !! p end)
    with (config_at (k_configs k) cf).
  unfold content in Hn. destruct (config_at (k_configs k) cf) as [o|]; [|done]. cbn in *.
  unfold c_str. destruct (strs o f) as [l|]; [|done]. cbn in Hn. rewrite Hn. by destruct k.
Qed.

Lemma wp_lock_request cf b sent recvs (Q : err + flom_msg -> client -> Prop) k :
  talking c g peer sent recvs k -> request_body g cf peer = Some b ->
  Q (inr (request_of b)) k -> wp (lock_request_of cf) Q k.
Proof.
  intros [_ _ _ _ Hg Hp _ _] Hb HQ. unfold request_body in Hb.
  destruct (config_at g cf) as [o|] eqn:Ho; [|done]. cbn in Hb.
  destruct (content g cf resource_name) as [name|] eqn:Hn; [|done]. cbn in Hb.
  destruct peer as [p|]; [|done]. injection Hb as <-. subst g.
  unfold lock_request_of, flom_config_get_resource_name, flom_config_get_lock_mode,
    flom_config_get_resource_timeout, flom_config_get_resource_quantity, flom_config_get_resource_create,
    flom_config_get_resource_idle_lifespan.
  wp_step. unfold on_kworld, on_knet, on_nworld. do 3 wp_step.
  replace (put_knet _ k) with k by (by destruct k as [[]]).
  unfold kworld in Hp. change (w_machine_id (n_world (k_net k))) with (w_machine_id (kworld k)) in *.
  rewrite Hp. wp_step. apply wp_ret. wp_step. eapply wp_exact; [by apply read_str|]. cbn beta iota.
  wp_step. apply wp_ret.
  do 5 (wp_step; eapply wp_exact; [by apply read_int|]; cbn beta iota). exact HQ.
Qed.

Lemma wp_check_answer cf mid rc element sent recvs o (Q : err + unit -> client -> Prop) k :
  talking c g peer sent recvs k -> k_msg k = lock_answer mid rc element ->
  config_at g cf = Some o -> ints o tls_check_peer_id = 0 ->
  Q (inr tt) k -> wp (check_answer cf c) Q k.
Proof.
  intros [_ _ _ _ Hg _ _ _] Hm Ho Hc HQ. subst g. unfold check_answer, flom_config_get_tls_check_peer_id.
  do 2 wp_step. rewrite Hm. wp_step. apply wp_ret. wp_step. apply wp_ret. wp_step. apply wp_ret.
  wp_step. eapply wp_exact; [by apply read_int|]. rewrite Hc. exact HQ.
Qed.
(** ** What the client makes of an answer *)
Definition granted_msg_read (el : option string) : flom_msg :=
  Msg FLOM_MSG_STATE_READY (Header FLOM_MSG_LEVEL FLOM_MSG_VERB_LOCK (3 * FLOM_MSG_STEP_INCR))
    (body_lock_24 (Answer FLOM_RC_OK el)).
(** The element of an answer, or the one the caller had *)
Definition named (el element : option string) : option string :=
  match el with Some e => Some e | None => element end.
Definition can_free (m : flom_msg) : Prop := exists m', flom_msg_free m = (inr tt, m').

(** The notification that ends the wait *)
Lemma wp_wait_granted timeout gevents el m sent recvs (Q : err + unit -> client -> Prop) k :
  talking c g peer sent (RecvData gevents true :: recvs) k -> k_msg k = m -> can_free m ->
  markup_callbacks gevents flom_msg_init = Some (granted_msg_read el) ->
  (forall k', talking c g peer sent recvs k' -> k_msg k' = granted_msg_read el ->
     at_step (3 * FLOM_MSG_STEP_INCR) k' -> Q (inr tt) k') ->
  wp (flom_client_wait_lock c timeout) Q k.
Proof.
  intros Ht <- [m' Hf] He HQ.
  change (wp (wait_loop (S (length (k_recvs k))) c timeout None) Q k). cbn [wait_loop].
  wp_step. eapply wp_hear; [exact Ht|]. intros k1 Ht1 Hm1 _. wp_step. unfold receive_kmsg, free_and_init_kmsg.
  do 2 wp_step. wp_step. rewrite <- Hm1 in Hf. eapply wp_free_kmsg; [exact Ht1 | exact Hf|].
  intros k2 Ht2. eapply wp_set_kmsg; [exact Ht2|]. intros k3 Ht3 Hm3. wp_step.
  eapply wp_understand; [exact Ht3 | by rewrite Hm3|]. intros k4 Ht4 Hm4. do 2 wp_step. rewrite Hm4.
  eapply wp_set_step; [exact Ht4|]. intros k5 Ht5 Hm5 Hs5. do 2 wp_step.
  rewrite Hm5, Hm4. wp_step. apply wp_ret. wp_step. apply wp_ret. wp_step; [done|]. wp_step.
  apply HQ; [done | congruence | done].
Qed.

Lemma wp_answer_granted mid el timeout element (Q : err + option string -> client -> Prop) k :
  k_msg k = lock_answer mid FLOM_RC_OK el -> Q (inr (named el element)) k ->
  wp (client_lock_answer c timeout element) Q k.
Proof. intros Hm HQ. unfold client_lock_answer. do 2 wp_step. rewrite Hm. wp_step. by apply wp_ret. Qed.

Lemma wp_answer_refused mid rc el timeout element (Q : err + option string -> client -> Prop) k :
  rc = FLOM_RC_LOCK_BUSY \/ rc = FLOM_RC_LOCK_IMPOSSIBLE ->
  k_msg k = lock_answer mid rc el -> Q (inl (Rc rc)) k ->
  wp (client_lock_answer c timeout element) Q k.
Proof.
  intros Hrc Hm HQ. unfold client_lock_answer. do 2 wp_step. rewrite Hm. wp_step.
  destruct Hrc as [-> | ->]; by apply wp_ret.
Qed.

Lemma wp_answer_enqueued mid el0 el timeout element gevents sent recvs
    (Q : err + option string -> client -> Prop) k :
  talking c g peer sent (RecvData gevents true :: recvs) k ->
  k_msg k = lock_answer mid FLOM_RC_LOCK_ENQUEUED el0 ->
  markup_callbacks gevents flom_msg_init = Some (granted_msg_read el) ->
  (forall k', talking c g peer sent recvs k' -> k_msg k' = granted_msg_read el -> Q (inr (named el element)) k') ->
  wp (client_lock_answer c timeout element) Q k.
Proof.
  intros Ht Hm He HQ. unfold client_lock_answer. do 2 wp_step. rewrite Hm. wp_step. apply wp_ret.
  wp_step; [done|]. wp_step; [|done]. wp_step.
  eapply wp_wait_granted; [exact Ht | exact Hm | by eexists | exact He|]. intros k' Ht' Hm' (o & Ho & Hs).
  unfold on_kworld, on_knet, on_nworld. do 3 wp_step. unfold kworld in Ho. eapply wp_exact.
  { unfold deref, mbind, M_bind, gets. rewrite Ho. reflexivity. }
  cbn beta iota. rewrite Hs. replace (put_knet _ k') with k' by (by destruct k' as [[]]).
  wp_step; [|done]. do 2 wp_step. rewrite Hm'. wp_step. apply wp_ret. wp_step. by apply HQ.
Qed.

(** ** The whole call *)
Lemma wp_sys_ok sent recvs (Q : err + bool -> client -> Prop) k :
  talking c g peer sent recvs k ->
  (forall k', talking c g peer sent recvs k' -> k_msg k' = k_msg k -> Q (inr true) k') -> wp sys_ok Q k.
Proof.
  intros Ht HQ. unfold wp, sys_ok, next_input. destruct (k_calls k) as [|b l] eqn:El; [by apply HQ|].
  destruct Ht as [? ? ? Hc ? ? ? ?]. rewrite El in Hc. inversion Hc as [|? ? <- Hl]. subst.
  apply HQ; [by split | done].
Qed.

(** The message is freed however the call ends. *)
Lemma wp_last_free {A} (e : M err client A) sent recvs (Q : err + A -> client -> Prop) k :
  talking c g peer sent recvs k -> can_free (k_msg k) ->
  (forall k', talking c g peer sent recvs k' -> wp e Q k') ->
  wp (_ ← ignore_rc (on_kmsg flom_msg_free); e) Q k.
Proof.
  intros Ht [m Hm] HQ. do 2 wp_step. eapply wp_free_kmsg; [exact Ht | exact Hm|]. exact HQ.
Qed.

Lemma wp_client_lock cf timeout element b mid rc el text events o sent recvs
    (P : err + option string -> Prop) k :
  talking c g peer sent (RecvData events true :: recvs) k ->
  request_body g cf peer = Some b -> flom_msg_serialize FLOM_NETWORK_BUFFER_SIZE (request_of b) = inr text ->
  markup_callbacks events flom_msg_init = Some (lock_answer mid rc el) ->
  config_at g cf = Some o -> ints o tls_check_peer_id = 0 ->
  (forall k', talking c g peer (sent ++ [(c, text)]) recvs k' -> k_msg k' = lock_answer mid rc el ->
     wp (client_lock_answer c timeout element) (fun r k'' =>
       P r /\ can_free (k_msg k'') /\
       exists recvs', talking c g peer (sent ++ [(c, text)]) recvs' k'') k') ->
  wp (flom_client_lock cf c timeout element) (fun r k' =>
    P r /\ w_sent (kworld k') = sent ++ [(c, text)]) k.
Proof.
  intros Ht Hb Hs He Ho Hc HQ. unfold flom_client_lock. do 2 wp_step.
  eapply wp_set_kmsg; [exact Ht|]. intros k1 Ht1 _. wp_step. eapply wp_lock_request; [exact Ht1 | exact Hb|].
  wp_step. eapply wp_set_kmsg; [exact Ht1|]. intros k2 Ht2 Hm2. wp_step.
  eapply wp_send_kmsg; [exact Ht2 | by rewrite Hm2|]. intros k3 Ht3 Hm3. wp_step.
  eapply wp_free_kmsg; [exact Ht3 | rewrite Hm3, Hm2; reflexivity|]. intros k4 Ht4. wp_step.
  eapply wp_set_kmsg; [exact Ht4|]. intros k5 Ht5 Hm5. wp_step.
  eapply wp_hear; [exact Ht5|]. intros k6 Ht6 Hm6 _. cbn beta iota. wp_step.
  eapply wp_sys_ok; [exact Ht6|]. intros k7 Ht7 Hm7. do 2 wp_step; [done|]. do 2 wp_step.
  eapply wp_understand; [exact Ht7 | by rewrite Hm7, Hm6, Hm5|]. intros k8 Ht8 Hm8. cbn beta iota.
  wp_step. wp_step. do 2 wp_step. rewrite Hm8. wp_step.
  eapply wp_set_step; [exact Ht8|]. intros k9 Ht9 Hm9 _. wp_step.
  eapply wp_check_answer; [exact Ht9 | by rewrite Hm9 | exact Ho | exact Hc|].
  eapply wp_mono; [|by eapply HQ; [exact Ht9 | rewrite Hm9]].
  intros r k10 (HP & Hf & recvs' & Ht10). destruct r as [[rc'| |]|a].
  - eapply wp_last_free; [exact Ht10 | exact Hf|]. intros k11 Ht11. wp_step. split; [done | apply Ht11].
  - split; [done | apply Ht10].
  - split; [done | apply Ht10].
  - eapply wp_last_free; [exact Ht10 | exact Hf|]. intros k11 Ht11. wp_step. split; [done | apply Ht11].
Qed.
End client_side.

(** ** What a resource promises to the clients

    The answer to a lock request, as a function of the state: the reason code,
    the element named and the new state.  A client that is told [FLOM_RC_OK] is
    a holder, and one that is told anything else has not changed the holders. *)
Class Answering (D : Type) `{Resource D} (ok : D -> body_lock_8 -> Prop) : Type := {
  respond : D -> conn_ref -> body_lock_8 -> Z * option string * D;
  holder : D -> conn_ref -> Prop;
  respond_code d conn b : ok d b ->
    In (respond d conn b).1.1
      [FLOM_RC_OK; FLOM_RC_LOCK_ENQUEUED; FLOM_RC_LOCK_BUSY; FLOM_RC_LOCK_IMPOSSIBLE];
  respond_holder d conn b : ok d b ->
    if (respond d conn b).1.1 =? FLOM_RC_OK then holder (respond d conn b).2 conn
    else forall x, holder (respond d conn b).2 x <-> holder d x;
  inmsg_responds uid conn mid b s : ok (s_data s) b -> s_msg s = lock_request b ->
    can_answer (s_world s) conn mid ->
    wp (res_inmsg uid conn) (fun r s' =>
      r = inr tt /\ same_net (s_world s) (s_world s') /\
      s_msg s' = lock_answer mid (respond (s_data s) conn b).1.1 (respond (s_data s) conn b).1.2 /\
      s_data s' = (respond (s_data s) conn b).2) s
}.

(** ** The locker *)
Section locker_side.
Context `{Glib} {D : Type} `{Resource D} {ok : D -> body_lock_8 -> Prop} `{!Answering D ok}.

(** The message of the connection [conn] is the request [b]; the locker can
    answer it. *)
Record asked (conn : conn_ref) (mid : string) (b : body_lock_8) (w : world) : Prop := Asked {
  as_conn : exists o, w_conns w !! conn = Some o /\ writable o = true /\
              c_last_step o = FLOM_MSG_STEP_INCR /\ c_msg o = lock_request b;
  as_mid : w_machine_id w = Some mid;
  as_mallocs : Forall (eq true) (w_mallocs w);
  as_sends : sends_ok w
}.

(** What the locker has done once it has answered with [text] *)
Definition answered (conn : conn_ref) (b : body_lock_8) (text : string) (s s' : lstate D) : Prop :=
  lk_data (l_locker s') = (respond (lk_data (l_locker s)) conn b).2 /\
  w_sent (n_world (l_net s')) = w_sent (n_world (l_net s)) ++ [(conn, text)].

(** One operation on the world, and one use of a connection *)
Definition set_lworld (w : world) (s : lstate D) : lstate D := put_net (put_nworld w (l_net s)) s.
Lemma wp_on_lworld {A} (m : Wm A) (Q : err + A -> lstate D -> Prop) s r w :
  m (n_world (l_net s)) = (r, w) -> Q r (set_lworld w s) -> wp (on_lworld m) Q s.
Proof.
  intros Hm HQ. unfold on_lworld, on_net, on_nworld. do 2 wp_step. by eapply wp_exact.
Qed.
Lemma wp_lderef {A} c o (f : flom_conn -> Lm D A) Q s :
  w_conns (n_world (l_net s)) !! c = Some o -> wp (f o) Q s -> wp (on_lworld (deref c) ≫= f) Q s.
Proof.
  intros Ho HQ. wp_step. eapply (wp_on_lworld _ _ _ (inr o) (n_world (l_net s))).
  - unfold deref, mbind, M_bind, gets. by rewrite Ho.
  - by destruct s as [k [] dl rd rcs].
Qed.
Lemma wp_lstore c o f (Q : err + unit -> lstate D -> Prop) s :
  w_conns (n_world (l_net s)) !! c = Some o ->
  Q (inr tt) (set_lworld (set_conns (<[c := f o]> (w_conns (n_world (l_net s)))) (n_world (l_net s))) s) ->
  wp (on_lworld (store c f)) Q s.
Proof.
  intros Ho HQ. eapply wp_on_lworld; [|exact HQ]. unfold store, deref, mbind, M_bind, gets. by rewrite Ho.
Qed.

(** The answer that the resource has left is sent; then the message is empty. *)
Lemma wp_send_answer conn o m text (Q : err + unit -> lstate D -> Prop) s :
  w_conns (n_world (l_net s)) !! conn = Some o -> writable o = true -> sends_ok (n_world (l_net s)) ->
  c_msg o = m -> m_state m = FLOM_MSG_STATE_READY -> flom_msg_serialize FLOM_MSG_BUFFER_SIZE m = inr text ->
  (forall s' o', l_locker s' = l_locker s -> w_conns (n_world (l_net s')) !! conn = Some o' -> c_msg o' = m ->
     w_sent (n_world (l_net s')) = w_sent (n_world (l_net s)) ++ [(conn, text)] -> Q (inr tt) s') ->
  wp (send_answer conn) Q s.
Proof.
  intros Ho Hw Hok Hm Hst Ht HQ. unfold send_answer. eapply wp_lderef; [exact Ho|].
  rewrite Hm, Hst, bool_decide_true by done. change (when true ?x) with x. rewrite Ht.
  do 2 wp_step. eapply wp_on_lworld; [by apply (conn_send_ok conn o)|]. cbn beta iota.
  wp_step. wp_step. eapply wp_on_lworld.
  { unfold flom_conn_set_last_step, deref, mbind, M_bind, gets. cbn. rewrite Ho. reflexivity. }
  eapply (HQ _ (set_last_step _ o)); [done | cbn; apply lookup_insert_eq | done | done].
Qed.

Lemma wp_free_conn_msg conn o m (Q : err + unit -> lstate D -> Prop) s :
  w_conns (n_world (l_net s)) !! conn = Some o -> flom_msg_free (c_msg o) = (inr tt, m) ->
  (forall s', l_locker s' = l_locker s -> w_sent (n_world (l_net s')) = w_sent (n_world (l_net s)) ->
     Q (inr tt) s') ->
  wp (free_conn_msg conn) Q s.
Proof.
  intros Ho Hf HQ. unfold free_conn_msg. eapply wp_lderef; [exact Ho|]. rewrite Hf. wp_step.
  eapply wp_lstore; [exact Ho|]. cbn beta iota. wp_step. apply wp_ret.
  eapply wp_lstore; [cbn; apply lookup_insert_eq|]. by apply HQ.
Qed.

Lemma wp_dispatch_answers conn mid b text (s : lstate D) :
  let a := (respond (lk_data (l_locker s)) conn b).1 in
  asked conn mid b (n_world (l_net s)) -> ok (lk_data (l_locker s)) b ->
  flom_msg_serialize FLOM_MSG_BUFFER_SIZE (lock_answer mid a.1 a.2) = inr text ->
  wp (dispatch conn) (fun r s' => r = inr tt /\ answered conn b text s s') s.
Proof.
  intros a [(o & Ho & Hw & Hst & Hm) Hmid Hmal Hok] Hokb Ht. unfold dispatch.
  eapply wp_lderef; [exact Ho|]. rewrite Hm. wp_step; [|done]. wp_step. unfold resource_inmsg.
  eapply wp_lderef; [exact Ho|]. do 2 wp_step. rewrite Hm. apply wp_call_method.
  eapply wp_mono; [|eapply (inmsg_responds _ conn mid b); [exact Hokb | done |]].
  2: { split; [by exists o | done]. }
  intros r t (-> & (Hc & Hs & Hsent & _) & Hmsg & Hd). cbn [s_world s_data s_msg] in *. wp_step.
  eapply wp_send_answer; cbn.
  - rewrite lookup_alter, Hc, decide_True by done. cbn. by rewrite Ho.
  - exact Hw.
  - unfold sends_ok. cbn. by rewrite Hs.
  - exact Hmsg.
  - done.
  - exact Ht.
  - intros s1 o1 Hl1 Ho1 Hm1 Hs1. eapply wp_free_conn_msg; [exact Ho1 | by rewrite Hm1|].
    intros s2 Hl2 Hs2. split; [done|]. split; [by rewrite Hl2, Hl1 | by rewrite Hs2, Hs1, Hsent].
Qed.

(** How the events of a text reach the locker, on the descriptor [i]: from the
    socket of a client it serves already, whose message is empty; or through the
    pipe, with a connection whose message the daemon has read. *)
Inductive arrives (conn : conn_ref) (events : list markup_event) : nat -> lstate D -> Prop :=
| arrives_by_socket i o recvs s :
    i <> 0%nat -> cs_array (n_conns (l_net s)) !! i = Some conn ->
    w_conns (n_world (l_net s)) !! conn = Some o -> writable o = true ->
    c_msg o = flom_msg_init -> l_recvs s = RecvData events true :: recvs ->
    arrives conn events i s
| arrives_by_pipe p o domain client_fd sequence reads s :
    cs_array (n_conns (l_net s)) !! 0%nat = Some p ->
    l_reads s = ReadToken domain client_fd sequence :: ReadConn conn :: reads ->
    w_conns (n_world (l_net s)) !! conn = Some o -> writable o = true ->
    markup_callbacks events flom_msg_init = Some (c_msg o) -> c_last_step o = msg_step (c_msg o) ->
    arrives conn events 0 s.

(** The locker can answer. *)
Definition can_reply (mid : string) (w : world) : Prop :=
  w_machine_id w = Some mid /\ Forall (eq true) (w_mallocs w) /\ sends_ok w.

Lemma wp_dispatched conn mid b text (s s1 : lstate D) :
  let a := (respond (lk_data (l_locker s)) conn b).1 in
  ok (lk_data (l_locker s)) b ->
  flom_msg_serialize FLOM_MSG_BUFFER_SIZE (lock_answer mid a.1 a.2) = inr text ->
  lk_data (l_locker s1) = lk_data (l_locker s) -> asked conn mid b (n_world (l_net s1)) ->
  w_sent (n_world (l_net s1)) = w_sent (n_world (l_net s)) ->
  wp (_ ← dispatch conn; mret false) (fun r s' => r = inr false /\ answered conn b text s s') s1.
Proof.
  intros a Hok Ht Hd Has Hs. wp_step. eapply wp_mono; [|apply (wp_dispatch_answers conn mid b text)];
    rewrite ?Hd; [|done..].
  intros r s' [-> [Hd' Hs']]. wp_step. split; [done|]. unfold answered. by rewrite Hd', Hs', Hd, Hs.
Qed.

Lemma wp_pollin_conn i c (Q : err + bool -> lstate D -> Prop) s :
  cs_array (n_conns (l_net s)) !! i = Some c ->
  wp (if (i =? 0)%nat then
        new_conn ← import_connection; _ ← dispatch new_conn; mret false
      else
        r ← flom_conn_recv;
        match r with
        | RecvFails rc => throw (Rc rc)
        | RecvClosed => _ ← on_net (flom_conns_close_fd i); _ ← resource_clean c; mret true
        | RecvData events well_formed =>
            _ ← deserialize_into c events well_formed;
            o ← on_lworld (deref c);
            _ ← on_lworld (flom_conn_set_last_step c (msg_step (c_msg o)));
            _ ← when (bool_decide (m_state (c_msg o) = FLOM_MSG_STATE_INVALID))
                  (on_net (flom_conns_close_fd i));
            _ ← dispatch c;
            mret false
        end) Q (upd_locker (set_idle_periods 0) s) ->
  wp (flom_locker_loop_pollin i) Q s.
Proof.
  intros Hc HQ. unfold flom_locker_loop_pollin. wp_step. unfold on_net at 1. wp_step.
  unfold flom_conns_get_conn at 1. wp_step. rewrite Hc. wp_step. apply wp_ret. do 2 wp_step.
  replace (put_net (l_net s) s) with s by (by destruct s). exact HQ.
Qed.

(** A message that is complete, read from the socket of a client *)
Lemma wp_pollin_read conn i o m events recvs (Q : err + bool -> lstate D -> Prop) s :
  i <> 0%nat -> cs_array (n_conns (l_net s)) !! i = Some conn ->
  w_conns (n_world (l_net s)) !! conn = Some o -> c_msg o = flom_msg_init ->
  l_recvs s = RecvData events true :: recvs ->
  markup_callbacks events flom_msg_init = Some m -> m_state m = FLOM_MSG_STATE_READY ->
  (forall s1, lk_data (l_locker s1) = lk_data (l_locker s) -> lk_name (l_locker s1) = lk_name (l_locker s) ->
     n_world (l_net s1) = set_conns (<[conn := set_last_step (msg_step m) (set_conn_msg m o)]>
       (w_conns (n_world (l_net s)))) (n_world (l_net s)) ->
     wp (_ ← dispatch conn; mret false) Q s1) ->
  wp (flom_locker_loop_pollin i) Q s.
Proof.
  intros Hi Hc Ho Hm Hr Hb Hst HQ. eapply wp_pollin_conn; [exact Hc|].
  rewrite (proj2 (Nat.eqb_neq i 0)) by done. wp_step. unfold flom_conn_recv, wp at 1. cbn [l_recvs upd_locker put_locker].
  rewrite Hr. cbn [fst snd]. wp_step. unfold deserialize_into. eapply wp_lderef; [exact Ho|].
  wp_step. rewrite Hm, Hb. apply wp_ret. wp_step. eapply wp_lstore; [exact Ho|]. cbn beta iota.
  change (when (negb true) ?x) with (mret (M := M err (lstate D)) tt). wp_step.
  eapply wp_lderef; [cbn; apply lookup_insert_eq|]. wp_step. eapply wp_on_lworld.
  { unfold flom_conn_set_last_step, deref, mbind, M_bind, gets. cbn. rewrite lookup_insert_eq. reflexivity. }
  cbn beta iota. wp_step. cbn [c_msg set_conn_msg]. rewrite Hst. wp_step; [done|].
  apply HQ; [done..|]. cbn. by rewrite insert_insert_eq.
Qed.

Lemma wp_pollin_socket conn i o mid b events recvs text (s : lstate D) :
  let a := (respond (lk_data (l_locker s)) conn b).1 in
  i <> 0%nat -> cs_array (n_conns (l_net s)) !! i = Some conn ->
  w_conns (n_world (l_net s)) !! conn = Some o -> writable o = true ->
  c_msg o = flom_msg_init -> l_recvs s = RecvData events true :: recvs ->
  markup_callbacks events flom_msg_init = Some (lock_request b) ->
  can_reply mid (n_world (l_net s)) -> ok (lk_data (l_locker s)) b ->
  flom_msg_serialize FLOM_MSG_BUFFER_SIZE (lock_answer mid a.1 a.2) = inr text ->
  wp (flom_locker_loop_pollin i) (fun r s' => r = inr false /\ answered conn b text s s') s.
Proof.
  intros a Hi Hc Ho Hw Hm Hr Hb (Hmid & Hmal & Hs) Hok Ht.
  eapply wp_pollin_read; [done..|]. intros s1 Hd _ Hw1.
  eapply (wp_dispatched conn mid b text s); [exact Hok | exact Ht | done | | by rewrite Hw1].
  rewrite Hw1. split; [|done..]. cbn. rewrite lookup_insert_eq. eexists. by split_and!.
Qed.

Lemma wp_pollin_pipe conn p o mid b domain client_fd sequence reads text (s : lstate D) :
  let a := (respond (lk_data (l_locker s)) conn b).1 in
  cs_array (n_conns (l_net s)) !! 0%nat = Some p ->
  l_reads s = ReadToken domain client_fd sequence :: ReadConn conn :: reads ->
  w_conns (n_world (l_net s)) !! conn = Some o -> writable o = true ->
  c_msg o = lock_request b -> c_last_step o = FLOM_MSG_STEP_INCR ->
  can_reply mid (n_world (l_net s)) -> ok (lk_data (l_locker s)) b ->
  flom_msg_serialize FLOM_MSG_BUFFER_SIZE (lock_answer mid a.1 a.2) = inr text ->
  wp (flom_locker_loop_pollin 0) (fun r s' => r = inr false /\ answered conn b text s s') s.
Proof.
  intros a Hp Hr Ho Hw Hm Hst (Hmid & Hmal & Hs) Hok Ht. eapply wp_pollin_conn; [exact Hp|].
  cbn [Nat.eqb]. wp_step. unfold import_connection. wp_step. unfold read_pipe at 1, wp at 1.
  cbn [l_reads upd_locker put_locker]. rewrite Hr. cbn [fst snd]. wp_step. unfold on_net at 1. do 2 wp_step.
  wp_step. unfold read_pipe at 1, wp at 1. cbn. wp_step. unfold on_net, flom_conns_import, flom_conns_add_conn.
  do 5 wp_step. eapply (wp_dispatched conn mid b text s); [exact Hok | exact Ht | done | | done].
  split; cbn; [|done..]. by exists o.
Qed.

Lemma wp_pollin_answers conn i mid b events text (s : lstate D) :
  let a := (respond (lk_data (l_locker s)) conn b).1 in
  arrives conn events i s -> markup_callbacks events flom_msg_init = Some (lock_request b) ->
  can_reply mid (n_world (l_net s)) -> ok (lk_data (l_locker s)) b ->
  flom_msg_serialize FLOM_MSG_BUFFER_SIZE (lock_answer mid a.1 a.2) = inr text ->
  wp (flom_locker_loop_pollin i) (fun r s' => r = inr false /\ answered conn b text s s') s.
Proof.
  intros a Ha Hb Hc Hok Ht.
  destruct Ha as [i o recvs s Hi Hp Ho Hw Hm Hr | p o domain fd sq reads s Hp Hr Ho Hw Hm Hst].
  - by eapply wp_pollin_socket.
  - rewrite Hb in Hm. injection Hm as Hm. eapply wp_pollin_pipe; try done. by rewrite Hst, <- Hm.
Qed.
End locker_side.

(** ** The two ends *)
Section agreement.
Context `{Glib} {D : Type} `{Resource D} {ok : D -> body_lock_8 -> Prop} `{!Answering D ok}.

(** The texts of the messages of the exchange *)
Definition request_text (l : list child) : string :=
  message_text (Header FLOM_MSG_LEVEL FLOM_MSG_VERB_LOCK FLOM_MSG_STEP_INCR) l.
Definition answer_text (mid : string) (rc : Z) (el : option string) : string :=
  message_text (Header FLOM_MSG_LEVEL FLOM_MSG_VERB_LOCK (2 * FLOM_MSG_STEP_INCR))
    [session (Some mid); MsgRound.answer (Answer rc el)].

Variable parse : string -> option (list markup_event).
Hypothesis parse_law : forall d,
  document_ok d = true -> parse (print_document d) = Some (document_events d).
Hypothesis base64_back : forall s e, g_base64_encode s = Some e -> g_base64_decode e = Some s.
Hypothesis base64_plain : forall s e, g_base64_encode s = Some e -> plain e = true.

(** A text that is parsed is read as the message it was printed from. *)
Lemma text_read m l events :
  sendable (msg_verb m) (msg_step m) (m_body m) l -> sized (m_body m) ->
  h_level (m_header m) = FLOM_MSG_LEVEL -> parse (message_text (m_header m) l) = Some events ->
  markup_callbacks events flom_msg_init =
    Some (Msg FLOM_MSG_STATE_READY (m_header m) (received (m_body m))).
Proof using parse_law base64_back base64_plain.
  intros Hs Hz Hl Hp. rewrite (msg_text_parsed parse parse_law base64_plain m l Hs Hz) in Hp.
  injection Hp as <-. by apply msg_events_received.
Qed.

Lemma answer_read mid rc el events :
  plain mid = true -> plain_option el = true -> in_int32 rc ->
  parse (answer_text mid rc el) = Some events ->
  markup_callbacks events flom_msg_init = Some (lock_answer mid rc el).
Proof using parse_law base64_back base64_plain.
  intros Hm He Hr Hp. exact (text_read (lock_answer mid rc el) _ events (send_lock_16 _ _)
    (conj Hm (conj Hr He)) eq_refl Hp).
Qed.

Lemma granted_read el events :
  plain_option el = true -> parse (granted_text el) = Some events ->
  markup_callbacks events flom_msg_init = Some (granted_msg_read el).
Proof using parse_law base64_back base64_plain.
  intros He Hp. apply (text_read (granted_msg_read el) [MsgRound.answer (Answer FLOM_RC_OK el)]);
    [constructor | by split | done |].
  rewrite <- Hp. unfold message_text, print_document, granted_text. cbn [message_document doc_children print_children].
  by rewrite string_app_nil_r.
Qed.

(** What the call returns for the answer [(rc, el)], when the notification that
    ends a wait names [el'] *)
Definition client_outcome (element : option string) (rc : Z) (el el' : option string)
    : err + option string :=
  if rc =? FLOM_RC_OK then inr (named el element)
  else if rc =? FLOM_RC_LOCK_ENQUEUED then inr (named el' element)
  else inl (Rc rc).

(** The client's end of the exchange *)
Record client_end (cf : config_ref) (c : conn_ref) (b : body_lock_8) (l : list child)
    (k : client) : Prop := Client_end {
  ce_talks : talking c (k_configs k) (w_machine_id (kworld k)) (w_sent (kworld k)) (k_recvs k) k;
  ce_asks : request_body (k_configs k) cf (w_machine_id (kworld k)) = Some b;
  ce_no_check : exists o, config_at (k_configs k) cf = Some o /\ ints o tls_check_peer_id = 0;
  ce_sendable : sendable FLOM_MSG_VERB_LOCK FLOM_MSG_STEP_INCR (body_lock_8_ b) l;
  ce_sized : sized (body_lock_8_ b);
  ce_fits : strlen (request_text l) < FLOM_NETWORK_BUFFER_SIZE
}.

Lemma client_outcome_sent cf c b l k mid rc el el' timeout element answers later :
  client_end cf c b l k ->
  In rc [FLOM_RC_OK; FLOM_RC_LOCK_ENQUEUED; FLOM_RC_LOCK_BUSY; FLOM_RC_LOCK_IMPOSSIBLE] ->
  k_recvs k = RecvData answers true :: later ->
  markup_callbacks answers flom_msg_init = Some (lock_answer mid rc el) ->
  (rc = FLOM_RC_LOCK_ENQUEUED -> exists notice rest, later = RecvData notice true :: rest /\
     markup_callbacks notice flom_msg_init = Some (granted_msg_read el')) ->
  wp (flom_client_lock cf c timeout element) (fun r k' =>
    r = client_outcome element rc el el' /\
    w_sent (kworld k') = w_sent (kworld k) ++ [(c, request_text l)]) k.
Proof.
  intros [Ht Hb (o & Ho & Hc) Hs Hz Hf] Hrc Hr Ha Hlater. rewrite Hr in Ht.
  eapply (wp_client_lock c _ _ _ _ _ _ _ _ _ (request_text l) _ _ _ _ (fun r => r = client_outcome element rc el el')); try done.
  { by apply (msg_text_sent _ (request_of b) l). }
  intros k' Ht' Hm'. destruct Hrc as [<-|[<-|Hrc]].
  - eapply wp_answer_granted; [exact Hm'|]. split; [done|]. rewrite Hm'. split; [by eexists | by eexists].
  - destruct (Hlater eq_refl) as (notice & rest & -> & Hn).
    eapply wp_answer_enqueued; [exact Ht' | exact Hm' | exact Hn|]. intros k2 Ht2 Hm2.
    split; [done|]. rewrite Hm2. split; [by eexists | by eexists].
  - assert (rc = FLOM_RC_LOCK_BUSY \/ rc = FLOM_RC_LOCK_IMPOSSIBLE) as Hrc'.
    { destruct Hrc as [<-|[<-|[]]]; auto. }
    eapply wp_answer_refused; [exact Hrc' | exact Hm'|]. split; [by destruct Hrc' as [-> | ->]|].
    rewrite Hm'. split; [by eexists | by eexists].
Qed.

Lemma respond_in_int32 d conn b : ok d b -> in_int32 (respond d conn b).1.1.
Proof.
  intros Hok. pose proof (respond_code d conn b Hok) as Hin. revert Hin. generalize (respond d conn b).1.1.
  intros rc Hin. cbn in Hin. unfold in_int32. destruct Hin as [<-|[<-|[<-|[<-|[]]]]]; vm_compute; split; discriminate.
Qed.

(** C5: equivalence.  The two ends of a lock request agree.  The client sends the
    text of the request its configuration describes; the locker, which finds
    that text on the client's socket or is passed the connection with it, makes
    the change that the resource specifies for it and sends the text of the
    answer; the client, which finds that text, returns what the locker has
    decided: no error when its connection is now a holder, the reason code of
    the refusal when the holders are as before, and, when it was queued, no
    error once the notification that it was granted has come. *)
Theorem client_and_locker_agree cf c b l k timeout element answers later conn i mid events el' ls :
  let b' := received_lock_8 b in
  let d := lk_data (l_locker ls) in
  let rc := (respond d conn b').1.1 in
  let el := (respond d conn b').1.2 in
  let d' := (respond d conn b').2 in
  client_end cf c b l k -> k_recvs k = RecvData answers true :: later ->
  arrives conn events i ls -> can_reply mid (n_world (l_net ls)) -> ok d b' ->
  plain mid = true -> plain_option el = true -> strlen (answer_text mid rc el) < FLOM_MSG_BUFFER_SIZE ->
  parse (request_text l) = Some events -> parse (answer_text mid rc el) = Some answers ->
  (rc = FLOM_RC_LOCK_ENQUEUED -> plain_option el' = true /\ exists notice rest,
     later = RecvData notice true :: rest /\ parse (granted_text el') = Some notice) ->
  let '(rk, k') := flom_client_lock cf c timeout element k in
  let '(rl, ls') := flom_locker_loop_pollin i ls in
  w_sent (kworld k') = w_sent (kworld k) ++ [(c, request_text l)] /\
  w_sent (n_world (l_net ls')) = w_sent (n_world (l_net ls)) ++ [(conn, answer_text mid rc el)] /\
  rl = inr false /\ lk_data (l_locker ls') = d' /\ rk = client_outcome element rc el el' /\
  if rc =? FLOM_RC_OK then holder d' conn else forall x, holder d' x <-> holder d x.
Proof using parse_law base64_back base64_plain.
  intros b' d rc el d' Hk Hr Ha Hc Hok Hmid Hel Hlen Hpr Hpa Hlater.
  assert (Hint : in_int32 rc) by by apply respond_in_int32.
  assert (Hans := answer_read mid rc el answers Hmid Hel Hint Hpa).
  assert (Hreq : markup_callbacks events flom_msg_init = Some (lock_request b')).
  { by apply (text_read (request_of b) l events); [apply Hk | apply Hk | done |]. }
  assert (Hnotice : rc = FLOM_RC_LOCK_ENQUEUED -> exists notice rest, later = RecvData notice true :: rest /\
     markup_callbacks notice flom_msg_init = Some (granted_msg_read el')).
  { intros Hrc. destruct (Hlater Hrc) as (Hp & notice & rest & Hn & Ht). exists notice, rest.
    split; [done|]. by apply granted_read. }
  pose proof (client_outcome_sent cf c b l k mid rc el el' timeout element answers later Hk
    (respond_code d conn b' Hok) Hr Hans Hnotice) as Hck.
  pose proof (wp_pollin_answers conn i mid b' events (answer_text mid rc el) ls Ha Hreq Hc Hok
    (msg_text_sent _ (lock_answer mid rc el) _ (send_lock_16 _ _) Hlen)) as Hcl.
  unfold wp in Hck, Hcl. destruct (flom_client_lock cf c timeout element k) as [rk k'].
  destruct (flom_locker_loop_pollin i ls) as [rl ls']. cbn in Hck, Hcl.
  destruct Hck as [-> Hks]. destruct Hcl as (-> & Hd & Hls). split_and!; [done..|]. by apply respond_holder.
Qed.
End agreement.
