(* ===== verification/Answers.v ===== *)
(** * Answers: the resources that keep the promise of [Exchange]

    Simple, numeric, set and sequence resources as instances of [Answering]:
    the theorems on their lock requests discharge the class, so that the
    agreement of client and locker holds of each of them.  The locker of the
    concrete exchange below serves a simple resource. *)
From Stdlib Require Import ZArith String List Lia.
From stdpp Require Import base list gmap numbers strings.
From S2P Require Import Prelude Types CStr RsrcName Msg MsgXml MsgRound Vfs World Config LockMode.
From S2P Require Import ConnLock Resource.
From S2P Require Import Numeric SetRsrc Sequence Simple.
From S2P Require Import Conns Locker Serve Connect Client Exchange.
Local Open Scope Z_scope.

(** Queued or refused, as the client accepts to wait or not *)
Definition wait_or_busy {D} (b : body_lock_8) (queued d : D) : Z * option string * D :=
  if negb (l8_wait b =? 0) then (FLOM_RC_LOCK_ENQUEUED, None, queued)
  else (FLOM_RC_LOCK_BUSY, None, d).

Lemma wait_or_busy_code {D} b (queued d : D) :
  In (wait_or_busy b queued d).1.1 [FLOM_RC_LOCK_ENQUEUED; FLOM_RC_LOCK_BUSY].
Proof. unfold wait_or_busy. destruct (negb _); cbn; auto. Qed.

Lemma wait_or_busy_holder {D} b (queued d : D) (holder : D -> conn_ref -> Prop) conn :
  (forall x, holder queued x <-> holder d x) ->
  if (wait_or_busy b queued d).1.1 =? FLOM_RC_OK then holder (wait_or_busy b queued d).2 conn
  else forall x, holder (wait_or_busy b queued d).2 x <-> holder d x.
Proof. intros Hq. unfold wait_or_busy. by destruct (negb _). Qed.

Section instances.
Context `{Glib}.

(** ** Simple resources *)
Definition simple_respond (d : simple) (conn : conn_ref) (b : body_lock_8)
    : Z * option string * simple :=
  let cl := Conn_lock (l8_mode b) None 0 conn in
  if forallb (fun h => compatible (cl_info h) (l8_mode b)) (Simple.holders d)
  then (FLOM_RC_OK, None, Simple.set_holders (cl :: Simple.holders d) d)
  else wait_or_busy b (Simple.set_waitings (Simple.waitings d ++ [cl]) d) d.
Definition simple_asks (d : simple) (b : body_lock_8) : Prop := simple_inv d /\ valid_mode (l8_mode b).

#[export] Program Instance simple_answering : Answering simple simple_asks := {
  respond := simple_respond;
  holder d c := c ∈ map cl_conn (Simple.holders d)
}.
Next Obligation.
  intros d conn b _. unfold simple_respond. destruct (forallb _ _); [by left|].
  pose proof (wait_or_busy_code b (Simple.set_waitings (Simple.waitings d ++
    [Conn_lock (l8_mode b) None 0 conn]) d) d) as [<-|[<-|[]]]; cbn; auto.
Qed.
Next Obligation.
  intros d conn b _. unfold simple_respond. destruct (forallb _ _).
  - cbn. left.
  - by apply (wait_or_busy_holder b _ d (fun d c => c ∈ map cl_conn (Simple.holders d))).
Qed.
Next Obligation.
  intros uid conn mid b s [Hi Hv] Hm Hc.
  eapply wp_mono; [|by apply (simple_lock_answer uid conn mid b s)].
  intros r s' (-> & _ & Hn & Ha). unfold simple_respond, wait_or_busy.
  destruct (forallb _ _); [|destruct (negb _)]; cbn; destruct Ha as [-> ->]; done.
Qed.

(** ** Numeric resources *)
Definition numeric_respond (d : numeric) (conn : conn_ref) (b : body_lock_8)
    : Z * option string * numeric :=
  let cl := Conn_lock (l8_quantity b) None 0 conn in
  if l8_quantity b <=? Numeric.available d then (FLOM_RC_OK, None, grant_quantity cl d)
  else if Numeric.total_quantity d <? l8_quantity b then (FLOM_RC_LOCK_IMPOSSIBLE, None, d)
  else wait_or_busy b (Numeric.set_waitings (Numeric.waitings d ++ [cl]) d) d.
Definition numeric_asks (d : numeric) (b : body_lock_8) : Prop := numeric_inv d /\ 0 <= l8_quantity b.

#[export] Program Instance numeric_answering : Answering numeric numeric_asks := {
  respond := numeric_respond;
  holder d c := c ∈ map cl_conn (Numeric.holders d)
}.
Next Obligation.
  intros d conn b _. unfold numeric_respond. destruct (_ <=? _); [by left|].
  destruct (_ <? _); [by do 3 right; left|].
  match goal with |- In (wait_or_busy b ?q d).1.1 _ => pose proof (wait_or_busy_code b q d) as [<-|[<-|[]]] end;
    cbn; auto.
Qed.
Next Obligation.
  intros d conn b _. unfold numeric_respond. destruct (_ <=? _); [cbn; left|]. destruct (_ <? _); [done|].
  by apply (wait_or_busy_holder b _ d (fun d c => c ∈ map cl_conn (Numeric.holders d))).
Qed.
Next Obligation.
  intros uid conn mid b s [Hi Hq] Hm Hc.
  eapply wp_mono; [|by apply (numeric_lock_answer uid conn mid b s)].
  intros r s' (-> & Hn & Ha). unfold numeric_respond, wait_or_busy.
  destruct (_ <=? _); [|destruct (_ <? _); [|destruct (negb _)]]; cbn; destruct Ha as [-> ->]; done.
Qed.

(** ** Set resources: the answer names the element *)
Definition set_respond (names : list string) (d : rset) (conn : conn_ref) (b : body_lock_8)
    : Z * option string * rset :=
  match flom_resource_set_can_lock d with
  | Some j => (FLOM_RC_OK, names !! j, take_element j conn d)
  | None => wait_or_busy b (SetRsrc.set_waitings (SetRsrc.waitings d ++ [SetRsrc.new_cl conn]) d) d
  end.

#[export] Program Instance set_answering names : Answering rset (fun d _ => set_inv names d) := {
  respond := set_respond names;
  holder d c := Exists (fun e => e_conn e = Some c) (elements d)
}.
Next Obligation.
  intros names d conn b _. unfold set_respond. destruct (flom_resource_set_can_lock d); [by left|].
  match goal with |- In (wait_or_busy b ?q d).1.1 _ => pose proof (wait_or_busy_code b q d) as [<-|[<-|[]]] end;
    cbn; auto.
Qed.
Next Obligation.
  intros names d conn b _. unfold set_respond. destruct (flom_resource_set_can_lock d) as [j|] eqn:Ej.
  - apply can_lock_some in Ej as [(e & He & _) _]. cbn. apply Exists_exists.
    exists (Element (e_name e) (Some conn)). split; [|done]. apply (list_elem_of_lookup_2 _ j).
    unfold take_element, next_index, set_element. cbn. by rewrite list_lookup_alter, decide_True, He.
  - by apply (wait_or_busy_holder b _ d (fun d c => Exists (fun e => e_conn e = Some c) (elements d))).
Qed.
Next Obligation.
  intros names uid conn mid b s Hi Hm Hc.
  eapply wp_mono; [|by apply (set_lock_answer names uid conn mid b s)].
  intros r s' (-> & _ & Hn & Ha). unfold set_respond, wait_or_busy.
  destruct (flom_resource_set_can_lock (s_data s)) as [j|].
  - by destruct Ha as [-> ->].
  - destruct Ha as [_ Ha]. destruct (negb _); cbn; by destruct Ha as [-> ->].
Qed.

(** ** Sequences: the answer is the number *)
Definition sequence_respond (d : sequence) (conn : conn_ref) (b : body_lock_8)
    : Z * option string * sequence :=
  let cl := Conn_lock 0 None 0 conn in
  if 0 <? Sequence.available d then
    (FLOM_RC_OK, Some (print_dec (flom_resource_sequence_get d).1), sequence_take cl d)
  else wait_or_busy b (Sequence.set_waitings (Sequence.waitings d ++ [cl]) d) d.

#[export] Program Instance sequence_answering : Answering sequence (fun d _ => sequence_inv d) := {
  respond := sequence_respond;
  holder d c := c ∈ map cl_conn (Sequence.holders d)
}.
Next Obligation.
  intros d conn b _. unfold sequence_respond. destruct (_ <? _); [by left|].
  match goal with |- In (wait_or_busy b ?q d).1.1 _ => pose proof (wait_or_busy_code b q d) as [<-|[<-|[]]] end;
    cbn; auto.
Qed.
Next Obligation.
  intros d conn b _. unfold sequence_respond. destruct (_ <? _).
  - cbn. unfold sequence_take. destruct (flom_resource_sequence_get d) as [v d1]. cbn. left.
  - by apply (wait_or_busy_holder b _ d (fun d c => c ∈ map cl_conn (Sequence.holders d))).
Qed.
Next Obligation.
  intros uid conn mid b s Hi Hm Hc.
  eapply wp_mono; [|by apply (sequence_lock_answer uid conn mid b s)].
  intros r s' (-> & _ & Hn & Ha). unfold sequence_respond, wait_or_busy.
  destruct (_ <? _); [|destruct (negb _)]; cbn; destruct Ha as [-> ->]; done.
Qed.
End instances.

(** ** A concrete exchange: a writer that waits for a writer *)
Definition writer_config : flom_config :=
  set_str resource_name (Some 1%positive)
    (set_int config_lock_mode FLOM_LOCK_MODE_EX (set_int Config.resource_timeout (-1) (Config (fun _ => None) (fun _ => 0) []))).
Definition writer_request : body_lock_8 :=
  Lock_8 (Some demo_mid) (Some "foo"%string) FLOM_LOCK_MODE_EX 1 0 0 0.
Definition writer_children : list child :=
  [session (Some demo_mid);
   Child FLOM_MSG_TAG_RESOURCE
     [(FLOM_MSG_PROP_NAME, "foo"%string); MsgRound.number FLOM_MSG_PROP_MODE FLOM_LOCK_MODE_EX;
      MsgRound.number FLOM_MSG_PROP_WAIT 1; MsgRound.number FLOM_MSG_PROP_CREATE 0;
      MsgRound.number FLOM_MSG_PROP_LIFESPAN 0] false].

Definition writer_request_events : list markup_event :=
  message_events (Header FLOM_MSG_LEVEL FLOM_MSG_VERB_LOCK FLOM_MSG_STEP_INCR) writer_children.
Definition enqueued_events : list markup_event :=
  message_events (Header FLOM_MSG_LEVEL FLOM_MSG_VERB_LOCK (2 * FLOM_MSG_STEP_INCR))
    [session (Some demo_mid); MsgRound.answer (Answer FLOM_RC_LOCK_ENQUEUED None)].
Definition granted_events : list markup_event :=
  message_events (Header FLOM_MSG_LEVEL FLOM_MSG_VERB_LOCK (3 * FLOM_MSG_STEP_INCR))
    [MsgRound.answer (Answer FLOM_RC_OK None)].

Definition writer : client :=
  Client (Net (flom_conns_init AF_UNIX)
            (World {[ 1%positive := Serve.demo_client 1%positive flom_msg_init ]}
               (RamTree false None 0 [] []) [] [] [] [] (Some demo_mid)) [])
    (Configs {[ 1%positive := "foo"%string ]} 2 writer_config ∅) flom_msg_init [] []
    [] [] [] [] [RecvData enqueued_events true; RecvData granted_events true] [] [] [] [].
Definition busy_locker : lstate simple :=
  demo_lstate (Simple [demo_cl FLOM_LOCK_MODE_EX 1] []) [9; 1; 2]%positive flom_msg_init [] []
    [RecvData writer_request_events true].

Lemma writer_end : @client_end demo_base64 None 1%positive writer_request writer_children writer.
Proof.
  split.
  - split; try done; [by eexists | by apply Forall_nil_2..].
  - reflexivity.
  - by eexists.
  - by eapply (@send_lock_8 demo_base64).
  - repeat split; vm_compute; discriminate.
  - reflexivity.
Qed.

Lemma client_and_locker_agree_witness :
  let '(rk, k') := @flom_client_lock demo_base64 None 1%positive (-1) None writer in
  let '(rl, ls') := @flom_locker_loop_pollin demo_base64 simple (@simple_resource demo_base64) 2 busy_locker in
  w_sent (kworld k') = [(1%positive, request_text writer_children)] /\
  w_sent (n_world (l_net ls')) = [(2%positive, answer_text demo_mid FLOM_RC_LOCK_ENQUEUED None)] /\
  rl = inr false /\
  lk_data (l_locker ls') = Simple [demo_cl FLOM_LOCK_MODE_EX 1] [demo_cl FLOM_LOCK_MODE_EX 2] /\
  rk = inr None /\
  forall x, x ∈ map cl_conn [demo_cl FLOM_LOCK_MODE_EX 1] <-> x ∈ map cl_conn [demo_cl FLOM_LOCK_MODE_EX 1].
Proof.
  refine (@client_and_locker_agree demo_base64 simple (@simple_resource demo_base64) simple_asks
    (@simple_answering demo_base64) parse_document parse_document_ok _ _ None 1%positive writer_request
    writer_children writer (-1) None enqueued_events [RecvData granted_events true] 2%positive 2 demo_mid
    writer_request_events None busy_locker writer_end eq_refl _ _ _ eq_refl eq_refl eq_refl _ _ _).
  - intros s e. cbn. by destruct (plain s); intros [= ->].
  - intros s e. cbn. destruct (plain s) eqn:E; intros [= <-]; done.
  - by eapply arrives_by_socket.
  - split_and!; [done | by apply Forall_nil_2..].
  - split; [repeat constructor; done | done].
  - vm_compute. reflexivity.
  - vm_compute. reflexivity.
  - intros _. split; [done|]. exists granted_events, []. split; [done|]. vm_compute. reflexivity.
Defined.
