(* ===== verification/Handover.v ===== *)
(** * Handover: a lock passes from one client to the next

    The end of a lock, from the holder's [flom_client_unlock] of
    [src/src/flom_client.c] through [flom_locker_loop_pollin] of
    [src/src/flom_locker.c] to the waiting clients, whose
    [flom_client_wait_lock] returns.  What a resource promises about a release
    is the class [Releasing], over [Answering] of [Exchange]. *)
From Stdlib Require Import ZArith String List Lia.
From stdpp Require Import base list gmap numbers strings.
From S2P Require Import Prelude Types CStr RsrcName Msg MsgXml MsgRound Vfs World Config LockMode.
From S2P Require Import ConnLock Resource.
From S2P Require Import Numeric SetRsrc Sequence Simple.
From S2P Require Import Conns Locker Serve Connect Client Exchange Answers.
Local Open Scope Z_scope.

(** ** What a resource promises about a release

    The clients it grants, in order, with the element each is given, and the
    new state: those clients hold a lock then. *)
Class Releasing (D : Type) {ok : D -> body_lock_8 -> Prop} `{Answering D ok}
    (ready : D -> Prop) : Type := {
  release : D -> conn_ref -> Z -> list (conn_ref * option string) * D;
  queued : D -> list conn_ref;
  release_grants d conn rb c el : ready d ->
    In (c, el) (release d conn rb).1 -> holder (release d conn rb).2 c /\ In c (queued d);
  inmsg_releases uid conn rb s :
    ready (s_data s) -> holder (s_data s) conn -> s_msg s = unlock_request (s_name s) rb ->
    sends_ok (s_world s) -> known (s_world s) conn -> Forall (live (s_world s)) (queued (s_data s)) ->
    wp (res_inmsg uid conn) (fun r s' =>
      r = inr tt /\ s_msg s' = flom_msg_init /\ s_data s' = (release (s_data s) conn rb).2 /\
      told (release (s_data s) conn rb).1 (s_world s) (s_world s')) s
}.

(** ** The locker *)
Section locker_side.
Context `{Glib} {D : Type} {ok : D -> body_lock_8 -> Prop} `{Answering D ok} {ready : D -> Prop}
  `{!Releasing D ready}.

Definition handed_over (conn : conn_ref) (rb : Z) (s s' : lstate D) : Prop :=
  let d := lk_data (l_locker s) in
  lk_data (l_locker s') = (release d conn rb).2 /\
  w_sent (n_world (l_net s')) = w_sent (n_world (l_net s)) ++
    map (fun p => (p.1, granted_text p.2)) (release d conn rb).1.

Lemma wp_dispatch_releases conn o rb (s : lstate D) :
  let d := lk_data (l_locker s) in
  let w := n_world (l_net s) in
  w_conns w !! conn = Some o -> c_msg o = unlock_request (lk_name (l_locker s)) rb ->
  ready d -> holder d conn -> sends_ok w -> Forall (live w) (queued d) ->
  wp (dispatch conn) (fun r s' => r = inr tt /\ handed_over conn rb s s') s.
Proof.
  intros d w Ho Hm Hr Hh Hok Hq. unfold dispatch. eapply wp_lderef; [exact Ho|]. rewrite Hm.
  wp_step; [|done]. wp_step. unfold resource_inmsg. eapply wp_lderef; [exact Ho|]. do 2 wp_step.
  rewrite Hm. apply wp_call_method. eapply wp_mono; [|eapply (inmsg_releases _ conn rb); try done].
  2: by exists o.
  intros r t (-> & Hmsg & Hd & Ht). cbn [s_world s_data s_msg] in *. wp_step.
  destruct Ht as (Hsent & _ & _ & Hkn & _). destruct (Hkn conn (ex_intro _ o Ho)) as [o1 Ho1].
  assert (Ho2 : w_conns (write_msg conn (s_msg t) (s_world t)) !! conn =
    Some (set_conn_msg flom_msg_init o1)).
  { unfold write_msg. cbn. by rewrite lookup_alter, decide_True, Ho1, Hmsg. }
  unfold send_answer. eapply wp_lderef; [exact Ho2|]. wp_step; [done|].
  eapply wp_free_conn_msg; [exact Ho2 | reflexivity|]. intros s2 Hl2 Hs2.
  split; [done|]. split; [by rewrite Hl2|]. rewrite Hs2. cbn. rewrite Hsent. f_equal.
  apply map_ext. by intros [].
Qed.

Lemma wp_pollin_releases conn i o rb events recvs (s : lstate D) :
  let d := lk_data (l_locker s) in
  let w := n_world (l_net s) in
  i <> 0%nat -> cs_array (n_conns (l_net s)) !! i = Some conn -> w_conns w !! conn = Some o ->
  c_msg o = flom_msg_init -> l_recvs s = RecvData events true :: recvs ->
  markup_callbacks events flom_msg_init = Some (unlock_request (lk_name (l_locker s)) rb) ->
  ready d -> holder d conn -> sends_ok w -> Forall (live w) (queued d) ->
  wp (flom_locker_loop_pollin i) (fun r s' => r = inr false /\ handed_over conn rb s s') s.
Proof.
  intros d w Hi Hc Ho Hm Hr Hb Hready Hh Hok Hq.
  eapply wp_pollin_read; [done..|]. intros s1 Hd Hn Hw1. wp_step.
  eapply wp_mono; [|eapply (wp_dispatch_releases conn _ rb s1); rewrite ?Hd, ?Hn, ?Hw1; try done].
  - intros r s' [-> [Hd' Hs']]. wp_step. split; [done|]. unfold handed_over in *.
    by rewrite Hd', Hs', Hd, Hw1.
  - cbn. apply lookup_insert_eq.
  - done.
  - eapply Forall_impl; [exact Hq|]. intros x (ox & Hox & Hwr). unfold live. cbn.
    destruct (decide (x = conn)) as [->|Hne].
    + rewrite lookup_insert_eq. rewrite Ho in Hox. injection Hox as ->. by eexists.
    + rewrite lookup_insert_ne by done. by exists ox.
Qed.
End locker_side.

(** ** The client that has the lock *)
Definition rollback_flag (rollback : bool) : Z := if rollback then 1 else 0.
Definition unlock_of (name : string) (rollback : bool) : flom_msg :=
  Msg FLOM_MSG_STATE_INITIALIZED (Header FLOM_MSG_LEVEL FLOM_MSG_VERB_UNLOCK FLOM_MSG_STEP_INCR)
    (body_unlock_8 (Some name) (rollback_flag rollback)).
Definition unlock_text (name64 : string) (rollback : bool) : string :=
  message_text (Header FLOM_MSG_LEVEL FLOM_MSG_VERB_UNLOCK FLOM_MSG_STEP_INCR)
    [Child FLOM_MSG_TAG_RESOURCE
       [(FLOM_MSG_PROP_NAME, name64); MsgRound.number FLOM_MSG_PROP_ROLLBACK (rollback_flag rollback)] true].

Section client_side.
Context `{Glib}.

Lemma unlock_sendable name name64 rollback :
  g_base64_encode name = Some name64 ->
  sendable FLOM_MSG_VERB_UNLOCK FLOM_MSG_STEP_INCR (body_unlock_8 (Some name) (rollback_flag rollback))
    [Child FLOM_MSG_TAG_RESOURCE
       [(FLOM_MSG_PROP_NAME, name64); MsgRound.number FLOM_MSG_PROP_ROLLBACK (rollback_flag rollback)] true].
Proof. by constructor. Qed.

Lemma wp_client_unlock cf c g peer name name64 rollback sent recvs k :
  talking c g peer sent recvs k -> content g cf resource_name = Some name ->
  g_base64_encode name = Some name64 ->
  strlen (unlock_text name64 rollback) < FLOM_NETWORK_BUFFER_SIZE ->
  wp (flom_client_unlock cf c rollback) (fun r k' =>
    r = inr tt /\ w_sent (kworld k') = sent ++ [(c, unlock_text name64 rollback)]) k.
Proof.
  intros Ht Hn He Hf. unfold flom_client_unlock, flom_config_get_resource_name. wp_step.
  eapply wp_exact; [apply read_str; by rewrite (tk_configs _ _ _ _ _ _ Ht)|]. cbn beta iota.
  wp_step. apply wp_ret. wp_step. fold (unlock_of name rollback). eapply wp_set_kmsg; [exact Ht|].
  intros k1 Ht1 Hm1. wp_step. eapply wp_send_kmsg; [exact Ht1 | |].
  { rewrite Hm1. exact (msg_text_sent _ (unlock_of name rollback) _ (unlock_sendable _ _ _ He) Hf). }
  intros k2 Ht2 Hm2. eapply wp_free_kmsg; [exact Ht2 | rewrite Hm2, Hm1; reflexivity|].
  intros k3 Ht3. split; [done | apply Ht3].
Qed.
End client_side.

(** ** From the holder to the clients that wait *)
Section handover.
Context `{Glib} {D : Type} {ok : D -> body_lock_8 -> Prop} `{Answering D ok} {ready : D -> Prop}
  `{!Releasing D ready}.

Variable parse : string -> option (list markup_event).
Hypothesis parse_law : forall d,
  document_ok d = true -> parse (print_document d) = Some (document_events d).
Hypothesis base64_back : forall s e, g_base64_encode s = Some e -> g_base64_decode e = Some s.
Hypothesis base64_plain : forall s e, g_base64_encode s = Some e -> plain e = true.

(** A client that was told to wait, and whose next message is the text of the
    notification [(conn, el)] *)
Definition hears_grant (el : option string) (c : conn_ref) (k : client) : Prop :=
  talking c (k_configs k) (w_machine_id (kworld k)) (w_sent (kworld k)) (k_recvs k) k /\
  (exists mid, k_msg k = lock_answer mid FLOM_RC_LOCK_ENQUEUED None) /\
  exists notice rest, k_recvs k = RecvData notice true :: rest /\ parse (granted_text el) = Some notice.

Lemma hears_grant_returns el c k timeout element :
  plain_option el = true -> hears_grant el c k ->
  (client_lock_answer c timeout element k).1 = inr (named el element).
Proof using parse_law base64_back base64_plain.
  intros Hp (Ht & (mid & Hm) & notice & rest & Hr & Hn). rewrite Hr in Ht.
  refine (wp_answer_enqueued c _ _ mid None el timeout element notice _ rest (fun r _ => r = inr (named el element)) k
    Ht Hm _ _).
  - by eapply granted_read.
  - done.
Qed.

(** C6: liveness.  A lock passes on.  The client that holds it calls
    [flom_client_unlock], which sends one text and succeeds; the locker that
    finds the text on the client's socket releases the lock, grants the waiting
    requests that the resource selects and sends each of their clients, in
    order, one notification; each of these is a holder now, had been waiting,
    and its lock call, which finds that text, returns with the element named. *)
Theorem lock_handed_over cf c k name name64 rollback conn i o events recvs ls :
  let d := lk_data (l_locker ls) in
  let w := n_world (l_net ls) in
  let rb := rollback_flag rollback in
  talking c (k_configs k) (w_machine_id (kworld k)) (w_sent (kworld k)) (k_recvs k) k ->
  content (k_configs k) cf resource_name = Some name -> g_base64_encode name = Some name64 ->
  c_string name = name -> strlen (unlock_text name64 rollback) < FLOM_NETWORK_BUFFER_SIZE ->
  lk_name (l_locker ls) = Some name ->
  i <> 0%nat -> cs_array (n_conns (l_net ls)) !! i = Some conn -> w_conns w !! conn = Some o ->
  c_msg o = flom_msg_init -> l_recvs ls = RecvData events true :: recvs ->
  parse (unlock_text name64 rollback) = Some events ->
  ready d -> holder d conn -> sends_ok w -> Forall (live w) (queued d) ->
  let '(rk, k') := flom_client_unlock cf c rollback k in
  let '(rl, ls') := flom_locker_loop_pollin i ls in
  let '(granted, d') := release d conn rb in
  rk = inr tt /\ w_sent (kworld k') = w_sent (kworld k) ++ [(c, unlock_text name64 rollback)] /\
  rl = inr false /\ lk_data (l_locker ls') = d' /\
  w_sent (n_world (l_net ls')) = w_sent w ++ map (fun p => (p.1, granted_text p.2)) granted /\
  forall conn' el, In (conn', el) granted ->
    holder d' conn' /\ In conn' (queued d) /\
    forall c2 k2 timeout element, plain_option el = true -> hears_grant el c2 k2 ->
      (client_lock_answer c2 timeout element k2).1 = inr (named el element).
Proof using parse_law base64_back base64_plain.
  intros d w rb Ht Hn He Hcs Hf Hln Hi Hc Ho Hm Hr Hp Hready Hh Hok Hq.
  assert (Hev : markup_callbacks events flom_msg_init = Some (unlock_request (lk_name (l_locker ls)) rb)).
  { rewrite Hln. eapply (text_read parse parse_law base64_back base64_plain (unlock_of name rollback)
      _ events (unlock_sendable _ _ _ He)); [|done | exact Hp].
    split; [by destruct rollback; vm_compute | exact Hcs]. }
  pose proof (wp_client_unlock cf c _ _ name name64 rollback _ _ k Ht Hn He Hf) as Hck.
  pose proof (wp_pollin_releases conn i o rb events recvs ls Hi Hc Ho Hm Hr Hev Hready Hh Hok Hq) as Hcl.
  unfold wp in Hck, Hcl. destruct (flom_client_unlock cf c rollback k) as [rk k'].
  destruct (flom_locker_loop_pollin i ls) as [rl ls']. destruct (release d conn rb) as [granted d'] eqn:Er.
  cbn in Hck, Hcl. destruct Hck as [-> Hks]. destruct Hcl as (-> & Hd & Hls). unfold d, w in *. rewrite Er in Hd, Hls.
  split_and!; [done..|]. intros conn' el Hin.
  destruct (release_grants (lk_data (l_locker ls)) conn rb conn' el) as [Hh' Hq'];
    [done | by rewrite Er | rewrite Er in Hh'].
  split_and!; [done..|]. intros c2 k2 timeout element. apply hears_grant_returns.
Qed.
End handover.

(** ** The resources that keep the promise *)

(** The requests that a scan grants were in the queue, and hold a lock when it
    has ended. *)
Lemma wake_grants {D I G : Type} (ptry : D -> conn_lock I -> option G)
    (papply : G -> conn_lock I -> D -> D) (P : D -> conn_ref -> Prop) :
  (forall g x d, ptry d x = Some g -> P (papply g x d) (cl_conn x)) ->
  (forall g x d c, ptry d x = Some g -> P d c -> P (papply g x d) c) ->
  forall w d gs r d', wake ptry papply d w = (gs, r, d') ->
  (forall c, P d c -> P d' c) /\
  forall x g, In (x, g) gs -> P d' (cl_conn x) /\ In x w.
Proof.
  intros Hnew Hold. induction w as [|y w IH]; intros d gs r d'; cbn [wake].
  - intros [= <- <- <-]. by split.
  - destruct (ptry d y) as [g0|] eqn:Ey.
    + destruct (wake ptry papply (papply g0 y d) w) as [[gs1 r1] d1] eqn:E. intros [= <- <- <-].
      destruct (IH _ _ _ _ E) as [Hk Hg]. split; [by eauto|].
      intros x g [[= <- <-]|Hin]; [split; [by eauto | by left]|].
      destruct (Hg x g Hin). split; [done | by right].
    + destruct (wake ptry papply d w) as [[gs1 r1] d1] eqn:E. intros [= <- <- <-].
      destruct (IH _ _ _ _ E) as [Hk Hg]. split; [done|].
      intros x g Hin. destruct (Hg x g Hin). split; [done | by right].
Qed.

(** The lock of a connection that has one *)
Lemma holder_found {I} (l : list (conn_lock I)) conn :
  conn ∈ map cl_conn l -> exists cl, flom_rsrc_conn_find l conn = Some cl.
Proof.
  unfold flom_rsrc_conn_find, has_conn. induction l as [|x l IH]; cbn; [by intros ?%elem_of_nil|].
  intros [->|Hin]%elem_of_cons; [rewrite bool_decide_true by done; by eexists|].
  case_bool_decide; [by eexists | by apply IH].
Qed.

Lemma queue_live {I} w (l : list (conn_lock I)) :
  Forall (live w) (map cl_conn l) -> Forall (fun x => live w (cl_conn x)) l.
Proof. rewrite Forall_map. done. Qed.

Section instances.
Context `{Glib}.

(** ** Simple resources *)
Definition simple_release (d : simple) (conn : conn_ref) : list (conn_ref * option string) * simple :=
  let '(gs, rest, d') :=
    simple_wake (Simple.set_holders (remove_conn conn (Simple.holders d)) d) (Simple.waitings d) in
  (map (fun p => (cl_conn p.1, None)) gs, Simple.set_waitings rest d').

#[export] Program Instance simple_releasing : Releasing simple simple_inv := {
  release d conn _ := simple_release d conn;
  queued d := map cl_conn (Simple.waitings d)
}.
Next Obligation.
  intros d conn rb c el _. unfold simple_release.
  destruct (simple_wake _ _) as [[gs rest] d'] eqn:E. cbn. intros (p & [= <- <-] & Hp)%in_map_iff.
  destruct p as [x g]. apply (wake_grants _ _ (fun d c => c ∈ map cl_conn (Simple.holders d))) in E.
  - destruct E as [_ Hg]. destruct (Hg x g Hp) as [Hh Hw]. split; [done | by apply in_map].
  - intros. cbn. left.
  - intros. cbn. by right.
Qed.
Next Obligation.
  intros uid conn rb s Hi (cl & Hf)%holder_found Hm Hok Hk Hl.
  eapply wp_mono; [|apply (simple_unlock_answer uid conn cl (s_name s) rb s); try done; by apply queue_live].
  intros r s'. rewrite bool_decide_true by done. cbv zeta. cbn [Simple.waitings Simple.set_holders]. unfold simple_release.
  destruct (simple_wake _ _) as [[gs rest] d']. by intros (-> & -> & -> & Ht).
Qed.

(** ** Sequences *)
Definition sequence_release_queue (d : sequence) (conn : conn_ref) (rb : Z)
    : list (conn_ref * option string) * sequence :=
  match flom_rsrc_conn_find (Sequence.holders d) conn with
  | None => ([], d)
  | Some cl =>
      let '(gs, rest, d') :=
        sequence_wake (Sequence.set_locked (Sequence.locked_quantity d - 1)
          (Sequence.set_holders (remove_conn conn (Sequence.holders d))
            (roll_back (set_rollback rb cl) d))) (Sequence.waitings d) in
      (map (fun p => (cl_conn p.1, Some (print_dec p.2))) gs, Sequence.set_waitings rest d')
  end.

#[export] Program Instance sequence_releasing : Releasing sequence sequence_inv := {
  release := sequence_release_queue;
  queued d := map cl_conn (Sequence.waitings d)
}.
Next Obligation.
  intros d conn rb c el _. unfold sequence_release_queue.
  destruct (flom_rsrc_conn_find _ _); [|by intros []].
  destruct (sequence_wake _ _) as [[gs rest] d'] eqn:E. cbn. intros (p & [= <- <-] & Hp)%in_map_iff.
  destruct p as [x g]. apply (wake_grants _ _ (fun d c => c ∈ map cl_conn (Sequence.holders d))) in E.
  - destruct E as [_ Hg]. destruct (Hg x g Hp) as [Hh Hw]. split; [done | by apply in_map].
  - intros. unfold sequence_take. destruct (flom_resource_sequence_get _). cbn. left.
  - intros g0 x0 d0 c1 _. unfold sequence_take. destruct (flom_resource_sequence_get d0) as [v d1] eqn:Eg.
    apply get_frame in Eg as (_ & _ & Eh & _). cbn. rewrite Eh. by right.
Qed.
Next Obligation.
  intros uid conn rb s Hi (cl & Hf)%holder_found Hm Hok Hk Hl.
  eapply wp_mono; [|apply (sequence_unlock_answer uid conn cl rb s); try done; by apply queue_live].
  intros r s'. cbv zeta. unfold sequence_release_queue. rewrite Hf.
  destruct (sequence_wake _ _) as [[gs rest] d']. by intros (-> & -> & -> & _ & Ht).
Qed.

(** ** Numeric resources *)
Definition numeric_release_queue (d : numeric) (conn : conn_ref) : list (conn_ref * option string) * numeric :=
  match flom_rsrc_conn_find (Numeric.holders d) conn with
  | None => ([], d)
  | Some cl =>
      let '(gs, rest, d') := numeric_wake (release_quantity conn cl d) (Numeric.waitings d) in
      (map (fun p => (cl_conn p.1, None)) gs, Numeric.set_waitings rest d')
  end.

#[export] Program Instance numeric_releasing : Releasing numeric numeric_inv := {
  release d conn _ := numeric_release_queue d conn;
  queued d := map cl_conn (Numeric.waitings d)
}.
Next Obligation.
  intros d conn rb c el _. unfold numeric_release_queue.
  destruct (flom_rsrc_conn_find _ _); [|by intros []].
  destruct (numeric_wake _ _) as [[gs rest] d'] eqn:E. cbn. intros (p & [= <- <-] & Hp)%in_map_iff.
  destruct p as [x g]. apply (wake_grants _ _ (fun d c => c ∈ map cl_conn (Numeric.holders d))) in E.
  - destruct E as [_ Hg]. destruct (Hg x g Hp) as [Hh Hw]. split; [done | by apply in_map].
  - intros. cbn. left.
  - intros. cbn. by right.
Qed.
Next Obligation.
  intros uid conn rb s Hi (cl & Hf)%holder_found Hm Hok Hk Hl. change (res_inmsg uid conn) with (flom_resource_numeric_inmsg uid conn).
  unfold flom_resource_numeric_inmsg. do 2 wp_step. rewrite Hm. wp_step; [done|]. wp_step; [|done].
  unfold numeric_unlock. do 3 wp_step. rewrite Hm. apply wp_ret. do 3 wp_step.
  rewrite bool_decide_true by done. apply wp_ret. wp_step.
  eapply wp_mono; [|apply (numeric_clean_grants uid conn cl s); try done; by apply queue_live].
  intros r s'. cbv zeta. unfold numeric_release_queue. rewrite Hf. cbn [Numeric.waitings release_quantity].
  cbn [Numeric.set_locked Numeric.set_holders Numeric.waitings].
  destruct (numeric_wake _ _) as [[gs rest] d']. intros (-> & Hd & _ & Hm' & Ht).
  eapply wp_free_unlock_request; [by rewrite Hm'|]. by rewrite <- Hd.
Qed.


(** ** Set resources *)
Definition set_release_queue (names : list string) (d : rset) (conn : conn_ref)
    : list (conn_ref * option string) * rset :=
  match find_held conn (elements d) with
  | None => ([], d)
  | Some j =>
      let '(gs, rest, d') := set_wake (set_element j None d) (SetRsrc.waitings d) in
      (map (fun p => (cl_conn p.1, names !! p.2)) gs, SetRsrc.set_waitings rest d')
  end.

Lemma find_held_exists conn l :
  Exists (fun e => e_conn e = Some conn) l -> exists j, find_held conn l = Some j.
Proof.
  induction 1 as [e l He|e l _ [j Hj]]; cbn; unfold held_by.
  - rewrite bool_decide_true by done. by eexists.
  - case_bool_decide; [by eexists|]. rewrite Hj. by eexists.
Qed.

Lemma take_element_holder j c d :
  free_element d j -> Exists (fun e => e_conn e = Some c) (elements (take_element j c d)).
Proof.
  intros (e & He & _). apply Exists_exists. exists (Element (e_name e) (Some c)). split; [|done].
  apply (list_elem_of_lookup_2 _ j). unfold take_element, next_index, set_element. cbn.
  by rewrite list_lookup_alter, decide_True, He.
Qed.

Lemma take_element_keeps j c d c' :
  free_element d j -> Exists (fun e => e_conn e = Some c') (elements d) ->
  Exists (fun e => e_conn e = Some c') (elements (take_element j c d)).
Proof.
  intros (e & He & Hn). rewrite !Exists_exists. intros (e' & (i & Hi)%list_elem_of_lookup & Hc').
  exists e'. split; [|done]. apply (list_elem_of_lookup_2 _ i).
  unfold take_element, next_index, set_element. cbn. rewrite list_lookup_alter_ne; [done|].
  intros ->. congruence.
Qed.

#[export] Program Instance set_releasing names :
    @Releasing rset _ _ (set_answering names) (fun d => set_inv names d /\ short_names names) := {
  release d conn _ := set_release_queue names d conn;
  queued d := map cl_conn (SetRsrc.waitings d)
}.
Next Obligation.
  intros names d conn rb c el _. unfold set_release_queue.
  destruct (find_held _ _); [|by intros []].
  destruct (set_wake _ _) as [[gs rest] d'] eqn:E. cbn. intros (p & [= <- <-] & Hp)%in_map_iff.
  destruct p as [x g].
  apply (wake_grants _ _ (fun d c => Exists (fun e => e_conn e = Some c) (elements d))) in E.
  - destruct E as [_ Hg]. destruct (Hg x g Hp) as [Hh Hw]. split; [done | by apply in_map].
  - intros g0 x0 d0 [Hfree _]%can_lock_some. by apply take_element_holder.
  - intros g0 x0 d0 c1 [Hfree _]%can_lock_some. by apply take_element_keeps.
Qed.
Next Obligation.
  intros names uid conn rb s [Hi Hn] (j & Hf)%find_held_exists Hm Hok Hk Hl.
  change (res_inmsg uid conn) with (flom_resource_set_inmsg uid conn).
  unfold flom_resource_set_inmsg. do 2 wp_step. rewrite Hm. wp_step; [done|]. wp_step; [|done].
  unfold set_unlock. do 3 wp_step. rewrite Hm. apply wp_ret. do 3 wp_step.
  rewrite bool_decide_true by done. apply wp_ret. wp_step.
  eapply wp_mono; [|apply (set_clean_grants names uid conn j s); try done; by apply queue_live].
  intros r s'. cbv zeta. unfold set_release_queue. rewrite Hf. cbn [SetRsrc.waitings set_element].
  destruct (set_wake _ _) as [[gs rest] d']. intros (-> & Hd & _ & Hm' & Ht).
  eapply wp_free_unlock_request; [by rewrite Hm'|]. by rewrite <- Hd.
Qed.
End instances.

(** ** A concrete handover: the writer leaves and both readers, who were
    waiting, are granted *)
Definition leaving_events : list markup_event :=
  message_events (Header FLOM_MSG_LEVEL FLOM_MSG_VERB_UNLOCK FLOM_MSG_STEP_INCR)
    [Child FLOM_MSG_TAG_RESOURCE
       [(FLOM_MSG_PROP_NAME, "foo"%string); MsgRound.number FLOM_MSG_PROP_ROLLBACK 0] true].
Definition leaving_locker : lstate simple :=
  demo_lstate demo_holders [9; 2; 1; 3]%positive flom_msg_init [] [] [RecvData leaving_events true].

Lemma lock_handed_over_witness :
  let '(rk, k') := @flom_client_unlock demo_base64 None 1%positive false writer in
  let '(rl, ls') := @flom_locker_loop_pollin demo_base64 simple (@simple_resource demo_base64) 2 leaving_locker in
  rk = inr tt /\ w_sent (kworld k') = [(1%positive, unlock_text "foo" false)] /\
  rl = inr false /\
  lk_data (l_locker ls') = Simple [demo_cl FLOM_LOCK_MODE_CR 3; demo_cl FLOM_LOCK_MODE_PR 2] [] /\
  w_sent (n_world (l_net ls')) = [(2%positive, granted_text None); (3%positive, granted_text None)] /\
  forall conn' el, In (conn', el) [(2%positive, None); (3%positive, None)] ->
    conn' ∈ [3; 2]%positive /\ In conn' [2; 3]%positive /\
    forall c2 k2 timeout element, plain_option el = true -> hears_grant parse_document el c2 k2 ->
      (@client_lock_answer demo_base64 c2 timeout element k2).1 = inr (named el element).
Proof.
  refine (@lock_handed_over demo_base64 simple _ _ _ _ (@simple_releasing demo_base64)
    parse_document parse_document_ok _ _ None 1%positive writer "foo" "foo" false 1%positive 2
    (Serve.demo_client 1%positive flom_msg_init) leaving_events [] leaving_locker
    (ce_talks _ _ _ _ _ writer_end) eq_refl eq_refl eq_refl eq_refl eq_refl _ eq_refl eq_refl eq_refl eq_refl
    _ demo_holders_inv _ _ _).
  - intros s e. cbn. by destruct (plain s); intros [= ->].
  - intros s e. cbn. destruct (plain s) eqn:E; intros [= <-]; done.
  - done.
  - vm_compute. reflexivity.
  - cbn. left.
  - by apply Forall_nil_2.
  - repeat constructor; by eexists.
Defined.
