(* ===== verification/Handle.v ===== *)
(** * Handle: the programming interface

    [src/src/flom_handle.c]: the handles of an application, their state and
    their configuration, locking and unlocking with them.  A handle is an object
    in the memory of the application; its connection and its configuration are
    objects of the state of [Connect]. *)
From Stdlib Require Import ZArith String List Lia.
From stdpp Require Import base list gmap numbers strings.
From S2P Require Import Prelude Types CStr RsrcName Msg MsgXml Vfs World Trace Config.
From S2P Require Import ConfigFile ConnLock Conns Locker Connect Client.
Local Open Scope string_scope.
Local Open Scope Z_scope.

(** ** The state of an application *)
Definition FLOM_HANDLE_STATE_INIT : Z := 22.
Definition FLOM_HANDLE_STATE_CONNECTED : Z := 23.
Definition FLOM_HANDLE_STATE_LOCKED : Z := 24.
Definition FLOM_HANDLE_STATE_DISCONNECTED : Z := 25.
Definition FLOM_HANDLE_STATE_CLEANED : Z := 26.

(** [flom_handle_t]; [h_config] is [None] for NULL, which the configuration's
    functions take for the global object. *)
Record flom_handle : Type := Handle {
  h_state : Z;
  h_conn : option conn_ref;
  h_config : config_ref;
  h_element : option string
}.

Definition zero_handle : flom_handle := Handle 0 None None None.
Definition set_hstate (x : Z) (h : flom_handle) : flom_handle :=
  Handle x (h_conn h) (h_config h) (h_element h).
Definition set_hconn (x : option conn_ref) (h : flom_handle) : flom_handle :=
  Handle (h_state h) x (h_config h) (h_element h).
Definition set_hconfig (x : config_ref) (h : flom_handle) : flom_handle :=
  Handle (h_state h) (h_conn h) x (h_element h).
Definition set_element (x : option string) (h : flom_handle) : flom_handle :=
  Handle (h_state h) (h_conn h) (h_config h) x.

(** The client's state, the handles that are allocated, [flom_init_flag], and the
    trace of the process *)
Definition handle_ref : Type := positive.
Record app : Type := App {
  a_client : client;
  a_handles : gmap handle_ref flom_handle;
  flom_init_flag : bool;
  a_trace : trace
}.
Definition put_client (x : client) (s : app) : app :=
  App x (a_handles s) (flom_init_flag s) (a_trace s).
Definition put_handles (x : gmap handle_ref flom_handle) (s : app) : app :=
  App (a_client s) x (flom_init_flag s) (a_trace s).
Definition put_flag (x : bool) (s : app) : app := App (a_client s) (a_handles s) x (a_trace s).
Definition with_trace (x : trace) (s : app) : app :=
  App (a_client s) (a_handles s) (flom_init_flag s) x.

Definition Am (A : Type) : Type := M err app A.
Definition on_client {A} (m : Km A) : Am A := zoom a_client put_client m.
Definition on_aconfigs {A} (m : Gm A) : Am A := on_client (on_configs m).
Definition on_trace {A} (m : Trm A) : Am A := zoom a_trace with_trace m.
Definition on_aworld {A} (m : Wm A) : Am A := on_client (on_kworld m).

Definition the_handle (h : handle_ref) : Am flom_handle :=
  s ← gets (fun s : app => s); of_option Ub (a_handles s !! h).
Definition upd_handle (h : handle_ref) (f : flom_handle -> flom_handle) : Am unit :=
  o ← the_handle h;
  modify (fun s => put_handles (<[h := f o]> (a_handles s)) s).

(** An address that is not allocated *)
Definition fresh_address {A} (m : gmap positive A) : positive :=
  Pos.succ (map_fold (fun k _ acc => Pos.max k acc) 1%positive m).

Section handle.
Context `{Glib, System}.

(** ** [flom_init_check]

    The initialisation of the library: at most once, but again after a failure.
    The expressions of the resource names are taken to compile. *)
Definition flom_init_check : Am unit :=
  s ← gets (fun s : app => s);
  when (negb (flom_init_flag s)) (
    _ ← on_trace flom_trace_init;
    _ ← on_aconfigs (flom_config_reset None);
    _ ← on_aconfigs (flom_config_init None None);
    file ← on_aconfigs (flom_config_get_command_trace_file None);
    _ ← when (given file) (
          append ← on_aconfigs (get_int append_trace_file None);
          on_trace (flom_trace_reopen file (negb (append =? 0))));
    rc ← on_aconfigs (flom_config_check None);
    _ ← when (negb (rc =? FLOM_RC_OK)) (throw (Rc rc));
    modify (put_flag true)).

(** ** Creation *)

(** The memory of a connection, zeroed, and that of a configuration *)
Definition zero_conn : flom_conn := Conn 0 FLOM_CONN_STATE_DAEMON false 0 None false 0 flom_msg_init.
Definition zero_config : flom_config := Config (fun _ => None) (fun _ => 0) [].

Definition new_conn : Am conn_ref :=
  ok ← on_aworld g_try_malloc;
  _ ← when (negb ok) (throw (Rc FLOM_RC_G_TRY_MALLOC_ERROR));
  w ← on_aworld (gets id);
  let c := fresh_address (w_conns w) in
  _ ← on_aworld (modify (fun w => set_conns (<[c := zero_conn]> (w_conns w)) w));
  mret c.
Definition new_config : Am positive :=
  ok ← on_aworld g_try_malloc;
  _ ← when (negb ok) (throw (Rc FLOM_RC_G_TRY_MALLOC_ERROR));
  s ← on_aconfigs (gets id);
  let p := fresh_address (g_configs s) in
  _ ← on_aconfigs (modify (put_flom_config (Some p) zero_config));
  mret p.

Definition delete_conn (c : option conn_ref) : Am unit :=
  match c with
  | None => mret tt
  | Some c => on_aworld (modify (fun w => set_conns (delete c (w_conns w)) w))
  end.
Definition delete_config (r : config_ref) : Am unit :=
  match r with
  | None => mret tt
  | Some p =>
      on_aconfigs (modify (fun s => Configs (g_heap s) (g_next s) (global_config s)
                                      (delete p (g_configs s))))
  end.

(** The clean-up of a failure of [flom_handle_init] *)
Definition undo_init (h : handle_ref) : Am unit :=
  o ← the_handle h;
  _ ← match h_config o with
      | None => mret tt
      | r => _ ← on_aconfigs (flom_config_free r);
             _ ← delete_config r;
             upd_handle h (set_hconfig None)
      end;
  match h_conn o with
  | None => mret tt
  | c => _ ← delete_conn c; upd_handle h (set_hconn None)
  end.

Definition init_steps (h : handle_ref) : Am unit :=
  _ ← upd_handle h (fun _ => zero_handle);
  c ← new_conn;
  _ ← upd_handle h (set_hconn (Some c));
  p ← new_config;
  _ ← upd_handle h (set_hconfig (Some p));
  rc ← on_aconfigs (flom_config_clone (Some p));
  _ ← when (negb (rc =? FLOM_RC_OK)) (throw (Rc rc));
  _ ← on_aconfigs (flom_config_set_lifespan (Some p) 0);
  upd_handle h (set_hstate FLOM_HANDLE_STATE_INIT).

Definition flom_handle_init (h : handle_ref) : Am unit :=
  _ ← flom_init_check;
  r ← attempt (init_steps h);
  match r with
  | inr _ => mret tt
  | inl rc => _ ← undo_init h; throw (Rc rc)
  end.

(** [flom_handle_new]: [None] is NULL *)
Definition flom_handle_new : Am (option handle_ref) :=
  x ← attempt flom_init_check;
  match x with
  | inl _ => mret None
  | inr _ =>
      ok ← on_aworld g_try_malloc;
      if negb ok then mret None
      else
        s ← gets (fun s : app => s);
        let h := fresh_address (a_handles s) in
        _ ← modify (put_handles (<[h := zero_handle]> (a_handles s)));
        x ← attempt (flom_handle_init h);
        match x with
        | inl _ => _ ← modify (fun s => put_handles (delete h (a_handles s)) s); mret None
        | inr _ => mret (Some h)
        end
  end.

(** ** Locking *)
Definition flom_handle_lock (hp : option handle_ref) : Am unit :=
  _ ← flom_init_check;
  h ← of_option (Rc FLOM_RC_NULL_OBJECT) hp;
  o ← the_handle h;
  _ ← when (negb ((h_state o =? FLOM_HANDLE_STATE_INIT)
               || (h_state o =? FLOM_HANDLE_STATE_CONNECTED)
               || (h_state o =? FLOM_HANDLE_STATE_DISCONNECTED)))
        (throw (Rc FLOM_RC_API_INVALID_SEQUENCE));
  c ← of_option (Rc FLOM_RC_OBJ_CORRUPTED) (h_conn o);
  _ ← when (negb (h_state o =? FLOM_HANDLE_STATE_CONNECTED)) (
        _ ← on_client (flom_client_connect (h_config o) c true);
        upd_handle h (set_hstate FLOM_HANDLE_STATE_CONNECTED));
  timeout ← on_aconfigs (flom_config_get_resource_timeout (h_config o));
  element ← on_client (flom_client_lock (h_config o) c timeout (h_element o));
  _ ← upd_handle h (set_element element);
  upd_handle h (set_hstate FLOM_HANDLE_STATE_LOCKED).

(** ** Unlocking *)
Definition flom_handle_unlock_internal (hp : option handle_ref) (rollback : bool) : Am unit :=
  _ ← flom_init_check;
  h ← of_option (Rc FLOM_RC_NULL_OBJECT) hp;
  o ← the_handle h;
  _ ← when (negb ((h_state o =? FLOM_HANDLE_STATE_LOCKED)
               || (h_state o =? FLOM_HANDLE_STATE_CONNECTED)))
        (throw (Rc FLOM_RC_API_INVALID_SEQUENCE));
  c ← of_option (Rc FLOM_RC_OBJ_CORRUPTED) (h_conn o);
  ignored_rollback ← (if rollback then
                        name ← on_aconfigs (flom_config_get_resource_name (h_config o));
                        name ← of_option Ub name;
                        mret (negb (flom_rsrc_get_transactional name))
                      else mret false);
  _ ← when (h_state o =? FLOM_HANDLE_STATE_LOCKED) (
        _ ← on_client (flom_client_unlock (h_config o) c (rollback && negb ignored_rollback));
        upd_handle h (set_hstate FLOM_HANDLE_STATE_CONNECTED));
  _ ← on_client (flom_client_disconnect c);
  _ ← upd_handle h (set_element None);
  _ ← upd_handle h (set_hstate FLOM_HANDLE_STATE_DISCONNECTED);
  when ignored_rollback (throw (Rc FLOM_RC_RESOURCE_IS_NOT_TRANSACTIONAL)).

Definition flom_handle_unlock (hp : option handle_ref) : Am unit :=
  flom_handle_unlock_internal hp false.
Definition flom_handle_unlock_rollback (hp : option handle_ref) : Am unit :=
  flom_handle_unlock_internal hp true.

(** ** The end of a handle *)
(** The part of [flom_handle_clean] after the unlock *)
Definition release (h : handle_ref) : Am unit :=
  o ← the_handle h;
  _ ← when (negb ((h_state o =? FLOM_HANDLE_STATE_INIT)
               || (h_state o =? FLOM_HANDLE_STATE_DISCONNECTED)))
        (throw (Rc FLOM_RC_API_INVALID_SEQUENCE));
  _ ← on_aconfigs (flom_config_free (h_config o));
  _ ← delete_config (h_config o);
  _ ← delete_conn (h_conn o);
  upd_handle h (fun _ => Handle FLOM_HANDLE_STATE_CLEANED None None None).

Definition flom_handle_clean (h : handle_ref) : Am unit :=
  _ ← flom_init_check;
  o ← the_handle h;
  _ ← when (h_state o =? FLOM_HANDLE_STATE_LOCKED) (flom_handle_unlock (Some h));
  release h.

(** [flom_handle_delete] goes on whatever [flom_handle_clean] returns. *)
Definition flom_handle_delete (hp : option handle_ref) : Am unit :=
  x ← attempt flom_init_check;
  match x, hp with
  | inr _, Some h =>
      _ ← ignore_rc (flom_handle_clean h);
      modify (fun s => put_handles (delete h (a_handles s)) s)
  | _, _ => mret tt
  end.
End handle.

(** ** Getters and setters *)
Section accessors.
Context `{System}.

Definition read_config {A} (get : config_ref -> Gm A) (h : handle_ref) : Am A :=
  o ← the_handle h; on_aconfigs (get (h_config o)).

(** In which states a setter works: the handle without a connection, or the
    one without a lock *)
Definition idle_state (state : Z) : bool :=
  (state =? FLOM_HANDLE_STATE_INIT) || (state =? FLOM_HANDLE_STATE_DISCONNECTED).
Definition unlocked_state (state : Z) : bool :=
  idle_state state || (state =? FLOM_HANDLE_STATE_CONNECTED).

Definition set_config (allowed : Z -> bool) (h : handle_ref) (set : config_ref -> Gm Z) : Am Z :=
  o ← the_handle h;
  if allowed (h_state o) then on_aconfigs (set (h_config o))
  else mret FLOM_RC_API_IMMUTABLE_HANDLE.

(** The setters of the configuration that have no result, or whose result is
    dropped *)
Definition always_ok {A} (m : Gm A) : Gm Z := _ ← m; mret FLOM_RC_OK.

Definition flom_handle_get_discovery_attempts := read_config flom_config_get_discovery_attempts.
Definition flom_handle_get_discovery_timeout := read_config flom_config_get_discovery_timeout.
Definition flom_handle_get_discovery_ttl := read_config flom_config_get_discovery_ttl.
Definition flom_handle_get_lock_mode := read_config flom_config_get_lock_mode.
Definition flom_handle_get_multicast_port := read_config flom_config_get_multicast_port.
Definition flom_handle_get_resource_create := read_config flom_config_get_resource_create.
Definition flom_handle_get_resource_idle_lifespan := read_config flom_config_get_resource_idle_lifespan.
Definition flom_handle_get_resource_quantity := read_config flom_config_get_resource_quantity.
Definition flom_handle_get_resource_timeout := read_config flom_config_get_resource_timeout.
Definition flom_handle_get_unicast_port := read_config flom_config_get_unicast_port.
Definition flom_handle_get_tls_check_peer_id := read_config flom_config_get_tls_check_peer_id.
Definition flom_handle_get_multicast_address := read_config flom_config_get_multicast_address.
Definition flom_handle_get_network_interface := read_config flom_config_get_network_interface.
Definition flom_handle_get_resource_name := read_config flom_config_get_resource_name.
Definition flom_handle_get_socket_name := read_config flom_config_get_socket_name.
Definition flom_handle_get_unicast_address := read_config flom_config_get_unicast_address.
Definition flom_handle_get_tls_certificate := read_config flom_config_get_tls_certificate.
Definition flom_handle_get_tls_private_key := read_config flom_config_get_tls_private_key.
Definition flom_handle_get_tls_ca_certificate := read_config flom_config_get_tls_ca_certificate.
Definition flom_handle_get_trace_filename := read_config flom_config_get_command_trace_file.

Definition flom_handle_set_discovery_attempts (h : handle_ref) (value : Z) : Am Z :=
  set_config idle_state h (fun r => always_ok (flom_config_set_discovery_attempts r value)).
Definition flom_handle_set_discovery_timeout (h : handle_ref) (value : Z) : Am Z :=
  set_config idle_state h (fun r => always_ok (flom_config_set_discovery_timeout r value)).
Definition flom_handle_set_discovery_ttl (h : handle_ref) (value : Z) : Am Z :=
  set_config idle_state h (fun r => always_ok (flom_config_set_discovery_ttl r value)).
Definition flom_handle_set_lock_mode (h : handle_ref) (value : Z) : Am Z :=
  set_config unlocked_state h (fun r => always_ok (flom_config_set_lock_mode r value)).
Definition flom_handle_set_multicast_port (h : handle_ref) (value : Z) : Am Z :=
  set_config idle_state h (fun r => always_ok (flom_config_set_multicast_port r value)).
Definition flom_handle_set_resource_create (h : handle_ref) (value : Z) : Am Z :=
  set_config idle_state h (fun r => always_ok (flom_config_set_resource_create r value)).
Definition flom_handle_set_resource_idle_lifespan (h : handle_ref) (value : Z) : Am Z :=
  set_config unlocked_state h (fun r => always_ok (flom_config_set_resource_idle_lifespan r value)).
Definition flom_handle_set_resource_quantity (h : handle_ref) (value : Z) : Am Z :=
  set_config unlocked_state h (fun r => always_ok (flom_config_set_resource_quantity r value)).
Definition flom_handle_set_resource_timeout (h : handle_ref) (value : Z) : Am Z :=
  set_config unlocked_state h (fun r => always_ok (flom_config_set_resource_timeout r value)).
Definition flom_handle_set_unicast_port (h : handle_ref) (value : Z) : Am Z :=
  set_config idle_state h (fun r => always_ok (flom_config_set_unicast_port r value)).
Definition flom_handle_set_tls_check_peer_id (h : handle_ref) (value : Z) : Am Z :=
  set_config idle_state h (fun r => always_ok (flom_config_set_tls_check_peer_id r value)).

Definition flom_handle_set_resource_name (h : handle_ref) (value : option string) : Am Z :=
  set_config unlocked_state h (fun r => always_ok (flom_config_set_resource_name r value)).
Definition flom_handle_set_network_interface (h : handle_ref) (value : option string) : Am Z :=
  set_config idle_state h (fun r => flom_config_set_network_interface r value).
Definition flom_handle_set_tls_certificate (h : handle_ref) (value : option string) : Am Z :=
  set_config idle_state h (fun r => flom_config_set_tls_certificate r value).
Definition flom_handle_set_tls_private_key (h : handle_ref) (value : option string) : Am Z :=
  set_config idle_state h (fun r => flom_config_set_tls_private_key r value).
Definition flom_handle_set_tls_ca_certificate (h : handle_ref) (value : option string) : Am Z :=
  set_config idle_state h (fun r => flom_config_set_tls_ca_certificate r value).

(** The file of the trace can be set in any state, and the trace of the whole
    process goes to it. *)
Definition flom_handle_set_trace_filename (h : handle_ref) (value : option string) : Am Z :=
  o ← the_handle h;
  _ ← on_aconfigs (flom_config_set_command_trace_file (h_config o) value);
  file ← on_aconfigs (flom_config_get_command_trace_file (h_config o));
  _ ← on_trace (flom_trace_reopen file false);
  mret FLOM_RC_OK.

(** The three ways to reach a daemon exclude each other: a setter that is given
    one resets the others, by calling their setters with NULL. *)
Definition set_address (set : config_ref -> option string -> Gm Z) (h : handle_ref) : Am Z :=
  set_config idle_state h (fun r => set r None).
Definition socket_setter (r : config_ref) (value : option string) : Gm Z :=
  flom_config_set_socket_name r value.
Definition unicast_setter (r : config_ref) (value : option string) : Gm Z :=
  always_ok (flom_config_set_unicast_address r value).
Definition multicast_setter (r : config_ref) (value : option string) : Gm Z :=
  always_ok (flom_config_set_multicast_address r value).

Definition flom_handle_set_unicast_address (h : handle_ref) (value : option string) : Am Z :=
  o ← the_handle h;
  if idle_state (h_state o) then
    _ ← on_aconfigs (flom_config_set_unicast_address (h_config o) value);
    _ ← when (given value) (
          _ ← set_address socket_setter h;
          _ ← set_address multicast_setter h; mret tt);
    mret FLOM_RC_OK
  else mret FLOM_RC_API_IMMUTABLE_HANDLE.

Definition flom_handle_set_multicast_address (h : handle_ref) (value : option string) : Am Z :=
  o ← the_handle h;
  if idle_state (h_state o) then
    _ ← on_aconfigs (flom_config_set_multicast_address (h_config o) value);
    _ ← when (given value) (
          _ ← set_address socket_setter h;
          _ ← set_address unicast_setter h; mret tt);
    mret FLOM_RC_OK
  else mret FLOM_RC_API_IMMUTABLE_HANDLE.

Definition flom_handle_set_socket_name (h : handle_ref) (value : option string) : Am Z :=
  o ← the_handle h;
  if idle_state (h_state o) then
    _ ← when (given value) (
          _ ← set_address unicast_setter h;
          _ ← set_address multicast_setter h; mret tt);
    on_aconfigs (flom_config_set_socket_name (h_config o) value)
  else mret FLOM_RC_API_IMMUTABLE_HANDLE.
End accessors.

(** ** The setters, as data *)
Inductive setter : Type :=
| Set_discovery_attempts (value : Z)
| Set_discovery_timeout (value : Z)
| Set_discovery_ttl (value : Z)
| Set_lock_mode (value : Z)
| Set_multicast_address (value : option string)
| Set_multicast_port (value : Z)
| Set_network_interface (value : option string)
| Set_resource_create (value : Z)
| Set_resource_idle_lifespan (value : Z)
| Set_resource_name (value : option string)
| Set_resource_quantity (value : Z)
| Set_resource_timeout (value : Z)
| Set_socket_name (value : option string)
| Set_trace_filename (value : option string)
| Set_unicast_address (value : option string)
| Set_unicast_port (value : Z)
| Set_tls_certificate (value : option string)
| Set_tls_private_key (value : option string)
| Set_tls_ca_certificate (value : option string)
| Set_tls_check_peer_id (value : Z).

Section setters.
Context `{System}.

Definition run_setter (t : setter) (h : handle_ref) : Am Z :=
  match t with
  | Set_discovery_attempts v => flom_handle_set_discovery_attempts h v
  | Set_discovery_timeout v => flom_handle_set_discovery_timeout h v
  | Set_discovery_ttl v => flom_handle_set_discovery_ttl h v
  | Set_lock_mode v => flom_handle_set_lock_mode h v
  | Set_multicast_address v => flom_handle_set_multicast_address h v
  | Set_multicast_port v => flom_handle_set_multicast_port h v
  | Set_network_interface v => flom_handle_set_network_interface h v
  | Set_resource_create v => flom_handle_set_resource_create h v
  | Set_resource_idle_lifespan v => flom_handle_set_resource_idle_lifespan h v
  | Set_resource_name v => flom_handle_set_resource_name h v
  | Set_resource_quantity v => flom_handle_set_resource_quantity h v
  | Set_resource_timeout v => flom_handle_set_resource_timeout h v
  | Set_socket_name v => flom_handle_set_socket_name h v
  | Set_trace_filename v => flom_handle_set_trace_filename h v
  | Set_unicast_address v => flom_handle_set_unicast_address h v
  | Set_unicast_port v => flom_handle_set_unicast_port h v
  | Set_tls_certificate v => flom_handle_set_tls_certificate h v
  | Set_tls_private_key v => flom_handle_set_tls_private_key h v
  | Set_tls_ca_certificate v => flom_handle_set_tls_ca_certificate h v
  | Set_tls_check_peer_id v => flom_handle_set_tls_check_peer_id h v
  end.

(** What a setter needs of its value: numbers of which the absolute value is
    taken are not the least one, names that are compared are not NULL. *)
Definition valid_setter (t : setter) : Prop :=
  match t with
  | Set_discovery_attempts v | Set_discovery_timeout v | Set_discovery_ttl v
  | Set_multicast_port v | Set_unicast_port v | Set_resource_idle_lifespan v
  | Set_resource_quantity v => v <> -2147483648
  | Set_network_interface v | Set_resource_name v => v <> None
  | _ => True
  end.

(** The states in which it has an effect *)
Definition setter_allowed (t : setter) : Z -> bool :=
  match t with
  | Set_lock_mode _ | Set_resource_idle_lifespan _ | Set_resource_name _
  | Set_resource_quantity _ | Set_resource_timeout _ => unlocked_state
  | Set_trace_filename _ => fun _ => true
  | _ => idle_state
  end.

(** The setter that changes more than the configuration *)
Definition sets_trace (t : setter) : bool :=
  match t with Set_trace_filename _ => true | _ => false end.

(** *** A setter changes the configuration of its handle, and nothing else *)
Definition a_configs (s : app) : configs := k_configs (a_client s).
Definition with_configs (g : configs) (s : app) : app :=
  put_client (put_configs g (a_client s)) s.

Lemma with_configs_id s : s = with_configs (a_configs s) s.
Proof. by destruct s as [[] ? ? ?]. Qed.

Definition confined_to (h : handle_ref) (o : flom_handle) {A} (m : Am A) : Prop := forall s,
  a_handles s !! h = Some o -> owned (a_configs s) ->
  is_Some (config_at (a_configs s) (h_config o)) ->
  wp m (fun x s' => exists a g, x = inr a /\ s' = with_configs g s /\ owned g /\
    aside (h_config o) (a_configs s) g) s.

Lemma confined_to_ret h o {A} (a : A) : confined_to h o (mret a).
Proof.
  intros s Ho Hw Hr. wp_step. exists a, (a_configs s).
  split_and!; [done | apply with_configs_id | done | apply aside_refl].
Qed.

Lemma confined_to_bind h o {A B} (m : Am A) (k : A -> Am B) :
  confined_to h o m -> (forall a, confined_to h o (k a)) -> confined_to h o (m ≫= k).
Proof.
  intros Hm Hk s Ho Hw Hr. wp_step. eapply wp_mono; [|by eapply Hm].
  intros x s1 (a & g & -> & -> & Hg & Ha). eapply wp_mono.
  2: apply (Hk a (with_configs g s)); [done | done | by apply Ha].
  intros y s2 (b & g' & -> & -> & Hg' & Ha'). exists b, g'.
  split_and!; [done | done | done | by eapply aside_trans].
Qed.

Lemma confined_to_handle h o {A} (k : flom_handle -> Am A) :
  confined_to h o (k o) -> confined_to h o (the_handle h ≫= k).
Proof.
  intros Hk s Ho Hw Hr. unfold the_handle. do 3 wp_step. rewrite Ho.
  apply wp_ret. by apply Hk.
Qed.

Lemma confined_to_when h o (b : bool) (m : Am unit) :
  confined_to h o m -> confined_to h o (when b m).
Proof. intros Hm. destruct b; [done | apply confined_to_ret]. Qed.

Lemma wp_on_aconfigs {A} (m : Gm A) (Q : err + A -> app -> Prop) s :
  wp m (fun x g => Q x (with_configs g s)) (a_configs s) -> wp (on_aconfigs m) Q s.
Proof. intros Hm. unfold on_aconfigs, on_client, on_configs. by do 2 wp_step. Qed.

Lemma confined_on_aconfigs h o {A} (m : Gm A) :
  confined (h_config o) m -> confined_to h o (on_aconfigs m).
Proof.
  intros Hm s Ho Hw Hr. apply wp_on_aconfigs. eapply wp_mono; [|by apply Hm].
  intros x g ((a & ->) & Hg & Ha). eauto 10.
Qed.

Lemma confined_always_ok {A} r (m : Gm A) : confined r m -> confined r (always_ok m).
Proof. intros Hm. apply confined_bind; [done | intros; apply confined_ret]. Qed.
Hint Resolve confined_always_ok : confined.

Lemma confined_socket_name r v : confined r (flom_config_set_socket_name r v).
Proof. unfold flom_config_set_socket_name. solve_confined. Qed.
Lemma confined_real_path f r v : confined r (put_real_path f r v).
Proof. unfold put_real_path. solve_confined. Qed.
Lemma confined_resource_name r v : v <> None -> confined r (flom_config_set_resource_name r v).
Proof.
  intros Hv. unfold flom_config_set_resource_name. destruct v as [x|]; [|done].
  apply confined_bind; [apply confined_ret | intros; solve_confined].
Qed.
Lemma confined_network_interface r v : v <> None -> confined r (flom_config_set_network_interface r v).
Proof.
  intros Hv. unfold flom_config_set_network_interface. destruct v as [x|]; [|done].
  destruct getifaddrs as [l|]; [|solve_confined]. destruct (filter _ l); [solve_confined|].
  apply confined_bind; [apply confined_ret | intros; solve_confined].
Qed.
Hint Resolve confined_socket_name confined_resource_name confined_network_interface : confined.
Hint Extern 4 (confined _ _) => apply confined_real_path : confined.

Ltac solve_confined_to :=
  repeat first
    [ progress intros
    | apply confined_to_handle
    | apply confined_to_ret
    | apply confined_on_aconfigs; solve [solve_confined]
    | apply confined_to_when
    | apply confined_to_bind
    | match goal with
      | |- confined_to _ _ (if ?b then _ else _) => destruct b
      end ].

Lemma run_setter_confined t h o :
  valid_setter t -> sets_trace t = false -> confined_to h o (run_setter t h).
Proof.
  destruct t; cbn [run_setter valid_setter sets_trace]; intros Hv Ht; try done;
    unfold flom_handle_set_multicast_address, flom_handle_set_unicast_address,
      flom_handle_set_socket_name, set_address, multicast_setter, unicast_setter, socket_setter;
    try (apply confined_to_handle; destruct (idle_state _); [|apply confined_to_ret]).
  all: solve_confined_to.
Qed.

(** That of the trace changes one string, then opens the trace again. *)
Lemma wp_on_trace {A} (m : Trm A) (Q : err + A -> app -> Prop) s :
  wp m (fun x t => Q x (with_trace t s)) (a_trace s) -> wp (on_trace m) Q s.
Proof. intros Hm. unfold on_trace. by wp_step. Qed.

Lemma wp_set_trace h o v (Q : err + Z -> app -> Prop) s :
  a_handles s !! h = Some o -> owned (a_configs s) ->
  is_Some (config_at (a_configs s) (h_config o)) ->
  (forall g, owned g -> is_Some (config_at g (h_config o)) ->
     content g (h_config o) command_trace_file = v ->
     Config.frame (fun r f => False \/ the_member (h_config o) command_trace_file r f) (a_configs s) g ->
     wp (flom_trace_reopen v false) (fun x t => match x with
       | inl e => Q (inl e) (with_trace t (with_configs g s))
       | inr _ => Q (inr FLOM_RC_OK) (with_trace t (with_configs g s))
       end) (a_trace s)) ->
  wp (flom_handle_set_trace_filename h v) Q s.
Proof.
  intros Ho Hw Hr HQ. unfold flom_handle_set_trace_filename, the_handle.
  do 3 wp_step. rewrite Ho. cbn [of_option]. do 2 wp_step. apply wp_on_aconfigs.
  destruct Hr as [c Hc]. eapply (wp_put_str (fun _ _ => False)); [done..|exact id|].
  intros g Hg Hv Hf. assert (Hr : is_Some (config_at g (h_config o))) by (eapply frame_object; eauto).
  cbn beta iota. wp_step. apply wp_on_aconfigs. apply wp_get_str; [done..|].
  change (a_configs (with_configs g s)) with g. rewrite Hv. wp_step. apply wp_on_trace.
  eapply wp_mono; [|apply (HQ g); eauto]. intros [e|u] t HQ'; [done|]. by wp_step.
Qed.

(** A setter that is not allowed is refused, without any effect. *)
Lemma run_setter_refused t h s o :
  a_handles s !! h = Some o -> setter_allowed t (h_state o) = false ->
  run_setter t h s = (inr FLOM_RC_API_IMMUTABLE_HANDLE, s).
Proof.
  intros Ho Ha. destruct t; cbn in Ha |- *; try done;
    cbv [flom_handle_set_discovery_attempts flom_handle_set_discovery_timeout
      flom_handle_set_discovery_ttl flom_handle_set_lock_mode flom_handle_set_multicast_address
      flom_handle_set_multicast_port flom_handle_set_network_interface
      flom_handle_set_resource_create flom_handle_set_resource_idle_lifespan
      flom_handle_set_resource_name flom_handle_set_resource_quantity
      flom_handle_set_resource_timeout flom_handle_set_socket_name flom_handle_set_unicast_address
      flom_handle_set_unicast_port flom_handle_set_tls_certificate flom_handle_set_tls_private_key
      flom_handle_set_tls_ca_certificate flom_handle_set_tls_check_peer_id set_config
      the_handle mbind M_bind gets]; rewrite Ho; cbn; by rewrite Ha.
Qed.
End setters.
