(* ===== verification/Settings.v ===== *)
(** * Settings: what a setter stores and a getter reads

    The getters and the setters of [Handle], two by two, and what
    [flom_config_check] accepts. *)
From Stdlib Require Import ZArith String List Lia.
From stdpp Require Import base list gmap numbers strings.
From S2P Require Import Prelude Types CStr RsrcName Msg MsgXml Vfs World Trace Config.
From S2P Require Import ConfigFile ConnLock Conns Locker Connect Client Handle.
Local Open Scope Z_scope.

(** ** Reading a setting *)
Inductive value : Type :=
| Number (z : Z)
| Text (x : option string).

Section settings.
Context `{System}.

Definition number_of (get : handle_ref -> Am Z) (h : handle_ref) : Am value := z ← get h; mret (Number z).
Definition text_of (get : handle_ref -> Am (option string)) (h : handle_ref) : Am value :=
  x ← get h; mret (Text x).

(** The getter that belongs to a setter *)
Definition read_setting (t : setter) : handle_ref -> Am value :=
  match t with
  | Set_discovery_attempts _ => number_of flom_handle_get_discovery_attempts
  | Set_discovery_timeout _ => number_of flom_handle_get_discovery_timeout
  | Set_discovery_ttl _ => number_of flom_handle_get_discovery_ttl
  | Set_lock_mode _ => number_of flom_handle_get_lock_mode
  | Set_multicast_address _ => text_of flom_handle_get_multicast_address
  | Set_multicast_port _ => number_of flom_handle_get_multicast_port
  | Set_network_interface _ => text_of flom_handle_get_network_interface
  | Set_resource_create _ => number_of flom_handle_get_resource_create
  | Set_resource_idle_lifespan _ => number_of flom_handle_get_resource_idle_lifespan
  | Set_resource_name _ => text_of flom_handle_get_resource_name
  | Set_resource_quantity _ => number_of flom_handle_get_resource_quantity
  | Set_resource_timeout _ => number_of flom_handle_get_resource_timeout
  | Set_socket_name _ => text_of flom_handle_get_socket_name
  | Set_trace_filename _ => text_of flom_handle_get_trace_filename
  | Set_unicast_address _ => text_of flom_handle_get_unicast_address
  | Set_unicast_port _ => number_of flom_handle_get_unicast_port
  | Set_tls_certificate _ => text_of flom_handle_get_tls_certificate
  | Set_tls_private_key _ => text_of flom_handle_get_tls_private_key
  | Set_tls_ca_certificate _ => text_of flom_handle_get_tls_ca_certificate
  | Set_tls_check_peer_id _ => number_of flom_handle_get_tls_check_peer_id
  end.

(** The value that is stored: numbers lose their sign, two of them are at least
    one, the names of files are made absolute. *)
Definition stored (t : setter) : value :=
  match t with
  | Set_discovery_attempts v | Set_discovery_ttl v => Number (Z.max 1 (Z.abs v))
  | Set_discovery_timeout v | Set_multicast_port v | Set_unicast_port v
  | Set_resource_idle_lifespan v | Set_resource_quantity v => Number (Z.abs v)
  | Set_lock_mode v | Set_resource_create v | Set_resource_timeout v | Set_tls_check_peer_id v => Number v
  | Set_multicast_address x | Set_network_interface x | Set_resource_name x | Set_socket_name x
  | Set_trace_filename x | Set_unicast_address x => Text x
  | Set_tls_certificate x | Set_tls_private_key x | Set_tls_ca_certificate x => Text (x ≫= realpath)
  end.

(** The values that are dropped without a word: a quantity or a lifespan of
    zero, a name that is not one of a resource *)
Definition dropped (t : setter) : bool :=
  match t with
  | Set_resource_idle_lifespan v | Set_resource_quantity v => v =? 0
  | Set_resource_name (Some x) =>
      String.eqb x DEFAULT_RESOURCE_NAME || bool_decide (flom_rsrc_get_type x = FLOM_RSRC_TYPE_NULL)
  | _ => false
  end.

(** ** What an operation on a configuration leaves in it *)
Definition leaves (r : config_ref) (P : configs -> Prop) (m : Gm Z) : Prop := forall s,
  owned s -> is_Some (config_at s r) ->
  wp m (fun x s' => exists rc, x = inr rc /\ owned s' /\ is_Some (config_at s' r) /\
    (rc = FLOM_RC_OK -> P s')) s.

Definition has_number (r : config_ref) (f : int_member) (v : Z) : configs -> Prop :=
  fun s => number s r f = Some v.
Definition has_text (r : config_ref) (f : string_member) (x : option string) : configs -> Prop :=
  fun s => content s r f = x.

Lemma leaves_error r P rc : rc <> FLOM_RC_OK -> leaves r P (mret rc).
Proof. intros Hrc s Ho Hr. wp_step. by exists rc. Qed.

Lemma renumbered_object r' f v r s s' :
  renumbered r' f v s s' -> is_Some (config_at s r) -> is_Some (config_at s' r).
Proof.
  intros Hn [c Hc]. assert (Hp := rn_pointer _ _ _ _ _ Hn r socket_name).
  unfold pointer in Hp. rewrite Hc in Hp. destruct (config_at s' r); [eauto | done].
Qed.

Lemma leaves_put_int r f v : leaves r (has_number r f v) (always_ok (put_int f r v)).
Proof.
  intros s Ho Hr. unfold always_ok. wp_step. eapply wp_put_int; [done..|]. intros s' Ho' Hn.
  wp_step. eexists. split_and!; [done | done | by eapply renumbered_object|]. intros _.
  unfold has_number. rewrite (rn_number _ _ _ _ _ Hn). by rewrite decide_True.
Qed.

Lemma leaves_put_str r f x : leaves r (has_text r f x) (always_ok (put_str f r x)).
Proof.
  intros s Ho [c Hc]. unfold always_ok. wp_step. eapply wp_put_str; [done..|exact id|]. intros s' Ho' Hv Hf.
  wp_step. eexists. split_and!; [done | done | by eapply frame_object; eauto | by intros _].
Qed.

Lemma absolute_eq v s : v <> -2147483648 -> absolute v s = (inr (Z.abs v), s).
Proof.
  intros Hv. unfold absolute. rewrite (proj2 (Z.eqb_neq _ _) Hv).
  destruct (Z.ltb_spec v 0); unfold mret, M_ret; repeat f_equal; lia.
Qed.

Lemma leaves_absolute r f v g : v <> -2147483648 ->
  leaves r (has_number r f (g (Z.abs v))) (always_ok (z ← absolute v; put_int f r (g z))).
Proof.
  intros Hv s Ho Hr. eapply wp_same; [|by apply leaves_put_int].
  unfold always_ok, mbind at 2, M_bind at 2. unfold mbind, M_bind. rewrite absolute_eq by done.
  done.
Qed.

Lemma leaves_absolute_nonzero r f v : v <> -2147483648 -> v <> 0 ->
  leaves r (has_number r f (Z.abs v))
    (always_ok (z ← absolute v; when (negb (z =? 0)) (put_int f r z))).
Proof.
  intros Hv Hz s Ho Hr. eapply wp_same; [|by apply leaves_put_int].
  unfold always_ok, mbind, M_bind. rewrite absolute_eq by done.
  rewrite (proj2 (Z.eqb_neq _ _)) by lia. done.
Qed.

Lemma leaves_resource_name r x :
  String.eqb x DEFAULT_RESOURCE_NAME || bool_decide (flom_rsrc_get_type x = FLOM_RSRC_TYPE_NULL) = false ->
  leaves r (has_text r resource_name (Some x)) (always_ok (flom_config_set_resource_name r (Some x))).
Proof.
  intros Hx s Ho Hr. apply orb_false_iff in Hx as [Hd Ht]. unfold always_ok, flom_config_set_resource_name.
  wp_step. wp_step. apply wp_ret. wp_step. rewrite Hd, Ht. wp_step. destruct Hr as [c Hc].
  eapply wp_put_str; [done..|exact id|]. intros s1 Ho1 Hv Hf. wp_step. wp_step.
  eapply wp_put_int; [done | by eapply frame_object; eauto|]. intros s2 Ho2 Hn.
  wp_step. wp_step. eexists. split_and!; [done | done | |].
  - eapply renumbered_object; [done|]. by eapply frame_object; eauto.
  - intros _. unfold has_text. by rewrite (rn_content _ _ _ _ _ Hn).
Qed.

Lemma leaves_socket_name r x : leaves r (has_text r socket_name x) (flom_config_set_socket_name r x).
Proof.
  unfold flom_config_set_socket_name. destruct x as [x|]; [|apply leaves_put_str].
  destruct (_ <=? _); [by apply leaves_error | apply leaves_put_str].
Qed.

Lemma leaves_real_path r f x : leaves r (has_text r f (x ≫= realpath)) (put_real_path f r x).
Proof.
  unfold put_real_path. destruct (x ≫= realpath); [apply leaves_put_str | by apply leaves_error].
Qed.

Lemma leaves_network_interface r x : x <> None ->
  leaves r (has_text r network_interface x) (flom_config_set_network_interface r x).
Proof.
  intros Hx. unfold flom_config_set_network_interface.
  destruct getifaddrs as [l|]; [|by apply leaves_error].
  destruct (filter _ l) as [|i0 l']; [by apply leaves_error|]. destruct x as [name|]; [|done].
  intros s Ho Hr. wp_step. apply wp_ret.
  destruct (List.find _ _) as [i|]; [|by apply leaves_error].
  wp_step. eapply wp_put_int; [done..|]. intros s1 Ho1 Hn.
  by apply leaves_put_str; [|eapply renumbered_object].
Qed.

(** ** From configurations to handles *)

(** What a setter that is accepted leaves: a value, and for an address that
    there is no other one *)
Definition settled (r : config_ref) (t : setter) : configs -> Prop :=
  match t, stored t with
  | Set_discovery_attempts _, Number z => has_number r discovery_attempts z
  | Set_discovery_timeout _, Number z => has_number r discovery_timeout z
  | Set_discovery_ttl _, Number z => has_number r discovery_ttl z
  | Set_lock_mode _, Number z => has_number r config_lock_mode z
  | Set_multicast_port _, Number z => has_number r multicast_port z
  | Set_resource_create _, Number z => has_number r resource_create z
  | Set_resource_idle_lifespan _, Number z => has_number r resource_idle_lifespan z
  | Set_resource_quantity _, Number z => has_number r resource_quantity z
  | Set_resource_timeout _, Number z => has_number r Config.resource_timeout z
  | Set_unicast_port _, Number z => has_number r unicast_port z
  | Set_tls_check_peer_id _, Number z => has_number r tls_check_peer_id z
  | Set_network_interface _, Text x => has_text r network_interface x
  | Set_resource_name _, Text x => has_text r resource_name x
  | Set_trace_filename _, Text x => has_text r command_trace_file x
  | Set_tls_certificate _, Text x => has_text r tls_certificate x
  | Set_tls_private_key _, Text x => has_text r tls_private_key x
  | Set_tls_ca_certificate _, Text x => has_text r tls_ca_certificate x
  | Set_multicast_address _, Text x => fun g => has_text r multicast_address x g /\
      (x <> None -> has_text r socket_name None g /\ has_text r unicast_address None g)
  | Set_socket_name _, Text x => fun g => has_text r socket_name x g /\
      (x <> None -> has_text r multicast_address None g /\ has_text r unicast_address None g)
  | Set_unicast_address _, Text x => fun g => has_text r unicast_address x g /\
      (x <> None -> has_text r socket_name None g /\ has_text r multicast_address None g)
  | _, _ => fun _ => False
  end.

Definition leaves_to (h : handle_ref) (o : flom_handle) (P : configs -> Prop) (m : Am Z) : Prop :=
  forall s, a_handles s !! h = Some o -> owned (a_configs s) ->
  is_Some (config_at (a_configs s) (h_config o)) ->
  wp m (fun x s' => exists rc g, x = inr rc /\ s' = with_configs g s /\ owned g /\
    is_Some (config_at g (h_config o)) /\ (rc = FLOM_RC_OK -> P g)) s.

Lemma wp_the_handle_at h o (Q : err + flom_handle -> app -> Prop) s :
  a_handles s !! h = Some o -> Q (inr o) s -> wp (the_handle h) Q s.
Proof. intros Ho HQ. unfold the_handle. do 2 wp_step. rewrite Ho. by apply wp_ret. Qed.

Lemma leaves_set_config h o P allowed set :
  allowed (h_state o) = true -> leaves (h_config o) P (set (h_config o)) ->
  leaves_to h o P (set_config allowed h set).
Proof.
  intros Ha Hl s Ho Hw Hr. unfold set_config. wp_step. eapply wp_the_handle_at; [done|]. rewrite Ha.
  apply wp_on_aconfigs. eapply wp_mono; [|by apply Hl].
  intros x g (rc & -> & Hg & Hr' & Hp). by exists rc, g.
Qed.

(** One address, and no other *)
Lemma wp_put_address f v r (Q : err + unit -> app -> Prop) s :
  owned (a_configs s) -> is_Some (config_at (a_configs s) r) ->
  (forall g, owned g -> is_Some (config_at g r) -> content g r f = v ->
     (forall f', f' <> f -> content g r f' = content (a_configs s) r f') ->
     Q (inr tt) (with_configs g s)) ->
  wp (on_aconfigs (put_str f r v)) Q s.
Proof.
  intros Ho [c Hc] HQ. apply wp_on_aconfigs. eapply wp_put_str; [done..|exact id|].
  intros g Hg Hv Hf. apply HQ; [done | by eapply frame_object; eauto | done|].
  intros f' Hne. apply (fr_content _ _ _ Hf). by intros [[]|[_ ?]].
Qed.

Lemma wp_set_address f set h o (Q : err + Z -> app -> Prop) s :
  (forall r, set r None = (_ ← put_str f r None; mret FLOM_RC_OK)) ->
  idle_state (h_state o) = true ->
  a_handles s !! h = Some o -> owned (a_configs s) -> is_Some (config_at (a_configs s) (h_config o)) ->
  (forall g, owned g -> is_Some (config_at g (h_config o)) -> content g (h_config o) f = None ->
     (forall f', f' <> f -> content g (h_config o) f' = content (a_configs s) (h_config o) f') ->
     Q (inr FLOM_RC_OK) (with_configs g s)) ->
  wp (set_address set h) Q s.
Proof.
  intros Hset Hi Ho Hw Hr HQ. unfold set_address, set_config. wp_step.
  eapply wp_the_handle_at; [done|]. rewrite Hi, Hset. apply wp_on_aconfigs. wp_step.
  destruct Hr as [c Hc]. eapply wp_put_str; [done..|exact id|]. intros g Hg Hv Hf. wp_step.
  apply HQ; [done | by eapply frame_object; eauto | done|].
  intros f' Hne. apply (fr_content _ _ _ Hf). by intros [[]|[_ ?]].
Qed.

Lemma leaves_unicast h o x :
  idle_state (h_state o) = true ->
  leaves_to h o (settled (h_config o) (Set_unicast_address x)) (flom_handle_set_unicast_address h x).
Proof.
  intros Hi s Ho Hw Hr. unfold flom_handle_set_unicast_address. wp_step.
  eapply wp_the_handle_at; [done|]. rewrite Hi. wp_step. apply wp_put_address; [done..|].
  intros g1 Hg1 Hr1 Hv1 _. wp_step. destruct x as [x|]; cbn [given when].
  - wp_step. eapply (wp_set_address socket_name); [done..|]. intros g2 Hg2 Hr2 Hv2 Hk2.
    wp_step. eapply (wp_set_address multicast_address); [done..|]. intros g3 Hg3 Hr3 Hv3 Hk3.
    do 2 wp_step. exists FLOM_RC_OK, g3. split_and!; [done..|]. intros _. cbn. unfold has_text.
    split_and!; [|intros _; split]; [rewrite Hk3, Hk2 | rewrite Hk3|]; done.
  - do 2 wp_step. exists FLOM_RC_OK, g1. by split_and!.
Qed.

Lemma leaves_multicast h o x :
  idle_state (h_state o) = true ->
  leaves_to h o (settled (h_config o) (Set_multicast_address x)) (flom_handle_set_multicast_address h x).
Proof.
  intros Hi s Ho Hw Hr. unfold flom_handle_set_multicast_address. wp_step.
  eapply wp_the_handle_at; [done|]. rewrite Hi. wp_step. apply wp_put_address; [done..|].
  intros g1 Hg1 Hr1 Hv1 _. wp_step. destruct x as [x|]; cbn [given when].
  - wp_step. eapply (wp_set_address socket_name); [done..|]. intros g2 Hg2 Hr2 Hv2 Hk2.
    wp_step. eapply (wp_set_address unicast_address); [done..|]. intros g3 Hg3 Hr3 Hv3 Hk3.
    do 2 wp_step. exists FLOM_RC_OK, g3. split_and!; [done..|]. intros _. cbn. unfold has_text.
    split_and!; [|intros _; split]; [rewrite Hk3, Hk2 | rewrite Hk3|]; done.
  - do 2 wp_step. exists FLOM_RC_OK, g1. by split_and!.
Qed.

Lemma leaves_socket h o x :
  idle_state (h_state o) = true ->
  leaves_to h o (settled (h_config o) (Set_socket_name x)) (flom_handle_set_socket_name h x).
Proof.
  intros Hi s Ho Hw Hr. unfold flom_handle_set_socket_name. wp_step.
  eapply wp_the_handle_at; [done|]. rewrite Hi. wp_step. destruct x as [x|]; cbn [given when].
  - wp_step. eapply (wp_set_address unicast_address); [done..|]. intros g1 Hg1 Hr1 Hv1 Hk1.
    wp_step. eapply (wp_set_address multicast_address); [done..|]. intros g2 Hg2 Hr2 Hv2 Hk2.
    wp_step. unfold flom_config_set_socket_name. destruct (_ <=? _).
    { apply wp_on_aconfigs. wp_step. exists FLOM_RC_BUFFER_OVERFLOW, g2. by split_and!. }
    eapply wp_same; [|apply (wp_bind (on_aconfigs (put_str socket_name (h_config o) (Some x)))
      (fun _ => mret FLOM_RC_OK)); apply wp_put_address]; [|done..|].
    { unfold on_aconfigs, on_client, on_configs, zoom, mbind, M_bind. cbn.
      by destruct (put_str socket_name (h_config o) (Some x) _) as [[?|[]] ?]. }
    intros g3 Hg3 Hr3 Hv3 Hk3. wp_step. exists FLOM_RC_OK, g3. split_and!; [done..|]. intros _. cbn.
    unfold has_text. split_and!; [|intros _; split]; [|rewrite Hk3 | rewrite Hk3, Hk2]; done.
  - wp_step. apply wp_on_aconfigs. eapply wp_mono; [|by apply (leaves_socket_name (h_config o) None)].
    intros y g (rc & -> & Hg & Hr' & Hp). exists rc, g. split_and!; [done..|]. intros E. cbn. by split; [apply Hp|].
Qed.

Lemma leaves_setter t h o :
  valid_setter t -> setter_allowed t (h_state o) = true -> dropped t = false -> sets_trace t = false ->
  leaves_to h o (settled (h_config o) t) (run_setter t h).
Proof.
  intros Hv Ha Hd Ht.
  assert (Hnz : forall v, (v =? 0) = false -> v <> 0) by (intros v; apply Z.eqb_neq).
  assert (Hg : forall v, (fun z => if z =? 0 then 1 else z) (Z.abs v) = Z.max 1 (Z.abs v)).
  { intros v. destruct (Z.eqb_spec (Z.abs v) 0); lia. }
  destruct t; cbn [run_setter valid_setter setter_allowed dropped settled stored sets_trace] in *; try done.
  all: try (by apply leaves_unicast); try (by apply leaves_multicast); try (by apply leaves_socket).
  all: apply leaves_set_config; [done|].
  all: try apply leaves_put_int; try apply leaves_put_str; try apply leaves_real_path.
  - rewrite <- Hg. by apply (leaves_absolute _ _ _ (fun z => if z =? 0 then 1 else z)).
  - by apply (leaves_absolute _ _ _ id).
  - rewrite <- Hg. by apply (leaves_absolute _ _ _ (fun z => if z =? 0 then 1 else z)).
  - by apply (leaves_absolute _ _ _ id).
  - by apply leaves_network_interface.
  - apply leaves_absolute_nonzero; auto.
  - destruct value0; [|done]. by apply leaves_resource_name.
  - apply leaves_absolute_nonzero; auto.
  - by apply (leaves_absolute _ _ _ id).
Qed.

(** What a setter that is accepted leaves, that of the trace included *)
Lemma setter_settles t h o s s' :
  valid_setter t -> setter_allowed t (h_state o) = true -> dropped t = false ->
  a_handles s !! h = Some o -> owned (a_configs s) -> is_Some (config_at (a_configs s) (h_config o)) ->
  run_setter t h s = (inr FLOM_RC_OK, s') ->
  a_handles s' !! h = Some o /\ owned (a_configs s') /\ is_Some (config_at (a_configs s') (h_config o)) /\
  settled (h_config o) t (a_configs s').
Proof.
  intros Hv Ha Hd Ho Hw Hr Hrun. destruct (sets_trace t) eqn:Et.
  - destruct t; try done. cbn [run_setter] in Hrun.
    assert (Hl : wp (flom_handle_set_trace_filename h value0) (fun x s' => x = inr FLOM_RC_OK ->
      a_handles s' !! h = Some o /\ owned (a_configs s') /\ is_Some (config_at (a_configs s') (h_config o)) /\
      settled (h_config o) (Set_trace_filename value0) (a_configs s')) s).
    { eapply wp_set_trace; [done..|]. intros g Hg Hrg Hcg _. unfold wp.
      destruct (flom_trace_reopen value0 false (a_trace s)) as [[e|u] t']; cbn; [done | by intros _]. }
    unfold wp in Hl. rewrite Hrun in Hl. by apply Hl.
  - assert (Hl := leaves_setter t h o Hv Ha Hd Et s Ho Hw Hr). unfold wp in Hl. rewrite Hrun in Hl.
    cbn [fst snd] in Hl. destruct Hl as (rc & g & E & -> & Hg & Hrg & Hp). injection E as <-. by auto.
Qed.

Lemma read_number f h o s v :
  a_handles s !! h = Some o -> number (a_configs s) (h_config o) f = Some v ->
  number_of (read_config (get_int f)) h s = (inr (Number v), s).
Proof.
  intros Ho Hv. rewrite (with_configs_id s). set (g := a_configs s) in *. clearbody g. unfold number in Hv. destruct (config_at g (h_config o)) as [c|] eqn:Hc; [|done].
  injection Hv as <-.
  unfold number_of, read_config, the_handle, mbind, M_bind, gets. cbn. rewrite Ho. cbn.
  unfold on_aconfigs, on_client, on_configs, zoom. cbn. unfold get_int, the_config, mbind, M_bind, gets. cbn.
  unfold config_at in Hc. rewrite Hc. done.
Qed.

Lemma read_text f h o s :
  a_handles s !! h = Some o -> owned (a_configs s) -> is_Some (config_at (a_configs s) (h_config o)) ->
  text_of (read_config (get_str f)) h s = (inr (Text (content (a_configs s) (h_config o) f)), s).
Proof.
  intros Ho Hw [c Hc]. rewrite (with_configs_id s) at 1 3. set (g := a_configs s) in *. clearbody g.
  assert (Hs : c_str (strs c f) g = (inr (content g (h_config o) f), g)).
  { unfold content. rewrite Hc. cbn. destruct (strs c f) as [l|] eqn:El; cbn; [|done].
    destruct (ow_live _ _ Hw _ _ _ _ Hc El id) as [x ->]. done. }
  unfold text_of, read_config, the_handle, mbind, M_bind, gets. cbn. rewrite Ho. cbn.
  unfold on_aconfigs, on_client, on_configs, zoom. cbn. unfold get_str, the_config, mbind, M_bind, gets. cbn.
  unfold config_at in Hc. rewrite Hc. cbn. by rewrite Hs.
Qed.

(** The getters of the addresses that a new address erases *)
Definition erased (t : setter) : list setter :=
  match t with
  | Set_unicast_address (Some _) => [Set_socket_name None; Set_multicast_address None]
  | Set_multicast_address (Some _) => [Set_socket_name None; Set_unicast_address None]
  | Set_socket_name (Some _) => [Set_unicast_address None; Set_multicast_address None]
  | _ => []
  end.

(** C24: roundtrip.  A setter that is accepted, with a value that it does not
    silently drop, is followed by its getter: the getter reads the value, without
    sign and made at least one or absolute where the setter does so.  After one
    of the three addresses of the daemon has been set the two others read
    NULL. *)
Theorem setter_reads_back t h o s s' :
  a_handles s !! h = Some o -> owned (a_configs s) ->
  is_Some (config_at (a_configs s) (h_config o)) ->
  valid_setter t -> setter_allowed t (h_state o) = true -> dropped t = false ->
  run_setter t h s = (inr FLOM_RC_OK, s') ->
  read_setting t h s' = (inr (stored t), s') /\
  (forall t', t' ∈ erased t -> read_setting t' h s' = (inr (Text None), s')).
Proof.
  intros Ho Hw Hr Hv Ha Hd Hrun.
  destruct (setter_settles t h o s s' Hv Ha Hd Ho Hw Hr Hrun) as (Ho' & Hw' & Hr' & Hp).
  assert (Htext : forall f x, has_text (h_config o) f x (a_configs s') ->
    text_of (read_config (get_str f)) h s' = (inr (Text x), s')).
  { intros f x <-. by apply read_text. }
  split.
  - destruct t; cbn [settled stored read_setting] in *;
      try (apply (read_number _ h o s'); [done | exact Hp]); apply Htext; by destruct Hp.
  - intros t'. destruct t; cbn [erased]; try (by intros ?%elem_of_nil);
      destruct value0; try (by intros ?%elem_of_nil); destruct Hp as [_ Hp];
      destruct Hp as [H1 H2]; try done; rewrite !elem_of_cons, elem_of_nil;
      intros [->|[->|[]]]; by apply Htext.
Qed.

(** ** What [flom_config_check] accepts, and what it makes of it *)
Definition has (s : configs) (r : config_ref) (f : string_member) : bool := given (content s r f).
Definition num (s : configs) (r : config_ref) (f : int_member) : Z := default 0 (number s r f).

(** A local and a network address at once, or the check of the peer without the
    three files it needs *)
Definition contradictory (s : configs) (r : config_ref) : bool :=
  has s r socket_name && (has s r unicast_address || has s r multicast_address).
Definition peer_unchecked (s : configs) (r : config_ref) : bool :=
  negb (num s r tls_check_peer_id =? 0) &&
  negb (has s r tls_certificate && has s r tls_private_key && has s r tls_ca_certificate).

(** The configuration that a check leaves *)
Definition socket_after (s : configs) (r : config_ref) : option string :=
  if has s r socket_name || has s r unicast_address || has s r multicast_address
  then content s r socket_name else Some default_socket_name.
Definition mode_after (frt : flom_rsrc_type) (mode : Z) : Z :=
  match frt with
  | FLOM_RSRC_TYPE_SIMPLE | FLOM_RSRC_TYPE_HIER => mode
  | _ => FLOM_LOCK_MODE_EX
  end.
Definition quantity_after (frt : flom_rsrc_type) (quantity : Z) : Z :=
  match frt with FLOM_RSRC_TYPE_NUMERIC => quantity | _ => 1 end.

Record checked (r : config_ref) (frt : flom_rsrc_type) (s s' : configs) : Prop := Checked {
  ck_socket : content s' r socket_name = socket_after s r;
  ck_mode : num s' r config_lock_mode = mode_after frt (num s r config_lock_mode);
  ck_quantity : num s' r resource_quantity = quantity_after frt (num s r resource_quantity);
  ck_texts : forall f, f <> socket_name -> content s' r f = content s r f;
  ck_numbers : forall f, f <> config_lock_mode -> f <> resource_quantity -> num s' r f = num s r f
}.

Lemma wp_get_int f r (Q : err + Z -> configs -> Prop) s :
  is_Some (config_at s r) -> Q (inr (num s r f)) s -> wp (get_int f r) Q s.
Proof.
  intros [c Hc] HQ. unfold get_int. wp_step. eapply wp_the_config; [done|]. wp_step.
  unfold num, number in HQ. by rewrite Hc in HQ.
Qed.

Lemma num_renumbered r f v s s' g :
  renumbered r f v s s' -> num s' r g = if decide (g = f) then v else num s r g.
Proof.
  intros Hn. unfold num. rewrite (rn_number _ _ _ _ _ Hn).
  destruct (decide (g = f)) as [->|Hg]; [by rewrite decide_True | by rewrite decide_False by tauto].
Qed.

Lemma wp_default_socket r b (Q : err + unit -> configs -> Prop) s :
  owned s -> is_Some (config_at s r) ->
  (forall s', owned s' -> is_Some (config_at s' r) ->
     content s' r socket_name = (if (b : bool) then Some default_socket_name else content s r socket_name) ->
     (forall f, f <> socket_name -> content s' r f = content s r f) ->
     (forall f, num s' r f = num s r f) -> Q (inr tt) s') ->
  wp (when b (c ← the_config r; p ← g_strdup (Some default_socket_name);
              modify (put_flom_config r (set_str socket_name p c)))) Q s.
Proof.
  intros Ho Hr HQ. destruct b; cbn [when]; [|wp_step; by apply HQ].
  destruct Hr as [c Hc]. wp_step. eapply wp_the_config; [done|]. eapply wp_assign; [done..|].
  intros s' Ho' Hv Hf. apply HQ.
  - eapply owned_weaken; [|exact Ho']. by intros r' f' [[] _].
  - eapply frame_object; eauto.
  - done.
  - intros f Hne. apply (fr_content _ _ _ Hf). by intros [_ ?].
  - intros f. unfold num. by rewrite (fr_number _ _ _ Hf).
Qed.

Lemma wp_force_int r b f v (Q : err + unit -> configs -> Prop) s :
  owned s -> is_Some (config_at s r) ->
  (forall s', owned s' -> is_Some (config_at s' r) -> (forall g, content s' r g = content s r g) ->
     (forall g, num s' r g = if decide (g = f) then (if (b : bool) then v else num s r f) else num s r g) ->
     Q (inr tt) s') ->
  wp (when b (put_int f r v)) Q s.
Proof.
  intros Ho Hr HQ. destruct b; cbn [when].
  - eapply wp_put_int; [done..|]. intros s' Ho' Hn. apply HQ; [done|by eapply renumbered_object|..].
    + intros g. apply (rn_content _ _ _ _ _ Hn).
    + intros g. by rewrite (num_renumbered _ _ _ _ _ _ Hn).
  - wp_step. apply HQ; [done..|]. intros g. by case_decide; [subst|].
Qed.

(** C25: functional.  A configuration is refused exactly when it names a local
    and a network address, or asks to check the identity of the peer without the
    three TLS files; otherwise it is left with an address (the default local one
    when it had none), with the exclusive lock mode for the resources that have
    no other one and with quantity one for those that are not numeric, and
    everything else as it was. *)
Theorem config_check_correct r name s :
  owned s -> is_Some (config_at s r) -> content s r resource_name = Some name ->
  let refused := contradictory s r || peer_unchecked s r in
  (flom_config_check r s).1 = inr (if refused then FLOM_RC_INVALID_OPTION else FLOM_RC_OK) /\
  (contradictory s r = false -> checked r (flom_rsrc_get_type name) s (flom_config_check r s).2) /\
  (contradictory s r = true -> (flom_config_check r s).2 = s).
Proof.
  intros Ho Hr Hname refused.
  change (wp (flom_config_check r) (fun x s' => x = inr (if refused then FLOM_RC_INVALID_OPTION else FLOM_RC_OK) /\
    (contradictory s r = false -> checked r (flom_rsrc_get_type name) s s') /\
    (contradictory s r = true -> s' = s)) s).
  unfold flom_config_check. do 3 (wp_step; apply wp_get_str; [done..|]).
  fold (has s r socket_name) (has s r unicast_address) (has s r multicast_address).
  fold (contradictory s r). destruct (contradictory s r) eqn:Ec.
  { unfold refused. cbn [orb]. wp_step. split_and!; done. }
  wp_step. apply wp_default_socket; [done..|]. intros s1 Ho1 Hr1 Hs1 Ht1 Hn1.
  wp_step. apply wp_get_str; [done..|]. rewrite Ht1, Hname by done. wp_step. apply wp_ret.
  set (frt := flom_rsrc_get_type name). wp_step. apply wp_get_int; [done|]. wp_step.
  apply wp_force_int; [done..|]. intros s2 Ho2 Hr2 Ht2 Hn2. wp_step. apply wp_get_int; [done|]. wp_step.
  change (flom_config_set_resource_quantity r 1) with (put_int resource_quantity r 1).
  apply wp_force_int; [done..|].
  intros s3 Ho3 Hr3 Ht3 Hn3. wp_step. apply wp_get_int; [done|].
  do 3 (wp_step; apply wp_get_str; [done..|]).
  rewrite !Ht3, !Ht2, !Ht1 by done. fold (has s r tls_certificate) (has s r tls_private_key) (has s r tls_ca_certificate).
  rewrite Hn3, decide_False, Hn2, decide_False, Hn1 by done.
  fold (peer_unchecked s r).
  assert (Hck : checked r frt s s3).
  { split.
    - rewrite Ht3, Ht2, Hs1. unfold socket_after. by destruct (_ || _ || _).
    - rewrite Hn3, decide_False, Hn2, decide_True, Hn1 by done. unfold mode_after.
      destruct (Z.eqb_spec (num s r config_lock_mode) FLOM_LOCK_MODE_EX) as [E|], frt; cbn; done.
    - rewrite Hn3, decide_True, Hn2, decide_False, Hn1 by done. unfold quantity_after.
      destruct (Z.eqb_spec (num s r resource_quantity) 1) as [E|], frt; cbn; done.
    - intros f Hf. by rewrite Ht3, Ht2, Ht1.
    - intros f Hm Hq. by rewrite Hn3, decide_False, Hn2, decide_False, Hn1. }
  unfold refused. cbn [orb]. destruct (peer_unchecked s r); wp_step; by split_and!.
Qed.
End settings.
