(* ===== verification/Session.v ===== *)
(** * Session: an application and the daemon it talks to

    What an application observes of its handles, call after call: the sequences
    of calls that are refused, what a lock answers, and what goes wrong. *)
From Stdlib Require Import ZArith String List Lia.
From stdpp Require Import base list gmap numbers strings.
From S2P Require Import Prelude Types CStr RsrcName Msg MsgXml MsgRound Vfs World Trace Config.
From S2P Require Import ConfigFile ConnLock Conns Locker Connect Client Handle.
Local Open Scope string_scope.
Local Open Scope Z_scope.

(** ** Concrete applications *)
Definition demo_system : System := {|
  realpath := Some; getifaddrs := Some []; login_name := Some "ann";
  directory := fun _ => Some true; key_files := fun _ => None;
  sysconfdir := "/etc"; home_dir := "/home/ann" |}.

Definition demo_client (sockets : list Z) (replies : list recv_result) : client :=
  Client (Net (flom_conns_init AF_UNIX)
            (World ∅ (RamTree false None 0 [] []) [] [] [] [] (Some demo_mid)) [])
    (Configs ∅ 1 zero_config ∅) flom_msg_init [] []
    (map Some sockets) (map (fun _ => Connected None) sockets) [] [] replies [] [] [] [].
Definition demo_app (sockets : list Z) (replies : list recv_result) : app :=
  App (demo_client sockets replies) ∅ false (no_trace None).

(** The answers of a daemon, as the parser gives them *)
Definition demo_answer (step rc : Z) : recv_result :=
  RecvData (document_events (message_document (Header FLOM_MSG_LEVEL FLOM_MSG_VERB_LOCK step)
    ((if step =? 16 then [Child FLOM_MSG_TAG_SESSION [(FLOM_MSG_PROP_PEERID, demo_mid)] false] else [])
     ++ [Child FLOM_MSG_TAG_ANSWER [MsgRound.number FLOM_MSG_PROP_RC rc] false])%list)) true.

Definition demo_lock := @flom_handle_lock demo_glib demo_system.
Definition demo_unlock := @flom_handle_unlock demo_glib demo_system.
Definition demo_new := @flom_handle_new demo_system.
Definition demo_delete := @flom_handle_delete demo_glib demo_system.
Definition demo_clean := @flom_handle_clean demo_glib demo_system.

(** A new handle for the resource [name] *)
Definition demo_open (name : string) : Am (option handle_ref) :=
  h ← demo_new;
  match h with
  | None => mret None
  | Some h' => _ ← flom_handle_set_resource_name h' (Some name); mret h
  end.

Definition state_of (s : app) (h : handle_ref) : option Z := h_state <$> a_handles s !! h.

(** A lock and its release: what is sent, and what is closed *)
Example demo_session :
  let '(r, s) := (h ← demo_open "foo"; _ ← demo_lock h; demo_unlock h)
                   (demo_app [7] [demo_answer 16 FLOM_RC_OK]) in
  r = inr tt /\ state_of s 2%positive = Some FLOM_HANDLE_STATE_DISCONNECTED /\
  k_open (a_client s) = [] /\
  length (w_sent (n_world (k_net (a_client s)))) = 2%nat.
Proof. vm_compute. split_and!; reflexivity. Qed.

(** error.  A handle that is used for a second lock never closes its second
    connection: both releases succeed, but the socket stays open, also when the
    handle is deleted. *)
Theorem second_release_leaks_socket :
  let '(r, s) := (h ← demo_open "foo"; _ ← demo_lock h; _ ← demo_unlock h;
                  _ ← demo_lock h; _ ← demo_unlock h; demo_delete h)
                   (demo_app [7; 8] [demo_answer 16 FLOM_RC_OK; demo_answer 16 FLOM_RC_OK]) in
  r = inr tt /\ a_handles s = ∅ /\ k_open (a_client s) = [8].
Proof. vm_compute. split_and!; reflexivity. Qed.

(** error.  A lock that is refused after a wait is reported as acquired: the
    client is told to wait for the resource to be created, then that its
    request can never be satisfied, and [flom_handle_lock] returns success with
    the handle in the state of a lock. *)
Theorem late_refusal_taken_for_lock :
  let '(r, s) := (h ← demo_open "foo[2]"; demo_lock h)
                   (demo_app [7] [demo_answer 16 FLOM_RC_LOCK_WAIT_RESOURCE;
                                  demo_answer 24 FLOM_RC_LOCK_IMPOSSIBLE]) in
  r = inr tt /\ state_of s 2%positive = Some FLOM_HANDLE_STATE_LOCKED.
Proof. vm_compute. split_and!; reflexivity. Qed.

(** The system's configuration names a certificate. *)
Definition tls_file : key_file := {|
  key_file_get_string := fun group key =>
    if String.eqb key "TlsCertificate" then Some "/etc/flom/cert.pem" else None;
  key_file_get_integer := fun _ _ => KeyNotFound;
  key_file_get_string_list := fun _ _ => None |}.
Definition tls_system : System := {|
  realpath := Some; getifaddrs := Some []; login_name := Some "ann";
  directory := fun _ => Some true;
  key_files := fun name => if String.eqb name "/etc/flom.conf" then Some tls_file else None;
  sysconfdir := "/etc"; home_dir := "/home/ann" |}.

(** error.  A handle's configuration shares the names of the TLS files with
    the global one, and its end frees them: with one handle deleted, the next
    one deleted frees the same memory again. *)
Theorem second_delete_frees_twice :
  let delete_one := h ← @flom_handle_new tls_system; @flom_handle_delete demo_glib tls_system h in
  (delete_one (demo_app [] [])).1 = inr tt /\
  ((_ ← delete_one; delete_one) (demo_app [] [])).1 = inl Ub.
Proof. vm_compute. split; reflexivity. Qed.

(** error.  A refused lock leaves the handle connected; deleting it then
    leaves its configuration, its connection and its socket behind. *)
Theorem delete_connected_leaks :
  let '(r, s) := (h ← demo_open "foo"; _ ← attempt (demo_lock h); demo_delete h)
                   (demo_app [7] [demo_answer 16 FLOM_RC_LOCK_BUSY]) in
  r = inr tt /\ a_handles s = ∅ /\ k_open (a_client s) = [7] /\
  w_conns (n_world (k_net (a_client s))) <> ∅ /\ g_configs (k_configs (a_client s)) <> ∅.
Proof. vm_compute. split_and!; try reflexivity; discriminate. Qed.

(** error.  The file of the trace set to NULL closes the trace of the process,
    and [stderr] with it when nothing else was open; setting it again, for
    whatever handle, closes a null stream. *)
Definition demo_set_trace (names : list (option string)) : Am unit :=
  h ← demo_new;
  match h with
  | None => mret tt
  | Some h' => fold_left (fun m name => _ ← m; _ ← flom_handle_set_trace_filename h' name; mret tt)
                 names (mret tt)
  end.
Theorem closed_trace_crashes :
  (demo_set_trace [Some "/tmp/a"; Some "/tmp/b"; None] (demo_app [] [])).1 = inr tt /\
  elements (t_open (a_trace (demo_set_trace [None] (demo_app [] [])).2)) = [] /\
  (demo_set_trace [None; None] (demo_app [] [])).1 = inl Ub /\
  (demo_set_trace [None; Some "/tmp/a"] (demo_app [] [])).1 = inl Ub.
Proof. vm_compute. split_and!; reflexivity. Qed.

(** An application that looks for a daemon by multicast *)
Definition demo_discovery (sockets : list (option Z)) (answer : datagram) : app :=
  App (put_sockets sockets (put_addrs [Some [Addr Inet [true]]] (put_answers [answer] (demo_client [] []))))
    ∅ false (no_trace None).
Definition demo_discover : Am unit :=
  h ← demo_new;
  match h with
  | None => mret tt
  | Some h' => _ ← flom_handle_set_multicast_address h' (Some "224.0.0.1"); demo_lock h
  end.
Definition discover_reply (step : Z) (l : list child) : datagram :=
  Answered (document_events (message_document
    (Header FLOM_MSG_LEVEL FLOM_MSG_VERB_DISCOVER step) l)) true 0.

(** error.  The answer to a discovery is not checked: any well-formed
    datagram without an address, a ping for instance or the question itself
    repeated, makes the client read through a null pointer.  The same happens
    without any answer when no socket can be created for the last address. *)
Theorem discovery_answer_crashes :
  (demo_discover (demo_discovery [Some 9] (discover_reply 16 []))).1 = inl Ub /\
  (demo_discover (demo_discovery [Some 9] (discover_reply 8 []))).1 = inl Ub /\
  (demo_discover (demo_discovery [None] NoAnswer)).1 = inl Ub /\
  (demo_discover (demo_discovery [Some 9] NoAnswer)).1 = inl (Rc FLOM_RC_CONNECT_ERROR).
Proof. vm_compute. split_and!; reflexivity. Qed.

(** error.  A name that is too long for a local socket is refused after the
    other addresses have been erased: nothing is left to connect to. *)
Example refused_socket_name_erases_addresses :
  let long := String.concat "" (repeat "a" 108) in
  let '(r, s) := (h ← demo_new;
                  match h with
                  | None => mret (0, [])
                  | Some h' =>
                      _ ← flom_handle_set_unicast_address h' (Some "10.0.0.1");
                      rc ← flom_handle_set_socket_name h' (Some long);
                      u ← flom_handle_get_unicast_address h';
                      n ← flom_handle_get_socket_name h';
                      mret (rc, [u; n])
                  end) (demo_app [] []) in
  r = inr (FLOM_RC_BUFFER_OVERFLOW, [None; None]).
Proof. vm_compute. reflexivity. Qed.

(** error.  A configuration file that has no group of a number is refused as
    a whole: GLib reports a missing group otherwise than a missing key. *)
Definition trace_only : key_file := {|
  key_file_get_string := fun group key =>
    if String.eqb group "Trace" && String.eqb key "Verbose" then Some "no" else None;
  key_file_get_integer := fun group _ => if String.eqb group "Trace" then KeyNotFound else KeyError;
  key_file_get_string_list := fun _ _ => None |}.
Example missing_group_refused :
  (@load_file trace_only None demo_system (k_configs (demo_client [] []))).1 =
  inl (Rc FLOM_RC_INVALID_OPTION).
Proof. vm_compute. reflexivity. Qed.
