(* ===== verification/Api.v ===== *)
(** * Api: the calls of the programming interface, in any order

    The invariant that every call of [Handle] preserves, whatever the daemon
    and the system answer: the handles of an application own their connections
    and their configurations, and nobody else does. *)
From Stdlib Require Import ZArith String List Lia.
From stdpp Require Import base list gmap numbers strings.
From S2P Require Import Prelude Types CStr RsrcName Msg MsgXml Vfs World Trace Config.
From S2P Require Import ConfigFile ConnLock Conns Locker Connect Client Handle Settings Session.
Local Open Scope Z_scope.

(** ** The invariant *)
Definition a_conns (s : app) : gmap conn_ref flom_conn := conns_of (a_client s).

(** A handle in one of its four states of use, or one that holds nothing *)
Definition in_use (state : Z) : Prop := 22 <= state <= 25.
Definition handle_ok (s : app) (o : flom_handle) : Prop :=
  (in_use (h_state o) /\ exists c p, h_conn o = Some c /\ h_config o = Some p /\
     is_Some (a_conns s !! c) /\ is_Some (config_at (a_configs s) (Some p))) \/
  (~ in_use (h_state o) /\ h_conn o = None /\ h_config o = None).

(** The invariant for the handles of [P] *)
Record app_ok_on (P : handle_ref -> Prop) (s : app) : Prop := App_ok {
  ok_flag : flom_init_flag s = true;
  ok_init : flom_trace_initialized (a_trace s) = true;
  ok_trace : trace_sound (a_trace s);
  ok_owned : owned (a_configs s);
  ok_no_tls : config_has_no_tls (a_configs s);
  ok_handle : forall h o, P h -> a_handles s !! h = Some o -> handle_ok s o;
  ok_configs : forall h o h' o' p, P h -> P h' -> a_handles s !! h = Some o ->
    a_handles s !! h' = Some o' -> h_config o = Some p -> h_config o' = Some p -> h' = h;
  ok_conns : forall h o h' o' c, P h -> P h' -> a_handles s !! h = Some o ->
    a_handles s !! h' = Some o' -> h_conn o = Some c -> h_conn o' = Some c -> h' = h
}.
Definition app_ok : app -> Prop := app_ok_on (fun _ => True).
Definition others (h : handle_ref) : handle_ref -> Prop := fun h' => h' <> h.

Lemma app_ok_weaken (P P' : handle_ref -> Prop) s :
  (forall h, P' h -> P h) -> app_ok_on P s -> app_ok_on P' s.
Proof. intros HP [F O T H C N]. split; eauto. Qed.

(** ** One step of a call *)
Section steps.
Context `{Glib, System}.

Lemma wp_init_check (Q : err + unit -> app -> Prop) s :
  flom_init_flag s = true -> Q (inr tt) s -> wp flom_init_check Q s.
Proof. intros Hf HQ. unfold flom_init_check. do 2 wp_step. rewrite Hf. by apply wp_ret. Qed.

Lemma wp_on_client {A} (m : Km A) (Q : err + A -> app -> Prop) s :
  wp m (fun x k => Q x (put_client k s)) (a_client s) -> wp (on_client m) Q s.
Proof. intros Hm. unfold on_client. by wp_step. Qed.

Lemma wp_the_handle h o (Q : err + flom_handle -> app -> Prop) s :
  a_handles s !! h = Some o -> Q (inr o) s -> wp (the_handle h) Q s.
Proof. intros Ho HQ. unfold the_handle. do 2 wp_step. rewrite Ho. by apply wp_ret. Qed.

Lemma wp_upd_handle h f o (Q : err + unit -> app -> Prop) s :
  a_handles s !! h = Some o -> Q (inr tt) (put_handles (<[h := f o]> (a_handles s)) s) ->
  wp (upd_handle h f) Q s.
Proof. intros Ho HQ. unfold upd_handle. wp_step. eapply wp_the_handle; [done|]. by wp_step. Qed.

(** What a call of a client does to the configuration [p] *)
Lemma app_ok_docile P s p k :
  app_ok_on P s -> docile_after (Some p) (a_client s) k -> app_ok_on P (put_client k s).
Proof.
  intros [F Zi Zt O T Hh C N] [Ho Ha Hc]. split; [done | done | done | done | | |exact C | exact N].
  - intros f Hf. assert (Hp := as_pointer _ _ _ Ha None f ltac:(done)).
    unfold pointer in Hp. cbn in Hp. injection Hp as Hp. unfold a_configs. cbn. rewrite Hp.
    by apply T.
  - intros h o HP Hho. destruct (Hh h o HP Hho) as [(Hu & c & q & E1 & E2 & E3 & E4) | ?]; [left|by right].
    split; [done|]. exists c, q. split_and!; [done | done | by apply Hc|].
    by eapply aside_config_at.
Qed.

(** *** One handle apart *)

(** What [h] holds exists, and no other handle holds it. *)
Record exclusive (h : handle_ref) (o : flom_handle) (s : app) : Prop := Exclusive {
  ex_conn : forall c, h_conn o = Some c -> is_Some (a_conns s !! c) /\
    forall h' o', h' <> h -> a_handles s !! h' = Some o' -> h_conn o' <> Some c;
  ex_config : forall p, h_config o = Some p -> is_Some (config_at (a_configs s) (Some p)) /\
    forall h' o', h' <> h -> a_handles s !! h' = Some o' -> h_config o' <> Some p
}.

(** All or nothing *)
Definition holds (o : flom_handle) : Prop :=
  (in_use (h_state o) /\ is_Some (h_conn o) /\ is_Some (h_config o)) \/
  (~ in_use (h_state o) /\ h_conn o = None /\ h_config o = None).

Lemma app_ok_open h o s :
  app_ok s -> a_handles s !! h = Some o -> app_ok_on (others h) s /\ exclusive h o s /\ holds o.
Proof.
  intros Hs Ho. split; [by apply (app_ok_weaken (fun _ => True))|]. destruct Hs as [F Zi Zt O T Hh C N].
  destruct (Hh h o I Ho) as [(Hu & c & p & E1 & E2 & E3 & E4) | (Hu & E1 & E2)].
  - split; [split|left; rewrite E1, E2; split_and!; eauto].
    + intros c'. rewrite E1. intros [= <-]. split; [done|]. intros h' o' Hne Ho' E.
      by apply Hne, (N h o h' o' c).
    + intros p'. rewrite E2. intros [= <-]. split; [done|]. intros h' o' Hne Ho' E.
      by apply Hne, (C h o h' o' p).
  - split; [split; intros ?; congruence | by right].
Qed.

Lemma app_ok_close h o s :
  app_ok_on (others h) s -> a_handles s !! h = Some o -> exclusive h o s -> holds o -> app_ok s.
Proof.
  intros [F Zi Zt O T Hh C N] Ho [Xn Xc] Hold.
  split; [done..| | |].
  - intros h' o' _ Ho'. destruct (decide (h' = h)) as [->|Hne]; [|by apply (Hh h')].
    rewrite Ho in Ho'. injection Ho' as <-.
    destruct Hold as [(Hu & [c Ec] & [p Ep]) | ?]; [left|by right].
    split; [done|]. exists c, p. split_and!; [done..|by apply Xn|by apply Xc].
  - intros h1 o1 h2 o2 p _ _ Ho1 Ho2 E1 E2. destruct (decide (h1 = h)) as [->|H1], (decide (h2 = h)) as [->|H2];
      [done| | |by apply (C h1 o1 h2 o2 p)].
    + rewrite Ho in Ho1. injection Ho1 as <-. by destruct (proj2 (Xc p E1) h2 o2 H2 Ho2).
    + rewrite Ho in Ho2. injection Ho2 as <-. by destruct (proj2 (Xc p E2) h1 o1 H1 Ho1).
  - intros h1 o1 h2 o2 c _ _ Ho1 Ho2 E1 E2. destruct (decide (h1 = h)) as [->|H1], (decide (h2 = h)) as [->|H2];
      [done| | |by apply (N h1 o1 h2 o2 c)].
    + rewrite Ho in Ho1. injection Ho1 as <-. by destruct (proj2 (Xn c E1) h2 o2 H2 Ho2).
    + rewrite Ho in Ho2. injection Ho2 as <-. by destruct (proj2 (Xn c E2) h1 o1 H1 Ho1).
Qed.

(** Storing in the handle that is apart *)
Lemma others_put h o s :
  app_ok_on (others h) s -> app_ok_on (others h) (put_handles (<[h := o]> (a_handles s)) s).
Proof.
  intros [F Zi Zt O T Hh C N].
  assert (Hold : forall h' o', others h h' -> <[h := o]> (a_handles s) !! h' = Some o' ->
    a_handles s !! h' = Some o').
  { intros h' o' Hne. by rewrite lookup_insert_ne. }
  split; cbn; eauto.
Qed.

(** *** Objects that appear and disappear *)
Lemma fresh_address_fresh {A} (m : gmap positive A) : m !! fresh_address m = None.
Proof.
  assert (Hle : forall k, is_Some (m !! k) ->
    (k <= map_fold (fun k _ acc => Pos.max k acc) 1%positive m)%positive).
  { apply (map_fold_weak_ind (fun r m => forall k, is_Some (m !! k) -> (k <= r)%positive)).
    - intros k [x Hx]. by rewrite lookup_empty in Hx.
    - intros i x m' r Hi IH k [y Hy]. destruct (decide (k = i)) as [->|Hne]; [lia|].
      rewrite lookup_insert_ne in Hy by done. specialize (IH k (ex_intro _ _ Hy)). lia. }
  destruct (m !! fresh_address m) eqn:E; [|done].
  specialize (Hle _ (ex_intro _ _ E)). unfold fresh_address in Hle. lia.
Qed.

Lemma owned_zero p s : owned s -> owned (put_flom_config (Some p) zero_config s).
Proof.
  intros [HL HA HB].
  assert (Hold : forall r c f l, config_at (put_flom_config (Some p) zero_config s) r = Some c ->
    strs c f = Some l -> config_at s r = Some c).
  { intros r c f l. rewrite config_at_put. case_decide; [|done]. by intros [= <-]. }
  split; intros; rewrite ?heap_put, ?next_put; eauto 8.
Qed.

Definition without (p : positive) (s : configs) : configs :=
  Configs (g_heap s) (g_next s) (global_config s) (delete p (g_configs s)).

Lemma config_at_without p s r c : config_at (without p s) r = Some c -> config_at s r = Some c.
Proof.
  destruct r as [q|]; cbn; [|done]. destruct (decide (q = p)) as [->|Hne];
    [by rewrite lookup_delete_eq | by rewrite lookup_delete_ne].
Qed.

Lemma owned_without p s : owned s -> owned (without p s).
Proof. intros [HL HA HB]. split; intros; cbn; eauto 10 using config_at_without. Qed.

Lemma no_tls_aside r s s' :
  aside (Some r) s s' -> config_has_no_tls s -> config_has_no_tls s'.
Proof.
  intros Ha Ht f Hf. assert (Hp := as_pointer _ _ _ Ha None f ltac:(done)).
  unfold pointer in Hp. cbn in Hp. injection Hp as ->. by apply Ht.
Qed.

(** *** A handle while it is initialised or cleaned *)
Record apart (h : handle_ref) (o : flom_handle) (s : app) : Prop := Apart {
  ap_others : app_ok_on (others h) s;
  ap_handle : a_handles s !! h = Some o;
  ap_exclusive : exclusive h o s
}.

Lemma apart_put h o o' s :
  apart h o s -> exclusive h o' s -> apart h o' (put_handles (<[h := o']> (a_handles s)) s).
Proof.
  intros [Hs Ho _] [Xn Xc]. split; [by apply others_put | apply lookup_insert_eq|].
  split; cbn.
  - intros c Hc. destruct (Xn c Hc) as [? Hn]. split; [done|]. intros h' x Hne.
    rewrite lookup_insert_ne by done. eauto.
  - intros p Hp. destruct (Xc p Hp) as [? Hn]. split; [done|]. intros h' x Hne.
    rewrite lookup_insert_ne by done. eauto.
Qed.

(** The client changes, and what the handles of others hold stays. *)
Lemma apart_client h o s k :
  apart h o s -> owned (k_configs k) -> config_has_no_tls (k_configs k) ->
  (forall c, (exists h' o', a_handles s !! h' = Some o' /\ h_conn o' = Some c) ->
     is_Some (a_conns s !! c) -> is_Some (conns_of k !! c)) ->
  (forall p, (exists h' o', a_handles s !! h' = Some o' /\ h_config o' = Some p) ->
     is_Some (config_at (a_configs s) (Some p)) -> is_Some (config_at (k_configs k) (Some p))) ->
  apart h o (put_client k s).
Proof.
  intros [[F Zi Zt O T Hh C N] Ho [Xn Xc]] Ow Tl Hn Hc. split; [split; try done|done|].
  - intros h' o' Hne Ho'. destruct (Hh h' o' Hne Ho') as [(Hu & c & p & E1 & E2 & E3 & E4) | ?];
      [left|by right]. split; [done|]. exists c, p. split_and!; [done..| |]; eauto 6.
  - split; cbn.
    + intros c E. destruct (Xn c E). split; eauto 6.
    + intros p E. destruct (Xc p E). split; eauto 6.
Qed.

(** The client and the handle change: what the others hold stays, and what the
    handle holds now is nobody else's. *)
Lemma apart_change h o o' s k :
  apart h o s -> owned (k_configs k) -> config_has_no_tls (k_configs k) ->
  (forall c h' x, h' <> h -> a_handles s !! h' = Some x -> h_conn x = Some c ->
     is_Some (a_conns s !! c) -> h_conn o' <> Some c /\ is_Some (conns_of k !! c)) ->
  (forall p h' x, h' <> h -> a_handles s !! h' = Some x -> h_config x = Some p ->
     is_Some (config_at (a_configs s) (Some p)) ->
     h_config o' <> Some p /\ is_Some (config_at (k_configs k) (Some p))) ->
  (forall c, h_conn o' = Some c -> is_Some (conns_of k !! c)) ->
  (forall p, h_config o' = Some p -> is_Some (config_at (k_configs k) (Some p))) ->
  apart h o' (put_handles (<[h := o']> (a_handles s)) (put_client k s)).
Proof.
  intros [[F Zi Zt O T Hh C N] Ho _] Ow Tl Hn Hc Xn Xc.
  assert (Hold : forall h' x, others h h' -> <[h := o']> (a_handles s) !! h' = Some x ->
    a_handles s !! h' = Some x).
  { intros h' x Hne. by rewrite lookup_insert_ne. }
  split; [split; try done|apply lookup_insert_eq|]; cbn.
  - intros h' x Hne Hx%Hold; [|done].
    destruct (Hh h' x Hne Hx) as [(Hu & c & p & E1 & E2 & E3 & E4) | ?]; [left|by right].
    split; [done|]. exists c, p. split_and!; [done..| |].
    + by destruct (Hn c h' x Hne Hx E1 E3).
    + by destruct (Hc p h' x Hne Hx E2 E4).
  - eauto.
  - eauto.
  - split; cbn.
    + intros c E. split; [by apply Xn|]. intros h' x Hne Hx%Hold E'; [|done].
      destruct (Hh h' x Hne Hx) as [(Hu & c' & p & E1 & E2 & E3 & E4) | (_ & ? & _)]; [|congruence].
      rewrite E' in E1. injection E1 as <-. by destruct (Hn c h' x Hne Hx E' E3).
    + intros p E. split; [by apply Xc|]. intros h' x Hne Hx%Hold E'; [|done].
      destruct (Hh h' x Hne Hx) as [(Hu & c' & p' & E1 & E2 & E3 & E4) | (_ & _ & ?)]; [|congruence].
      rewrite E' in E2. injection E2 as <-. by destruct (Hc p h' x Hne Hx E' E4).
Qed.

(** The trace of the process changes. *)
Lemma apart_trace h o s t :
  apart h o s -> flom_trace_initialized t = true -> trace_sound t -> apart h o (with_trace t s).
Proof. by intros [[F _ _ O T Hh C N] Ho [Xn Xc]] Hi Ht. Qed.

Lemma apart_close h o s : apart h o s -> holds o -> app_ok s.
Proof. intros [Hs Ho Hx] Hold. by eapply app_ok_close. Qed.
Lemma apart_open h o s : app_ok s -> a_handles s !! h = Some o -> apart h o s /\ holds o.
Proof. intros Hs Ho. destruct (app_ok_open h o s) as (? & ? & ?); done. Qed.

Lemma exclusive_less h o o' s : exclusive h o s ->
  (h_conn o' = None \/ h_conn o' = h_conn o) -> (h_config o' = None \/ h_config o' = h_config o) ->
  exclusive h o' s.
Proof.
  intros [Xn Xc] Hn Hc. split.
  - intros c E. apply Xn. destruct Hn; congruence.
  - intros p E. apply Xc. destruct Hc; congruence.
Qed.

(** *** The objects of a new handle *)
Lemma g_try_malloc_conns w : w_conns (g_try_malloc w).2 = w_conns w.
Proof. unfold g_try_malloc. by destruct (w_mallocs w). Qed.

Lemma wp_on_aworld {A} (m : Wm A) (Q : err + A -> app -> Prop) s :
  (forall k, k_configs k = a_configs s -> conns_of k = w_conns (m (n_world (k_net (a_client s)))).2 ->
     Q (m (n_world (k_net (a_client s)))).1 (put_client k s)) ->
  wp (on_aworld m) Q s.
Proof.
  intros HQ. unfold on_aworld, on_client, on_kworld, on_knet, on_nworld, wp, zoom in *.
  destruct (m (n_world (k_net (a_client s)))) as [r w]. by apply HQ.
Qed.

Lemma wp_new_conn (Q : err + conn_ref -> app -> Prop) s :
  (forall k, k_configs k = a_configs s -> conns_of k = a_conns s ->
     Q (inl (Rc FLOM_RC_G_TRY_MALLOC_ERROR)) (put_client k s)) ->
  (forall k c, k_configs k = a_configs s -> a_conns s !! c = None ->
     conns_of k = <[c := zero_conn]> (a_conns s) -> Q (inr c) (put_client k s)) ->
  wp new_conn Q s.
Proof.
  intros Hf Hok. unfold new_conn. wp_step. apply wp_on_aworld. rewrite g_try_malloc_conns.
  intros k Hk Hc. assert (Hb : exists b, (g_try_malloc (n_world (k_net (a_client s)))).1 = inr b).
  { unfold g_try_malloc. destruct (w_mallocs _); eauto. }
  destruct Hb as [b ->]. wp_step. destruct b; cbn [negb when]; wp_step; [|by apply Hf].
  wp_step. apply wp_on_aworld. cbn. intros k1 Hk1 Hc1. wp_step.
  apply wp_on_aworld. cbn. intros k2 Hk2 Hc2. wp_step.
  change (Q (inr (fresh_address (conns_of k))) (put_client k2 s)). apply Hok.
  - etrans; [exact Hk2|]. etrans; [exact Hk1 | exact Hk].
  - rewrite Hc. apply fresh_address_fresh.
  - rewrite Hc2. change (w_conns (n_world (k_net k1))) with (conns_of k1). rewrite Hc1.
    change (w_conns (n_world (k_net k))) with (conns_of k). by rewrite Hc.
Qed.

Lemma wp_on_aconfigs_client {A} (m : Gm A) (Q : err + A -> app -> Prop) s :
  wp m (fun x g => Q x (put_client (put_configs g (a_client s)) s)) (a_configs s) ->
  wp (on_aconfigs m) Q s.
Proof. apply wp_on_aconfigs. Qed.

Lemma wp_new_config (Q : err + positive -> app -> Prop) s :
  (forall k, k_configs k = a_configs s -> conns_of k = a_conns s ->
     Q (inl (Rc FLOM_RC_G_TRY_MALLOC_ERROR)) (put_client k s)) ->
  (forall k p, config_at (a_configs s) (Some p) = None -> conns_of k = a_conns s ->
     k_configs k = put_flom_config (Some p) zero_config (a_configs s) -> Q (inr p) (put_client k s)) ->
  wp new_config Q s.
Proof.
  intros Hf Hok. unfold new_config. wp_step. apply wp_on_aworld. rewrite g_try_malloc_conns.
  intros k Hk Hc. assert (Hb : exists b, (g_try_malloc (n_world (k_net (a_client s)))).1 = inr b).
  { unfold g_try_malloc. destruct (w_mallocs _); eauto. }
  destruct Hb as [b ->]. wp_step. destruct b; cbn [negb when]; wp_step; [|by apply Hf].
  wp_step. apply wp_on_aconfigs_client. do 2 wp_step. apply wp_on_aconfigs_client. wp_step. wp_step.
  apply (Hok (put_configs (put_flom_config (Some (fresh_address (g_configs (k_configs k)))) zero_config
    (k_configs k)) (put_configs (k_configs k) k))).
  - change (g_configs (a_configs s) !! fresh_address (g_configs (k_configs k)) = None).
    rewrite Hk. apply fresh_address_fresh.
  - exact Hc.
  - change (put_flom_config (Some (fresh_address (g_configs (k_configs k)))) zero_config (k_configs k) =
      put_flom_config (Some (fresh_address (g_configs (k_configs k)))) zero_config (a_configs s)).
    by rewrite Hk.
Qed.

Lemma apart_no_tls h o s : apart h o s -> config_has_no_tls (a_configs s).
Proof. intros Ha. apply (ok_no_tls _ _ (ap_others _ _ _ Ha)). Qed.
Lemma apart_owned h o s : apart h o s -> owned (a_configs s).
Proof. intros Ha. apply (ok_owned _ _ (ap_others _ _ _ Ha)). Qed.

Lemma apart_aside h o s g p :
  apart h o s -> owned g -> aside (Some p) (a_configs s) g -> apart h o (with_configs g s).
Proof.
  intros Ha Ho Hg. apply apart_client; [done|..].
  - exact Ho.
  - eapply no_tls_aside; [exact Hg|]. by eapply apart_no_tls.
  - done.
  - intros q _ Hq. by apply (aside_config_at (Some p) (a_configs s)).
Qed.

(** The connection of a handle that had none *)
Lemma apart_new_conn h s k c :
  apart h zero_handle s -> k_configs k = a_configs s -> a_conns s !! c = None ->
  conns_of k = <[c := zero_conn]> (a_conns s) ->
  let o := set_hconn (Some c) zero_handle in
  apart h o (put_handles (<[h := o]> (a_handles s)) (put_client k s)).
Proof.
  intros Ha Hk Hc Hn o. apply (apart_change h zero_handle); [done|..]; rewrite ?Hk, ?Hn.
  - by eapply apart_owned.
  - by eapply apart_no_tls.
  - intros c' h' x _ _ _ [y Hy]. split; [intros [= ->]; congruence|].
    destruct (decide (c' = c)) as [->|]; [congruence|]. rewrite lookup_insert_ne; eauto.
  - done.
  - intros c' [= <-]. rewrite lookup_insert_eq. eauto.
  - done.
Qed.

(** The configuration of a handle that had none *)
Lemma apart_new_config h o s k p :
  apart h o s -> config_at (a_configs s) (Some p) = None -> conns_of k = a_conns s ->
  k_configs k = put_flom_config (Some p) zero_config (a_configs s) ->
  let o' := set_hconfig (Some p) o in
  apart h o' (put_handles (<[h := o']> (a_handles s)) (put_client k s)).
Proof.
  intros Ha Hp Hn Hk o'. apply (apart_change h o); [done|..]; rewrite ?Hk, ?Hn.
  - apply owned_zero. by eapply apart_owned.
  - by apply (apart_no_tls _ _ _ Ha).
  - intros c h' x Hne Hx E ?. split; [|done]. intros E'.
    by apply (proj2 (ex_conn _ _ _ (ap_exclusive _ _ _ Ha) c E') h' x).
  - intros q h' x _ _ _ [y Hy]. split; [intros [= ->]; congruence|].
    rewrite config_at_put. case_decide; eauto.
  - intros c E. by apply (ex_conn _ _ _ (ap_exclusive _ _ _ Ha)).
  - intros q [= <-]. rewrite config_at_put, decide_True by done. eauto.
Qed.

Lemma wp_init_steps h o s :
  apart h o s ->
  wp (init_steps h) (fun r s' => exists o', apart h o' s' /\
    match r with
    | inr _ => h_state o' = FLOM_HANDLE_STATE_INIT /\ is_Some (h_conn o') /\ is_Some (h_config o')
    | inl (Rc _) => h_state o' = 0 /\ h_config o' = None
    | inl _ => False
    end) s.
Proof.
  intros Ha. unfold init_steps. wp_step. eapply wp_upd_handle; [apply Ha|].
  assert (Ha1 : apart h zero_handle (put_handles (<[h := zero_handle]> (a_handles s)) s)).
  { eapply apart_put; [done|]. eapply exclusive_less; [apply Ha | by left | by left]. }
  set (s1 := put_handles _ s) in *. clearbody s1. clear Ha. wp_step. apply wp_new_conn.
  { intros k Hk Hc. exists zero_handle. split; [|done]. apply apart_client; [done|..];
      rewrite ?Hk, ?Hc; [by eapply apart_owned | by eapply apart_no_tls | done | done]. }
  intros k c Hk Hc Hn. wp_step. eapply wp_upd_handle; [apply Ha1|].
  assert (Ha2 := apart_new_conn h s1 k c Ha1 Hk Hc Hn). cbn zeta in Ha2.
  set (s2 := put_handles _ _) in *. clearbody s2. wp_step. apply wp_new_config.
  { intros k2 Hk2 Hc2. exists (set_hconn (Some c) zero_handle). split; [|done].
    apply apart_client; [done|..]; rewrite ?Hk2, ?Hc2;
      [by eapply apart_owned | by eapply apart_no_tls | done | done]. }
  intros k2 p Hp Hn2 Hk2. wp_step. eapply wp_upd_handle; [apply Ha2|].
  assert (Ha3 := apart_new_config h _ s2 k2 p Ha2 Hp Hn2 Hk2). cbn zeta in Ha3.
  set (o3 := set_hconfig _ _) in *. set (s3 := put_handles _ _) in *. clearbody s3.
  assert (Hp3 : is_Some (config_at (a_configs s3) (Some p)))
    by (by apply (ex_config _ _ _ (ap_exclusive _ _ _ Ha3))).
  wp_step. apply wp_on_aconfigs. apply wp_config_clone; [by eapply apart_owned | done | by eapply apart_no_tls|].
  intros g Hg _ _ Has. wp_step. wp_step; [done|]. wp_step. apply wp_on_aconfigs. eapply wp_mono.
  2: apply confined_put_int; [done | by apply Has].
  intros x g2 ([u ->] & Hg2 & Has2). eapply wp_upd_handle; [apply Ha3|].
  exists (set_hstate FLOM_HANDLE_STATE_INIT o3). split; [|done].
  assert (Ha5 : apart h o3 (with_configs g2 (with_configs g s3))).
  { eapply apart_aside; [by eapply apart_aside | done|]. exact Has2. }
  eapply apart_put; [exact Ha5|]. eapply exclusive_less; [apply Ha5 | by right | by right].
Qed.

(** ** The calls *)

(** A result that is not undefined behaviour *)
Definition orderly {A} (r : err + A) : Prop := r <> inl Ub /\ r <> inl NoFuel.

Lemma wp_delete_conn c (Q : err + unit -> app -> Prop) s :
  (forall k, k_configs k = a_configs s -> conns_of k = delete c (a_conns s) -> Q (inr tt) (put_client k s)) ->
  wp (delete_conn (Some c)) Q s.
Proof. intros HQ. cbn [delete_conn]. by apply wp_on_aworld. Qed.

Lemma wp_undo_init h o (Q : err + unit -> app -> Prop) s :
  apart h o s -> ~ in_use (h_state o) -> h_config o = None ->
  (forall s', app_ok s' -> is_Some (a_handles s' !! h) -> Q (inr tt) s') -> wp (undo_init h) Q s.
Proof.
  intros Ha Hu Hc HQ. unfold undo_init. wp_step. eapply wp_the_handle; [apply Ha|]. rewrite Hc.
  wp_step. wp_step. destruct (h_conn o) as [c|] eqn:Ec.
  - wp_step. apply wp_delete_conn. intros k Hk Hn. eapply wp_upd_handle; [apply Ha|].
    apply HQ; [|cbn; rewrite lookup_insert_eq; eauto].
    apply (apart_close h (set_hconn None o)); [|right; split_and!; [exact Hu | done | exact Hc]].
    apply (apart_change h o (set_hconn None o) s k); [done|..]; rewrite ?Hk, ?Hn.
    + by eapply apart_owned.
    + by eapply apart_no_tls.
    + intros c' h' x Hne Hx E Hs. split; [done|]. rewrite lookup_delete_ne; [done|]. intros ->.
      by apply (proj2 (ex_conn _ _ _ (ap_exclusive _ _ _ Ha) c' Ec) h' x).
    + cbn. rewrite Hc. by intros.
    + done.
    + cbn. rewrite Hc. done.
  - wp_step. apply HQ; [|rewrite (ap_handle _ _ _ Ha); eauto]. eapply apart_close; [done|]. by right.
Qed.

Lemma wp_handle_init h s :
  app_ok s -> is_Some (a_handles s !! h) ->
  wp (flom_handle_init h) (fun r s' => app_ok s' /\ is_Some (a_handles s' !! h) /\ orderly r) s.
Proof.
  intros Hs [o Ho]. destruct (apart_open h o s Hs Ho) as [Ha _].
  unfold flom_handle_init. wp_step. apply wp_init_check; [apply Hs|]. do 2 wp_step.
  eapply wp_mono; [|by eapply wp_init_steps]. intros [[rc| |]|u] s' (o' & Ha' & Hr); try done.
  - destruct Hr as [Hst Hcf]. wp_step. eapply wp_undo_init; [done| |done|].
    { rewrite Hst. unfold in_use. lia. }
    intros s2 Hs2 Hh. wp_step. by split_and!.
  - destruct Hr as (Hst & Hn & Hc). wp_step. split_and!; [|rewrite (ap_handle _ _ _ Ha'); eauto|done].
    eapply apart_close; [done|]. left. rewrite Hst. unfold in_use, FLOM_HANDLE_STATE_INIT. split_and!; [lia.. | done | done].
Qed.

(** Adding a handle that holds nothing, and removing one *)
Lemma app_ok_insert h o s :
  app_ok s -> holds o -> h_conn o = None -> h_config o = None ->
  app_ok (put_handles (<[h := o]> (a_handles s)) s).
Proof.
  intros Hs Hold E1 E2. eapply (app_ok_close h o).
  - apply others_put. by apply (app_ok_weaken (fun _ => True)).
  - apply lookup_insert_eq.
  - split; intros ?; congruence.
  - done.
Qed.

Lemma app_ok_delete h s : app_ok s -> app_ok (put_handles (delete h (a_handles s)) s).
Proof.
  intros [F Zi Zt O T Hh C N].
  assert (Hold : forall h' o', delete h (a_handles s) !! h' = Some o' -> a_handles s !! h' = Some o').
  { intros h' o' [_ E]%lookup_delete_Some. done. }
  split; cbn; eauto 8.
Qed.

Lemma wp_handle_new s :
  app_ok s -> wp flom_handle_new (fun r s' => app_ok s' /\ orderly r) s.
Proof.
  intros Hs. unfold flom_handle_new. do 2 wp_step. apply wp_init_check; [apply Hs|]. cbn. wp_step.
  apply wp_on_aworld. rewrite g_try_malloc_conns. intros k Hk Hn.
  assert (Hs1 : app_ok (put_client k s)).
  { destruct Hs as [F Zi Zt O T Hh C N]. split; unfold a_configs, a_conns in *; cbn; rewrite ?Hk; try done.
    intros h o HP Ho. specialize (Hh h o HP Ho). unfold handle_ok, a_conns, a_configs in *. cbn.
    by rewrite Hk, Hn. }
  assert (Hb : exists b, (g_try_malloc (n_world (k_net (a_client s)))).1 = inr b).
  { unfold g_try_malloc. destruct (w_mallocs _); eauto. }
  destruct Hb as [b ->]. destruct b; cbn [negb]; [|by wp_step].
  set (s1 := put_client k s) in *. clearbody s1. do 6 wp_step.
  eapply wp_mono; [|apply wp_handle_init; [|cbn; rewrite lookup_insert_eq; eauto]].
  - intros [[rc| |]|u] s2 (Hs2 & Hh & Hr & Hr'); try done.
    do 3 wp_step. split; [by apply app_ok_delete | done].
  - apply app_ok_insert; [done|right; split_and!; try done|done|done].
    unfold in_use. cbn. lia.
Qed.

(** The end of a handle: each string, the configuration and the connection are
    freed once. *)
Lemma wp_release h s :
  app_ok s -> is_Some (a_handles s !! h) ->
  wp (release h) (fun r s' => app_ok s' /\ orderly r) s.
Proof.
  intros Hs [o Ho]. destruct (apart_open h o s Hs Ho) as [Ha Hold].
  unfold release. wp_step. eapply wp_the_handle; [done|]. do 2 wp_step; [by wp_step|].
  destruct Hold as [(Hu & [c Ec] & [p Ep]) | (Hu & _)].
  2: { exfalso. apply Hu. revert H1. unfold in_use, FLOM_HANDLE_STATE_INIT, FLOM_HANDLE_STATE_DISCONNECTED.
       destruct (Z.eqb_spec (h_state o) 22), (Z.eqb_spec (h_state o) 25); cbn; try done; lia. }
  destruct (ex_config _ _ _ (ap_exclusive _ _ _ Ha) p Ep) as [Hp Halone].
  wp_step. apply wp_on_aconfigs. rewrite Ep.
  eapply wp_config_free; [by eapply apart_owned | done | by intros f []|].
  intros g Hg Hf _. assert (Has : aside (Some p) (a_configs s) g).
  { apply frame_aside. eapply frame_weaken; [|exact Hf]. by intros r f [[]|?]. }
  wp_step. apply wp_on_aconfigs. wp_step. wp_step. rewrite Ec. apply wp_delete_conn.
  intros k Hk Hn. eapply wp_upd_handle; [done|]. split; [|done].
  apply (apart_close h (Handle FLOM_HANDLE_STATE_CLEANED None None None)); [|right; split_and!; try done].
  2: { cbn. unfold in_use, FLOM_HANDLE_STATE_CLEANED. lia. }
  apply (apart_change h o _ s k); [done|..]; rewrite ?Hk, ?Hn; [| | | |done|done].
  - apply (owned_without p g Hg).
  - exact (no_tls_aside p _ _ Has (apart_no_tls _ _ _ Ha)).
  - intros c' h' x Hne Hx E Hs'. split; [done|]. change (is_Some (delete c (a_conns s) !! c')).
    rewrite lookup_delete_ne; [done|]. intros ->.
    by apply (proj2 (ex_conn _ _ _ (ap_exclusive _ _ _ Ha) c' Ec) h' x).
  - intros q h' x Hne Hx E Hq. split; [done|].
    change (is_Some (config_at (without p g) (Some q))). cbn.
    rewrite lookup_delete_ne.
    { change (is_Some (config_at g (Some q))). by apply (aside_config_at (Some p) (a_configs s)). } intros ->.
    by apply (Halone h' x).
Qed.

(** Steps of a call on a handle in use, which stays in use with what it holds *)
Definition steady (h : handle_ref) (c : conn_ref) (p : positive) {A} (m : Am A) : Prop :=
  forall s, app_ok s ->
    (exists o, a_handles s !! h = Some o /\ in_use (h_state o) /\ h_conn o = Some c /\ h_config o = Some p) ->
    wp m (fun _ s' => app_ok s' /\ exists o, a_handles s' !! h = Some o /\ in_use (h_state o) /\
      h_conn o = Some c /\ h_config o = Some p) s.

Lemma steady_ret h c p {A} (a : A) : steady h c p (mret a).
Proof. by intros s Hs Ho. Qed.
Lemma steady_throw h c p {A} (e : err) : steady h c p (throw (A := A) e).
Proof. by intros s Hs Ho. Qed.
Lemma steady_of_option h c p {A} (e : err) (o : option A) : steady h c p (of_option e o).
Proof. destruct o; [apply steady_ret | apply steady_throw]. Qed.
Lemma steady_bind h c p {A B} (m : Am A) (k : A -> Am B) :
  steady h c p m -> (forall a, steady h c p (k a)) -> steady h c p (m ≫= k).
Proof.
  intros Hm Hk s Hs Ho. wp_step. eapply wp_mono; [|by apply Hm].
  intros [e|a] s1 [Hs1 Ho1]; [done|]. by apply Hk.
Qed.
Lemma steady_when h c p (b : bool) (m : Am unit) : steady h c p m -> steady h c p (when b m).
Proof. intros Hm. destruct b; [done | apply steady_ret]. Qed.

Lemma steady_on_client h c p {A} (m : Km A) : docile (Some p) m -> steady h c p (on_client m).
Proof.
  intros Hm s Hs (o & Ho & Hu & Ec & Ep). destruct (apart_open h o s Hs Ho) as [Ha _].
  apply wp_on_client. eapply wp_mono.
  2: { apply Hm; [by eapply apart_owned|]. by apply (ex_config _ _ _ (ap_exclusive _ _ _ Ha)). }
  intros x k Hk. split; [exact (app_ok_docile _ s p k Hs Hk)|]. eauto 10.
Qed.
Lemma steady_on_aconfigs h c p {A} (m : Gm A) : keeps_owned (Some p) m -> steady h c p (on_aconfigs m).
Proof. intros Hm. by apply steady_on_client, docile_on_configs. Qed.

Lemma steady_upd h c p f :
  (forall o, h_conn (f o) = h_conn o) -> (forall o, h_config (f o) = h_config o) ->
  (forall o, in_use (h_state o) -> in_use (h_state (f o))) -> steady h c p (upd_handle h f).
Proof.
  intros Hn Hc Hu s Hs (o & Ho & Hin & Ec & Ep). eapply wp_upd_handle; [done|]. split.
  - destruct (apart_open h o s Hs Ho) as [Ha Hold]. apply (apart_close h (f o)).
    + eapply apart_put; [done|]. eapply exclusive_less; [apply Ha | right; apply Hn | right; apply Hc].
    + left. rewrite Hn, Hc, Ec, Ep. eauto.
  - exists (f o). cbn. rewrite lookup_insert_eq, Hn, Hc. eauto.
Qed.
Lemma steady_set_state h c p x : in_use x -> steady h c p (upd_handle h (set_hstate x)).
Proof. intros Hx. by apply steady_upd. Qed.
Lemma steady_set_element h c p x : steady h c p (upd_handle h (set_element x)).
Proof. by apply steady_upd. Qed.

Create HintDb steady.
Hint Resolve steady_ret steady_throw steady_of_option steady_when steady_set_element : steady.
Hint Extern 1 (steady _ _ _ (upd_handle _ (set_hstate _))) =>
  apply steady_set_state; unfold in_use; vm_compute; split; discriminate : steady.
Hint Extern 2 (steady _ _ _ (on_client _)) => apply steady_on_client; solve [auto with docile] : steady.
Hint Extern 2 (steady _ _ _ (on_aconfigs _)) => apply steady_on_aconfigs; solve [solve_keeps_config] : steady.

Ltac solve_steady :=
  repeat first
    [ progress intros
    | solve [auto with steady]
    | apply steady_bind
    | apply steady_when
    | match goal with
      | |- steady _ _ _ (if ?b then _ else _) => destruct b
      end ].

Lemma wp_steady h o {A} (m : Am A) s :
  app_ok s -> a_handles s !! h = Some o -> in_use (h_state o) ->
  (forall c p, h_conn o = Some c -> h_config o = Some p -> steady h c p m) ->
  wp m (fun _ s' => app_ok s' /\ is_Some (a_handles s' !! h)) s.
Proof.
  intros Hs Ho Hu Hm. destruct (apart_open h o s Hs Ho) as [_ [(_ & [c Ec] & [p Ep]) | (? & _)]]; [|done].
  eapply wp_mono; [|apply (Hm c p Ec Ep s Hs); eauto].
  intros r s' (? & o' & ? & _). eauto.
Qed.

Lemma lock_states x :
  negb ((x =? FLOM_HANDLE_STATE_INIT) || (x =? FLOM_HANDLE_STATE_CONNECTED)
        || (x =? FLOM_HANDLE_STATE_DISCONNECTED)) = false -> in_use x.
Proof.
  unfold in_use, FLOM_HANDLE_STATE_INIT, FLOM_HANDLE_STATE_CONNECTED, FLOM_HANDLE_STATE_DISCONNECTED.
  destruct (Z.eqb_spec x 22), (Z.eqb_spec x 23), (Z.eqb_spec x 25); try done; lia.
Qed.
Lemma unlock_states x :
  negb ((x =? FLOM_HANDLE_STATE_LOCKED) || (x =? FLOM_HANDLE_STATE_CONNECTED)) = false -> in_use x.
Proof.
  unfold in_use, FLOM_HANDLE_STATE_LOCKED, FLOM_HANDLE_STATE_CONNECTED.
  destruct (Z.eqb_spec x 23), (Z.eqb_spec x 24); try done; lia.
Qed.

Lemma wp_lock_ok h s :
  app_ok s -> is_Some (a_handles s !! h) ->
  wp (flom_handle_lock (Some h)) (fun _ s' => app_ok s' /\ is_Some (a_handles s' !! h)) s.
Proof.
  intros Hs [o Ho]. unfold flom_handle_lock. wp_step. apply wp_init_check; [apply Hs|].
  wp_step. apply wp_ret. wp_step. eapply wp_the_handle; [done|]. do 2 wp_step; [wp_step; eauto|].
  eapply wp_steady; [done..|by apply lock_states|]. intros c p -> ->. solve_steady.
Qed.

Lemma wp_unlock_ok h b s :
  app_ok s -> is_Some (a_handles s !! h) ->
  wp (flom_handle_unlock_internal (Some h) b) (fun _ s' => app_ok s' /\ is_Some (a_handles s' !! h)) s.
Proof.
  intros Hs [o Ho]. unfold flom_handle_unlock_internal. wp_step. apply wp_init_check; [apply Hs|].
  wp_step. apply wp_ret. wp_step. eapply wp_the_handle; [done|]. do 2 wp_step; [wp_step; eauto|].
  eapply wp_steady; [done..|by apply unlock_states|]. intros c p -> ->. solve_steady.
Qed.

(** A clean-up of a handle that has no lock frees its memory and nothing else. *)
Lemma wp_clean_ok h o s :
  app_ok s -> a_handles s !! h = Some o ->
  wp (flom_handle_clean h) (fun r s' => app_ok s' /\
    (h_state o <> FLOM_HANDLE_STATE_LOCKED -> orderly r)) s.
Proof.
  intros Hs Ho. unfold flom_handle_clean. wp_step. apply wp_init_check; [apply Hs|].
  wp_step. eapply wp_the_handle; [done|]. do 2 wp_step.
  - eapply wp_mono; [|apply wp_unlock_ok; eauto]. intros [e|u] s1 [Hs1 Ho1].
    + split; [done|]. apply Z.eqb_eq in H1. done.
    + eapply wp_mono; [|by apply wp_release]. intros r s2 [? ?]. done.
  - eapply wp_mono; [|apply wp_release; eauto]. intros r s2 [? ?]. done.
Qed.

Lemma wp_delete_ok h o s :
  app_ok s -> a_handles s !! h = Some o ->
  wp (flom_handle_delete (Some h)) (fun r s' => app_ok s' /\
    (h_state o <> FLOM_HANDLE_STATE_LOCKED -> orderly r)) s.
Proof.
  intros Hs Ho. unfold flom_handle_delete. do 2 wp_step. apply wp_init_check; [apply Hs|]. cbn.
  do 2 wp_step. eapply wp_mono; [|by apply wp_clean_ok]. intros [[rc| |]|u] s1 [Hs1 Hr].
  - wp_step. split; [by apply app_ok_delete | done].
  - split; [done|]. intros Hl. by destruct (Hr Hl).
  - split; [done|]. intros Hl. by destruct (Hr Hl).
  - wp_step. split; [by apply app_ok_delete | done].
Qed.

(** A setter of a handle that holds nothing sets the trace of the process. *)
Lemma unused_states x : ~ in_use x -> idle_state x = false /\ unlocked_state x = false.
Proof.
  unfold in_use, unlocked_state, idle_state, FLOM_HANDLE_STATE_INIT, FLOM_HANDLE_STATE_CONNECTED,
    FLOM_HANDLE_STATE_DISCONNECTED. intros Hx.
  destruct (Z.eqb_spec x 22), (Z.eqb_spec x 23), (Z.eqb_spec x 25); cbn; try done; lia.
Qed.

Lemma wp_trace_file_ok h o v s :
  app_ok s -> a_handles s !! h = Some o ->
  wp (flom_handle_set_trace_filename h v)
    (fun r s' => app_ok s' /\ (trace_file (a_trace s) <> None -> orderly r)) s.
Proof.
  intros Hs Ho. destruct (apart_open h o s Hs Ho) as [Ha Hold].
  assert (Hw := apart_owned _ _ _ Ha).
  assert (Hr : is_Some (config_at (a_configs s) (h_config o))).
  { destruct (h_config o) as [p|] eqn:Ep; [by apply (ex_config _ _ _ (ap_exclusive _ _ _ Ha))|by eexists]. }
  eapply wp_set_trace; [done..|]. intros g Hg Hrg _ Hf.
  assert (Ha' : apart h o (with_configs g s)).
  { assert (Hobj : forall r, is_Some (config_at (a_configs s) r) -> is_Some (config_at g r))
      by (intros r; by eapply frame_object).
    apply apart_client; [done | exact Hg | | done | by intros q _; apply Hobj].
    intros f Hfd. assert (Hp := fr_pointer _ _ _ Hf None f). unfold pointer in Hp. cbn in Hp.
    assert (E : Some (strs (global_config g) f) = Some (strs (global_config (a_configs s)) f)).
    { apply Hp. intros [[]|[_ ->]]. apply Hfd. apply (bool_decide_unpack _). done. }
    injection E as E. change (strs (global_config g) f = None). rewrite E. by apply (apart_no_tls _ _ _ Ha). }
  eapply wp_mono; [|apply wp_reopen_any; apply Hs]. intros x t (Ht & Hi & Hx).
  assert (Hok : app_ok (with_trace t (with_configs g s))).
  { eapply (apart_close h o); [|done]. by apply apart_trace. }
  destruct x as [e|[]]; (split; [done|]); [intros Hn; by specialize (Hx Hn) | done].
Qed.

Lemma wp_setter_ok h o t s :
  app_ok s -> a_handles s !! h = Some o -> valid_setter t ->
  wp (run_setter t h) (fun r s' => app_ok s' /\
    ((sets_trace t = true -> trace_file (a_trace s) <> None) -> orderly r)) s.
Proof.
  intros Hs Ho Ht. destruct (sets_trace t) eqn:Et.
  { destruct t; try done. eapply wp_mono; [|by eapply wp_trace_file_ok].
    intros r s' [Hs' Hr]. split; [done|]. intros Hn. by apply Hr, Hn. }
  destruct (apart_open h o s Hs Ho) as [Ha Hold].
  destruct (h_config o) as [p|] eqn:Ep.
  - destruct (ex_config _ _ _ (ap_exclusive _ _ _ Ha) p Ep) as [Hp _]. rewrite <- Ep in Hp.
    eapply wp_mono; [|by eapply run_setter_confined; [..|by eapply apart_owned|]].
    intros x s' (a & g & -> & -> & Hg & Has). split; [|done]. rewrite Ep in Has.
    eapply (apart_close h o); [|done]. by eapply apart_aside.
  - destruct Hold as [(_ & _ & [? ?]) | (Hu & ? & ?)]; [congruence|].
    destruct (unused_states _ Hu) as [Hi Hn].
    destruct (setter_allowed t (h_state o)) eqn:Ea.
    + destruct t; cbn in Ea, Et; congruence.
    + unfold wp. by rewrite (run_setter_refused _ _ _ _ Ho Ea).
Qed.

(** ** Any sequence of calls *)
Inductive api_call : Type :=
| Call_new
| Call_init (h : handle_ref)
| Call_clean (h : handle_ref)
| Call_delete (h : option handle_ref)
| Call_lock (h : option handle_ref)
| Call_unlock (h : option handle_ref)
| Call_unlock_rollback (h : option handle_ref)
| Call_set (h : handle_ref) (t : setter).

(** The result is the reason code. *)
Definition run_api (call : api_call) : Am Z :=
  match call with
  | Call_new => _ ← flom_handle_new; mret FLOM_RC_OK
  | Call_init h => _ ← flom_handle_init h; mret FLOM_RC_OK
  | Call_clean h => _ ← flom_handle_clean h; mret FLOM_RC_OK
  | Call_delete h => _ ← flom_handle_delete h; mret FLOM_RC_OK
  | Call_lock h => _ ← flom_handle_lock h; mret FLOM_RC_OK
  | Call_unlock h => _ ← flom_handle_unlock h; mret FLOM_RC_OK
  | Call_unlock_rollback h => _ ← flom_handle_unlock_rollback h; mret FLOM_RC_OK
  | Call_set h t => run_setter t h
  end.

(** What a caller must ensure: the pointer is one of a handle, or NULL where
    it is looked at, and the value of a setter is one it can take. *)
Definition valid_call (s : app) (call : api_call) : Prop :=
  match call with
  | Call_new => True
  | Call_init h | Call_clean h => is_Some (a_handles s !! h)
  | Call_delete o | Call_lock o | Call_unlock o | Call_unlock_rollback o =>
      match o with None => True | Some h => is_Some (a_handles s !! h) end
  | Call_set h t => is_Some (a_handles s !! h) /\ valid_setter t
  end.

(** The calls that do not talk to a daemon; the file of the trace is set while
    the trace is open *)
Definition local_call (s : app) (call : api_call) : Prop :=
  match call with
  | Call_clean h | Call_delete (Some h) =>
      forall o, a_handles s !! h = Some o -> h_state o <> FLOM_HANDLE_STATE_LOCKED
  | Call_lock (Some _) | Call_unlock (Some _) | Call_unlock_rollback (Some _) => False
  | Call_set _ t => sets_trace t = true -> trace_file (a_trace s) <> None
  | _ => True
  end.

Inductive app_step (s s' : app) : Prop :=
| App_step call r (Hvalid : valid_call s call) (Hrun : run_api call s = (r, s')).

Lemma wp_done {A} (m : Am A) (P : app -> Prop) (L : Prop) s :
  wp m (fun r s' => P s' /\ (L -> orderly r)) s ->
  wp (_ ← m; mret FLOM_RC_OK) (fun r s' => P s' /\ (L -> orderly r)) s.
Proof.
  intros Hm. wp_step. eapply wp_mono; [|exact Hm]. intros [e|a] s' [Hs Hr].
  - split; [done|]. intros HL. destruct (Hr HL) as [N1 N2]. split; congruence.
  - wp_step. by split.
Qed.

Lemma api_call_ok s call :
  app_ok s -> valid_call s call ->
  wp (run_api call) (fun r s' => app_ok s' /\ (local_call s call -> orderly r)) s.
Proof.
  intros Hs Hv. assert (Hf := ok_flag _ _ Hs).
  destruct call as [|h|h|[h|]|[h|]|[h|]|[h|]|h t]; cbn [run_api valid_call] in *; try apply wp_done.
  - eapply wp_mono; [|by apply wp_handle_new]. by intros r s' [? ?].
  - eapply wp_mono; [|by apply wp_handle_init]. by intros r s' (? & ? & ?).
  - destruct Hv as [o Ho]. eapply wp_mono; [|by apply wp_clean_ok]. intros r s' [? Hr]. eauto.
  - destruct Hv as [o Ho]. eapply wp_mono; [|by apply wp_delete_ok]. intros r s' [? Hr]. eauto.
  - unfold flom_handle_delete. do 2 wp_step. apply wp_init_check; [done|]. by wp_step.
  - eapply wp_mono; [|by apply wp_lock_ok]. intros r s' [? _]. by split.
  - unfold flom_handle_lock. wp_step. apply wp_init_check; [done|]. wp_step. by apply wp_throw.
  - eapply wp_mono; [|by apply wp_unlock_ok]. intros r s' [? _]. by split.
  - unfold flom_handle_unlock, flom_handle_unlock_internal. wp_step. apply wp_init_check; [done|]. wp_step. by apply wp_throw.
  - eapply wp_mono; [|by apply wp_unlock_ok]. intros r s' [? _]. by split.
  - unfold flom_handle_unlock_rollback, flom_handle_unlock_internal. wp_step. apply wp_init_check; [done|]. wp_step. by apply wp_throw.
  - destruct Hv as [[o Ho] Ht]. by eapply wp_setter_ok.
Qed.

(** ** From the start of the process

    No handle exists and the library has not been initialised; a failed
    initialisation is tried again by the next call. *)
Record unused (s : app) : Prop := Unused {
  un_flag : flom_init_flag s = false;
  un_handles : a_handles s = ∅;
  un_trace : trace_sound (a_trace s);
  un_closed : trace_file (a_trace s) = None -> flom_trace_initialized (a_trace s) = false;
  un_owned : owned (a_configs s)
}.

Lemma wp_config_reset (Q : err + unit -> configs -> Prop) s :
  owned s -> (forall s', owned s' -> config_has_no_tls s' -> Q (inr tt) s') ->
  wp (flom_config_reset None) Q s.
Proof.
  intros [HL HA HB] HQ. unfold flom_config_reset. wp_step. eapply wp_the_config; [done|].
  wp_step. unfold wp at 1. cbn. set (c := Config _ default_int []).
  assert (Hc : forall f l, strs c f = Some l -> f = resource_name /\ l = g_next s).
  { intros f l. unfold c. cbn. case_decide; [by intros [= <-] | done]. }
  assert (Hold : forall p c f l, g_configs s !! p = Some c -> strs c f = Some l -> (l < g_next s)%positive).
  { intros p d f l Hd Hl. by apply (HB (Some p) d f l). }
  apply HQ.
  - split.
    + intros [p|] d f l Hd Hl _; cbn in *.
      * rewrite lookup_insert_ne; [exact (HL (Some p) d f l Hd Hl id)|]. specialize (Hold p d f l Hd Hl). lia.
      * injection Hd as <-. apply Hc in Hl as [_ ->]. rewrite lookup_insert_eq. eauto.
    + intros [p|] d f l [p'|] d' f' Hd Hl _ Hd' Hl' _; cbn in *.
      * exact (HA (Some p) d f l (Some p') d' f' Hd Hl id Hd' Hl' id).
      * injection Hd' as <-. apply Hc in Hl' as [_ ->]. specialize (Hold p d f _ Hd Hl). lia.
      * injection Hd as <-. apply Hc in Hl as [_ ->]. specialize (Hold p' d' f' _ Hd' Hl'). lia.
      * injection Hd as <-. injection Hd' as <-. apply Hc in Hl as [-> _], Hl' as [-> _]. done.
    + intros [p|] d f l Hd Hl; cbn in *.
      * specialize (Hold p d f l Hd Hl). lia.
      * injection Hd as <-. apply Hc in Hl as [_ ->]. lia.
  - intros f Hf. cbn. rewrite decide_False; [done|]. intros ->. apply Hf.
    apply (bool_decide_unpack _). exact I.
Qed.

Lemma wp_both {A} (m : Gm A) (Q : err + A -> configs -> Prop) s :
  keeps_owned None m -> plain m -> owned s -> config_has_no_tls s ->
  (forall x s', owned s' -> config_has_no_tls s' -> Q x s') -> wp m Q s.
Proof.
  intros Hm Hp Ho Ht HQ. specialize (Hp s Ht). unfold wp. apply HQ; [|done].
  apply (Hm s Ho). by eexists.
Qed.

Lemma wp_reopen_given file (Q : err + unit -> app -> Prop) s :
  trace_sound (a_trace s) -> flom_trace_initialized (a_trace s) = true -> trace_file (a_trace s) <> None ->
  (forall t, trace_sound t -> flom_trace_initialized t = true -> trace_file t <> None ->
     Q (inr tt) (with_trace t s)) ->
  wp (when (given file) (append ← on_aconfigs (get_int append_trace_file None);
                         on_trace (flom_trace_reopen file (negb (append =? 0))))) Q s.
Proof.
  intros Ht Hi Hn HQ. destruct file as [name|]; cbn [given when].
  - wp_step. apply wp_on_aconfigs. apply wp_get_int; [by eexists|]. rewrite <- with_configs_id.
    apply wp_on_trace. eapply wp_mono; [|by apply wp_trace_reopen].
    intros r t (-> & [Ht' _] & Hi' & Hn'). apply HQ; [done | done | by apply Hn'].
  - wp_step. specialize (HQ (a_trace s) Ht Hi Hn). by destruct s.
Qed.

Lemma wp_first_check s :
  no_tls_files -> unused s ->
  wp flom_init_check (fun r s' => a_handles s' = ∅ /\ match r with inr _ => app_ok s' | inl _ => unused s' end) s.
Proof.
  intros Hn [Hf Hh Hz Hc Ho]. unfold flom_init_check. do 2 wp_step. rewrite Hf. cbn [negb when].
  wp_step. apply wp_on_trace. eapply wp_mono; [|by apply wp_trace_init].
  intros r t (-> & Ht & Hi & Hop & _). specialize (Hop ltac:(destruct (trace_file (a_trace s)); [by right | left; by apply Hc])).
  wp_step. apply wp_on_aconfigs. apply wp_config_reset; [done|]. intros g1 Ho1 Ht1.
  wp_step. apply wp_on_aconfigs. apply wp_both;
    [apply keeps_config_init | by apply plain_config_init | done | done|].
  intros x2 g2 Ho2 Ht2. destruct x2 as [e|u]; [by split|].
  wp_step. apply wp_on_aconfigs. apply wp_get_str; [done | by eexists|].
  change (a_configs (with_configs g2 (with_configs g1 (with_trace t s)))) with g2. wp_step.
  apply wp_reopen_given; [done..|].
  intros t3 Ht3 Hi3 Hop3.
  wp_step. apply wp_on_aconfigs. apply wp_both;
    [apply keeps_config_check | apply plain_config_check | done | done|].
  intros x3 g3 Ho3 Ht3'. destruct x3 as [e|rc]; [by split|].
  do 2 wp_step; [wp_step; by split|]. wp_step. split; [done|].
  split; [done | done | done | exact Ho3 | exact Ht3' | ..]; cbn; rewrite Hh; intros ???; by rewrite lookup_empty.
Qed.

(** The first call initialises the library; when that fails the call does
    nothing else. *)
Lemma init_check_again s : flom_init_flag s = true -> flom_init_check s = (inr tt, s).
Proof. intros Hf. unfold flom_init_check, mbind, M_bind, gets. cbn. by rewrite Hf. Qed.

Lemma first_call s call :
  a_handles s = ∅ -> valid_call s call ->
  match flom_init_check s with
  | (inr _, s1) => flom_init_flag s1 = true -> run_api call s = run_api call s1
  | (inl _, s1) => (run_api call s).2 = s1
  end.
Proof.
  intros Hh Hv. assert (He : forall h, ~ is_Some (a_handles s !! h)).
  { intros h. rewrite Hh, lookup_empty. by intros []. }
  destruct (flom_init_check s) as [[e|u] s1] eqn:E; [|intros Hf; assert (E1 := init_check_again s1 Hf)];
    destruct call as [|h|h|[h|]|[h|]|[h|]|[h|]|h t]; cbn [run_api valid_call] in *;
    try (exfalso; apply (He h); tauto);
    unfold flom_handle_new, flom_handle_delete, flom_handle_lock, flom_handle_unlock,
      flom_handle_unlock_rollback, flom_handle_unlock_internal, attempt, mbind, M_bind;
    rewrite ?E, ?E1; try done; by destruct e.
Qed.

Definition life (s : app) : Prop := app_ok s \/ unused s.

Lemma life_step s call : no_tls_files -> life s -> valid_call s call -> life (run_api call s).2.
Proof.
  intros Hn [Hs|Hs] Hv.
  - left. apply (api_call_ok s call Hs Hv).
  - assert (Hf := first_call s call (un_handles _ Hs) Hv). assert (Hc := wp_first_check s Hn Hs).
    unfold wp in Hc. destruct (flom_init_check s) as [[e|u] s1]; cbn in Hc; destruct Hc as [Hh Hc].
    + right. by rewrite Hf.
    + left. rewrite (Hf (ok_flag _ _ Hc)). apply (api_call_ok s1 call Hc).
      destruct call as [|h|h|[h|]|[h|]|[h|]|[h|]|h t]; cbn in *; rewrite ?Hh, <- ?(un_handles _ Hs); done.
Qed.

Lemma life_steps s0 s : no_tls_files -> unused s0 -> rtc app_step s0 s -> life s.
Proof.
  intros Hn Hu Hr. assert (Hl : life s0) by by right. clear Hu.
  induction Hr as [s|s1 s2 s3 [call r Hv Hrun] _ IH]; [done|]. apply IH.
  replace s2 with (run_api call s1).2 by by rewrite Hrun. by apply life_step.
Qed.

(** C20: invariant.  When no configuration file names the files of TLS (whose names
    the copy of a configuration shares: [Session.second_delete_frees_twice]), whatever
    an application calls, in any order, and whatever
    the daemon and the system answer: every string of a configuration belongs to
    one member of one configuration and is allocated; a handle in one of its
    four states of use has a connection and a configuration that exist and that
    no other handle has; any other handle has none. *)
Theorem handles_never_share s0 s :
  no_tls_files -> unused s0 -> rtc app_step s0 s ->
  owned (a_configs s) /\
  (forall h o, a_handles s !! h = Some o -> handle_ok s o) /\
  (forall h o h' o', a_handles s !! h = Some o -> a_handles s !! h' = Some o' -> h' <> h ->
     (h_conn o = None \/ h_conn o <> h_conn o') /\ (h_config o = None \/ h_config o <> h_config o')).
Proof.
  intros Hn Hu Hr. destruct (life_steps _ _ Hn Hu Hr) as [[F Zi Zt O T Hh C N] | [F Hh _ _ O]].
  - split_and!; [done | eauto|]. intros h o h' o' Ho Ho' Hne. split.
    + destruct (h_conn o) as [c|] eqn:E; [right|by left]. intros E'. by apply Hne, (N h o h' o' c).
    + destruct (h_config o) as [p|] eqn:E; [right|by left]. intros E'. by apply Hne, (C h o h' o' p).
  - rewrite Hh. split_and!; [done|..]; intros ??; rewrite lookup_empty; done.
Qed.

End steps.

(** ** A concrete life *)
Section calls.
Context `{Glib, System}.

Fixpoint run_calls (l : list api_call) (s : app) : app :=
  match l with
  | [] => s
  | call :: l => run_calls l (run_api call s).2
  end.
Fixpoint valid_calls (l : list api_call) (s : app) : Prop :=
  match l with
  | [] => True
  | call :: l => valid_call s call /\ valid_calls l (run_api call s).2
  end.

Lemma calls_reach l : forall s, valid_calls l s -> rtc app_step s (run_calls l s).
Proof.
  induction l as [|call l IH]; intros s Hv; [done|]. destruct Hv as [Hv Hl].
  eapply rtc_l; [|by apply IH]. econstructor; [exact Hv|]. apply surjective_pairing.
Qed.
End calls.

Definition demo_life : list api_call :=
  [Call_new; Call_new; Call_set 2%positive (Set_resource_name (Some "foo"%string)); Call_lock (Some 2%positive);
   Call_delete (Some 3%positive)].
Definition demo_start : app := demo_app [7] [demo_answer 16 FLOM_RC_OK].

Lemma demo_start_unused : unused demo_start.
Proof.
  split; [done..|]. split.
  - intros [p|] c f l; cbn; [by rewrite lookup_empty | by intros [= <-]].
  - intros [p|] c f l r' c' f'; cbn; [by rewrite lookup_empty | by intros [= <-]].
  - intros [p|] c f l; cbn; [by rewrite lookup_empty | by intros [= <-]].
Qed.
Lemma demo_no_tls : @no_tls_files demo_system.
Proof. by intros name file key. Qed.
Lemma demo_life_valid : @valid_calls demo_glib demo_system demo_life demo_start.
Proof. vm_compute. split_and!; first [exact I | by eexists | discriminate]. Qed.

Lemma handles_never_share_witness :
  let s := @run_calls demo_glib demo_system demo_life demo_start in
  state_of s 2%positive = Some FLOM_HANDLE_STATE_LOCKED /\ owned (a_configs s).
Proof.
  split; [vm_compute; reflexivity|].
  exact (proj1 (@handles_never_share demo_glib demo_system demo_start _ demo_no_tls demo_start_unused
    (@calls_reach demo_glib demo_system demo_life demo_start demo_life_valid))).
Defined.


(** ** The states of a handle

    What a call may do to the state of its handle: connect, lock, unlock,
    disconnect, clean up. *)
Inductive handle_edge : Z -> Z -> Prop :=
| Edge_connect : handle_edge FLOM_HANDLE_STATE_INIT FLOM_HANDLE_STATE_CONNECTED
| Edge_reconnect : handle_edge FLOM_HANDLE_STATE_DISCONNECTED FLOM_HANDLE_STATE_CONNECTED
| Edge_lock : handle_edge FLOM_HANDLE_STATE_CONNECTED FLOM_HANDLE_STATE_LOCKED
| Edge_unlock : handle_edge FLOM_HANDLE_STATE_LOCKED FLOM_HANDLE_STATE_CONNECTED
| Edge_disconnect : handle_edge FLOM_HANDLE_STATE_CONNECTED FLOM_HANDLE_STATE_DISCONNECTED
| Edge_clean : handle_edge FLOM_HANDLE_STATE_INIT FLOM_HANDLE_STATE_CLEANED
| Edge_clean_used : handle_edge FLOM_HANDLE_STATE_DISCONNECTED FLOM_HANDLE_STATE_CLEANED.

(** The handle a call works on, and the state success leaves it in *)
Definition works_on (call : api_call) (h : handle_ref) : Prop :=
  match call with
  | Call_lock (Some h') | Call_unlock (Some h') | Call_unlock_rollback (Some h') | Call_clean h' => h' = h
  | _ => False
  end.
Definition state_after (call : api_call) : Z :=
  match call with
  | Call_lock _ => FLOM_HANDLE_STATE_LOCKED
  | Call_clean _ => FLOM_HANDLE_STATE_CLEANED
  | _ => FLOM_HANDLE_STATE_DISCONNECTED
  end.

Section states.
Context `{Glib, System}.

(** Only the handle [h] differs from the table [m], and its state is [x]. *)
Definition standing (m : gmap handle_ref flom_handle) (h : handle_ref) (x : Z) (s : app) : Prop :=
  flom_init_flag s = true /\ exists o, a_handles s = <[h := o]> m /\ h_state o = x.

Lemma standing_start s h o :
  flom_init_flag s = true -> a_handles s !! h = Some o -> standing (a_handles s) h (h_state o) s.
Proof. intros Hf Ho. split; [done|]. exists o. by rewrite insert_id. Qed.

Lemma standing_client m h x k s : standing m h x s -> standing m h x (put_client k s).
Proof. done. Qed.
Hint Resolve standing_client : core.

Lemma wp_client_standing m h x {A} (k : Km A) (Q : err + A -> app -> Prop) s :
  standing m h x s -> (forall r s', standing m h x s' -> Q r s') -> wp (on_client k) Q s.
Proof. intros Hs HQ. apply wp_on_client. unfold wp. auto. Qed.

Lemma wp_upd_standing m h x f (Q : err + unit -> app -> Prop) s :
  standing m h x s ->
  (forall o s', a_handles s' = <[h := f o]> m -> h_state o = x -> standing m h (h_state (f o)) s' ->
     Q (inr tt) s') -> wp (upd_handle h f) Q s.
Proof.
  intros (Hf & o & Hm & Hx) HQ. eapply wp_upd_handle; [rewrite Hm; apply lookup_insert_eq|].
  assert (E : a_handles (put_handles (<[h := f o]> (a_handles s)) s) = <[h := f o]> m).
  { cbn. by rewrite Hm, insert_insert_eq. }
  apply (HQ o); [done..|]. split; [done|]. by exists (f o).
Qed.

Lemma wp_of_option_standing m h x {A} (e : err) (o : option A) (Q : err + A -> app -> Prop) s :
  standing m h x s -> (forall r, Q r s) -> wp (of_option e o) Q s.
Proof. intros Hs HQ. destruct o; [apply wp_ret | apply wp_throw]; auto. Qed.

(** Where a call may leave the handle, and where it does when it succeeds *)
Definition travels m h x y {A} (r : err + A) (s : app) : Prop :=
  exists z, standing m h z s /\ rtc handle_edge x z /\ match r with inr _ => z = y | inl _ => True end.

Lemma travels_stop m h x y {A} (e : err) s z :
  standing m h z s -> rtc handle_edge x z -> travels m h x y (A := A) (inl e) s.
Proof. intros Hs Hr. by exists z. Qed.
Lemma travels_end m h x y {A} (a : A) s :
  standing m h y s -> rtc handle_edge x y -> travels m h x y (inr a) s.
Proof. intros Hs Hr. by exists y. Qed.

Lemma wp_lock_travels h o s :
  flom_init_flag s = true -> a_handles s !! h = Some o ->
  wp (flom_handle_lock (Some h))
    (travels (a_handles s) h (h_state o) FLOM_HANDLE_STATE_LOCKED) s.
Proof.
  intros Hf Ho. assert (Hs := standing_start s h o Hf Ho). revert Hs.
  generalize (a_handles s). intros m Hs.
  unfold flom_handle_lock. wp_step. apply wp_init_check; [done|]. wp_step. apply wp_ret.
  wp_step. eapply wp_the_handle; [done|]. do 2 wp_step; [wp_step; by eapply travels_stop|].
  wp_step. eapply wp_of_option_standing; [done|]. intros [e|c]; [by eapply travels_stop|].
  assert (Hlock : forall x s1, rtc handle_edge (h_state o) FLOM_HANDLE_STATE_CONNECTED ->
    standing m h x s1 -> x = FLOM_HANDLE_STATE_CONNECTED ->
    wp (timeout ← on_aconfigs (flom_config_get_resource_timeout (h_config o));
        element ← on_client (flom_client_lock (h_config o) c timeout (h_element o));
        _ ← upd_handle h (set_element element);
        upd_handle h (set_hstate FLOM_HANDLE_STATE_LOCKED))
      (travels m h (h_state o) FLOM_HANDLE_STATE_LOCKED) s1).
  { intros x s1 Hr Hs1 ->. wp_step. eapply wp_client_standing; [done|].
    intros [e|timeout] s2 Hs2; [by eapply travels_stop|]. wp_step. eapply wp_client_standing; [done|].
    intros [e|element] s3 Hs3; [by eapply travels_stop|]. wp_step. eapply wp_upd_standing; [done|].
    intros o4 s4 _ Hx4 Hs4. cbn in Hs4. rewrite Hx4 in Hs4. eapply wp_upd_standing; [done|].
    intros o5 s5 _ _ Hs5. apply travels_end; [done|]. eapply rtc_r; [done | constructor]. }
  wp_step. wp_step.
  - assert (Hc : handle_edge (h_state o) FLOM_HANDLE_STATE_CONNECTED).
    { revert H1 H2. unfold FLOM_HANDLE_STATE_INIT, FLOM_HANDLE_STATE_CONNECTED, FLOM_HANDLE_STATE_DISCONNECTED.
      destruct (Z.eqb_spec (h_state o) 22) as [->|]; [constructor|].
      destruct (Z.eqb_spec (h_state o) 25) as [->|]; [constructor|].
      destruct (Z.eqb_spec (h_state o) 23); done. }
    wp_step. eapply wp_client_standing; [done|]. intros [e|u] s1 Hs1; [by eapply travels_stop|].
    eapply wp_upd_standing; [done|]. intros o2 s2 _ _ Hs2. by eapply Hlock; [by apply rtc_once|..].
  - assert (E : h_state o = FLOM_HANDLE_STATE_CONNECTED) by (by apply Z.eqb_eq, negb_false_iff).
    by eapply Hlock; [rewrite E|..].
Qed.

Lemma wp_unlock_travels h o b s :
  flom_init_flag s = true -> a_handles s !! h = Some o ->
  wp (flom_handle_unlock_internal (Some h) b)
    (travels (a_handles s) h (h_state o) FLOM_HANDLE_STATE_DISCONNECTED) s.
Proof.
  intros Hf Ho. assert (Hs := standing_start s h o Hf Ho). revert Hs.
  generalize (a_handles s). intros m Hs.
  unfold flom_handle_unlock_internal. wp_step. apply wp_init_check; [done|]. wp_step. apply wp_ret.
  wp_step. eapply wp_the_handle; [done|]. do 2 wp_step; [wp_step; by eapply travels_stop|].
  wp_step. eapply wp_of_option_standing; [done|]. intros [e|c]; [by eapply travels_stop|]. wp_step.
  assert (Hend : forall ign s1, rtc handle_edge (h_state o) FLOM_HANDLE_STATE_CONNECTED ->
    standing m h FLOM_HANDLE_STATE_CONNECTED s1 ->
    wp (_ ← on_client (flom_client_disconnect c); _ ← upd_handle h (set_element None);
        _ ← upd_handle h (set_hstate FLOM_HANDLE_STATE_DISCONNECTED);
        when ign (throw (Rc FLOM_RC_RESOURCE_IS_NOT_TRANSACTIONAL)))
      (travels m h (h_state o) FLOM_HANDLE_STATE_DISCONNECTED) s1).
  { intros ign s1 Hr Hs1. wp_step. eapply wp_client_standing; [done|].
    intros [e|u] s2 Hs2; [by eapply travels_stop|]. wp_step. eapply wp_upd_standing; [done|].
    intros o3 s3 _ Hx3 Hs3. cbn in Hs3. rewrite Hx3 in Hs3. wp_step. eapply wp_upd_standing; [done|].
    intros o4 s4 _ _ Hs4. assert (Hr4 : rtc handle_edge (h_state o) FLOM_HANDLE_STATE_DISCONNECTED)
      by (eapply rtc_r; [done | constructor]).
    wp_step; [wp_step; by eapply travels_stop | by apply travels_end]. }
  eapply (wp_mono _ (fun _ s1 => standing m h (h_state o) s1)).
  2: { destruct b; [|by wp_step]. wp_step. eapply wp_client_standing; [done|].
       intros [e|name] s1 Hs1; [done|]. wp_step. eapply wp_of_option_standing; [done|]. by intros [e|n]. }
  intros [e|ign] s1 Hs1; [by eapply travels_stop|]. wp_step. wp_step.
  - apply Z.eqb_eq in H2. wp_step. eapply wp_client_standing; [done|].
    intros [e|u] s2 Hs2; [by eapply travels_stop|]. eapply wp_upd_standing; [done|].
    intros o3 s3 _ _ Hs3. apply Hend; [rewrite H2; apply rtc_once; constructor | done].
  - assert (E : h_state o = FLOM_HANDLE_STATE_CONNECTED).
    { revert H1 H2. unfold FLOM_HANDLE_STATE_LOCKED, FLOM_HANDLE_STATE_CONNECTED.
      destruct (Z.eqb_spec (h_state o) 24), (Z.eqb_spec (h_state o) 23); done. }
    rewrite E in *. by apply Hend.
Qed.

Lemma wp_release_travels m h x s :
  standing m h x s -> wp (release h) (travels m h x FLOM_HANDLE_STATE_CLEANED) s.
Proof.
  intros Hs. unfold release. wp_step. destruct Hs as (Hf & o & Hm & Hx).
  assert (Hs : standing m h x s) by (split; eauto).
  eapply wp_the_handle; [rewrite Hm; apply lookup_insert_eq|].
  do 2 wp_step; [wp_step; by eapply travels_stop|].
  assert (He : handle_edge x FLOM_HANDLE_STATE_CLEANED).
  { rewrite Hx in H1. revert H1. unfold FLOM_HANDLE_STATE_INIT, FLOM_HANDLE_STATE_DISCONNECTED.
    destruct (Z.eqb_spec x 22) as [->|]; [constructor|].
    destruct (Z.eqb_spec x 25) as [->|]; [constructor | done]. }
  wp_step. eapply wp_client_standing; [done|]. intros [e|u] s1 Hs1; [by eapply travels_stop|].
  wp_step. assert (Hd : wp (delete_config (h_config o)) (fun _ s2 => standing m h x s2) s1).
  { destruct (h_config o); [by eapply wp_client_standing | exact Hs1]. }
  eapply wp_mono; [|exact Hd]. intros [e|u2] s2 Hs2; [by eapply travels_stop|].
  wp_step. assert (Hd' : wp (delete_conn (h_conn o)) (fun _ s3 => standing m h x s3) s2).
  { destruct (h_conn o); [by eapply wp_client_standing | exact Hs2]. }
  eapply wp_mono; [|exact Hd']. intros [e|u3] s3 Hs3; [by eapply travels_stop|].
  eapply wp_upd_standing; [done|]. intros o4 s4 _ _ Hs4.
  apply travels_end; [exact Hs4 | by apply rtc_once].
Qed.

Lemma wp_clean_travels h o s :
  flom_init_flag s = true -> a_handles s !! h = Some o ->
  wp (flom_handle_clean h) (travels (a_handles s) h (h_state o) FLOM_HANDLE_STATE_CLEANED) s.
Proof.
  intros Hf Ho. assert (Hs := standing_start s h o Hf Ho).
  unfold flom_handle_clean. wp_step. apply wp_init_check; [done|]. wp_step.
  eapply wp_the_handle; [done|]. do 2 wp_step; [|by apply wp_release_travels].
  eapply wp_mono; [|by apply wp_unlock_travels]. intros [e|u] s1 Ht.
  - destruct Ht as (z & ? & ? & _). by exists z.
  - destruct Ht as (z & Hs1 & Hr & ->). eapply wp_mono; [|by apply wp_release_travels].
    intros r s2 (z & Hs2 & Hr2 & E). exists z. split_and!; [done | by etrans | done].
Qed.

(** C21: refinement.  A lock, an unlock, a rollback or a clean-up of a handle,
    whatever happens in it and whatever it returns, is a path of the automaton of
    the handle, of which it ends in the last state when it succeeds; all the
    other handles stay as they are. *)
Theorem handle_refines_automaton s h o call :
  flom_init_flag s = true -> a_handles s !! h = Some o -> works_on call h ->
  exists o', a_handles (run_api call s).2 = <[h := o']> (a_handles s) /\
    rtc handle_edge (h_state o) (h_state o') /\
    (forall rc, (run_api call s).1 = inr rc -> h_state o' = state_after call).
Proof.
  intros Hf Ho Hw.
  assert (Ht : wp (run_api call) (travels (a_handles s) h (h_state o) (state_after call)) s).
  { assert (Hret : forall (m : Am unit) y, wp m (travels (a_handles s) h (h_state o) y) s ->
      wp (_ ← m; mret FLOM_RC_OK) (travels (a_handles s) h (h_state o) y) s).
    { intros m y Hm. wp_step. eapply wp_mono; [|exact Hm]. intros [e|u] s1 (z & ? & ? & E).
      - by exists z.
      - wp_step. by exists z. }
    destruct call as [|h'|h'|[h'|]|[h'|]|[h'|]|[h'|]|h' t]; cbn in Hw; try done; subst h';
      cbn [run_api]; apply Hret;
      [by apply wp_clean_travels | by apply wp_lock_travels | by apply wp_unlock_travels..]. }
  destruct Ht as (z & (_ & o' & Hm & Hz) & Hr & E). exists o'. rewrite Hz. split_and!; [done | done|].
  intros rc Hrc. by rewrite Hrc in E.
Qed.

(** *** Calls out of sequence *)
Definition handle_of (call : api_call) : option handle_ref :=
  match call with
  | Call_clean h | Call_set h _ => Some h
  | Call_lock o | Call_unlock o | Call_unlock_rollback o => o
  | _ => None
  end.
Definition in_sequence (call : api_call) (x : Z) : bool :=
  match call with
  | Call_lock _ => unlocked_state x
  | Call_unlock _ | Call_unlock_rollback _ =>
      (x =? FLOM_HANDLE_STATE_LOCKED) || (x =? FLOM_HANDLE_STATE_CONNECTED)
  | Call_clean _ => (x =? FLOM_HANDLE_STATE_LOCKED) || idle_state x
  | Call_set _ t => setter_allowed t x
  | _ => true
  end.

(** C23: error.  A call that the state of its handle does not allow (a lock of a
    locked or cleaned handle, an unlock of one that has no connection, a
    clean-up of a connected one, a setter of a connected one but for the
    properties of the lock) is refused with its reason code and changes nothing,
    neither in memory nor on the network. *)
Theorem wrong_state_refused s h o call :
  flom_init_flag s = true -> a_handles s !! h = Some o -> handle_of call = Some h ->
  in_sequence call (h_state o) = false ->
  run_api call s =
  (match call with
   | Call_set _ _ => inr FLOM_RC_API_IMMUTABLE_HANDLE
   | _ => inl (Rc FLOM_RC_API_INVALID_SEQUENCE)
   end, s).
Proof.
  intros Hf Ho Hh Hq. assert (Hi := init_check_again s Hf).
  assert (Hg : the_handle h s = (inr o, s)) by (unfold the_handle, mbind, M_bind, gets; by rewrite Ho).
  unfold in_sequence, unlocked_state, idle_state in Hq.
  destruct call as [|h'|h'|[h'|]|[h'|]|[h'|]|[h'|]|h' t]; cbn in Hh; try done; injection Hh as ->;
    cbn [run_api]; [..|by apply run_setter_refused with o].
  1: unfold flom_handle_clean, release.
  2: unfold flom_handle_lock.
  3,4: unfold flom_handle_unlock, flom_handle_unlock_rollback, flom_handle_unlock_internal.
  all: repeat match goal with E : _ || _ = false |- _ => apply orb_false_iff in E as [? ?] end;
    unfold mbind, M_bind; rewrite Hi; cbn; rewrite Hg;
    repeat match goal with E : (_ =? _) = false |- _ => rewrite E; clear E end; cbn; rewrite ?Hg; try done.
  by repeat match goal with E : (_ =? _) = false |- _ => rewrite E; clear E end.
Qed.
End states.

Lemma handle_refines_automaton_witness :
  let s := @run_calls demo_glib demo_system demo_life demo_start in
  exists o', a_handles (@run_api demo_glib demo_system (Call_unlock (Some 2%positive)) s).2 !! 2%positive = Some o' /\
    h_state o' = FLOM_HANDLE_STATE_DISCONNECTED.
Proof.
  destruct (@handle_refines_automaton demo_glib demo_system
    (@run_calls demo_glib demo_system demo_life demo_start) 2%positive
    (default zero_handle (a_handles (@run_calls demo_glib demo_system demo_life demo_start) !! 2%positive))
    (Call_unlock (Some 2%positive)) ltac:(vm_compute; reflexivity) ltac:(vm_compute; reflexivity)
    ltac:(reflexivity)) as (o' & Hm & _ & Hz).
  exists o'. split; [rewrite Hm; apply lookup_insert_eq|]. apply (Hz FLOM_RC_OK). vm_compute. reflexivity.
Defined.

Lemma wrong_state_refused_witness :
  let s := @run_calls demo_glib demo_system demo_life demo_start in
  @run_api demo_glib demo_system (Call_lock (Some 2%positive)) s = (inl (Rc FLOM_RC_API_INVALID_SEQUENCE), s).
Proof.
  refine (@wrong_state_refused demo_glib demo_system
    (@run_calls demo_glib demo_system demo_life demo_start) 2%positive
    (default zero_handle (a_handles (@run_calls demo_glib demo_system demo_life demo_start) !! 2%positive))
    (Call_lock (Some 2%positive)) _ _ _ _); vm_compute; reflexivity.
Defined.

(** *** The settings of the first handle of the application *)
Definition demo_first : app := @run_calls demo_glib demo_system [Call_new] demo_start.
Definition demo_handle : flom_handle := default zero_handle (a_handles demo_first !! 2%positive).

Lemma demo_first_owned : owned (a_configs demo_first).
Proof.
  destruct (@life_steps demo_glib demo_system demo_start demo_first demo_no_tls demo_start_unused
    (@calls_reach demo_glib demo_system [Call_new] demo_start (conj I I))) as [[]|[]]; done.
Qed.

Lemma setter_reads_back_witness :
  let s' := (@run_setter demo_system (Set_unicast_address (Some "10.0.0.1"%string)) 2%positive demo_first).2 in
  read_setting (Set_socket_name None) 2%positive s' = (inr (Text None), s').
Proof.
  refine (proj2 (@setter_reads_back demo_system (Set_unicast_address (Some "10.0.0.1"%string)) 2%positive
    demo_handle demo_first _ _ demo_first_owned _ I _ _ _) (Set_socket_name None) _).
  1, 3, 4, 5: vm_compute; reflexivity.
  - vm_compute. by eexists.
  - by left.
Defined.

Lemma config_check_correct_witness :
  (@flom_config_check demo_system None (a_configs demo_first)).1 = inr FLOM_RC_OK.
Proof.
  refine (proj1 (@config_check_correct demo_system None DEFAULT_RESOURCE_NAME (a_configs demo_first)
    demo_first_owned _ _)).
  - by eexists.
  - vm_compute. reflexivity.
Defined.
