(* ===== verification/Tls.v ===== *)
(** * Tls: secure connections

    [src/src/flom_tls.c]: the TLS object of a connection, its context and its
    certificates, the negotiation, the names in the certificate of the peer and
    the check of its identifier; [flom_accept_loop_pollin_tls] of
    [flom_daemon.c] and the same steps of [flom_client_connect].  OpenSSL is a
    class: what a handshake answers is a function of the context and of the
    peer.  Memory is a heap of blocks, so that what is not freed, or is freed
    twice, is seen. *)
From Stdlib Require Import ZArith String List Lia.
From stdpp Require Import base list gmap numbers strings.
From S2P Require Import Prelude Types CStr World Config.
Local Open Scope string_scope.
Local Open Scope Z_scope.

(** ** What OpenSSL has *)
Definition X509_V_OK : Z := 0.
Definition NID_commonName : Z := 13.
Definition NID_countryName : Z := 14.
Definition NID_localityName : Z := 15.
Definition NID_stateOrProvinceName : Z := 16.
Definition NID_organizationName : Z := 17.
Definition NID_organizationalUnitName : Z := 18.
Definition NID_pkcs9_emailAddress : Z := 48.

(** A certificate: the entries of the names of its issuer and of its subject,
    each an object and bytes *)
Record x509 : Type := X509 {
  x_issuer : list (Z * string);
  x_subject : list (Z * string)
}.

(** A context: what the calls on an [SSL_CTX] have set *)
Record context : Type := Context_of {
  ctx_verify_peer : bool;
  ctx_fail_if_no_peer_cert : bool;
  ctx_callback : option (Z -> Z);
  ctx_depth : Z;
  ctx_certificate : option string;
  ctx_private_key : option string;
  ctx_ca : option string
}.
Definition new_context : context := Context_of false false None (-1) None None None.
Definition use_files (certificate key ca : option string) (x : context) : context :=
  Context_of (ctx_verify_peer x) (ctx_fail_if_no_peer_cert x) (ctx_callback x) (ctx_depth x)
    certificate key ca.

(** [handshake client x p] is [SSL_connect] or [SSL_accept] with the peer [p]:
    nothing when it fails, else the certificate of the peer, when it has given
    one, and what [SSL_get_verify_result] answers. *)
Class OpenSSL : Type := {
  peer : Type;
  handshake : bool -> context -> peer -> option (option x509 * Z)
}.

(** ** The objects *)
Inductive field : Type :=
| country_name | state_name | locality_name | organization_name | unit_name | email_name | common_name.
#[global] Instance field_eq_dec : EqDecision field.
Proof. solve_decision. Defined.
#[global] Instance field_countable : Countable field.
Proof.
  apply (inj_countable' (fun f => match f with
    | country_name => 0 | state_name => 1 | locality_name => 2 | organization_name => 3 | unit_name => 4 | email_name => 5 | common_name => 6 end)%nat
    (fun n => match n with
    | 0 => country_name | 1 => state_name | 2 => locality_name | 3 => organization_name | 4 => unit_name | 5 => email_name | _ => common_name end)%nat).
  by intros [].
Defined.

(** A pointer to a block *)
Definition ptr : Type := positive.

(** The strings that are not NULL *)
Definition flom_tls_cert_s : Type := gmap field ptr.
Record flom_tls_cert : Type := Tls_cert {
  issuer : flom_tls_cert_s;
  subject : flom_tls_cert_s
}.
Record flom_tls : Type := Tls {
  tls_ctx : option ptr;
  tls_ssl : option ptr;
  tls_client : bool;
  tls_depth : Z;
  tls_cert : option ptr
}.
Definition set_ctx (x : option ptr) (o : flom_tls) : flom_tls :=
  Tls x (tls_ssl o) (tls_client o) (tls_depth o) (tls_cert o).
Definition set_ssl (x : option ptr) (o : flom_tls) : flom_tls :=
  Tls (tls_ctx o) x (tls_client o) (tls_depth o) (tls_cert o).
Definition set_cert (x : option ptr) (o : flom_tls) : flom_tls :=
  Tls (tls_ctx o) (tls_ssl o) (tls_client o) (tls_depth o) x.

Inductive block : Type :=
| Object (o : flom_tls)
| Ctx (x : context)
| Ssl (x : context) (fd : Z) (done : option (option x509 * Z))
| Certificate (c : flom_tls_cert)
| X509_reference
| Text (x : string).

(** The heap; the answers to come of the allocator, of the calls of OpenSSL that
    only succeed or fail, and the peers of the handshakes; the library's flag and
    the member [tls] of the connection. *)
Section tls.
Context `{OpenSSL}.

Record tls_state : Type := Tls_state {
  t_heap : gmap ptr block;
  t_next : ptr;
  t_mallocs : list bool;
  t_calls : list bool;
  t_peers : list peer;
  flom_tls_initialized : bool;
  t_conn : option ptr
}.
Definition Tm (A : Type) : Type := M err tls_state A.
Definition put_heap (h : gmap ptr block) (s : tls_state) : tls_state :=
  Tls_state h (t_next s) (t_mallocs s) (t_calls s) (t_peers s) (flom_tls_initialized s) (t_conn s).
Definition put_mallocs (l : list bool) (s : tls_state) : tls_state :=
  Tls_state (t_heap s) (t_next s) l (t_calls s) (t_peers s) (flom_tls_initialized s) (t_conn s).
Definition put_ssl_calls (l : list bool) (s : tls_state) : tls_state :=
  Tls_state (t_heap s) (t_next s) (t_mallocs s) l (t_peers s) (flom_tls_initialized s) (t_conn s).
Definition put_peers (l : list peer) (s : tls_state) : tls_state :=
  Tls_state (t_heap s) (t_next s) (t_mallocs s) (t_calls s) l (flom_tls_initialized s) (t_conn s).
Definition put_initialized (b : bool) (s : tls_state) : tls_state :=
  Tls_state (t_heap s) (t_next s) (t_mallocs s) (t_calls s) (t_peers s) b (t_conn s).
Definition put_conn (o : option ptr) (s : tls_state) : tls_state :=
  Tls_state (t_heap s) (t_next s) (t_mallocs s) (t_calls s) (t_peers s) (flom_tls_initialized s) o.

Definition malloc_ok : Tm bool := fun s =>
  match t_mallocs s with
  | [] => (inr true, s)
  | b :: l => (inr b, put_mallocs l s)
  end.
Definition ssl_ok : Tm bool := fun s =>
  match t_calls s with
  | [] => (inr true, s)
  | b :: l => (inr b, put_ssl_calls l s)
  end.
Definition ssl_call (rc : Z) : Tm unit :=
  ok ← ssl_ok;
  when (negb ok) (throw (Rc rc)).

(** A new block, at an address that was never used *)
Definition new_block (b : block) : Tm ptr := fun s =>
  (inr (t_next s), Tls_state (<[t_next s := b]> (t_heap s)) (Pos.succ (t_next s)) (t_mallocs s) (t_calls s)
                     (t_peers s) (flom_tls_initialized s) (t_conn s)).
Definition block_at (p : ptr) : Tm block :=
  h ← gets t_heap;
  of_option Ub (h !! p).
Definition put_block (p : ptr) (b : block) : Tm unit := modify (fun s => put_heap (<[p := b]> (t_heap s)) s).
Definition free_block (p : ptr) : Tm unit :=
  _ ← block_at p;
  modify (fun s => put_heap (delete p (t_heap s)) s).
Definition free_block_if_any (o : option ptr) : Tm unit :=
  match o with None => mret tt | Some p => free_block p end.

Definition tls_at (p : ptr) : Tm flom_tls :=
  b ← block_at p;
  match b with Object o => mret o | _ => throw Ub end.
Definition upd_object (p : ptr) (f : flom_tls -> flom_tls) : Tm unit :=
  o ← tls_at p;
  put_block p (Object (f o)).
Definition ctx_at (p : ptr) : Tm context :=
  b ← block_at p;
  match b with Ctx x => mret x | _ => throw Ub end.
Definition certificate (p : ptr) : Tm flom_tls_cert :=
  b ← block_at p;
  match b with Certificate c => mret c | _ => throw Ub end.

(** ** The names of a certificate *)

(** One of the two structures of a certificate: the subject's, or the issuer's *)
Definition names_of (of_subject : bool) (c : flom_tls_cert) : flom_tls_cert_s :=
  if of_subject then subject c else issuer c.
Definition set_names (of_subject : bool) (st : flom_tls_cert_s) (c : flom_tls_cert) : flom_tls_cert :=
  if of_subject then Tls_cert (issuer c) st else Tls_cert st (subject c).
Definition upd_names (c : ptr) (b : bool) (f : flom_tls_cert_s -> flom_tls_cert_s) : Tm unit :=
  x ← certificate c;
  put_block c (Certificate (set_names b (f (names_of b x)) x)).

Definition free_name (c : ptr) (b : bool) (f : field) : Tm unit :=
  x ← certificate c;
  match names_of b x !! f with
  | None => mret tt
  | Some p => _ ← free_block p; upd_names c b (delete f)
  end.
Fixpoint free_names (c : ptr) (b : bool) (l : list field) : Tm unit :=
  match l with
  | [] => mret tt
  | f :: l => _ ← free_name c b f; free_names c b l
  end.
Definition flom_tls_cert_struct_delete (c : ptr) (b : bool) : Tm unit :=
  free_names c b [country_name; state_name; locality_name; organization_name; unit_name; email_name;
                  common_name].

Definition field_of_nid (nid : Z) : option field :=
  if nid =? NID_countryName then Some country_name
  else if nid =? NID_stateOrProvinceName then Some state_name
  else if nid =? NID_localityName then Some locality_name
  else if nid =? NID_organizationName then Some organization_name
  else if nid =? NID_organizationalUnitName then Some unit_name
  else if nid =? NID_pkcs9_emailAddress then Some email_name
  else if nid =? NID_commonName then Some common_name
  else None.

(** The bytes are copied as a C string; the string that the member had is
    forgotten. *)
Definition flom_tls_cert_struct_fill (c : ptr) (b : bool) (nid : Z) (str : string) : Tm unit :=
  match field_of_nid nid with
  | None => mret tt
  | Some f =>
      ok ← malloc_ok;
      if (ok : bool) then
        p ← new_block (Text (until_nul str));
        upd_names c b <[f := p]>
      else
        _ ← upd_names c b (delete f);
        throw (Rc FLOM_RC_G_STRDUP_ERROR)
  end.

Fixpoint fill_names (c : ptr) (b : bool) (entries : list (Z * string)) : Tm unit :=
  match entries with
  | [] => mret tt
  | (nid, str) :: entries =>
      _ ← flom_tls_cert_struct_fill c b nid str;
      fill_names c b entries
  end.

Definition flom_tls_cert_new : Tm (option ptr) :=
  ok ← malloc_ok;
  if (ok : bool) then p ← new_block (Certificate (Tls_cert ∅ ∅)); mret (Some p) else mret None.

Definition flom_tls_cert_delete (obj : option ptr) : Tm unit :=
  match obj with
  | None => mret tt
  | Some c =>
      _ ← flom_tls_cert_struct_delete c false;
      _ ← flom_tls_cert_struct_delete c true;
      free_block c
  end.

(** What the handshake of an SSL object has left in it *)
Definition handshaken (ssl : ptr) : Tm (option x509 * Z) :=
  b ← block_at ssl;
  match b with Ssl _ _ (Some r) => mret r | _ => throw Ub end.

(** The names go to the system's log, so [obj] is read when it is NULL. *)
Definition flom_tls_cert_parse (obj : option ptr) (ssl : ptr) : Tm unit :=
  '(cert, verify_result) ← handshaken ssl;
  cert ← of_option (Rc FLOM_RC_NO_CERTIFICATE) cert;
  reference ← new_block X509_reference;
  finally (
    c ← of_option Ub obj;
    _ ← fill_names c false (x_issuer cert);
    _ ← fill_names c true (x_subject cert);
    when (negb (verify_result =? X509_V_OK)) (throw (Rc FLOM_RC_SSL_GET_VERIFY_RESULT_ERROR)))
  (free_block reference).

(** ** The object *)
Definition FLOM_TLS_MAX_DEPTH_CERT_CHAIN_VERIF : Z := 3.

Definition flom_tls_new (client : bool) : Tm (option ptr) :=
  _ ← modify (put_initialized true);
  ok ← malloc_ok;
  if (ok : bool) then
    p ← new_block (Object (Tls None None client FLOM_TLS_MAX_DEPTH_CERT_CHAIN_VERIF None));
    mret (Some p)
  else mret None.

Definition flom_tls_delete (obj : option ptr) : Tm unit :=
  match obj with
  | None => mret tt
  | Some p =>
      o ← tls_at p;
      _ ← flom_tls_cert_delete (tls_cert o);
      _ ← upd_object p (set_cert None);
      _ ← free_block_if_any (tls_ssl o);
      _ ← upd_object p (set_ssl None);
      _ ← free_block_if_any (tls_ctx o);
      _ ← upd_object p (set_ctx None);
      free_block p
  end.

(** Whatever OpenSSL has found, go on. *)
Definition flom_tls_callback (preverify_ok : Z) : Z := 1.

Definition flom_tls_context (p : ptr) : Tm unit :=
  o ← tls_at p;
  _ ← ssl_call FLOM_RC_TLS_NO_VALID_METHOD;
  ok ← ssl_ok;
  if negb ok then _ ← upd_object p (set_ctx None); throw (Rc FLOM_RC_SSL_CTX_NEW_ERROR)
  else
    x ← new_block (Ctx new_context);
    _ ← upd_object p (set_ctx (Some x));
    put_block x (Ctx (Context_of true (negb (tls_client o)) (Some flom_tls_callback) (tls_depth o + 1)
                        None None None)).

Definition flom_tls_set_cert (p : ptr) (cert_file priv_key_file ca_cert_file : option string) : Tm unit :=
  o ← tls_at p;
  x ← of_option Ub (tls_ctx o);
  c ← ctx_at x;
  _ ← ssl_call FLOM_RC_SSL_CTX_USE_CERTIFICATE_FILE_ERROR;
  _ ← put_block x (Ctx (use_files cert_file None None c));
  _ ← ssl_call FLOM_RC_SSL_CTX_USE_PRIVATEKEY_FILE_ERROR;
  _ ← put_block x (Ctx (use_files cert_file priv_key_file None c));
  _ ← ssl_call FLOM_RC_SSL_CTX_CHECK_PRIVATE_KEY_ERROR;
  _ ← ssl_call FLOM_RC_SSL_CTX_LOAD_VERIFY_LOCATIONS_ERROR;
  put_block x (Ctx (use_files cert_file priv_key_file ca_cert_file c)).

(** An SSL object takes the settings of its context. *)
Definition flom_tls_prepare (p : ptr) (sockfd : Z) : Tm ptr :=
  o ← tls_at p;
  _ ← free_block_if_any (tls_ssl o);
  _ ← upd_object p (set_ssl None);
  x ← of_option Ub (tls_ctx o);
  c ← ctx_at x;
  _ ← ssl_call FLOM_RC_SSL_NEW_ERROR;
  ssl ← new_block (Ssl c FLOM_NULL_FD None);
  _ ← upd_object p (set_ssl (Some ssl));
  _ ← ssl_call FLOM_RC_SSL_SET_FD_ERROR;
  _ ← put_block ssl (Ssl c sockfd None);
  _ ← ssl_call FLOM_RC_SSL_SET_EX_DATA_ERROR;
  mret ssl.

(** [SSL_connect] or [SSL_accept], with the next peer *)
Definition negotiate (client : bool) (ssl : ptr) : Tm bool :=
  b ← block_at ssl;
  match b with
  | Ssl c fd _ =>
      peers ← gets t_peers;
      match peers with
      | [] => mret false
      | p :: peers =>
          _ ← modify (put_peers peers);
          match handshake client c p with
          | None => mret false
          | Some r => _ ← put_block ssl (Ssl c fd (Some r)); mret true
          end
      end
  | _ => throw Ub
  end.

(** [flom_tls_connect] and [flom_tls_accept] *)
Definition start_tls (client : bool) (failure : Z) (p : ptr) (sockfd : Z) : Tm unit :=
  ssl ← flom_tls_prepare p sockfd;
  ok ← negotiate client ssl;
  _ ← when (negb ok) (throw (Rc failure));
  cert ← flom_tls_cert_new;
  _ ← upd_object p (set_cert cert);
  flom_tls_cert_parse cert ssl.
Definition flom_tls_connect : ptr -> Z -> Tm unit := start_tls true FLOM_RC_SSL_CONNECT_ERROR.
Definition flom_tls_accept : ptr -> Z -> Tm unit := start_tls false FLOM_RC_SSL_ACCEPT_ERROR.

(** The string that a member of the subject points to *)
Definition text_at (o : option ptr) : Tm (option string) :=
  match o with
  | None => mret None
  | Some p => b ← block_at p; match b with Text x => mret (Some x) | _ => throw Ub end
  end.

Definition flom_tls_cert_check (p : ptr) (peer_unique_id : option string) : Tm unit :=
  o ← tls_at p;
  c ← of_option Ub (tls_cert o);
  c ← certificate c;
  cn ← text_at (subject c !! common_name);
  match cn, peer_unique_id with
  | Some cn, Some id => when (negb (String.eqb cn id)) (throw (Rc FLOM_RC_UNIQUE_ID_DOES_NOT_MATCH))
  | _, _ => throw (Rc FLOM_RC_NULL_OBJECT)
  end.

(** ** A connection *)

(** [flom_conn_init_tls], whose reason code the callers do not look at *)
Definition flom_conn_init_tls (client : bool) : Tm unit :=
  o ← flom_tls_new client;
  modify (put_conn o).

(** [flom_accept_loop_pollin_tls] for a server, and for a client the end of
    [flom_client_connect].  A TLS object that could not be allocated is read by
    [flom_tls_context]. *)
Definition switch_to_tls (client : bool) (cert key ca : option string) (sockfd : Z) : Tm unit :=
  when (given cert && given key && given ca) (
    _ ← flom_conn_init_tls client;
    o ← gets t_conn;
    p ← of_option Ub o;
    _ ← flom_tls_context p;
    _ ← flom_tls_set_cert p cert key ca;
    if client then flom_tls_connect p sockfd else flom_tls_accept p sockfd).
Definition flom_accept_loop_pollin_tls := switch_to_tls false.

(** The check of [flom_accept_loop_pollin] and of [flom_client_lock] *)
Definition check_peer_id (peerid peer_name : option string) : Tm unit :=
  o ← gets t_conn;
  p ← of_option (Rc FLOM_RC_NO_TLS_CONNECTION) o;
  _ ← of_option (Rc FLOM_RC_NULL_OBJECT) peer_name;
  flom_tls_cert_check p peerid.

(** [flom_conn_authenticate] lets a connection without TLS through. *)
Definition flom_conn_authenticate (peer_id : option string) (tls_check_peer_id : bool) : Tm unit :=
  o ← gets t_conn;
  match o with
  | None => mret tt
  | Some p => when tls_check_peer_id (flom_tls_cert_check p peer_id)
  end.

(** The part of [flom_conn_delete] *)
Definition delete_conn_tls : Tm unit :=
  o ← gets t_conn;
  _ ← flom_tls_delete o;
  modify (put_conn None).
End tls.

(** ** The blocks that are owned

    The heap is that of the start and the blocks of a list, whose order does not
    matter. *)
Section owning.
Context `{OpenSSL}.
Variable base : gmap ptr block.
Variable good : bool.

Record holds (conn : option ptr) (l : list (ptr * block)) (s : tls_state) : Prop := Holds {
  h_nodup : NoDup l.*1;
  h_heap : t_heap s = list_to_map l ∪ base;
  h_apart : forall p, p ∈ l.*1 -> base !! p = None;
  h_fresh : forall p, (t_next s <= p)%positive -> t_heap s !! p = None;
  h_conn : t_conn s = conn;
  h_good : good = true -> Forall (eq true) (t_mallocs s)
}.

Lemma holds_perm conn l l' s : l ≡ₚ l' -> holds conn l s -> holds conn l' s.
Proof.
  intros Hp [Hn Hh Ha Hf Hc Hg]. split; [|rewrite Hh| |done..].
  - by rewrite <- Hp.
  - by rewrite (list_to_map_proper l l').
  - intros p. rewrite <- Hp. apply Ha.
Qed.

Lemma holds_at conn p b r s : holds conn ((p, b) :: r) s -> t_heap s !! p = Some b.
Proof. intros [_ -> _ _ _ _]. cbn. apply lookup_union_Some_l, lookup_insert_eq. Qed.

Lemma holds_heap conn l s h :
  holds conn l s -> (forall p, h !! p = None <-> t_heap s !! p = None) ->
  forall l', NoDup l'.*1 -> (forall p, p ∈ l'.*1 -> p ∈ l.*1) -> h = list_to_map l' ∪ base ->
  holds conn l' (put_heap h s).
Proof.
  intros [Hn Hh Ha Hf Hc Hg] Hd l' Hn' Hsub ->. split; [done | done | | |done..]; cbn.
  - intros p Hp. by apply Ha, Hsub.
  - intros p Hp. apply Hd. by apply Hf.
Qed.

Lemma wp_block_at conn l p b r (Q : err + block -> tls_state -> Prop) s :
  holds conn l s -> l ≡ₚ (p, b) :: r -> Q (inr b) s -> wp (block_at p) Q s.
Proof.
  intros Hs Hl HQ. eapply holds_perm in Hs; [|exact Hl]. unfold block_at. wp_steps.
  - rewrite (holds_at _ _ _ _ _ Hs) in *. simplify_eq. done.
  - rewrite (holds_at _ _ _ _ _ Hs) in *. done.
Qed.

Lemma wp_put_block conn l p b b' r (Q : err + unit -> tls_state -> Prop) s :
  holds conn l s -> l ≡ₚ (p, b) :: r -> (forall s', holds conn ((p, b') :: r) s' -> Q (inr tt) s') ->
  wp (put_block p b') Q s.
Proof.
  intros Hs Hl HQ. eapply holds_perm in Hs; [|exact Hl]. unfold put_block. wp_step. apply HQ.
  pose proof (h_nodup _ _ _ Hs) as Hn. pose proof (holds_at _ _ _ _ _ Hs) as Hp.
  eapply holds_heap; [exact Hs | | exact Hn | done |].
  - intros q. destruct (decide (q = p)) as [->|]; [by rewrite lookup_insert_eq, Hp | by rewrite lookup_insert_ne].
  - rewrite (h_heap _ _ _ Hs). cbn. by rewrite insert_union_l, insert_insert_eq.
Qed.

Lemma wp_free_block conn l p b r (Q : err + unit -> tls_state -> Prop) s :
  holds conn l s -> l ≡ₚ (p, b) :: r -> (forall s', holds conn r s' -> Q (inr tt) s') ->
  wp (free_block p) Q s.
Proof.
  intros Hs Hl HQ. unfold free_block. wp_step. eapply wp_block_at; [exact Hs | exact Hl |]. wp_step. apply HQ.
  eapply holds_perm in Hs; [|exact Hl]. destruct Hs as [Hn Hh Ha Hf Hc Hg]. cbn in Hn, Ha.
  apply NoDup_cons in Hn as [Hp Hn]. split; [done | | | |done..]; cbn.
  - rewrite Hh. cbn. rewrite delete_union, delete_insert_id by by apply not_elem_of_list_to_map_1.
    rewrite (delete_id base); [done|]. apply Ha. set_solver.
  - intros q Hq. apply Ha. by right.
  - intros q Hq. destruct (decide (q = p)) as [->|]; [apply lookup_delete_eq|].
    rewrite lookup_delete_ne by done. by apply Hf.
Qed.

Lemma wp_new_block conn l b (Q : err + ptr -> tls_state -> Prop) s :
  holds conn l s -> (forall p s', holds conn ((p, b) :: l) s' -> Q (inr p) s') -> wp (new_block b) Q s.
Proof.
  intros [Hn Hh Ha Hf Hc Hg] HQ. apply HQ.
  assert (Hnew : t_heap s !! t_next s = None) by (apply Hf; lia).
  rewrite Hh in Hnew. apply lookup_union_None in Hnew as [Hnew Hbase].
  split; cbn [new_block snd t_heap t_next t_conn t_mallocs fmap list_fmap fst]; [| | | |done..].
  - apply NoDup_cons. split; [|done]. by apply not_elem_of_list_to_map_2.
  - rewrite Hh. cbn. by rewrite insert_union_l.
  - intros p [->|Hp]%elem_of_cons; [done | by apply Ha].
  - intros p Hp. rewrite lookup_insert_ne by lia. apply Hf. lia.
Qed.

Lemma wp_malloc_ok conn l (Q : err + bool -> tls_state -> Prop) s :
  holds conn l s -> (forall b s', holds conn l s' -> (good = true -> b = true) -> Q (inr b) s') ->
  wp malloc_ok Q s.
Proof.
  intros [Hn Hh Ha Hf Hc Hg] HQ. unfold wp, malloc_ok. destruct (t_mallocs s) as [|b bs] eqn:E; cbn.
  - by apply HQ; [split; auto; by rewrite E | ].
  - apply HQ; [split; cbn; auto|]; intros Hgood; specialize (Hg Hgood).
    + by apply Forall_cons in Hg as [_ Hg].
    + by apply Forall_cons in Hg as [<- _].
Qed.
Lemma wp_ssl_ok conn l (Q : err + bool -> tls_state -> Prop) s :
  holds conn l s -> (forall b s', holds conn l s' -> Q (inr b) s') -> wp ssl_ok Q s.
Proof. intros [] HQ. unfold wp, ssl_ok. by destruct (t_calls s); apply HQ; split. Qed.
Lemma wp_ssl_call conn l rc (Q : err + unit -> tls_state -> Prop) s :
  holds conn l s -> (forall s', holds conn l s' -> Q (inr tt) s') ->
  (forall s', holds conn l s' -> Q (inl (Rc rc)) s') -> wp (ssl_call rc) Q s.
Proof.
  intros Hs HQ He. unfold ssl_call. wp_step. eapply wp_ssl_ok; [exact Hs|]. intros b s' Hs'.
  wp_step; [wp_step; auto | auto].
Qed.
Lemma wp_tls_at conn l p o r (Q : err + flom_tls -> tls_state -> Prop) s :
  holds conn l s -> l ≡ₚ (p, Object o) :: r -> Q (inr o) s -> wp (tls_at p) Q s.
Proof. intros Hs Hl HQ. unfold tls_at. wp_step. eapply wp_block_at; [exact Hs | exact Hl|]. exact HQ. Qed.
Lemma wp_ctx_at conn l p x r (Q : err + context -> tls_state -> Prop) s :
  holds conn l s -> l ≡ₚ (p, Ctx x) :: r -> Q (inr x) s -> wp (ctx_at p) Q s.
Proof. intros Hs Hl HQ. unfold ctx_at. wp_step. eapply wp_block_at; [exact Hs | exact Hl|]. exact HQ. Qed.
Lemma wp_certificate conn l p x r (Q : err + flom_tls_cert -> tls_state -> Prop) s :
  holds conn l s -> l ≡ₚ (p, Certificate x) :: r -> Q (inr x) s -> wp (certificate p) Q s.
Proof. intros Hs Hl HQ. unfold certificate. wp_step. eapply wp_block_at; [exact Hs | exact Hl|]. exact HQ. Qed.
Lemma wp_upd_object conn l p o r f (Q : err + unit -> tls_state -> Prop) s :
  holds conn l s -> l ≡ₚ (p, Object o) :: r ->
  (forall s', holds conn ((p, Object (f o)) :: r) s' -> Q (inr tt) s') -> wp (upd_object p f) Q s.
Proof.
  intros Hs Hl HQ. unfold upd_object. wp_step. eapply wp_tls_at; [exact Hs | exact Hl|].
  by eapply wp_put_block; [exact Hs | exact Hl|].
Qed.
Lemma wp_upd_names conn l c b x r f (Q : err + unit -> tls_state -> Prop) s :
  holds conn l s -> l ≡ₚ (c, Certificate x) :: r ->
  (forall s', holds conn ((c, Certificate (set_names b (f (names_of b x)) x)) :: r) s' -> Q (inr tt) s') ->
  wp (upd_names c b f) Q s.
Proof.
  intros Hs Hl HQ. unfold upd_names. wp_step. eapply wp_certificate; [exact Hs | exact Hl|].
  by eapply wp_put_block; [exact Hs | exact Hl|].
Qed.

(** ** The strings of a structure: their addresses and their texts *)
Definition texts (m : gmap field (ptr * string)) : list (ptr * block) :=
  (fun x => (x.2.1, Text x.2.2)) <$> map_to_list m.
Definition pointers (m : gmap field (ptr * string)) : flom_tls_cert_s := fst <$> m.

Lemma pointers_lookup m f : pointers m !! f = fst <$> m !! f.
Proof. apply lookup_fmap. Qed.
Lemma pointers_insert m f p x : pointers (<[f := (p, x)]> m) = <[f := p]> (pointers m).
Proof. apply fmap_insert. Qed.
Lemma pointers_delete m f : pointers (delete f m) = delete f (pointers m).
Proof. apply fmap_delete. Qed.
Lemma texts_empty : texts ∅ = [].
Proof. unfold texts. by rewrite map_to_list_empty. Qed.
Lemma texts_insert m f p x : m !! f = None -> texts (<[f := (p, x)]> m) ≡ₚ (p, Text x) :: texts m.
Proof. intros Hf. unfold texts. by rewrite map_to_list_insert. Qed.
Lemma texts_delete m f p x : m !! f = Some (p, x) -> texts m ≡ₚ (p, Text x) :: texts (delete f m).
Proof.
  intros Hf. rewrite <- texts_insert by apply lookup_delete_eq. by rewrite insert_delete_id.
Qed.
Lemma names_set b st x : names_of b (set_names b st x) = st.
Proof. by destruct b. Qed.
Lemma names_set_other b st x : names_of (negb b) (set_names b st x) = names_of (negb b) x.
Proof. by destruct b. Qed.

Lemma wp_free_name conn c b f x m r (Q : err + unit -> tls_state -> Prop) s :
  holds conn ((c, Certificate x) :: texts m ++ r) s -> names_of b x = pointers m ->
  (forall s' x', holds conn ((c, Certificate x') :: texts (delete f m) ++ r) s' ->
     names_of b x' = pointers (delete f m) -> names_of (negb b) x' = names_of (negb b) x -> Q (inr tt) s') ->
  wp (free_name c b f) Q s.
Proof.
  intros Hs Hx HQ. unfold free_name. wp_step. eapply wp_certificate; [exact Hs | done|]. rewrite Hx.
  rewrite pointers_lookup. destruct (m !! f) as [[p t]|] eqn:E; cbn.
  - wp_step. eapply wp_free_block with (r := (c, Certificate x) :: texts (delete f m) ++ r); [exact Hs | |].
    + rewrite (texts_delete m f p t E). cbn. apply perm_swap.
    + intros s1 Hs1. eapply wp_upd_names; [exact Hs1 | done|]. intros s2 Hs2.
      eapply HQ; [exact Hs2 | | apply names_set_other].
      by rewrite names_set, Hx, pointers_delete.
  - wp_step. eapply HQ; [ | | done]; rewrite delete_id by done; [exact Hs | done].
Qed.

Lemma wp_free_names conn c b fs r (Q : err + unit -> tls_state -> Prop) : forall s x m,
  holds conn ((c, Certificate x) :: texts m ++ r) s -> names_of b x = pointers m ->
  (forall f, is_Some (m !! f) -> f ∈ fs) ->
  (forall s' x', holds conn ((c, Certificate x') :: r) s' ->
     names_of (negb b) x' = names_of (negb b) x -> Q (inr tt) s') ->
  wp (free_names c b fs) Q s.
Proof.
  induction fs as [|f fs IH]; intros s x m Hs Hx Hm HQ; cbn [free_names].
  - wp_step. replace m with (∅ : gmap field (ptr * string)) in Hs; [rewrite texts_empty in Hs; by eapply HQ|].
    apply map_eq. intros f. rewrite lookup_empty. destruct (m !! f) eqn:E; [|done].
    apply mk_is_Some, Hm, not_elem_of_nil in E as [].
  - wp_step. eapply wp_free_name; [exact Hs | exact Hx|]. intros s1 x1 Hs1 Hx1 Ho1.
    eapply IH; [exact Hs1 | exact Hx1 | |].
    + intros f' [[p t] [Hne Hf']%lookup_delete_Some]. apply mk_is_Some, Hm in Hf'.
      by apply elem_of_cons in Hf' as [->|].
    + intros s2 x2 Hs2 Ho2. eapply HQ; [exact Hs2 | congruence].
Qed.
Lemma wp_struct_delete conn c b x m r (Q : err + unit -> tls_state -> Prop) s :
  holds conn ((c, Certificate x) :: texts m ++ r) s -> names_of b x = pointers m ->
  (forall s' x', holds conn ((c, Certificate x') :: r) s' ->
     names_of (negb b) x' = names_of (negb b) x -> Q (inr tt) s') ->
  wp (flom_tls_cert_struct_delete c b) Q s.
Proof.
  intros Hs Hx HQ. eapply wp_free_names; [exact Hs | exact Hx | | exact HQ].
  intros [] _; repeat (first [by left | right]).
Qed.

(** The values of a field among the entries of a name, as C strings *)
Definition values_of (f : field) (entries : list (Z * string)) : list string :=
  omap (fun e => if bool_decide (field_of_nid e.1 = Some f) then Some (until_nul e.2) else None) entries.
Definition holds_names (m : gmap field (ptr * string)) (entries : list (Z * string)) : Prop :=
  forall f, snd <$> m !! f = last (values_of f entries).
(** No field that the code looks at is there twice. *)
Definition unrepeated (entries : list (Z * string)) : Prop :=
  forall f, (length (values_of f entries) <= 1)%nat.

Lemma values_of_snoc f entries e :
  values_of f (entries ++ [e])%list =
  (values_of f entries ++ if bool_decide (field_of_nid e.1 = Some f) then [until_nul e.2] else [])%list.
Proof. unfold values_of. rewrite omap_app. cbn. by case_bool_decide. Qed.
Lemma holds_names_nil : holds_names ∅ [].
Proof. intros f. by rewrite lookup_empty. Qed.
Lemma holds_names_other m entries e :
  field_of_nid e.1 = None -> holds_names m entries -> holds_names m (entries ++ [e])%list.
Proof.
  intros He Hm f. rewrite values_of_snoc, bool_decide_false by congruence. rewrite app_nil_r. apply Hm.
Qed.
Lemma holds_names_insert m entries e f p :
  field_of_nid e.1 = Some f -> holds_names m entries ->
  holds_names (<[f := (p, until_nul e.2)]> m) (entries ++ [e])%list.
Proof.
  intros He Hm f'. rewrite values_of_snoc. destruct (decide (f' = f)) as [->|Hne].
  - by rewrite bool_decide_true, lookup_insert_eq, last_snoc.
  - rewrite bool_decide_false by congruence. by rewrite lookup_insert_ne, app_nil_r.
Qed.
Lemma unrepeated_fresh m done e rest f :
  field_of_nid e.1 = Some f -> unrepeated (done ++ e :: rest) -> holds_names m done -> m !! f = None.
Proof.
  intros He Hu Hm. specialize (Hu f). specialize (Hm f). unfold values_of in *.
  rewrite omap_app in Hu. cbn in Hu. rewrite bool_decide_true in Hu by done.
  rewrite length_app in Hu. cbn in Hu. destruct (omap _ done) as [|v l]; [|cbn in Hu; lia].
  by destruct (m !! f).
Qed.

(** What one of the structures has after some entries: the blocks are its texts,
    those of [r], and [junk], which is empty when no field is repeated. *)
Definition filled (b : bool) (c : ptr) (x : flom_tls_cert) (m : gmap field (ptr * string))
    (r l : list (ptr * block)) (plain : Prop) : Prop :=
  names_of b x = pointers m /\
  exists junk, l ≡ₚ (c, Certificate x) :: texts m ++ r ++ junk /\ (plain -> junk = []).

Lemma wp_struct_fill conn c b nid str x m done rest r l (Q : err + unit -> tls_state -> Prop) s :
  let plain := unrepeated (done ++ (nid, str) :: rest) in
  holds conn l s -> filled b c x m r l plain -> holds_names m done ->
  (forall s' x' m' l', holds conn l' s' -> filled b c x' m' r l' plain ->
     holds_names m' (done ++ [(nid, str)])%list -> names_of (negb b) x' = names_of (negb b) x ->
     Q (inr tt) s') ->
  (forall s' x' m' l', good = false -> holds conn l' s' -> filled b c x' m' r l' plain ->
     names_of (negb b) x' = names_of (negb b) x -> Q (inl (Rc FLOM_RC_G_STRDUP_ERROR)) s') ->
  wp (flom_tls_cert_struct_fill c b nid str) Q s.
Proof.
  intros plain Hs [Hx (junk & Hl & Hj)] Hm HQ He. unfold flom_tls_cert_struct_fill.
  destruct (field_of_nid nid) as [f|] eqn:Ef.
  - wp_step. eapply wp_malloc_ok; [exact Hs|]. intros ok s1 Hs1 Hok. destruct ok.
    + wp_step. eapply wp_new_block; [exact Hs1|]. intros p s2 Hs2.
      eapply wp_upd_names; [exact Hs2 | |].
      { rewrite Hl. apply perm_swap. }
      intros s3 Hs3.
      apply (HQ s3 (set_names b (<[f := p]> (names_of b x)) x) (<[f := (p, until_nul str)]> m) _ Hs3);
        [|by apply (holds_names_insert m done (nid, str)) | apply names_set_other].
      split; [by rewrite names_set, Hx, pointers_insert|].
      destruct (m !! f) as [[q t]|] eqn:Em.
      * exists ((q, Text t) :: junk). split.
        -- rewrite (texts_delete m f q t Em). rewrite <- insert_delete_eq.
           rewrite texts_insert by apply lookup_delete_eq. cbn. solve_Permutation.
        -- intros Hp. by rewrite (unrepeated_fresh m done (nid, str) rest f) in Em.
      * exists junk. split; [|done]. by rewrite texts_insert.
    + wp_step. eapply wp_upd_names; [exact Hs1 | exact Hl|]. intros s2 Hs2. wp_step.
      assert (Hg : good = false) by (destruct good; [by specialize (Hok eq_refl) | done]).
      apply (He s2 (set_names b (delete f (names_of b x)) x) (delete f m) _ Hg Hs2); [|apply names_set_other].
      split; [by rewrite names_set, Hx, pointers_delete|].
      destruct (m !! f) as [[q t]|] eqn:Em.
      * exists ((q, Text t) :: junk). split.
        -- rewrite (texts_delete m f q t Em). cbn. solve_Permutation.
        -- intros Hp. by rewrite (unrepeated_fresh m done (nid, str) rest f) in Em.
      * exists junk. split; [|done]. by rewrite delete_id.
  - wp_step. eapply HQ; [exact Hs | by split; [|exists junk] | by apply holds_names_other | done].
Qed.

Lemma wp_fill_names conn c b r (Q : err + unit -> tls_state -> Prop) rest : forall done s x m l,
  let plain := unrepeated (done ++ rest) in
  holds conn l s -> filled b c x m r l plain -> holds_names m done ->
  (forall s' x' m' l', holds conn l' s' -> filled b c x' m' r l' plain ->
     holds_names m' (done ++ rest)%list -> names_of (negb b) x' = names_of (negb b) x ->
     Q (inr tt) s') ->
  (forall s' x' m' l', good = false -> holds conn l' s' -> filled b c x' m' r l' plain ->
     names_of (negb b) x' = names_of (negb b) x -> Q (inl (Rc FLOM_RC_G_STRDUP_ERROR)) s') ->
  wp (fill_names c b rest) Q s.
Proof.
  induction rest as [|[nid str] rest IH]; intros done s x m l plain Hs Hf Hm HQ He; cbn [fill_names].
  - wp_step. eapply HQ; [exact Hs | exact Hf | | done]. by rewrite app_nil_r.
  - wp_step. eapply wp_struct_fill; [exact Hs | exact Hf | exact Hm | |].
    + intros s1 x1 m1 l1 Hs1 Hf1 Hm1 Ho1. subst plain.
      eapply (IH (done ++ [(nid, str)])%list); [exact Hs1 | | exact Hm1 | |]; rewrite <- (app_assoc done) in *.
      * exact Hf1.
      * intros s2 x2 m2 l2 Hs2 Hf2 Hm2 Ho2. eapply HQ; [exact Hs2 | exact Hf2 | exact Hm2 | congruence].
      * intros s2 x2 m2 l2 Hg Hs2 Hf2 Ho2. eapply He; [done | exact Hs2 | exact Hf2 | congruence].
    + intros s1 x1 m1 l1 Hg Hs1 Hf1 Ho1. by eapply He.
Qed.

(** A certificate object with what it points to, besides the blocks [r] *)
Definition has_cert (c : ptr) (mi mu : gmap field (ptr * string)) (r l : list (ptr * block))
    (plain : Prop) : Prop :=
  exists junk, l ≡ₚ (c, Certificate (Tls_cert (pointers mi) (pointers mu))) :: texts mi ++ texts mu ++ r ++ junk /\
    (plain -> junk = []).
Definition plain_cert (x : x509) : Prop := unrepeated (x_issuer x) /\ unrepeated (x_subject x).

Lemma cert_names x st st' : names_of false x = st -> names_of true x = st' -> x = Tls_cert st st'.
Proof. by destruct x; cbn; intros -> ->. Qed.

Lemma wp_names conn c x r (Q : err + unit -> tls_state -> Prop) s l :
  holds conn l s -> l ≡ₚ (c, Certificate (Tls_cert ∅ ∅)) :: r ->
  (forall s' l' mi mu, holds conn l' s' -> has_cert c mi mu r l' (plain_cert x) ->
     holds_names mu (x_subject x) -> Q (inr tt) s') ->
  (forall s' l' mi mu, good = false -> holds conn l' s' -> has_cert c mi mu r l' (plain_cert x) ->
     Q (inl (Rc FLOM_RC_G_STRDUP_ERROR)) s') ->
  wp (fill_names c false (x_issuer x)) (fun e s' => match e with
    | inr _ => wp (fill_names c true (x_subject x)) Q s'
    | inl e => Q (inl e) s'
    end) s.
Proof.
  intros Hs Hl HQ He.
  eapply (wp_fill_names conn c false r _ _ [] s (Tls_cert ∅ ∅) ∅); [exact Hs | | apply holds_names_nil | |].
  { split; [done|]. exists []. split; [|done]. rewrite Hl, texts_empty. solve_Permutation. }
  - intros s1 x1 mi l1 Hs1 [Hx1 (j1 & Hl1 & Hj1)] _ Ho1.
    eapply (wp_fill_names conn c true (texts mi ++ r ++ j1) _ _ [] s1 x1 ∅); [exact Hs1 | | apply holds_names_nil | |].
    { split; [exact Ho1|]. exists []. split; [|done]. rewrite Hl1, texts_empty. solve_Permutation. }
    + intros s2 x2 mu l2 Hs2 [Hx2 (j2 & Hl2 & Hj2)] Hm2 Ho2. cbn [negb] in *.
      eapply (HQ s2 l2 mi mu); [exact Hs2 | | exact Hm2]. exists (j1 ++ j2)%list. split.
      * rewrite Hl2. rewrite (cert_names x2 (pointers mi) (pointers mu)); [solve_Permutation | congruence | done].
      * intros [Hpi Hpu]. by rewrite Hj1, Hj2.
    + intros s2 x2 mu l2 Hg Hs2 [Hx2 (j2 & Hl2 & Hj2)] Ho2. cbn [negb] in *.
      eapply (He s2 l2 mi mu); [done | exact Hs2 |]. exists (j1 ++ j2)%list. split.
      * rewrite Hl2. rewrite (cert_names x2 (pointers mi) (pointers mu)); [solve_Permutation | congruence | done].
      * intros [Hpi Hpu]. by rewrite Hj1, Hj2.
  - intros s1 x1 mi l1 Hg Hs1 [Hx1 (j1 & Hl1 & Hj1)] Ho1. eapply (He s1 l1 mi ∅); [done | exact Hs1 |].
    exists j1. split; [|by intros [Hpi _]; apply Hj1].
    rewrite Hl1, texts_empty. rewrite (cert_names x1 (pointers mi) ∅); [|done | by rewrite (Ho1 : names_of true x1 = _)].
    change (pointers ∅) with (fst <$> (∅ : gmap field (ptr * string))). rewrite fmap_empty. solve_Permutation.
Qed.

Definition plain_answer (cert : option x509) : Prop := match cert with Some x => plain_cert x | None => True end.

Lemma wp_handshaken conn l ssl x fd d r (Q : err + (option x509 * Z) -> tls_state -> Prop) s :
  holds conn l s -> l ≡ₚ (ssl, Ssl x fd (Some d)) :: r -> Q (inr d) s -> wp (handshaken ssl) Q s.
Proof. intros Hs Hl HQ. unfold handshaken. wp_step. eapply wp_block_at; [exact Hs | exact Hl|]. exact HQ. Qed.

Lemma has_cert_without c mi mu p b r l plain :
  has_cert c mi mu ((p, b) :: r) l plain -> exists l', l ≡ₚ (p, b) :: l' /\ has_cert c mi mu r l' plain.
Proof.
  intros (j & Hl & Hj).
  exists ((c, Certificate (Tls_cert (pointers mi) (pointers mu))) :: texts mi ++ texts mu ++ r ++ j).
  split; [rewrite Hl; solve_Permutation | by exists j].
Qed.

Lemma wp_cert_parse conn c ssl ctx fd cert v r r0 l (Q : err + unit -> tls_state -> Prop) s :
  holds conn l s -> l ≡ₚ (c, Certificate (Tls_cert ∅ ∅)) :: r -> r ≡ₚ (ssl, Ssl ctx fd (Some (cert, v))) :: r0 ->
  (forall s' l' mi mu x, cert = Some x -> v = X509_V_OK -> holds conn l' s' ->
     has_cert c mi mu r l' (plain_cert x) -> holds_names mu (x_subject x) -> Q (inr tt) s') ->
  (forall rc s' l' mi mu, holds conn l' s' -> has_cert c mi mu r l' (plain_answer cert) -> Q (inl (Rc rc)) s') ->
  wp (flom_tls_cert_parse (Some c) ssl) Q s.
Proof.
  intros Hs Hl Hr HQ He. unfold flom_tls_cert_parse. wp_step.
  eapply wp_handshaken; [exact Hs | |].
  { rewrite Hl, Hr. apply perm_swap. }
  cbn beta iota. wp_step. wp_step; subst cert.
  2: { eapply (He _ s l ∅ ∅); [exact Hs|]. exists []. split; [|done]. rewrite Hl, texts_empty.
       change (pointers ∅) with (fst <$> (∅ : gmap field (ptr * string))). rewrite fmap_empty. solve_Permutation. }
  rename a into x. wp_step. eapply wp_new_block; [exact Hs|]. intros ref s1 Hs1.
  assert (Hfree : forall s' l' mi mu Q', holds conn l' s' ->
    has_cert c mi mu ((ref, X509_reference) :: r) l' (plain_cert x) ->
    (forall s'' l'', holds conn l'' s'' -> has_cert c mi mu r l'' (plain_cert x) -> Q' (inr tt) s'') ->
    wp (free_block ref) Q' s').
  { intros s' l' mi mu Q' Hs' (l'' & Hl'' & Hc)%has_cert_without HQ'.
    eapply wp_free_block; [exact Hs' | exact Hl'' |]. intros s'' Hs''. by eapply HQ'. }
  wp_step. wp_step. apply wp_ret. wp_step.
  eapply wp_mono; [|eapply (wp_names conn c x ((ref, X509_reference) :: r))];
    [intros [e|[]] s2 Hq; [|apply wp_bind; exact Hq]; exact Hq | exact Hs1 | rewrite Hl; apply perm_swap | |];
    cbn beta iota.
  - intros s2 l2 mi mu Hs2 Hc2 Hm2. wp_step; [wp_step|]; (wp_step; eapply Hfree; [exact Hs2 | exact Hc2 |];
      intros s3 l3 Hs3 Hc3; wp_step).
    + by eapply He.
    + eapply HQ; [done | | exact Hs3 | exact Hc3 | exact Hm2]. by apply Z.eqb_eq, negb_false_iff.
  - intros s2 l2 mi mu _ Hs2 Hc2. wp_step. eapply Hfree; [exact Hs2 | exact Hc2 |].
    intros s3 l3 Hs3 Hc3. wp_step. by eapply He.
Qed.

(** ** The blocks of a TLS object *)
Definition part (o : option ptr) (l : list (ptr * block)) : Prop :=
  match o with None => l = [] | Some p => exists b, l = [(p, b)] end.
Definition cert_part (o : option ptr) (l : list (ptr * block)) : Prop :=
  match o with
  | None => l = []
  | Some c => exists mi mu,
      l = ((c, Certificate (Tls_cert (pointers mi) (pointers mu))) :: texts mi ++ texts mu)%list
  end.
Definition belongs (p : ptr) (o : flom_tls) (l : list (ptr * block)) (plain : Prop) : Prop :=
  exists lx ls lc junk, l ≡ₚ (p, Object o) :: lx ++ ls ++ lc ++ junk /\ part (tls_ctx o) lx /\
    part (tls_ssl o) ls /\ cert_part (tls_cert o) lc /\ (plain -> junk = []).

Lemma part_some p b : part (Some p) [(p, b)].
Proof. by eexists. Qed.

Lemma wp_cert_delete conn o lc r l (Q : err + unit -> tls_state -> Prop) s :
  holds conn l s -> l ≡ₚ lc ++ r -> cert_part o lc -> (forall s', holds conn r s' -> Q (inr tt) s') ->
  wp (flom_tls_cert_delete o) Q s.
Proof.
  intros Hs Hl Hc HQ. eapply holds_perm in Hs; [|exact Hl]. destruct o as [c|]; cbn in Hc.
  - destruct Hc as (mi & mu & ->). unfold flom_tls_cert_delete. wp_step.
    eapply (wp_struct_delete conn c false _ mi (texts mu ++ r));
      [eapply holds_perm; [|exact Hs]; solve_Permutation | done |].
    intros s1 [x1i x1u] Hs1 Ho1. cbn in Ho1. subst x1u. wp_step.
    eapply (wp_struct_delete conn c true _ mu r); [exact Hs1 | done |]. intros s2 x2 Hs2 _.
    by eapply wp_free_block; [exact Hs2 | done |].
  - subst lc. unfold flom_tls_cert_delete. wp_step. by apply HQ.
Qed.

Lemma wp_free_block_if_any conn o lo r l (Q : err + unit -> tls_state -> Prop) s :
  holds conn l s -> l ≡ₚ lo ++ r -> part o lo -> (forall s', holds conn r s' -> Q (inr tt) s') ->
  wp (free_block_if_any o) Q s.
Proof.
  intros Hs Hl Hc HQ. destruct o as [p|]; cbn in Hc.
  - destruct Hc as [b ->]. by eapply wp_free_block; [exact Hs | exact Hl |].
  - subst lo. apply wp_ret. eapply HQ, holds_perm; [exact Hl | exact Hs].
Qed.

Lemma wp_tls_delete conn p o l plain (Q : err + unit -> tls_state -> Prop) s :
  holds conn l s -> belongs p o l plain ->
  (forall s' l', holds conn l' s' -> (plain -> l' = []) -> Q (inr tt) s') -> wp (flom_tls_delete (Some p)) Q s.
Proof.
  intros Hs (lx & ls & lc & junk & Hl & Hx & Hss & Hc & Hj) HQ. unfold flom_tls_delete.
  wp_step. eapply wp_tls_at; [exact Hs | exact Hl |]. wp_step.
  eapply (wp_cert_delete conn _ lc ((p, Object o) :: lx ++ ls ++ junk)); [exact Hs | rewrite Hl; solve_Permutation | done |].
  intros s1 Hs1. wp_step. eapply wp_upd_object; [exact Hs1 | done |]. intros s2 Hs2. wp_step.
  eapply (wp_free_block_if_any conn _ ls ((p, Object (set_cert None o)) :: lx ++ junk));
    [exact Hs2 | solve_Permutation | done |].
  intros s3 Hs3. wp_step. eapply wp_upd_object; [exact Hs3 | done |]. intros s4 Hs4. wp_step.
  eapply (wp_free_block_if_any conn _ lx ((p, Object (set_ssl None (set_cert None o))) :: junk));
    [exact Hs4 | solve_Permutation | done |].
  intros s5 Hs5. wp_step. eapply wp_upd_object; [exact Hs5 | done |]. intros s6 Hs6.
  eapply wp_free_block; [exact Hs6 | done |]. intros s7 Hs7. by eapply HQ.
Qed.

(** ** The steps to a secure connection *)
Definition context_for (client : bool) (depth : Z) : context :=
  Context_of true (negb client) (Some flom_tls_callback) (depth + 1) None None None.

Lemma wp_context conn p client d (Q : err + unit -> tls_state -> Prop) s :
  holds conn [(p, Object (Tls None None client d None))] s ->
  (forall x s', holds conn [(x, Ctx (context_for client d)); (p, Object (Tls (Some x) None client d None))] s' ->
     Q (inr tt) s') ->
  (forall rc s', holds conn [(p, Object (Tls None None client d None))] s' -> Q (inl (Rc rc)) s') ->
  wp (flom_tls_context p) Q s.
Proof.
  intros Hs HQ He. unfold flom_tls_context. wp_step. eapply wp_tls_at; [exact Hs | done |].
  wp_step. eapply wp_ssl_call; [exact Hs | | by apply He]. intros s1 Hs1.
  wp_step. eapply wp_ssl_ok; [exact Hs1|]. intros ok s2 Hs2. wp_step.
  - wp_step. eapply wp_upd_object; [exact Hs2 | done |]. intros s3 Hs3. wp_step. by apply He.
  - wp_step. eapply wp_new_block; [exact Hs2|]. intros x s3 Hs3. wp_step.
    eapply wp_upd_object; [exact Hs3 | apply perm_swap |]. intros s4 Hs4.
    eapply wp_put_block; [exact Hs4 | apply perm_swap |]. intros s5 Hs5. by eapply HQ.
Qed.

Lemma wp_set_cert conn p x o c cert key ca (Q : err + unit -> tls_state -> Prop) s :
  holds conn [(x, Ctx c); (p, Object o)] s -> tls_ctx o = Some x ->
  (forall s', holds conn [(x, Ctx (use_files cert key ca c)); (p, Object o)] s' -> Q (inr tt) s') ->
  (forall rc c' s', holds conn [(x, Ctx c'); (p, Object o)] s' -> Q (inl (Rc rc)) s') ->
  wp (flom_tls_set_cert p cert key ca) Q s.
Proof.
  intros Hs Hx HQ He. unfold flom_tls_set_cert. wp_step. eapply wp_tls_at; [exact Hs | apply perm_swap |].
  wp_step. rewrite Hx. apply wp_ret. wp_step. eapply wp_ctx_at; [exact Hs | done |].
  wp_step. eapply wp_ssl_call; [exact Hs | | by apply He]. intros s1 Hs1.
  wp_step. eapply wp_put_block; [exact Hs1 | done |]. intros s2 Hs2.
  wp_step. eapply wp_ssl_call; [exact Hs2 | | by apply He]. intros s3 Hs3.
  wp_step. eapply wp_put_block; [exact Hs3 | done |]. intros s4 Hs4.
  wp_step. eapply wp_ssl_call; [exact Hs4 | | by apply He]. intros s5 Hs5.
  wp_step. eapply wp_ssl_call; [exact Hs5 | | by apply He]. intros s6 Hs6.
  by eapply wp_put_block; [exact Hs6 | done |].
Qed.

(** No peer gives a certificate that has a field twice. *)
Definition plain_peers : Prop := forall client c q cert v,
  handshake client c q = Some (cert, v) -> plain_answer cert.
Definition leftover (conn : option ptr) (s : tls_state) : Prop :=
  exists l, holds conn l s /\
    match conn with None => l = [] | Some p => exists o, belongs p o l plain_peers end.

Lemma leftover_part p o lx ls l s :
  holds (Some p) l s -> l ≡ₚ (p, Object o) :: lx ++ ls -> part (tls_ctx o) lx -> part (tls_ssl o) ls ->
  tls_cert o = None -> leftover (Some p) s.
Proof.
  intros Hs Hl Hx Hss Hc. exists l. split; [done|]. exists o, lx, ls, [], []. rewrite Hc.
  split_and!; [|done..]. by rewrite !app_nil_r.
Qed.
Lemma leftover_cert p o x c b ssl d mi mu l (plain : Prop) s :
  holds (Some p) l s -> has_cert c mi mu [(ssl, b); (x, Ctx d); (p, Object o)] l plain ->
  tls_ctx o = Some x -> tls_ssl o = Some ssl -> tls_cert o = Some c -> (plain_peers -> plain) ->
  leftover (Some p) s.
Proof.
  intros Hs (junk & Hl & Hj) Hx Hssl Hc Hp. exists l. split; [done|].
  exists o, [(x, Ctx d)], [(ssl, b)], ((c, Certificate (Tls_cert (pointers mi) (pointers mu))) :: texts mi ++ texts mu), junk.
  rewrite Hx, Hssl, Hc. split; [rewrite Hl; solve_Permutation|]. cbn. split_and!; [by eexists.. | by do 2 eexists | auto].
Qed.

(** What the negotiation leaves when it succeeds *)
Definition secured (p : ptr) (client : bool) (c : context) (s : tls_state) : Prop :=
  leftover (Some p) s /\ exists o cp cert mi mu q x r l,
    holds (Some p) l s /\
    l ≡ₚ (p, Object o) :: (cp, Certificate cert) :: texts mu ++ r /\ tls_cert o = Some cp /\
    cert = Tls_cert mi (pointers mu) /\
    handshake client c q = Some (Some x, X509_V_OK) /\ holds_names mu (x_subject x).

Lemma wp_negotiate conn client l ssl c fd d r (Q : err + bool -> tls_state -> Prop) s :
  holds conn l s -> l ≡ₚ (ssl, Ssl c fd d) :: r ->
  (forall q a s', handshake client c q = Some a -> holds conn ((ssl, Ssl c fd (Some a)) :: r) s' ->
     Q (inr true) s') ->
  (forall s', holds conn l s' -> Q (inr false) s') -> wp (negotiate client ssl) Q s.
Proof.
  intros Hs Hl HQ He. unfold negotiate. wp_step. eapply wp_block_at; [exact Hs | exact Hl|]. cbn beta iota.
  wp_step. wp_step. wp_step; [wp_step; by apply He|]. rename l0 into peers.
  assert (Hs1 : holds conn l (put_peers peers s)) by (destruct Hs; by split).
  wp_step. wp_step. wp_step; [|wp_step; by apply He].
  wp_step. eapply wp_put_block; [exact Hs1 | exact Hl|]. intros s2 Hs2. wp_step. by eapply HQ.
Qed.

Lemma wp_prepare p x client d c fd (Q : err + ptr -> tls_state -> Prop) s :
  holds (Some p) [(x, Ctx c); (p, Object (Tls (Some x) None client d None))] s ->
  (forall ssl s', holds (Some p)
     [(ssl, Ssl c fd None); (p, Object (Tls (Some x) (Some ssl) client d None)); (x, Ctx c)] s' -> Q (inr ssl) s') ->
  (forall e s', leftover (Some p) s' -> Q (inl (Rc e)) s') ->
  wp (flom_tls_prepare p fd) Q s.
Proof.
  intros Hs HQ He. unfold flom_tls_prepare. wp_step.
  eapply wp_tls_at; [exact Hs | apply perm_swap|]. cbn [tls_ssl tls_ctx free_block_if_any].
  wp_step. apply wp_ret. wp_step. eapply wp_upd_object; [exact Hs | apply perm_swap|]. intros s1 Hs1.
  wp_step. apply wp_ret. wp_step. eapply wp_ctx_at; [exact Hs1 | apply perm_swap|].
  assert (He1 : forall rc s' ssl b, holds (Some p)
    [(p, Object (Tls (Some x) (Some ssl) client d None)); (ssl, b); (x, Ctx c)] s' -> Q (inl (Rc rc)) s').
  { intros rc s' ssl b Hs'. eapply He, (leftover_part p (Tls (Some x) (Some ssl) client d None) [(x, Ctx c)] [(ssl, b)]); [exact Hs' | | apply part_some.. | done].
    solve_Permutation. }
  wp_step. eapply wp_ssl_call; [exact Hs1 | |].
  2: { intros s2 Hs2. by eapply He, (leftover_part p (Tls (Some x) None client d None) [(x, Ctx c)] []); [exact Hs2 | | apply part_some | |]. }
  intros s2 Hs2. wp_step. eapply wp_new_block; [exact Hs2|]. intros ssl s3 Hs3.
  wp_step. eapply wp_upd_object; [exact Hs3 | apply perm_swap|]. intros s4 Hs4.
  wp_step. eapply wp_ssl_call; [exact Hs4 | | by eauto]. intros s5 Hs5.
  wp_step. eapply wp_put_block; [exact Hs5 | apply perm_swap|]. intros s6 Hs6.
  wp_step. eapply wp_ssl_call; [exact Hs6 | |].
  - intros s7 Hs7. wp_step. by apply HQ.
  - intros s7 Hs7. eapply He1, holds_perm; [apply perm_swap | exact Hs7].
Qed.

(** No memory for the object of the certificate *)
Lemma wp_parse_nowhere conn ssl x fd d r l (Q : err + unit -> tls_state -> Prop) s :
  holds conn l s -> l ≡ₚ (ssl, Ssl x fd (Some d)) :: r ->
  (forall rc s', holds conn l s' -> Q (inl (Rc rc)) s') -> (forall s', Q (inl Ub) s') ->
  wp (flom_tls_cert_parse None ssl) Q s.
Proof.
  intros Hs Hl He Hub. unfold flom_tls_cert_parse. wp_step. eapply wp_handshaken; [exact Hs | exact Hl |].
  destruct d as [[cert|] v]; cbn beta iota; wp_step; [apply wp_ret | by apply wp_throw, He].
  wp_step. eapply wp_new_block; [exact Hs|]. intros ref s1 Hs1. wp_step. wp_step. by apply wp_throw.
Qed.

Lemma wp_start_tls p x client d c rc fd (Q : err + unit -> tls_state -> Prop) s :
  holds (Some p) [(x, Ctx c); (p, Object (Tls (Some x) None client d None))] s ->
  (forall s', secured p client c s' -> Q (inr tt) s') ->
  (forall e s', leftover (Some p) s' -> Q (inl (Rc e)) s') ->
  (forall s', good = false -> Q (inl Ub) s') ->
  wp (start_tls client rc p fd) Q s.
Proof.
  intros Hs HQ He Hub. unfold start_tls. wp_step. eapply wp_prepare; [exact Hs | | by apply He].
  intros ssl s1 Hs1. wp_step. eapply wp_negotiate; [exact Hs1 | done | |].
  2: { intros s2 Hs2. wp_step. wp_step; [|done]. wp_step.
       eapply He, (leftover_part p (Tls (Some x) (Some ssl) client d None) [(x, Ctx c)] [(ssl, _)]); [exact Hs2 | | apply part_some.. | done]. solve_Permutation. }
  intros q [cert v] s2 Hq Hs2. do 2 wp_step; [done|]. wp_step. unfold flom_tls_cert_new. wp_step.
  eapply wp_malloc_ok; [exact Hs2|]. intros ok s3 Hs3 Hok. destruct ok.
  - wp_step. eapply wp_new_block; [exact Hs3|]. intros cp s4 Hs4. wp_step. wp_step.
    eapply (wp_upd_object _ _ p _ [(cp, Certificate (Tls_cert ∅ ∅)); (ssl, Ssl c fd (Some (cert, v))); (x, Ctx c)]);
      [exact Hs4 | solve_Permutation |]. intros s5 Hs5.
    set (o := set_cert (Some cp) (Tls (Some x) (Some ssl) client d None)) in *.
    eapply (wp_cert_parse (Some p) cp ssl c fd cert v [(ssl, Ssl c fd (Some (cert, v))); (x, Ctx c); (p, Object o)]);
      [exact Hs5 | solve_Permutation | done | |].
    + intros s6 l6 mi mu xc -> -> Hs6 Hc6 Hm6. apply HQ.
      assert (Hp : plain_peers -> plain_cert xc) by (intros Hp; exact (Hp _ _ _ _ _ Hq)).
      split; [by eapply (leftover_cert p o x cp _ ssl c mi mu l6)|].
      destruct Hc6 as (junk & Hl6 & _).
      eexists o, cp, _, (pointers mi), mu, q, xc, (texts mi ++ [(ssl, _); (x, Ctx c)] ++ junk)%list, l6.
      split; [done|]. split; [rewrite Hl6; solve_Permutation | done].
    + intros e s6 l6 mi mu Hs6 Hc6. eapply He, (leftover_cert p o x cp _ ssl c mi mu l6); [done.. |].
      intros Hp. exact (Hp _ _ _ _ _ Hq).
  - wp_step. wp_step.
    eapply (wp_upd_object _ _ p _ [(ssl, Ssl c fd (Some (cert, v))); (x, Ctx c)]);
      [exact Hs3 | solve_Permutation |]. intros s4 Hs4.
    eapply wp_parse_nowhere; [exact Hs4 | apply perm_swap | |].
    + intros e s5 Hs5. eapply He, (leftover_part p (Tls (Some x) (Some ssl) client d None) [(x, Ctx c)] [(ssl, _)]);
        [exact Hs5 | | apply part_some.. | done]. solve_Permutation.
    + intros s5. apply Hub. destruct good; [by specialize (Hok eq_refl) | done].
Qed.

Lemma wp_init_tls client (Q : err + unit -> tls_state -> Prop) s :
  holds None [] s ->
  (forall p s', holds (Some p) [(p, Object (Tls None None client FLOM_TLS_MAX_DEPTH_CERT_CHAIN_VERIF None))] s' ->
     Q (inr tt) s') ->
  (forall s', good = false -> holds None [] s' -> Q (inr tt) s') -> wp (flom_conn_init_tls client) Q s.
Proof.
  intros Hs HQ Hn. unfold flom_conn_init_tls, flom_tls_new. do 3 wp_step.
  assert (Hs1 : holds None [] (put_initialized true s)) by (destruct Hs; by split).
  wp_step. eapply wp_malloc_ok; [exact Hs1|]. intros ok s2 Hs2 Hok. destruct ok.
  - wp_step. eapply wp_new_block; [exact Hs2|]. intros p s3 Hs3. wp_step. wp_step.
    apply (HQ p). destruct Hs3; by split.
  - wp_step. wp_step. apply Hn; [destruct good; [by specialize (Hok eq_refl) | done]|].
    destruct Hs2; by split.
Qed.

Lemma wp_switch client cert key ca fd (Q : err + unit -> tls_state -> Prop) s :
  holds None [] s ->
  (forall s', given cert && given key && given ca = false -> holds None [] s' -> Q (inr tt) s') ->
  (forall p s', secured p client (use_files cert key ca (context_for client FLOM_TLS_MAX_DEPTH_CERT_CHAIN_VERIF)) s' ->
     Q (inr tt) s') ->
  (forall p e s', leftover (Some p) s' -> Q (inl (Rc e)) s') ->
  (forall s', good = false -> Q (inl Ub) s') -> wp (switch_to_tls client cert key ca fd) Q s.
Proof.
  intros Hs Hplain HQ He Hub. unfold switch_to_tls. wp_step; [|by apply Hplain]. wp_step.
  eapply wp_init_tls; [exact Hs | | ].
  2: { intros s1 Hg Hs1. wp_step. wp_step. wp_step. rewrite (h_conn _ _ _ Hs1). apply wp_throw. by apply Hub. }
  intros p s1 Hs1. wp_step. wp_step. wp_step. rewrite (h_conn _ _ _ Hs1). apply wp_ret. wp_step.
  eapply wp_context; [exact Hs1 | |].
  2: { intros e s2 Hs2. by eapply He, (leftover_part p (Tls None None client _ None) [] []). }
  intros x s2 Hs2. wp_step. eapply wp_set_cert; [exact Hs2 | done | |].
  2: { intros e c s3 Hs3.
       eapply He, (leftover_part p (Tls (Some x) None client _ None) [(x, Ctx c)] []);
         [exact Hs3 | apply perm_swap | apply part_some | done | done]. }
  intros s3 Hs3. by destruct client; eapply wp_start_tls; eauto.
Qed.

(** The names that were read of the certificate *)
Lemma wp_cert_check p client c id (Q : err + unit -> tls_state -> Prop) s :
  secured p client c s ->
  (forall q x i, handshake client c q = Some (Some x, X509_V_OK) -> id = Some i ->
     last (values_of common_name (x_subject x)) = Some i -> Q (inr tt) s) ->
  (forall rc, Q (inl (Rc rc)) s) ->
  wp (flom_tls_cert_check p id) Q s.
Proof.
  intros (_ & o & cp & cert & mi & mu & q & x & r & l & Hs & Hl & Ho & -> & Hq & Hm) HQ He.
  unfold flom_tls_cert_check. wp_step. eapply wp_tls_at; [exact Hs | exact Hl|]. wp_step. rewrite Ho. apply wp_ret.
  wp_step. eapply (wp_certificate _ _ cp _ ((p, Object o) :: texts mu ++ r)); [exact Hs | rewrite Hl; apply perm_swap|].
  wp_step. cbn [subject]. rewrite pointers_lookup. specialize (Hm common_name).
  destruct (mu !! common_name) as [[pt t]|] eqn:Et; cbn [fmap option_fmap option_map fst snd] in *.
  - unfold text_at. wp_step.
    eapply (wp_block_at _ _ pt (Text t) ((p, Object o) :: (cp, Certificate (Tls_cert mi (pointers mu))) ::
      texts (delete common_name mu) ++ r)); [exact Hs | |].
    { rewrite Hl, (texts_delete _ _ _ _ Et). solve_Permutation. }
    cbn beta iota. wp_step. destruct id as [i|]; [|by wp_step].
    wp_step; [by wp_step|]. eapply HQ; [exact Hq | done|]. rewrite <- Hm. do 2 f_equal.
    by apply String.eqb_eq, negb_false_iff.
  - unfold text_at. wp_step. by wp_step.
Qed.
End owning.

(** ** Who the peer is, and what is left of the memory *)

(** With the verification of the peer asked for, OpenSSL answers [X509_V_OK] for
    a certificate that the authority trusts, even when the callback has let
    everything through. *)
Class Verifies `{OpenSSL} (trusted : option string -> x509 -> Prop) : Prop :=
  verifies : forall client c q x, ctx_verify_peer c = true ->
    handshake client c q = Some (Some x, X509_V_OK) -> trusted (ctx_ca c) x.

Definition sound_heap `{OpenSSL} (s : tls_state) : Prop :=
  forall p, (t_next s <= p)%positive -> t_heap s !! p = None.

Section secure.
Context `{OpenSSL}.

Lemma holds_start good s :
  sound_heap s -> t_conn s = None -> (good = true -> Forall (eq true) (t_mallocs s)) ->
  holds (t_heap s) good None [] s.
Proof.
  intros Hf Hc Hg. split; [apply NoDup_nil_2 | symmetry; apply (left_id_L ∅ (∪)) | | done..].
  by intros p Hp%not_elem_of_nil.
Qed.

Lemma wp_check_peer base good p client c id name (Q : err + unit -> tls_state -> Prop) s :
  secured base good p client c s ->
  (forall q x i, handshake client c q = Some (Some x, X509_V_OK) -> id = Some i ->
     last (values_of common_name (x_subject x)) = Some i -> Q (inr tt) s) ->
  (forall rc, Q (inl (Rc rc)) s) -> wp (check_peer_id id name) Q s.
Proof.
  intros Hs HQ He. assert (Hc : t_conn s = Some p) by (destruct Hs as [(l & Hl & _) _]; apply Hl).
  unfold check_peer_id. wp_step. wp_step. wp_step. rewrite Hc. apply wp_ret. wp_step.
  destruct name as [name|]; [apply wp_ret | by apply wp_throw]. by eapply wp_cert_check.
Qed.

(** C26: safety.  On both sides, a peer that passes the check of its identifier is
    the one its certificate names: the certificate is one that the configured
    authority trusts, although the callback of the verification accepts
    everything, and the identifier is the last common name of its subject, up to
    a NUL. *)
Theorem peer_authenticated trusted `{!Verifies trusted} client cert key ca fd id name s :
  sound_heap s -> t_conn s = None ->
  wp (_ ← switch_to_tls client cert key ca fd; check_peer_id id name) (fun r _ => match r with
    | inr _ => exists x i, trusted ca x /\ id = Some i /\
        last (values_of common_name (x_subject x)) = Some i
    | inl _ => True
    end) s.
Proof.
  intros Hf Hc. wp_step. apply (wp_switch (t_heap s) false); [by apply holds_start | | | done | done].
  - intros s1 _ Hs1. unfold check_peer_id. wp_step. wp_step. wp_step. by rewrite (h_conn _ _ _ _ _ Hs1).
  - intros p s1 Hs1. eapply wp_check_peer; [exact Hs1 | | done].
    intros q x i Hq Hi Hx. exists x, i. split; [|done]. by apply (verifies _ _ _ _ (eq_refl : ctx_verify_peer (use_files cert key ca (context_for client 3)) = true) Hq).
Qed.

(** The life of the TLS object of a connection *)
Definition tls_life (client : bool) (cert key ca : option string) (fd : Z) (id name : option string) : Tm unit :=
  _ ← attempt (_ ← switch_to_tls client cert key ca fd; check_peer_id id name);
  delete_conn_tls.

Lemma wp_delete_conn_tls base good conn (Q : err + unit -> tls_state -> Prop) s :
  leftover base good conn s -> plain_peers ->
  (forall s', t_heap s' = base -> t_conn s' = None -> Q (inr tt) s') -> wp delete_conn_tls Q s.
Proof.
  intros (l & Hs & Hl) Hp HQ. unfold delete_conn_tls. wp_step. wp_step. rewrite (h_conn _ _ _ _ _ Hs).
  assert (Hend : forall s', holds base good conn [] s' -> Q (inr tt) (put_conn None s')).
  { intros s' Hs'. apply HQ; [|done]. cbn. rewrite (h_heap _ _ _ _ _ Hs'). apply (left_id_L ∅ (∪)). }
  wp_step. destruct conn as [p|].
  - destruct Hl as [o Hl]. eapply wp_tls_delete; [exact Hs | exact Hl|]. intros s1 l1 Hs1 Hl1. wp_step.
    apply Hend. by rewrite Hl1 in Hs1.
  - subst l. apply wp_ret. wp_step. by apply Hend.
Qed.

(** C27: safety.  When the allocations succeed and no peer gives a certificate that
    has a field twice ([repeated_field_leaks]), whatever OpenSSL answers, and wherever
    the negotiation or the
    check of the peer ends, no memory is read or freed that is not allocated, and
    when the connection is deleted the memory is what it was before. *)
Theorem tls_memory_released client cert key ca fd id name s :
  plain_peers -> Forall (eq true) (t_mallocs s) -> sound_heap s -> t_conn s = None ->
  wp (tls_life client cert key ca fd id name) (fun r s' =>
    r = inr tt /\ t_heap s' = t_heap s /\ t_conn s' = None) s.
Proof.
  intros Hp Hm Hf Hc. unfold tls_life. wp_step. wp_step. wp_step.
  assert (Hend : forall conn s', leftover (t_heap s) true conn s' ->
    wp delete_conn_tls (fun r s'' => r = inr tt /\ t_heap s'' = t_heap s /\ t_conn s'' = None) s').
  { intros conn s' Hs'. by eapply wp_delete_conn_tls; [exact Hs' | done|]. }
  apply (wp_switch (t_heap s) true); [by apply holds_start | | | | done].
  - intros s1 _ Hs1. unfold check_peer_id. wp_step. wp_step. wp_step. rewrite (h_conn _ _ _ _ _ Hs1).
    apply (Hend None). by exists [].
  - intros p s1 Hs1. pose proof Hs1 as [Hl _].
    eapply wp_check_peer; [exact Hs1 | by intros; apply (Hend (Some p)).. ].
  - intros p e s1 Hs1. by apply (Hend (Some p)).
Qed.
End secure.

(** ** Concrete peers

    The authority of the file ca.pem has issued the certificates whose issuer is
    it; a peer is a place in a list of certificates, or has none. *)
Definition demo_issuer : list (Z * string) := [(NID_commonName, "CA")].
Definition issued (ca : option string) (x : x509) : bool :=
  bool_decide (ca = Some "ca.pem") && bool_decide (x_issuer x = demo_issuer).
Definition demo_openssl (certs : list x509) : OpenSSL := {|
  peer := nat;
  handshake := fun client c q =>
    match certs !! q with
    | Some x => Some (Some x, if issued (ctx_ca c) x then X509_V_OK else 19)
    | None => if ctx_fail_if_no_peer_cert c then None else Some (None, X509_V_OK)
    end |}.
#[export] Instance demo_verifies certs : @Verifies (demo_openssl certs) (fun ca x => issued ca x = true).
Proof.
  intros client c q x _. cbn. case_match; [|by case_match].
  intros [= -> Hv]. by destruct (issued (ctx_ca c) x).
Qed.

Definition ann : x509 := X509 demo_issuer [(NID_organizationName, "flom"); (NID_commonName, "ann")].
Definition stranger : x509 := X509 [(NID_commonName, "me")] [(NID_commonName, "ann")].
Definition two_units : x509 := X509 demo_issuer
  [(NID_organizationalUnitName, "lab"); (NID_organizationalUnitName, "floor 3"); (NID_commonName, "bob")].
Definition long_ann : x509 := X509 demo_issuer [(NID_commonName, "ann" ++ String Ascii.zero ".example.com")].

Definition demo_tls (certs : list x509) (q : nat) : @tls_state (demo_openssl certs) :=
  @Tls_state (demo_openssl certs) ∅ 1%positive [] [] [q] false None.
Definition demo_switch (certs : list x509) (client : bool) (id : string) :=
  (_ ← @switch_to_tls (demo_openssl certs) client (Some "cert.pem") (Some "key.pem") (Some "ca.pem") 5;
   @check_peer_id (demo_openssl certs) (Some id) (Some "10.0.0.2")).
Definition demo_tls_life (certs : list x509) (id : string) :=
  @tls_life (demo_openssl certs) false (Some "cert.pem") (Some "key.pem") (Some "ca.pem") 5 (Some id) (Some "10.0.0.2").

Example demo_refusals :
  (demo_switch [ann; stranger] false "ann" (demo_tls _ 1)).1 = inl (Rc FLOM_RC_SSL_GET_VERIFY_RESULT_ERROR) /\
  (demo_switch [ann; stranger] false "bob" (demo_tls _ 0)).1 = inl (Rc FLOM_RC_UNIQUE_ID_DOES_NOT_MATCH) /\
  (demo_switch [ann; stranger] false "ann" (demo_tls _ 2)).1 = inl (Rc FLOM_RC_SSL_ACCEPT_ERROR) /\
  (demo_switch [ann; stranger] true "ann" (demo_tls _ 2)).1 = inl (Rc FLOM_RC_NO_CERTIFICATE).
Proof. vm_compute. split_and!; reflexivity. Qed.

(** error.  The bytes of a name are read up to a NUL: a certificate for another
    name passes the check. *)
Theorem name_with_nul_accepted :
  (demo_switch [long_ann] false "ann" (demo_tls _ 0)).1 = inr tt.
Proof. vm_compute. reflexivity. Qed.

(** error.  A field that a name has twice leaves a string that nothing frees. *)
Theorem repeated_field_leaks :
  let '(r, s) := demo_tls_life [two_units] "bob" (demo_tls _ 0) in
  r = inr tt /\ map_to_list (t_heap s) = [(7%positive, Text "lab")].
Proof. vm_compute. split_and!; reflexivity. Qed.

(** ** Witnesses *)
Lemma demo_sound_heap certs q : @sound_heap (demo_openssl certs) (demo_tls certs q).
Proof. intros p _. apply lookup_empty. Qed.
Lemma demo_plain_peers certs : Forall plain_cert certs -> @plain_peers (demo_openssl certs).
Proof.
  intros Hu client c q cert v. cbn. case_match eqn:E; [|case_match; [done|]]; intros [= <- _]; [|done].
  exact (Forall_lookup_1 plain_cert certs _ x Hu E).
Qed.
Lemma demo_plain : @plain_peers (demo_openssl [ann; stranger]).
Proof.
  apply demo_plain_peers, Forall_cons_2, Forall_cons_2, Forall_nil_2; split; intros []; vm_compute; lia.
Qed.

Lemma peer_authenticated_witness :
  (demo_switch [ann; stranger] false "ann" (demo_tls _ 0)).1 = inr tt /\
  exists x, issued (Some "ca.pem") x = true /\ last (values_of common_name (x_subject x)) = Some "ann".
Proof.
  assert (Hr : (demo_switch [ann; stranger] false "ann" (demo_tls _ 0)).1 = inr tt) by (vm_compute; reflexivity).
  split; [exact Hr|].
  pose proof (@peer_authenticated (demo_openssl [ann; stranger]) _ (demo_verifies _) false (Some "cert.pem")
    (Some "key.pem") (Some "ca.pem") 5 (Some "ann") (Some "10.0.0.2") (demo_tls _ 0)
    (demo_sound_heap _ 0) eq_refl) as Hwp.
  unfold wp in Hwp. fold (demo_switch [ann; stranger] false "ann") in Hwp. rewrite Hr in Hwp.
  destruct Hwp as (x & i & Hx & Hi & Hn). injection Hi as <-. exists x. exact (conj Hx Hn).
Defined.

Lemma tls_memory_released_witness :
  let '(r, s) := demo_tls_life [ann; stranger] "bob" (demo_tls _ 0) in r = inr tt /\ t_heap s = ∅.
Proof.
  pose proof (@tls_memory_released (demo_openssl [ann; stranger]) false (Some "cert.pem")
    (Some "key.pem") (Some "ca.pem") 5 (Some "bob") (Some "10.0.0.2") (demo_tls _ 0)
    demo_plain (Forall_nil_2 _) (demo_sound_heap _ 0) eq_refl) as Hwp.
  unfold wp in Hwp. fold (demo_tls_life [ann; stranger] "bob") in Hwp. revert Hwp.
  generalize (demo_tls_life [ann; stranger] "bob" (demo_tls _ 0)). intros [r s] (Hr & Hh & _).
  exact (conj Hr Hh).
Defined.
