(* ===== verification/Listen.v ===== *)
(** * Listen: the sockets a daemon waits on

    [flom_listen] of [src/src/flom_daemon.c] with what it opens for each
    transport: a socket of the file system, a TCP socket at a configured address
    ([flom_tcp_listen] of [src/src/flom_tcp.c]) or at an ephemeral port, and the
    UDP socket that answers to discoveries; [flom_conn_init] of
    [src/src/flom_conn.c], which prepares the connection object of each, and
    [flom_listen_clean].  The file system is a parameter: a daemon shares it
    with the others. *)
From Stdlib Require Import ZArith String Ascii List Lia.
From stdpp Require Import base list gmap numbers strings.
From S2P Require Import Prelude Types CStr RsrcName Msg MsgXml Vfs World Config.
From S2P Require Import ConnLock Conns Locker Daemon Connect Client.
Local Open Scope string_scope.
Local Open Scope Z_scope.

Definition ENOENT : Z := 2.

(** ** The file system

    [sys_open] creates a lock file, [sys_flock] asks for its exclusive lock
    without waiting, [sys_unlink] answers 0 or the error number, and [sys_bind]
    puts a socket at a path.  The first argument is the process. *)
Class FileSystem : Type := {
  files : Type;
  sys_open : Z -> string -> files -> bool * files;
  sys_flock : Z -> string -> files -> bool * files;
  sys_unlink : Z -> string -> files -> Z * files;
  sys_bind : Z -> string -> files -> bool * files
}.

(** A process: its identifier, what a client has, the answers to come of
    [getsockname] (the family and the port) and the bytes that follow its
    socket name in memory; then the files. *)
Record process `{FileSystem} : Type := Process {
  p_pid : Z;
  p_client : client;
  p_names : list (option (family * Z));
  p_after : string;
  p_files : files
}.

(** ** [flom_conn_init] *)
Definition set_uid (uid : Z) (o : flom_conn) : flom_conn :=
  Conn uid (c_state o) (c_wait o) (c_last_step o) None (c_tls o) 0 (c_msg o).

Definition known_domain (domain : Z) : bool :=
  (domain =? AF_UNIX) || (domain =? AF_INET) || (domain =? AF_INET6).

Definition flom_conn_init (c : conn_ref) (uid domain fd : Z) (main_thread : bool) : Km unit :=
  _ ← on_kworld (store c (set_uid uid));
  _ ← when (negb (known_domain domain)) (throw (Rc FLOM_RC_OBJ_CORRUPTED));
  _ ← on_kworld (store c (fun o => set_wait false (set_conn_state
        (if main_thread then FLOM_CONN_STATE_DAEMON else FLOM_CONN_STATE_LOCKER) (set_fd fd o))));
  ok ← sys_ok;
  when (negb ok) (throw (Rc FLOM_RC_G_MARKUP_PARSE_CONTEXT_NEW_ERROR)).

Definition conns_domain : Km Z := on_knet (gets (fun n => cs_domain (n_conns n))).

(** A new connection object for a listener is added to the table, or deleted. *)
Definition add_listener (fd : Z) : Km conn_ref :=
  c ← flom_conn_new;
  uid ← on_knet flom_conns_get_new_uid;
  domain ← conns_domain;
  r ← attempt (flom_conn_init c uid domain fd true);
  match r with
  | inl rc => _ ← on_kworld (flom_conn_delete c); throw (Rc rc)
  | inr _ => _ ← on_knet (flom_conns_add_conn c); mret c
  end.

(** The descriptor is closed unless the call succeeds. *)
Definition closing {A} (fd : Z) (m : Km A) : Km A :=
  r ← attempt m;
  match r with
  | inl rc => _ ← sys_close fd; throw (Rc rc)
  | inr a => mret a
  end.

(** ** TCP *)

(** The answers of an address: [setsockopt], [bind], [setsockopt] for the
    multicast group *)
Definition reuse_ok (a : addr) : bool := default true (ai_options a !! 0%nat).
Definition bind_ok (a : addr) : bool := default true (ai_options a !! 1%nat).
Definition member_ok (a : addr) : bool := default true (ai_options a !! 2%nat).

Section listen.
Context `{FileSystem}.

(** The scope that an address is given: the one of the network interface, when
    there is one *)
Definition scope_of (cf : config_ref) (a : addr) : Km (option Z) :=
  match ai_family a with
  | Inet6 =>
      interface ← on_configs (flom_config_get_network_interface cf);
      if given interface then scope ← on_configs (get_int sin6_scope_id cf); mret (Some scope)
      else mret None
  | _ => mret None
  end.

Fixpoint bind_first (cf : config_ref) (l : list addr) : Km (option (Z * option Z)) :=
  match l with
  | [] => mret None
  | a :: l =>
      scope ← scope_of cf a;
      o ← sys_socket;
      match o with
      | None => bind_first cf l
      | Some fd =>
          if reuse_ok a && bind_ok a then mret (Some (fd, scope))
          else _ ← sys_close fd; bind_first cf l
      end
  end.

(** The socket, and the scope it is bound in *)
Definition flom_tcp_listen (cf : config_ref) : Km (Z * option Z) :=
  _ ← on_configs (flom_config_get_unicast_address cf);
  l ← sys_getaddrinfo;
  l ← of_option (Rc FLOM_RC_GETADDRINFO_ERROR) l;
  found ← bind_first cf l;
  '(fd, scope) ← of_option (Rc FLOM_RC_BIND_ERROR) found;
  closing fd (
    ok ← sys_ok;
    _ ← when (negb ok) (throw (Rc FLOM_RC_LISTEN_ERROR));
    mret (fd, scope)).

(** A failure after the socket is bound leaves it open. *)
Definition flom_listen_tcp_configured (cf : config_ref) : Km conn_ref :=
  '(fd, _) ← flom_tcp_listen cf;
  add_listener fd.

Definition Pm (A : Type) : Type := M err process A.
Definition put_client (x : client) (p : process) : process :=
  Process _ (p_pid p) x (p_names p) (p_after p) (p_files p).
Definition put_files (x : files) (p : process) : process :=
  Process _ (p_pid p) (p_client p) (p_names p) (p_after p) x.
Definition on_client {A} (m : Km A) : Pm A := zoom p_client put_client m.
Definition on_files {A} (f : Z -> files -> A * files) : Pm A := fun p =>
  let '(a, x) := f (p_pid p) (p_files p) in (inr a, put_files x p).

(** [getsockname] *)
Definition sys_getsockname : Pm (option (family * Z)) := fun p =>
  match p_names p with
  | [] => (inr None, p)
  | x :: l => (inr x, Process _ (p_pid p) (p_client p) l (p_after p) (p_files p))
  end.

Definition closing_p {A} (fd : Z) (m : Pm A) : Pm A :=
  r ← attempt m;
  match r with
  | inl rc => _ ← on_client (sys_close fd); throw (Rc rc)
  | inr a => mret a
  end.

(** An ephemeral port of any address, written in the configuration *)
Definition flom_listen_tcp_automatic (cf : config_ref) : Pm conn_ref :=
  domain ← on_client conns_domain;
  o ← on_client sys_socket;
  fd ← of_option (Rc FLOM_RC_SOCKET_ERROR) o;
  closing_p fd (
    ok ← on_client sys_ok;
    _ ← when (negb ok) (throw (Rc FLOM_RC_SETSOCKOPT_ERROR));
    _ ← when (negb ((domain =? AF_INET) || (domain =? AF_INET6)))
          (throw (Rc FLOM_RC_INVALID_AI_FAMILY_ERROR));
    ok ← on_client sys_ok;
    _ ← when (negb ok) (throw (Rc FLOM_RC_BIND_ERROR));
    ok ← on_client sys_ok;
    _ ← when (negb ok) (throw (Rc FLOM_RC_LISTEN_ERROR));
    name ← sys_getsockname;
    '(f, port) ← of_option (Rc FLOM_RC_GETSOCKNAME_ERROR) name;
    any ← match f with
          | Inet => mret FLOM_INADDR_ANY_STRING
          | Inet6 => mret FLOM_INADDR6_ANY_STRING
          | OtherFamily => throw (Rc FLOM_RC_INVALID_AI_FAMILY_ERROR)
          end;
    _ ← on_client (on_configs (flom_config_set_unicast_address cf (Some any)));
    _ ← on_client (on_configs (flom_config_set_unicast_port cf (uint16 port)));
    on_client (add_listener fd)).

Definition flom_listen_tcp (cf : config_ref) : Pm conn_ref :=
  address ← on_client (on_configs (flom_config_get_unicast_address cf));
  if given address then on_client (flom_listen_tcp_configured cf)
  else flom_listen_tcp_automatic cf.

(** ** UDP *)
Fixpoint join_group (l : list addr) : Km (option (family * Z)) :=
  match l with
  | [] => mret None
  | a :: l =>
      o ← sys_socket;
      match o with
      | None => join_group l
      | Some fd =>
          if reuse_ok a && bind_ok a then
            match ai_family a with
            | OtherFamily => _ ← sys_close fd; throw (Rc FLOM_RC_INVALID_AI_FAMILY_ERROR)
            | f => if member_ok a then mret (Some (f, fd)) else _ ← sys_close fd; join_group l
            end
          else _ ← sys_close fd; join_group l
      end
  end.

(** The part of [flom_listen_udp] that has a multicast address.
    [flom_conn_init] copies the address of the group in the size of the domain of
    the daemon: an IPv4 one is shorter than an IPv6 one. *)
Definition multicast_listener (cf : config_ref) : Km conn_ref :=
  domain ← conns_domain;
  _ ← on_configs (flom_config_get_network_interface cf);
  _ ← when (negb ((domain =? AF_INET) || (domain =? AF_INET6)))
        (throw (Rc FLOM_RC_INVALID_AI_FAMILY_ERROR));
  l ← sys_getaddrinfo;
  l ← of_option (Rc FLOM_RC_GETADDRINFO_ERROR) l;
  found ← join_group l;
  '(f, fd) ← of_option (Rc FLOM_RC_CONNECT_ERROR) found;
  closing fd (
    _ ← match f with
        | Inet => when (domain =? AF_INET6) (throw Ub)
        | _ => mret tt
        end;
    add_listener fd).

Definition flom_listen_udp (cf : config_ref) : Km (option conn_ref) :=
  address ← on_configs (flom_config_get_multicast_address cf);
  if negb (given address) then mret None
  else c ← multicast_listener cf; mret (Some c).

(** ** A local socket *)

(** [memcpy] of [LOCAL_SOCKET_SIZE] bytes, whatever the length of the name: the
    bytes that follow it are read too.  The path is what comes before a NUL. *)
Definition sun_path (after name : string) : string :=
  until_nul (String.substring 0 (Z.to_nat LOCAL_SOCKET_SIZE) (name ++ String zero after)).

Definition lock_filename (name : string) : string := name ++ ".lock".

(** Neither the socket nor the lock file is closed on error. *)
Definition flom_listen_local (cf : config_ref) : Pm conn_ref :=
  name ← on_client (on_configs (flom_config_get_socket_name cf));
  name ← of_option Ub name;
  ok ← on_client (on_kworld g_try_malloc);
  _ ← when (negb ok) (throw (Rc FLOM_RC_G_TRY_MALLOC_ERROR));
  ok ← on_files (fun pid => sys_open pid (lock_filename name));
  _ ← when (negb ok) (throw (Rc FLOM_RC_OPEN_ERROR));
  ok ← on_files (fun pid => sys_flock pid (lock_filename name));
  _ ← when (negb ok) (throw (Rc FLOM_RC_FLOCK_ERROR));
  o ← on_client sys_socket;
  fd ← of_option (Rc FLOM_RC_SOCKET_ERROR) o;
  errno ← on_files (fun pid => sys_unlink pid name);
  _ ← when (negb (errno =? 0) && negb (errno =? ENOENT)) (throw (Rc FLOM_RC_UNLINK_ERROR));
  after ← gets p_after;
  ok ← on_files (fun pid => sys_bind pid (sun_path after name));
  _ ← when (negb ok) (throw (Rc FLOM_RC_BIND_ERROR));
  ok ← on_client sys_ok;
  _ ← when (negb ok) (throw (Rc FLOM_RC_LISTEN_ERROR));
  on_client (add_listener fd).

(** ** [flom_listen]: the datagram listener, when there is one *)
Definition flom_listen (cf : config_ref) : Pm (option conn_ref) :=
  domain ← on_client conns_domain;
  if domain =? AF_UNIX then _ ← flom_listen_local cf; mret None
  else if (domain =? AF_INET) || (domain =? AF_INET6) then
    _ ← flom_listen_tcp cf;
    on_client (flom_listen_udp cf)
  else throw (Rc FLOM_RC_INVALID_OPTION).

(** ** [flom_listen_clean] *)
Definition flom_listen_clean (cf : config_ref) : Pm unit :=
  domain ← on_client conns_domain;
  _ ← on_client (on_knet flom_conns_free);
  when (domain =? AF_UNIX) (
    name ← on_client (on_configs (flom_config_get_socket_name cf));
    name ← of_option Ub name;
    _ ← on_files (fun pid => sys_unlink pid name);
    mret tt).

(** [flom_conn_set_keepalive]: the value of each option that is set *)
Definition flom_conn_set_keepalive (cf : config_ref) (fd : Z) : Km (list Z) :=
  _ ← when (fd =? FLOM_NULL_FD) (throw (Rc FLOM_RC_NULL_OBJECT));
  ok ← sys_ok;
  _ ← when (negb ok) (throw (Rc FLOM_RC_SETSOCKOPT_ERROR));
  time ← on_configs (get_int tcp_keepalive_time cf);
  ok ← sys_ok;
  _ ← when (negb ok) (throw (Rc FLOM_RC_SETSOCKOPT_ERROR));
  intvl ← on_configs (get_int tcp_keepalive_intvl cf);
  ok ← sys_ok;
  _ ← when (negb ok) (throw (Rc FLOM_RC_SETSOCKOPT_ERROR));
  probes ← on_configs (get_int tcp_keepalive_probes cf);
  ok ← sys_ok;
  _ ← when (negb ok) (throw (Rc FLOM_RC_SETSOCKOPT_ERROR));
  mret [1; time; intvl; probes].
End listen.

(** ** What the calls of a listener leave alone *)
Definition domain_of (k : client) : Z := cs_domain (n_conns (k_net k)).
Definition table_of (k : client) : list conn_ref := cs_array (n_conns (k_net k)).

Lemma fresh_conn_new w : w_conns w !! fresh_conn w = None.
Proof.
  assert (Hmax : forall m : gmap conn_ref flom_conn, forall k o, m !! k = Some o ->
    (k <= map_fold (fun k _ acc => Pos.max k acc) 1 m)%positive).
  { intros m. induction m as [|k0 o0 m Hk0 Hfold IH] using map_first_key_ind; intros k o.
    - by rewrite lookup_empty.
    - rewrite map_fold_insert_first_key by done.
      intros [[<- <-]|[Hne Hk]]%lookup_insert_Some; [lia|]. apply IH in Hk. lia. }
  destruct (w_conns w !! fresh_conn w) as [o|] eqn:Ho; [|done]. apply Hmax in Ho.
  unfold fresh_conn in Ho. lia.
Qed.

Lemma untouched_next_input {A B} (f : client -> B) get put (none : A) :
  (forall l s, f (put l s) = f s) -> untouched f (next_input get put none).
Proof. intros Hp s. unfold next_input. destruct (get s); [done | apply Hp]. Qed.
Lemma untouched_on_knet {A B} (f : client -> B) (m : Cm A) :
  (forall x s, f (put_knet x s) = f s) -> untouched f (on_knet m).
Proof. apply untouched_zoom_other. Qed.
Lemma untouched_on_configs {A B} (f : client -> B) (m : Gm A) :
  (forall x s, f (put_configs x s) = f s) -> untouched f (on_configs m).
Proof. apply untouched_zoom_other. Qed.
#[export] Hint Extern 2 (untouched _ (next_input _ _ _)) => by apply untouched_next_input : untouched.
#[export] Hint Extern 2 (untouched _ (on_knet _)) => by apply untouched_on_knet : untouched.
#[export] Hint Extern 2 (untouched _ (on_kworld _)) => by apply untouched_on_knet : untouched.
#[export] Hint Extern 2 (untouched _ (on_configs _)) => by apply untouched_on_configs : untouched.

Lemma untouched_new_uid : untouched (fun n => (cs_domain (n_conns n), cs_array (n_conns n))) flom_conns_get_new_uid.
Proof. by intros n. Qed.
Lemma untouched_knet_domain {A} (m : Cm A) :
  untouched (fun n => cs_domain (n_conns n)) m -> untouched domain_of (on_knet m).
Proof. by apply untouched_zoom. Qed.
Lemma untouched_domain_kworld {A} (m : Wm A) : untouched domain_of (on_kworld m).
Proof. apply untouched_knet_domain. by apply untouched_zoom_other. Qed.
#[export] Hint Resolve untouched_domain_kworld : untouched.

(** A part of a client that the calls before a connection object is made do not
    reach *)
Class Beyond {B : Type} (f : client -> B) : Prop := {
  beyond_calls : forall x k, f (put_calls x k) = f k;
  beyond_sockets : forall x k, f (put_sockets x k) = f k;
  beyond_open : forall x k, f (put_open x k) = f k;
  beyond_addrs : forall x k, f (put_addrs x k) = f k;
  beyond_configs : forall x k, f (put_configs x k) = f k
}.
#[export] Instance domain_beyond : Beyond domain_of.
Proof. by split. Qed.
#[export] Hint Extern 0 (Beyond _) => typeclasses eauto : untouched.

Section beyond.
Context {B : Type} (f : client -> B) `{Beyond B f}.

Lemma untouched_sys_ok : untouched f sys_ok.
Proof. apply untouched_next_input, beyond_calls. Qed.
Lemma untouched_sys_getaddrinfo : untouched f sys_getaddrinfo.
Proof. apply untouched_next_input, beyond_addrs. Qed.
Lemma untouched_sys_socket : untouched f sys_socket.
Proof.
  apply untouched_bind; [apply untouched_next_input, beyond_sockets|]. solve_untouched.
  apply untouched_modify. intros s. apply beyond_open.
Qed.
Lemma untouched_sys_close fd : untouched f (sys_close fd).
Proof. apply untouched_modify. intros s. apply beyond_open. Qed.
Lemma untouched_asked {A} (m : Gm A) : untouched f (on_configs m).
Proof. apply untouched_on_configs, beyond_configs. Qed.
Hint Resolve untouched_sys_ok untouched_sys_getaddrinfo untouched_sys_socket untouched_sys_close
  untouched_asked : untouched.

Lemma untouched_closing {A} fd (m : Km A) : untouched f m -> untouched f (closing fd m).
Proof. intros Hm. unfold closing. solve_untouched. Qed.
Lemma untouched_bind_first cf l : untouched f (bind_first cf l).
Proof. induction l; cbn [bind_first]; unfold scope_of; solve_untouched. Qed.
Lemma untouched_join_group l : untouched f (join_group l).
Proof. induction l; cbn [join_group]; solve_untouched. Qed.
Hint Resolve untouched_bind_first untouched_closing : untouched.
Lemma untouched_tcp_listen cf : untouched f (flom_tcp_listen cf).
Proof. unfold flom_tcp_listen. solve_untouched. Qed.
End beyond.
#[export] Hint Resolve untouched_sys_ok untouched_sys_getaddrinfo untouched_sys_socket
  untouched_sys_close untouched_asked untouched_closing untouched_join_group untouched_bind_first
  untouched_tcp_listen : untouched.

Lemma domain_conns_domain : untouched domain_of conns_domain.
Proof. by apply untouched_knet_domain. Qed.
#[export] Hint Resolve domain_conns_domain : untouched.
Lemma domain_add_listener fd : untouched domain_of (add_listener fd).
Proof.
  unfold add_listener, flom_conn_new, flom_conn_init. solve_untouched.
  all: by apply untouched_knet_domain.
Qed.
#[export] Hint Resolve domain_add_listener : untouched.

Section untouched_listen.
Context `{FileSystem}.

Definition host_domain (p : process) : Z := domain_of (p_client p).

Lemma domain_on_client {A} (m : Km A) : untouched domain_of m -> untouched host_domain (on_client m).
Proof. by apply untouched_zoom. Qed.
Lemma files_on_client {A} (m : Km A) : untouched p_files (on_client m).
Proof. by apply untouched_zoom_other. Qed.
Lemma host_on_files {A} (f : Z -> files -> A * files) : untouched p_client (on_files f).
Proof. intros p. unfold on_files. by destruct (f _ _). Qed.
Lemma domain_on_files {A} (f : Z -> files -> A * files) : untouched host_domain (on_files f).
Proof. intros p. unfold host_domain. by rewrite host_on_files. Qed.
Lemma untouched_getsockname {B} (f : process -> B) :
  (forall p l, f (Process _ (p_pid p) (p_client p) l (p_after p) (p_files p)) = f p) ->
  untouched f sys_getsockname.
Proof. intros Hf p. unfold sys_getsockname. by destruct (p_names p); [|apply Hf]. Qed.
Hint Resolve domain_on_files files_on_client : untouched.
Hint Extern 2 (untouched _ sys_getsockname) => by apply untouched_getsockname : untouched.
Hint Extern 2 (untouched host_domain (on_client _)) =>
  apply domain_on_client; solve [auto with untouched] : untouched.

(** No transport but the local one looks at the file system. *)
Lemma files_listen_tcp cf : untouched p_files (flom_listen_tcp cf).
Proof.
  unfold flom_listen_tcp, flom_listen_tcp_automatic, closing_p. solve_untouched.
Qed.

Lemma domain_listen_configured cf : untouched domain_of (flom_listen_tcp_configured cf).
Proof. unfold flom_listen_tcp_configured. solve_untouched. Qed.
Hint Resolve domain_listen_configured : untouched.
Lemma domain_listen_tcp cf : untouched host_domain (flom_listen_tcp cf).
Proof. unfold flom_listen_tcp, flom_listen_tcp_automatic, closing_p. solve_untouched. Qed.
Lemma domain_multicast cf : untouched domain_of (multicast_listener cf).
Proof. unfold multicast_listener, closing. solve_untouched. Qed.
Hint Resolve domain_multicast : untouched.
Lemma domain_listen_udp cf : untouched domain_of (flom_listen_udp cf).
Proof. unfold flom_listen_udp. solve_untouched. Qed.
Lemma domain_listen_local cf : untouched host_domain (flom_listen_local cf).
Proof. unfold flom_listen_local. solve_untouched. Qed.
End untouched_listen.

(** ** The table of a daemon that listens *)
Definition tables (k : client) : flom_conns * gmap conn_ref flom_conn :=
  (n_conns (k_net k), w_conns (n_world (k_net k))).
#[export] Instance tables_beyond : Beyond tables.
Proof. by split. Qed.

(** The connection object of a listener *)
Definition listener (uid fd : Z) : flom_conn :=
  Conn uid FLOM_CONN_STATE_DAEMON false 0 None false fd flom_msg_init.

Lemma wp_on_kworld {A} (m : Wm A) (Q : err + A -> client -> Prop) k :
  wp m (fun r w => Q r (put_knet (put_nworld w (k_net k)) k)) (n_world (k_net k)) ->
  wp (on_kworld m) Q k.
Proof. intros Hm. unfold on_kworld, on_knet, on_nworld. by do 2 wp_step. Qed.

(** What the allocator and the calls of the system leave alone *)
Definition seen (k : client) : flom_conns * gmap conn_ref flom_conn * configs :=
  (n_conns (k_net k), w_conns (n_world (k_net k)), k_configs k).

Lemma seen_malloc : untouched seen (on_kworld g_try_malloc).
Proof.
  intros k. unfold on_kworld, on_knet, on_nworld, zoom, g_try_malloc.
  by destruct (w_mallocs _).
Qed.
Lemma seen_sys_ok : untouched seen sys_ok.
Proof. by apply untouched_next_input. Qed.

Lemma wp_conn_new (Q : err + conn_ref -> client -> Prop) k :
  (forall e k', Q (inl e) k') ->
  (forall c k', conns_of k !! c = None ->
     seen k' = (n_conns (k_net k),
       <[c := Conn 0 FLOM_CONN_STATE_DAEMON false 0 None false 0 flom_msg_init]> (conns_of k),
       k_configs k) -> Q (inr c) k') ->
  wp flom_conn_new Q k.
Proof.
  intros Herr HQ. unfold flom_conn_new.
  wp_step. eapply wp_untouched; [exact seen_malloc|]. intros [e|ok] k1 H1; [by apply Herr|].
  wp_steps; [by apply Herr|]. eapply wp_untouched; [exact seen_malloc|].
  intros [e|ok'] k2 H2; [by apply Herr|]. wp_steps; [by apply Herr|].
  rewrite H1 in H2. injection H2 as Hc Hw Hg. do 2 (apply wp_on_kworld; wp_step; try wp_step).
  apply HQ; cbn.
  - unfold conns_of. rewrite <- Hw. apply fresh_conn_new.
  - unfold seen, conns_of. cbn. by rewrite Hc, Hw, Hg.
Qed.

Lemma wp_conn_init c uid domain fd o (Q : err + unit -> client -> Prop) k :
  conns_of k !! c = Some o -> (forall e k', Q (inl e) k') ->
  (forall k', seen k' = (n_conns (k_net k),
     <[c := Conn uid FLOM_CONN_STATE_DAEMON false (c_last_step o) None (c_tls o) fd (c_msg o)]>
       (conns_of k), k_configs k) -> Q (inr tt) k') ->
  wp (flom_conn_init c uid domain fd true) Q k.
Proof.
  intros Ho Herr HQ. unfold flom_conn_init.
  wp_step. apply wp_on_kworld. eapply wp_store; [exact Ho|]. wp_steps; [by apply Herr|].
  apply wp_on_kworld. eapply wp_store; [apply lookup_insert_eq|].
  wp_step. eapply wp_untouched; [exact seen_sys_ok|]. intros [e|ok] k' Hk; [by apply Herr|].
  wp_steps; [by apply Herr|]. apply HQ. rewrite Hk. unfold seen. cbn. by rewrite insert_insert_eq.
Qed.

Lemma wp_add_listener fd (Q : err + conn_ref -> client -> Prop) k :
  (forall e k', Q (inl e) k') ->
  (forall c uid k', conns_of k !! c = None ->
     conns_of k' = <[c := listener uid fd]> (conns_of k) ->
     table_of k' = (table_of k ++ [c])%list -> domain_of k' = domain_of k ->
     k_configs k' = k_configs k -> Q (inr c) k') ->
  wp (add_listener fd) Q k.
Proof.
  intros Herr HQ. unfold add_listener. wp_step. apply wp_conn_new; [intros; apply Herr|].
  intros c k1 Hc [= Hn Hw Hg]. wp_step. unfold on_knet at 1. wp_step. unfold flom_conns_get_new_uid.
  wp_steps. unfold conns_domain, on_knet. wp_steps. eapply wp_conn_init.
  - unfold conns_of. cbn. rewrite Hw. apply lookup_insert_eq.
  - intros [] k'; [|apply Herr..]. unfold wp, mbind, M_bind. destruct (on_kworld _ _) as [[]]; apply Herr.
  - intros k2 [= Hn2 Hw2 Hg2]. wp_step. wp_step. unfold flom_conns_add_conn. wp_steps.
    eapply HQ; [exact Hc | ..].
    + unfold conns_of at 1. cbn. rewrite Hw2. unfold conns_of at 1. cbn.
      rewrite Hw. apply insert_insert_eq.
    + unfold table_of. cbn. rewrite Hn2. cbn. by rewrite Hn.
    + unfold domain_of. cbn. rewrite Hn2. cbn. by rewrite Hn.
    + cbn. by rewrite Hg2.
Qed.

(** *** Programs that add one listener *)
Definition adds_listener (k : client) (c : conn_ref) (k' : client) : Prop :=
  exists uid fd, conns_of k !! c = None /\ conns_of k' = <[c := listener uid fd]> (conns_of k) /\
    table_of k' = (table_of k ++ [c])%list.

Definition adds {S : Type} (get : S -> client) (m : M err S conn_ref) : Prop := forall s,
  wp m (fun r s' => match r with
                    | inr c => adds_listener (get s) c (get s')
                    | inl _ => True
                    end) s.

Section adds.
Context {S : Type} (get : S -> client).

Lemma adds_throw e : adds get (throw e).
Proof. by intros s. Qed.
Lemma adds_bind {A} (m : M err S A) (k : A -> M err S conn_ref) :
  untouched (fun s => tables (get s)) m -> (forall a, adds get (k a)) -> adds get (m ≫= k).
Proof.
  intros Hm Hk s. wp_step. eapply wp_untouched; [exact Hm|]. intros [e|a] s1 H1; [done|].
  eapply wp_mono; [|apply Hk]. intros [e|c] s2; [done|]. unfold adds_listener, conns_of, table_of.
  injection H1 as H1 H1'. by rewrite H1, H1'.
Qed.
Lemma adds_attempt (m : M err S conn_ref) (h : Z -> M err S conn_ref) :
  adds get m -> (forall rc s c, (h rc s).1 <> inr c) ->
  adds get (r ← attempt m; match r with inl rc => h rc | inr c => mret c end).
Proof.
  intros Hm Hh s. wp_step. wp_step. eapply wp_mono; [|apply Hm].
  intros [[]|c] s1 H1; [|done..|done]. unfold wp. destruct (h rc s1) as [[e|c] s2] eqn:E; [done|].
  destruct (Hh rc s1 c). by rewrite E.
Qed.
End adds.

Lemma adds_add_listener fd : adds id (add_listener fd).
Proof. intros k. apply wp_add_listener; [done|]. intros c uid k' Hn Hc Ht _ _. by exists uid, fd. Qed.
Lemma adds_closing fd m : adds id m -> adds id (closing fd m).
Proof. intros Hm. by apply adds_attempt. Qed.
Lemma adds_then {A} (m : Km A) (k : A -> Km conn_ref) :
  untouched tables m -> (forall a, adds id (k a)) -> adds id (m ≫= k).
Proof. apply (adds_bind id). Qed.
Lemma tables_conns_domain : untouched tables conns_domain.
Proof. by intros k. Qed.
Lemma adds_multicast cf : adds id (multicast_listener cf).
Proof.
  unfold multicast_listener. apply adds_then; [apply tables_conns_domain|]. intros domain.
  do 5 (apply adds_then; [solve_untouched|intros ?]).
  apply adds_then; [solve_untouched|intros [f fd]]. apply adds_closing.
  apply adds_then; [solve_untouched|]. intros _. apply adds_add_listener.
Qed.
Lemma adds_configured cf : adds id (flom_listen_tcp_configured cf).
Proof.
  apply adds_then; [apply untouched_tcp_listen; apply _|]. intros [fd scope]. apply adds_add_listener.
Qed.

Section adds_process.
Context `{FileSystem}.

Lemma adds_on_client m : adds id m -> adds p_client (on_client m).
Proof. intros Hm p. unfold on_client. wp_step. eapply wp_mono; [|apply Hm]. by intros [e|c] k. Qed.
Lemma tables_on_client {A} (m : Km A) :
  untouched tables m -> untouched (fun p => tables (p_client p)) (on_client m).
Proof. by apply untouched_zoom. Qed.
End adds_process.

Section daemon_listens.
Context `{FileSystem}.

Definition process_tables (p : process) : flom_conns * gmap conn_ref flom_conn := tables (p_client p).
Lemma adds_then_p {A} (m : Pm A) (k : A -> Pm conn_ref) :
  untouched process_tables m -> (forall a, adds p_client (k a)) -> adds p_client (m ≫= k).
Proof. apply (adds_bind p_client). Qed.
Lemma tables_files {A} (f : Z -> files -> A * files) : untouched process_tables (on_files f).
Proof. intros p. unfold process_tables. by rewrite host_on_files. Qed.
Lemma tables_getsockname : untouched process_tables sys_getsockname.
Proof. by apply untouched_getsockname. Qed.
Hint Resolve tables_files tables_getsockname : untouched.
Hint Extern 2 (untouched process_tables (on_client _)) =>
  apply tables_on_client; solve [auto with untouched] : untouched.

Lemma tables_malloc : untouched tables (on_kworld g_try_malloc).
Proof. intros k. unfold tables. by injection (seen_malloc k) as -> -> _. Qed.
Hint Resolve tables_malloc tables_conns_domain : untouched.

Lemma adds_listen_local cf : adds p_client (flom_listen_local cf).
Proof.
  unfold flom_listen_local. repeat (apply adds_then_p; [solve_untouched|intros ?]).
  apply adds_on_client, adds_add_listener.
Qed.
Lemma adds_listen_tcp cf : adds p_client (flom_listen_tcp cf).
Proof.
  unfold flom_listen_tcp. apply adds_then_p; [solve_untouched|]. intros address.
  destruct (given address); [apply adds_on_client, adds_configured|].
  unfold flom_listen_tcp_automatic. do 3 (apply adds_then_p; [solve_untouched|intros ?]).
  unfold closing_p. apply adds_attempt; [|done].
  do 8 (apply adds_then_p; [solve_untouched|intros ?]).
  apply adds_then_p; [solve_untouched|intros [f port]].
  do 3 (apply adds_then_p; [destruct f; solve_untouched|intros ?]).
  apply adds_on_client, adds_add_listener.
Qed.

Lemma configs_get_str f r : untouched k_configs (on_configs (get_str f r)).
Proof. apply (untouched_zoom _ _ _ id); [done | done | apply untouched_get_str]. Qed.
Lemma configs_add_listener fd : untouched k_configs (add_listener fd).
Proof. unfold add_listener, flom_conn_new, flom_conn_init, conns_domain, sys_ok. solve_untouched. Qed.
Lemma configs_join_group l : untouched k_configs (join_group l).
Proof. induction l; cbn [join_group]; unfold sys_socket, sys_close; solve_untouched. Qed.
Hint Resolve configs_get_str configs_add_listener configs_join_group : untouched.
Lemma configs_multicast cf : untouched k_configs (multicast_listener cf).
Proof.
  unfold multicast_listener, closing, conns_domain, sys_getaddrinfo, sys_close,
    flom_config_get_network_interface. solve_untouched.
Qed.

(** What [flom_listen] promises the accept loop: the listener of connections
    first, then the one of datagrams, which there is when discoveries are to be
    answered *)
Definition ready_to_accept (cf : config_ref) (dgram : option conn_ref) (k : client) : Prop :=
  exists c, table_of k = c :: option_list dgram /\ NoDup (table_of k) /\
    (forall d, d ∈ table_of k -> exists uid fd, conns_of k !! d = Some (listener uid fd)) /\
    (is_Some dgram <-> domain_of k <> AF_UNIX /\ is_Some (content (k_configs k) cf multicast_address)).

Lemma wp_listen_udp cf k c (uid fd : Z) :
  domain_of k <> AF_UNIX -> table_of k = [c] -> conns_of k !! c = Some (listener uid fd) ->
  wp (flom_listen_udp cf) (fun r k' => match r with
                                       | inr dgram => ready_to_accept cf dgram k'
                                       | inl _ => True
                                       end) k.
Proof.
  intros Hdom Ht Hc. unfold flom_listen_udp, on_configs. wp_step. wp_step.
  apply get_str_content; [done|]. replace (put_configs (k_configs k) k) with k by (by destruct k).
  destruct (content (k_configs k) cf multicast_address) as [address|] eqn:Ha; cbn [given negb].
  - pose proof (adds_multicast cf k) as Hadd. pose proof (configs_multicast cf k) as Hconf.
    pose proof (domain_multicast cf k) as Hd. wp_step. unfold wp in *.
    destruct (multicast_listener cf k) as [[e|d] k1]; [done|]. cbn in *.
    destruct Hadd as (uid' & fd' & Hnew & Hcs & Htab). rewrite Ht in Htab.
    assert (Hne : c <> d) by (unfold id in *; congruence).
    exists c. rewrite Htab, Hcs, Hd, Hconf, Ha. split; [done|]. split; [|split].
    + apply NoDup_cons; split; [by rewrite list_elem_of_singleton | apply NoDup_singleton].
    + intros x [->|[->|Hx]%elem_of_cons]%elem_of_cons; [..|by apply elem_of_nil in Hx].
      * exists uid, fd. by rewrite lookup_insert_ne.
      * exists uid', fd'. apply lookup_insert_eq.
    + split; [by split | eauto].
  - wp_step. exists c. rewrite Ht, Ha. split; [done|]. split; [apply NoDup_singleton|]. split.
    + intros d ->%list_elem_of_singleton. eauto.
    + split; [by intros [] | by intros [_ []]].
Qed.

Lemma first_listener k c k' :
  table_of k = [] -> adds_listener k c k' ->
  table_of k' = [c] /\ exists uid fd, conns_of k' !! c = Some (listener uid fd).
Proof.
  intros Ht (uid & fd & _ & Hcs & Htab). rewrite Ht in Htab. split; [done|].
  exists uid, fd. rewrite Hcs. apply lookup_insert_eq.
Qed.

(** C29: functional.  A daemon that has been able to listen has its listeners in
    the order the accept loop relies on, each a new connection object: first the
    one of connections, then the one of datagrams, which is there exactly when
    the daemon is not local and a multicast address is configured. *)
Theorem daemon_listens cf p :
  table_of (p_client p) = [] ->
  wp (flom_listen cf) (fun r p' => match r with
                                   | inr dgram => ready_to_accept cf dgram (p_client p')
                                   | inl _ => True
                                   end) p.
Proof.
  intros Ht. unfold flom_listen. wp_step. unfold on_client at 1, conns_domain, on_knet. do 3 wp_step.
  replace (put_client _ p) with p by (by destruct p as [? []]).
  change (cs_domain _) with (host_domain p). destruct (host_domain p =? AF_UNIX) eqn:Eu; [|wp_step].
  - pose proof (adds_listen_local cf p) as Hadd. pose proof (domain_listen_local cf p) as Hd.
    wp_step. unfold wp in *. destruct (flom_listen_local cf p) as [[e|c] p1]; [done|]. cbn in *.
    destruct (first_listener _ _ _ Ht Hadd) as [Ht1 (uid & fd & Hc)].
    exists c. rewrite Ht1. split; [done|]. split; [apply NoDup_singleton|]. split.
    + intros d ->%list_elem_of_singleton. eauto.
    + split; [intros [? [=]]|]. intros [[] _]. unfold host_domain in *. lia.
  - pose proof (adds_listen_tcp cf p) as Hadd. pose proof (domain_listen_tcp cf p) as Hd.
    wp_step. unfold wp at 1 in Hadd. unfold wp at 1.
    destruct (flom_listen_tcp cf p) as [[e|c] p1]; [done|]. cbn in *.
    destruct (first_listener _ _ _ Ht Hadd) as [Ht1 (uid & fd & Hc)].
    unfold on_client. wp_step. eapply wp_mono.
    2: { apply (wp_listen_udp cf (p_client p1) c uid fd); [|done..]. unfold host_domain in *. lia. }
    by intros [e|dgram] k.
  - done.
Qed.
End daemon_listens.
