(* ===== verification/Startup.v ===== *)
(** * Startup: how a daemon is started, and how it stays alone

    [flom_daemon] of [src/src/flom_daemon.c]: the process that needs a daemon
    forks it and waits for the reason code of [flom_listen] on a pipe.  Then what
    the daemons of one machine do to each other: any number of them, started,
    stopped and killed in any order, share the locks and the sockets of its file
    system. *)
From Stdlib Require Import ZArith String Ascii List Lia.
From stdpp Require Import base list gmap numbers strings.
From S2P Require Import Prelude Types CStr RsrcName Msg MsgXml Vfs World Config.
From S2P Require Import ConnLock Resource Rsrc Conns Locker Daemon Connect Client Handle Session Listen.
Local Open Scope string_scope.
Local Open Scope Z_scope.

(** ** [flom_daemon] *)

(** What [fork] gives the daemon: its process identifier, and the answers of the
    system to its own calls, the last of them whether the reason code is written *)
Record birth : Type := Birth {
  b_pid : Z;
  b_calls : list bool;
  b_write : bool;
  b_sockets : list (option Z);
  b_addrs : list (option (list addr));
  b_names : list (option (family * Z))
}.

(** The father gets the reason code, or waits for ever for it: it reads from a
    pipe whose other end it has open itself. *)
Inductive outcome : Type :=
| Returns (rc : Z)
| Hangs.

Section daemon_start.
Context `{FileSystem}.

(** A copy of the memory of the father *)
Definition forked (b : birth) (p : process) : process :=
  Process _ (b_pid b)
    (put_calls (b_calls b) (put_sockets (b_sockets b) (put_addrs (b_addrs b) (p_client p))))
    (b_names b) (p_after p) (p_files p).

(** [fork], [setsid], [signal] twice, [fork] and [chdir], up to the first that
    fails *)
Fixpoint calls_ok (n : nat) : Km bool :=
  match n with
  | O => mret true
  | S n => ok ← sys_ok; if (ok : bool) then calls_ok n else mret false
  end.

(** The descriptors from 0 to 63 are closed, but the pipe. *)
Definition close_inherited (pipefd : list Z) : Km unit :=
  modify (fun k => put_open (filter (fun fd => 64 <= fd \/ fd ∈ pipefd) (k_open k)) k).

(** What the daemon does before it listens *)
Definition daemon_prepares (cf : config_ref) (domain : Z) (pipefd : list Z) : Km unit :=
  _ ← close_inherited pipefd;
  _ ← on_configs (get_str daemon_trace_file cf);
  on_knet (modify (put_conns (flom_conns_init domain))).

(** The reason code of [flom_listen] is written on the pipe; on success the
    daemon goes on to the accept loop, with its listener of datagrams. *)
Definition daemon_tells (cf : config_ref) (write : bool) : Pm (option Z * option (option conn_ref)) :=
  r ← attempt (flom_listen cf);
  if negb write then mret (None, None)
  else match r with
       | inl rc => mret (Some rc, None)
       | inr dgram => mret (Some FLOM_RC_OK, Some dgram)
       end.

Definition daemon_side (cf : config_ref) (domain : Z) (pipefd : list Z) (write : bool)
    : Pm (option Z * option (option conn_ref)) :=
  ok ← on_client (calls_ok 6);
  if negb ok then mret (None, None)
  else
    _ ← on_client (daemon_prepares cf domain pipefd);
    daemon_tells cf write.

(** The father's side, after [fork] *)
Definition father_side (said : option Z) : Km outcome :=
  ok ← sys_ok;
  _ ← when (negb ok) (throw (Rc FLOM_RC_WAIT_ERROR));
  same_pid ← sys_ok;
  _ ← when (negb same_pid) (throw (Rc FLOM_RC_INTERNAL_ERROR));
  match said with
  | None => mret Hangs
  | Some rc =>
      ok ← sys_ok;
      _ ← when (negb ok) (throw (Rc FLOM_RC_READ_ERROR));
      mret (Returns rc)
  end.

(** [inet_ntop] twice, [pipe], [fork]; then the two processes.  The daemon is
    given when it runs. *)
Definition flom_daemon (cf : config_ref) (domain : Z) (pipefd : list Z) (b : birth)
    : Pm (outcome * option (process * option conn_ref)) :=
  ok ← on_client (calls_ok 2);
  _ ← when (negb ok) (throw (Rc FLOM_RC_INET_NTOP_ERROR));
  ok ← on_client sys_ok;
  _ ← when (negb ok) (throw (Rc FLOM_RC_PIPE_ERROR));
  ok ← on_client sys_ok;
  _ ← when (negb ok) (throw (Rc FLOM_RC_FORK_ERROR));
  p ← gets id;
  let '(r, child) := daemon_side cf domain pipefd (b_write b) (forked b p) in
  _ ← modify (put_files (p_files child));
  let '(said, runs) := match r with inr x => x | inl _ => (None, None) end in
  r ← attempt (on_client (father_side said));
  mret (match r with inr o => o | inl rc => Returns rc end,
        match runs with Some dgram => Some (child, dgram) | None => None end).

(** What the accept loop is given: the connections and the configuration of the
    process *)
Definition daemon_config_of (cf : config_ref) (k : client) : daemon_config :=
  let text := content (k_configs k) cf in
  let value f := default 0 (number (k_configs k) cf f) in
  Daemon_config (value daemon_lifespan) (given (text mount_point_vfs))
    (given (text tls_certificate) && given (text tls_private_key) && given (text tls_ca_certificate))
    (negb (value tls_check_peer_id =? 0)) (text unicast_address) (value unicast_port).
Definition accept_state (cf : config_ref) (dgram : option conn_ref) (k : client) : daemon :=
  DState (k_net k) [] (daemon_config_of cf k) [] [] [] [] [] dgram.
End daemon_start.

(** ** The answer of [flom_daemon] *)
Lemma sys_ok_true k :
  Forall (eq true) (k_calls k) ->
  exists l, sys_ok k = (inr true, put_calls l k) /\ Forall (eq true) l.
Proof.
  intros Hk. unfold sys_ok, next_input. destruct (k_calls k) as [|b l] eqn:E.
  - exists []. split; [|done]. destruct k; cbn in E; by subst.
  - apply Forall_cons in Hk as [<- Hl]. by exists l.
Qed.

Lemma calls_ok_spec n : forall k, exists l,
  calls_ok n k = (inr (forallb id (take n (k_calls k))), put_calls l k) /\
  (Forall (eq true) (k_calls k) -> Forall (eq true) l).
Proof.
  induction n as [|n IH]; intros k; cbn [calls_ok].
  - exists (k_calls k). split; [by destruct k | done].
  - unfold mbind, M_bind, sys_ok, next_input. destruct (k_calls k) as [|b l] eqn:E.
    + destruct (IH k) as (l & -> & Hl). exists l. rewrite E in *. by destruct n.
    + destruct b; cbn.
      * destruct (IH (put_calls l k)) as (l' & -> & Hl'). exists l'. split; [done|].
        intros [_ Hl]%Forall_cons. by apply Hl'.
      * exists l. split; [done|]. by intros [_ ?]%Forall_cons.
Qed.

Lemma father_side_answer said k :
  Forall (eq true) (k_calls k) ->
  (father_side said k).1 = inr (match said with Some rc => Returns rc | None => Hangs end).
Proof.
  intros Hk. unfold father_side, mbind, M_bind.
  destruct (sys_ok_true _ Hk) as (l1 & -> & H1). cbn.
  destruct (sys_ok_true (put_calls l1 k) H1) as (l2 & -> & H2). cbn. destruct said as [rc|]; [|done].
  unfold mbind, M_bind. destruct (sys_ok_true (put_calls l2 (put_calls l1 k)) H2) as (l3 & -> & H3). done.
Qed.

Section answers.
Context `{FileSystem}.

(** What the caller of [flom_daemon] learns from what [flom_listen] answers *)
Definition told {A} (r : err + A) : outcome :=
  match r with
  | inr _ => Returns FLOM_RC_OK
  | inl (Rc rc) => Returns rc
  | inl _ => Hangs
  end.

(** The daemon as [flom_listen] finds it: a copy of its father with an empty
    table *)
Definition newborn (domain : Z) (b : birth) (p q : process) : Prop :=
  p_pid q = b_pid b /\ p_files q = p_files p /\ k_configs (p_client q) = k_configs (p_client p) /\
  conns_of (p_client q) = conns_of (p_client p) /\
  table_of (p_client q) = [] /\ domain_of (p_client q) = domain.

Lemma daemon_prepares_newborn cf domain pipefd k :
  owned (k_configs k) -> is_Some (config_at (k_configs k) cf) ->
  exists k', daemon_prepares cf domain pipefd k = (inr tt, k') /\
    k_configs k' = k_configs k /\ conns_of k' = conns_of k /\ table_of k' = [] /\ domain_of k' = domain.
Proof.
  intros Ho [c Hc].
  enough (Hwp : wp (daemon_prepares cf domain pipefd) (fun r k' => r = inr tt /\
    k_configs k' = k_configs k /\ conns_of k' = conns_of k /\ table_of k' = [] /\ domain_of k' = domain) k).
  { unfold wp in Hwp. destruct (daemon_prepares cf domain pipefd k) as [r k']. exists k'. cbn in Hwp.
    destruct Hwp as [-> Hk]. done. }
  unfold daemon_prepares, close_inherited. do 2 wp_step. wp_step. unfold on_configs. wp_step.
  unfold get_str. wp_step. eapply wp_the_config; [exact Hc|].
  eapply wp_c_str_owned; [exact Ho | exact Hc | tauto|]. unfold on_knet. by do 2 wp_step.
Qed.

Lemma all_true l : Forall (eq true) l -> forallb id l = true.
Proof. by induction 1 as [|? l <-]. Qed.
Lemma on_client_eq {A} (m : Km A) p : on_client m p = ((m (p_client p)).1, put_client (m (p_client p)).2 p).
Proof. unfold on_client, zoom. by destruct (m (p_client p)). Qed.

Lemma daemon_side_answer cf domain pipefd write b p :
  owned (k_configs (p_client p)) -> is_Some (config_at (k_configs (p_client p)) cf) ->
  if forallb id (take 6 (b_calls b)) && write then
    exists q, newborn domain b p q /\ daemon_side cf domain pipefd write (forked b p) =
      (match (flom_listen cf q).1 with
       | inr dgram => inr (Some FLOM_RC_OK, Some dgram)
       | inl (Rc rc) => inr (Some rc, None)
       | inl e => inl e
       end, (flom_listen cf q).2)
  else exists r q, daemon_side cf domain pipefd write (forked b p) = (r, q) /\
    match r with inr x => x = (None, None) | inl _ => True end.
Proof.
  intros Ho Hc. unfold daemon_side, mbind, M_bind. rewrite on_client_eq.
  destruct (calls_ok_spec 6 (p_client (forked b p))) as (l & -> & _). cbn [fst snd].
  change (k_calls (p_client (forked b p))) with (b_calls b).
  destruct (forallb id (take 6 (b_calls b))); cbn [negb andb]; [|by do 2 eexists].
  destruct (daemon_prepares_newborn cf domain pipefd (put_calls l (p_client (forked b p))))
    as (k & Hk & Hconf & Hcs & Htab & Hdom); [done..|].
  rewrite on_client_eq. cbn [p_client put_client]. rewrite Hk. cbn [fst snd].
  set (q := put_client k _). unfold daemon_tells, mbind, M_bind, attempt.
  destruct write; cbn [negb].
  - exists q. split; [by split_and!|]. by destruct (flom_listen cf q) as [[[]|] q'].
  - by destruct (flom_listen cf q) as [[[]|] q']; do 2 eexists.
Qed.

(** C28: liveness.  When the calls of the process that starts a daemon succeed,
    [flom_daemon] returns what [flom_listen] answers in the daemon, which runs
    exactly when that is success; but if one of the calls that make the process a
    daemon fails, or it cannot write its answer, it never returns. *)
Theorem daemon_start_answers cf domain pipefd b p :
  Forall (eq true) (k_calls (p_client p)) ->
  owned (k_configs (p_client p)) -> is_Some (config_at (k_configs (p_client p)) cf) ->
  exists o run p', flom_daemon cf domain pipefd b p = (inr (o, run), p') /\
    if forallb id (take 6 (b_calls b)) && b_write b then
      exists q, newborn domain b p q /\ o = told (flom_listen cf q).1 /\
        p_files p' = p_files (flom_listen cf q).2 /\
        run = match (flom_listen cf q).1 with
              | inr dgram => Some ((flom_listen cf q).2, dgram)
              | inl _ => None
              end
    else o = Hangs /\ run = None.
Proof.
  intros Hk Ho Hc. unfold flom_daemon, mbind, M_bind. rewrite on_client_eq.
  destruct (calls_ok_spec 2 (p_client p)) as (l & -> & Hl). specialize (Hl Hk). cbn [fst snd].
  rewrite (all_true _ (Forall_take _ _ _ Hk)). cbn [negb when mret M_ret].
  rewrite on_client_eq. cbn [p_client put_client].
  destruct (sys_ok_true (put_calls l (p_client p)) Hl) as (l2 & -> & H2). cbn [fst snd negb when mret M_ret].
  rewrite on_client_eq. cbn [p_client put_client].
  destruct (sys_ok_true (put_calls l2 (put_calls l (p_client p))) H2) as (l3 & -> & H3).
  cbn [fst snd negb when mret M_ret]. unfold gets at 1. cbv iota beta.
  set (p3 := put_client _ _).
  assert (Hfather : forall said q, exists q', attempt (on_client (father_side said)) (put_files (p_files q) p3) =
    (inr (inr match said with Some rc => Returns rc | None => Hangs end), q') /\ p_files q' = p_files q).
  { intros said q. unfold attempt. rewrite on_client_eq. rewrite father_side_answer by exact H3.
    eexists. split; [reflexivity|]. done. }
  pose proof (daemon_side_answer cf domain pipefd (b_write b) b p3 Ho Hc) as Hside.
  destruct (forallb id _ && b_write b).
  - destruct Hside as (q & Hq & Heq).
    change (id p3) with p3. rewrite Heq. destruct (flom_listen cf q) as [r q1] eqn:El.
    destruct r as [[]|dgram]; cbn [fst snd modify];
      match goal with |- context [father_side ?said] => destruct (Hfather said q1) as (p' & -> & Hp') end;
      do 3 eexists; (split; [reflexivity|]);
      exists q; by rewrite El.
  - destruct Hside as (r & q & Heq & Hr). change (id p3) with p3. rewrite Heq.
    destruct r as [e|x]; [|rewrite Hr]; edestruct (Hfather None q) as (p' & Hf & _);
      cbn [modify]; rewrite Hf; by do 3 eexists.
Qed.
End answers.

(** ** The daemons of a machine *)

(** What a file system promises: the lock of a file has one holder and is free
    again when its holder exits, a path leads to the last socket that was bound
    there, and a call is about one path. *)
Class Posix `{FileSystem} : Type := {
  lock_holder : string -> files -> option Z;
  socket_of : string -> files -> option Z;
  process_exit : Z -> files -> files;
  open_keeps pid path fs q : lock_holder q (sys_open pid path fs).2 = lock_holder q fs;
  open_sockets pid path fs q : path <> q -> socket_of q (sys_open pid path fs).2 = socket_of q fs;
  flock_grants pid path fs : (sys_flock pid path fs).1 = true ->
    lock_holder path fs = None \/ lock_holder path fs = Some pid;
  flock_holds pid path fs : (sys_flock pid path fs).1 = true ->
    lock_holder path (sys_flock pid path fs).2 = Some pid;
  flock_refuses pid path fs : (sys_flock pid path fs).1 = false ->
    lock_holder path (sys_flock pid path fs).2 = lock_holder path fs;
  flock_others pid path fs q : path <> q ->
    lock_holder q (sys_flock pid path fs).2 = lock_holder q fs;
  flock_sockets pid path fs q : socket_of q (sys_flock pid path fs).2 = socket_of q fs;
  unlink_others pid path fs q : path <> q ->
    lock_holder q (sys_unlink pid path fs).2 = lock_holder q fs /\
    socket_of q (sys_unlink pid path fs).2 = socket_of q fs;
  bind_leads pid path fs : (sys_bind pid path fs).1 = true ->
    socket_of path (sys_bind pid path fs).2 = Some pid;
  bind_others pid path fs q : path <> q -> socket_of q (sys_bind pid path fs).2 = socket_of q fs;
  bind_locks pid path fs q : lock_holder q (sys_bind pid path fs).2 = lock_holder q fs;
  exit_releases pid fs q : lock_holder q fs <> Some pid ->
    lock_holder q (process_exit pid fs) = lock_holder q fs;
  exit_sockets pid fs q : socket_of q (process_exit pid fs) = socket_of q fs
}.

Section machine.
Context `{Posix}.

(** The daemons that run, each with its configuration and its connections.  A
    daemon that cannot listen exits, and a daemon exits after its clean-up or is
    killed; the kernel gives no process the number of one that runs. *)
Record machine : Type := Machine {
  m_files : files;
  m_running : gmap Z (config_ref * client)
}.

Inductive event : Type :=
| Start (pid : Z) (cf : config_ref) (k : client) (names : list (option (family * Z))) (after : string)
| Stop (pid : Z)
| Die (pid : Z).

Definition step (m : machine) (e : event) : machine :=
  match e with
  | Start pid cf k names after =>
      match m_running m !! pid with
      | Some _ => m
      | None =>
          let '(r, p) := flom_listen cf (Process _ pid k names after (m_files m)) in
          match r with
          | inr _ => Machine (p_files p) (<[pid := (cf, p_client p)]> (m_running m))
          | inl _ => Machine (process_exit pid (p_files p)) (m_running m)
          end
      end
  | Stop pid =>
      match m_running m !! pid with
      | None => m
      | Some (cf, k) =>
          let '(_, p) := flom_listen_clean cf (Process _ pid k [] "" (m_files m)) in
          Machine (process_exit pid (p_files p)) (delete pid (m_running m))
      end
  | Die pid =>
      match m_running m !! pid with
      | None => m
      | Some _ => Machine (process_exit pid (m_files m)) (delete pid (m_running m))
      end
  end.

Definition run_machine (l : list event) (m : machine) : machine := fold_left step l m.

(** The name of the socket of a local daemon *)
Definition served_name (d : config_ref * client) : option string :=
  if domain_of d.2 =? AF_UNIX then content (k_configs d.2) d.1 socket_name else None.
Definition serves (d : config_ref * client) (name : string) : Prop := served_name d = Some name.

(** A name that fits in the field of an address and is not the name of the lock
    file of another *)
Definition sound_name (name : string) : Prop :=
  until_nul name = name /\ strlen name < LOCAL_SOCKET_SIZE /\ forall n, name <> lock_filename n.

Definition sound_event (e : event) : Prop :=
  match e with
  | Start _ cf k _ _ => forall name, serves (cf, k) name -> sound_name name
  | _ => True
  end.

(** *** What listening on a local socket does to the files *)
Section local_effect.
Variables (pid : Z) (n path : string) (fs : files).
Definition opened : files := (sys_open pid (lock_filename n) fs).2.
Definition flocked : files := (sys_flock pid (lock_filename n) opened).2.
Definition unlinked : files := (sys_unlink pid n flocked).2.
Definition bound : files := (sys_bind pid path unlinked).2.
Definition has_flock : bool := (sys_flock pid (lock_filename n) opened).1.

Inductive local_effect : bool -> files -> Prop :=
| effect_none : local_effect false fs
| effect_open : local_effect false opened
| effect_flock : local_effect false flocked
| effect_unlink : has_flock = true -> local_effect false unlinked
| effect_bind (b : bool) : has_flock = true -> (b = true -> (sys_bind pid path unlinked).1 = true) ->
    local_effect b bound.
End local_effect.

Definition host (p : process) : Z * string * files := (p_pid p, p_after p, p_files p).
Lemma wp_on_client_host {A} (m : Km A) (Q : err + A -> process -> Prop) p h :
  host p = h -> (forall r p', host p' = h -> Q r p') -> wp (on_client m) Q p.
Proof.
  intros <- HQ. apply (wp_untouched host); [by apply untouched_zoom_other|]. auto.
Qed.
Lemma wp_on_files_host {A} (f : Z -> files -> A * files) (Q : err + A -> process -> Prop) p pid after fs :
  host p = (pid, after, fs) ->
  (forall p', host p' = (pid, after, (f pid fs).2) -> Q (inr (f pid fs).1) p') -> wp (on_files f) Q p.
Proof.
  intros [= <- <- <-] HQ. unfold wp, on_files. specialize (HQ (put_files (f (p_pid p) (p_files p)).2 p)).
  destruct (f (p_pid p) (p_files p)). by apply HQ.
Qed.

Definition succeeded {A} (r : err + A) : bool := match r with inr _ => true | inl _ => false end.

Lemma listen_local_effect cf p :
  wp (flom_listen_local cf) (fun r p' =>
    match content (k_configs (p_client p)) cf socket_name with
    | Some n => local_effect (p_pid p) n (sun_path (p_after p) n) (p_files p) (succeeded r) (p_files p')
    | None => succeeded r = false /\ p_files p' = p_files p
    end) p.
Proof.
  unfold flom_listen_local. wp_step. unfold on_client at 1, on_configs at 1. do 2 wp_step.
  apply get_str_content.
  { intros e. cbn. destruct (content _ _ _); [constructor | done]. }
  replace (put_client _ p) with p by (by destruct p as [? []]).
  destruct (content _ cf socket_name) as [n|]; [|by wp_step; wp_step]. wp_step. apply wp_ret.
  set (path := sun_path (p_after p) n). set (pid := p_pid p). set (fs := p_files p).
  assert (Hp : host p = (pid, p_after p, fs)) by done.
  assert (Hfs : forall p' x, host p' = (pid, p_after p, x) -> p_files p' = x) by (by intros p' x [=]).
  wp_step. eapply wp_on_client_host; [exact Hp|]. intros [e|ok] p1 Hh1; [rewrite (Hfs _ _ Hh1); constructor|].
  wp_step; wp_step; [wp_step; rewrite (Hfs _ _ Hh1); constructor|].
  wp_step. eapply wp_on_files_host; [exact Hh1|]. intros p2 Hh2. fold (opened pid n fs) in Hh2.
  wp_step; wp_step; [wp_step; rewrite (Hfs _ _ Hh2); constructor|].
  wp_step. eapply wp_on_files_host; [exact Hh2|]. intros p3 Hh3. fold (flocked pid n fs) in Hh3.
  fold (has_flock pid n fs). 
  destruct (has_flock pid n fs) eqn:El; cbn [negb]; [|wp_step; apply wp_throw; cbn; rewrite (Hfs _ _ Hh3); constructor].
  wp_step. apply wp_ret. wp_step. eapply wp_on_client_host; [exact Hh3|].
  intros [e|o] p4 Hh4; [rewrite (Hfs _ _ Hh4); constructor|].
  wp_step; wp_step; [|rewrite (Hfs _ _ Hh4); constructor].
  wp_step. eapply wp_on_files_host; [exact Hh4|]. intros p5 Hh5. fold (unlinked pid n fs) in Hh5.
  wp_step; wp_step; [wp_step; rewrite (Hfs _ _ Hh5); by constructor|].
  wp_step. apply wp_gets. replace (p_after p5) with (p_after p) by (by injection Hh5).
  wp_step. eapply wp_on_files_host; [exact Hh5|]. intros p6 Hh6. fold path in Hh6 |- *. fold (bound pid n path fs) in Hh6.
  destruct (sys_bind pid path (unlinked pid n fs)).1 eqn:Eb; cbn [negb].
  2: { wp_step. apply wp_throw. cbn. rewrite (Hfs _ _ Hh6). by constructor. }
  wp_step. apply wp_ret. wp_step. eapply wp_on_client_host; [exact Hh6|].
  intros [e|ok'] p7 Hh7; [rewrite (Hfs _ _ Hh7); by constructor|].
  wp_step; wp_step; [wp_step; rewrite (Hfs _ _ Hh7); by constructor|].
  eapply wp_on_client_host; [exact Hh7|]. intros r p8 Hh8. rewrite (Hfs _ _ Hh8).
  by destruct r; constructor.
Qed.

(** *** The invariant *)
Definition held (name : string) (pid : Z) (fs : files) : Prop :=
  lock_holder (lock_filename name) fs = Some pid /\ socket_of name fs = Some pid.

Lemma lock_filename_ne name : name <> lock_filename name.
Proof.
  intros Heq. apply (f_equal String.length) in Heq. unfold lock_filename in Heq.
  rewrite length_string_app in Heq. cbn in Heq. lia.
Qed.
Lemma lock_filename_inj n n' : lock_filename n = lock_filename n' -> n = n'.
Proof.
  unfold lock_filename. revert n'. induction n as [|c n IH]; intros [|c' n'] Heq; [done|..|].
  1, 2: apply (f_equal String.length) in Heq; rewrite !length_string_app in Heq; cbn in Heq; lia.
  cbn in Heq. injection Heq as -> Heq. f_equal. by apply IH.
Qed.

Lemma sun_path_sound after name :
  until_nul name = name -> strlen name < LOCAL_SOCKET_SIZE -> sun_path after name = name.
Proof.
  unfold sun_path, LOCAL_SOCKET_SIZE, strlen. change (Z.to_nat 108) with 108%nat.
  intros Hnul Hlen. assert (Hl : (String.length name < 108)%nat) by lia. clear Hlen.
  revert Hl. generalize 108%nat. revert Hnul. induction name as [|c name IH]; intros Hnul m Hl.
  - destruct m; [cbn in Hl; lia|]. done.
  - destruct m; [cbn in Hl; lia|].
    change (until_nul (String c (substring 0 m (name ++ String zero after))) = String c name).
    cbn in *. destruct (Ascii.eqb c zero); [done|].
    injection Hnul as Hnul. f_equal. apply IH; [done | lia].
Qed.

(** A start keeps what another daemon holds, and the daemon of a start that
    succeeds holds its lock and its socket. *)
Lemma local_effect_others pid n path fs ok fs' name owner :
  local_effect pid n path fs ok fs' -> path = n -> name <> lock_filename n -> n <> lock_filename name ->
  owner <> pid -> held name owner fs -> held name owner fs'.
Proof.
  intros Heff -> Hname Hn Hpid [Hl Hs].
  assert (Ho : held name owner (opened pid n fs)).
  { split; unfold opened; [by rewrite open_keeps | by rewrite open_sockets by congruence]. }
  assert (Hf : held name owner (flocked pid n fs) /\ (has_flock pid n fs = true -> n <> name)).
  { destruct Ho as [Hlo Hso]. unfold flocked, has_flock, held. rewrite flock_sockets.
    destruct (decide (n = name)) as [->|Hne].
    - destruct (sys_flock _ _ _).1 eqn:E.
      + apply flock_grants in E. destruct E as [E|E]; rewrite Hlo in E; congruence.
      + by rewrite flock_refuses.
    - rewrite flock_others by (by intros ?%lock_filename_inj). done. }
  destruct Hf as [Hf Hne]. assert (Hu : has_flock pid n fs = true -> held name owner (unlinked pid n fs)).
  { intros Hk. destruct Hf as [Hlf Hsf]. unfold unlinked.
    destruct (unlink_others pid n (flocked pid n fs) (lock_filename name)) as [H1' _]; [done|].
    destruct (unlink_others pid n (flocked pid n fs) name) as [_ H2']; [by apply Hne|].
    split; congruence. }
  destruct Heff as [| | |Hk|b Hk _]; [by split | done | done | by apply Hu|].
  destruct (Hu Hk) as [Hlu Hsu]. unfold bound. split; [by rewrite bind_locks|].
  by rewrite bind_others by (by apply Hne).
Qed.
Lemma local_effect_own pid n path fs fs' :
  local_effect pid n path fs true fs' -> path = n -> held n pid fs'.
Proof.
  intros Heff ->. inversion Heff as [| | | |b Hk Hb]; subst. specialize (Hb eq_refl).
  assert (Hf : lock_holder (lock_filename n) (flocked pid n fs) = Some pid) by (by apply flock_holds).
  unfold bound. split; [|by apply bind_leads]. rewrite bind_locks. unfold unlinked.
  destruct (unlink_others pid n (flocked pid n fs) (lock_filename n)) as [-> _]; [apply lock_filename_ne | done].
Qed.

(** *** Steps *)
Definition host_configs (p : process) : configs := k_configs (p_client p).
Lemma configs_on_client {A} (m : Km A) : untouched k_configs m -> untouched host_configs (on_client m).
Proof. by apply untouched_zoom. Qed.
Lemma configs_on_files {A} (f : Z -> files -> A * files) : untouched host_configs (on_files f).
Proof. intros p. unfold host_configs. by rewrite host_on_files. Qed.
Lemma configs_listen_local cf : untouched host_configs (flom_listen_local cf).
Proof.
  unfold flom_listen_local, flom_config_get_socket_name.
  repeat (apply untouched_bind; [|intros ?]); solve [solve_untouched | apply configs_on_files |
    apply configs_on_client; first [apply configs_get_str | apply configs_add_listener |
      unfold sys_socket, sys_ok; solve_untouched]].
Qed.

Lemma listen_effect cf p r p' : flom_listen cf p = (r, p') ->
  match served_name (cf, p_client p) with
  | Some n => local_effect (p_pid p) n (sun_path (p_after p) n) (p_files p) (succeeded r) (p_files p')
  | None => p_files p' = p_files p
  end /\ (succeeded r = true -> served_name (cf, p_client p') = served_name (cf, p_client p)).
Proof.
  unfold flom_listen, served_name, mbind, M_bind at 1. rewrite on_client_eq. cbn [fst snd].
  unfold conns_domain, on_knet, zoom, gets. cbn [fst snd].
  replace (put_client _ p) with p by (by destruct p as [? []]). fold (domain_of (p_client p)).
  destruct (domain_of (p_client p) =? AF_UNIX) eqn:Eu.
  - pose proof (listen_local_effect cf p) as Heff. pose proof (configs_listen_local cf p) as Hc.
    pose proof (domain_listen_local cf p) as Hd. unfold M_bind, wp, host_configs, host_domain in *.
    destruct (flom_listen_local cf p) as [[e|c] q]; intros [= <- <-]; cbn [fst snd succeeded] in *.
    + split; [|done]. revert Heff. by destruct (content _ cf socket_name) as [n|]; [|intros []].
    + rewrite Hd, Hc, Eu. split; [|done]. revert Heff.
      by destruct (content _ cf socket_name) as [n|]; [|intros []].
  - destruct (_ || _); [|by intros [= <- <-]]. intros Heq.
    pose proof (untouched_bind p_files _ (fun _ => on_client (flom_listen_udp cf)) (files_listen_tcp cf)
      (fun _ => files_on_client _) p) as Hf.
    pose proof (untouched_bind host_domain _ (fun _ => on_client (flom_listen_udp cf)) (domain_listen_tcp cf)
      (fun _ => domain_on_client _ (domain_listen_udp cf)) p) as Hd.
    unfold mbind in *. rewrite Heq in *. cbn [snd] in *. split; [done|]. intros _.
    unfold host_domain in Hd. by rewrite Hd, Eu.
Qed.

Lemma clean_effect cf p r p' : flom_listen_clean cf p = (r, p') ->
  p_files p' = p_files p \/
  exists n, served_name (cf, p_client p) = Some n /\ p_files p' = (sys_unlink (p_pid p) n (p_files p)).2.
Proof.
  intros Heq. enough (Hwp : wp (flom_listen_clean cf) (fun _ p' => p_files p' = p_files p \/
    exists n, served_name (cf, p_client p) = Some n /\ p_files p' = (sys_unlink (p_pid p) n (p_files p)).2) p).
  { unfold wp in Hwp. by rewrite Heq in Hwp. }
  unfold flom_listen_clean. wp_step. unfold on_client at 1, conns_domain, on_knet at 1. do 3 wp_step.
  replace (put_client _ p) with p by (by destruct p as [? []]). fold (domain_of (p_client p)).
  wp_step. unfold on_client at 1, on_knet. do 2 wp_step.
  apply (wp_untouched (fun _ => tt)); [done|]. intros [e|u] t _; [by left|].
  apply wp_when; intros Hu; [|by left]. wp_step. unfold on_client, on_configs. do 2 wp_step.
  apply get_str_content; [by left|]. wp_step. destruct (content _ _ _) as [n|] eqn:En; [|by left].
  apply wp_ret. wp_step. eapply wp_on_files_host; [reflexivity|]. intros p2 [= _ _ Hp2].
  wp_step. right. exists n. unfold served_name. cbn [fst snd]. by rewrite Hu, <- En.
Qed.

(** Every local daemon that runs holds the lock and the socket of its name. *)
Definition guarded (m : machine) : Prop := forall pid d name,
  m_running m !! pid = Some d -> serves d name -> sound_name name /\ held name pid (m_files m).

Lemma exit_others name owner pid fs :
  owner <> pid -> held name owner fs -> held name owner (process_exit pid fs).
Proof.
  intros Hne [Hl Hs]. split; [|by rewrite exit_sockets]. rewrite exit_releases; [done|].
  rewrite Hl. congruence.
Qed.

Lemma start_guarded m pid cf k names after :
  guarded m -> sound_event (Start pid cf k names after) -> guarded (step m (Start pid cf k names after)).
Proof.
  intros Hg Hsound. cbn [step]. destruct (m_running m !! pid) as [d|] eqn:Hpid; [done|].
  set (p := Process _ pid k names after (m_files m)).
  destruct (flom_listen cf p) as [r p'] eqn:El. apply listen_effect in El as [Heff Hname].
  change (p_client p) with k in *. cbn [p_pid p_after p_files p] in Heff.
  assert (Hothers : forall owner d name, m_running m !! owner = Some d -> serves d name ->
    sound_name name /\ held name owner (p_files p')).
  { intros owner d name Ho Hd. destruct (Hg _ _ _ Ho Hd) as [Hs Hh]. split; [done|].
    destruct (served_name (cf, k)) as [n|] eqn:En; [|by rewrite Heff].
    destruct (Hsound n En) as (Hnul & Hlen & Hlock). destruct Hs as (_ & _ & Hlock').
    eapply local_effect_others; [exact Heff | by apply sun_path_sound | done | done | | done].
    congruence. }
  destruct r as [e|dgram]; cbn [succeeded] in *.
  - intros owner d name Ho Hd. cbn [m_running m_files] in *.
    destruct (Hothers _ _ _ Ho Hd). split; [done|]. apply exit_others; [congruence | done].
  - intros owner d name Ho Hd. cbn [m_running m_files] in *.
    destruct (decide (owner = pid)) as [->|Hne].
    + rewrite lookup_insert_eq in Ho. injection Ho as <-. unfold serves in Hd. rewrite Hname in Hd by done.
      rewrite Hd in Heff. destruct (Hsound name Hd) as (Hnul & Hlen & Hlock). split; [by split_and!|].
      eapply local_effect_own; [exact Heff | by apply sun_path_sound].
    + rewrite lookup_insert_ne in Ho by done. by eapply Hothers.
Qed.

Lemma step_guarded m e : guarded m -> sound_event e -> guarded (step m e).
Proof.
  intros Hg Hsound. destruct e as [pid cf k names after|pid|pid]; [by apply start_guarded|..]; cbn [step];
    destruct (m_running m !! pid) as [[cf k]|] eqn:Hpid; [|done| |done].
  - destruct (flom_listen_clean cf _) as [r p'] eqn:Ec. apply clean_effect in Ec. cbn [p_client p_files p_pid] in Ec.
    intros owner d name Ho Hd. cbn [m_running m_files] in *. apply lookup_delete_Some in Ho as [Hne Ho].
    destruct (Hg _ _ _ Ho Hd) as [Hs Hh]. split; [done|]. apply exit_others; [done|].
    destruct Ec as [->|(n & Hn & ->)]; [done|]. destruct (Hg _ _ _ Hpid Hn) as [Hsn Hhn].
    destruct Hh as [Hl Hso], Hhn as [Hln _]. destruct Hs as (_ & _ & Hs). destruct Hsn as (_ & _ & Hsn).
    unfold held. destruct (unlink_others pid n (m_files m) (lock_filename name)) as [-> _]; [done|].
    destruct (unlink_others pid n (m_files m) name) as [_ ->]; [|done]. congruence.
  - intros owner d name Ho Hd. cbn [m_running m_files] in *. apply lookup_delete_Some in Ho as [Hne Ho].
    destruct (Hg _ _ _ Ho Hd) as [Hs Hh]. split; [done|]. by apply exit_others.
Qed.

Lemma run_guarded l : Forall sound_event l -> forall m, guarded m -> guarded (run_machine l m).
Proof.
  induction 1 as [|e l He _ IH]; intros m Hm; [done|]. apply (IH (step m e)). by apply step_guarded.
Qed.

(** C4: safety.  However daemons are started, stopped and killed on a machine,
    when no socket has a name that is cut or is the one of the lock file of another,
    no two of those that run have the same local socket, and the path of the
    socket of one that runs leads to it: a start that another daemon makes fail
    does not take its socket away, nor does the end of another.  (With such a name
    it does: [lock_file_taken_for_socket].) *)
Theorem one_daemon_per_socket fs l pid d name :
  Forall sound_event l -> let m := run_machine l (Machine fs ∅) in
  m_running m !! pid = Some d -> serves d name ->
  socket_of name (m_files m) = Some pid /\
  forall pid' d', m_running m !! pid' = Some d' -> serves d' name -> pid' = pid.
Proof.
  intros Hl m Hpid Hd. assert (Hg : guarded m) by (apply run_guarded; [done | intros ? ? ? [=]]).
  destruct (Hg _ _ _ Hpid Hd) as [_ [Hlock Hs]]. split; [done|]. intros pid' d' Hpid' Hd'.
  destruct (Hg _ _ _ Hpid' Hd') as [_ [Hlock' _]]. congruence.
Qed.
End machine.

(** ** Witnesses *)

(** The holders of the locks and the owners of the sockets *)
Definition demo_fs : FileSystem := {|
  files := gmap string Z * gmap string Z;
  sys_open := fun _ _ fs => (true, fs);
  sys_flock := fun pid path fs => match fs.1 !! path with
                                  | Some holder => (bool_decide (holder = pid), fs)
                                  | None => (true, (<[path := pid]> fs.1, fs.2))
                                  end;
  sys_unlink := fun _ path fs => match fs.2 !! path with
                                 | Some _ => (0, (fs.1, delete path fs.2))
                                 | None => (ENOENT, fs)
                                 end;
  sys_bind := fun pid path fs => match fs.2 !! path with
                                 | Some _ => (false, fs)
                                 | None => (true, (fs.1, <[path := pid]> fs.2))
                                 end
|}.

#[local] Existing Instance demo_fs.
Definition demo_posix : @Posix demo_fs.
Proof.
  refine (@Build_Posix demo_fs (fun path fs => fs.1 !! path) (fun path fs => fs.2 !! path)
    (fun pid fs => (filter (fun x => x.2 <> pid) fs.1, fs.2)) _ _ _ _ _ _ _ _ _ _ _ _ _); cbn; try done.
  - intros pid path fs. destruct (fs.1 !! path) as [h|]; cbn; [|by left].
    case_bool_decide; [|done]. intros _. right. congruence.
  - intros pid path fs. destruct (fs.1 !! path) as [h|] eqn:E; cbn; [|by rewrite lookup_insert_eq].
    case_bool_decide; [|done]. intros _. congruence.
  - intros pid path fs. by destruct (fs.1 !! path) eqn:E.
  - intros pid path fs q Hne. destruct (fs.1 !! path); cbn; [done|]. by rewrite lookup_insert_ne.
  - intros pid path fs q. by destruct (fs.1 !! path).
  - intros pid path fs q Hne. destruct (fs.2 !! path); cbn; [|done]. by rewrite lookup_delete_ne.
  - intros pid path fs. destruct (fs.2 !! path); cbn; [done|]. by rewrite lookup_insert_eq.
  - intros pid path fs q Hne. destruct (fs.2 !! path); cbn; [done|]. by rewrite lookup_insert_ne.
  - intros pid path fs q. by destruct (fs.2 !! path).
  - intros pid fs q Hne. destruct (fs.1 !! q) as [h|] eqn:E.
    + apply map_lookup_filter_Some. split; [done|]. cbn. intros ->. by apply Hne.
    + apply map_lookup_filter_None. by left.
Defined.

#[local] Existing Instance demo_posix.

(** A local daemon, and one that answers to discoveries *)
Definition demo_configs : configs := Configs
  {[ 1%positive := "/tmp/flom-ann"; 2%positive := "224.0.0.1" ]} 3
  (set_str socket_name (Some 1%positive) zero_config)
  {[ 5%positive := set_int multicast_port 28015 (set_str multicast_address (Some 2%positive) zero_config) ]}.
Definition demo_host (domain : Z) (fds : list Z) : client :=
  put_knet (put_conns (flom_conns_init domain) (k_net (demo_client [] [])))
    (put_configs demo_configs (put_addrs [Some [Addr Inet []]] (demo_client fds []))).
Definition demo_process (domain : Z) : process :=
  Process _ 100 (demo_host domain [4; 5]) [Some (Inet, 40000)] "" (∅, ∅).

Lemma daemon_listens_witness :
  let '(r, p) := @flom_listen demo_fs (Some 5%positive) (demo_process AF_INET) in
  r = inr (Some 3%positive) /\ table_of (p_client p) = [2%positive; 3%positive] /\
  ready_to_accept (Some 5%positive) (Some 3%positive) (p_client p).
Proof.
  assert (Hr : (@flom_listen demo_fs (Some 5%positive) (demo_process AF_INET)).1 =
    inr (Some 3%positive)) by (vm_compute; reflexivity).
  assert (Ht : table_of (p_client (@flom_listen demo_fs (Some 5%positive) (demo_process AF_INET)).2)
    = [2%positive; 3%positive]) by (vm_compute; reflexivity).
  pose proof (@daemon_listens demo_fs (Some 5%positive) (demo_process AF_INET) eq_refl) as Hd.
  unfold wp in Hd. rewrite Hr in Hd. revert Hr Ht Hd.
  destruct (@flom_listen demo_fs (Some 5%positive) (demo_process AF_INET)) as [r p].
  cbn [fst snd]. intros -> Ht Hd. exact (conj eq_refl (conj Ht Hd)).
Defined.

Lemma demo_strings r c f l : config_at demo_configs r = Some c -> strs c f = Some l ->
  (r = None /\ f = socket_name /\ l = 1%positive) \/
  (r = Some 5%positive /\ f = multicast_address /\ l = 2%positive).
Proof.
  destruct r as [p|]; cbn.
  - intros [<- <-]%lookup_singleton_Some. cbn. case_decide; [|done]. intros [= <-]. by right.
  - intros [= <-]. cbn. case_decide; [|done]. intros [= <-]. by left.
Qed.
Lemma demo_owned : owned demo_configs.
Proof.
  split.
  - intros r c f l Hc Hl _. destruct (demo_strings r c f l Hc Hl) as [(_ & _ & ->)|(_ & _ & ->)]; by eexists.
  - intros r c f l r' c' f' Hc Hl _ Hc' Hl' _.
    destruct (demo_strings r c f l Hc Hl) as [(-> & -> & ->)|(-> & -> & ->)],
      (demo_strings r' c' f' _ Hc' Hl') as [(-> & -> & [=])|(-> & -> & [=])]; done.
  - intros r c f l Hc Hl. by destruct (demo_strings r c f l Hc Hl) as [(_ & _ & ->)|(_ & _ & ->)].
Qed.

(** The daemon is started; and its process is killed before it writes its answer. *)
Definition demo_birth (calls : list bool) : birth :=
  Birth 101 calls true [Some 6; Some 8] [Some [Addr Inet []]] [Some (Inet, 40000)].
Definition demo_start (calls : list bool) :=
  @flom_daemon demo_fs (Some 5%positive) AF_INET [4; 5] (demo_birth calls) (demo_process AF_INET).

Definition answered_ok (x : (err + outcome * option (process * option conn_ref)) * process) : bool :=
  match x.1 with inr (Returns rc, Some _) => rc =? FLOM_RC_OK | _ => false end.

Lemma daemon_start_answers_witness :
  (exists o run p', demo_start [] = (inr (o, run), p') /\ answered_ok (demo_start []) = true /\
     exists q, newborn AF_INET (demo_birth []) (demo_process AF_INET) q /\
       o = told (flom_listen (Some 5%positive) q).1) /\
  (exists p', demo_start [true; false] = (inr (Hangs, None), p')).
Proof.
  assert (Hobj : is_Some (config_at (k_configs (p_client (demo_process AF_INET))) (Some 5%positive)))
    by by eexists.
  split.
  - destruct (@daemon_start_answers demo_fs (Some 5%positive) AF_INET [4; 5] (demo_birth [])
      (demo_process AF_INET) (Forall_nil_2 _) demo_owned Hobj) as (o & run & p' & Heq & q & Hq & Ho & _).
    exists o, run, p'. split; [exact Heq|]. split; [vm_compute; reflexivity|]. exists q. exact (conj Hq Ho).
  - destruct (@daemon_start_answers demo_fs (Some 5%positive) AF_INET [4; 5] (demo_birth [true; false])
      (demo_process AF_INET) (Forall_nil_2 _) demo_owned Hobj) as (o & run & p' & Heq & Ho & Hrun).
    exists p'. rewrite <- Ho, <- Hrun. exact Heq.
Defined.

(** The second daemon is refused, whose name the third, started after the first
    has been killed, takes over. *)
Definition demo_starting (pid : Z) : event := Start pid None (demo_host AF_UNIX [4]) [] "".
Definition demo_day : list event := [demo_starting 100; demo_starting 101; Die 100; demo_starting 102].
Definition demo_machine : machine := @run_machine demo_fs demo_posix demo_day (Machine (∅, ∅) ∅).

Lemma demo_sound pid : sound_event (demo_starting pid).
Proof.
  intros name Hn. assert (name = "/tmp/flom-ann") as -> by (unfold serves in Hn; vm_compute in Hn; congruence).
  split; [reflexivity|]. split; [reflexivity|]. intros n Heq. unfold lock_filename in Heq.
  assert (Hl : substring (String.length n) 5 (n ++ ".lock") = ".lock").
  { clear Heq. induction n; [done|]. exact IHn. }
  rewrite <- Heq in Hl. apply (f_equal String.length) in Heq. rewrite length_string_app in Heq. cbn in Heq.
  assert (String.length n = 8%nat) as Hn8 by lia. by rewrite Hn8 in Hl.
Qed.

Lemma one_daemon_per_socket_witness :
  map fst (map_to_list (m_running demo_machine)) = [102] /\
  socket_of "/tmp/flom-ann" (m_files demo_machine) = Some 102.
Proof.
  split; [vm_compute; reflexivity|].
  assert (Hd : exists d, m_running demo_machine !! 102 = Some d /\ serves d "/tmp/flom-ann").
  { eexists. split; vm_compute; reflexivity. }
  destruct Hd as (d & Hd & Hs).
  refine (proj1 (@one_daemon_per_socket demo_fs demo_posix (∅, ∅) demo_day 102 d "/tmp/flom-ann" _ Hd Hs)).
  exact (Forall_cons_2 _ _ _ (demo_sound 100) (Forall_cons_2 _ _ _ (demo_sound 101)
    (Forall_cons_2 _ (Die 100) _ I (Forall_cons_2 _ _ _ (demo_sound 102) (Forall_nil_2 _))))).
Defined.

(** ** What goes wrong *)

(** Files as a directory has them: a file with the lock that a process has on it, or
    the socket of a process *)
Inductive entry : Type :=
| LockFile (holder : option Z)
| SocketFile (owner : Z).

Definition directory : FileSystem := {|
  files := gmap string entry;
  sys_open := fun _ path fs => match fs !! path with
                               | None => (true, <[path := LockFile None]> fs)
                               | Some (LockFile _) => (true, fs)
                               | Some (SocketFile _) => (false, fs)
                               end;
  sys_flock := fun pid path fs => match fs !! path with
                                  | Some (LockFile None) => (true, <[path := LockFile (Some pid)]> fs)
                                  | Some (LockFile (Some h)) => (bool_decide (h = pid), fs)
                                  | _ => (false, fs)
                                  end;
  sys_unlink := fun _ path fs => match fs !! path with
                                 | Some _ => (0, delete path fs)
                                 | None => (ENOENT, fs)
                                 end;
  sys_bind := fun pid path fs => match fs !! path with
                                 | Some _ => (false, fs)
                                 | None => (true, <[path := SocketFile pid]> fs)
                                 end
|}.

Definition holder_in (path : string) (fs : gmap string entry) : option Z :=
  match fs !! path with Some (LockFile h) => h | _ => None end.
Definition owner_in (path : string) (fs : gmap string entry) : option Z :=
  match fs !! path with Some (SocketFile o) => Some o | _ => None end.
Definition without_locks (pid : Z) (e : entry) : entry :=
  match e with LockFile (Some h) => LockFile (if h =? pid then None else Some h) | _ => e end.

Ltac by_entry fs path :=
  unfold holder_in, owner_in; destruct (fs !! path) as [[[]|]|] eqn:E; cbn;
  try case_bool_decide; rewrite ?lookup_insert_eq, ?lookup_insert_ne, ?lookup_delete_ne by done;
  rewrite ?E; naive_solver.

Definition directory_posix : @Posix directory.
Proof.
  refine (@Build_Posix directory holder_in owner_in (fun pid fs => without_locks pid <$> fs)
    _ _ _ _ _ _ _ _ _ _ _ _ _); cbn; change (@files directory) with (gmap string entry); intros.
  - destruct (decide (path = q)) as [<-|Hne]; by_entry fs path.
  - by_entry fs path.
  - revert H. by_entry fs path.
  - revert H. by_entry fs path.
  - revert H. by_entry fs path.
  - by_entry fs path.
  - destruct (decide (path = q)) as [<-|Hne]; by_entry fs path.
  - by_entry fs path.
  - revert H. by_entry fs path.
  - by_entry fs path.
  - destruct (decide (path = q)) as [<-|Hne]; by_entry fs path.
  - revert H. unfold holder_in. rewrite lookup_fmap. destruct (fs !! q) as [[[h|]|]|]; cbn; try done.
    intros Hne. rewrite (proj2 (Z.eqb_neq h pid)) by congruence. done.
  - unfold owner_in. rewrite lookup_fmap. by destruct (fs !! q) as [[[h|]|]|].
Defined.

(** The name of the second daemon is the one of the lock file of the first: it takes
    that file away, and when it has stopped a third daemon listens on the socket of
    the first, which still runs. *)
Definition named_host (name : string) : client :=
  put_knet (put_conns (flom_conns_init AF_UNIX) (k_net (demo_client [] [])))
    (put_configs (Configs {[ 1%positive := name ]} 3
       (set_str socket_name (Some 1%positive) zero_config) ∅)
      (put_addrs [Some [Addr Inet []]] (demo_client [4] []))).
Definition named_start (pid : Z) (name : string) : event := Start pid None (named_host name) [] "".
Definition clash_day : list event :=
  [named_start 100 "/tmp/a"; named_start 101 "/tmp/a.lock"; Stop 101; named_start 102 "/tmp/a"].

Theorem lock_file_taken_for_socket :
  let m := @run_machine directory directory_posix clash_day (@Machine directory ∅ ∅) in
  (served_name <$> m_running m !! 100) = Some (Some "/tmp/a") /\
  (served_name <$> m_running m !! 102) = Some (Some "/tmp/a") /\
  @socket_of directory directory_posix "/tmp/a" (m_files m) = Some 102.
Proof. vm_compute. split_and!; reflexivity. Qed.
