(* ===== verification/Command.v ===== *)
(** * Command: the options of the command line

    The variables that the option parser of [src/src/main.c] fills, how [main]
    writes them in the global configuration, over what the files have put there,
    and which of them win. *)
From Stdlib Require Import ZArith String List Lia.
From stdpp Require Import base list gmap numbers strings.
From S2P Require Import Prelude Types CStr RsrcName Msg MsgXml Vfs World Trace Config.
From S2P Require Import ConfigFile ConnLock Conns Locker Connect Client Handle Session Settings.
Local Open Scope string_scope.
Local Open Scope Z_scope.

(** ** The options

    A member for each of the variables of [main.c]; [None] is NULL. *)
Record options : Type := Options {
  o_print_version : bool;
  o_verbose : Z;
  o_config_file : option string;
  o_socket_name : option string;
  o_resource_name : option string;
  o_resource_timeout : Z;
  o_resource_quantity : Z;
  o_resource_create : option string;
  o_resource_idle_lifespan : Z;
  o_lock_mode : option string;
  o_daemon_lifespan : Z;
  o_unicast_address : option string;
  o_unicast_port : Z;
  o_multicast_address : option string;
  o_multicast_port : Z;
  o_mount_point_vfs : option string;
  o_network_interface : option string;
  o_discovery_attempts : Z;
  o_discovery_timeout : Z;
  o_discovery_ttl : Z;
  o_tcp_keepalive_time : Z;
  o_tcp_keepalive_intvl : Z;
  o_tcp_keepalive_probes : Z;
  o_tls_certificate : option string;
  o_tls_private_key : option string;
  o_tls_ca_certificate : option string;
  o_tls_check_peer_id : option string;
  o_ignore_signals : option (list string);
  o_signal_list : bool;
  o_quiesce_exit : Z;
  o_immediate_exit : Z;
  o_command_trace_file : option string;
  o_daemon_trace_file : option string;
  o_append_trace_file : option string;
  o_unique_id : bool;
  o_command : option (list string)
}.

(** The values of a command line without options *)
Definition no_options : options :=
  Options false 0 None None None FLOM_NETWORK_WAIT_TIMEOUT 0 None 0 None
    (default_int daemon_lifespan) None (default_int unicast_port) None (default_int multicast_port) None None
    (default_int discovery_attempts) (default_int discovery_timeout) (default_int discovery_ttl)
    (default_int tcp_keepalive_time) (default_int tcp_keepalive_intvl) (default_int tcp_keepalive_probes)
    None None None None None false 0 0 None None None false None.

(** ** Writing them in the configuration *)

(** An option that has been given *)
Definition if_given {A} (o : option A) (set : A -> Gm unit) : Gm unit :=
  match o with Some x => set x | None => mret tt end.
(** An option that is told to be given from its not being the default *)
Definition unless_equal (d v : Z) (set : Z -> Gm unit) : Gm unit := when (negb (d =? v)) (set v).
(** A setter whose failure ends the process *)
Definition must (m : Gm Z) : Gm unit :=
  rc ← m; when (negb (rc =? FLOM_RC_OK)) (throw (Rc rc)).
(** An option that says yes or no *)
Definition yes_or_no (set : Z -> Gm unit) (text : string) : Gm unit :=
  match flom_bool_value_retrieve text with
  | FLOM_BOOL_INVALID => throw (Rc FLOM_RC_INVALID_OPTION)
  | FLOM_BOOL_NO => set 0
  | FLOM_BOOL_YES => set 1
  end.

Section options.
Context `{System}.

Definition apply_resource_options (o : options) : Gm unit :=
  _ ← if_given (o_daemon_trace_file o) (fun x => flom_config_set_daemon_trace_file None (Some x));
  _ ← if_given (o_command_trace_file o) (fun x => flom_config_set_command_trace_file None (Some x));
  _ ← when (negb (o_verbose o =? 0)) (flom_config_set_verbose None (o_verbose o));
  _ ← if_given (o_resource_name o) (fun x => must (flom_config_set_resource_name None (Some x)));
  _ ← when (0 <? o_resource_quantity o)
        (flom_config_set_resource_quantity None (o_resource_quantity o));
  _ ← unless_equal FLOM_NETWORK_WAIT_TIMEOUT (o_resource_timeout o) (flom_config_set_resource_timeout None);
  _ ← if_given (o_lock_mode o) (fun x =>
        let flm := flom_lock_mode_retrieve x in
        if flm =? FLOM_LOCK_MODE_INVALID then throw (Rc FLOM_RC_INVALID_OPTION)
        else flom_config_set_lock_mode None flm);
  _ ← if_given (o_resource_create o) (yes_or_no (flom_config_set_resource_create None));
  flom_config_set_resource_idle_lifespan None (o_resource_idle_lifespan o).

Definition apply_daemon_options (o : options) : Gm unit :=
  _ ← if_given (o_socket_name o) (fun x => must (flom_config_set_socket_name None (Some x)));
  _ ← unless_equal (default_int daemon_lifespan) (o_daemon_lifespan o) (flom_config_set_lifespan None);
  _ ← if_given (o_unicast_address o) (fun x => flom_config_set_unicast_address None (Some x));
  _ ← unless_equal (default_int unicast_port) (o_unicast_port o) (flom_config_set_unicast_port None);
  _ ← if_given (o_multicast_address o) (fun x => flom_config_set_multicast_address None (Some x));
  _ ← unless_equal (default_int multicast_port) (o_multicast_port o) (flom_config_set_multicast_port None);
  if_given (o_mount_point_vfs o) (fun x => must (flom_config_set_mount_point_vfs None x)).

(** What the setter of the interface answers is not looked at. *)
Definition apply_network_options (o : options) : Gm unit :=
  _ ← if_given (o_network_interface o) (fun x =>
        _ ← flom_config_set_network_interface None (Some x); mret tt);
  _ ← unless_equal (default_int discovery_attempts) (o_discovery_attempts o)
        (flom_config_set_discovery_attempts None);
  _ ← unless_equal (default_int discovery_timeout) (o_discovery_timeout o)
        (flom_config_set_discovery_timeout None);
  _ ← unless_equal (default_int discovery_ttl) (o_discovery_ttl o) (flom_config_set_discovery_ttl None);
  _ ← unless_equal (default_int tcp_keepalive_time) (o_tcp_keepalive_time o)
        (flom_config_set_tcp_keepalive_time None);
  _ ← unless_equal (default_int tcp_keepalive_intvl) (o_tcp_keepalive_intvl o)
        (flom_config_set_tcp_keepalive_intvl None);
  unless_equal (default_int tcp_keepalive_probes) (o_tcp_keepalive_probes o)
    (flom_config_set_tcp_keepalive_probes None).

Definition apply_tls_options (o : options) : Gm unit :=
  _ ← if_given (o_ignore_signals o) (fun l => flom_config_set_ignored_signals None (Some l));
  _ ← if_given (o_tls_certificate o) (fun x => must (flom_config_set_tls_certificate None (Some x)));
  _ ← if_given (o_tls_private_key o) (fun x => must (flom_config_set_tls_private_key None (Some x)));
  _ ← if_given (o_tls_ca_certificate o) (fun x => must (flom_config_set_tls_ca_certificate None (Some x)));
  _ ← if_given (o_tls_check_peer_id o) (yes_or_no (flom_config_set_tls_check_peer_id None));
  if_given (o_append_trace_file o) (yes_or_no (flom_config_set_append_trace_file None)).

Definition apply_options (o : options) : Gm unit :=
  _ ← apply_resource_options o;
  _ ← apply_daemon_options o;
  _ ← apply_network_options o;
  apply_tls_options o.

(** The configuration of the command: the built-in values, the files, the
    options, the check *)
Definition command_config (o : options) : Gm unit :=
  _ ← flom_config_reset None;
  _ ← flom_config_init None (o_config_file o);
  _ ← apply_options o;
  must (flom_config_check None).
End options.

(** ** Which of them win *)

(** A change of some members: the numbers and the strings they have next *)
Record change : Type := Change {
  new_number : int_member -> option Z;
  new_text : string_member -> option string
}.
Definition over {A} (x y : option A) : option A := match x with Some a => Some a | None => y end.
Definition then_ (c d : change) : change :=
  Change (fun f => over (new_number d f) (new_number c f)) (fun f => over (new_text d f) (new_text c f)).
Definition nothing : change := Change (fun _ => None) (fun _ => None).
Definition one_number (f : int_member) (v : Z) : change :=
  Change (fun g => if decide (g = f) then Some v else None) (fun _ => None).
Definition one_text (f : string_member) (x : string) : change :=
  Change (fun _ => None) (fun g => if decide (g = f) then Some x else None).

(** The global object after a change *)
Definition changed (c : change) (s s' : configs) : Prop :=
  owned s' /\ (forall f, number s' None f = over (new_number c f) (number s None f)) /\
  (forall f, content s' None f = over (new_text c f) (content s None f)).

(** A program that, when it succeeds, makes this change *)
Definition makes {A} (c : change) (m : Gm A) : Prop := forall s, owned s ->
  wp m (fun x s' => match x with inr _ => changed c s s' | inl _ => True end) s.

Lemma changed_nothing s : owned s -> changed nothing s s.
Proof. done. Qed.
Lemma makes_ret {A} (a : A) : makes nothing (mret a).
Proof. intros s Ho. by wp_step. Qed.
Lemma makes_throw {A} c e : makes c (throw (A := A) e).
Proof. done. Qed.
Lemma makes_bind {A B} c d (m : Gm A) (k : A -> Gm B) :
  makes c m -> (forall a, makes d (k a)) -> makes (then_ c d) (m ≫= k).
Proof.
  intros Hm Hk s Ho. wp_step. eapply wp_mono; [|by apply Hm].
  intros [e|a] s1; [done|]. intros (Ho1 & Hn1 & Ht1). eapply wp_mono; [|by apply Hk].
  intros [e|b] s2; [done|]. intros (Ho2 & Hn2 & Ht2). split; [done|].
  split; intros f; cbn [new_number new_text then_]; [rewrite Hn2, Hn1 | rewrite Ht2, Ht1].
  - by destruct (new_number d f).
  - by destruct (new_text d f).
Qed.
Lemma makes_weaken {A} c d (m : Gm A) :
  (forall f, new_number c f = new_number d f) -> (forall f, new_text c f = new_text d f) ->
  makes c m -> makes d m.
Proof.
  intros Hn Ht Hm s Ho. eapply wp_mono; [|by apply Hm]. intros [e|a] s'; [done|].
  intros (Ho' & Hn' & Ht'). split; [done|]. split; intros f; [by rewrite <- Hn | by rewrite <- Ht].
Qed.

Lemma global_object s : is_Some (config_at s None).
Proof. by eexists. Qed.
Lemma makes_put_int f v : makes (one_number f v) (put_int f None v).
Proof.
  intros s Ho. eapply wp_put_int; [done | apply global_object|]. intros s' Ho' Hn. split; [done|].
  split; intros g; cbn [new_number new_text one_number]; [|apply (rn_content _ _ _ _ _ Hn)].
  rewrite (rn_number _ _ _ _ _ Hn). destruct (decide (g = f)) as [->|Hg];
    [by rewrite decide_True | by rewrite decide_False by tauto].
Qed.
Lemma makes_put_str f x : makes (one_text f x) (put_str f None (Some x)).
Proof.
  intros s Ho. eapply wp_put_str; [exact Ho | reflexivity | exact id|]. intros s' Ho' Hv Hf. split; [done|].
  split; intros g; cbn [new_number new_text one_text]; [apply (fr_number _ _ _ Hf)|]. case_decide as Hg; [by subst|].
  apply (fr_content _ _ _ Hf). unfold the_member. tauto.
Qed.
Lemma makes_signals l : makes nothing (flom_config_set_ignored_signals None l).
Proof.
  intros s Ho. pose proof (keeps_signals None l s Ho (global_object s)) as [Ho' _].
  destruct l as [l|]; exact (conj Ho' (conj (fun _ => eq_refl) (fun _ => eq_refl))).
Qed.

Lemma makes_when (b : bool) c m :
  makes c m -> makes (if b then c else nothing) (when b m).
Proof. destruct b; [done|]. intros _. apply makes_ret. Qed.
Lemma makes_if_given {A} (o : option A) c (set : A -> Gm unit) :
  (forall x, makes (c x) (set x)) -> makes (match o with Some x => c x | None => nothing end) (if_given o set).
Proof. intros Hs. destruct o; [apply Hs | apply makes_ret]. Qed.
Lemma makes_must c (m : Gm Z) : (forall s, owned s ->
  wp m (fun x s' => x = inr FLOM_RC_OK -> changed c s s') s) -> makes c (must m).
Proof.
  intros Hm s Ho. unfold must. wp_step. eapply wp_mono; [|by apply Hm].
  intros [e|rc] s' Hc; [done|]. wp_step; [by wp_step|]. apply Hc. f_equal. lia.
Qed.
Lemma makes_yes_or_no f text set : (forall v s, set v s = put_int f None v s) ->
  makes (match flom_bool_value_retrieve text with
         | FLOM_BOOL_YES => one_number f 1
         | FLOM_BOOL_NO => one_number f 0
         | FLOM_BOOL_INVALID => nothing
         end) (yes_or_no set text).
Proof.
  intros Hs. unfold yes_or_no. destruct (flom_bool_value_retrieve text); [..|apply makes_throw].
  all: intros s Ho; unfold wp; rewrite Hs; by apply makes_put_int.
Qed.

(** A setter that drops the sign of its value *)
Lemma makes_absolute f g v :
  makes (one_number f (g (Z.abs v))) (z ← absolute v; put_int f None (g z)).
Proof.
  intros s Ho. destruct (decide (v = -2147483648)) as [->|Hv]; [done|].
  unfold mbind, M_bind, wp. rewrite absolute_eq by done. by apply makes_put_int.
Qed.
Lemma makes_absolute_nonzero f v :
  makes (if v =? 0 then nothing else one_number f (Z.abs v))
    (z ← absolute v; when (negb (z =? 0)) (put_int f None z)).
Proof.
  intros s Ho. destruct (decide (v = -2147483648)) as [->|Hv]; [done|].
  unfold mbind, M_bind, wp. rewrite absolute_eq by done. destruct (Z.eqb_spec v 0) as [->|Hz]; [done|].
  rewrite (proj2 (Z.eqb_neq (Z.abs v) 0)) by lia. by apply makes_put_int.
Qed.

Lemma must_error c rc : rc <> FLOM_RC_OK -> makes c (must (mret rc)).
Proof. intros Hrc. apply makes_must. intros s Ho. wp_step. by intros [= ->]. Qed.
Lemma must_ok c (m : Gm unit) : makes c m -> makes c (must (_ ← m; mret FLOM_RC_OK)).
Proof.
  intros Hm. apply makes_must. intros s Ho. wp_step. eapply wp_mono; [|by apply Hm].
  intros [e|[]] s' Hc; [done|]. by wp_step.
Qed.
Lemma makes_ok c (m : Gm unit) : makes c m -> makes c (_ ← m; mret FLOM_RC_OK).
Proof.
  intros Hm s Ho. wp_step. eapply wp_mono; [|by apply Hm]. intros [e|[]] s' Hc; [done|]. by wp_step.
Qed.
Lemma makes_socket_name x : makes (one_text socket_name x) (must (flom_config_set_socket_name None (Some x))).
Proof.
  unfold flom_config_set_socket_name. destruct (_ <=? _); [by apply must_error|].
  apply must_ok, makes_put_str.
Qed.
Lemma makes_resource_name x :
  makes (then_ (one_text resource_name x)
           (one_number resource_transactional (if flom_rsrc_get_transactional x then 1 else 0)))
    (must (flom_config_set_resource_name None (Some x))).
Proof.
  apply makes_must. intros s Ho. unfold flom_config_set_resource_name. wp_step. apply wp_ret. wp_step.
  destruct (String.eqb x DEFAULT_RESOURCE_NAME || bool_decide (flom_rsrc_get_type x = FLOM_RSRC_TYPE_NULL))
    eqn:Ex.
  - apply orb_true_iff in Ex. eapply (wp_mono _ (fun r _ => r = inr FLOM_RC_INVALID_RESOURCE_NAME)).
    + intros r s1 ->. wp_step. unfold put_int. wp_step. eapply wp_the_config; [reflexivity|]. wp_step.
      wp_step. by intros [=].
    + destruct (String.eqb x _); [by wp_step|]. destruct Ex as [Ex|Ex]; [done|]. rewrite Ex. by wp_step.
  - apply orb_false_iff in Ex as [-> ->]. wp_step. eapply wp_mono; [|by apply makes_put_str].
    intros [e|[]] s1 Hc1; [done|]. wp_step. wp_step. eapply wp_mono; [|apply makes_put_int; by apply Hc1].
    intros [e|[]] s2 Hc2; [done|]. wp_step. intros _.
    destruct Hc1 as (_ & Hn1 & Ht1), Hc2 as (Ho2 & Hn2 & Ht2). split; [done|].
    split; intros f; cbn [new_number new_text then_]; [rewrite Hn2, Hn1 | rewrite Ht2, Ht1];
      [by destruct (new_number (one_number _ _) f) | by destruct (new_text (one_number _ _) f)].
Qed.

Section makes_options.
Context `{System}.

(** The interface of a name, when it is one of IPv6 *)
Definition interface_named (x : string) : option ifaddr :=
  l ← getifaddrs; List.find (fun i => String.eqb x (ifa_name i)) (filter (fun i => ifa_inet6 i = true) l).

Lemma makes_mount_point x :
  makes (one_text mount_point_vfs x) (must (flom_config_set_mount_point_vfs None x)).
Proof.
  unfold flom_config_set_mount_point_vfs. destruct (directory x) as [[]|]; [|by apply must_error..].
  apply must_ok, makes_put_str.
Qed.
Lemma makes_real_path f x :
  makes (match realpath x with Some path => one_text f path | None => nothing end)
    (must (put_real_path f None (Some x))).
Proof.
  unfold put_real_path. cbn. destruct (realpath x) as [path|]; [apply must_ok, makes_put_str | by apply must_error].
Qed.
Lemma makes_interface x :
  makes (match interface_named x with
         | Some i => then_ (one_number sin6_scope_id (ifa_scope_id i)) (one_text network_interface x)
         | None => nothing
         end) (_ ← flom_config_set_network_interface None (Some x); mret tt).
Proof.
  intros s Ho. unfold flom_config_set_network_interface, interface_named.
  destruct getifaddrs as [l|]; [|done]. cbn [mbind option_bind].
  destruct (filter _ l) as [|i0 l'] eqn:El; [done|].
  wp_step. wp_step. apply wp_ret. destruct (List.find _ (i0 :: l')) as [i|]; [|by do 2 wp_step].
  eapply (wp_mono _ (fun r s' => match r with inr _ => _ s' | inl _ => True end));
    [|apply (makes_bind _ _ _ _ (makes_put_int _ _) (fun _ => makes_ok _ _ (makes_put_str _ _)) s Ho)].
  intros [e|rc] s1 Hc; [done|]. by wp_step.
Qed.

(** *** What the options say

    A number that equals the built-in default cannot be told from no option. *)
Definition differs (d v : Z) : option Z := if d =? v then None else Some v.
Definition nonzero (v : Z) : option Z := if v =? 0 then None else Some v.
Definition boolean (text : string) : option Z :=
  match flom_bool_value_retrieve text with
  | FLOM_BOOL_NO => Some 0
  | FLOM_BOOL_YES => Some 1
  | FLOM_BOOL_INVALID => None
  end.

Definition option_number (o : options) (f : int_member) : option Z :=
  let number v := differs (default_int f) v in
  match f with
  | append_trace_file => o_append_trace_file o ≫= boolean
  | verbose => nonzero (o_verbose o)
  | daemon_lifespan => number (o_daemon_lifespan o)
  | resource_transactional =>
      (fun x => if flom_rsrc_get_transactional x then 1 else 0) <$> o_resource_name o
  | resource_create => o_resource_create o ≫= boolean
  | resource_idle_lifespan => Z.abs <$> nonzero (o_resource_idle_lifespan o)
  | Config.resource_timeout => number (o_resource_timeout o)
  | resource_quantity => if 0 <? o_resource_quantity o then Some (o_resource_quantity o) else None
  | config_lock_mode => flom_lock_mode_retrieve <$> o_lock_mode o
  | unicast_port => Z.abs <$> number (o_unicast_port o)
  | multicast_port => Z.abs <$> number (o_multicast_port o)
  | sin6_scope_id => ifa_scope_id <$> (o_network_interface o ≫= interface_named)
  | discovery_attempts => Z.max 1 ∘ Z.abs <$> number (o_discovery_attempts o)
  | discovery_timeout => Z.abs <$> number (o_discovery_timeout o)
  | discovery_ttl => Z.max 1 ∘ Z.abs <$> number (o_discovery_ttl o)
  | tcp_keepalive_time => Z.abs <$> number (o_tcp_keepalive_time o)
  | tcp_keepalive_intvl => Z.abs <$> number (o_tcp_keepalive_intvl o)
  | tcp_keepalive_probes => Z.abs <$> number (o_tcp_keepalive_probes o)
  | tls_check_peer_id => o_tls_check_peer_id o ≫= boolean
  end.
Definition option_text (o : options) (f : string_member) : option string :=
  match f with
  | socket_name => o_socket_name o
  | daemon_trace_file => o_daemon_trace_file o
  | command_trace_file => o_command_trace_file o
  | resource_name => o_resource_name o
  | unicast_address => o_unicast_address o
  | multicast_address => o_multicast_address o
  | mount_point_vfs => o_mount_point_vfs o
  | network_interface => x ← o_network_interface o; _ ← interface_named x; Some x
  | tls_certificate => o_tls_certificate o ≫= realpath
  | tls_private_key => o_tls_private_key o ≫= realpath
  | tls_ca_certificate => o_tls_ca_certificate o ≫= realpath
  end.
Definition option_change (o : options) : change := Change (option_number o) (option_text o).

Lemma makes_at_least_one f v :
  makes (one_number f (Z.max 1 (Z.abs v)))
    (z ← absolute v; put_int f None (if z =? 0 then 1 else z)).
Proof.
  pose proof (makes_absolute f (fun z => if z =? 0 then 1 else z) v) as Hm. cbv beta in Hm.
  replace (Z.max 1 (Z.abs v)) with (if Z.abs v =? 0 then 1 else Z.abs v); [exact Hm|].
  destruct (Z.eqb_spec (Z.abs v) 0); lia.
Qed.
Lemma makes_lock_mode x :
  makes (one_number config_lock_mode (flom_lock_mode_retrieve x))
    (let flm := flom_lock_mode_retrieve x in
     if flm =? FLOM_LOCK_MODE_INVALID then throw (Rc FLOM_RC_INVALID_OPTION)
     else flom_config_set_lock_mode None flm).
Proof. cbv zeta. destruct (_ =? _); [apply makes_throw | apply makes_put_int]. Qed.
Lemma makes_plain_absolute f v : makes (one_number f (Z.abs v)) (z ← absolute v; put_int f None z).
Proof. exact (makes_absolute f id v). Qed.

Ltac makes_options :=
  repeat first
    [ eapply makes_if_given; intros ?
    | apply makes_interface
    | apply makes_put_str
    | apply makes_put_int
    | apply makes_socket_name
    | apply makes_resource_name
    | apply makes_mount_point
    | apply makes_real_path
    | apply makes_signals
    | apply makes_lock_mode
    | apply makes_plain_absolute
    | apply makes_at_least_one
    | apply makes_absolute_nonzero
    | apply makes_yes_or_no; reflexivity
    | eapply makes_when
    | eapply makes_bind; [|intros ?] ].

(** The part of a change that an option does not reach is nothing. *)
Ltac by_cases :=
  repeat match goal with
         | |- context [match ?x with _ => _ end] =>
             lazymatch x with context [match _ with _ => _ end] => fail | _ => destruct x end
         end; reflexivity.
Ltac by_equality :=
  change (default_int Config.resource_timeout) with FLOM_NETWORK_WAIT_TIMEOUT;
  repeat match goal with |- context [?a =? ?b] => destruct (Z.eqb_spec a b); cbn [negb] end;
  repeat match goal with |- context [?a <? ?b] => destruct (Z.ltb_spec a b) end;
  rewrite ?Z.abs_eq by lia; first [reflexivity | lia].
Ltac by_option :=
  match goal with |- context [match ?x with Some _ => _ | None => _ end] => destruct x end;
  cbn [mbind option_bind fmap option_fmap option_map]; by_cases.
Ltac drop_others :=
  repeat match goal with
         | |- context [new_number ?c ?f] => replace (new_number c f) with (@None Z) by by_cases
         | |- context [new_text ?c ?f] => replace (new_text c f) with (@None string) by by_cases
         end;
  cbn [over].

Lemma over_none {A} (x : option A) : over x None = x.
Proof. by destruct x. Qed.

Lemma makes_command_line o : makes (option_change o) (apply_options o).
Proof.
  eapply makes_weaken; cycle 2.
  - unfold apply_options, apply_resource_options, apply_daemon_options, apply_network_options,
      apply_tls_options, unless_equal. makes_options.
  - intros f. cbn [new_number then_ option_change].
    destruct f; drop_others; rewrite ?over_none; cbn [option_number]; unfold differs, nonzero, boolean;
      solve [by_cases | by_equality | by_option].
  - intros f. cbn [new_text then_ option_change].
    destruct f; drop_others; rewrite ?over_none; cbn [option_text]; solve [by_cases | by_option].
Qed.

(** C30: functional.  When [main] accepts its options, a member of the
    configuration has the value an option gives it, and otherwise the value the
    files had given it; but an option whose value is the built-in default is
    taken for an option that is not there. *)
Theorem command_line_applied o s s' :
  owned s -> apply_options o s = (inr tt, s') -> changed (option_change o) s s'.
Proof.
  intros Ho Heq. pose proof (makes_command_line o s Ho) as Hm. unfold wp in Hm. by rewrite Heq in Hm.
Qed.
End makes_options.

(** ** Witness

    The file says a lifespan of 100: an option that asks for the default, which is
    5000, does not change it. *)
Definition demo_file : configs :=
  Configs ∅ 1 (set_int daemon_lifespan 100 zero_config) ∅.
Definition demo_options (name : string) (lifespan : Z) : options :=
  Options false 1 None None (Some name) FLOM_NETWORK_WAIT_TIMEOUT 0 None 0 None
    lifespan (Some "10.0.0.1") (default_int unicast_port) None (default_int multicast_port) None None
    (default_int discovery_attempts) (default_int discovery_timeout) (default_int discovery_ttl)
    (default_int tcp_keepalive_time) (default_int tcp_keepalive_intvl) (default_int tcp_keepalive_probes)
    None None None None None false 0 0 None None None false (Some ["true"]).

Lemma demo_file_owned : owned demo_file.
Proof.
  assert (Hno : forall r c f l, config_at demo_file r = Some c -> strs c f = Some l -> False).
  { intros [p|] c f l; cbn; [by rewrite lookup_empty|]. by intros [= <-]. }
  split; intros; exfalso; eauto.
Qed.

Lemma command_line_applied_witness :
  let s' := (@apply_options demo_system (demo_options "foo" 5000) demo_file).2 in
  content s' None resource_name = Some "foo" /\ content s' None unicast_address = Some "10.0.0.1" /\
  number s' None daemon_lifespan = Some 100.
Proof.
  set (x := @apply_options demo_system (demo_options "foo" 5000) demo_file).
  assert (Hx : x = (inr tt, x.2)) by (vm_compute; reflexivity).
  destruct (@command_line_applied demo_system (demo_options "foo" 5000) demo_file x.2 demo_file_owned Hx)
    as (_ & Hn & Ht).
  exact (conj (Ht resource_name) (conj (Ht unicast_address) (Hn daemon_lifespan))).
Defined.
