(* ===== verification/Main.v ===== *)
(** * Main: a command under a lock

    [main] of [src/src/main.c] after its options, and [flom_exec] of
    [src/src/flom_exec.c]: lock the resource, run the command in a child process
    while some signals are ignored, unlock.  What the child does is not known: its
    status is an input ([x_waits]), and [x_ran] keeps what it was given to
    execute. *)
From Stdlib Require Import ZArith String List Lia.
From stdpp Require Import base list gmap numbers strings.
From S2P Require Import Prelude Types CStr RsrcName Msg MsgXml Vfs World Trace Config.
From S2P Require Import ConfigFile ConnLock Conns Locker Connect Client Handle Session Settings Command.
Local Open Scope string_scope.
Local Open Scope Z_scope.

(** The exit statuses of the command *)
Definition FLOM_ES_OK : Z := 0.
Definition FLOM_ES_REQUESTER_CANT_WAIT : Z := 96.
Definition FLOM_ES_UNABLE_TO_EXECUTE_COMMAND : Z := 97.
Definition FLOM_ES_RESOURCE_BUSY : Z := 98.
Definition FLOM_ES_GENERIC_ERROR : Z := 99.

(** ** [flom_exec] *)

(** What is done when a signal arrives: [Handled] is what it was at the start,
    whatever that is. *)
Inductive action : Type := Handled | Ignored.

(** The process: what a client has, the actions of the signals, the statuses
    [wait] will give, the commands that children were given to execute, and the
    actions at the time of each [wait]. *)
Record shell : Type := Shell {
  x_client : client;
  x_actions : Z -> action;
  x_waits : list (option Z);
  x_ran : list (list string);
  x_waited : list (Z -> action)
}.
Definition Xm (A : Type) : Type := M err shell A.
Definition put_xclient (k : client) (s : shell) : shell := 
  Shell k (x_actions s) (x_waits s) (x_ran s) (x_waited s).
Definition on_xclient {A} (m : Km A) : Xm A := zoom x_client put_xclient m.

(** [sigaction], when it succeeds *)
Definition set_action (j : Z) (a : action) (s : shell) : shell :=
  Shell (x_client s) (fun i => if i =? j then a else x_actions s i) (x_waits s) (x_ran s) (x_waited s).

Definition fork_command (argv : list string) : Xm unit :=
  modify (fun s => Shell (x_client s) (x_actions s) (x_waits s) (x_ran s ++ [argv])%list (x_waited s)).
Definition sys_wait : Xm (option Z) := fun s =>
  let waited := (x_waited s ++ [x_actions s])%list in
  match x_waits s with
  | [] => (inr None, Shell (x_client s) (x_actions s) [] (x_ran s) waited)
  | o :: l => (inr o, Shell (x_client s) (x_actions s) l (x_ran s) waited)
  end.

(** The signals of the set are ignored one by one; one that cannot be is taken
    out of the set.  The result is the actions to go back to. *)
Fixpoint ignore_signals (l : list Z) : Xm (list (Z * action)) :=
  match l with
  | [] => mret []
  | j :: l =>
      ok ← on_xclient sys_ok;
      if (ok : bool) then
        a ← gets (fun s => x_actions s j);
        _ ← modify (set_action j Ignored);
        saved ← ignore_signals l;
        mret ((j, a) :: saved)
      else ignore_signals l
  end.

Fixpoint restore_signals (saved : list (Z * action)) : Xm unit :=
  match saved with
  | [] => mret tt
  | (j, a) :: saved =>
      ok ← on_xclient sys_ok;
      _ ← when ok (modify (set_action j a));
      restore_signals saved
  end.

(** The signals of the configuration, in the order of their numbers *)
Definition signals_of (cf : config_ref) : Xm (list Z) :=
  c ← on_xclient (on_configs (the_config cf));
  mret (List.filter (fun j => existsb (Z.eqb j) (ignored_signals c))
          (map Z.of_nat (seq 1 (length SIGNAL_STRING_ARRAY - 1)))).

Definition WEXITSTATUS (status : Z) : Z := Z.land (Z.shiftr status 8) 255.

(** The exit status of the command, with the name of the element locked as one
    more argument *)
Definition flom_exec (command_argv : option (list string)) (element : option string) (signals : list Z)
    : Xm Z :=
  argv ← of_option (Rc FLOM_RC_NULL_OBJECT) command_argv;
  ok ← on_xclient sys_ok;
  _ ← when (negb ok) (throw (Rc FLOM_RC_FORK_ERROR));
  _ ← fork_command (argv ++ option_list element)%list;
  ok ← on_xclient sys_ok;
  _ ← when (negb ok) (throw (Rc FLOM_RC_SIGEMPTYSET_ERROR));
  saved ← ignore_signals signals;
  o ← sys_wait;
  status ← of_option (Rc FLOM_RC_WAIT_ERROR) o;
  _ ← restore_signals saved;
  mret (WEXITSTATUS status).

Section main.
Context `{Glib, System}.

(** ** [main] *)

(** What the command line exits with when the lock is not obtained; [true] when
    it disconnects first. *)
Definition refusal (rc : Z) : Z * bool :=
  if rc =? FLOM_RC_LOCK_BUSY then (FLOM_ES_RESOURCE_BUSY, true)
  else if rc =? FLOM_RC_LOCK_CANT_WAIT then (FLOM_ES_REQUESTER_CANT_WAIT, true)
  else if rc =? FLOM_RC_LOCK_IMPOSSIBLE then (FLOM_ES_GENERIC_ERROR, true)
  else if rc =? FLOM_RC_NETWORK_TIMEOUT then (FLOM_ES_RESOURCE_BUSY, true)
  else (FLOM_ES_GENERIC_ERROR, false).

(** The command, once the lock is obtained: the exit status.  What disconnecting
    answers is only printed. *)
Definition run_locked (c : conn_ref) (argv : list string) (element : option string) : Xm Z :=
  signals ← signals_of None;
  r ← attempt (flom_exec (Some argv) element signals);
  match r with
  | inl _ => mret FLOM_ES_UNABLE_TO_EXECUTE_COMMAND
  | inr child_status =>
      r ← attempt (on_xclient (flom_client_unlock None c (negb (child_status =? 0))));
      match r with
      | inl _ => mret FLOM_ES_GENERIC_ERROR
      | inr _ =>
          _ ← attempt (on_xclient (flom_client_disconnect c));
          _ ← on_xclient (on_kworld (flom_conn_delete c));
          _ ← on_xclient (on_configs (flom_config_free None));
          mret child_status
      end
  end.

Definition lock_and_run (argv : list string) : Xm Z :=
  c ← on_xclient flom_conn_new;
  r ← attempt (on_xclient (flom_client_connect None c true));
  match r with
  | inl _ => mret FLOM_ES_GENERIC_ERROR
  | inr _ =>
      timeout ← on_xclient (on_configs (flom_config_get_resource_timeout None));
      r ← attempt (on_xclient (flom_client_lock None c timeout None));
      match r with
      | inl rc =>
          let '(status, disconnects) := refusal rc in
          _ ← (if (disconnects : bool) then
                 _ ← attempt (on_xclient (flom_client_disconnect c)); mret tt
               else mret tt);
          mret status
      | inr element => run_locked c argv element
      end
  end.

(** The debugging features are in [Debug]; the printing is left out. *)
Definition flom_main (o : options) : Xm Z :=
  if o_print_version o || o_signal_list o || o_unique_id o then mret FLOM_ES_OK
  else
    preg_init ← on_xclient sys_ok;
    if negb preg_init then mret FLOM_ES_GENERIC_ERROR
    else
      r ← attempt (on_xclient (on_configs (command_config o)));
      match r with
      | inl _ => mret FLOM_ES_GENERIC_ERROR
      | inr _ =>
          if negb (o_quiesce_exit o =? 0) || negb (o_immediate_exit o =? 0) then
            r ← attempt (on_xclient (flom_client_shutdown None (o_immediate_exit o)));
            mret (match r with inr _ => FLOM_ES_OK | inl _ => FLOM_ES_GENERIC_ERROR end)
          else match o_command o with
               | None => mret FLOM_ES_UNABLE_TO_EXECUTE_COMMAND
               | Some argv => lock_and_run argv
               end
      end.
End main.

(** ** The command and its signals *)
Section exec.

(** A program that changes nothing of the shell but its client's inputs *)
Definition outside (s : shell) : (Z -> action) * list (option Z) * list (list string) * list (Z -> action) :=
  (x_actions s, x_waits s, x_ran s, x_waited s).
Lemma outside_on_xclient {A} (m : Km A) : untouched outside (on_xclient m).
Proof. by apply untouched_zoom_other. Qed.

(** The actions while the signals of [l] are ignored, and when they are not any
    more *)
Definition ignoring (l : list Z) (f : Z -> action) : Z -> action :=
  fun j => if existsb (Z.eqb j) l then Ignored else f j.

Definition all_calls_ok (s : shell) : Prop := Forall (eq true) (k_calls (x_client s)).

Lemma wp_xcall (Q : err + bool -> shell -> Prop) s :
  all_calls_ok s ->
  (forall s', all_calls_ok s' -> outside s' = outside s -> Q (inr true) s') -> wp (on_xclient sys_ok) Q s.
Proof.
  intros Hok HQ. unfold on_xclient. wp_step. unfold wp, sys_ok, next_input.
  unfold all_calls_ok in Hok. destruct (k_calls (x_client s)) as [|b l] eqn:E; cbn.
  - apply HQ; [|done]. unfold all_calls_ok. cbn. by rewrite E.
  - apply Forall_cons in Hok as [<- Hl]. by apply HQ.
Qed.

Lemma wp_ignore_signals l (Q : err + list (Z * action) -> shell -> Prop) : forall s,
  all_calls_ok s -> NoDup l ->
  (forall s', all_calls_ok s' -> (forall j, x_actions s' j = ignoring l (x_actions s) j) ->
     x_waits s' = x_waits s -> x_ran s' = x_ran s -> x_waited s' = x_waited s ->
     Q (inr (map (fun j => (j, x_actions s j)) l)) s') ->
  wp (ignore_signals l) Q s.
Proof.
  revert Q. induction l as [|j l IH]; intros Q s Hok Hnd HQ; cbn [ignore_signals].
  - wp_step. by apply HQ.
  - apply NoDup_cons in Hnd as [Hj Hnd]. wp_step. apply wp_xcall; [done|]. intros s1 Hok1 [= Ha Hw Hr Hwd].
    wp_steps. apply IH; [done | done|]. intros s2 Hok2 Ha2 Hw2 Hr2 Hwd2. wp_step.
    cbn [x_waits x_ran x_waited set_action x_actions] in *.
    replace (map (fun i => (i, if i =? j then Ignored else x_actions s1 i)) l)
      with (map (fun i => (i, x_actions s i)) l).
    2: { apply map_ext_in. intros i Hi. rewrite <- Ha. destruct (Z.eqb_spec i j) as [->|]; [|done].
         destruct Hj. by apply list_elem_of_In. }
    rewrite Ha. apply HQ; [done | | congruence..]. intros i. rewrite Ha2. unfold ignoring. cbn [existsb].
    rewrite Ha. destruct (i =? j) eqn:Eij; cbn; [by destruct (existsb _ l) | done].
Qed.

Lemma wp_restore_signals f l (Q : err + unit -> shell -> Prop) : forall s,
  all_calls_ok s -> NoDup l ->
  (forall s', all_calls_ok s' ->
     (forall j, x_actions s' j = if existsb (Z.eqb j) l then f j else x_actions s j) ->
     x_waits s' = x_waits s -> x_ran s' = x_ran s -> x_waited s' = x_waited s -> Q (inr tt) s') ->
  wp (restore_signals (map (fun j => (j, f j)) l)) Q s.
Proof.
  induction l as [|j l IH]; intros s Hok Hnd HQ; cbn [map restore_signals].
  - wp_step. by apply HQ.
  - apply NoDup_cons in Hnd as [Hj Hnd]. wp_step. apply wp_xcall; [done|]. intros s1 Hok1 [= Ha Hw Hr Hwd].
    wp_step. cbn [when]. wp_step. apply IH; [done | done|]. intros s2 Hok2 Ha2 Hw2 Hr2 Hwd2.
    cbn [x_waits x_ran x_waited set_action x_actions] in *. apply HQ; [done | | congruence..].
    intros i. rewrite Ha2. cbn [existsb]. rewrite Ha. destruct (Z.eqb_spec i j) as [->|]; cbn; [|done].
    destruct (existsb _ l) eqn:E; [|done]. apply existsb_exists in E as (i & Hi & ->%Z.eqb_eq).
    by apply list_elem_of_In in Hi.
Qed.

(** C31: functional.  When the calls succeed the command is executed once, with
    the name of the element locked as its last argument; the signals to ignore
    are ignored while it is waited for and the others are not, afterwards all are
    as they were, and the result is its exit status. *)
Theorem exec_correct argv element signals status waits s :
  all_calls_ok s -> NoDup signals -> x_waits s = Some status :: waits ->
  wp (flom_exec (Some argv) element signals) (fun r s' =>
    r = inr (WEXITSTATUS status) /\ x_ran s' = x_ran s ++ [argv ++ option_list element] /\
    (forall j, x_actions s' j = x_actions s j) /\
    exists f, x_waited s' = x_waited s ++ [f] /\ forall j, f j = ignoring signals (x_actions s) j)%list s.
Proof.
  intros Hok Hnd Hw. unfold flom_exec. wp_step. apply wp_ret.
  wp_step. apply wp_xcall; [done|]. intros s1 Hok1 [= Ha1 Hw1 Hr1 Hwd1]. wp_step. apply wp_ret.
  unfold fork_command. do 2 wp_step. wp_step. apply wp_xcall; [done|]. intros s2 Hok2 [= Ha2 Hw2 Hr2 Hwd2].
  cbn [x_actions x_waits x_ran x_waited] in *.
  wp_step. apply wp_ret. wp_step. apply wp_ignore_signals; [done..|]. intros s3 Hok3 Ha3 Hw3 Hr3 Hwd3.
  wp_step. unfold wp at 1, sys_wait. rewrite Hw3, Hw2, Hw1, Hw. cbn [fst snd].
  wp_step. apply wp_ret. wp_step. apply wp_restore_signals; [done..|].
  intros s4 Hok4 Ha4 Hw4 Hr4 Hwd4. wp_step. cbn [x_actions x_waits x_ran x_waited] in *.
  split; [done|]. split; [by rewrite Hr4, Hr3, Hr2, Hr1|]. split.
  - intros j. rewrite Ha4, Ha3, Ha2, Ha1. unfold ignoring. by destruct (existsb _ signals).
  - exists (x_actions s3). rewrite Hwd4, Hwd3, Hwd2, Hwd1. split; [done|]. intros j. by rewrite Ha3, Ha2, Ha1.
Qed.
End exec.

(** ** The command under its lock *)
Definition sent_by (k : client) : list (conn_ref * string) := w_sent (n_world (k_net k)).

Lemma substring_whole x n : n = strlen x -> substring 0 (Z.to_nat n) x = x.
Proof.
  intros ->. unfold strlen. rewrite Nat2Z.id. induction x as [|a x IH]; [done|].
  exact (f_equal (String a) IH).
Qed.

Lemma wp_send_with c o r text (Q : err + unit -> world -> Prop) w :
  (forall e w', Q (inl e) w') ->
  (forall w', w_sent w' = w_sent w ++ [(c, text)] -> Q (inr tt) w')%list ->
  wp (if c_tls o then flom_tls_send c r text else flom_tcp_send c o r text) Q w.
Proof.
  intros He HQ. unfold flom_tls_send, flom_tcp_send, wire.
  destruct (c_tls o); [|destruct (has_fd o)]; destruct r as [| |e|n]; wp_steps; try apply He; try by apply HQ.
  all: apply HQ; cbn; rewrite substring_whole; [done | lia].
Qed.
Lemma wp_conn_send c text (Q : err + unit -> world -> Prop) w :
  (forall e w', Q (inl e) w') ->
  (forall w', w_sent w' = w_sent w ++ [(c, text)] -> Q (inr tt) w')%list -> wp (flom_conn_send c text) Q w.
Proof.
  intros He HQ. unfold flom_conn_send. wp_step. unfold deref. wp_step. wp_step. wp_step; [|apply He].
  wp_step. unfold next_send, wp at 1. destruct (w_sends w) as [|r l]; apply wp_send_with; auto.
Qed.

Definition unlock_msg (name : string) (rollback : bool) : flom_msg :=
  Msg FLOM_MSG_STATE_INITIALIZED (Header FLOM_MSG_LEVEL FLOM_MSG_VERB_UNLOCK FLOM_MSG_STEP_INCR)
    (body_unlock_8 (Some name) (if rollback then 1 else 0)).

Lemma sent_last_step c v : untouched sent_by (on_kworld (flom_conn_set_last_step c v)).
Proof.
  intros k. unfold on_kworld, on_knet, on_nworld, zoom, flom_conn_set_last_step, deref, mbind, M_bind, gets.
  by destruct (w_conns _ !! c).
Qed.

(** The last thing that was sent is an unlock message. *)
Definition unlocked_with `{Glib} (c : conn_ref) (rollback : bool) (k k' : client) : Prop :=
  exists name text, flom_msg_serialize FLOM_NETWORK_BUFFER_SIZE (unlock_msg name rollback) = inr text /\
    sent_by k' = (sent_by k ++ [(c, text)])%list.

Section run.
Context `{Glib, System}.

Lemma client_unlock_sends cf c rollback k :
  wp (flom_client_unlock cf c rollback) (fun r k' =>
    match r with inr _ => unlocked_with c rollback k k' | inl _ => True end) k.
Proof.
  unfold flom_client_unlock. wp_step. unfold on_configs. wp_step. apply get_str_content; [done|].
  wp_step. wp_step; [|done]. wp_step. unfold on_kmsg. wp_step. wp_step. fold (unlock_msg a rollback).
  wp_step. unfold send_kmsg. do 2 wp_step. wp_step.
  unfold of_result at 1. cbn [k_msg put_kmsg].
  destruct (flom_msg_serialize _ (unlock_msg a rollback)) as [e|text] eqn:Et; [done|]. apply wp_ret.
  wp_step. unfold on_kworld at 1, on_knet, on_nworld. do 2 wp_step. apply wp_conn_send; [done|].
  intros w' Hw'. eapply (wp_untouched sent_by); [apply sent_last_step|]. intros [e|[]] k1 Hk1; [done|].
  wp_step. eapply (wp_mono _ (fun _ _ => True)); [|done]. intros [e|[]] m _; [done|].
  exists a, text. split; [done|]. change (sent_by (put_kmsg m k1)) with (sent_by k1). by rewrite Hk1.
Qed.

(** The signals and the status of the command are no message. *)
Definition sent_x (s : shell) : list (conn_ref * string) := sent_by (x_client s).
Lemma untouched_xcall {B} (f : shell -> B) :
  (forall l s, f (put_xclient (put_calls l (x_client s)) s) = f s) -> untouched f (on_xclient sys_ok).
Proof.
  intros Hf s. unfold on_xclient, zoom, sys_ok, next_input. destruct (k_calls (x_client s)) eqn:E; [|apply Hf].
  cbn. rewrite <- (Hf (k_calls (x_client s)) s). f_equal. destruct s as [[]]. done.
Qed.
Lemma untouched_signals {B} (f : shell -> B) l :
  (forall l s, f (put_xclient (put_calls l (x_client s)) s) = f s) ->
  (forall j a s, f (set_action j a s) = f s) -> untouched f (ignore_signals l).
Proof.
  intros Hc Ha. induction l as [|j l IH]; cbn [ignore_signals]; [apply untouched_ret|].
  apply untouched_bind; [by apply untouched_xcall|]. intros []; [|done]. solve_untouched.
  apply untouched_modify. intros s. apply Ha.
Qed.
Lemma untouched_restore {B} (f : shell -> B) saved :
  (forall l s, f (put_xclient (put_calls l (x_client s)) s) = f s) ->
  (forall j a s, f (set_action j a s) = f s) -> untouched f (restore_signals saved).
Proof.
  intros Hc Ha. induction saved as [|[j a] l IH]; cbn [restore_signals]; [apply untouched_ret|].
  apply untouched_bind; [by apply untouched_xcall|]. intros ok. solve_untouched.
  apply untouched_modify. intros s. apply Ha.
Qed.

Definition shown (s : shell) : list (option Z) * list (list string) * list (conn_ref * string) * configs :=
  (x_waits s, x_ran s, sent_x s, k_configs (x_client s)).

Definition ran (argv : list string) (element : option string) (s s' : shell) : Prop :=
  x_ran s' = (x_ran s ++ [argv ++ option_list element])%list.

Lemma exec_outcome argv element signals s :
  wp (flom_exec (Some argv) element signals) (fun r s' => sent_x s' = sent_x s /\
    match r with
    | inr code => ran argv element s s' /\
        exists status l, x_waits s = Some status :: l /\ code = WEXITSTATUS status
    | inl _ => x_ran s' = x_ran s \/ ran argv element s s'
    end) s.
Proof.
  unfold flom_exec. wp_step. apply wp_ret.
  wp_step. apply (wp_untouched shown); [by apply untouched_xcall|]. intros [e|ok] s1 [= Hw1 Hr1 Hs1 _]; [by auto|].
  wp_step. wp_step; [wp_step; by auto|]. unfold fork_command. do 2 wp_step.
  wp_step. apply (wp_untouched shown); [by apply untouched_xcall|].
  intros x s2 [= Hw2 Hr2 Hs2 _]. cbn [x_waits x_ran] in *.
  change (sent_x (Shell _ _ _ _ _)) with (sent_x s1) in Hs2.
  assert (Hran : ran argv element s s2) by (unfold ran; congruence).
  assert (Hsent : sent_x s2 = sent_x s) by congruence.
  destruct x as [e|ok']; [by auto|]. wp_step. wp_step; [wp_step; by auto|].
  wp_step. apply (wp_untouched shown); [by apply untouched_signals|].
  intros [e|saved] s3 [= Hw3 Hr3 Hs3 _]; [unfold ran in *; split; [congruence | right; congruence]|].
  assert (Hran3 : ran argv element s s3) by (unfold ran; congruence).
  assert (Hsent3 : sent_x s3 = sent_x s) by congruence.
  wp_step. unfold wp at 1, sys_wait. destruct (x_waits s3) as [|o l] eqn:Ew; cbn [fst snd].
  - wp_step. apply wp_throw. by auto.
  - wp_step. destruct o as [status|]; [apply wp_ret | apply wp_throw; by auto].
    wp_step. apply (wp_untouched shown); [by apply untouched_restore|].
    intros [e|[]] s4 [= Hw4 Hr4 Hs4 _]; cbn [x_waits x_ran] in *;
      change (sent_x (Shell _ _ _ _ _)) with (sent_x s3) in Hs4.
    + unfold ran in *. split; [congruence | right; congruence].
    + wp_step. unfold ran in *. split; [congruence|]. split; [congruence|].
      exists status, l. split; [congruence | done].
Qed.

Lemma sent_disconnect c : untouched sent_by (flom_client_disconnect c).
Proof.
  assert (Hw : forall A (m : Wm A), untouched w_sent m -> untouched sent_by (on_kworld m)).
  { intros A m Hm. unfold on_kworld, on_knet. apply (untouched_zoom _ _ _ (fun n => w_sent (n_world n)));
      [done | done|]. by apply (untouched_zoom _ _ _ w_sent). }
  assert (Hderef : untouched w_sent (deref c)) by (unfold deref; solve_untouched).
  assert (Hstore : forall f, untouched w_sent (store c f)).
  { intros f. unfold store. apply untouched_bind; [done|]. intros o. by apply untouched_modify. }
  assert (Hn : forall A (m : Wm A), untouched w_sent m -> untouched (fun n => w_sent (n_world n)) (on_nworld m)).
  { intros A m Hm. by apply (untouched_zoom _ _ _ w_sent). }
  assert (Hclose : untouched (fun n => w_sent (n_world n)) close_fd).
  { intros n. unfold close_fd. by destruct (n_closes n). }
  unfold flom_client_disconnect, client_terminate, sys_close, flom_conn_terminate, flom_tcp_close.
  solve_untouched; try (by apply Hw).
  apply (untouched_zoom _ _ _ (fun n => w_sent (n_world n))); [done | done|]. solve_untouched; by apply Hn.
Qed.
Lemma sent_on_xclient {A} (m : Km A) : untouched sent_by m -> untouched sent_x (on_xclient m).
Proof. by apply untouched_zoom. Qed.
Lemma ran_on_xclient {A} (m : Km A) : untouched x_ran (on_xclient m).
Proof. by apply untouched_zoom_other. Qed.
Lemma waits_on_xclient {A} (m : Km A) : untouched x_waits (on_xclient m).
Proof. by apply untouched_zoom_other. Qed.

(** The end of a command that was executed after the lock call that left [k]:
    the unlock that is sent says whether the command has failed. *)
Definition ended_well (c : conn_ref) (waits : list (option Z)) (k k' : client) (code : Z) : Prop :=
  exists status l, waits = Some status :: l /\ code = WEXITSTATUS status /\
    unlocked_with c (negb (code =? 0)) k k'.

Definition after_signals (s : shell) : list (option Z) * list (list string) * list (conn_ref * string) :=
  (x_waits s, x_ran s, sent_x s).

(** What concerns neither the command nor the messages *)
Definition told (s : shell) : list (list string) * list (conn_ref * string) := (x_ran s, sent_x s).
Lemma told_on_xclient {A} (m : Km A) : untouched sent_by m -> untouched told (on_xclient m).
Proof. intros Hm s. unfold told. by rewrite (ran_on_xclient m s), (sent_on_xclient m Hm s). Qed.
Lemma sent_on_configs {A} (m : Gm A) : untouched sent_by (on_configs m).
Proof. by apply untouched_zoom_other. Qed.
Lemma after_signals_on_configs {A} (m : Gm A) : untouched after_signals (on_xclient (on_configs m)).
Proof.
  intros s. unfold after_signals.
  by rewrite (ran_on_xclient _ s), (waits_on_xclient _ s), (sent_on_xclient _ (sent_on_configs m) s).
Qed.
Lemma sent_delete c : untouched sent_by (on_kworld (flom_conn_delete c)).
Proof.
  unfold on_kworld, on_knet. apply (untouched_zoom _ _ _ (fun n => w_sent (n_world n))); [done | done|].
  apply (untouched_zoom _ _ _ w_sent); [done | done|].
  unfold flom_conn_delete, deref. solve_untouched.
Qed.

Lemma unlocked_ended c s k k3 k' status l :
  x_waits s = Some status :: l -> sent_by k = sent_x s ->
  unlocked_with c (negb (WEXITSTATUS status =? 0)) k k3 -> sent_by k' = sent_by k3 ->
  ended_well c (x_waits s) (x_client s) k' (WEXITSTATUS status).
Proof.
  intros Hw Hk (name & text & Ht & Hk3) Hk'. exists status, l. split; [done|]. split; [done|].
  exists name, text. split; [done|]. by rewrite Hk', Hk3, Hk.
Qed.

Lemma wp_leave c (code : Z) (Q : err + Z -> shell -> Prop) s :
  (forall e s', Q (inl e) s') -> (forall s', told s' = told s -> Q (inr code) s') ->
  wp (_ ← on_xclient (on_kworld (flom_conn_delete c));
      _ ← on_xclient (on_configs (flom_config_free None)); mret code) Q s.
Proof.
  intros He HQ. wp_step. apply (wp_untouched told); [by apply told_on_xclient, sent_delete|].
  intros [e|[]] s1 H1; [done|]. wp_step.
  apply (wp_untouched told); [by apply told_on_xclient, sent_on_configs|].
  intros [e|[]] s2 H2; [done|]. wp_step. apply HQ. by rewrite H2.
Qed.

Lemma run_locked_outcome c argv element s :
  wp (run_locked c argv element) (fun r s' => match r with
    | inr code =>
        (code = FLOM_ES_UNABLE_TO_EXECUTE_COMMAND /\ (x_ran s' = x_ran s \/ ran argv element s s')) \/
        (ran argv element s s' /\
         (code = FLOM_ES_GENERIC_ERROR \/ ended_well c (x_waits s) (x_client s) (x_client s') code))
    | inl _ => True
    end) s.
Proof.
  unfold run_locked. wp_step. apply (wp_untouched after_signals).
  { unfold signals_of. apply untouched_bind; [apply after_signals_on_configs | intros x; apply untouched_ret]. }
  intros [e|signals] s1 [= Hw1 Hr1 Hs1]; [done|]. wp_step. wp_step.
  eapply wp_mono; [|apply exec_outcome]. intros r s2 [Hs2 Hr2]. unfold ran in *. rewrite Hr1 in Hr2.
  destruct r as [[rc| |]|status]; [|done|done|]; cbn beta iota; [wp_step; by left|].
  destruct Hr2 as [Hr2 (st & l & Hw & ->)]. wp_step. wp_step. unfold on_xclient at 1. wp_step.
  eapply wp_mono; [|apply client_unlock_sends]. intros [[rc| |]|[]] k3 Hk3; [|done|done|].
  - wp_step. right. by split; [|left].
  - wp_step. wp_step. apply (wp_untouched told); [by apply told_on_xclient, sent_disconnect|].
    intros x s4 [= Hr4 Hs4].
    destruct x as [[rc| |]|[]]; [|done|done|]; (apply wp_leave; [done|]; intros s5 [= Hr5 Hs5]).
    all: right; split; [congruence | right]; 
      apply (unlocked_ended c s (x_client s2) k3 _ st l); [congruence | | done |]; unfold sent_x in *; cbn in *; congruence.
Qed.

(** Connecting, and the timeout of the resource *)
Definition prepared : Km (conn_ref * Z) :=
  c ← flom_conn_new;
  _ ← flom_client_connect None c true;
  timeout ← on_configs (flom_config_get_resource_timeout None);
  mret (c, timeout).
Definition own_status (code : Z) : Prop :=
  In code [FLOM_ES_REQUESTER_CANT_WAIT; FLOM_ES_UNABLE_TO_EXECUTE_COMMAND; FLOM_ES_RESOURCE_BUSY;
           FLOM_ES_GENERIC_ERROR].
(** An exit status of the command line itself *)
Lemma refusal_code rc : own_status (refusal rc).1.
Proof. unfold refusal, own_status. repeat case_match; cbn; auto. Qed.

Lemma wp_run {S A} (m : M err S A) s : wp m (fun r s' => m s = (r, s')) s.
Proof. unfold wp. by destruct (m s). Qed.

(** C11: safety.  When the run is not undefined, the command is not executed, and the exit status says so, unless
    the connection was made and the lock call has returned without an error;
    then it is executed once, with the name of the element locked as its last
    argument.  When its status is the exit status, an unlock message was
    sent last, which asks for a rollback exactly when the status, [WEXITSTATUS] of
    what [wait] gives, is not zero: a command that a signal kills commits
    ([killed_command_commits]). *)
Theorem command_runs_under_lock argv s :
  wp (lock_and_run argv) (fun r s' => match r with
    | inr code =>
        (x_ran s' = x_ran s /\ own_status code) \/
        exists c timeout element k0 k1,
          prepared (x_client s) = (inr (c, timeout), k0) /\
          flom_client_lock None c timeout None k0 = (inr element, k1) /\
          ran argv element s s' /\
          (own_status code \/ ended_well c (x_waits s) k1 (x_client s') code)
    | inl _ => True
    end) s.
Proof.
  unfold lock_and_run. wp_step. unfold on_xclient at 1. wp_step.
  eapply wp_mono; [|apply wp_run]. intros [e|c] k1 E1; [done|]. wp_step. wp_step.
  unfold on_xclient at 1. wp_step. cbn [x_client put_xclient].
  eapply wp_mono; [|apply wp_run]. intros [[rc| |]|[]] k2 E2; [|done|done|].
  { wp_step. left. split; [done|]. unfold own_status. cbn. auto. }
  wp_step. unfold on_xclient at 1. wp_step. cbn [x_client put_xclient].
  eapply wp_mono; [|apply wp_run]. intros [e|timeout] k3 E3; [done|].
  assert (E : prepared (x_client s) = (inr (c, timeout), k3)).
  { unfold prepared, mbind, M_bind. by rewrite E1, E2, E3. }
  wp_step. wp_step. unfold on_xclient at 1. wp_step. cbn [x_client put_xclient].
  eapply wp_mono; [|apply wp_run]. intros [[rc| |]|element] k4 E4; [|done|done|].
  - pose proof (refusal_code rc) as Hrc. destruct (refusal rc) as [status []].
    + wp_step. wp_step. wp_step. apply (wp_untouched x_ran); [apply ran_on_xclient|].
      intros [[e| |]|[]] s5 H5; [|done|done|]; wp_step; wp_step; by left.
    + wp_step. wp_step. wp_step. by left.
  - eapply wp_mono; [|apply run_locked_outcome]. intros [e|code] s5; [done|].
    assert (Hown : forall n, In n [97; 99] -> own_status n).
    { intros n [<-|[<-|[]]]; unfold own_status; cbn; auto. }
    intros [[-> [Hr|Hr]]|[Hr [->|He]]].
    + left. split; [done|]. apply Hown. cbn. auto.
    + right. exists c, timeout, element, k3, k4. repeat (split; [done|]). left. apply Hown. cbn. auto.
    + right. exists c, timeout, element, k3, k4. repeat (split; [done|]). left. apply Hown. cbn. auto.
    + right. exists c, timeout, element, k3, k4. repeat (split; [done|]). by right.
Qed.

(** error.  A command that a signal kills, whichever the signal and with a
    core file or without, counts as one that succeeds: when the exit status is
    not one of the command line's own it is 0, and the unlock that was sent asks
    for no rollback. *)
Theorem killed_command_commits c argv element status waits s :
  0 < status < 256 -> x_waits s = Some status :: waits ->
  wp (run_locked c argv element) (fun r s' => match r with
    | inr code => own_status code \/ (code = FLOM_ES_OK /\ unlocked_with c false (x_client s) (x_client s'))
    | inl _ => True
    end) s.
Proof.
  intros Hst Hw. eapply wp_mono; [|apply run_locked_outcome]. intros [e|code] s' HQ; [done|].
  destruct HQ as [[-> _]|[_ [->|(st & l & Hl & -> & Hu)]]].
  1, 2: by left; unfold own_status; cbn; auto.
  right. rewrite Hw in Hl. injection Hl as <- <-.
  assert (E : WEXITSTATUS status = 0); [|by rewrite E in *].
  unfold WEXITSTATUS. by rewrite (Z.shiftr_div_pow2 status 8), Z.div_small by lia.
Qed.
End run.

(** ** Concrete runs *)
Definition demo_shell (sockets : list Z) (replies : list recv_result) (waits : list (option Z)) : shell :=
  Shell (demo_client sockets replies) (fun _ => Handled) waits [] [].

(** [flom -r name -- argv] *)
Definition plain_options (name : string) (argv : list string) : options :=
  Options false 1 None None (Some name) FLOM_NETWORK_WAIT_TIMEOUT 0 None 0 None
    (default_int daemon_lifespan) None (default_int unicast_port) None (default_int multicast_port) None None
    (default_int discovery_attempts) (default_int discovery_timeout) (default_int discovery_ttl)
    (default_int tcp_keepalive_time) (default_int tcp_keepalive_intvl) (default_int tcp_keepalive_probes)
    None None None None None false 0 0 None None None false (Some argv).
Definition demo_main := @flom_main demo_glib demo_system.

(** The command has exited with 3: the lock, the unlock with a rollback, the
    connection closed. *)
Example demo_run :
  let '(r, s) := demo_main (plain_options "foo" ["ls"; "-l"])
                   (demo_shell [7] [demo_answer 16 FLOM_RC_OK] [Some 768]) in
  r = inr 3 /\ x_ran s = [["ls"; "-l"]] /\ length (sent_x s) = 2%nat /\ k_open (x_client s) = [].
Proof. vm_compute. split_and!; reflexivity. Qed.

(** A lock that is busy: nothing is executed. *)
Example demo_busy :
  let '(r, s) := demo_main (plain_options "foo" ["ls"; "-l"])
                   (demo_shell [7] [demo_answer 16 FLOM_RC_LOCK_BUSY] [Some 768]) in
  r = inr FLOM_ES_RESOURCE_BUSY /\ x_ran s = [] /\ k_open (x_client s) = [].
Proof. vm_compute. split_and!; reflexivity. Qed.

(** error.  The command is executed without its lock when the refusal comes
    late: the daemon first tells the client to wait for the resource to be
    created, then that the request can never be satisfied; the command runs and
    its exit status, not the one of a refused lock, is what the caller sees. *)
Theorem refused_command_runs :
  let '(r, s) := demo_main (plain_options "foo[2]" ["ls"; "-l"])
                   (demo_shell [7] [demo_answer 16 FLOM_RC_LOCK_WAIT_RESOURCE;
                                    demo_answer 24 FLOM_RC_LOCK_IMPOSSIBLE] [Some 0]) in
  r = inr FLOM_ES_OK /\ x_ran s = [["ls"; "-l"]].
Proof. vm_compute. split_and!; reflexivity. Qed.

(** ** Witnesses *)
Lemma exec_correct_witness :
  let s := demo_shell [] [] [Some 512] in
  let '(r, s') := flom_exec (Some ["ls"]) (Some "printer") [1; 15] s in
  r = inr 2 /\ x_ran s' = [["ls"; "printer"]] /\ x_actions s' 15 = Handled /\
  exists f, x_waited s' = [f] /\ f 15 = Ignored /\ f 9 = Handled.
Proof.
  set (s := demo_shell [] [] [Some 512]). cbv zeta.
  assert (Hok : all_calls_ok s) by apply Forall_nil_2.
  assert (Hnd : NoDup [1; 15]) by (apply (bool_decide_unpack _); vm_compute; exact I).
  pose proof (exec_correct ["ls"] (Some "printer") [1; 15] 512 [] s Hok Hnd eq_refl) as Hwp. unfold wp in Hwp.
  revert Hwp. generalize (flom_exec (Some ["ls"]) (Some "printer") [1; 15] s). intros [r s'] Hwp. cbn [fst snd] in Hwp.
  destruct Hwp as (-> & Hran & Hact & f & Hf & Hig). split; [reflexivity|]. split; [exact Hran|].
  split; [exact (Hact 15)|]. exists f. split; [exact Hf|]. split; [exact (Hig 15) | exact (Hig 9)].
Defined.

(** A command that the signal 9 kills, after its lock was obtained *)
Definition killed_shell : shell :=
  ((_ ← on_xclient (on_configs (@command_config demo_system (plain_options "foo" ["ls"])));
    p ← on_xclient (@prepared demo_glib demo_system);
    on_xclient (@flom_client_lock demo_glib None p.1 p.2 None))
   (demo_shell [7] [demo_answer 16 FLOM_RC_OK] [Some 9])).2.

Lemma killed_command_commits_witness :
  let '(r, s') := @run_locked demo_glib 2%positive ["ls"] None killed_shell in
  r = inr FLOM_ES_OK /\ @unlocked_with demo_glib 2%positive false (x_client killed_shell) (x_client s').
Proof.
  assert (Hw : x_waits killed_shell = [Some 9]) by (vm_compute; reflexivity).
  assert (Hr : (@run_locked demo_glib 2%positive ["ls"] None killed_shell).1 = inr FLOM_ES_OK)
    by (vm_compute; reflexivity).
  pose proof (@killed_command_commits demo_glib 2%positive ["ls"] None 9 [] killed_shell
    (conj eq_refl eq_refl) Hw) as Hwp.
  unfold wp in Hwp. revert Hr Hwp.
  generalize (@run_locked demo_glib 2%positive ["ls"] None killed_shell). intros [r s'] Hr. cbn in Hr. subst r.
  intros [Hown|[_ Hu]]; [|exact (conj eq_refl Hu)].
  exfalso. unfold own_status in Hown. cbn in Hown. intuition discriminate.
Defined.
