(* ===== verification/Debug.v ===== *)
(** * Debug: the debugging features

    [src/src/flom_debug_features.c]: the features that test the network and the
    certificates of an installation, two by two.  A multicast server answers one
    datagram of a multicast client; a TLS server and a TLS client authenticate
    each other by the identifiers of their machines.  They are built on the calls
    of the program itself: [Connect], [Listen], [Tls] and [Wire]. *)
From Stdlib Require Import ZArith String Ascii List Lia.
From stdpp Require Import base list gmap numbers strings.
From S2P Require Import MsgRound Handle Session Command Main.
From S2P Require Import Prelude Types CStr Config Recv World Conns Wire Connect Client Tls Listen.
From S2P Require Import ConnLock MsgXml.
Local Open Scope string_scope.
Local Open Scope Z_scope.

(** ** The process *)
Section debug.
Context `{OpenSSL}.

(** The connections, the descriptors and the configuration; the memory of TLS;
    the bytes that the peer of the connection sends; then the inputs: whether
    [getsockname] succeeds, the datagrams that [recvfrom] finds, what [sendto] and
    [accept] return; what has been sent by [sendto] and printed. *)
Record host : Type := Host {
  h_client : client;
  h_tls : tls_state;
  h_wire : wire;
  h_names : list bool;
  h_received : list (option string);
  h_sendtos : list Z;
  h_accepts : list (option (Z * option string));
  h_sent : list string;
  h_out : string
}.
Definition Hm (A : Type) : Type := M err host A.
Definition put_hclient (x : client) (s : host) : host :=
  Host x (h_tls s) (h_wire s) (h_names s) (h_received s) (h_sendtos s) (h_accepts s) (h_sent s) (h_out s).
Definition put_htls (x : tls_state) (s : host) : host :=
  Host (h_client s) x (h_wire s) (h_names s) (h_received s) (h_sendtos s) (h_accepts s) (h_sent s) (h_out s).
Definition put_hwire (x : wire) (s : host) : host :=
  Host (h_client s) (h_tls s) x (h_names s) (h_received s) (h_sendtos s) (h_accepts s) (h_sent s) (h_out s).
Definition on_hclient {A} (m : Km A) : Hm A := zoom h_client put_hclient m.
Definition on_htls {A} (m : Tm A) : Hm A := zoom h_tls put_htls m.
Definition on_hwire {A} (m : Nm A) : Hm A := zoom h_wire put_hwire m.
Definition ask_config {A} (m : Gm A) : Hm A := on_hclient (on_configs m).

Definition named_ok : Hm bool := fun s =>
  match h_names s with
  | [] => (inr true, s)
  | b :: l => (inr b, Host (h_client s) (h_tls s) (h_wire s) l (h_received s) (h_sendtos s)
                        (h_accepts s) (h_sent s) (h_out s))
  end.
(** [recvfrom] of at most [len] bytes *)
Definition recvfrom_text (len : nat) : Hm (option string) := fun s =>
  match h_received s with
  | [] => (inr None, s)
  | d :: l => (inr (String.substring 0 len <$> d),
      Host (h_client s) (h_tls s) (h_wire s) (h_names s) l (h_sendtos s) (h_accepts s) (h_sent s) (h_out s))
  end.
(** A datagram is sent whole, or not at all. *)
Definition sendto (text : string) : Hm Z := fun s =>
  let '(n, l) := match h_sendtos s with [] => (strlen text, []) | n :: l => (n, l) end in
  (inr n, Host (h_client s) (h_tls s) (h_wire s) (h_names s) (h_received s) l (h_accepts s)
            (h_sent s ++ (if n =? strlen text then [text] else []))%list (h_out s)).
Definition opened (x : option (Z * option string)) (k : client) : client :=
  match x with Some (fd, _) => put_open (fd :: k_open k) k | None => k end.
Definition sys_accept : Hm (option (Z * option string)) := fun s =>
  match h_accepts s with
  | [] => (inr None, s)
  | x :: l => (inr x, Host (opened x (h_client s)) (h_tls s) (h_wire s) (h_names s) (h_received s)
                        (h_sendtos s) l (h_sent s) (h_out s))
  end.
Definition printf (text : string) : Hm unit :=
  modify (fun s => Host (h_client s) (h_tls s) (h_wire s) (h_names s) (h_received s) (h_sendtos s)
                     (h_accepts s) (h_sent s) (h_out s ++ text)).

(** ["%*.*s"] with the same number twice: the characters up to a NUL, on that
    many columns *)
Fixpoint spaces (n : nat) : string := match n with O => "" | S n => String " " (spaces n) end.
Definition columns (text : string) : string :=
  let shown := until_nul text in
  spaces (String.length text - String.length shown) ++ shown.

(** ** The multicast server *)
Definition welcome_msg : string := "WELCOME".
Definition hello_msg : string := "HELLO".
Definition newline : string := String "010" "".

(** The address that was found, when there is one, and what [fdi] is then: a
    socket whose name [getsockname] does not give is not closed. *)
Fixpoint join_server (l : list addr) (fdi : Z) : Hm (option addr * Z) :=
  match l with
  | [] => mret (None, fdi)
  | a :: l =>
      o ← on_hclient sys_socket;
      match o with
      | None => join_server l FLOM_NULL_FD
      | Some fd =>
          named ← named_ok;
          if negb named then join_server l fd
          else if negb (reuse_ok a && bind_ok a) then
            _ ← on_hclient (sys_close fd);
            join_server l FLOM_NULL_FD
          else
            named ← named_ok;
            if negb named then join_server l fd
            else if member_ok a then mret (Some a, fd)
            else
              _ ← on_hclient (sys_close fd);
              join_server l FLOM_NULL_FD
      end
  end.

Definition close_if_open (fd : Z) : Hm unit :=
  when (negb (fd =? FLOM_NULL_FD)) (on_hclient (sys_close fd)).

Definition multicast_addresses : Hm (list addr) :=
  _ ← ask_config (flom_config_get_multicast_port None);
  _ ← ask_config (flom_config_get_multicast_address None);
  l ← on_hclient sys_getaddrinfo;
  of_option (Rc FLOM_RC_GETADDRINFO_ERROR) l.

(** With the socket: one datagram is answered. *)
Definition answer_datagram (found : option addr) : Hm unit :=
  _ ← of_option (Rc FLOM_RC_INVALID_IP_ADDRESS) found;
  d ← recvfrom_text 2048;
  d ← of_option (Rc FLOM_RC_RECVFROM_ERROR) d;
  _ ← printf ("Arrived datagram is '" ++ columns d ++ "'" ++ newline);
  sent_bytes ← sendto welcome_msg;
  _ ← when (negb (strlen welcome_msg =? sent_bytes)) (throw (Rc FLOM_RC_SENDTO_ERROR));
  printf ("Sent datagram is '" ++ welcome_msg ++ "'" ++ newline).

Definition flom_debug_features_ipv6_multicast_server : Hm unit :=
  l ← multicast_addresses;
  '(found, fdi) ← join_server l FLOM_NULL_FD;
  finally (answer_datagram found) (close_if_open fdi).

(** ** The multicast client *)

(** The answer of the option that sets the number of hops *)
Definition hops_ok (a : addr) : bool := default true (ai_options a !! 0%nat).
Fixpoint find_client (l : list addr) : Hm (option addr * Z) :=
  match l with
  | [] => mret (None, FLOM_NULL_FD)
  | a :: l =>
      _ ← ask_config (flom_config_get_discovery_ttl None);
      o ← on_hclient sys_socket;
      match o with
      | None => find_client l
      | Some fd =>
          if hops_ok a then mret (Some a, fd)
          else
            _ ← on_hclient (sys_close fd);
            find_client l
      end
  end.

(** With the socket: the greeting is sent from a port of the system's choice, and
    one answer waited for. *)
Definition greet (found : option addr) : Hm unit :=
  _ ← of_option (Rc FLOM_RC_INVALID_IP_ADDRESS) found;
  ok ← on_hclient sys_ok;
  _ ← when (negb ok) (throw (Rc FLOM_RC_SETSOCKOPT_ERROR));
  ok ← on_hclient sys_ok;
  _ ← when (negb ok) (throw (Rc FLOM_RC_BIND_ERROR));
  named ← named_ok;
  _ ← when (negb named) (throw (Rc FLOM_RC_GETSOCKNAME_ERROR));
  sent_bytes ← sendto hello_msg;
  _ ← when (negb (strlen hello_msg =? sent_bytes)) (throw (Rc FLOM_RC_SENDTO_ERROR));
  _ ← printf ("Sent datagram is '" ++ hello_msg ++ "'" ++ newline);
  d ← recvfrom_text 2048;
  d ← of_option (Rc FLOM_RC_RECVFROM_ERROR) d;
  printf ("Arrived datagram is '" ++ columns d ++ "'" ++ newline).

Definition flom_debug_features_ipv6_multicast_client : Hm unit :=
  l ← multicast_addresses;
  '(found, fdo) ← find_client l;
  finally (greet found) (close_if_open fdo).

(** ** The TLS server and client *)

(** [strstr(msg, tag)], and the text that the NUL stored there ends *)
Fixpoint before_tag (tag text : string) : option string :=
  if String.prefix tag text then Some ""
  else match text with
       | EmptyString => None
       | String c text => String c <$> before_tag tag text
       end.
Definition closing_text : string := close_tag FLOM_MSG_TAG_MSG.

(** The TLS object of a connection *)
Definition secure_conn (c : conn_ref) (client : bool) : Hm ptr :=
  _ ← on_htls (flom_conn_init_tls client);
  o ← on_htls (gets t_conn);
  p ← of_option Ub o;
  _ ← on_hclient (on_kworld (store c set_tls));
  _ ← on_htls (flom_tls_context p);
  cert ← ask_config (flom_config_get_tls_certificate None);
  key ← ask_config (flom_config_get_tls_private_key None);
  ca ← ask_config (flom_config_get_tls_ca_certificate None);
  _ ← on_htls (flom_tls_set_cert p cert key ca);
  mret p.

(** The identifier of the peer is what comes before the closing tag, and the
    buffer is full of zeros before it is received. *)
Definition receive_id : Hm string :=
  '(_, msg) ← on_hwire (Wire.flom_conn_recv (Z.to_nat FLOM_MSG_BUFFER_SIZE) FLOM_NETWORK_WAIT_TIMEOUT);
  of_option (Rc FLOM_RC_PROTOCOL_ERROR) (before_tag closing_text (until_nul (string_of_list_ascii msg))).
Definition authenticate_peer (id : string) : Hm unit :=
  check ← ask_config (flom_config_get_tls_check_peer_id None);
  on_htls (flom_conn_authenticate (Some id) (negb (check =? 0))).
Definition send_id (c : conn_ref) : Hm unit :=
  id ← on_hclient (on_kworld (gets w_machine_id));
  unique_id ← of_option (Rc FLOM_RC_NULL_OBJECT) id;
  _ ← on_hclient (on_kworld (World.flom_conn_send c unique_id));
  on_hclient (on_kworld (World.flom_conn_send c closing_text)).
Definition close_conn (c : conn_ref) : Hm unit :=
  o ← on_hclient (on_kworld (deref c));
  _ ← on_hclient (on_knet (flom_tcp_close c));
  when (has_fd o) (on_hclient (sys_close (c_fd o))).

(** [flom_conn_delete] of the connection that has the TLS object, which does not
    close its socket *)
Definition delete_tls_conn (c : conn_ref) : Hm unit :=
  _ ← on_htls delete_conn_tls;
  on_hclient (on_kworld (flom_conn_delete c)).

Definition serve_tls (listen_conn client_conn : conn_ref) : Hm unit :=
  p ← secure_conn client_conn false;
  '(listen_fd, _) ← on_hclient (flom_tcp_listen None);
  _ ← on_hclient (on_kworld (store listen_conn (set_fd listen_fd)));
  peer ← sys_accept;
  '(peer_sockfd, peer_name) ← of_option (Rc FLOM_RC_ACCEPT_ERROR) peer;
  _ ← on_hclient (on_kworld (store client_conn (set_tcp peer_sockfd peer_name)));
  _ ← on_htls (flom_tls_accept p peer_sockfd);
  id ← receive_id;
  _ ← authenticate_peer id;
  _ ← send_id client_conn;
  _ ← close_conn client_conn;
  close_conn listen_conn.

Definition flom_debug_features_tls_server : Hm unit :=
  listen_conn ← on_hclient flom_conn_new;
  client_conn ← on_hclient flom_conn_new;
  finally (serve_tls listen_conn client_conn) (
    _ ← delete_tls_conn client_conn;
    on_hclient (on_kworld (flom_conn_delete listen_conn))).

Definition ask_tls (conn : conn_ref) : Hm unit :=
  p ← secure_conn conn true;
  _ ← on_hclient (flom_tcp_connect conn);
  o ← on_hclient (on_kworld (deref conn));
  _ ← on_htls (flom_tls_connect p (c_fd o));
  _ ← send_id conn;
  id ← receive_id;
  _ ← authenticate_peer id;
  close_conn conn.

Definition flom_debug_features_tls_client : Hm unit :=
  conn ← on_hclient flom_conn_new;
  finally (ask_tls conn) (delete_tls_conn conn).

(** ** [flom_debug_features] *)
Definition FLOM_DEBUG_FEATURES_IPV6_MULTICAST_SERVER : string := "IPv6.Multicast.Server".
Definition FLOM_DEBUG_FEATURES_IPV6_MULTICAST_CLIENT : string := "IPv6.Multicast.Client".
Definition FLOM_DEBUG_FEATURES_TLS_SERVER : string := "TLS.Server".
Definition FLOM_DEBUG_FEATURES_TLS_CLIENT : string := "TLS.Client".

(** [0 == strcasecmp(a, b)] *)
Fixpoint same_nocase (a b : string) : bool :=
  match a, b with
  | EmptyString, EmptyString => true
  | String x a, String y b => Ascii.eqb (to_lower x) (to_lower y) && same_nocase a b
  | _, _ => false
  end.

Definition flom_debug_features (name : string) : Hm unit :=
  if same_nocase name FLOM_DEBUG_FEATURES_IPV6_MULTICAST_SERVER then flom_debug_features_ipv6_multicast_server
  else if same_nocase name FLOM_DEBUG_FEATURES_IPV6_MULTICAST_CLIENT then flom_debug_features_ipv6_multicast_client
  else if same_nocase name FLOM_DEBUG_FEATURES_TLS_SERVER then flom_debug_features_tls_server
  else if same_nocase name FLOM_DEBUG_FEATURES_TLS_CLIENT then flom_debug_features_tls_client
  else throw (Rc FLOM_RC_INVALID_OPTION).

(** The exit status of the command that is given a feature *)
Definition debug_status (name : string) : Hm Z :=
  r ← attempt (flom_debug_features name);
  mret (match r with inr _ => 0 | inl _ => 1 end).
End debug.

(** ** The descriptors of the multicast features *)
Section multicast.
Context `{OpenSSL} (base : list Z) (named : bool).

(** The descriptors that are open are those of the start and [extra]; the system
    gives descriptors that are not open; [getsockname] succeeds, when [named] says
    so. *)
Record tidy (extra : list Z) (x : list (option string) * list string * string) (s : host) : Prop := Tidy {
  tidy_owned : owned (k_configs (h_client s));
  tidy_open : k_open (h_client s) = (extra ++ base)%list;
  tidy_fresh : Forall (fun o => forall fd, o = Some fd -> fd <> FLOM_NULL_FD /\ fd ∉ base) (k_sockets (h_client s));
  tidy_named : named = true -> Forall (eq true) (h_names s);
  tidy_log : (h_received s, h_sent s, h_out s) = x
}.

Lemma wp_ask_int f extra x (Q : err + Z -> host -> Prop) s :
  tidy extra x s -> (forall v, Q (inr v) s) -> wp (ask_config (get_int f None)) Q s.
Proof using.
  intros Hs HQ. unfold ask_config, on_hclient, on_configs. do 2 wp_step. unfold get_int. wp_step.
  eapply wp_the_config; [done|]. wp_step. specialize (HQ (ints (global_config (k_configs (h_client s))) f)).
  by destruct s as [[]].
Qed.
Lemma wp_ask_str f extra x (Q : err + option string -> host -> Prop) s :
  tidy extra x s -> (forall v, Q (inr v) s) -> wp (ask_config (get_str f None)) Q s.
Proof using.
  intros Hs HQ. unfold ask_config, on_hclient, on_configs. do 2 wp_step.
  apply wp_get_str; [apply Hs | by eexists|].
  specialize (HQ (content (k_configs (h_client s)) None f)). by destruct s as [[]].
Qed.

Lemma wp_host_socket x (Q : err + option Z -> host -> Prop) s :
  tidy [] x s -> (forall s', tidy [] x s' -> Q (inr None) s') ->
  (forall fd s', fd <> FLOM_NULL_FD -> fd ∉ base -> tidy [fd] x s' -> Q (inr (Some fd)) s') ->
  wp (on_hclient sys_socket) Q s.
Proof using.
  intros [Ho Hop Hf Hn Hl] HN HS. unfold on_hclient, sys_socket. wp_step. wp_step. unfold wp at 1, next_input.
  destruct (k_sockets (h_client s)) as [|o l] eqn:E; cbn [fst snd].
  { wp_step. wp_step. wp_step. apply HN. split; cbn; [done | done | by rewrite E | done | done]. }
  apply Forall_cons in Hf as [Ho' Hf]. destruct o as [fd|]; wp_step; wp_step; wp_step.
  - destruct (Ho' fd eq_refl). apply HS; [done..|]. split; cbn; [done | by rewrite Hop | done..].
  - apply HN. by split.
Qed.

Lemma wp_host_close fd x (Q : err + unit -> host -> Prop) s :
  tidy [fd] x s -> fd ∉ base -> (forall s', tidy [] x s' -> Q (inr tt) s') ->
  wp (on_hclient (sys_close fd)) Q s.
Proof using.
  intros [Ho Hop Hf Hn Hl] Hfd HQ. unfold on_hclient, sys_close. wp_step. wp_step. apply HQ.
  split; cbn; [done | | done..]. rewrite Hop. cbn [List.app]. rewrite filter_cons_False by tauto.
  assert (Hid : forall l : list Z, fd ∉ l -> filter (fun y => y <> fd) l = l).
  { induction l as [|y l IH]; [done|]. intros [Hy Hl']%not_elem_of_cons.
    rewrite filter_cons_True by done. by rewrite IH. }
  by apply Hid.
Qed.

Lemma wp_named_ok extra x (Q : err + bool -> host -> Prop) s :
  tidy extra x s -> (forall b s', (named = true -> b = true) -> tidy extra x s' -> Q (inr b) s') ->
  wp named_ok Q s.
Proof using.
  intros [Ho Hop Hf Hn Hl] HQ. unfold wp, named_ok. destruct (h_names s) as [|b l] eqn:E; cbn.
  - apply HQ; [done|]. by split; rewrite ?E.
  - apply HQ; [|split; cbn; try done]; intros Hg; specialize (Hn Hg); by apply Forall_cons in Hn as [? ?].
Qed.

(** What a search leaves: nothing, or the one socket that it returns *)
Definition searched x (r : err + (option addr * Z)) (s : host) : Prop :=
  match r with
  | inr (None, fd) => fd = FLOM_NULL_FD /\ tidy [] x s
  | inr (Some _, fd) => fd <> FLOM_NULL_FD /\ (fd ∉ base) /\ tidy [fd] x s
  | inl _ => False
  end.
Lemma wp_find_client x l : forall s, tidy [] x s -> wp (find_client l) (searched x) s.
Proof using.
  induction l as [|a l IH]; intros s Hs; cbn [find_client]; [by wp_step|].
  wp_step. eapply wp_ask_int; [exact Hs|]. intros _. wp_step. eapply wp_host_socket; [exact Hs | exact IH|].
  intros fd s1 Hn Hb Hs1. wp_step; [by wp_step|]. wp_step. eapply wp_host_close; [exact Hs1 | done | exact IH].
Qed.
Lemma wp_join_server x l : named = true -> forall s, tidy [] x s -> wp (join_server l FLOM_NULL_FD) (searched x) s.
Proof using.
  intros Hgood. induction l as [|a l IH]; intros s Hs; cbn [join_server]; [by wp_step|].
  wp_step. eapply wp_host_socket; [exact Hs | exact IH|]. intros fd s1 Hn Hb Hs1.
  wp_step. eapply wp_named_ok; [exact Hs1|]. intros b s2 Hb2 Hs2. rewrite Hb2 by done. cbn [negb].
  wp_step.
  - wp_step. eapply wp_host_close; [exact Hs2 | done | exact IH].
  - wp_step. eapply wp_named_ok; [exact Hs2|]. intros b' s3 Hb3 Hs3. rewrite Hb3 by done. cbn [negb].
    wp_step; [by wp_step|]. wp_step. eapply wp_host_close; [exact Hs3 | done | exact IH].
Qed.

Lemma wp_multicast_addresses x (Q : err + list addr -> host -> Prop) s :
  tidy [] x s -> (forall s', tidy [] x s' -> Q (inl (Rc FLOM_RC_GETADDRINFO_ERROR)) s') ->
  (forall l s', tidy [] x s' -> Q (inr l) s') -> wp multicast_addresses Q s.
Proof using.
  intros Hs He HQ. unfold multicast_addresses. wp_step. eapply wp_ask_int; [exact Hs|]. intros _.
  wp_step. eapply wp_ask_str; [exact Hs|]. intros _. wp_step. unfold on_hclient. wp_step.
  unfold wp at 1, sys_getaddrinfo, next_input. destruct Hs as [Ho Hop Hf Hn Hl].
  destruct (k_addrs (h_client s)) as [|o l]; cbn [fst snd]; [by apply He|].
  destruct o as [l'|]; [by apply HQ | by apply He].
Qed.

Lemma wp_host_ok extra x (Q : err + bool -> host -> Prop) s :
  tidy extra x s -> (forall b s', tidy extra x s' -> Q (inr b) s') -> wp (on_hclient sys_ok) Q s.
Proof using.
  intros [Ho Hop Hf Hn Hl] HQ. unfold on_hclient. wp_step. unfold wp, sys_ok, next_input.
  by destruct (k_calls (h_client s)); apply HQ.
Qed.
Lemma wp_recvfrom_text len extra received sent out (Q : err + option string -> host -> Prop) s :
  tidy extra (received, sent, out) s ->
  (forall s', tidy extra (tail received, sent, out) s' -> Q (inr (substring 0 len <$> default None (head received))) s') ->
  wp (recvfrom_text len) Q s.
Proof using.
  intros [Ho Hop Hf Hn [= <- <- <-]] HQ. unfold wp, recvfrom_text.
  destruct (h_received s) eqn:E; apply HQ; split; cbn; try done. by rewrite E.
Qed.
Lemma wp_sendto text extra received sent out (Q : err + Z -> host -> Prop) s :
  tidy extra (received, sent, out) s ->
  (forall n s', tidy extra (received, sent ++ (if n =? strlen text then [text] else []), out)%list s' -> Q (inr n) s') ->
  wp (sendto text) Q s.
Proof using.
  intros [Ho Hop Hf Hn [= <- <- <-]] HQ. unfold wp, sendto. by destruct (h_sendtos s); apply HQ.
Qed.
Lemma wp_printf text extra received sent out (Q : err + unit -> host -> Prop) s :
  tidy extra (received, sent, out) s ->
  (forall s', tidy extra (received, sent, out ++ text) s' -> Q (inr tt) s') -> wp (printf text) Q s.
Proof using. intros [Ho Hop Hf Hn [= <- <- <-]] HQ. unfold printf. wp_step. by apply HQ. Qed.

(** What a feature leaves when its socket has been closed *)
Definition ends extra (X : err + unit -> list (option string) * list string * string -> Prop)
    (r : err + unit) (s : host) : Prop :=
  (r = inr tt \/ exists rc, r = inl (Rc rc)) /\ exists x, tidy extra x s /\ X r x.

Lemma wp_close_after extra X fd (m : Hm unit) s :
  extra = [] /\ fd = FLOM_NULL_FD \/ extra = [fd] /\ fd <> FLOM_NULL_FD /\ fd ∉ base ->
  wp m (ends extra X) s -> wp (finally m (close_if_open fd)) (ends [] X) s.
Proof using.
  intros Hfd Hm. wp_step. eapply wp_mono; [|exact Hm]. intros r s1 (Hr & x & Hx & HX).
  assert (Hend : forall (Q : err + unit -> host -> Prop), (forall s', tidy [] x s' -> Q (inr tt) s') ->
    wp (close_if_open fd) Q s1).
  { intros Q HQ. unfold close_if_open. destruct Hfd as [[-> ->]|(-> & Hn & Hb)].
    - wp_step; [done|]. by apply HQ.
    - rewrite (proj2 (Z.eqb_neq fd FLOM_NULL_FD) Hn). cbn [negb when]. by eapply wp_host_close. }
  destruct Hr as [->|[rc ->]]; cbn beta iota; wp_step; apply Hend; intros s' Hs'; wp_step; split; eauto.
Qed.
End multicast.

Lemma wp_the_feature `{OpenSSL} base named x X search (body : option addr -> Hm unit) s :
  tidy base named [] x s -> (forall rc, X (inl (Rc rc)) x) ->
  (forall l s', tidy base named [] x s' -> wp (search l) (searched base named x) s') ->
  (forall found extra s', tidy base named extra x s' -> wp (body found) (ends base named extra X) s') ->
  wp (l ← multicast_addresses; '(found, fd) ← search l; finally (body found) (close_if_open fd))
    (ends base named [] X) s.
Proof.
  intros Hs He Hsearch Hbody. wp_step. eapply wp_multicast_addresses; [exact Hs | |].
  { intros s1 Hs1. split; [by right; eexists | by eexists]. }
  intros l s1 Hs1. wp_step. eapply wp_mono; [|by apply Hsearch]. intros [e|[[a|] fd]] s2; [done | |].
  - intros (Hn & Hb & Hs2). eapply wp_close_after; [by right; split_and! | by apply Hbody].
  - intros [-> Hs2]. eapply wp_close_after; [by left | by apply Hbody].
Qed.

Section multicast_theorems.
Context `{OpenSSL}.

(** The system gives descriptors that are not open. *)
Definition fresh_sockets (s : host) : Prop :=
  Forall (fun o => forall fd, o = Some fd -> fd <> FLOM_NULL_FD /\ fd ∉ k_open (h_client s)) (k_sockets (h_client s)).

Definition shown_arrival (d : string) : string :=
  "Arrived datagram is '" ++ columns (String.substring 0 2048 d) ++ "'" ++ newline.
Definition shown_sending (msg : string) : string := "Sent datagram is '" ++ msg ++ "'" ++ newline.

Lemma tidy_start named s :
  owned (k_configs (h_client s)) -> fresh_sockets s -> (named = true -> Forall (eq true) (h_names s)) ->
  tidy (k_open (h_client s)) named [] (h_received s, h_sent s, h_out s) s.
Proof. by split. Qed.

(** What a feature has done when it reports no error: it has received one
    datagram, sent one, and shown both. *)
Definition exchanged (msg : string) (show : string -> string) (s : host) (r : err + unit)
    (x : list (option string) * list string * string) : Prop :=
  r = inr tt -> exists d rest, h_received s = Some d :: rest /\
    x = (rest, (h_sent s ++ [msg])%list, h_out s ++ show d).
Lemma ends_exchanged base named msg show s r s' :
  ends base named [] (exchanged msg show s) r s' ->
  (r = inr tt \/ exists rc, r = inl (Rc rc)) /\ k_open (h_client s') = base /\
  (r = inr tt -> exists d rest, h_received s = Some d :: rest /\ h_sent s' = (h_sent s ++ [msg])%list /\
     h_out s' = h_out s ++ show d).
Proof.
  intros [Hr (x & Hx & HX)]. split; [exact Hr|]. split; [apply Hx|]. intros Hok.
  destruct (HX Hok) as (d & rest & Hd & ->). exists d, rest. split; [exact Hd|].
  by pose proof (tidy_log _ _ _ _ _ Hx) as [= _ -> ->].
Qed.

(** safety.  Whatever the system answers, the multicast client ends with a reason
    code and without a descriptor more than it has found; when it ends well it
    has sent one greeting, received one datagram, and shown both. *)
Theorem multicast_client_ends s :
  owned (k_configs (h_client s)) -> fresh_sockets s ->
  wp flom_debug_features_ipv6_multicast_client (fun r s' =>
    (r = inr tt \/ exists rc, r = inl (Rc rc)) /\ k_open (h_client s') = k_open (h_client s) /\
    (r = inr tt -> exists d rest, h_received s = Some d :: rest /\ h_sent s' = (h_sent s ++ [hello_msg])%list /\
       h_out s' = h_out s ++ (shown_sending hello_msg ++ shown_arrival d))) s.
Proof.
  intros Ho Hf. eapply wp_mono; [intros r s'; apply (ends_exchanged _ false)|].
  eapply (wp_the_feature _ _ _ _ find_client greet); [by apply tidy_start | done | |].
  { intros l s1. apply wp_find_client. }
  intros found extra s1 Hs1. unfold greet. wp_step. destruct found as [a|]; cbn [of_option]; wp_step.
  2: { split; [by right; eexists | by eexists]. }
  assert (Hfail : forall rc x s', tidy (k_open (h_client s)) false extra x s' ->
    ends (k_open (h_client s)) false extra (exchanged hello_msg (fun d => shown_sending hello_msg ++ shown_arrival d) s) (inl (Rc rc)) s').
  { intros rc x s' Hs'. split; [by right; eexists | by eexists]. }
  wp_step. eapply wp_host_ok; [exact Hs1|]. intros b s2 Hs2. do 2 wp_step; [wp_step; by eapply Hfail|].
  wp_step. eapply wp_host_ok; [exact Hs2|]. intros b3 s3 Hs3. do 2 wp_step; [wp_step; by eapply Hfail|].
  wp_step. eapply wp_named_ok; [exact Hs3|]. intros b4 s4 _ Hs4. do 2 wp_step; [wp_step; by eapply Hfail|].
  wp_step. eapply wp_sendto; [exact Hs4|]. intros n s5 Hs5. do 2 wp_step; [wp_step; by eapply Hfail|].
  rewrite (Z.eqb_sym n) in Hs5. match goal with E : negb _ = false |- _ => apply negb_false_iff in E; rewrite E in Hs5 end.
  wp_step. eapply wp_printf; [exact Hs5|]. intros s6 Hs6.
  wp_step. eapply wp_recvfrom_text; [exact Hs6|]. intros s7 Hs7. wp_step.
  destruct (h_received s) as [|[d|] rest] eqn:Er; cbn [head from_option id fmap option_fmap option_map of_option]; wp_step;
    [by eapply Hfail | | by eapply Hfail].
  eapply wp_printf; [exact Hs7|]. intros s8 Hs8. split; [by left|]. eexists. split; [exact Hs8|].
  intros _. exists d, rest. split; [done|]. f_equal. exact (append_assoc (h_out s) (shown_sending hello_msg) (shown_arrival d)).
Qed.

(** safety.  The multicast server answers one datagram and ends the same way, as
    long as [getsockname] succeeds. *)
Theorem multicast_server_ends s :
  owned (k_configs (h_client s)) -> fresh_sockets s -> Forall (eq true) (h_names s) ->
  wp flom_debug_features_ipv6_multicast_server (fun r s' =>
    (r = inr tt \/ exists rc, r = inl (Rc rc)) /\ k_open (h_client s') = k_open (h_client s) /\
    (r = inr tt -> exists d rest, h_received s = Some d :: rest /\ h_sent s' = (h_sent s ++ [welcome_msg])%list /\
       h_out s' = h_out s ++ (shown_arrival d ++ shown_sending welcome_msg))) s.
Proof.
  intros Ho Hf Hn. eapply wp_mono; [intros r s'; apply (ends_exchanged _ true)|].
  eapply (wp_the_feature _ _ _ _ (fun l => join_server l FLOM_NULL_FD) answer_datagram);
    [by apply tidy_start | done | |].
  { intros l s1. by apply wp_join_server. }
  intros found extra s1 Hs1. unfold answer_datagram. wp_step. destruct found as [a|]; cbn [of_option]; wp_step.
  2: { split; [by right; eexists | by eexists]. }
  assert (Hfail : forall rc x s', tidy (k_open (h_client s)) true extra x s' ->
    ends (k_open (h_client s)) true extra (exchanged welcome_msg (fun d => shown_arrival d ++ shown_sending welcome_msg) s) (inl (Rc rc)) s').
  { intros rc x s' Hs'. split; [by right; eexists | by eexists]. }
  wp_step. eapply wp_recvfrom_text; [exact Hs1|]. intros s2 Hs2. wp_step.
  destruct (h_received s) as [|[d|] rest] eqn:Er; cbn [head from_option id fmap option_fmap option_map of_option]; wp_step;
    [by eapply Hfail | | by eapply Hfail].
  wp_step. eapply wp_printf; [exact Hs2|]. intros s3 Hs3.
  wp_step. eapply wp_sendto; [exact Hs3|]. intros n s4 Hs4. do 2 wp_step; [wp_step; by eapply Hfail|].
  rewrite (Z.eqb_sym n) in Hs4. match goal with E : negb _ = false |- _ => apply negb_false_iff in E; rewrite E in Hs4 end.
  eapply wp_printf; [exact Hs4|]. intros s5 Hs5. split; [by left|]. eexists. split; [exact Hs5|].
  intros _. exists d, rest. split; [done|].
  f_equal. exact (append_assoc (h_out s) (shown_arrival d) (shown_sending welcome_msg)).
Qed.
End multicast_theorems.

(** ** Who the TLS features have talked to, and the memory of TLS *)
Section tls_features.
Context `{OpenSSL}.

(** What the calls on connections and on the configuration leave alone *)
Definition apart (s : host) : tls_state * wire * configs := (h_tls s, h_wire s, k_configs (h_client s)).
Lemma apart_on_hclient {A} (m : Km A) : untouched k_configs m -> untouched apart (on_hclient m).
Proof.
  intros Hm s. unfold on_hclient, zoom. specialize (Hm (h_client s)).
  destruct (m (h_client s)) as [r k]. unfold apart. cbn in *. by rewrite Hm.
Qed.
Lemma configs_on_kworld {A} (m : Wm A) : untouched k_configs (on_kworld m).
Proof. by apply untouched_on_knet. Qed.
Lemma configs_on_knet {A} (m : Cm A) : untouched k_configs (on_knet m).
Proof. by apply untouched_on_knet. Qed.
Hint Resolve apart_on_hclient configs_on_kworld configs_on_knet configs_get_str : untouched.

Lemma configs_conn_new : untouched k_configs flom_conn_new.
Proof. unfold flom_conn_new. solve_untouched. Qed.
Lemma configs_sys_close fd : untouched k_configs (sys_close fd).
Proof. unfold sys_close. solve_untouched. Qed.
Lemma configs_sys_socket : untouched k_configs sys_socket.
Proof. unfold sys_socket. solve_untouched. Qed.
Lemma configs_get_int f r : untouched k_configs (on_configs (get_int f r)).
Proof.
  apply (untouched_zoom _ _ _ id); [done | done|]. intros s. unfold get_int, the_config, mbind, M_bind, gets.
  by destruct r as [p|]; [destruct (g_configs s !! p)|].
Qed.
Hint Resolve configs_sys_close configs_sys_socket configs_get_int : untouched.
Lemma configs_bind_first cf l : untouched k_configs (bind_first cf l).
Proof. induction l; cbn [bind_first]; unfold scope_of, flom_config_get_network_interface; solve_untouched. Qed.
Lemma configs_try_connect l : untouched k_configs (flom_tcp_try_connect l).
Proof. induction l; cbn [flom_tcp_try_connect]; unfold sys_connect; solve_untouched. Qed.
Hint Resolve configs_bind_first configs_try_connect : untouched.
Lemma configs_tcp_listen cf : untouched k_configs (flom_tcp_listen cf).
Proof. unfold flom_tcp_listen, closing, sys_getaddrinfo, sys_ok, flom_config_get_unicast_address. solve_untouched. Qed.
Lemma configs_tcp_connect c : untouched k_configs (flom_tcp_connect c).
Proof. unfold flom_tcp_connect, sys_getaddrinfo. solve_untouched. Qed.
Lemma apart_accept : untouched apart sys_accept.
Proof. intros s. unfold sys_accept, apart. by destruct (h_accepts s) as [|[[fd o]|] l]. Qed.
Hint Resolve configs_conn_new configs_tcp_listen configs_tcp_connect apart_accept : untouched.
Lemma apart_close_conn c : untouched apart (close_conn c).
Proof. unfold close_conn. solve_untouched. Qed.
Lemma apart_send_id c : untouched apart (send_id c).
Proof. unfold send_id. solve_untouched. Qed.
Hint Resolve apart_close_conn apart_send_id : untouched.

Section one_run.
Variable base : gmap ptr block.

(** The end of a feature: the blocks of the connection, and what is true when
    there was no error *)
Definition left_with (good : Prop) (r : err + unit) (s : host) : Prop :=
  match r with
  | inl (Rc _) => exists conn, leftover base true conn (h_tls s)
  | inl _ => True
  | inr _ => good /\ exists conn, leftover base true conn (h_tls s)
  end.

Lemma wp_on_htls {A} (m : Tm A) (Q : err + A -> host -> Prop) s :
  wp m (fun r t => Q r (put_htls t s)) (h_tls s) -> wp (on_htls m) Q s.
Proof. intros Hm. unfold on_htls. by wp_step. Qed.

(** A call that leaves TLS alone, in a feature *)
Lemma wp_apart {A} (m : Hm A) (k : A -> Hm unit) good s :
  untouched apart m -> (exists conn, leftover base true conn (h_tls s)) ->
  (forall a s', apart s' = apart s -> wp (k a) (left_with good) s') -> wp (m ≫= k) (left_with good) s.
Proof.
  intros Hm Hl Hk. wp_step. eapply wp_untouched; [exact Hm|]. intros [[rc| |]|a] s' Hs'; [|done|done|by apply Hk].
  cbn. by injection Hs' as -> _ _.
Qed.
Lemma wp_apart_last (m : Hm unit) (good : Prop) s :
  untouched apart m -> (exists conn, leftover base true conn (h_tls s)) -> good -> wp m (left_with good) s.
Proof.
  intros Hm Hl Hg. eapply wp_untouched; [exact Hm|]. intros [[rc| |]|[]] s' Hs'; [|done|done|];
    injection Hs' as Hs' _ _; cbn; rewrite Hs'; auto.
Qed.

Definition cnf_of (s : host) (client : bool) : context :=
  use_files (content (k_configs (h_client s)) None tls_certificate)
    (content (k_configs (h_client s)) None tls_private_key)
    (content (k_configs (h_client s)) None tls_ca_certificate)
    (context_for client FLOM_TLS_MAX_DEPTH_CERT_CHAIN_VERIF).

Lemma holds_leftover p o (l : list (ptr * block)) t :
  holds base true (Some p) l t ->
  (l = [(p, Object o)] /\ tls_ctx o = None \/
   exists x c, l = [(x, Ctx c); (p, Object o)] /\ tls_ctx o = Some x) ->
  tls_ssl o = None -> tls_cert o = None -> exists conn, leftover base true conn t.
Proof.
  intros Hs Hl Hssl Hcert. exists (Some p). destruct Hl as [[-> Hx]|(x & c & -> & Hx)].
  - eapply (leftover_part _ _ p o [] []); [exact Hs | done | by rewrite Hx | by rewrite Hssl | done].
  - eapply (leftover_part _ _ p o [(x, Ctx c)] []);
      [exact Hs | apply perm_swap | rewrite Hx; by eexists | by rewrite Hssl | done].
Qed.

Lemma wp_ask_text f (Q : err + option string -> host -> Prop) s :
  (forall e, Q (inl e) s) -> Q (inr (content (k_configs (h_client s)) None f)) s ->
  wp (ask_config (get_str f None)) Q s.
Proof.
  intros He HQ. unfold ask_config, on_hclient, on_configs. do 2 wp_step.
  assert (Hid : put_hclient (put_configs (k_configs (h_client s)) (h_client s)) s = s) by by destruct s as [[]].
  apply get_str_content; rewrite Hid; auto.
Qed.

Lemma wp_secure_conn c client (Q : err + ptr -> host -> Prop) s :
  holds base true None [] (h_tls s) ->
  (forall e s', left_with True (inl e) s' -> Q (inl e) s') ->
  (forall p x s', h_wire s' = h_wire s -> k_configs (h_client s') = k_configs (h_client s) ->
     holds base true (Some p) [(x, Ctx (cnf_of s client));
       (p, Object (Tls (Some x) None client FLOM_TLS_MAX_DEPTH_CERT_CHAIN_VERIF None))] (h_tls s') ->
     Q (inr p) s') ->
  wp (secure_conn c client) Q s.
Proof.
  intros Hs He HQ. unfold secure_conn. wp_step. apply wp_on_htls. eapply wp_init_tls; [exact Hs | | done].
  intros p t1 Ht1. wp_step. apply wp_on_htls. wp_step. cbn [h_tls put_htls].
  rewrite (h_conn _ _ _ _ _ Ht1). wp_step. cbn [of_option]. wp_step.
  assert (Hl1 : exists conn, leftover base true conn t1) by (eapply holds_leftover; [exact Ht1 | by left | done | done]).
  wp_step. eapply (wp_untouched apart); [solve_untouched|]. intros r s2 [= Et2 Ew2 Eg2]. cbn [h_tls put_htls] in Et2.
  destruct r as [e|_]; [apply He; destruct e; cbn; by rewrite ?Et2|].
  wp_step. apply wp_on_htls. rewrite Et2. eapply wp_context; [exact Ht1 | |].
  2: { intros rc t3 Ht3. apply He. eapply holds_leftover; [exact Ht3 | by left | done | done]. }
  intros x t3 Ht3. set (s3 := put_htls t3 s2).
  assert (Hl3 : exists conn, leftover base true conn (h_tls s3)).
  { eapply holds_leftover; [exact Ht3 | right; by do 2 eexists | done | done]. }
  assert (Hask : forall e, Q (inl e) s3) by (intros []; by apply He).
  do 3 (wp_step; apply wp_ask_text; [exact Hask|]).
  wp_step. apply wp_on_htls. eapply wp_set_cert; [exact Ht3 | done | |].
  - intros t4 Ht4. wp_step. eapply HQ; [exact Ew2 | exact Eg2|].
    unfold cnf_of. cbn [h_client put_htls s3] in *. by rewrite Eg2 in Ht4.
  - intros rc c' t4 Ht4. apply He. eapply holds_leftover; [exact Ht4 | right; by do 2 eexists | done | done].
Qed.

(** The identifier is read in the bytes of the peer. *)
Definition claimed (before after : list ascii) (id : string) : Prop :=
  exists m, before = (m ++ after)%list /\ before_tag closing_text (until_nul (string_of_list_ascii m)) = Some id.
Lemma wp_receive_id (Q : err + string -> host -> Prop) s :
  streaming (h_wire s) ->
  (forall e s', h_tls s' = h_tls s -> Q (inl e) s') ->
  (forall id s', h_tls s' = h_tls s -> h_client s' = h_client s ->
     claimed (sk_in (wr_stream (h_wire s))) (sk_in (wr_stream (h_wire s'))) id -> Q (inr id) s') ->
  wp receive_id Q s.
Proof.
  intros Hst He HQ. unfold receive_id. wp_step. unfold on_hwire. wp_step.
  apply wp_stream_recv; [done | by intros; apply He|]. intros e polls _.
  eapply wp_mono; [|apply (recv_msg_delivers e _ (sk_in (wr_stream (h_wire s))))]; [|apply Nat.leb_le; reflexivity | done].
  intros [e'|m] sk; [by intros; apply He|]. intros (Hin & _). cbn beta iota. wp_step; [|by apply He].
  apply HQ; [done | done|]. by exists m.
Qed.

(** What the check of the identifier has established: a certificate that the
    configured authority trusts has it as its last common name. *)
Variable trusted : option string -> x509 -> Prop.
Definition vouched (s : host) (id : string) : Prop :=
  exists x, trusted (content (k_configs (h_client s)) None tls_ca_certificate) x /\
    last (values_of common_name (x_subject x)) = Some id.
Definition checks_peer (s : host) : Prop := ints (global_config (k_configs (h_client s))) tls_check_peer_id <> 0.

Lemma wp_authenticate `{!Verifies trusted} p client s0 id (Q : err + unit -> host -> Prop) s :
  secured base true p client (cnf_of s0 client) (h_tls s) ->
  k_configs (h_client s) = k_configs (h_client s0) ->
  (forall rc, Q (inl (Rc rc)) s) -> ((checks_peer s0 -> vouched s0 id) -> Q (inr tt) s) ->
  wp (authenticate_peer id) Q s.
Proof.
  intros Hs Hg He HQ. unfold authenticate_peer, ask_config, on_hclient, on_configs. do 3 wp_step.
  unfold flom_config_get_tls_check_peer_id, get_int. wp_step. eapply wp_the_config; [done|]. wp_step.
  assert (Hid : put_hclient (put_configs (k_configs (h_client s)) (h_client s)) s = s) by by destruct s as [[]].
  rewrite Hid. apply wp_on_htls. unfold flom_conn_authenticate. do 2 wp_step.
  assert (Hc : t_conn (h_tls s) = Some p) by (destruct Hs as [(l & Hl & _) _]; apply Hl). rewrite Hc.
  assert (Hid2 : put_htls (h_tls s) s = s) by by destruct s.
  wp_step.
  - eapply wp_cert_check; [exact Hs | | by rewrite Hid2].
    intros q x i Hq [= <-] Hx. rewrite Hid2. apply HQ. intros _. exists x. split; [|done].
    exact (verifies _ _ _ _ (eq_refl : ctx_verify_peer (cnf_of s0 client) = true) Hq).
  - rewrite Hid2. apply HQ. intros Hch. exfalso. apply Hch. rewrite <- Hg. by apply Z.eqb_eq, negb_false_iff.
Qed.

(** What a TLS feature that reports no error has established *)
Definition authenticated (s : host) : Prop :=
  checks_peer s -> exists id after, claimed (sk_in (wr_stream (h_wire s))) after id /\ vouched s id.

Lemma secured_leftover p client c t : secured base true p client c t -> exists conn, leftover base true conn t.
Proof. intros [Hl _]. by exists (Some p). Qed.

(** The end of both features: the identifier is received and checked, then come
    calls that leave TLS alone. *)
Lemma wp_check_identity `{!Verifies trusted} p client s0 (rest : Hm unit) s :
  secured base true p client (cnf_of s0 client) (h_tls s) ->
  h_wire s = h_wire s0 -> k_configs (h_client s) = k_configs (h_client s0) -> streaming (h_wire s0) ->
  untouched apart rest ->
  wp (id ← receive_id; _ ← authenticate_peer id; rest) (left_with (authenticated s0)) s.
Proof.
  intros Hs Hw Hg Hst Hrest. wp_step. apply wp_receive_id; [by rewrite Hw | |].
  { intros e s1 Ht. destruct e; cbn; [|done..]. rewrite Ht. by eapply secured_leftover. }
  intros id s1 Ht1 Hk1 Hc1. wp_step. rewrite Hw in Hc1. rewrite <- Ht1 in Hs.
  eapply (wp_authenticate p client s0); [exact Hs | by rewrite Hk1 | |].
  { intros rc. by eapply secured_leftover. }
  intros Hv. apply wp_apart_last; [done | by eapply secured_leftover|].
  intros Hch. exists id. eexists. split; [exact Hc1 | by apply Hv].
Qed.

Lemma wp_ask_tls `{!Verifies trusted} c s :
  holds base true None [] (h_tls s) -> streaming (h_wire s) ->
  wp (ask_tls c) (left_with (authenticated s)) s.
Proof.
  intros Hs Hst. unfold ask_tls. wp_step. apply wp_secure_conn; [exact Hs | by intros []|].
  intros p x s1 Hw1 Hg1 Hs1.
  assert (Hl1 : exists conn, leftover base true conn (h_tls s1)).
  { eapply holds_leftover; [exact Hs1 | right; by do 2 eexists | done | done]. }
  apply wp_apart; [solve_untouched | exact Hl1|]. intros [] s2 [= Et2 Ew2 Eg2].
  rewrite <- Et2 in Hl1, Hs1. apply wp_apart; [solve_untouched | exact Hl1|].
  intros o s3 [= Et3 Ew3 Eg3]. rewrite <- Et3 in Hs1. wp_step. apply wp_on_htls.
  eapply wp_start_tls; [exact Hs1 | | by intros; eexists | done].
  intros t4 Ht4. apply wp_apart; [solve_untouched | by eapply secured_leftover|].
  intros [] s5 [= Et5 Ew5 Eg5]. rewrite <- Et5 in Ht4.
  eapply wp_check_identity; [exact Ht4 | cbn in *; congruence.. | exact Hst | solve_untouched].
Qed.

Lemma wp_serve_tls `{!Verifies trusted} l c s :
  holds base true None [] (h_tls s) -> streaming (h_wire s) ->
  wp (serve_tls l c) (left_with (authenticated s)) s.
Proof.
  intros Hs Hst. unfold serve_tls. wp_step. apply wp_secure_conn; [exact Hs | by intros []|].
  intros p x s1 Hw1 Hg1 Hs1.
  assert (Hl1 : exists conn, leftover base true conn (h_tls s1)).
  { eapply holds_leftover; [exact Hs1 | right; by do 2 eexists | done | done]. }
  apply wp_apart; [solve_untouched | exact Hl1|]. intros [fd scope] s2 [= Et2 Ew2 Eg2].
  rewrite <- Et2 in Hl1, Hs1. apply wp_apart; [solve_untouched | exact Hl1|].
  intros [] s3 [= Et3 Ew3 Eg3]. rewrite <- Et3 in Hl1, Hs1. apply wp_apart; [solve_untouched | exact Hl1|].
  intros o s4 [= Et4 Ew4 Eg4]. rewrite <- Et4 in Hl1, Hs1. apply wp_apart; [solve_untouched | exact Hl1|].
  intros [peer_fd peer_name] s5 [= Et5 Ew5 Eg5]. rewrite <- Et5 in Hl1, Hs1.
  apply wp_apart; [solve_untouched | exact Hl1|].
  intros [] s6 [= Et6 Ew6 Eg6]. rewrite <- Et6 in Hs1. wp_step. apply wp_on_htls.
  eapply wp_start_tls; [exact Hs1 | | by intros; eexists | done]. intros t7 Ht7.
  eapply wp_check_identity; [exact Ht7 | cbn in *; congruence.. | exact Hst | solve_untouched].
Qed.
End one_run.

(** A run that does not crash has given back the memory of TLS. *)
Definition gave_back (s : host) (good : Prop) (r : err + unit) (s' : host) : Prop :=
  match r with
  | inl Ub | inl NoFuel => True
  | inl (Rc _) => t_heap (h_tls s') = t_heap (h_tls s)
  | inr _ => good /\ t_heap (h_tls s') = t_heap (h_tls s)
  end.
Lemma wp_delete_tls_conn base c (Q : err + unit -> host -> Prop) s :
  plain_peers -> (exists conn, leftover base true conn (h_tls s)) ->
  (forall e s', t_heap (h_tls s') = base -> Q (inl e) s') -> (forall s', t_heap (h_tls s') = base -> Q (inr tt) s') ->
  wp (delete_tls_conn c) Q s.
Proof.
  intros Hp [conn Hl] He HQ. unfold delete_tls_conn. wp_step. apply wp_on_htls.
  eapply wp_delete_conn_tls; [exact Hl | done|]. intros t Ht _.
  eapply (wp_untouched apart); [solve_untouched|]. intros [e|[]] s' [= Et _ _]; [apply He | apply HQ]; by rewrite Et.
Qed.

(** What follows is the end of a feature. *)
Lemma wp_feature_end base s0 good (m : Hm unit) (clean : Hm unit) s :
  base = t_heap (h_tls s0) -> wp m (left_with base good) s ->
  (forall (Q : err + unit -> host -> Prop) s', (exists conn, leftover base true conn (h_tls s')) ->
     (forall e s'', t_heap (h_tls s'') = base -> Q (inl e) s'') ->
     (forall s'', t_heap (h_tls s'') = base -> Q (inr tt) s'') -> wp clean Q s') ->
  wp (finally m clean) (gave_back s0 good) s.
Proof.
  intros -> Hm Hclean. wp_step. eapply wp_mono; [|exact Hm].
  intros [[rc| |]|[]] s1; [|done|done|]; intros Hl; cbn beta iota; wp_step; apply Hclean.
  - exact Hl.
  - by intros [].
  - intros s2 Hs2. by wp_step.
  - apply Hl.
  - by intros [].
  - intros s2 Hs2. wp_step. by split; [apply Hl|].
Qed.

Lemma holds_first s : sound_heap (h_tls s) -> t_conn (h_tls s) = None -> Forall (eq true) (t_mallocs (h_tls s)) ->
  holds (t_heap (h_tls s)) true None [] (h_tls s).
Proof. intros Hf Hc Hm. by apply holds_start. Qed.

(** safety.  A TLS client that reports no error has, when the check is
    configured, an identifier from its peer that the peer has proved to be its
    own: it is the name in a certificate that the configured authority trusts.
    Whatever happened, if the process did not crash all the memory of TLS is given
    back. *)
Theorem tls_client_authenticates trusted `{!Verifies trusted} s :
  plain_peers -> sound_heap (h_tls s) -> t_conn (h_tls s) = None -> Forall (eq true) (t_mallocs (h_tls s)) ->
  streaming (h_wire s) ->
  wp flom_debug_features_tls_client (gave_back s (authenticated trusted s)) s.
Proof.
  intros Hp Hf Hc Hm Hst. unfold flom_debug_features_tls_client. wp_step.
  eapply (wp_untouched apart); [solve_untouched|]. intros [[rc| |]|c] s1 [= Et Ew Eg]; [cbn; by rewrite Et|done..|].
  eapply wp_feature_end; [done | |].
  - eapply wp_mono; [|apply (wp_ask_tls (t_heap (h_tls s)) trusted c s1); rewrite ?Et, ?Ew; [by apply holds_first | done]].
    unfold authenticated, checks_peer, vouched. by rewrite Ew, Eg.
  - intros Q s2 Hl He HQ. by eapply wp_delete_tls_conn.
Qed.

(** safety.  So does a TLS server, which answers only a client that has passed
    the check. *)
Theorem tls_server_authenticates trusted `{!Verifies trusted} s :
  plain_peers -> sound_heap (h_tls s) -> t_conn (h_tls s) = None -> Forall (eq true) (t_mallocs (h_tls s)) ->
  streaming (h_wire s) ->
  wp flom_debug_features_tls_server (gave_back s (authenticated trusted s)) s.
Proof.
  intros Hp Hf Hc Hm Hst. unfold flom_debug_features_tls_server. wp_step.
  eapply (wp_untouched apart); [solve_untouched|]. intros [[rc| |]|l] s1 [= Et Ew Eg]; [cbn; by rewrite Et|done..|].
  wp_step. eapply (wp_untouched apart); [solve_untouched|].
  intros [[rc| |]|c] s2 [= Et2 Ew2 Eg2]; [cbn; by rewrite Et2, Et|done..|].
  rewrite Et in Et2. rewrite Ew in Ew2. rewrite Eg in Eg2.
  eapply wp_feature_end; [done | |].
  - eapply wp_mono; [|apply (wp_serve_tls (t_heap (h_tls s)) trusted l c s2); rewrite ?Et2, ?Ew2; [by apply holds_first | done]].
    unfold authenticated, checks_peer, vouched. by rewrite Ew2, Eg2.
  - intros Q s3 Hl He HQ. wp_step. eapply wp_delete_tls_conn; [done | exact Hl | done|].
    intros s4 Hs4. eapply (wp_untouched apart); [solve_untouched|].
    intros [e|[]] s5 [= Et5 _ _]; [apply He | apply HQ]; by rewrite Et5.
Qed.
End tls_features.

(** ** The choice of a feature *)
Definition lower (s : string) : string := string_of_list_ascii (map to_lower (list_ascii_of_string s)).
Lemma same_nocase_lower a : forall b, same_nocase a b = true <-> lower a = lower b.
Proof.
  unfold lower. induction a as [|x a IH]; intros [|y b]; cbn; [done..|].
  rewrite andb_true_iff, IH, Ascii.eqb_eq. split; [by intros [-> ->] | by intros [= -> ->]].
Qed.

(** functional.  Each feature is chosen by its name, in upper or lower case; any
    other name is refused. *)
Theorem feature_by_name `{OpenSSL} name :
  flom_debug_features name =
    (if bool_decide (lower name = "ipv6.multicast.server") then flom_debug_features_ipv6_multicast_server
     else if bool_decide (lower name = "ipv6.multicast.client") then flom_debug_features_ipv6_multicast_client
     else if bool_decide (lower name = "tls.server") then flom_debug_features_tls_server
     else if bool_decide (lower name = "tls.client") then flom_debug_features_tls_client
     else throw (Rc FLOM_RC_INVALID_OPTION)).
Proof.
  assert (Hb : forall l f, lower f = l -> same_nocase name f = bool_decide (lower name = l)).
  { intros l f <-. case_bool_decide as E; [by apply same_nocase_lower|].
    apply not_true_is_false. by rewrite same_nocase_lower. }
  unfold flom_debug_features. by rewrite !(Hb _ _ eq_refl).
Qed.

(** ** Concrete features *)
Definition demo_debug (certs : list x509) (id : string) (bytes : string) (k : client) : @host (demo_openssl certs) :=
  @Host (demo_openssl certs)
    (put_configs (Configs {[ 1%positive := "cert.pem"; 2%positive := "key.pem"; 3%positive := "ca.pem" ]} 4
       (set_int tls_check_peer_id 1 (set_str tls_certificate (Some 1%positive)
         (set_str tls_private_key (Some 2%positive) (set_str tls_ca_certificate (Some 3%positive) zero_config)))) ∅)
       (put_knet (put_nworld (World (w_conns (n_world (k_net k))) (w_vfs (n_world (k_net k))) [] [] [] []
          (Some id)) (k_net k)) k))
    (demo_tls certs 0) (Wire SOCK_STREAM true (Socket (list_ascii_of_string bytes) []) [] []) [] [] [] [] [] "".
Definition demo_tls_host (certs : list x509) (bytes : string) : @host (demo_openssl certs) :=
  let s := demo_debug certs "bob" bytes (put_addrs [Some [Addr Inet []]] (demo_client [5] [])) in
  @Host (demo_openssl certs) (h_client s) (h_tls s) (h_wire s) [] [] [] [Some (6, Some "10.0.0.2")] [] "".
Definition demo_tls_server (certs : list x509) (bytes : string) :=
  @flom_debug_features_tls_server (demo_openssl certs) (demo_tls_host certs bytes).
Definition demo_tls_client (certs : list x509) (bytes : string) :=
  @flom_debug_features_tls_client (demo_openssl certs)
    (demo_debug certs "ann" bytes (put_addrs [Some [Addr Inet []]] (demo_client [5] []))).
Definition bob : x509 := X509 demo_issuer [(NID_commonName, "bob")].
Definition sent_texts (k : client) : string := String.concat "" (map snd (sent_by k)).

(** The two ends of a test: what each one sends is what the other one reads, both
    succeed, and all their sockets are closed. *)
Example demo_tls_test :
  let '(r, server) := demo_tls_server [ann] "ann</msg>" in
  let '(r', client) := demo_tls_client [bob] "bob</msg>" in
  r = inr tt /\ r' = inr tt /\
  sent_texts (h_client client) = "ann</msg>" /\ sent_texts (h_client server) = "bob</msg>" /\
  k_open (h_client client) = [] /\ k_open (h_client server) = [].
Proof. vm_compute. split_and!; reflexivity. Qed.

(** error.  The server is refused by a client whose certificate names another
    machine: nothing is sent to it, but its socket and the one that listens stay
    open, since the end of a connection object does not close them. *)
Theorem tls_server_leaves_sockets :
  let '(r, server) := demo_tls_server [ann] "eve</msg>" in
  r = inl (Rc FLOM_RC_UNIQUE_ID_DOES_NOT_MATCH) /\ sent_texts (h_client server) = "" /\
  k_open (h_client server) = [6; 5].
Proof. vm_compute. split_and!; reflexivity. Qed.

Definition demo_multicast (named : list bool) (sockets : list Z) (received : list (option string)) : @host (demo_openssl []) :=
  @Host (demo_openssl []) (put_addrs [Some [Addr Inet6 []; Addr Inet6 []]] (demo_client sockets []))
    (demo_tls [] 0) (Wire SOCK_DGRAM false (Socket [] []) [] []) named received [] [] [] "".

(** The two ends of a test; the answer is shown up to a NUL, on as many columns as
    it has bytes. *)
Example demo_multicast_test :
  let '(r, server) := @flom_debug_features_ipv6_multicast_server (demo_openssl [])
                        (demo_multicast [] [4] [Some hello_msg]) in
  let '(r', client) := @flom_debug_features_ipv6_multicast_client (demo_openssl [])
                        (demo_multicast [] [5] [Some (welcome_msg ++ String "000" "!")]) in
  r = inr tt /\ h_sent server = [welcome_msg] /\
  h_out server = "Arrived datagram is 'HELLO'" ++ newline ++ "Sent datagram is 'WELCOME'" ++ newline /\
  r' = inr tt /\ h_sent client = [hello_msg] /\
  h_out client = "Sent datagram is 'HELLO'" ++ newline ++ "Arrived datagram is '  WELCOME'" ++ newline.
Proof. vm_compute. split_and!; reflexivity. Qed.

(** error.  A socket whose name [getsockname] does not give is skipped and not
    closed: it is lost when another address is found. *)
Theorem multicast_server_leaks :
  let '(r, server) := @flom_debug_features_ipv6_multicast_server (demo_openssl [])
                        (demo_multicast [false] [4; 5] [Some hello_msg]) in
  r = inr tt /\ k_open (h_client server) = [4].
Proof. vm_compute. split_and!; reflexivity. Qed.

(** ** Witnesses *)
Lemma zero_owned : owned (Configs ∅ 1 zero_config ∅).
Proof.
  assert (Hno : forall r c f l, config_at (Configs ∅ 1 zero_config ∅) r = Some c -> strs c f = Some l -> False).
  { intros [p|] c f l; cbn; [by rewrite lookup_empty|]. by intros [= <-]. }
  split; intros; exfalso; eauto.
Qed.
Lemma demo_fresh received : fresh_sockets (demo_multicast [] [4] received).
Proof. apply Forall_cons_2, Forall_nil_2. intros fd [= <-]. split; [done | apply not_elem_of_nil]. Qed.

Lemma multicast_server_ends_witness :
  k_open (h_client (@flom_debug_features_ipv6_multicast_server (demo_openssl [])
    (demo_multicast [] [4] [Some hello_msg])).2) = [].
Proof.
  exact (proj1 (proj2 (@multicast_server_ends (demo_openssl []) (demo_multicast [] [4] [Some hello_msg])
    zero_owned (demo_fresh _) (Forall_nil_2 _)))).
Defined.
Lemma multicast_client_ends_witness :
  k_open (h_client (@flom_debug_features_ipv6_multicast_client (demo_openssl [])
    (demo_multicast [] [4] [None])).2) = [].
Proof.
  exact (proj1 (proj2 (@multicast_client_ends (demo_openssl []) (demo_multicast [] [4] [None])
    zero_owned (demo_fresh _)))).
Defined.

Definition demo_tls_client_host : @host (demo_openssl [bob]) :=
  demo_debug [bob] "ann" "bob</msg>" (put_addrs [Some [Addr Inet []]] (demo_client [5] [])).
Definition demo_tls_server_host : @host (demo_openssl [ann]) := demo_tls_host [ann] "ann</msg>".
Lemma demo_peers_plain x : plain_cert x -> @plain_peers (demo_openssl [x]).
Proof. intros Hx. by apply demo_plain_peers, Forall_cons_2, Forall_nil_2. Qed.
Lemma gave_back_ok `{OpenSSL} (m : Hm unit) s good :
  wp m (gave_back s good) s -> (m s).1 = inr tt -> good.
Proof. unfold wp. intros Hm Hr. rewrite Hr in Hm. apply Hm. Qed.
Lemma ann_plain : plain_cert ann.
Proof. split; intros []; vm_compute; lia. Qed.
Lemma bob_plain : plain_cert bob.
Proof. split; intros []; vm_compute; lia. Qed.

Lemma tls_client_authenticates_witness :
  (demo_tls_client [bob] "bob</msg>").1 = inr tt /\
  exists id x, issued (Some "ca.pem") x = true /\ last (values_of common_name (x_subject x)) = Some id.
Proof.
  split; [vm_compute; reflexivity|].
  assert (Hr : (@flom_debug_features_tls_client (demo_openssl [bob]) demo_tls_client_host).1 = inr tt)
    by (vm_compute; reflexivity).
  destruct (gave_back_ok _ _ _ (@tls_client_authenticates (demo_openssl [bob]) _ (demo_verifies _) demo_tls_client_host
    (demo_peers_plain bob bob_plain) (demo_sound_heap _ 0) eq_refl (Forall_nil_2 _) (or_introl eq_refl)) Hr)
    as (id & after & Hid & x & Hx & Hn); [discriminate|].
  exists id, x. exact (conj Hx Hn).
Defined.
Lemma tls_server_authenticates_witness :
  (demo_tls_server [ann] "ann</msg>").1 = inr tt /\
  exists id x, issued (Some "ca.pem") x = true /\ last (values_of common_name (x_subject x)) = Some id.
Proof.
  split; [vm_compute; reflexivity|].
  assert (Hr : (@flom_debug_features_tls_server (demo_openssl [ann]) demo_tls_server_host).1 = inr tt)
    by (vm_compute; reflexivity).
  destruct (gave_back_ok _ _ _ (@tls_server_authenticates (demo_openssl [ann]) _ (demo_verifies _) demo_tls_server_host
    (demo_peers_plain ann ann_plain) (demo_sound_heap _ 0) eq_refl (Forall_nil_2 _) (or_introl eq_refl)) Hr)
    as (id & after & Hid & x & Hx & Hn); [discriminate|].
  exists id, x. exact (conj Hx Hn).
Defined.
