(* ===== verification/Records.v ===== *)
(** * Records: what the program writes about its data

    The functions that write the data of the program in the trace
    ([flom_msg_trace] and its parts in [src/src/flom_msg.c],
    [flom_resource_hier_trace] in [flom_resource_hier.c]) and those that print the
    configuration ([flom_config_print] and [flom_config_print_signal_list] in
    [flom_config.c]).  They are on top of the records of [Trace] and of the getters
    of [Config]. *)
From Stdlib Require Import ZArith String Ascii List Lia.
From stdpp Require Import base list gmap numbers strings.
From S2P Require Import Prelude Types CStr RsrcName Msg MsgXml MsgRound World Config ConfigFile.
From S2P Require Import ConnLock Hier Trace.
Local Open Scope string_scope.
Local Open Scope Z_scope.

Definition newline : string := String "010" "".
(** ["%s='%s'"] and ["%s=%d"] *)
Definition text_of (name value : string) : string := name ++ "='" ++ value ++ "'".
Definition number_of (name : string) (value : Z) : string := name ++ "=" ++ print_dec value.

(** ** Messages *)
Section messages.
(** The text of [%p] for the message, and [errno] *)
Context (self : string) (errno : Z).

Definition STROREMPTY (s : option string) : string := default "" s.
Definition msg_record (text : string) : Trm unit := FLOM_TRACE FLOM_TRACE_MOD_MSG (flom_trace (text ++ newline)).
(** A record whose arguments read a member of the body: they are computed when the
    module is traced, and only then. *)
Definition body_record {A} (member : option A) (text : A -> string) : Trm unit :=
  FLOM_TRACE FLOM_TRACE_MOD_MSG (a ← of_option Ub member; flom_trace (text a ++ newline)).

(** The end of a function: its record says the exception, which [invalid] is the
    number of when the verb or the step is not one that is known. *)
Definition ends_with (name : string) (excp : Z) (ret_cod : Z) : Trm unit :=
  msg_record (name ++ "/" ++ number_of "excp" excp ++ "/" ++ number_of "ret_cod" ret_cod ++ "/" ++
              number_of "errno" errno).
Definition traced_step (name : string) (step : option (Trm unit)) : Trm unit :=
  _ ← msg_record name;
  match step with
  | Some m => _ ← m; ends_with name 1 FLOM_RC_OK
  | None =>
      _ ← ends_with name 0 FLOM_RC_INVALID_PROPERTY_VALUE;
      throw (Rc FLOM_RC_INVALID_PROPERTY_VALUE)
  end.

Definition session_text (peerid : option string) : string :=
  FLOM_MSG_TAG_SESSION ++ "[" ++ text_of FLOM_MSG_PROP_PEERID (STROREMPTY peerid) ++ "], ".
Definition answer_text (a : body_answer) : string :=
  FLOM_MSG_TAG_RESOURCE ++ "[" ++ number_of FLOM_MSG_PROP_RC (a_rc a) ++ "," ++
  text_of FLOM_MSG_PROP_ELEMENT (STROREMPTY (a_element a)) ++ "]]".
Definition lock_8_text (b : body_lock_8) : string :=
  session_text (l8_peerid b) ++ FLOM_MSG_TAG_RESOURCE ++ "[" ++
  text_of FLOM_MSG_PROP_NAME (STROREMPTY (l8_name b)) ++ "," ++
  number_of FLOM_MSG_PROP_MODE (l8_mode b) ++ "," ++ number_of FLOM_MSG_PROP_WAIT (l8_wait b) ++ "," ++
  number_of FLOM_MSG_PROP_QUANTITY (l8_quantity b) ++ "," ++
  number_of FLOM_MSG_PROP_CREATE (l8_create b) ++ "," ++
  number_of FLOM_MSG_PROP_LIFESPAN (l8_lifespan b) ++ "]]".

Definition flom_msg_trace_lock (msg : flom_msg) : Trm unit :=
  let b := m_body msg in
  let lock := "flom_msg_trace_lock: body[" in
  traced_step "flom_msg_trace_lock" (
    if msg_step msg =? FLOM_MSG_STEP_INCR then Some (body_record (get_lock_8 b) (fun l => lock ++ lock_8_text l))
    else if msg_step msg =? 2 * FLOM_MSG_STEP_INCR then
      Some (body_record (get_lock_16 b) (fun '(peerid, a) => lock ++ session_text peerid ++ answer_text a))
    else if msg_step msg =? 3 * FLOM_MSG_STEP_INCR then
      Some (body_record (get_lock_24 b) (fun a => lock ++ answer_text a))
    else if msg_step msg =? 4 * FLOM_MSG_STEP_INCR then
      Some (body_record (get_lock_24 b) (fun a => lock ++ answer_text a))
    else None).

Definition flom_msg_trace_unlock (msg : flom_msg) : Trm unit :=
  traced_step "flom_msg_trace_unlock" (
    if msg_step msg =? FLOM_MSG_STEP_INCR then
      Some (body_record (get_unlock_8 (m_body msg)) (fun '(name, rollback) =>
        "flom_msg_trace_unlock: body[" ++ FLOM_MSG_TAG_RESOURCE ++ "[" ++
        text_of FLOM_MSG_PROP_NAME (STRORNULL name) ++ ", " ++
        number_of FLOM_MSG_PROP_ROLLBACK rollback ++ "]]"))
    else None).

Definition flom_msg_trace_ping (msg : flom_msg) : Trm unit :=
  traced_step "flom_msg_trace_ping" (
    if (msg_step msg =? FLOM_MSG_STEP_INCR) || (msg_step msg =? 2 * FLOM_MSG_STEP_INCR)
    then Some (msg_record "flom_msg_trace_ping: body[null]") else None).

Definition flom_msg_trace_discover (msg : flom_msg) : Trm unit :=
  traced_step "flom_msg_trace_discover" (
    if msg_step msg =? FLOM_MSG_STEP_INCR then Some (msg_record "flom_msg_trace_discover: body[null]")
    else if msg_step msg =? 2 * FLOM_MSG_STEP_INCR then
      Some (body_record (get_discover_16 (m_body msg)) (fun '(address, port) =>
        "flom_msg_trace_discover: body[" ++ FLOM_MSG_TAG_NETWORK ++ "[" ++
        text_of FLOM_MSG_PROP_ADDRESS (STRORNULL address) ++ "," ++
        number_of FLOM_MSG_PROP_PORT (uint16 port) ++ "]]"))
    else None).

(** The action is read whether the module is traced or not. *)
Definition flom_msg_trace_mngmnt (msg : flom_msg) : Trm unit :=
  traced_step "flom_msg_trace_mngmnt" (
    if msg_step msg =? FLOM_MSG_STEP_INCR then
      Some (
        '(peerid, action, immediate) ← of_option Ub (get_mngmnt_8 (m_body msg));
        match action with
        | FLOM_MSG_MNGMNT_ACTION_SHUTDOWN =>
            msg_record ("flom_msg_trace_mngmnt: body[" ++ session_text peerid ++ FLOM_MSG_TAG_SHUTDOWN ++
              "[" ++ number_of FLOM_MSG_PROP_IMMEDIATE immediate ++ "]]")
        | _ => mret tt
        end)
    else None).

(** The number of the state in its enumeration *)
Definition state_number (st : flom_msg_state) : Z :=
  match st with
  | FLOM_MSG_STATE_INITIALIZED => 0
  | FLOM_MSG_STATE_PARSING => 1
  | FLOM_MSG_STATE_READY => 2
  | FLOM_MSG_STATE_INVALID => 3
  end.

(** The part for a verb, with the number of the exception of its failure *)
Definition trace_of_verb (msg : flom_msg) : Z * Trm unit :=
  let verb := msg_verb msg in
  if verb =? FLOM_MSG_VERB_NULL then (6, mret tt)
  else if verb =? FLOM_MSG_VERB_LOCK then (0, flom_msg_trace_lock msg)
  else if verb =? FLOM_MSG_VERB_UNLOCK then (1, flom_msg_trace_unlock msg)
  else if verb =? FLOM_MSG_VERB_PING then (2, flom_msg_trace_ping msg)
  else if verb =? FLOM_MSG_VERB_DISCOVER then (3, flom_msg_trace_discover msg)
  else if verb =? FLOM_MSG_VERB_MNGMNT then (4, flom_msg_trace_mngmnt msg)
  else (5, throw (Rc FLOM_RC_INVALID_PROPERTY_VALUE)).

Definition flom_msg_trace (msg : flom_msg) : Trm unit :=
  _ ← msg_record ("flom_msg_trace: object=" ++ self);
  _ ← msg_record ("flom_msg_trace: " ++ number_of "state" (state_number (m_state msg)) ++ ",header[" ++
        number_of "level" (h_level (m_header msg)) ++ "," ++ number_of "pvs.verb" (msg_verb msg) ++ "," ++
        number_of "pvs.step" (msg_step msg) ++ "]");
  r ← attempt (trace_of_verb msg).2;
  match r with
  | inr _ => ends_with "flom_msg_trace" 6 FLOM_RC_OK
  | inl rc => _ ← ends_with "flom_msg_trace" (trace_of_verb msg).1 rc; throw (Rc rc)
  end.
End messages.

(** ** The tree of a hierarchical resource *)
Definition tabs (level : nat) : string :=
  if (level <=? 10)%nat then String.concat "" (replicate level "  ") else "---------------------+".

Definition hier_record (text : string) : Trm unit :=
  FLOM_TRACE FLOM_TRACE_MOD_RESOURCE_HIER (flom_trace (text ++ newline)).
Definition node_text (level : nat) (node : hnode) : string :=
  "flom_resource_hier_trace_node: " ++ tabs level ++ String FLOM_HIER_RESOURCE_SEPARATOR (h_name node) ++
  " (" ++ number_of "holders" (Z.of_nat (length (h_holders node))) ++ ")".
Fixpoint flom_resource_hier_trace_node (node : hnode) (level : nat) : Trm unit :=
  match node with
  | HNode name holders leaves =>
      _ ← hier_record (node_text level (HNode name holders leaves));
      (fix trace_leaves (l : list hnode) : Trm unit :=
         match l with
         | [] => mret tt
         | leaf :: l => _ ← flom_resource_hier_trace_node leaf (S level); trace_leaves l
         end) leaves
  end.

(** [FLOM_RSRC_TYPE_HIER] is the fifth of the enumeration.  A resource that has
    never been locked has no tree. *)
Definition flom_resource_hier_trace (name : option string) (d : hier) : Trm unit :=
  _ ← FLOM_TRACE FLOM_TRACE_MOD_RESOURCE_HIER (
        name ← of_option Ub name;
        flom_trace ("flom_resource_hier_trace: " ++ text_of "name" name ++ ", " ++ number_of "type" 4 ++ newline));
  mask ← gets flom_trace_mask;
  when (negb (Z.land FLOM_TRACE_MOD_RESOURCE_HIER mask =? 0)) (
    node ← of_option Ub (root d);
    flom_resource_hier_trace_node node 0).

(** ** The configuration

    The getters that nothing but the printing uses are here. *)
Definition flom_config_get_daemon_trace_file := get_str daemon_trace_file.
Definition flom_config_get_append_trace_file := get_int append_trace_file.
Definition flom_config_get_verbose := get_int verbose.
Definition flom_config_get_mount_point_vfs := get_str mount_point_vfs.
Definition flom_config_get_tcp_keepalive_time := get_int tcp_keepalive_time.
Definition flom_config_get_tcp_keepalive_intvl := get_int tcp_keepalive_intvl.
Definition flom_config_get_tcp_keepalive_probes := get_int tcp_keepalive_probes.

Section config.
Context (r : config_ref).

(** ["[%s]/%s='%s'\n"] and ["[%s]/%s=%d\n"] *)
Definition print_text (group key : string) (value : string) : string :=
  "[" ++ group ++ "]/" ++ text_of key value ++ newline.
Definition print_number (group key : string) (value : Z) : string :=
  "[" ++ group ++ "]/" ++ number_of key value ++ newline.

(** A line: a getter, and what is printed of what it returns *)
Definition text_line (group key : string) (get : config_ref -> Gm (option string)) : Gm string :=
  v ← get r; mret (print_text group key (default "" v)).
Definition number_line (group key : string) (get : config_ref -> Gm Z) : Gm string :=
  v ← get r; mret (print_number group key v).
Definition signals_line (group key : string) : Gm string :=
  v ← flom_config_get_ignored_signals_str r; mret (print_text group key v).

Definition lines_trace : list (Gm string) :=
  [text_line FLOM_CONFIG_GROUP_TRACE "DaemonTraceFile" flom_config_get_daemon_trace_file;
   text_line FLOM_CONFIG_GROUP_TRACE "CommandTraceFile" flom_config_get_command_trace_file;
   number_line FLOM_CONFIG_GROUP_TRACE "AppendTraceFile" flom_config_get_append_trace_file;
   number_line FLOM_CONFIG_GROUP_TRACE "Verbose" flom_config_get_verbose].
Definition lines_resource : list (Gm string) :=
  [text_line FLOM_CONFIG_GROUP_RESOURCE "Name" flom_config_get_resource_name;
   number_line FLOM_CONFIG_GROUP_RESOURCE "Timeout" flom_config_get_resource_timeout;
   number_line FLOM_CONFIG_GROUP_RESOURCE "Quantity" flom_config_get_resource_quantity;
   number_line FLOM_CONFIG_GROUP_RESOURCE "LockMode" flom_config_get_lock_mode;
   number_line FLOM_CONFIG_GROUP_RESOURCE "Create" flom_config_get_resource_create;
   number_line FLOM_CONFIG_GROUP_RESOURCE "IdleLifespan" flom_config_get_resource_idle_lifespan].
Definition lines_daemon : list (Gm string) :=
  [text_line FLOM_CONFIG_GROUP_DAEMON "SocketName" flom_config_get_socket_name;
   number_line FLOM_CONFIG_GROUP_DAEMON "Lifespan" flom_config_get_lifespan;
   text_line FLOM_CONFIG_GROUP_DAEMON "UnicastAddress" flom_config_get_unicast_address;
   number_line FLOM_CONFIG_GROUP_DAEMON "UnicastPort" flom_config_get_unicast_port;
   text_line FLOM_CONFIG_GROUP_DAEMON "MulticastAddress" flom_config_get_multicast_address;
   number_line FLOM_CONFIG_GROUP_DAEMON "MulticastPort" flom_config_get_multicast_port;
   text_line FLOM_CONFIG_GROUP_DAEMON "MountPointVFS" flom_config_get_mount_point_vfs].
Definition lines_network : list (Gm string) :=
  [signals_line FLOM_CONFIG_GROUP_MONITOR "IgnoredSignals";
   text_line FLOM_CONFIG_GROUP_NETWORK "NetworkInterface" flom_config_get_network_interface;
   number_line FLOM_CONFIG_GROUP_NETWORK "DiscoveryAttempts" flom_config_get_discovery_attempts;
   number_line FLOM_CONFIG_GROUP_NETWORK "DiscoveryTimeout" flom_config_get_discovery_timeout;
   number_line FLOM_CONFIG_GROUP_NETWORK "DiscoveryTTL" flom_config_get_discovery_ttl;
   number_line FLOM_CONFIG_GROUP_NETWORK "TcpKeepaliveTime" flom_config_get_tcp_keepalive_time;
   number_line FLOM_CONFIG_GROUP_NETWORK "TcpKeepaliveIntvl" flom_config_get_tcp_keepalive_intvl;
   number_line FLOM_CONFIG_GROUP_NETWORK "TcpKeepaliveProbes" flom_config_get_tcp_keepalive_probes].
Definition lines_tls : list (Gm string) :=
  [text_line FLOM_CONFIG_GROUP_TLS "TlsCertificate" flom_config_get_tls_certificate;
   text_line FLOM_CONFIG_GROUP_TLS "TlsPrivateKey" flom_config_get_tls_private_key;
   text_line FLOM_CONFIG_GROUP_TLS "TlsCaCertificate" flom_config_get_tls_ca_certificate;
   number_line FLOM_CONFIG_GROUP_TLS "TlsCheckPeerId" flom_config_get_tls_check_peer_id].

Fixpoint print_lines (l : list (Gm string)) : Gm string :=
  match l with
  | [] => mret ""
  | m :: l => line ← m; rest ← print_lines l; mret (line ++ rest)
  end.

(** What goes to the standard output *)
Definition flom_config_print : Gm string :=
  print_lines (lines_trace ++ lines_resource ++ lines_daemon ++ lines_network ++ lines_tls)%list.
End config.

(** Four signals on a line *)
Fixpoint signal_lines (j : Z) (i : nat) (l : list string) : string :=
  match l with
  | [] => newline
  | name :: l =>
      print_dec j ++ ") " ++ name ++ String "009" (
        (if (S i mod 4 =? 0)%nat then newline else "") ++ signal_lines (j + 1) (S i) l)
  end.
Definition flom_config_print_signal_list : string := signal_lines 1 0 (tail SIGNAL_STRING_ARRAY).

(** ** What is proved of them *)

(** A computation that gives [r], whatever the trace is, and leaves it as sound as
    it was. *)
Definition gives {A} (m : Trm A) (r : err + A) : Prop := forall t, trace_ok t ->
  wp m (fun x t' => x = r /\ trace_ok t' /\ trace_file t' = trace_file t) t.

Lemma gives_record module text : gives (FLOM_TRACE module (flom_trace text)) (inr tt).
Proof. intros t Ht. apply tells_call_ok; [done | by eexists | apply trace_tells]. Qed.
Lemma gives_ret {A} (a : A) : gives (mret a) (inr a).
Proof. intros t Ht. by wp_step. Qed.
Lemma gives_throw {A} e : gives (throw e : Trm A) (inl e).
Proof. intros t Ht. by wp_step. Qed.
Lemma gives_bind {A B} (m : Trm A) (k : A -> Trm B) a r :
  gives m (inr a) -> gives (k a) r -> gives (m ≫= k) r.
Proof.
  intros Hm Hk t Ht. wp_step. eapply wp_mono; [|by apply Hm]. intros x t1 (-> & H1 & E1).
  eapply wp_mono; [|by apply Hk]. intros y t2 (-> & H2 & E2). split_and!; [done..|congruence].
Qed.
Lemma gives_seq {B} (m : Trm unit) (k : Trm B) r :
  gives m (inr tt) -> gives k r -> gives (_ ← m; k) r.
Proof. intros Hm Hk. by apply gives_bind with (a := tt). Qed.
Lemma gives_attempt {A B} (m : Trm A) (k : Z + A -> Trm B) r r' :
  gives m r -> match r with
               | inr a => gives (k (inr a)) r'
               | inl (Rc rc) => gives (k (inl rc)) r'
               | inl e => r' = inl e
               end -> gives (attempt m ≫= k) r'.
Proof.
  intros Hm Hk t Ht. wp_step. apply wp_attempt. eapply wp_mono; [|by apply Hm].
  assert (Hafter : forall k' t1, gives k' r' -> trace_ok t1 -> trace_file t1 = trace_file t ->
    wp k' (fun x t' => x = r' /\ trace_ok t' /\ trace_file t' = trace_file t) t1).
  { intros k' t1 H H1 E. eapply wp_mono; [|by apply H]. intros y t2 (? & ? & ?).
    split_and!; [done..|congruence]. }
  intros x t1 (-> & H1 & E1). destruct r as [[rc| |]|a]; [by apply Hafter | done | done | by apply Hafter].
Qed.
Lemma gives_when (b : bool) (m : Trm unit) : gives m (inr tt) -> gives (when b m) (inr tt).
Proof. intros Hm. destruct b; [done | apply gives_ret]. Qed.

Create HintDb gives.
#[export] Hint Resolve gives_record gives_ret gives_throw gives_seq gives_when : gives.

Ltac by_cases := repeat (match goal with
  | |- context [?a =? ?b] => destruct (Z.eqb_spec a b)
  end; cbn [orb]).

Section traced.
Context (self : string) (errno : Z).

(** The body that the functions read is the one the verb and the step say. *)
Definition body_for (msg : flom_msg) : Prop :=
  let b := m_body msg in
  let verb := msg_verb msg in
  let step := msg_step msg in
  (verb = FLOM_MSG_VERB_LOCK ->
     (step = FLOM_MSG_STEP_INCR -> is_Some (get_lock_8 b)) /\
     (step = 2 * FLOM_MSG_STEP_INCR -> is_Some (get_lock_16 b)) /\
     (step = 3 * FLOM_MSG_STEP_INCR \/ step = 4 * FLOM_MSG_STEP_INCR -> is_Some (get_lock_24 b))) /\
  (verb = FLOM_MSG_VERB_UNLOCK -> step = FLOM_MSG_STEP_INCR -> is_Some (get_unlock_8 b)) /\
  (verb = FLOM_MSG_VERB_DISCOVER -> step = 2 * FLOM_MSG_STEP_INCR -> is_Some (get_discover_16 b)) /\
  (verb = FLOM_MSG_VERB_MNGMNT -> step = FLOM_MSG_STEP_INCR -> is_Some (get_mngmnt_8 b)).

(** The verbs and the steps of the protocol *)
Definition known_step (msg : flom_msg) : bool :=
  let steps last := existsb (fun n => msg_step msg =? n * FLOM_MSG_STEP_INCR) last in
  let verb := msg_verb msg in
  if verb =? FLOM_MSG_VERB_NULL then true
  else if verb =? FLOM_MSG_VERB_LOCK then steps [1; 2; 3; 4]
  else if verb =? FLOM_MSG_VERB_UNLOCK then steps [1]
  else if verb =? FLOM_MSG_VERB_PING then steps [1; 2]
  else if verb =? FLOM_MSG_VERB_DISCOVER then steps [1; 2]
  else if verb =? FLOM_MSG_VERB_MNGMNT then steps [1]
  else false.
Definition step_result (b : bool) : err + unit :=
  if b then inr tt else inl (Rc FLOM_RC_INVALID_PROPERTY_VALUE).

Lemma gives_msg_record text : gives (msg_record text) (inr tt).
Proof. apply gives_record. Qed.
Lemma gives_body_record {A} (member : option A) text :
  is_Some member -> gives (body_record member text) (inr tt).
Proof. intros [a ->]. exact (gives_msg_record (text a)). Qed.
Lemma gives_ends name excp rc : gives (ends_with errno name excp rc) (inr tt).
Proof. apply gives_msg_record. Qed.
#[local] Hint Resolve gives_msg_record gives_body_record gives_ends : gives.

Lemma gives_step name (step : option (Trm unit)) :
  (forall m, step = Some m -> gives m (inr tt)) ->
  gives (traced_step errno name step) (step_result (if step is Some _ then true else false)).
Proof.
  intros H. unfold traced_step. destruct step as [m|]; cbn [step_result]; auto 6 with gives.
Qed.
(** One of the parts: [k] is what [known_step] says of its steps. *)
Lemma gives_part name step k :
  (if step is Some _ then true else false) = k -> (forall m, step = Some m -> gives m (inr tt)) ->
  gives (traced_step errno name step) (step_result k).
Proof. intros <-. apply gives_step. Qed.

Lemma lock_traced msg : body_for msg -> msg_verb msg = FLOM_MSG_VERB_LOCK ->
  gives (flom_msg_trace_lock errno msg)
    (step_result (existsb (fun n => msg_step msg =? n * FLOM_MSG_STEP_INCR) [1; 2; 3; 4])).
Proof.
  intros [H _] Hv. destruct (H Hv) as (H1 & H2 & H3). cbn [existsb]. rewrite Z.mul_1_l.
  apply gives_part; by_cases; try done; intros m [= <-]; apply gives_body_record; auto.
Qed.
Lemma unlock_traced msg : body_for msg -> msg_verb msg = FLOM_MSG_VERB_UNLOCK ->
  gives (flom_msg_trace_unlock errno msg)
    (step_result (existsb (fun n => msg_step msg =? n * FLOM_MSG_STEP_INCR) [1])).
Proof.
  intros (_ & H & _) Hv. cbn [existsb]. rewrite Z.mul_1_l.
  apply gives_part; by_cases; try done; intros m [= <-].
  apply gives_body_record. apply H; [done | lia].
Qed.
Lemma ping_traced msg :
  gives (flom_msg_trace_ping errno msg)
    (step_result (existsb (fun n => msg_step msg =? n * FLOM_MSG_STEP_INCR) [1; 2])).
Proof.
  cbn [existsb]. rewrite Z.mul_1_l.
  apply gives_part; by_cases; try done; intros m [= <-];
    apply gives_msg_record.
Qed.
Lemma discover_traced msg : body_for msg -> msg_verb msg = FLOM_MSG_VERB_DISCOVER ->
  gives (flom_msg_trace_discover errno msg)
    (step_result (existsb (fun n => msg_step msg =? n * FLOM_MSG_STEP_INCR) [1; 2])).
Proof.
  intros (_ & _ & H & _) Hv. cbn [existsb]. rewrite Z.mul_1_l.
  apply gives_part; by_cases; try done; intros m [= <-];
    [apply gives_msg_record | apply gives_body_record; apply H; [done | lia]].
Qed.
Lemma mngmnt_traced msg : body_for msg -> msg_verb msg = FLOM_MSG_VERB_MNGMNT ->
  gives (flom_msg_trace_mngmnt errno msg)
    (step_result (existsb (fun n => msg_step msg =? n * FLOM_MSG_STEP_INCR) [1])).
Proof.
  intros (_ & _ & _ & H) Hv. cbn [existsb]. rewrite Z.mul_1_l.
  apply gives_part; by_cases; try done; intros m [= <-].
  destruct H as [[[p a] i] ->]; [done | lia|]. eapply gives_bind; [apply gives_ret|].
  cbn beta iota. destruct a; auto with gives.
Qed.

Lemma verb_traced msg : body_for msg -> gives (trace_of_verb errno msg).2 (step_result (known_step msg)).
Proof.
  intros H. unfold trace_of_verb, known_step.
  by_cases; cbn [snd].
  - apply gives_ret.
  - by apply lock_traced.
  - by apply unlock_traced.
  - apply ping_traced.
  - by apply discover_traced.
  - by apply mngmnt_traced.
  - apply gives_throw.
Qed.

(** safety.  A message with the body that its verb and its step say is traced,
    whatever the state of the trace, without reading another member of the union:
    the function succeeds for the verbs and the steps of the protocol (and for a
    message that was only initialised), refuses every other as an invalid value,
    and the trace stays on its stream. *)
Theorem message_traced msg :
  body_for msg -> gives (flom_msg_trace self errno msg) (step_result (known_step msg)).
Proof.
  intros H. unfold flom_msg_trace.
  apply gives_seq; [apply gives_msg_record|]. apply gives_seq; [apply gives_msg_record|].
  eapply gives_attempt; [by apply verb_traced|].
  destruct (known_step msg); cbn [step_result]; auto with gives.
Qed.
End traced.

(** A message is written from the member that its verb and its step say. *)
Lemma read_or_ub {A B S} (member : option A) (k : A -> M err S B) s b s' :
  (a ← of_option Ub member; k a) s = (inr b, s') -> is_Some member.
Proof. by destruct member. Qed.
Lemma serialized_known `{Glib} msg len buf buf' :
  serialize_body len msg buf = (inr tt, buf') -> body_for msg /\ known_step msg = true.
Proof.
  unfold body_for, known_step, serialize_body. cbn [existsb]. rewrite Z.mul_1_l.
  by_cases; intros E; try discriminate E; repeat apply read_or_ub in E.
  all: split; [split_and!; intros; split_and?; intros | done || lia].
  all: try done; exfalso; unfold FLOM_MSG_VERB_LOCK, FLOM_MSG_VERB_UNLOCK, FLOM_MSG_VERB_PING,
    FLOM_MSG_VERB_DISCOVER, FLOM_MSG_VERB_MNGMNT, FLOM_MSG_STEP_INCR in *; lia.
Qed.

(** safety.  Whatever the program sends it can trace: a message whose body could be
    written in a buffer is one that [flom_msg_trace] reads as it should, and it
    succeeds. *)
Theorem sent_message_traced `{Glib} self errno msg len buf buf' :
  serialize_body len msg buf = (inr tt, buf') ->
  gives (flom_msg_trace self errno msg) (inr tt).
Proof.
  intros E. destruct (serialized_known _ _ _ _ E) as [Hb Hk].
  assert (Ht := message_traced self errno msg Hb). by rewrite Hk in Ht.
Qed.

(** *** The tree of a hierarchical resource *)

(** The lines of a tree, from the node down: each node before its leaves, which are
    one level deeper *)
Fixpoint outline (level : nat) (node : hnode) : list string :=
  match node with
  | HNode name holders leaves =>
      node_text level (HNode name holders leaves) :: flat_map (outline (S level)) leaves
  end.
Fixpoint hier_records (l : list string) : Trm unit :=
  match l with
  | [] => mret tt
  | text :: l => _ ← hier_record text; hier_records l
  end.

Lemma bind_equal {A B} (m m' : Trm A) (k k' : A -> Trm B) t :
  m t = m' t -> (forall a t', k a t' = k' a t') -> (m ≫= k) t = (m' ≫= k') t.
Proof.
  intros E Hk. unfold mbind, M_bind. rewrite E. by destruct (m' t) as [[e|a] t'].
Qed.
Lemma bind_assoc {A B C} (m : Trm A) (k : A -> Trm B) (h : B -> Trm C) t :
  ((m ≫= k) ≫= h) t = (m ≫= fun a => k a ≫= h) t.
Proof. unfold mbind, M_bind. by destruct (m t) as [[e|a] t']. Qed.
Lemma hier_records_app l l' t :
  hier_records (l ++ l')%list t = (_ ← hier_records l; hier_records l') t.
Proof.
  revert t. induction l as [|text l IH]; intros t; [done|]. cbn [hier_records app].
  rewrite bind_assoc. apply bind_equal; [done | intros _; apply IH].
Qed.

(** equivalence.  The recursion writes exactly the records of the outline, in its
    order: a node before its leaves, and each leaf with its own before the next. *)
Theorem hier_tree_outlined node : forall level t,
  flom_resource_hier_trace_node node level t = hier_records (outline level node) t.
Proof.
  induction node as [name hs leaves IH] using hnode_nested_ind. intros level t.
  cbn [flom_resource_hier_trace_node outline hier_records].
  apply bind_equal; [done|]. intros _. clear t.
  induction IH as [|leaf leaves Hleaf Hleaves IHl]; intros t; [done|].
  cbn [flat_map]. rewrite hier_records_app. apply bind_equal; [apply Hleaf | intros _; apply IHl].
Qed.

Lemma hier_records_given l : gives (hier_records l) (inr tt).
Proof. induction l as [|text l IH]; [apply gives_ret|]. apply gives_seq; [apply gives_record | exact IH]. Qed.
Lemma hier_tree_given node level : gives (flom_resource_hier_trace_node node level) (inr tt).
Proof.
  intros t Ht. unfold wp. rewrite hier_tree_outlined. by apply hier_records_given.
Qed.

(** safety.  A resource that has its name and its tree is traced, whatever the state
    of the trace and the size of the tree. *)
Theorem hier_traced name d node :
  root d = Some node -> gives (flom_resource_hier_trace (Some name) d) (inr tt).
Proof.
  intros Hn. unfold flom_resource_hier_trace.
  apply gives_seq; [exact (gives_record _ _)|].
  intros t Ht. do 2 wp_step. rewrite Hn. apply (gives_when _ _); [apply hier_tree_given | done].
Qed.

Lemma record_keeps_mask module text t :
  trace_ok t ->
  wp (FLOM_TRACE module (flom_trace text)) (fun r t' => r = inr tt /\ flom_trace_mask t' = flom_trace_mask t) t.
Proof.
  intros [Ht _]. unfold FLOM_TRACE. do 2 wp_step. wp_step; [|done].
  destruct (trace_file t) as [f|] eqn:Ef.
  - assert (Ho := trace_ok_open t f Ht Ef). eapply wp_mono; [|by eapply trace_tells; [apply Ht|..]].
    intros r t' ([] & x & -> & Hw). split; [done | apply Hw].
  - unfold wp, flom_trace. by rewrite closed_silent.
Qed.

(** error.  A resource without a tree cannot be traced: when the module is in the
    mask, its null root is read; when it is not, nothing is. *)
Theorem hier_without_tree name d t :
  root d = None ->
  if Z.land FLOM_TRACE_MOD_RESOURCE_HIER (flom_trace_mask t) =? 0
  then flom_resource_hier_trace (Some name) d t = (inr tt, t)
  else trace_ok t -> (flom_resource_hier_trace (Some name) d t).1 = inl Ub.
Proof.
  intros Hn. destruct (_ =? _) eqn:E.
  - unfold flom_resource_hier_trace, FLOM_TRACE, mbind, M_bind, gets. cbn. rewrite E. cbn. by rewrite E.
  - intros Ht. change (wp (flom_resource_hier_trace (Some name) d) (fun r _ => r = inl Ub) t).
    unfold flom_resource_hier_trace. wp_step. eapply wp_mono; [|exact (record_keeps_mask _ _ t Ht)].
    intros r t' [-> Em]. do 2 wp_step. by rewrite Em, E, Hn.
Qed.

(** *** The configuration *)

(** What is printed under each key of each group *)
Inductive shown : Type :=
| Text_of (f : string_member)
| Number_of (f : int_member)
| Signals.
Definition printed_keys : list (string * list (string * shown)) :=
  [(FLOM_CONFIG_GROUP_TRACE,
     [("DaemonTraceFile", Text_of daemon_trace_file); ("CommandTraceFile", Text_of command_trace_file);
      ("AppendTraceFile", Number_of append_trace_file); ("Verbose", Number_of verbose)]);
   (FLOM_CONFIG_GROUP_RESOURCE,
     [("Name", Text_of resource_name); ("Timeout", Number_of resource_timeout);
      ("Quantity", Number_of resource_quantity); ("LockMode", Number_of config_lock_mode);
      ("Create", Number_of resource_create); ("IdleLifespan", Number_of resource_idle_lifespan)]);
   (FLOM_CONFIG_GROUP_DAEMON,
     [("SocketName", Text_of socket_name); ("Lifespan", Number_of daemon_lifespan);
      ("UnicastAddress", Text_of unicast_address); ("UnicastPort", Number_of unicast_port);
      ("MulticastAddress", Text_of multicast_address); ("MulticastPort", Number_of multicast_port);
      ("MountPointVFS", Text_of mount_point_vfs)]);
   (FLOM_CONFIG_GROUP_MONITOR, [("IgnoredSignals", Signals)]);
   (FLOM_CONFIG_GROUP_NETWORK,
     [("NetworkInterface", Text_of network_interface);
      ("DiscoveryAttempts", Number_of discovery_attempts);
      ("DiscoveryTimeout", Number_of discovery_timeout); ("DiscoveryTTL", Number_of discovery_ttl);
      ("TcpKeepaliveTime", Number_of tcp_keepalive_time);
      ("TcpKeepaliveIntvl", Number_of tcp_keepalive_intvl);
      ("TcpKeepaliveProbes", Number_of tcp_keepalive_probes)]);
   (FLOM_CONFIG_GROUP_TLS,
     [("TlsCertificate", Text_of tls_certificate); ("TlsPrivateKey", Text_of tls_private_key);
      ("TlsCaCertificate", Text_of tls_ca_certificate);
      ("TlsCheckPeerId", Number_of tls_check_peer_id)])].

(** The names of the signals that are ignored, from the second of the table on *)
Definition ignored_names (c : flom_config) : list string :=
  omap (fun '(j, name) => if existsb (Z.eqb (Z.of_nat j)) (ignored_signals c) then Some name else None)
    (zip (seq 1 (length SIGNAL_STRING_ARRAY - 1)) (tail SIGNAL_STRING_ARRAY)).

Section printed.
Context (r : config_ref) (s : configs) (Howned : owned s) (c : flom_config)
  (Hc : config_at s r = Some c).

Definition value_text (what : shown) (key : string) : string :=
  match what with
  | Text_of f => text_of key (default "" (content s r f))
  | Number_of f => number_of key (ints c f)
  | Signals => text_of key (String.concat ";" (ignored_names c))
  end.
Definition expected_lines : list string :=
  '(group, keys) ← printed_keys; '(key, what) ← keys;
  ["[" ++ group ++ "]/" ++ value_text what key ++ newline].

(** A computation that reads the configuration, and changes nothing *)
Definition reads {A} (m : Gm A) (a : A) : Prop := m s = (inr a, s).

Lemma the_config_read : reads (the_config r) c.
Proof.
  assert (H := wp_the_config r (fun x s' => (x, s') = (inr c, s)) s c Hc eq_refl).
  unfold reads, wp in *. by destruct (the_config r s).
Qed.
Lemma str_read f : reads (get_str f r) (content s r f).
Proof.
  assert (H := wp_get_str f r (fun x s' => (x, s') = (inr (content s r f), s)) s Howned
    (mk_is_Some _ _ Hc) eq_refl).
  unfold reads, wp in *. by destruct (get_str f r s).
Qed.
Lemma reads_bind {A B} (m : Gm A) (k : A -> Gm B) a b : reads m a -> reads (k a) b -> reads (m ≫= k) b.
Proof. unfold reads, mbind, M_bind. by intros ->. Qed.
Lemma int_read f : reads (get_int f r) (ints c f).
Proof. eapply reads_bind; [apply the_config_read | done]. Qed.

Lemma text_line_read group key f :
  reads (text_line r group key (get_str f)) (print_text group key (default "" (content s r f))).
Proof. eapply reads_bind; [apply str_read | done]. Qed.
Lemma number_line_read group key f :
  reads (number_line r group key (get_int f)) (print_number group key (ints c f)).
Proof. eapply reads_bind; [apply int_read | done]. Qed.
Lemma print_lines_read ms ls :
  Forall2 reads ms ls -> reads (print_lines ms) (foldr String.append "" ls).
Proof.
  induction 1 as [|m line ms ls Hm _ IH]; [done|]. cbn [print_lines foldr].
  eapply reads_bind; [exact Hm|]. eapply reads_bind; [exact IH | done].
Qed.
Lemma ignored_names_kept (l : list (nat * string)) :
  map snd (List.filter (fun '(j, _) => existsb (Z.eqb j) (ignored_signals c))
    (map (fun '(j, name) => (Z.of_nat j, name)) l)) =
  omap (fun '(j, name) => if existsb (Z.eqb (Z.of_nat j)) (ignored_signals c) then Some name else None) l.
Proof.
  induction l as [|[j name] l IH]; [done|]. cbn. destruct (existsb _ _); cbn; by rewrite IH.
Qed.
Lemma signals_line_read group key :
  reads (signals_line r group key) (print_text group key (String.concat ";" (ignored_names c))).
Proof.
  eapply reads_bind; [|done]. unfold flom_config_get_ignored_signals_str.
  eapply reads_bind; [apply the_config_read|]. unfold ignored_names. by rewrite <- ignored_names_kept.
Qed.

(** functional.  The print shows each key with its group and the member that the
    loading of a file sets from that key, an unset text as an empty one, and leaves
    the configuration, its strings and every other configuration as they are. *)
Theorem config_printed :
  flom_config_print r s = (inr (foldr String.append "" expected_lines), s).
Proof.
  apply print_lines_read. unfold expected_lines, lines_trace, lines_resource, lines_daemon, lines_network, lines_tls.
  cbn [mbind list_bind printed_keys app value_text].
  repeat (apply List.Forall2_cons;
          [apply text_line_read || apply number_line_read || apply signals_line_read|]).
  apply List.Forall2_nil.
Qed.
End printed.

(** The number that is printed of a lock mode, and the one of a flag, are not values
    that the same key accepts in a file. *)
Theorem printed_values_not_loadable :
  Forall (fun mode => flom_lock_mode_retrieve (print_dec mode) = FLOM_LOCK_MODE_INVALID)
    [FLOM_LOCK_MODE_NL; FLOM_LOCK_MODE_CR; FLOM_LOCK_MODE_CW; FLOM_LOCK_MODE_PR;
     FLOM_LOCK_MODE_PW; FLOM_LOCK_MODE_EX] /\
  Forall (fun flag => flom_bool_value_retrieve (print_dec flag) = FLOM_BOOL_INVALID) [0; 1].
Proof. split; repeat constructor. Qed.

(** The columns of the list of signals: a number, a name and a tabulation each, and
    a new line after each fourth and at the end *)
Definition signal_entry (i : nat) (name : string) : string :=
  print_dec (Z.of_nat (S i)) ++ ") " ++ name ++ String "009" (if (S i mod 4 =? 0)%nat then newline else "").
Lemma signal_lines_columns l : forall i,
  signal_lines (Z.of_nat (S i)) i l =
  foldr String.append newline (zip_with signal_entry (seq i (length l)) l).
Proof.
  induction l as [|name l IH]; intros i; [done|]. cbn [signal_lines length seq zip_with foldr].
  replace (Z.of_nat (S i) + 1) with (Z.of_nat (S (S i))) by lia. rewrite IH.
  unfold signal_entry at 2. by rewrite !append_assoc.
Qed.

(** functional.  The list has an entry for each signal of the table but the first,
    with the number it has in the table. *)
Theorem signal_list_printed :
  flom_config_print_signal_list =
  foldr String.append newline
    (zip_with signal_entry (seq 0 (Z.to_nat SIGNAL_STRING_ARRAY_SIZE - 1)) (tail SIGNAL_STRING_ARRAY)).
Proof. exact (signal_lines_columns (tail SIGNAL_STRING_ARRAY) 0). Qed.

(** Examples *)
Definition demo_tree : hnode :=
  HNode "" [] [HNode "a" [Some (Conn_lock 1 None 0 1%positive)] [HNode "b" [] []]; HNode "c" [] []].
Example demo_outline :
  outline 0 demo_tree =
  ["flom_resource_hier_trace_node: / (holders=0)";
   "flom_resource_hier_trace_node:   /a (holders=1)";
   "flom_resource_hier_trace_node:     /b (holders=0)";
   "flom_resource_hier_trace_node:   /c (holders=0)"].
Proof. vm_compute. reflexivity. Qed.
Example demo_refused_step :
  (flom_msg_trace "0x1" 0 (Msg FLOM_MSG_STATE_READY (Header 1 FLOM_MSG_VERB_UNLOCK 16) body_zero)
     demo_trace).1 = inl (Rc FLOM_RC_INVALID_PROPERTY_VALUE).
Proof. vm_compute. reflexivity. Qed.
