(* ===== verification/Parsers.v ===== *)
(** * Parsers: the parser objects of the connections

    The parser of a connection is an object of GLib with a pointer to the message that
    its callbacks fill ([src/src/flom_conn.c], [flom_conn.h]).  The client makes one
    for a message that is a variable of the function that waits for the answer
    ([flom_client_discover_udp], [flom_client_lock] in [flom_client.c]); the daemon
    and the lockers make one with the connection, for the message of the connection
    ([flom_conn_init]), and release it when they clean their table
    ([flom_conns_clean] in [flom_conns.c]).  Here is when these objects are made, used
    and released; what they parse is in [Wire]. *)
From Stdlib Require Import ZArith String Lia.
From stdpp Require Import base list gmap numbers.
From S2P Require Import Prelude Types World Conns.
Local Open Scope Z_scope.

(** ** State

    A parser fills the message of a connection object, or a local variable.  The
    parsers that are not released, with what they fill; the connection objects that
    are not released, with their parser; the local messages of the functions that
    have not returned. *)
Inductive filled : Type := Of_conn (c : positive) | Of_local (m : positive).
Record parsers : Type := Parsers {
  x_live : gmap positive filled;
  x_conns : gmap positive (option positive);
  x_locals : gset positive;
  x_next : positive
}.
Definition put_live (l : gmap positive filled) (s : parsers) : parsers :=
  Parsers l (x_conns s) (x_locals s) (x_next s).
Definition put_objects (l : gmap positive (option positive)) (s : parsers) : parsers :=
  Parsers (x_live s) l (x_locals s) (x_next s).
Definition put_locals (l : gset positive) (s : parsers) : parsers :=
  Parsers (x_live s) (x_conns s) l (x_next s).

Definition Xm (A : Type) : Type := M err parsers A.
(** The address of a new object *)
Definition address : Xm positive := fun s =>
  (inr (x_next s), Parsers (x_live s) (x_conns s) (x_locals s) (Pos.succ (x_next s))).

(** ** GLib's objects

    Making one ends the process when there is no memory.  One that is released
    cannot be released again nor used, and its callbacks write in the message it
    fills, which has to be there. *)
Definition g_markup_parse_context_new (m : filled) : Xm positive :=
  x ← address; _ ← modify (fun s => put_live (<[x := m]> (x_live s)) s); mret x.
Definition g_markup_parse_context_free (x : positive) : Xm unit :=
  live ← gets x_live;
  _ ← of_option Ub (live !! x);
  modify (put_live (delete x live)).

Definition there (m : filled) (s : parsers) : bool :=
  match m with
  | Of_conn c => bool_decide (is_Some (x_conns s !! c))
  | Of_local m => bool_decide (m ∈ x_locals s)
  end.
(** The call of [flom_msg_deserialize] with a parser *)
Definition parse_with (x : positive) : Xm unit :=
  live ← gets x_live;
  m ← of_option Ub (live !! x);
  ok ← gets (there m);
  when (negb ok) (throw Ub).

(** ** The connection object *)
Definition parser_of (c : positive) : Xm (option positive) :=
  l ← gets x_conns; of_option Ub (l !! c).
Definition put_parser (c : positive) (x : option positive) : Xm unit :=
  _ ← parser_of c; modify (fun s => put_objects (<[c := x]> (x_conns s)) s).

(** [flom_conn_new]: the object is zeroed *)
Definition conn_new : Xm positive :=
  c ← address; _ ← modify (fun s => put_objects (<[c := None]> (x_conns s)) s); mret c.
Definition free_given (x : option positive) : Xm unit :=
  match x with None => mret tt | Some x => g_markup_parse_context_free x end.
Definition flom_conn_get_parser (c : positive) : Xm (option positive) := parser_of c.
Definition flom_conn_set_parser (c : positive) (ref : positive) : Xm unit :=
  x ← parser_of c; _ ← free_given x; put_parser c (Some ref).
Definition flom_conn_free_parser (c : positive) : Xm unit :=
  x ← parser_of c;
  match x with
  | None => mret tt
  | Some x => _ ← g_markup_parse_context_free x; put_parser c None
  end.
(** [flom_conn_delete]: the object and its message, not its parser *)
Definition conn_delete (c : positive) : Xm unit :=
  _ ← parser_of c; modify (fun s => put_objects (delete c (x_conns s)) s).
(** The end of [flom_conn_init]; a domain that is not known is refused before *)
Definition conn_init (c : positive) (known_domain : bool) : Xm unit :=
  if known_domain then
    tmp_parser ← g_markup_parse_context_new (Of_conn c);
    flom_conn_set_parser c tmp_parser
  else throw (Rc FLOM_RC_OBJ_CORRUPTED).

(** A message for the connection: without a parser it is refused, which the
    functions of the daemon and of the lockers test and GLib's does for the client. *)
Definition message_for (c : positive) : Xm unit :=
  x ← flom_conn_get_parser c;
  match x with
  | None => throw (Rc FLOM_RC_NULL_OBJECT)
  | Some x => parse_with x
  end.

(** ** The client *)

(** A function with a local message, which is no more when the function returns *)
Definition with_message {A} (body : positive -> Xm A) : Xm A :=
  m ← address;
  _ ← modify (fun s => put_locals ({[ m ]} ∪ x_locals s) s);
  finally (body m) (modify (fun s => put_locals (x_locals s ∖ {[ m ]}) s)).

(** ["instantiate a new parser"], in the two functions that do it *)
Definition make_parser (c m : positive) : Xm unit :=
  tmp_parser ← g_markup_parse_context_new (Of_local m);
  flom_conn_set_parser c tmp_parser.
(** The answer of [flom_client_discover_udp] *)
Definition discover_parser (c : positive) : Xm unit :=
  with_message (fun m => _ ← make_parser c m; message_for c).

Fixpoint messages_for (n : nat) (c : positive) : Xm unit :=
  match n with
  | O => mret tt
  | S n => _ ← message_for c; messages_for n c
  end.
(** [flom_client_lock], with the number of messages that arrive: [None] when the
    function fails before the first one, else those that [flom_client_wait_lock]
    parses after it. *)
Definition lock_parser (c : positive) (answers : option nat) : Xm unit :=
  with_message (fun m =>
    finally
      (match answers with
       | None => mret tt
       | Some n =>
           _ ← make_parser c m;
           _ ← message_for c;
           messages_for n c
       end)
      (flom_conn_free_parser c)).

(** The calls of a client on a connection, those that do not touch the parser aside *)
Inductive client_call : Type := Discovers | Locks (answers : option nat).
Definition run_client_call (c : positive) (call : client_call) : Xm unit :=
  match call with
  | Discovers => discover_parser c
  | Locks answers => lock_parser c answers
  end.
Fixpoint run_client (c : positive) (l : list client_call) : Xm unit :=
  match l with
  | [] => conn_delete c
  | call :: l => _ ← run_client_call c call; run_client c l
  end.

(** ** The daemon and the lockers *)

(** What becomes of a new connection whose object is ready: the negotiation of TLS
    succeeds (or is not asked), or it fails and its socket is closed or cannot be. *)
Inductive negotiation : Type := Negotiated | Terminated | Not_terminated.
(** A new connection of [flom_accept_loop_pollin].  The one of a domain that is not
    known, and the one whose socket cannot be closed, are released; any other enters
    the table, the terminated one for the next clean-up. *)
Definition enters (n : negotiation) : bool :=
  match n with Negotiated | Terminated => true | Not_terminated => false end.
Definition accept_parser (known_domain : bool) (n : negotiation) : Xm (option positive) :=
  c ← conn_new;
  r ← attempt (conn_init c known_domain);
  match r with
  | inl _ => _ ← conn_delete c; mret None
  | inr _ => if enters n then mret (Some c) else _ ← conn_delete c; mret None
  end.

(** A connection that is released with its parser *)
Definition release_conn (c : positive) : Xm unit := _ ← flom_conn_free_parser c; conn_delete c.
(** [flom_conns_clean]: the connections of the table that are marked are released
    with their parser; the rounds are those of [Conns.clean_loop]. *)
Fixpoint clean_parsers (marked : positive -> bool) (fuel i : nat) (table : list positive)
    : Xm (list positive) :=
  match fuel with
  | O => throw NoFuel
  | S fuel =>
      match table !! i with
      | None => mret table
      | Some c =>
          if marked c then
            _ ← release_conn c;
            clean_parsers marked fuel i (remove_index_fast i table)
          else clean_parsers marked fuel (S i) table
      end
  end.

(** What happens to the parsers of a table: a connection arrives, a message for one of
    the table, a clean-up *)
Inductive daemon_event : Type :=
| Accepts (known_domain : bool) (n : negotiation)
| Message (id : nat)
| Cleans (marked : positive -> bool).
Definition run_event (e : daemon_event) (table : list positive) : Xm (list positive) :=
  match e with
  | Accepts known_domain n =>
      c ← accept_parser known_domain n; mret (table ++ option_list c)%list
  | Message id =>
      _ ← match table !! id with Some c => message_for c | None => throw (Rc FLOM_RC_NULL_OBJECT) end;
      mret table
  | Cleans marked => clean_parsers marked (S (length table)) 0 table
  end.
(** The errors of an event do not change the table. *)
Fixpoint run_events (l : list daemon_event) (table : list positive) : Xm (list positive) :=
  match l with
  | [] => mret table
  | e :: l =>
      r ← attempt (run_event e table);
      run_events l (match r with inr table' => table' | inl _ => table end)
  end.

(** ** Steps *)
Definition fresh_from (s : parsers) : Prop :=
  forall x, (x_next s <= x)%positive ->
    x_live s !! x = None /\ x_conns s !! x = None /\ x ∉ x_locals s.

Lemma wp_parser_of c x (Q : err + option positive -> parsers -> Prop) s :
  x_conns s !! c = Some x -> Q (inr x) s -> wp (parser_of c) Q s.
Proof. intros Hc HQ. unfold parser_of. do 2 wp_step. rewrite Hc. by apply wp_ret. Qed.
Lemma wp_put_parser c x y (Q : err + unit -> parsers -> Prop) s :
  x_conns s !! c = Some y -> Q (inr tt) (put_objects (<[c := x]> (x_conns s)) s) ->
  wp (put_parser c x) Q s.
Proof. intros Hc HQ. unfold put_parser. wp_step. eapply wp_parser_of; [done|]. by wp_step. Qed.
Lemma wp_context_free x m (Q : err + unit -> parsers -> Prop) s :
  x_live s !! x = Some m -> Q (inr tt) (put_live (delete x (x_live s)) s) ->
  wp (g_markup_parse_context_free x) Q s.
Proof.
  intros Hx HQ. unfold g_markup_parse_context_free. do 3 wp_step. rewrite Hx. apply wp_ret. by wp_step.
Qed.
Lemma wp_conn_delete c y (Q : err + unit -> parsers -> Prop) s :
  x_conns s !! c = Some y -> Q (inr tt) (put_objects (delete c (x_conns s)) s) ->
  wp (conn_delete c) Q s.
Proof. intros Hc HQ. unfold conn_delete. wp_step. eapply wp_parser_of; [done|]. by wp_step. Qed.
Lemma wp_message_for c x m (Q : err + unit -> parsers -> Prop) s :
  x_conns s !! c = Some (Some x) -> x_live s !! x = Some m -> there m s = true ->
  Q (inr tt) s -> wp (message_for c) Q s.
Proof.
  intros Hc Hx Hm HQ. unfold message_for, flom_conn_get_parser. wp_step.
  eapply wp_parser_of; [done|]. unfold parse_with. do 3 wp_step. rewrite Hx. apply wp_ret.
  do 2 wp_step. rewrite Hm. by apply wp_ret.
Qed.

(** ** A connection of the client

    [L] are the parsers of the other connections.  When the connection has a parser,
    it is none of them. *)
Definition client_at (c : positive) (L : gmap positive filled) (locals : gset positive)
    (given : bool) (s : parsers) : Prop :=
  fresh_from s /\ x_locals s = locals /\
  if given then exists x m, x_conns s !! c = Some (Some x) /\ L !! x = None /\ x_live s = <[x := m]> L
  else x_conns s !! c = Some None /\ x_live s = L.
Definition client_with (c m : positive) (L : gmap positive filled) (locals : gset positive)
    (s : parsers) : Prop :=
  fresh_from s /\ x_locals s = locals /\ m ∈ locals /\
  exists x, x_conns s !! c = Some (Some x) /\ L !! x = None /\ x_live s = <[x := Of_local m]> L.

Lemma wp_context_new m (Q : err + positive -> parsers -> Prop) s :
  Q (inr (x_next s)) (Parsers (<[x_next s := m]> (x_live s)) (x_conns s) (x_locals s) (Pos.succ (x_next s))) ->
  wp (g_markup_parse_context_new m) Q s.
Proof. exact id. Qed.
Lemma wp_object_new (Q : err + positive -> parsers -> Prop) s :
  Q (inr (x_next s)) (Parsers (x_live s) (<[x_next s := None]> (x_conns s)) (x_locals s) (Pos.succ (x_next s))) ->
  wp conn_new Q s.
Proof. exact id. Qed.
Lemma fresh_from_next s live conns locals :
  fresh_from s ->
  (forall x, (x_next s < x)%positive -> x_live s !! x = None -> live !! x = None) ->
  (forall x, (x_next s < x)%positive -> x_conns s !! x = None -> conns !! x = None) ->
  (forall x, (x_next s < x)%positive -> x ∉ x_locals s -> x ∉ locals) ->
  fresh_from (Parsers live conns locals (Pos.succ (x_next s))).
Proof.
  intros Hf H1 H2 H3 x Hx. cbn in *. destruct (Hf x ltac:(lia)) as (? & ? & ?).
  split_and!; [apply H1 | apply H2 | apply H3]; try done; lia.
Qed.

Section client.
Context (c : positive) (L : gmap positive filled).

Lemma wp_free_conn locals b (Q : err + unit -> parsers -> Prop) s :
  client_at c L locals b s ->
  (forall s', client_at c L locals false s' -> Q (inr tt) s') ->
  wp (flom_conn_free_parser c) Q s.
Proof.
  intros (Hf & Hl & Hb) HQ. unfold flom_conn_free_parser. wp_step. destruct b.
  - destruct Hb as (x & m & Hc & Hx & HL). eapply wp_parser_of; [done|]. cbn beta iota. wp_step.
    eapply wp_context_free; [rewrite HL; apply lookup_insert_eq|].
    eapply wp_put_parser; [exact Hc|]. apply HQ. split_and!; [|done| |].
    + intros y Hy. destruct (Hf y Hy) as (H1 & H2 & H3). cbn. split_and!; [|  |done].
      * rewrite lookup_delete_None. by right.
      * rewrite lookup_insert_ne; [done|]. intros ->. congruence.
    + apply lookup_insert_eq.
    + cbn. by rewrite HL, delete_insert_id.
  - destruct Hb as [Hc HL]. eapply wp_parser_of; [done|]. cbn beta iota. wp_step. by apply HQ.
Qed.

Lemma wp_new_and_set m locals b (Q : err + unit -> parsers -> Prop) s :
  client_at c L locals b s -> m ∈ locals ->
  (forall s', client_with c m L locals s' -> Q (inr tt) s') ->
  wp (make_parser c m) Q s.
Proof.
  intros (Hf & Hl & Hb) Hm HQ. unfold make_parser. wp_step. apply wp_context_new. unfold flom_conn_set_parser.
  set (x := x_next s). destruct (Hf x ltac:(lia)) as (Hx1 & Hx2 & Hx3).
  assert (Hne : c <> x) by (intros ->; destruct b; [destruct Hb as (? & ? & ? & _) | destruct Hb]; congruence).
  wp_step. destruct b.
  - destruct Hb as (y & n & Hc & Hy & HL). eapply wp_parser_of; [exact Hc|]. wp_step. cbn [free_given].
    assert (x <> y). { intros ->. rewrite HL, lookup_insert_eq in Hx1. done. }
    eapply wp_context_free; [cbn; by rewrite lookup_insert_ne, HL, lookup_insert_eq|].
    eapply wp_put_parser; [exact Hc|]. apply HQ. split_and!; [|done|done|].
    + apply fresh_from_next; [done|..]; intros z Hz.
      * intros H1. cbn. rewrite lookup_delete_None. right. by rewrite lookup_insert_ne by (unfold x; lia).
      * intros H1. cbn. rewrite lookup_insert_ne; [done|]. intros ->. congruence.
      * done.
    + exists x. cbn. split_and!; [apply lookup_insert_eq | |].
      * rewrite HL in Hx1. by rewrite lookup_insert_ne in Hx1.
      * rewrite HL, delete_insert_ne by done. by rewrite delete_insert_id.
  - destruct Hb as [Hc HL]. eapply wp_parser_of; [exact Hc|]. wp_step. cbn [free_given]. wp_step.
    eapply wp_put_parser; [exact Hc|]. apply HQ. split_and!; [|done|done|].
    + apply fresh_from_next; [done|..]; intros z Hz.
      * intros H1. cbn. by rewrite lookup_insert_ne by (unfold x; lia).
      * intros H1. cbn. rewrite lookup_insert_ne; [done|]. intros ->. congruence.
      * done.
    + exists x. cbn. split_and!; [apply lookup_insert_eq | congruence | by rewrite HL].
Qed.
Lemma wp_with_message locals b b' body (Q : err + unit -> parsers -> Prop) s :
  client_at c L locals b s ->
  (forall m s1, client_at c L ({[ m ]} ∪ locals) b s1 ->
     wp (body m) (fun r s2 => r = inr tt /\ client_at c L ({[ m ]} ∪ locals) b' s2) s1) ->
  (forall s', client_at c L locals b' s' -> Q (inr tt) s') ->
  wp (with_message body) Q s.
Proof.
  intros (Hf & Hl & Hb) Hbody HQ. unfold with_message, address.
  set (m := x_next s). destruct (Hf m ltac:(lia)) as (Hm1 & Hm2 & Hm3).
  wp_step. unfold wp at 1. cbn -[wp mbind finally]. do 2 wp_step. apply wp_finally.
  eapply wp_mono; [|apply Hbody].
  - intros r s2 [-> (Hf2 & Hl2 & Hb2)]. do 3 wp_step. apply HQ. split_and!; [| |exact Hb2].
    + intros x Hx. destruct (Hf2 x Hx) as (? & ? & ?). cbn. split_and!; [done..|].
      intros [? _]%elem_of_difference. done.
    + cbn. rewrite Hl2. rewrite Hl in Hm3. by rewrite difference_union_distr_l_L, difference_diag_L, (left_id_L ∅ _), difference_disjoint_L by (clear -Hm3; set_solver).
  - split_and!; [| |exact Hb].
    + apply fresh_from_next; [done|done|done|]. intros x Hx Hn. apply not_elem_of_union. split; [|done].
      apply not_elem_of_singleton. unfold m. lia.
    + cbn. by rewrite Hl.
Qed.

Lemma wp_client_message m locals (Q : err + unit -> parsers -> Prop) s :
  client_with c m L locals s -> Q (inr tt) s -> wp (message_for c) Q s.
Proof.
  intros (_ & Hl & Hm & x & Hc & _ & HL) HQ. eapply wp_message_for; [exact Hc| |..|exact HQ].
  - rewrite HL. apply lookup_insert_eq.
  - cbn. rewrite Hl. by apply bool_decide_eq_true.
Qed.
Lemma wp_client_messages m locals n (Q : err + unit -> parsers -> Prop) s :
  client_with c m L locals s -> Q (inr tt) s -> wp (messages_for n c) Q s.
Proof.
  intros Hs HQ. induction n as [|n IH]; cbn [messages_for]; [by wp_step|].
  wp_step. by eapply wp_client_message.
Qed.
Lemma client_with_at m locals s : client_with c m L locals s -> client_at c L locals true s.
Proof. intros (? & ? & _ & x & ? & ? & ?). split_and!; [done..|]. eauto. Qed.

Definition leaves_parser (call : client_call) : bool :=
  match call with Discovers => true | Locks _ => false end.
Lemma wp_client_call call locals b (Q : err + unit -> parsers -> Prop) s :
  client_at c L locals b s ->
  (forall s', client_at c L locals (leaves_parser call) s' -> Q (inr tt) s') ->
  wp (run_client_call c call) Q s.
Proof.
  intros Hs HQ. destruct call as [|answers]; cbn [run_client_call leaves_parser] in *;
    (eapply wp_with_message; [exact Hs| |exact HQ]); intros m s1 H1.
  - wp_step. eapply wp_new_and_set; [exact H1 | set_solver|]. intros s2 H2.
    eapply wp_client_message; [exact H2|]. split; [done | by eapply client_with_at].
  - apply wp_finally. destruct answers as [n|].
    + wp_step. eapply wp_new_and_set; [exact H1 | set_solver|]. intros s2 H2. wp_step.
      eapply wp_client_message; [exact H2|]. eapply wp_client_messages; [exact H2|].
      wp_step. eapply wp_free_conn; [by eapply client_with_at|]. intros s3 H3. by wp_step.
    + do 2 wp_step. eapply wp_free_conn; [exact H1|]. intros s3 H3. by wp_step.
Qed.

(** Whether the last call is a discovery; [b] is for no call. *)
Fixpoint leaves (b : bool) (l : list client_call) : bool :=
  match l with [] => b | call :: l => leaves (leaves_parser call) l end.
Lemma run_client_ok locals l : forall b s,
  client_at c L locals b s ->
  wp (run_client c l) (fun r s' => r = inr tt /\ x_locals s' = locals /\ x_conns s' !! c = None /\
    if leaves b l then exists x m, L !! x = None /\ x_live s' = <[x := m]> L else x_live s' = L) s.
Proof.
  induction l as [|call l IH]; intros b s Hs; cbn [run_client leaves].
  - destruct Hs as (Hf & Hl & Hb).
    assert (Hc : exists y, x_conns s !! c = Some y) by (destruct b; [destruct Hb as (? & ? & ? & _) | destruct Hb]; eauto).
    destruct Hc as [y Hc]. eapply wp_conn_delete; [exact Hc|]. split_and!; [done..| |].
    + apply lookup_delete_eq.
    + destruct b; [destruct Hb as (x & m & _ & ? & ?); eauto | apply Hb].
  - wp_step. eapply wp_client_call; [exact Hs|]. intros s' Hs'. by apply IH.
Qed.
End client.

(** safety.  A connection of a client is made, used by any sequence of discoveries and
    locks, whatever the number of answers each receives, and deleted: no parser is
    used or released twice, none writes in the message of a function that has
    returned, and what the program has at the end is what it had before, but for one
    parser when the last call is a discovery: [flom_conn_delete] does not release it. *)
Theorem client_parsers_released s l :
  fresh_from s ->
  wp (c ← conn_new; run_client c l) (fun r s' => r = inr tt /\ x_locals s' = x_locals s /\
    if leaves false l then exists x m, x_live s !! x = None /\ x_live s' = <[x := m]> (x_live s)
    else x_live s' = x_live s) s.
Proof.
  intros Hf. wp_step. apply wp_object_new.
  eapply wp_mono; [|apply (run_client_ok _ (x_live s) (x_locals s) l false)].
  - by intros r s' (-> & Hl & _ & H).
  - split_and!; [|done| |done].
    + apply fresh_from_next; [done| |..|]; try done. intros x Hx Hn. by rewrite lookup_insert_ne by lia.
    + apply lookup_insert_eq.
Qed.

(** ** A table of connections

    [lost] parsers are of no connection of the table. *)
Record table_at (table : list positive) (lost : nat) (s : parsers) : Prop := Table_at {
  ta_fresh : fresh_from s;
  ta_nodup : NoDup table;
  ta_conns : forall c, is_Some (x_conns s !! c) <-> c ∈ table;
  ta_parser : forall c, c ∈ table ->
    exists x, x_conns s !! c = Some (Some x) /\ x_live s !! x = Some (Of_conn c);
  ta_size : size (x_live s) = (length table + lost)%nat
}.

Lemma table_perm table table' lost s : table ≡ₚ table' -> table_at table lost s -> table_at table' lost s.
Proof.
  intros Hp [Hf Hn Hc Hx Hs]. split; [done | by rewrite <- Hp | | | by rewrite <- Hp].
  - intros c. by rewrite <- Hp.
  - intros c. rewrite <- Hp. apply Hx.
Qed.

Lemma wp_message table lost c (Q : err + unit -> parsers -> Prop) s :
  table_at table lost s -> c ∈ table -> Q (inr tt) s -> wp (message_for c) Q s.
Proof.
  intros H Hc HQ. destruct (ta_parser _ _ _ H c Hc) as (x & Ex & El).
  eapply wp_message_for; [exact Ex | exact El | | exact HQ].
  apply bool_decide_eq_true. by rewrite Ex.
Qed.

Lemma wp_clean_one table lost c (Q : err + unit -> parsers -> Prop) s :
  table_at (c :: table) lost s -> (forall s', table_at table lost s' -> Q (inr tt) s') ->
  wp (release_conn c) Q s.
Proof.
  intros [Hf Hn Hc Hx Hs] HQ. apply list.NoDup_cons in Hn as [Hni Hn].
  destruct (Hx c ltac:(left)) as (x & Ex & El). unfold release_conn, flom_conn_free_parser.
  do 2 wp_step. eapply wp_parser_of; [exact Ex|]. cbn beta iota. wp_step.
  eapply wp_context_free; [exact El|]. eapply wp_put_parser; [exact Ex|].
  eapply wp_conn_delete; [apply lookup_insert_eq|]. apply HQ. split.
  - intros y Hy. destruct (Hf y Hy) as (? & ? & ?). cbn. split_and!; [| |done].
    + rewrite lookup_delete_None. by right.
    + rewrite delete_insert_eq. rewrite lookup_delete_None. by right.
  - done.
  - intros d. cbn. rewrite delete_insert_eq. destruct (decide (d = c)) as [->|Hd].
    + rewrite lookup_delete_eq. split; [by intros [??] | done].
    + rewrite lookup_delete_ne, Hc, list.elem_of_cons by done. tauto.
  - intros d Hd. assert (d <> c) by (by intros ->). destruct (Hx d ltac:(by right)) as (y & Ey & Ly).
    exists y. cbn. rewrite delete_insert_eq, lookup_delete_ne by done. split; [done|].
    rewrite lookup_delete_ne; [done|]. intros ->. congruence.
  - cbn. rewrite map_size_delete, El, Hs. cbn. lia.
Qed.

Definition unmarked (marked : positive -> bool) (table : list positive) : list positive :=
  base.filter (fun c => marked c = false) table.
Lemma wp_clean_parsers marked lost fuel : forall i table s,
  table_at table lost s -> (length table - i < fuel)%nat ->
  wp (clean_parsers marked fuel i table) (fun r s' => exists table', r = inr table' /\
    table' ≡ₚ take i table ++ unmarked marked (drop i table) /\ table_at table' lost s') s.
Proof.
  induction fuel as [|fuel IH]; intros i table s H Hi; [lia|]. cbn [clean_parsers].
  destruct (table !! i) as [c|] eqn:Ec.
  - assert (Ht := list.take_drop_middle table i c Ec). assert (Hl := lookup_lt_Some _ _ _ Ec).
    set (l1 := take i table) in *. set (l2 := drop (S i) table) in *.
    assert (El : length l1 = i) by (unfold l1; rewrite length_take; lia). clearbody l1 l2. subst i table.
    destruct (marked c) eqn:Em.
    + wp_step. destruct (remove_index_fast_spec l1 l2 c) as (l2' & -> & Hp).
      assert (H1 : table_at (c :: l1 ++ l2') lost s).
      { eapply table_perm; [|exact H]. by rewrite Hp, Permutation_middle. }
      eapply wp_clean_one; [exact H1|]. intros s1 H2.
      eapply wp_mono; [|apply IH; [exact H2|]].
      * intros r s2 (table' & -> & Ht & H3). exists table'. split_and!; [done | | done].
        rewrite Ht, take_app_length, drop_app_length. unfold unmarked. rewrite Hp.
        rewrite drop_app_length. by rewrite filter_cons_False by (by rewrite Em).
      * rewrite !length_app in *. cbn in Hi. rewrite Hp. lia.
    + eapply wp_mono; [|apply IH; [exact H|]].
      * intros r s2 (table' & -> & Ht & H3). exists table'. split_and!; [done | | done].
        rewrite Ht, drop_app_length. unfold unmarked. rewrite filter_cons_True by done.
        replace (S (length l1)) with (length (l1 ++ [c])) by (rewrite length_app; cbn; lia).
        replace (l1 ++ c :: l2) with ((l1 ++ [c]) ++ l2) by (by rewrite <- app_assoc).
        rewrite take_app_length, drop_app_length. by rewrite <- app_assoc.
      * rewrite !length_app in *. cbn in *. lia.
  - wp_step. exists table. apply lookup_ge_None in Ec. rewrite take_ge, drop_ge by done.
    split_and!; [done | by rewrite app_nil_r | done].
Qed.

(** The connections that are released after they have a parser *)
Definition loses (e : daemon_event) : nat :=
  match e with Accepts true Not_terminated => 1%nat | _ => 0%nat end.

Lemma wp_accept table lost known n s :
  table_at table lost s ->
  wp (accept_parser known n) (fun r s' => exists o, r = inr o /\
    (enters n = false -> o = None) /\
    table_at (table ++ option_list o) (lost + loses (Accepts known n))%nat s') s.
Proof.
  intros [Hf Hn Hc Hx Hs]. unfold accept_parser. wp_step. apply wp_object_new.
  set (c := x_next s). destruct (Hf c ltac:(lia)) as (Hc1 & Hc2 & _).
  do 2 wp_step. unfold conn_init. destruct known.
  - wp_step. apply wp_context_new. unfold flom_conn_set_parser. cbn [x_next x_live x_conns x_locals].
    fold c. wp_step. eapply wp_parser_of; [apply lookup_insert_eq|]. cbn [free_given]. do 2 wp_step.
    eapply wp_put_parser; [apply lookup_insert_eq|]. cbn [x_next x_live x_conns x_locals put_objects].
    rewrite insert_insert_eq.
    set (x := Pos.succ c). destruct (Hf x ltac:(unfold x, c; lia)) as (Hx1 & _ & _).
    assert (Hct : c ∉ table) by (rewrite <- Hc, Hc2; by intros [? ?]).
    assert (Hne : forall d y, x_live s !! y = Some d -> x <> y) by (intros d y E ->; congruence).
    assert (Hf' : forall l conns, (forall y, (x < y)%positive -> x_live s !! y = None -> l !! y = None) ->
      (forall y, (x < y)%positive -> x_conns s !! y = None -> conns !! y = None) ->
      fresh_from (Parsers l conns (x_locals s) (Pos.succ x))).
    { intros l conns H1 H2 y Hy. cbn in Hy. destruct (Hf y ltac:(unfold x, c in *; lia)) as (? & ? & ?).
      split_and!; [apply H1 | apply H2 |]; done || lia. }
    assert (El : loses (Accepts true n) = if enters n then 0%nat else 1%nat) by (by destruct n).
    rewrite El. clear El. destruct (enters n).
    + wp_step. exists (Some c). split_and!; [done..|]. cbn [option_list]. split.
      * apply Hf'; intros y Hy Hn'; cbn; by rewrite lookup_insert_ne by (unfold x in *; lia).
      * rewrite Permutation_app_comm. cbn. by apply list.NoDup_cons.
      * intros d. cbn. rewrite list.elem_of_app, list_elem_of_singleton, <- Hc.
        destruct (decide (d = c)) as [->|Hd]; [rewrite lookup_insert_eq; split; [by right | by eexists]|].
        rewrite lookup_insert_ne by done. tauto.
      * intros d. cbn. rewrite list.elem_of_app, list_elem_of_singleton. intros [Hd| ->].
        -- destruct (Hx d Hd) as (y & E1 & E2). exists y.
           rewrite !lookup_insert_ne by (by eapply Hne || congruence). done.
        -- exists x. by rewrite !lookup_insert_eq.
      * cbn. rewrite map_size_insert_None by done. rewrite length_app, Hs. cbn. lia.
    + wp_step. eapply wp_conn_delete; [apply lookup_insert_eq|]. wp_step. exists None. split_and!; [done..|].
      cbn [option_list]. rewrite app_nil_r. cbn. rewrite delete_insert_eq, delete_id by done. split.
      * apply Hf'; intros y Hy Hn'; cbn; [by rewrite lookup_insert_ne by lia | done].
      * done.
      * exact Hc.
      * intros d Hd. destruct (Hx d Hd) as (y & E1 & E2). exists y. split; [exact E1|]. cbn.
        by rewrite lookup_insert_ne by (by eapply Hne).
      * cbn. rewrite map_size_insert_None by done. lia.
  - wp_step. cbn beta iota. wp_step. eapply wp_conn_delete; [apply lookup_insert_eq|]. wp_step.
    exists None. split_and!; [done..|]. cbn [option_list loses]. rewrite app_nil_r, Nat.add_0_r.
    cbn. rewrite delete_insert_eq, delete_id by done. split; [|done..].
    by apply fresh_from_next.
Qed.

(** safety.  Whatever happens to a table of connections, in any order: no parser is
    used or released twice, no message is written in a connection that is no more,
    and each connection of the table has a parser of its own, which fills its own
    message.  The other parsers that the program has, if it had none at the start,
    are one for each connection whose negotiation of TLS failed and whose socket
    could not be closed ([flom_conn_delete] does not release it). *)
Theorem table_parsers_owned l : forall table lost s,
  table_at table lost s ->
  wp (run_events l table) (fun r s' => exists table', r = inr table' /\
    table_at table' (lost + sum_list (loses <$> l))%nat s') s.
Proof.
  induction l as [|e l IH]; intros table lost s H; cbn [run_events].
  - wp_step. exists table. by rewrite Nat.add_0_r.
  - assert (Hnext : forall table' s', table_at table' (lost + loses e)%nat s' ->
      wp (run_events l table') (fun r s' => exists table', r = inr table' /\
    table_at table' (lost + sum_list (loses <$> e :: l))%nat s') s').
    { intros table' s' H'. eapply wp_mono; [|by apply IH]. intros r s2 (t & -> & H2). exists t.
      split; [done|]. cbn. by rewrite Nat.add_assoc. }
    do 2 wp_step. destruct e as [known n|id|marked]; cbn [run_event].
    + wp_step. eapply wp_mono; [|by apply wp_accept]. intros r s' (o & -> & _ & H'). wp_step. by apply Hnext.
    + wp_step. destruct (table !! id) as [c|] eqn:Ec.
      * eapply wp_message; [exact H | by eapply list_elem_of_lookup_2|]. wp_step.
        apply Hnext. by rewrite Nat.add_0_r.
      * wp_step. apply Hnext. by rewrite Nat.add_0_r.
    + eapply wp_mono; [|apply (wp_clean_parsers _ lost); [exact H | lia]].
      intros r s' (table' & -> & _ & H'). apply Hnext. by rewrite Nat.add_0_r.
Qed.

Definition no_parsers : parsers := Parsers ∅ ∅ ∅ 1.
Lemma no_parsers_fresh : fresh_from no_parsers.
Proof. by intros x _. Qed.
Lemma no_table : table_at [] 0 no_parsers.
Proof.
  split; [exact no_parsers_fresh | constructor | | by intros c ?%list.not_elem_of_nil | done].
  intros c. split; [by intros [? ?] | by intros ?%list.not_elem_of_nil].
Qed.

Lemma unclosed_events n : forall lost s, table_at [] lost s ->
  wp (run_events (replicate n (Accepts true Not_terminated)) []) (fun r s' =>
    r = inr [] /\ table_at [] (lost + n)%nat s') s.
Proof.
  induction n as [|n IH]; intros lost s H; cbn [replicate run_events].
  - wp_step. by rewrite Nat.add_0_r.
  - do 2 wp_step. cbn [run_event]. wp_step. eapply wp_mono; [|by apply wp_accept].
    intros r s' (o & -> & Ho & H'). rewrite Ho in * by done. wp_step.
    replace (lost + S n)%nat with (lost + 1 + n)%nat by lia. by apply IH.
Qed.

(** error.  Each connection whose negotiation of TLS fails, and whose socket cannot be
    closed, leaves a parser in the daemon: after [n] of them the table is empty, and [n] parsers are not released. *)
Theorem unclosed_connections_leak n :
  wp (run_events (replicate n (Accepts true Not_terminated)) []) (fun r s' =>
    r = inr [] /\ size (x_live s') = n) no_parsers.
Proof.
  eapply wp_mono; [|exact (unclosed_events n 0 _ no_table)].
  intros r s' [-> H]. split; [done | exact (ta_size _ _ _ H)].
Qed.

(** Examples: a client that discovers the daemon, waits twice and ends, and one that
    discovers it for another request than a lock; a table where a client leaves *)
Example demo_client :
  let run l := (c ← conn_new; run_client c l) no_parsers in
  (run [Discovers; Locks (Some 2%nat)]).1 = inr tt /\
  size (x_live (run [Discovers; Locks (Some 2%nat)]).2) = 0%nat /\
  size (x_live (run [Discovers]).2) = 1%nat.
Proof. by vm_compute. Qed.
Example demo_table :
  let s := run_events [Accepts true Negotiated; Accepts true Terminated; Message 1; Accepts true Not_terminated;
                       Cleans (Pos.eqb 1); Message 0] [] no_parsers in
  s.1 = inr [3%positive] /\ size (x_live s.2) = 2%nat.
Proof. by vm_compute. Qed.
